(* ===== verification/_CoqProject ===== *)
-Q . S2P
Prelude.v
State.v
Spinlock.v
CString.v
Kalloc.v
Sched.v
SchedSpec.v
Vm.v
VmSpec.v
ProcMem.v
Wp.v
UvmSpec.v
UvmGrow.v
KvmSpec.v
Sleeplock.v
Bio.v
BioSpec.v
Log.v
LogSpec.v
Fs.v
FsView.v
FsSpec.v
NameSpec.v
FsTxn.v
FsAlloc.v
FsMap.v
FsWrite.v
WriteSpec.v
OpSpec.v
Uart.v
Console.v
File.v
PipeSpec.v
FileSpec.v
FileThm.v
Proc.v
ProcSpec.v
ProcThm.v
WaitSpec.v
Exec.v
Syscall.v
Virtio.v
VirtioSpec.v
Trap.v
User.v
ULib.v
Utils.v
Grep.v
Grind.v
Sh.v
ShSpec.v
ShRound.v
UMalloc.v
UMallocSpec.v
MkFs.v
MkFsSpec.v
ImageSpec.v
Riscv.v
Asm.v
UserMode.v
