(* ===== verification/Prelude.v ===== *)
(** * Verification of an xv6-riscv system with four schedulers

    The program is the xv6 teaching kernel for RISC-V (src/kernel), its user
    programs (src/user) and the builder of its file system image (src/mkfs), with the
    additions of a course assignment: system call tracing, per-process performance
    counters reported by wait_stat(), process priorities, a scheduler chosen at build
    time among round robin (DEFAULT), first come first served (FCFS), shortest
    remaining time (SRT) and completely fair with priority decay (CFSD), and a shell
    that searches the folders listed in the file /path.

    ** How the kernel is modelled

    A kernel function is a Rocq function in the monad [M] of State.v.  A state
    is a [machine] (the harts, the executing hart, the spin locks) and a [kdata]
    (every other variable of the kernel, physical memory included, one record field per
    C variable or structure).  C structures are records with the C field
    names, pointers into fixed tables are [option nat] indices, integers are [Z] with
    the wrap-around of their C type written out ([u8], [u16], [u32], [u64],
    [i16], [i32] below), and arrays and memory are total functions updated point by
    point ([f.[a := b]]).

    A function runs on one hart.  Where it lets others run (a spin-loop
    iteration, a context switch, a wait for a device) it consumes the next element of the
    schedule [env], a function saying what the rest of the machine did meanwhile; with
    an empty schedule the run stops as [Waiting].  panic() stops it as
    [Panicked].  So a theorem that holds for every schedule holds for every
    interleaving at these points.  Code between two such points that other harts could
    observe is protected by locks in the C code and is taken as atomic.  Wp.v has a
    weakest-precondition calculus for the runs that do not wait; the buffer cache, the
    log, the file system and the life of processes are verified in it.

    The assembly, start.c, kvminithart(), trapinithart() and usertrapret() are
    modelled on the registers of a hart (Riscv.v): general and control registers, the
    privilege mode, Sv39 translation through the page table that satp names, and an
    interpreter for the instructions the assembly uses.

    A user program is an interaction tree over the system calls of user.h (User.v).
    mkfs is a function from the files given to it to the image.

    ** Fuel and bounds

    Waiting loops are [loop], whose fuel is the length of the schedule plus one: each
    turn but the last consumes an element, so the fuel cannot run out first.  Loops over
    data recurse on the data or on a number of rounds the code enforces: the
    pages or blocks of the request ([mappages_fuel], [io_fuel], and the length for the
    copy loops), the elements of a path, the three levels of a page table, the
    characters in a buffer, the completions the device reports, four units for each byte
    of a command line.  The theorems on these functions are about the functions with
    that fuel and state results, so a run out of fuel would refute them.

    ** Files, and the sources they model

    - State: the structures of the kernel headers, the state, the monad.
    - Spinlock: spinlock.c.  CString: string.c over byte memories.
    - Kalloc: kalloc.c, the free list threaded through the free pages.
    - Sched, SchedSpec: proc.c's scheduler() with its four policies, sched,
      yield, sleep, wakeup, kill, set_priority, trace and the clock accounting.
    - Vm, VmSpec, UvmSpec, UvmGrow, KvmSpec: vm.c, Sv39 page tables in physical memory;
      user address spaces, growing and shrinking them, and the kernel's own table.
    - ProcMem, Proc, ProcSpec, ProcThm, WaitSpec: the rest of proc.c (allocproc, fork,
      exit, wait, wait_stat, growproc, ...).
    - Wp: the calculus.  Sleeplock: sleeplock.c.
    - Bio, BioSpec: bio.c, with the disk driver as the class [DiskDriver].
    - Log, LogSpec: log.c.
    - Fs: fs.c.  FsView and FsSpec (files on disk and readi), NameSpec (inodes and path
      names), FsTxn, FsAlloc, FsMap, FsWrite, WriteSpec, OpSpec (allocation and writing
      inside transactions).
    - Uart, Console: uart.c, printf.c, console.c.
    - File: pipe.c and file.c, with PipeSpec, FileSpec and FileThm.
    - Exec: exec.c.  Syscall: syscall.c, sysproc.c, sysfile.c.
    - Virtio, VirtioSpec: virtio_disk.c.  Trap: trap.c, plic.c, main.c.
    - User, ULib, Utils, Grep, Grind: the user library and the programs.  Sh, ShSpec,
      ShRound: sh.c.  UMalloc, UMallocSpec: umalloc.c.
    - MkFs, MkFsSpec: mkfs.c.  ImageSpec: the kernel on an image of mkfs.
    - Riscv: riscv.h.  Asm: entry.S, start.c, swtch.S, kernelvec.S, trampoline.S.
      UserMode: usertrapret() with the trampoline.

    ** What is proved

    - Locks: mutual exclusion of acquire(), matched push_off()/pop_off().
    - Scheduling: one round of each policy hands the CPU to the process that the policy
      promises, DEFAULT starves nobody, sleep() loses no wakeup.
    - Boot: start() takes every hart to main() in supervisor mode with its timer
      running; kinit() and kvminit() cannot fail on an image that leaves 138 pages and
      paging with their table is transparent to the kernel, with the text write
      protected and guard pages under the stacks.
    - Traps and switches: swtch() resumes what it saved; kernelvec and timervec are
      invisible to the code they interrupt; usertrapret(), userret, the next trap and
      uservec fit together, whatever the program does in between.
    - Memory: mappages, uvmunmap, copyout and copyin against the translation of the page
      table and the bytes the user can address; no page is lost or owned twice.
    - Processes: fork() copies the parent, growproc() resizes, wait() and wait_stat()
      reap a child and give its pages back; priorities stay in their range.
    - Storage: the disk driver against the class the buffer cache assumes, the
      cache against an abstract block store, the log against crashes after any number of
      disk writes, and on top of them reading, writing and looking up files; a write
      through an open file is crash atomic chunk by chunk and fits the log.
    - mkfs and the kernel together: the kernel finds and reads what mkfs stored.
    - User programs: the shell's parser ends on every line and inverts printing, the
      search of /path, malloc() and free() against the free memory, grep against the
      language of the pattern, grind's generator against Park and Miller's.
    - Defects: the theorems named in the findings show them on the model.

    ** Not modelled

    - usertests.c, test.c, test2.c and test4.c: tests of the kernel, which have no
      function of their own to state (test.c and most of test2.c are commented out).
    - The stubs usys.pl generates and initcode.S: the kernel's side of the convention is
      argraw() and the array initcode of proc.c.
    - ramdisk.c, which no object list of the Makefile names and which uses fields that
      struct buf does not have; kernel.ld and the headers that only declare.
    - Of the hardware: instruction fetch, the TLB (sfence_vma does nothing here), the U,
      A and D bits in the translation of a hart, and the accessors of riscv.h that only
      read a trap's cause or the clock.  Devices act through the schedule or,
      for the disk, through the class [DiskDriver].
    - In sh.c a node allocation that fails, which the program does not check. *)

From Stdlib Require Export ZArith Lia FunctionalExtensionality.
From stdpp Require Export strings prelude list.
Open Scope Z_scope.

#[global] Arguments Z.eqb : simpl nomatch.
#[global] Arguments Z.ltb : simpl nomatch.
#[global] Arguments Z.leb : simpl nomatch.
#[global] Arguments Z.compare : simpl nomatch.
#[global] Arguments Z.add : simpl nomatch.
#[global] Arguments Z.sub : simpl nomatch.
#[global] Arguments Z.mul : simpl nomatch.

(** ** Machine integers: a C value of width [w] is a [Z]; the wrap-around is explicit. *)

Definition u8 (z : Z) : Z := z mod 2 ^ 8.
Definition u16 (z : Z) : Z := z mod 2 ^ 16.
Definition u32 (z : Z) : Z := z mod 2 ^ 32.
Definition u64 (z : Z) : Z := z mod 2 ^ 64.

(** Two's complement reading of the low 32 bits, what [addw]/[mulw] leave in a C [int]. *)
Definition i32 (z : Z) : Z := (z + 2 ^ 31) mod 2 ^ 32 - 2 ^ 31.

(** The same for a C [short]. *)
Definition i16 (z : Z) : Z := (z + 2 ^ 15) mod 2 ^ 16 - 2 ^ 15.

Definition int_range (z : Z) : Prop := - 2 ^ 31 <= z < 2 ^ 31.
Definition uint64_range (z : Z) : Prop := 0 <= z < 2 ^ 64.

Lemma u32_range z : 0 <= u32 z < 2 ^ 32.
Proof. apply Z.mod_pos_bound. lia. Qed.

Lemma u64_range z : uint64_range (u64 z).
Proof. apply Z.mod_pos_bound. lia. Qed.

Lemma u32_small z : 0 <= z < 2 ^ 32 -> u32 z = z.
Proof. apply Z.mod_small. Qed.

Lemma u64_small z : 0 <= z < 2 ^ 64 -> u64 z = z.
Proof. apply Z.mod_small. Qed.

Lemma i32_range z : int_range (i32 z).
Proof.
  unfold i32, int_range. pose proof (Z.mod_pos_bound (z + 2 ^ 31) (2 ^ 32)). lia.
Qed.

Lemma i32_small z : int_range z -> i32 z = z.
Proof. unfold i32, int_range. intros H. rewrite Z.mod_small; lia. Qed.

(** ** Total arrays and memories: functions with a point update. *)

Section fupd.
Context {A B : Type} `{EqDecision A}.
Implicit Types (f : A -> B) (a : A) (b : B).

Definition fupd f a b : A -> B := fun x => if decide (x = a) then b else f x.

Lemma fupd_eq f a b : fupd f a b a = b.
Proof. unfold fupd. by rewrite decide_True. Qed.

Lemma fupd_ne f a b x : x <> a -> fupd f a b x = f x.
Proof. intros. unfold fupd. by rewrite decide_False. Qed.

Lemma fupd_fupd f a b b' : fupd (fupd f a b) a b' = fupd f a b'.
Proof. extensionality x. unfold fupd. by case_decide. Qed.

Lemma fupd_id f a : fupd f a (f a) = f.
Proof. extensionality x. unfold fupd. case_decide; congruence. Qed.

Lemma fupd_comm f a a' b b' :
    a <> a' -> fupd (fupd f a b) a' b' = fupd (fupd f a' b') a b.
Proof. intros. extensionality x. unfold fupd. repeat case_decide; congruence. Qed.
End fupd.

(** ** Lists *)

Lemma nth_take_lt {A} (l : list A) n i x : (i < n)%nat -> nth i (take n l) x = nth i l x.
Proof. revert n i. induction l as [|y l IH]; intros [|n] [|i] H; simpl; try done; [lia|lia|apply IH; lia]. Qed.

Lemma nth_drop_add {A} (l : list A) n i x : nth i (drop n l) x = nth (n + i) l x.
Proof. revert n. induction l as [|y l IH]; intros [|n]; simpl; try done; by destruct i. Qed.

Lemma find_app_or {A} (f : A -> bool) l k :
  find f (l ++ k) = match find f l with Some x => Some x | None => find f k end.
Proof. induction l as [|x l IH]; simpl; [done|]. by destruct (f x). Qed.

Lemma find_none_forall {A} (f : A -> bool) l : Forall (fun x => f x = false) l -> find f l = None.
Proof. induction 1 as [|x l Hx _ IH]; simpl; [done|]. by rewrite Hx. Qed.

Lemma seq_map_add {A} (f : nat -> A) n k : map f (seq n k) = map (fun i => f (n + i)%nat) (seq 0 k).
Proof.
  revert n. induction k as [|k IH]; intros n; [done|]. simpl. rewrite Nat.add_0_r. f_equal.
  rewrite IH, <- seq_shift, map_map. apply map_ext. intros i. f_equal. lia.
Qed.

(** Facts about the machine and the process table, for [auto]. *)
Create HintDb kdb.

Declare Scope kern_scope.
Delimit Scope kern_scope with kern.
Open Scope kern_scope.

Notation "f .[ a := b ]" := (fupd f a b)
  (at level 1, a at level 200, b at level 200, left associativity, format "f .[ a  :=  b ]") : kern_scope.

(** ** Bit masks *)

Lemma testbit_high x w n : 0 <= x < 2 ^ w -> w <= n -> Z.testbit x n = false.
Proof.
  intros Hx Hn. destruct (Z.eq_dec x 0) as [->|H0]; [apply Z.bits_0|].
  apply Z.bits_above_log2; [lia|]. apply Z.log2_lt_pow2; [lia|].
  apply Z.lt_le_trans with (2 ^ w); [lia|]. apply Z.pow_le_mono_r; lia.
Qed.

(** Clearing the low [k] bits of a [w]-bit word. *)
Lemma land_high_mask x w k :
  0 <= k <= w -> 0 <= x < 2 ^ w -> Z.land x (2 ^ w - 2 ^ k) = x / 2 ^ k * 2 ^ k.
Proof.
  intros Hk Hx.
  replace (2 ^ w - 2 ^ k) with (Z.shiftl (Z.ones (w - k)) k).
  2: { rewrite Z.ones_equiv, Z.shiftl_mul_pow2 by lia. unfold Z.pred.
       rewrite Z.mul_add_distr_r, <- Z.pow_add_r by lia. rewrite Z.sub_add. lia. }
  rewrite <- Z.shiftr_div_pow2, <- Z.shiftl_mul_pow2 by lia.
  apply Z.bits_inj'. intros n Hn. rewrite Z.land_spec.
  destruct (Z.lt_ge_cases n k).
  - by rewrite !Z.shiftl_spec_low, andb_false_r by lia.
  - rewrite !Z.shiftl_spec_high, Z.shiftr_spec by lia. rewrite Z.sub_add.
    destruct (Z.lt_ge_cases n w).
    + by rewrite Z.ones_spec_low, andb_true_r by lia.
    + by rewrite (testbit_high x w n) by lia.
Qed.
