(* ===== verification/State.v ===== *)
(** * Kernel state and the kernel monad

    The C structures of the header files (proc.h, spinlock.h, sleeplock.h,
    param.h, memlayout.h, riscv.h), the kernel's global variables gathered in one record, and the
    monad in which every kernel function is written.  Field setters are
    plain functions named [set_<field>]. *)

From S2P Require Import Prelude.
Open Scope Z_scope.

(** ** Constants (param.h, memlayout.h, riscv.h) *)

Definition NPROC : nat := 64.
Definition NCPU : nat := 8.
Definition NOFILE : nat := 16.
Definition NFILE : nat := 100.
Definition NINODE : nat := 50.
Definition NDEV : Z := 10.
Definition ROOTDEV : Z := 1.
Definition MAXARG : Z := 32.
Definition MAXOPBLOCKS : Z := 10.
Definition LOGSIZE : Z := MAXOPBLOCKS * 3.
Definition NBUF : nat := 30.
Definition MAXPATH : Z := 128.
Definition QUANTUM : Z := 5.
Definition TEST_HIGH_PRIORITY : Z := 1.
Definition HIGH_PRIORITY : Z := 3.
Definition NORMAL_PRIORITY : Z := 5.
Definition LOW_PRIORITY : Z := 7.
Definition TEST_LOW_PRIORITY : Z := 25.
Definition ALPHA : Z := 50.

Definition PGSIZE : Z := 4096.
Definition PGSHIFT : Z := 12.
Definition MAXVA : Z := Z.shiftl 1 (9 + 9 + 9 + 12 - 1).
Definition KERNBASE : Z := 0x80000000.
Definition PHYSTOP : Z := KERNBASE + 128 * 1024 * 1024.
Definition TRAMPOLINE : Z := MAXVA - PGSIZE.
Definition KSTACK (p : Z) : Z := TRAMPOLINE - (p + 1) * 2 * PGSIZE.
Definition TRAPFRAME : Z := TRAMPOLINE - PGSIZE.

(** [PGROUNDUP]/[PGROUNDDOWN] on a [uint64] argument. *)
Definition PGROUNDUP (sz : Z) : Z := Z.land (u64 (sz + PGSIZE - 1)) (u64 (Z.lnot (PGSIZE - 1))).
Definition PGROUNDDOWN (a : Z) : Z := Z.land a (u64 (Z.lnot (PGSIZE - 1))).

(** ** Locks (spinlock.h) *)

(** The sleep locks of the kernel: one per buffer and one per in-memory inode. *)
Inductive slockid := SL_buf (i : nat) | SL_inode (i : nat).

#[global] Instance slockid_eq_dec : EqDecision slockid.
Proof. solve_decision. Defined.

(** The spin locks of the kernel, one constructor per C lock object; [LK_sl l] is
    the spin lock inside sleep lock [l]. *)
Inductive lockid :=
| LK_pid | LK_wait | LK_kmem | LK_ticks | LK_proc (i : nat)
| LK_bcache | LK_log | LK_itable | LK_ftable | LK_vdisk | LK_cons | LK_uart_tx | LK_pr
| LK_pipe (pi : Z) | LK_sl (l : slockid).

#[global] Instance lockid_eq_dec : EqDecision lockid.
Proof. solve_decision. Defined.

Record spinlock := mkSpinlock {
  locked : Z;  (** Is the lock held? *)
  lk_name : string;  (** Name of lock. *)
  lk_cpu : option nat  (** The cpu holding the lock. *)
}.

Definition set_locked (v : Z) (r : spinlock) : spinlock :=
  mkSpinlock v (lk_name r) (lk_cpu r).
Definition set_lk_name (v : string) (r : spinlock) : spinlock :=
  mkSpinlock (locked r) v (lk_cpu r).
Definition set_lk_cpu (v : option nat) (r : spinlock) : spinlock :=
  mkSpinlock (locked r) (lk_name r) v.


(** ** Per-CPU state (struct cpu of proc.h), with the SIE bit of the hart's sstatus *)

Record cpu := mkCpu {
  c_proc : option nat;  (** The process running on this cpu, or null. *)
  noff : Z;  (** Depth of push_off() nesting. *)
  intena : bool;  (** Were interrupts enabled before push_off()? *)
  sie : bool  (** SSTATUS_SIE: are device interrupts enabled? *)
}.

Definition set_c_proc (v : option nat) (r : cpu) : cpu :=
  mkCpu v (noff r) (intena r) (sie r).
Definition set_noff (v : Z) (r : cpu) : cpu :=
  mkCpu (c_proc r) v (intena r) (sie r).
Definition set_intena (v : bool) (r : cpu) : cpu :=
  mkCpu (c_proc r) (noff r) v (sie r).
Definition set_sie (v : bool) (r : cpu) : cpu :=
  mkCpu (c_proc r) (noff r) (intena r) v.


(** ** Processes (proc.h) *)

Inductive procstate := UNUSED | USED | SLEEPING | RUNNABLE | RUNNING | ZOMBIE.

#[global] Instance procstate_eq_dec : EqDecision procstate.
Proof. solve_decision. Defined.

(** Sleep channels: the kernel addresses that the code sleeps on. *)
Inductive wchan :=
| CH_proc (i : nat) | CH_ticks | CH_log | CH_nread (pi : Z) | CH_nwrite (pi : Z)
| CH_cons_r | CH_uart_tx_r | CH_disk_free | CH_buf (i : nat)
| CH_sl (l : slockid).

#[global] Instance wchan_eq_dec : EqDecision wchan.
Proof. solve_decision. Defined.

(** Saved registers for kernel context switches; [ctx_s] holds s0..s11. *)
Record context := mkContext {
  ctx_ra : Z;
  ctx_sp : Z;
  ctx_s : list Z
}.

Definition set_ctx_ra (v : Z) (r : context) : context :=
  mkContext v (ctx_sp r) (ctx_s r).
Definition set_ctx_sp (v : Z) (r : context) : context :=
  mkContext (ctx_ra r) v (ctx_s r).
Definition set_ctx_s (v : list Z) (r : context) : context :=
  mkContext (ctx_ra r) (ctx_sp r) v.


(** [struct proc]; its lock is [LK_proc i].  Pointers into the process,
    file and inode tables are indices, the null pointer is [None]. *)
Record proc := mkProc {
  p_state : procstate;
  p_chan : option wchan;  (** If non-zero, sleeping on chan *)
  p_killed : Z;
  p_xstate : Z;
  p_pid : Z;
  p_mask : Z;  (** mask for trace *)
  p_tickcounter : Z;
  p_priority : Z;
  p_ctime : Z;
  p_ttime : Z;
  p_stime : Z;
  p_retime : Z;
  p_rutime : Z;
  p_average_bursttime : Z;
  p_readyTime : Z;
  p_runningTime : Z;
  p_sleepTime : Z;
  p_parent : option nat;
  p_kstack : Z;
  p_sz : Z;
  p_pagetable : Z;
  p_trapframe : Z;
  p_context : context;
  p_ofile : nat -> option nat;
  p_cwd : option nat;
  p_name : Z -> Z  (** char name[16] *)
}.

Definition set_p_state (v : procstate) (r : proc) : proc :=
  mkProc v (p_chan r) (p_killed r) (p_xstate r) (p_pid r) (p_mask r) (p_tickcounter r)
    (p_priority r) (p_ctime r) (p_ttime r) (p_stime r) (p_retime r) (p_rutime r)
    (p_average_bursttime r) (p_readyTime r) (p_runningTime r) (p_sleepTime r) (p_parent r)
    (p_kstack r) (p_sz r) (p_pagetable r) (p_trapframe r) (p_context r) (p_ofile r) (p_cwd r)
    (p_name r).
Definition set_p_chan (v : option wchan) (r : proc) : proc :=
  mkProc (p_state r) v (p_killed r) (p_xstate r) (p_pid r) (p_mask r) (p_tickcounter r)
    (p_priority r) (p_ctime r) (p_ttime r) (p_stime r) (p_retime r) (p_rutime r)
    (p_average_bursttime r) (p_readyTime r) (p_runningTime r) (p_sleepTime r) (p_parent r)
    (p_kstack r) (p_sz r) (p_pagetable r) (p_trapframe r) (p_context r) (p_ofile r) (p_cwd r)
    (p_name r).
Definition set_p_killed (v : Z) (r : proc) : proc :=
  mkProc (p_state r) (p_chan r) v (p_xstate r) (p_pid r) (p_mask r) (p_tickcounter r) (p_priority r)
    (p_ctime r) (p_ttime r) (p_stime r) (p_retime r) (p_rutime r) (p_average_bursttime r)
    (p_readyTime r) (p_runningTime r) (p_sleepTime r) (p_parent r) (p_kstack r) (p_sz r)
    (p_pagetable r) (p_trapframe r) (p_context r) (p_ofile r) (p_cwd r) (p_name r).
Definition set_p_xstate (v : Z) (r : proc) : proc :=
  mkProc (p_state r) (p_chan r) (p_killed r) v (p_pid r) (p_mask r) (p_tickcounter r) (p_priority r)
    (p_ctime r) (p_ttime r) (p_stime r) (p_retime r) (p_rutime r) (p_average_bursttime r)
    (p_readyTime r) (p_runningTime r) (p_sleepTime r) (p_parent r) (p_kstack r) (p_sz r)
    (p_pagetable r) (p_trapframe r) (p_context r) (p_ofile r) (p_cwd r) (p_name r).
Definition set_p_pid (v : Z) (r : proc) : proc :=
  mkProc (p_state r) (p_chan r) (p_killed r) (p_xstate r) v (p_mask r) (p_tickcounter r)
    (p_priority r) (p_ctime r) (p_ttime r) (p_stime r) (p_retime r) (p_rutime r)
    (p_average_bursttime r) (p_readyTime r) (p_runningTime r) (p_sleepTime r) (p_parent r)
    (p_kstack r) (p_sz r) (p_pagetable r) (p_trapframe r) (p_context r) (p_ofile r) (p_cwd r)
    (p_name r).
Definition set_p_mask (v : Z) (r : proc) : proc :=
  mkProc (p_state r) (p_chan r) (p_killed r) (p_xstate r) (p_pid r) v (p_tickcounter r)
    (p_priority r) (p_ctime r) (p_ttime r) (p_stime r) (p_retime r) (p_rutime r)
    (p_average_bursttime r) (p_readyTime r) (p_runningTime r) (p_sleepTime r) (p_parent r)
    (p_kstack r) (p_sz r) (p_pagetable r) (p_trapframe r) (p_context r) (p_ofile r) (p_cwd r)
    (p_name r).
Definition set_p_tickcounter (v : Z) (r : proc) : proc :=
  mkProc (p_state r) (p_chan r) (p_killed r) (p_xstate r) (p_pid r) (p_mask r) v (p_priority r)
    (p_ctime r) (p_ttime r) (p_stime r) (p_retime r) (p_rutime r) (p_average_bursttime r)
    (p_readyTime r) (p_runningTime r) (p_sleepTime r) (p_parent r) (p_kstack r) (p_sz r)
    (p_pagetable r) (p_trapframe r) (p_context r) (p_ofile r) (p_cwd r) (p_name r).
Definition set_p_priority (v : Z) (r : proc) : proc :=
  mkProc (p_state r) (p_chan r) (p_killed r) (p_xstate r) (p_pid r) (p_mask r) (p_tickcounter r) v
    (p_ctime r) (p_ttime r) (p_stime r) (p_retime r) (p_rutime r) (p_average_bursttime r)
    (p_readyTime r) (p_runningTime r) (p_sleepTime r) (p_parent r) (p_kstack r) (p_sz r)
    (p_pagetable r) (p_trapframe r) (p_context r) (p_ofile r) (p_cwd r) (p_name r).
Definition set_p_ctime (v : Z) (r : proc) : proc :=
  mkProc (p_state r) (p_chan r) (p_killed r) (p_xstate r) (p_pid r) (p_mask r) (p_tickcounter r)
    (p_priority r) v (p_ttime r) (p_stime r) (p_retime r) (p_rutime r) (p_average_bursttime r)
    (p_readyTime r) (p_runningTime r) (p_sleepTime r) (p_parent r) (p_kstack r) (p_sz r)
    (p_pagetable r) (p_trapframe r) (p_context r) (p_ofile r) (p_cwd r) (p_name r).
Definition set_p_ttime (v : Z) (r : proc) : proc :=
  mkProc (p_state r) (p_chan r) (p_killed r) (p_xstate r) (p_pid r) (p_mask r) (p_tickcounter r)
    (p_priority r) (p_ctime r) v (p_stime r) (p_retime r) (p_rutime r) (p_average_bursttime r)
    (p_readyTime r) (p_runningTime r) (p_sleepTime r) (p_parent r) (p_kstack r) (p_sz r)
    (p_pagetable r) (p_trapframe r) (p_context r) (p_ofile r) (p_cwd r) (p_name r).
Definition set_p_stime (v : Z) (r : proc) : proc :=
  mkProc (p_state r) (p_chan r) (p_killed r) (p_xstate r) (p_pid r) (p_mask r) (p_tickcounter r)
    (p_priority r) (p_ctime r) (p_ttime r) v (p_retime r) (p_rutime r) (p_average_bursttime r)
    (p_readyTime r) (p_runningTime r) (p_sleepTime r) (p_parent r) (p_kstack r) (p_sz r)
    (p_pagetable r) (p_trapframe r) (p_context r) (p_ofile r) (p_cwd r) (p_name r).
Definition set_p_retime (v : Z) (r : proc) : proc :=
  mkProc (p_state r) (p_chan r) (p_killed r) (p_xstate r) (p_pid r) (p_mask r) (p_tickcounter r)
    (p_priority r) (p_ctime r) (p_ttime r) (p_stime r) v (p_rutime r) (p_average_bursttime r)
    (p_readyTime r) (p_runningTime r) (p_sleepTime r) (p_parent r) (p_kstack r) (p_sz r)
    (p_pagetable r) (p_trapframe r) (p_context r) (p_ofile r) (p_cwd r) (p_name r).
Definition set_p_rutime (v : Z) (r : proc) : proc :=
  mkProc (p_state r) (p_chan r) (p_killed r) (p_xstate r) (p_pid r) (p_mask r) (p_tickcounter r)
    (p_priority r) (p_ctime r) (p_ttime r) (p_stime r) (p_retime r) v (p_average_bursttime r)
    (p_readyTime r) (p_runningTime r) (p_sleepTime r) (p_parent r) (p_kstack r) (p_sz r)
    (p_pagetable r) (p_trapframe r) (p_context r) (p_ofile r) (p_cwd r) (p_name r).
Definition set_p_average_bursttime (v : Z) (r : proc) : proc :=
  mkProc (p_state r) (p_chan r) (p_killed r) (p_xstate r) (p_pid r) (p_mask r) (p_tickcounter r)
    (p_priority r) (p_ctime r) (p_ttime r) (p_stime r) (p_retime r) (p_rutime r) v (p_readyTime r)
    (p_runningTime r) (p_sleepTime r) (p_parent r) (p_kstack r) (p_sz r) (p_pagetable r)
    (p_trapframe r) (p_context r) (p_ofile r) (p_cwd r) (p_name r).
Definition set_p_readyTime (v : Z) (r : proc) : proc :=
  mkProc (p_state r) (p_chan r) (p_killed r) (p_xstate r) (p_pid r) (p_mask r) (p_tickcounter r)
    (p_priority r) (p_ctime r) (p_ttime r) (p_stime r) (p_retime r) (p_rutime r)
    (p_average_bursttime r) v (p_runningTime r) (p_sleepTime r) (p_parent r) (p_kstack r) (p_sz r)
    (p_pagetable r) (p_trapframe r) (p_context r) (p_ofile r) (p_cwd r) (p_name r).
Definition set_p_runningTime (v : Z) (r : proc) : proc :=
  mkProc (p_state r) (p_chan r) (p_killed r) (p_xstate r) (p_pid r) (p_mask r) (p_tickcounter r)
    (p_priority r) (p_ctime r) (p_ttime r) (p_stime r) (p_retime r) (p_rutime r)
    (p_average_bursttime r) (p_readyTime r) v (p_sleepTime r) (p_parent r) (p_kstack r) (p_sz r)
    (p_pagetable r) (p_trapframe r) (p_context r) (p_ofile r) (p_cwd r) (p_name r).
Definition set_p_sleepTime (v : Z) (r : proc) : proc :=
  mkProc (p_state r) (p_chan r) (p_killed r) (p_xstate r) (p_pid r) (p_mask r) (p_tickcounter r)
    (p_priority r) (p_ctime r) (p_ttime r) (p_stime r) (p_retime r) (p_rutime r)
    (p_average_bursttime r) (p_readyTime r) (p_runningTime r) v (p_parent r) (p_kstack r) (p_sz r)
    (p_pagetable r) (p_trapframe r) (p_context r) (p_ofile r) (p_cwd r) (p_name r).
Definition set_p_parent (v : option nat) (r : proc) : proc :=
  mkProc (p_state r) (p_chan r) (p_killed r) (p_xstate r) (p_pid r) (p_mask r) (p_tickcounter r)
    (p_priority r) (p_ctime r) (p_ttime r) (p_stime r) (p_retime r) (p_rutime r)
    (p_average_bursttime r) (p_readyTime r) (p_runningTime r) (p_sleepTime r) v (p_kstack r)
    (p_sz r) (p_pagetable r) (p_trapframe r) (p_context r) (p_ofile r) (p_cwd r) (p_name r).
Definition set_p_kstack (v : Z) (r : proc) : proc :=
  mkProc (p_state r) (p_chan r) (p_killed r) (p_xstate r) (p_pid r) (p_mask r) (p_tickcounter r)
    (p_priority r) (p_ctime r) (p_ttime r) (p_stime r) (p_retime r) (p_rutime r)
    (p_average_bursttime r) (p_readyTime r) (p_runningTime r) (p_sleepTime r) (p_parent r) v
    (p_sz r) (p_pagetable r) (p_trapframe r) (p_context r) (p_ofile r) (p_cwd r) (p_name r).
Definition set_p_sz (v : Z) (r : proc) : proc :=
  mkProc (p_state r) (p_chan r) (p_killed r) (p_xstate r) (p_pid r) (p_mask r) (p_tickcounter r)
    (p_priority r) (p_ctime r) (p_ttime r) (p_stime r) (p_retime r) (p_rutime r)
    (p_average_bursttime r) (p_readyTime r) (p_runningTime r) (p_sleepTime r) (p_parent r)
    (p_kstack r) v (p_pagetable r) (p_trapframe r) (p_context r) (p_ofile r) (p_cwd r) (p_name r).
Definition set_p_pagetable (v : Z) (r : proc) : proc :=
  mkProc (p_state r) (p_chan r) (p_killed r) (p_xstate r) (p_pid r) (p_mask r) (p_tickcounter r)
    (p_priority r) (p_ctime r) (p_ttime r) (p_stime r) (p_retime r) (p_rutime r)
    (p_average_bursttime r) (p_readyTime r) (p_runningTime r) (p_sleepTime r) (p_parent r)
    (p_kstack r) (p_sz r) v (p_trapframe r) (p_context r) (p_ofile r) (p_cwd r) (p_name r).
Definition set_p_trapframe (v : Z) (r : proc) : proc :=
  mkProc (p_state r) (p_chan r) (p_killed r) (p_xstate r) (p_pid r) (p_mask r) (p_tickcounter r)
    (p_priority r) (p_ctime r) (p_ttime r) (p_stime r) (p_retime r) (p_rutime r)
    (p_average_bursttime r) (p_readyTime r) (p_runningTime r) (p_sleepTime r) (p_parent r)
    (p_kstack r) (p_sz r) (p_pagetable r) v (p_context r) (p_ofile r) (p_cwd r) (p_name r).
Definition set_p_context (v : context) (r : proc) : proc :=
  mkProc (p_state r) (p_chan r) (p_killed r) (p_xstate r) (p_pid r) (p_mask r) (p_tickcounter r)
    (p_priority r) (p_ctime r) (p_ttime r) (p_stime r) (p_retime r) (p_rutime r)
    (p_average_bursttime r) (p_readyTime r) (p_runningTime r) (p_sleepTime r) (p_parent r)
    (p_kstack r) (p_sz r) (p_pagetable r) (p_trapframe r) v (p_ofile r) (p_cwd r) (p_name r).
Definition set_p_ofile (v : nat -> option nat) (r : proc) : proc :=
  mkProc (p_state r) (p_chan r) (p_killed r) (p_xstate r) (p_pid r) (p_mask r) (p_tickcounter r)
    (p_priority r) (p_ctime r) (p_ttime r) (p_stime r) (p_retime r) (p_rutime r)
    (p_average_bursttime r) (p_readyTime r) (p_runningTime r) (p_sleepTime r) (p_parent r)
    (p_kstack r) (p_sz r) (p_pagetable r) (p_trapframe r) (p_context r) v (p_cwd r) (p_name r).
Definition set_p_cwd (v : option nat) (r : proc) : proc :=
  mkProc (p_state r) (p_chan r) (p_killed r) (p_xstate r) (p_pid r) (p_mask r) (p_tickcounter r)
    (p_priority r) (p_ctime r) (p_ttime r) (p_stime r) (p_retime r) (p_rutime r)
    (p_average_bursttime r) (p_readyTime r) (p_runningTime r) (p_sleepTime r) (p_parent r)
    (p_kstack r) (p_sz r) (p_pagetable r) (p_trapframe r) (p_context r) (p_ofile r) v (p_name r).
Definition set_p_name (v : Z -> Z) (r : proc) : proc :=
  mkProc (p_state r) (p_chan r) (p_killed r) (p_xstate r) (p_pid r) (p_mask r) (p_tickcounter r)
    (p_priority r) (p_ctime r) (p_ttime r) (p_stime r) (p_retime r) (p_rutime r)
    (p_average_bursttime r) (p_readyTime r) (p_runningTime r) (p_sleepTime r) (p_parent r)
    (p_kstack r) (p_sz r) (p_pagetable r) (p_trapframe r) (p_context r) (p_ofile r) (p_cwd r) v.


(** ** The machine part: the executing hart, the harts and the spin locks *)

Record machine := mkMachine {
  tp : nat;  (** the thread pointer register: this hart's id *)
  cpus : nat -> cpu;
  locks : lockid -> spinlock
}.

Definition set_tp (v : nat) (r : machine) : machine :=
  mkMachine v (cpus r) (locks r).
Definition set_cpus (v : nat -> cpu) (r : machine) : machine :=
  mkMachine (tp r) v (locks r).
Definition set_locks (v : lockid -> spinlock) (r : machine) : machine :=
  mkMachine (tp r) (cpus r) v.


(** Addresses fixed by the linker script kernel.ld. *)
Record symbols := mkSymbols {
  sy_etext : Z;  (** end of kernel code *)
  sy_end : Z;  (** first address after the kernel *)
  sy_trampoline : Z;
  sy_forkret : Z;
  sy_usertrap : Z
}.

Definition set_sy_etext (v : Z) (r : symbols) : symbols :=
  mkSymbols v (sy_end r) (sy_trampoline r) (sy_forkret r) (sy_usertrap r).
Definition set_sy_end (v : Z) (r : symbols) : symbols :=
  mkSymbols (sy_etext r) v (sy_trampoline r) (sy_forkret r) (sy_usertrap r).
Definition set_sy_trampoline (v : Z) (r : symbols) : symbols :=
  mkSymbols (sy_etext r) (sy_end r) v (sy_forkret r) (sy_usertrap r).
Definition set_sy_forkret (v : Z) (r : symbols) : symbols :=
  mkSymbols (sy_etext r) (sy_end r) (sy_trampoline r) v (sy_usertrap r).
Definition set_sy_usertrap (v : Z) (r : symbols) : symbols :=
  mkSymbols (sy_etext r) (sy_end r) (sy_trampoline r) (sy_forkret r) v.


(** ** Files and pipes (file.h, pipe.c) *)

Inductive filetype := FD_NONE | FD_PIPE | FD_INODE | FD_DEVICE.

#[global] Instance filetype_eq_dec : EqDecision filetype.
Proof. solve_decision. Defined.

Record file := mkFile {
  f_type : filetype;
  f_ref : Z;  (** reference count *)
  f_readable : Z;
  f_writable : Z;
  f_pipe : Z;  (** FD_PIPE *)
  f_ip : option nat;  (** FD_INODE and FD_DEVICE *)
  f_off : Z;  (** FD_INODE *)
  f_major : Z  (** FD_DEVICE *)
}.

Definition set_f_type (v : filetype) (r : file) : file :=
  mkFile v (f_ref r) (f_readable r) (f_writable r) (f_pipe r) (f_ip r) (f_off r) (f_major r).
Definition set_f_ref (v : Z) (r : file) : file :=
  mkFile (f_type r) v (f_readable r) (f_writable r) (f_pipe r) (f_ip r) (f_off r) (f_major r).
Definition set_f_readable (v : Z) (r : file) : file :=
  mkFile (f_type r) (f_ref r) v (f_writable r) (f_pipe r) (f_ip r) (f_off r) (f_major r).
Definition set_f_writable (v : Z) (r : file) : file :=
  mkFile (f_type r) (f_ref r) (f_readable r) v (f_pipe r) (f_ip r) (f_off r) (f_major r).
Definition set_f_pipe (v : Z) (r : file) : file :=
  mkFile (f_type r) (f_ref r) (f_readable r) (f_writable r) v (f_ip r) (f_off r) (f_major r).
Definition set_f_ip (v : option nat) (r : file) : file :=
  mkFile (f_type r) (f_ref r) (f_readable r) (f_writable r) (f_pipe r) v (f_off r) (f_major r).
Definition set_f_off (v : Z) (r : file) : file :=
  mkFile (f_type r) (f_ref r) (f_readable r) (f_writable r) (f_pipe r) (f_ip r) v (f_major r).
Definition set_f_major (v : Z) (r : file) : file :=
  mkFile (f_type r) (f_ref r) (f_readable r) (f_writable r) (f_pipe r) (f_ip r) (f_off r) v.


(** The functions that devsw[] can point to. *)
Inductive devfn := FN_consoleread | FN_consolewrite.

Record devsw_entry := mkDevsw {
  dv_read : option devfn;
  dv_write : option devfn
}.

Definition set_dv_read (v : option devfn) (r : devsw_entry) : devsw_entry :=
  mkDevsw v (dv_write r).
Definition set_dv_write (v : option devfn) (r : devsw_entry) : devsw_entry :=
  mkDevsw (dv_read r) v.


(** [struct pipe]; its lock is [LK_pipe pi]. *)
Record pipe := mkPipe {
  pi_data : Z -> Z;  (** char data[PIPESIZE] *)
  pi_nread : Z;  (** number of bytes read *)
  pi_nwrite : Z;  (** number of bytes written *)
  pi_readopen : Z;
  pi_writeopen : Z
}.

Definition set_pi_data (v : Z -> Z) (r : pipe) : pipe :=
  mkPipe v (pi_nread r) (pi_nwrite r) (pi_readopen r) (pi_writeopen r).
Definition set_pi_nread (v : Z) (r : pipe) : pipe :=
  mkPipe (pi_data r) v (pi_nwrite r) (pi_readopen r) (pi_writeopen r).
Definition set_pi_nwrite (v : Z) (r : pipe) : pipe :=
  mkPipe (pi_data r) (pi_nread r) v (pi_readopen r) (pi_writeopen r).
Definition set_pi_readopen (v : Z) (r : pipe) : pipe :=
  mkPipe (pi_data r) (pi_nread r) (pi_nwrite r) v (pi_writeopen r).
Definition set_pi_writeopen (v : Z) (r : pipe) : pipe :=
  mkPipe (pi_data r) (pi_nread r) (pi_nwrite r) (pi_readopen r) v.


(** ** The file system's memory and the disk (buf.h, sleeplock.h, fs.h, file.h, log.c) *)

(** [struct buf]; its sleep lock is [SL_buf i].  [prev] and [next] are indices;
    the list head bcache.head has index NBUF. *)
Record buf := mkBuf {
  b_valid : Z;  (** has data been read from disk? *)
  b_disk : Z;  (** does disk own buf? *)
  b_dev : Z;
  b_blockno : Z;
  b_refcnt : Z;
  b_prev : nat;
  b_next : nat;
  b_data : Z -> Z  (** uchar data[BSIZE] *)
}.

Definition set_b_valid (v : Z) (r : buf) : buf :=
  mkBuf v (b_disk r) (b_dev r) (b_blockno r) (b_refcnt r) (b_prev r) (b_next r) (b_data r).
Definition set_b_disk (v : Z) (r : buf) : buf :=
  mkBuf (b_valid r) v (b_dev r) (b_blockno r) (b_refcnt r) (b_prev r) (b_next r) (b_data r).
Definition set_b_dev (v : Z) (r : buf) : buf :=
  mkBuf (b_valid r) (b_disk r) v (b_blockno r) (b_refcnt r) (b_prev r) (b_next r) (b_data r).
Definition set_b_blockno (v : Z) (r : buf) : buf :=
  mkBuf (b_valid r) (b_disk r) (b_dev r) v (b_refcnt r) (b_prev r) (b_next r) (b_data r).
Definition set_b_refcnt (v : Z) (r : buf) : buf :=
  mkBuf (b_valid r) (b_disk r) (b_dev r) (b_blockno r) v (b_prev r) (b_next r) (b_data r).
Definition set_b_prev (v : nat) (r : buf) : buf :=
  mkBuf (b_valid r) (b_disk r) (b_dev r) (b_blockno r) (b_refcnt r) v (b_next r) (b_data r).
Definition set_b_next (v : nat) (r : buf) : buf :=
  mkBuf (b_valid r) (b_disk r) (b_dev r) (b_blockno r) (b_refcnt r) (b_prev r) v (b_data r).
Definition set_b_data (v : Z -> Z) (r : buf) : buf :=
  mkBuf (b_valid r) (b_disk r) (b_dev r) (b_blockno r) (b_refcnt r) (b_prev r) (b_next r) v.


(** [struct sleeplock] without its spin lock. *)
Record sleeplock := mkSleeplock {
  sl_locked : Z;
  sl_name : string;
  sl_pid : Z  (** Process holding lock *)
}.

Definition set_sl_locked (v : Z) (r : sleeplock) : sleeplock :=
  mkSleeplock v (sl_name r) (sl_pid r).
Definition set_sl_name (v : string) (r : sleeplock) : sleeplock :=
  mkSleeplock (sl_locked r) v (sl_pid r).
Definition set_sl_pid (v : Z) (r : sleeplock) : sleeplock :=
  mkSleeplock (sl_locked r) (sl_name r) v.


(** [struct log] with its header. *)
Record log_t := mkLog {
  log_start : Z;
  log_size : Z;
  log_outstanding : Z;  (** how many FS sys calls are executing *)
  log_committing : Z;  (** in commit(), please wait *)
  log_dev : Z;
  lh_n : Z;
  lh_block : Z -> Z
}.

Definition set_log_start (v : Z) (r : log_t) : log_t :=
  mkLog v (log_size r) (log_outstanding r) (log_committing r) (log_dev r) (lh_n r) (lh_block r).
Definition set_log_size (v : Z) (r : log_t) : log_t :=
  mkLog (log_start r) v (log_outstanding r) (log_committing r) (log_dev r) (lh_n r) (lh_block r).
Definition set_log_outstanding (v : Z) (r : log_t) : log_t :=
  mkLog (log_start r) (log_size r) v (log_committing r) (log_dev r) (lh_n r) (lh_block r).
Definition set_log_committing (v : Z) (r : log_t) : log_t :=
  mkLog (log_start r) (log_size r) (log_outstanding r) v (log_dev r) (lh_n r) (lh_block r).
Definition set_log_dev (v : Z) (r : log_t) : log_t :=
  mkLog (log_start r) (log_size r) (log_outstanding r) (log_committing r) v (lh_n r) (lh_block r).
Definition set_lh_n (v : Z) (r : log_t) : log_t :=
  mkLog (log_start r) (log_size r) (log_outstanding r) (log_committing r) (log_dev r) v (lh_block r)
   .
Definition set_lh_block (v : Z -> Z) (r : log_t) : log_t :=
  mkLog (log_start r) (log_size r) (log_outstanding r) (log_committing r) (log_dev r) (lh_n r) v.


Record superblock := mkSuperblock {
  sb_magic : Z;
  sb_size : Z;  (** Size of file system image (blocks) *)
  sb_nblocks : Z;
  sb_ninodes : Z;
  sb_nlog : Z;
  sb_logstart : Z;
  sb_inodestart : Z;
  sb_bmapstart : Z
}.

Definition set_sb_magic (v : Z) (r : superblock) : superblock :=
  mkSuperblock v (sb_size r) (sb_nblocks r) (sb_ninodes r) (sb_nlog r) (sb_logstart r)
    (sb_inodestart r) (sb_bmapstart r).
Definition set_sb_size (v : Z) (r : superblock) : superblock :=
  mkSuperblock (sb_magic r) v (sb_nblocks r) (sb_ninodes r) (sb_nlog r) (sb_logstart r)
    (sb_inodestart r) (sb_bmapstart r).
Definition set_sb_nblocks (v : Z) (r : superblock) : superblock :=
  mkSuperblock (sb_magic r) (sb_size r) v (sb_ninodes r) (sb_nlog r) (sb_logstart r)
    (sb_inodestart r) (sb_bmapstart r).
Definition set_sb_ninodes (v : Z) (r : superblock) : superblock :=
  mkSuperblock (sb_magic r) (sb_size r) (sb_nblocks r) v (sb_nlog r) (sb_logstart r)
    (sb_inodestart r) (sb_bmapstart r).
Definition set_sb_nlog (v : Z) (r : superblock) : superblock :=
  mkSuperblock (sb_magic r) (sb_size r) (sb_nblocks r) (sb_ninodes r) v (sb_logstart r)
    (sb_inodestart r) (sb_bmapstart r).
Definition set_sb_logstart (v : Z) (r : superblock) : superblock :=
  mkSuperblock (sb_magic r) (sb_size r) (sb_nblocks r) (sb_ninodes r) (sb_nlog r) v
    (sb_inodestart r) (sb_bmapstart r).
Definition set_sb_inodestart (v : Z) (r : superblock) : superblock :=
  mkSuperblock (sb_magic r) (sb_size r) (sb_nblocks r) (sb_ninodes r) (sb_nlog r) (sb_logstart r) v
    (sb_bmapstart r).
Definition set_sb_bmapstart (v : Z) (r : superblock) : superblock :=
  mkSuperblock (sb_magic r) (sb_size r) (sb_nblocks r) (sb_ninodes r) (sb_nlog r) (sb_logstart r)
    (sb_inodestart r) v.


(** [struct inode]; its sleep lock is [SL_inode i]. *)
Record inode := mkInode {
  i_dev : Z;
  i_inum : Z;
  i_ref : Z;
  i_valid : Z;  (** inode has been read from disk? *)
  i_type : Z;
  i_major : Z;
  i_minor : Z;
  i_nlink : Z;
  i_size : Z;
  i_addrs : Z -> Z  (** uint addrs[NDIRECT+1] *)
}.

Definition set_i_dev (v : Z) (r : inode) : inode :=
  mkInode v (i_inum r) (i_ref r) (i_valid r) (i_type r) (i_major r) (i_minor r) (i_nlink r)
    (i_size r) (i_addrs r).
Definition set_i_inum (v : Z) (r : inode) : inode :=
  mkInode (i_dev r) v (i_ref r) (i_valid r) (i_type r) (i_major r) (i_minor r) (i_nlink r)
    (i_size r) (i_addrs r).
Definition set_i_ref (v : Z) (r : inode) : inode :=
  mkInode (i_dev r) (i_inum r) v (i_valid r) (i_type r) (i_major r) (i_minor r) (i_nlink r)
    (i_size r) (i_addrs r).
Definition set_i_valid (v : Z) (r : inode) : inode :=
  mkInode (i_dev r) (i_inum r) (i_ref r) v (i_type r) (i_major r) (i_minor r) (i_nlink r) (i_size r)
    (i_addrs r).
Definition set_i_type (v : Z) (r : inode) : inode :=
  mkInode (i_dev r) (i_inum r) (i_ref r) (i_valid r) v (i_major r) (i_minor r) (i_nlink r)
    (i_size r) (i_addrs r).
Definition set_i_major (v : Z) (r : inode) : inode :=
  mkInode (i_dev r) (i_inum r) (i_ref r) (i_valid r) (i_type r) v (i_minor r) (i_nlink r) (i_size r)
    (i_addrs r).
Definition set_i_minor (v : Z) (r : inode) : inode :=
  mkInode (i_dev r) (i_inum r) (i_ref r) (i_valid r) (i_type r) (i_major r) v (i_nlink r) (i_size r)
    (i_addrs r).
Definition set_i_nlink (v : Z) (r : inode) : inode :=
  mkInode (i_dev r) (i_inum r) (i_ref r) (i_valid r) (i_type r) (i_major r) (i_minor r) v (i_size r)
    (i_addrs r).
Definition set_i_size (v : Z) (r : inode) : inode :=
  mkInode (i_dev r) (i_inum r) (i_ref r) (i_valid r) (i_type r) (i_major r) (i_minor r) (i_nlink r)
    v (i_addrs r).
Definition set_i_addrs (v : Z -> Z) (r : inode) : inode :=
  mkInode (i_dev r) (i_inum r) (i_ref r) (i_valid r) (i_type r) (i_major r) (i_minor r) (i_nlink r)
    (i_size r) v.


(** ** The virtio disk's queue (virtio.h, struct disk of virtio_disk.c) *)

(** What a descriptor's address can point to: &disk.ops[i], b->data, &disk.info[i].status. *)
Inductive dmaptr := DP_null | DP_op (i : nat) | DP_data (b : nat) | DP_status (i : nat).

Record virtq_desc := mkDesc {
  vd_addr : dmaptr;
  vd_len : Z;
  vd_flags : Z;
  vd_next : Z
}.

Definition set_vd_addr (v : dmaptr) (r : virtq_desc) : virtq_desc :=
  mkDesc v (vd_len r) (vd_flags r) (vd_next r).
Definition set_vd_len (v : Z) (r : virtq_desc) : virtq_desc :=
  mkDesc (vd_addr r) v (vd_flags r) (vd_next r).
Definition set_vd_flags (v : Z) (r : virtq_desc) : virtq_desc :=
  mkDesc (vd_addr r) (vd_len r) v (vd_next r).
Definition set_vd_next (v : Z) (r : virtq_desc) : virtq_desc :=
  mkDesc (vd_addr r) (vd_len r) (vd_flags r) v.


Record virtio_blk_req := mkReq {
  vr_type : Z;
  vr_reserved : Z;
  vr_sector : Z
}.

Definition set_vr_type (v : Z) (r : virtio_blk_req) : virtio_blk_req :=
  mkReq v (vr_reserved r) (vr_sector r).
Definition set_vr_reserved (v : Z) (r : virtio_blk_req) : virtio_blk_req :=
  mkReq (vr_type r) v (vr_sector r).
Definition set_vr_sector (v : Z) (r : virtio_blk_req) : virtio_blk_req :=
  mkReq (vr_type r) (vr_reserved r) v.


Record disk_t := mkDisk {
  v_desc : nat -> virtq_desc;
  v_avail_idx : Z;  (** disk.avail->idx *)
  v_avail_ring : Z -> Z;
  v_used_dev_idx : Z;  (** disk.used->idx, written by the device *)
  v_used_ring : Z -> Z;  (** disk.used->ring[].id *)
  v_free : nat -> Z;  (** is a descriptor free? *)
  v_used_idx : Z;  (** we've looked this far in used *)
  v_info_b : nat -> option nat;
  v_info_status : nat -> Z;
  v_ops : nat -> virtio_blk_req;
  v_regs : Z -> Z;  (** what a load from a device register returns *)
  v_out : list (Z * Z)  (** stores to device registers, latest first *)
}.

Definition set_v_desc (v : nat -> virtq_desc) (r : disk_t) : disk_t :=
  mkDisk v (v_avail_idx r) (v_avail_ring r) (v_used_dev_idx r) (v_used_ring r) (v_free r)
    (v_used_idx r) (v_info_b r) (v_info_status r) (v_ops r) (v_regs r) (v_out r).
Definition set_v_avail_idx (v : Z) (r : disk_t) : disk_t :=
  mkDisk (v_desc r) v (v_avail_ring r) (v_used_dev_idx r) (v_used_ring r) (v_free r) (v_used_idx r)
    (v_info_b r) (v_info_status r) (v_ops r) (v_regs r) (v_out r).
Definition set_v_avail_ring (v : Z -> Z) (r : disk_t) : disk_t :=
  mkDisk (v_desc r) (v_avail_idx r) v (v_used_dev_idx r) (v_used_ring r) (v_free r) (v_used_idx r)
    (v_info_b r) (v_info_status r) (v_ops r) (v_regs r) (v_out r).
Definition set_v_used_dev_idx (v : Z) (r : disk_t) : disk_t :=
  mkDisk (v_desc r) (v_avail_idx r) (v_avail_ring r) v (v_used_ring r) (v_free r) (v_used_idx r)
    (v_info_b r) (v_info_status r) (v_ops r) (v_regs r) (v_out r).
Definition set_v_used_ring (v : Z -> Z) (r : disk_t) : disk_t :=
  mkDisk (v_desc r) (v_avail_idx r) (v_avail_ring r) (v_used_dev_idx r) v (v_free r) (v_used_idx r)
    (v_info_b r) (v_info_status r) (v_ops r) (v_regs r) (v_out r).
Definition set_v_free (v : nat -> Z) (r : disk_t) : disk_t :=
  mkDisk (v_desc r) (v_avail_idx r) (v_avail_ring r) (v_used_dev_idx r) (v_used_ring r) v
    (v_used_idx r) (v_info_b r) (v_info_status r) (v_ops r) (v_regs r) (v_out r).
Definition set_v_used_idx (v : Z) (r : disk_t) : disk_t :=
  mkDisk (v_desc r) (v_avail_idx r) (v_avail_ring r) (v_used_dev_idx r) (v_used_ring r) (v_free r) v
    (v_info_b r) (v_info_status r) (v_ops r) (v_regs r) (v_out r).
Definition set_v_info_b (v : nat -> option nat) (r : disk_t) : disk_t :=
  mkDisk (v_desc r) (v_avail_idx r) (v_avail_ring r) (v_used_dev_idx r) (v_used_ring r) (v_free r)
    (v_used_idx r) v (v_info_status r) (v_ops r) (v_regs r) (v_out r).
Definition set_v_info_status (v : nat -> Z) (r : disk_t) : disk_t :=
  mkDisk (v_desc r) (v_avail_idx r) (v_avail_ring r) (v_used_dev_idx r) (v_used_ring r) (v_free r)
    (v_used_idx r) (v_info_b r) v (v_ops r) (v_regs r) (v_out r).
Definition set_v_ops (v : nat -> virtio_blk_req) (r : disk_t) : disk_t :=
  mkDisk (v_desc r) (v_avail_idx r) (v_avail_ring r) (v_used_dev_idx r) (v_used_ring r) (v_free r)
    (v_used_idx r) (v_info_b r) (v_info_status r) v (v_regs r) (v_out r).
Definition set_v_regs (v : Z -> Z) (r : disk_t) : disk_t :=
  mkDisk (v_desc r) (v_avail_idx r) (v_avail_ring r) (v_used_dev_idx r) (v_used_ring r) (v_free r)
    (v_used_idx r) (v_info_b r) (v_info_status r) (v_ops r) v (v_out r).
Definition set_v_out (v : list (Z * Z)) (r : disk_t) : disk_t :=
  mkDisk (v_desc r) (v_avail_idx r) (v_avail_ring r) (v_used_dev_idx r) (v_used_ring r) (v_free r)
    (v_used_idx r) (v_info_b r) (v_info_status r) (v_ops r) (v_regs r) v.


(** The medium: [dblk] is what the disk holds, block by block; [dwr] is the
    history of block writes, latest first. *)
Record fsdata := mkFsdata {
  bufs : nat -> buf;
  slocks : slockid -> sleeplock;
  logst : log_t;
  sb : superblock;
  inodes : nat -> inode;  (** itable.inode[NINODE] *)
  vdisk : disk_t;
  dblk : Z -> Z -> Z;
  dwr : list (Z * (Z -> Z))
}.

Definition set_bufs (v : nat -> buf) (r : fsdata) : fsdata :=
  mkFsdata v (slocks r) (logst r) (sb r) (inodes r) (vdisk r) (dblk r) (dwr r).
Definition set_slocks (v : slockid -> sleeplock) (r : fsdata) : fsdata :=
  mkFsdata (bufs r) v (logst r) (sb r) (inodes r) (vdisk r) (dblk r) (dwr r).
Definition set_logst (v : log_t) (r : fsdata) : fsdata :=
  mkFsdata (bufs r) (slocks r) v (sb r) (inodes r) (vdisk r) (dblk r) (dwr r).
Definition set_sb (v : superblock) (r : fsdata) : fsdata :=
  mkFsdata (bufs r) (slocks r) (logst r) v (inodes r) (vdisk r) (dblk r) (dwr r).
Definition set_inodes (v : nat -> inode) (r : fsdata) : fsdata :=
  mkFsdata (bufs r) (slocks r) (logst r) (sb r) v (vdisk r) (dblk r) (dwr r).
Definition set_vdisk (v : disk_t) (r : fsdata) : fsdata :=
  mkFsdata (bufs r) (slocks r) (logst r) (sb r) (inodes r) v (dblk r) (dwr r).
Definition set_dblk (v : Z -> Z -> Z) (r : fsdata) : fsdata :=
  mkFsdata (bufs r) (slocks r) (logst r) (sb r) (inodes r) (vdisk r) v (dwr r).
Definition set_dwr (v : list (Z * (Z -> Z))) (r : fsdata) : fsdata :=
  mkFsdata (bufs r) (slocks r) (logst r) (sb r) (inodes r) (vdisk r) (dblk r) v.


(** ** Console and uart (console.c, uart.c, printf.c) *)

(** [uart_regs] is what a load from a device register returns, [uart_out] the
    stores made to device registers, latest first. *)
Record iodata := mkIodata {
  cons_buf : Z -> Z;
  cons_r : Z;  (** Read index *)
  cons_w : Z;  (** Write index *)
  cons_e : Z;  (** Edit index *)
  uart_regs : Z -> Z;
  uart_out : list (Z * Z);
  uart_tx_buf : Z -> Z;
  uart_tx_w : Z;
  uart_tx_r : Z;
  pr_locking : Z;
  panicked : Z
}.

Definition set_cons_buf (v : Z -> Z) (r : iodata) : iodata :=
  mkIodata v (cons_r r) (cons_w r) (cons_e r) (uart_regs r) (uart_out r) (uart_tx_buf r)
    (uart_tx_w r) (uart_tx_r r) (pr_locking r) (panicked r).
Definition set_cons_r (v : Z) (r : iodata) : iodata :=
  mkIodata (cons_buf r) v (cons_w r) (cons_e r) (uart_regs r) (uart_out r) (uart_tx_buf r)
    (uart_tx_w r) (uart_tx_r r) (pr_locking r) (panicked r).
Definition set_cons_w (v : Z) (r : iodata) : iodata :=
  mkIodata (cons_buf r) (cons_r r) v (cons_e r) (uart_regs r) (uart_out r) (uart_tx_buf r)
    (uart_tx_w r) (uart_tx_r r) (pr_locking r) (panicked r).
Definition set_cons_e (v : Z) (r : iodata) : iodata :=
  mkIodata (cons_buf r) (cons_r r) (cons_w r) v (uart_regs r) (uart_out r) (uart_tx_buf r)
    (uart_tx_w r) (uart_tx_r r) (pr_locking r) (panicked r).
Definition set_uart_regs (v : Z -> Z) (r : iodata) : iodata :=
  mkIodata (cons_buf r) (cons_r r) (cons_w r) (cons_e r) v (uart_out r) (uart_tx_buf r)
    (uart_tx_w r) (uart_tx_r r) (pr_locking r) (panicked r).
Definition set_uart_out (v : list (Z * Z)) (r : iodata) : iodata :=
  mkIodata (cons_buf r) (cons_r r) (cons_w r) (cons_e r) (uart_regs r) v (uart_tx_buf r)
    (uart_tx_w r) (uart_tx_r r) (pr_locking r) (panicked r).
Definition set_uart_tx_buf (v : Z -> Z) (r : iodata) : iodata :=
  mkIodata (cons_buf r) (cons_r r) (cons_w r) (cons_e r) (uart_regs r) (uart_out r) v (uart_tx_w r)
    (uart_tx_r r) (pr_locking r) (panicked r).
Definition set_uart_tx_w (v : Z) (r : iodata) : iodata :=
  mkIodata (cons_buf r) (cons_r r) (cons_w r) (cons_e r) (uart_regs r) (uart_out r) (uart_tx_buf r)
    v (uart_tx_r r) (pr_locking r) (panicked r).
Definition set_uart_tx_r (v : Z) (r : iodata) : iodata :=
  mkIodata (cons_buf r) (cons_r r) (cons_w r) (cons_e r) (uart_regs r) (uart_out r) (uart_tx_buf r)
    (uart_tx_w r) v (pr_locking r) (panicked r).
Definition set_pr_locking (v : Z) (r : iodata) : iodata :=
  mkIodata (cons_buf r) (cons_r r) (cons_w r) (cons_e r) (uart_regs r) (uart_out r) (uart_tx_buf r)
    (uart_tx_w r) (uart_tx_r r) v (panicked r).
Definition set_panicked (v : Z) (r : iodata) : iodata :=
  mkIodata (cons_buf r) (cons_r r) (cons_w r) (cons_e r) (uart_regs r) (uart_out r) (uart_tx_buf r)
    (uart_tx_w r) (uart_tx_r r) (pr_locking r) v.


(** ** The data part: every other kernel variable *)

Record kdata := mkKdata {
  syms : symbols;
  mem : Z -> Z;  (** physical memory, one byte per address *)
  freelist : Z;  (** kmem.freelist *)
  procs : nat -> proc;  (** proc[NPROC] *)
  nextpid : Z;
  initproc : option nat;
  ticks : Z;
  forkret_first : bool;  (** static int first of forkret() *)
  kernel_pagetable : Z;
  files : nat -> file;  (** ftable.file[NFILE] *)
  devsw : Z -> devsw_entry;
  pipes : Z -> pipe;  (** struct pipe, by the address of its page *)
  fs : fsdata;
  io : iodata
}.

Definition set_syms (v : symbols) (r : kdata) : kdata :=
  mkKdata v (mem r) (freelist r) (procs r) (nextpid r) (initproc r) (ticks r) (forkret_first r)
    (kernel_pagetable r) (files r) (devsw r) (pipes r) (fs r) (io r).
Definition set_mem (v : Z -> Z) (r : kdata) : kdata :=
  mkKdata (syms r) v (freelist r) (procs r) (nextpid r) (initproc r) (ticks r) (forkret_first r)
    (kernel_pagetable r) (files r) (devsw r) (pipes r) (fs r) (io r).
Definition set_freelist (v : Z) (r : kdata) : kdata :=
  mkKdata (syms r) (mem r) v (procs r) (nextpid r) (initproc r) (ticks r) (forkret_first r)
    (kernel_pagetable r) (files r) (devsw r) (pipes r) (fs r) (io r).
Definition set_procs (v : nat -> proc) (r : kdata) : kdata :=
  mkKdata (syms r) (mem r) (freelist r) v (nextpid r) (initproc r) (ticks r) (forkret_first r)
    (kernel_pagetable r) (files r) (devsw r) (pipes r) (fs r) (io r).
Definition set_nextpid (v : Z) (r : kdata) : kdata :=
  mkKdata (syms r) (mem r) (freelist r) (procs r) v (initproc r) (ticks r) (forkret_first r)
    (kernel_pagetable r) (files r) (devsw r) (pipes r) (fs r) (io r).
Definition set_initproc (v : option nat) (r : kdata) : kdata :=
  mkKdata (syms r) (mem r) (freelist r) (procs r) (nextpid r) v (ticks r) (forkret_first r)
    (kernel_pagetable r) (files r) (devsw r) (pipes r) (fs r) (io r).
Definition set_ticks (v : Z) (r : kdata) : kdata :=
  mkKdata (syms r) (mem r) (freelist r) (procs r) (nextpid r) (initproc r) v (forkret_first r)
    (kernel_pagetable r) (files r) (devsw r) (pipes r) (fs r) (io r).
Definition set_forkret_first (v : bool) (r : kdata) : kdata :=
  mkKdata (syms r) (mem r) (freelist r) (procs r) (nextpid r) (initproc r) (ticks r) v
    (kernel_pagetable r) (files r) (devsw r) (pipes r) (fs r) (io r).
Definition set_kernel_pagetable (v : Z) (r : kdata) : kdata :=
  mkKdata (syms r) (mem r) (freelist r) (procs r) (nextpid r) (initproc r) (ticks r)
    (forkret_first r) v (files r) (devsw r) (pipes r) (fs r) (io r).
Definition set_files (v : nat -> file) (r : kdata) : kdata :=
  mkKdata (syms r) (mem r) (freelist r) (procs r) (nextpid r) (initproc r) (ticks r)
    (forkret_first r) (kernel_pagetable r) v (devsw r) (pipes r) (fs r) (io r).
Definition set_devsw (v : Z -> devsw_entry) (r : kdata) : kdata :=
  mkKdata (syms r) (mem r) (freelist r) (procs r) (nextpid r) (initproc r) (ticks r)
    (forkret_first r) (kernel_pagetable r) (files r) v (pipes r) (fs r) (io r).
Definition set_pipes (v : Z -> pipe) (r : kdata) : kdata :=
  mkKdata (syms r) (mem r) (freelist r) (procs r) (nextpid r) (initproc r) (ticks r)
    (forkret_first r) (kernel_pagetable r) (files r) (devsw r) v (fs r) (io r).
Definition set_fs (v : fsdata) (r : kdata) : kdata :=
  mkKdata (syms r) (mem r) (freelist r) (procs r) (nextpid r) (initproc r) (ticks r)
    (forkret_first r) (kernel_pagetable r) (files r) (devsw r) (pipes r) v (io r).
Definition set_io (v : iodata) (r : kdata) : kdata :=
  mkKdata (syms r) (mem r) (freelist r) (procs r) (nextpid r) (initproc r) (ticks r)
    (forkret_first r) (kernel_pagetable r) (files r) (devsw r) (pipes r) (fs r) v.


Record kernel := mkK { km : machine; kd : kdata }.

(** ** The kernel monad

    A kernel function runs on one hart.  At the points where it lets others
    run (an iteration of a spin loop, a context switch) the next element of
    the schedule [env] says what the rest of the machine did to the state
    meanwhile.  A run that waits when the schedule is empty stops as [Waiting];
    a call of panic() stops as [Panicked]. *)

Definition env : Type := list (kernel -> kernel).

Inductive stop := Panicked (msg : string) | Waiting.

Inductive out (A : Type) :=
| Ret (a : A) (e : env) (s : kernel)
| Stop (r : stop) (s : kernel).
Arguments Ret {A} a e s.
Arguments Stop {A} r s.

Definition M (A : Type) : Type := env -> kernel -> out A.

Definition ret {A} (a : A) : M A := fun e s => Ret a e s.

Definition bind {A B} (m : M A) (k : A -> M B) : M B :=
  fun e s => match m e s with
             | Ret a e' s' => k a e' s'
             | Stop r s' => Stop r s'
             end.

Notation "'let*' x := m 'in' k" := (bind m (fun x => k))
  (at level 10, x binder, m at level 200, k at level 200) : kern_scope.
Notation "m ;; k" := (bind m (fun _ => k))
  (at level 100, k at level 200, right associativity) : kern_scope.

Definition panic {A} (msg : string) : M A := fun _ s => Stop (Panicked msg) s.

(** Hand control to the rest of the machine once. *)
Definition others : M unit :=
  fun e s => match e with
             | [] => Stop Waiting s
             | f :: e' => Ret tt e' (f s)
             end.

(** Read and write the data part; read and write the machine part. *)
Definition gets {A} (f : kdata -> A) : M A := fun e s => Ret (f (kd s)) e s.
Definition modify (f : kdata -> kdata) : M unit := fun e s => Ret tt e (mkK (km s) (f (kd s))).
Definition mgets {A} (f : machine -> A) : M A := fun e s => Ret (f (km s)) e s.
Definition mmodify (f : machine -> machine) : M unit :=
  fun e s => Ret tt e (mkK (f (km s)) (kd s)).

(** A load or store through a null pointer faults; kerneltrap() does not
    recognise the trap and panics. *)
Definition deref {A} (p : option A) : M A :=
  match p with Some a => ret a | None => panic "kerneltrap" end.

Definition when (b : bool) (m : M unit) : M unit := if b then m else ret tt.

(** [for] over the elements of [l], with no early exit ... *)
Fixpoint forM {X} (l : list X) (body : X -> M unit) : M unit :=
  match l with
  | [] => ret tt
  | x :: l' => body x;; forM l' body
  end.

(** ... and with one: [Some r] leaves the loop with [r]. *)
Fixpoint forE {X R} (l : list X) (body : X -> M (option R)) : M (option R) :=
  match l with
  | [] => ret None
  | x :: l' =>
      let* r := body x in
      match r with Some r => ret (Some r) | None => forE l' body end
  end.

(** A loop whose every iteration but the last lets others run at least once;
    [inl x] goes round again, [inr a] leaves.  The fuel is the length of the
    schedule plus one, so it never runs out before the schedule does. *)
Fixpoint loop_n {X A} (n : nat) (body : X -> M (X + A)) (x : X) : M A :=
  match n with
  | O => fun _ s => Stop Waiting s
  | S n' =>
      let* r := body x in
      match r with inl x' => loop_n n' body x' | inr a => ret a end
  end.

Definition loop {X A} (body : X -> M (X + A)) (x : X) : M A :=
  fun e s => loop_n (S (length e)) body x e s.

(** The same for a loop of which up to [k] iterations do not let others run. *)
Definition loop_for {X A} (k : nat) (body : X -> M (X + A)) (x : X) : M A :=
  fun e s => loop_n (k + S (length e)) body x e s.

(** Access to one process-table entry. *)
Definition getp {A} (i : nat) (f : proc -> A) : M A := gets (fun d => f (procs d i)).
Definition upd_proc (i : nat) (f : proc -> proc) (d : kdata) : kdata :=
  set_procs (procs d).[i := f (procs d i)] d.
Definition setp (i : nat) (f : proc -> proc) : M unit := modify (upd_proc i f).

(** Elements of proc[] in index order. *)
Definition all_procs : list nat := seq 0 NPROC.

(** ** Symbolic execution of monadic code *)

Lemma bind_Ret {A B} (m : M A) (k : A -> M B) e s a e' s' :
  m e s = Ret a e' s' -> bind m k e s = k a e' s'.
Proof. unfold bind. by intros ->. Qed.

Lemma bind_Stop {A B} (m : M A) (k : A -> M B) e s r s' :
  m e s = Stop r s' -> bind m k e s = Stop r s'.
Proof. unfold bind. by intros ->. Qed.

Lemma bind_cong {A B} (m m' : M A) (k : A -> M B) e e' s s' :
  m e s = m' e' s' -> bind m k e s = bind m' k e' s'.
Proof. unfold bind. by intros ->. Qed.

Lemma bind_assoc {A B C} (m : M A) (f : A -> M B) (k : B -> M C) e s :
  bind (bind m f) k e s = bind m (fun x => bind (f x) k) e s.
Proof. unfold bind. by destruct (m e s). Qed.

Lemma bind_ret {A B} (a : A) (k : A -> M B) e s : bind (ret a) k e s = k a e s.
Proof. done. Qed.

Lemma bind_gets {A B} (f : kdata -> A) (k : A -> M B) e m d :
  bind (gets f) k e (mkK m d) = k (f d) e (mkK m d).
Proof. done. Qed.

Lemma bind_modify {B} f (k : unit -> M B) e m d :
  bind (modify f) k e (mkK m d) = k tt e (mkK m (f d)).
Proof. done. Qed.

Lemma bind_mgets {A B} (f : machine -> A) (k : A -> M B) e m d :
  bind (mgets f) k e (mkK m d) = k (f m) e (mkK m d).
Proof. done. Qed.

Lemma bind_mmodify {B} f (k : unit -> M B) e m d :
  bind (mmodify f) k e (mkK m d) = k tt e (mkK (f m) d).
Proof. done. Qed.

Lemma bind_getp {A B} i (f : proc -> A) (k : A -> M B) e m d :
  bind (getp i f) k e (mkK m d) = k (f (procs d i)) e (mkK m d).
Proof. done. Qed.

Lemma bind_setp {B} i f (k : unit -> M B) e m d :
  bind (setp i f) k e (mkK m d) = k tt e (mkK m (upd_proc i f d)).
Proof. done. Qed.

Lemma bind_when_true {B} (m : M unit) (k : unit -> M B) e s :
  bind (when true m) k e s = bind m k e s.
Proof. done. Qed.

Lemma bind_when_false {B} (m : M unit) (k : unit -> M B) e s :
  bind (when false m) k e s = k tt e s.
Proof. done. Qed.

Create Rewrite HintDb kern.
#[export] Hint Rewrite @bind_assoc @bind_ret @bind_gets @bind_modify @bind_mgets @bind_mmodify
  @bind_getp @bind_setp @bind_when_true @bind_when_false : kern.

(** Run the primitive steps at the head of the goal's computation. *)
Ltac mrun := autorewrite with kern; cbv beta iota.
(** Run a call described by the equation [H : f e s = Ret a e' s']. *)
Ltac mcall H := rewrite (bind_Ret _ _ _ _ _ _ _ H); cbv beta iota.

Lemma forM_app {X} (l1 l2 : list X) body e s :
  forM (l1 ++ l2) body e s = bind (forM l1 body) (fun _ => forM l2 body) e s.
Proof.
  revert e s. induction l1 as [|x l1 IH]; intros e s; [done|].
  simpl. rewrite bind_assoc. unfold bind at 1. unfold bind at 1. destruct (body x e s); [apply IH|done].
Qed.

(** A loop that leaves in its first iteration. *)
Lemma loop_inr {X A} (body : X -> M (X + A)) x e s a e' s' :
  body x e s = Ret (inr a) e' s' -> loop body x e s = Ret a e' s'.
Proof. intros H. unfold loop. simpl. by rewrite (bind_Ret _ _ _ _ _ _ _ H). Qed.

Lemma loop_stop {X A} (body : X -> M (X + A)) x e s r s' :
  body x e s = Stop r s' -> loop body x e s = Stop r s'.
Proof. intros H. unfold loop. simpl. by rewrite (bind_Stop _ _ _ _ _ _ H). Qed.

(** ** Page rounding *)

Lemma PGROUNDDOWN_eq a : 0 <= a < 2 ^ 64 -> PGROUNDDOWN a = a / PGSIZE * PGSIZE.
Proof. intros H. apply (land_high_mask a 64 12); [lia|done]. Qed.

Lemma PGROUNDUP_eq a : 0 <= a -> a + PGSIZE - 1 < 2 ^ 64 -> PGROUNDUP a = (a + PGSIZE - 1) / PGSIZE * PGSIZE.
Proof.
  intros H1 H2. unfold PGROUNDUP. unfold PGSIZE in *. rewrite u64_small by lia.
  apply (land_high_mask _ 64 12); lia.
Qed.

(** ** A machine at power-on, for evaluating the definitions *)

Definition cpu0 : cpu := mkCpu None 0 false false.
Definition lock0 : spinlock := mkSpinlock 0 "" None.
Definition machine0 : machine := mkMachine 0 (fun _ => cpu0) (fun _ => lock0).
Definition proc0 : proc :=
  mkProc UNUSED None 0 0 0 0 0 0 0 0 0 0 0 0 0 0 0 None 0 0 0 0
    (mkContext 0 0 []) (fun _ => None) None (fun _ => 0).
Definition syms0 : symbols := mkSymbols 0x80008000 0x80026000 0x80007000 0x80002000 0x80003000.
Definition file0 : file := mkFile FD_NONE 0 0 0 0 None 0 0.
Definition pipe0 : pipe := mkPipe (fun _ => 0) 0 0 0 0.
Definition buf0 : buf := mkBuf 0 0 0 0 0 0 0 (fun _ => 0).
Definition log0 : log_t := mkLog 0 0 0 0 0 0 (fun _ => 0).
Definition sb0 : superblock := mkSuperblock 0 0 0 0 0 0 0 0.
Definition inode0 : inode := mkInode 0 0 0 0 0 0 0 0 0 (fun _ => 0).
Definition disk0 : disk_t :=
  mkDisk (fun _ => mkDesc DP_null 0 0 0) 0 (fun _ => 0) 0 (fun _ => 0) (fun _ => 0) 0 (fun _ => None)
    (fun _ => 0) (fun _ => mkReq 0 0 0) (fun _ => 0) [].
Definition fs0 : fsdata :=
  mkFsdata (fun _ => buf0) (fun _ => mkSleeplock 0 "" 0) log0 sb0 (fun _ => inode0) disk0 (fun _ _ => 0) [].
Definition io0 : iodata := mkIodata (fun _ => 0) 0 0 0 (fun _ => 0) [] (fun _ => 0) 0 0 0 0.
Definition kdata0 : kdata :=
  mkKdata syms0 (fun _ => 0) 0 (fun _ => proc0) 1 None 0 true 0 (fun _ => file0) (fun _ => mkDevsw None None)
    (fun _ => pipe0) fs0 io0.
