(* ===== verification/Spinlock.v ===== *)
(** * Spin locks and interrupt nesting (kernel/spinlock.c, and intr_on, intr_off, intr_get of riscv.h)

    [push_off]/[pop_off], [acquire]/[release] and [holding] act on the machine
    part of the state only.  The lemmas give their net effect as functions on
    [machine]; every other file uses these instead of the definitions. *)

From S2P Require Import Prelude State.
Open Scope Z_scope.

(** ** The hart executing the code *)

Definition cpuid : M nat := mgets tp.

(** [&cpus[id]]: a CPU structure is named by its index. *)
Definition mycpu : M nat := let* id := cpuid in ret id.

Definition getc {A} (f : cpu -> A) : M A := mgets (fun m => f (cpus m (tp m))).
Definition setc (f : cpu -> cpu) : M unit :=
  mmodify (fun m => set_cpus (cpus m).[tp m := f (cpus m (tp m))] m).

Definition intr_on : M unit := setc (set_sie true).
Definition intr_off : M unit := setc (set_sie false).
Definition intr_get : M bool := getc sie.

(** ** spinlock.c *)

Definition getlk {A} (lk : lockid) (f : spinlock -> A) : M A := mgets (fun m => f (locks m lk)).
Definition setlk (lk : lockid) (f : spinlock -> spinlock) : M unit :=
  mmodify (fun m => set_locks (locks m).[lk := f (locks m lk)] m).

Definition initlock (lk : lockid) (name : string) : M unit :=
  setlk lk (set_lk_name name);;
  setlk lk (set_locked 0);;
  setlk lk (set_lk_cpu None).

Definition push_off : M unit :=
  let* old := intr_get in
  intr_off;;
  let* n := getc noff in
  when (n =? 0) (setc (set_intena old));;
  setc (fun c => set_noff (noff c + 1) c).

Definition pop_off : M unit :=
  let* i := intr_get in
  if i then panic "pop_off - interruptible" else
  let* n := getc noff in
  if n <? 1 then panic "pop_off" else
  setc (fun c => set_noff (noff c - 1) c);;
  let* n := getc noff in
  let* ie := getc intena in
  when ((n =? 0) && ie) intr_on.

Definition holding (lk : lockid) : M bool :=
  let* l := getlk lk locked in
  let* c := getlk lk lk_cpu in
  let* me := mycpu in
  ret (negb (l =? 0) && bool_decide (c = Some me)).

(** __sync_lock_test_and_set: the atomic swap. *)
Definition test_and_set (lk : lockid) (v : Z) : M Z :=
  let* old := getlk lk locked in
  setlk lk (set_locked v);;
  ret old.

Definition acquire (lk : lockid) : M unit :=
  push_off;;
  let* h := holding lk in
  if h then panic "acquire" else
  loop (fun _ : unit =>
          let* old := test_and_set lk 1 in
          if old =? 0 then ret (inr tt) else others;; ret (inl tt)) tt;;
  let* c := mycpu in
  setlk lk (set_lk_cpu (Some c)).

Definition release (lk : lockid) : M unit :=
  let* h := holding lk in
  if negb h then panic "release" else
  setlk lk (set_lk_cpu None);;
  setlk lk (set_locked 0);;
  pop_off.

(** Return the current struct proc *, or zero if none (proc.c). *)
Definition myproc : M (option nat) :=
  push_off;;
  let* c := mycpu in
  let* p := mgets (fun m => c_proc (cpus m c)) in
  pop_off;;
  ret p.

(** [struct proc *p = myproc()] in code that then uses [p->...]. *)
Definition myproc_deref : M nat := let* p := myproc in deref p.

(** ** Net effects on the machine *)

Definition mycpu_of (m : machine) : cpu := cpus m (tp m).

(** Interrupts are off inside a nest of push_off()s. *)
Definition mach_ok (m : machine) : Prop :=
  0 <= noff (mycpu_of m) /\ (0 < noff (mycpu_of m) -> sie (mycpu_of m) = false).

Definition lk_free (m : machine) (lk : lockid) : Prop :=
  locked (locks m lk) = 0 /\ lk_cpu (locks m lk) = None.

Definition lk_held (m : machine) (lk : lockid) : Prop :=
  locked (locks m lk) <> 0 /\ lk_cpu (locks m lk) = Some (tp m).

Definition mpush (m : machine) : machine :=
  let c := mycpu_of m in
  set_cpus (cpus m).[tp m :=
    mkCpu (c_proc c) (noff c + 1) (if noff c =? 0 then sie c else intena c) false] m.

Definition mpop (m : machine) : machine :=
  let c := mycpu_of m in
  set_cpus (cpus m).[tp m :=
    mkCpu (c_proc c) (noff c - 1) (intena c) ((noff c =? 1) && intena c)] m.

Definition macq (lk : lockid) (m : machine) : machine :=
  set_locks (locks m).[lk := mkSpinlock 1 (lk_name (locks m lk)) (Some (tp m))] (mpush m).

Definition mrel (lk : lockid) (m : machine) : machine :=
  mpop (set_locks (locks m).[lk := mkSpinlock 0 (lk_name (locks m lk)) None] m).

(** What a matched push_off()/pop_off() pair leaves: outside any nest the
    field [intena] (dead there) records the interrupt flag. *)
Definition msettle (m : machine) : machine :=
  let c := mycpu_of m in
  set_cpus (cpus m).[tp m := set_intena (if noff c =? 0 then sie c else intena c) c] m.

Ltac mach_unfold :=
  unfold macq, mrel, msettle, mpush, mpop, mycpu_of, set_cpus, set_locks,
    set_noff, set_intena, set_sie, set_c_proc, set_locked, set_lk_cpu, set_lk_name in *; simpl in *.

Ltac fupd_simpl :=
  repeat first [ rewrite fupd_eq | rewrite fupd_fupd | rewrite fupd_ne by congruence ].

Lemma push_off_run e m d : push_off e (mkK m d) = Ret tt e (mkK (mpush m) d).
Proof.
  unfold push_off, intr_get, intr_off, getc, setc, mgets, mmodify, when, bind. simpl.
  mach_unfold. fupd_simpl. simpl. destruct (noff _ =? 0); simpl; fupd_simpl; reflexivity.
Qed.

Lemma pop_off_run e m d :
  sie (mycpu_of m) = false -> 1 <= noff (mycpu_of m) ->
  pop_off e (mkK m d) = Ret tt e (mkK (mpop m) d).
Proof.
  intros Hs Hn.
  unfold pop_off, intr_get, intr_on, getc, setc, mgets, mmodify, when, panic, bind. simpl.
  unfold mycpu_of in *. rewrite Hs. simpl. rewrite (proj2 (Z.ltb_ge _ _) Hn). simpl. mach_unfold. fupd_simpl. simpl.
  replace (noff (cpus m (tp m)) - 1 =? 0) with (noff (cpus m (tp m)) =? 1)
    by (destruct (Z.eqb_spec (noff (cpus m (tp m))) 1), (Z.eqb_spec (noff (cpus m (tp m)) - 1) 0); lia).
  destruct (_ && _) eqn:E; simpl; fupd_simpl; simpl; rewrite ?Hs; reflexivity.
Qed.

Lemma holding_run lk e m d :
  holding lk e (mkK m d) =
  Ret (negb (locked (locks m lk) =? 0) && bool_decide (lk_cpu (locks m lk) = Some (tp m))) e (mkK m d).
Proof. reflexivity. Qed.

Definition minit (lk : lockid) (name : string) (m : machine) : machine :=
  set_locks (locks m).[lk := mkSpinlock 0 name None] m.

Lemma initlock_run lk name e m d :
  initlock lk name e (mkK m d) = Ret tt e (mkK (minit lk name m) d).
Proof.
  unfold initlock, setlk. mrun. unfold mmodify, minit. simpl. mach_unfold. fupd_simpl. done.
Qed.

Lemma minit_free lk name m : lk_free (minit lk name m) lk.
Proof. unfold lk_free, minit. simpl. by rewrite fupd_eq. Qed.

Lemma minit_ok lk name m : mach_ok m -> mach_ok (minit lk name m).
Proof. done. Qed.

Lemma lk_free_not_held m lk : lk_free m lk -> (locked (locks m lk) =? 0) = true.
Proof. intros [-> _]. reflexivity. Qed.

(** An uncontended acquire. *)
Lemma acquire_run lk e m d :
  lk_free m lk -> acquire lk e (mkK m d) = Ret tt e (mkK (macq lk m) d).
Proof.
  intros [Hl Hc]. unfold acquire. mcall (push_off_run e m d). mcall (holding_run lk e (mpush m) d).
  simpl. rewrite Hl. simpl. erewrite bind_Ret.
  2: { apply loop_inr. unfold test_and_set, getlk, setlk. mrun. simpl. rewrite Hl. reflexivity. }
  unfold mycpu, cpuid, setlk. mrun. unfold mmodify. simpl. mach_unfold. fupd_simpl. reflexivity.
Qed.

Lemma release_run lk e m d :
  lk_held m lk -> sie (mycpu_of m) = false -> 1 <= noff (mycpu_of m) ->
  release lk e (mkK m d) = Ret tt e (mkK (mrel lk m) d).
Proof.
  intros [Hl Hc] Hs Hn. unfold release. mcall (holding_run lk e m d).
  apply Z.eqb_neq in Hl. rewrite Hl, Hc, bool_decide_true by done. simpl. unfold setlk. mrun.
  rewrite pop_off_run by done. do 2 f_equal. unfold mrel. f_equal. mach_unfold. fupd_simpl. done.
Qed.

Lemma macq_held lk m : lk_held (macq lk m) lk.
Proof. unfold lk_held. mach_unfold. fupd_simpl. done. Qed.

Lemma macq_other lk lk' m : lk <> lk' -> locks (macq lk m) lk' = locks m lk'.
Proof. intros. mach_unfold. fupd_simpl. done. Qed.

Lemma macq_sie lk m : sie (mycpu_of (macq lk m)) = false.
Proof. mach_unfold. fupd_simpl. done. Qed.

Lemma macq_noff lk m : noff (mycpu_of (macq lk m)) = noff (mycpu_of m) + 1.
Proof. mach_unfold. fupd_simpl. done. Qed.

Lemma macq_c_proc lk m : c_proc (mycpu_of (macq lk m)) = c_proc (mycpu_of m).
Proof. mach_unfold. fupd_simpl. done. Qed.

Lemma macq_ok lk m : mach_ok m -> mach_ok (macq lk m).
Proof. intros [H1 H2]. split; [rewrite macq_noff; lia | by rewrite macq_sie]. Qed.

Lemma macq_free lk lk' m : lk <> lk' -> lk_free m lk' -> lk_free (macq lk m) lk'.
Proof. intros H [? ?]. unfold lk_free. by rewrite !macq_other. Qed.

(** The critical section's bracket: releasing a lock just acquired. *)
Lemma mrel_macq lk m : mach_ok m -> lk_free m lk -> mrel lk (macq lk m) = msettle m.
Proof.
  intros [H1 H2] [H3 H4]. mach_unfold. fupd_simpl. simpl. f_equal.
  - f_equal. replace (noff (cpus m (tp m)) + 1 - 1) with (noff (cpus m (tp m))) by lia.
    f_equal. destruct (Z.eqb_spec (noff (cpus m (tp m))) 0) as [E|E].
    + rewrite E. simpl. done.
    + rewrite H2 by lia. rewrite (proj2 (Z.eqb_neq _ _)) by lia. done.
  - destruct (locks m lk) as [l n c] eqn:E. simpl in *. subst. rewrite <- E. apply fupd_id.
Qed.

(** Releasing an outer lock while an inner one stays held (sleep()). *)
Lemma mrel_macq_outer lk lk' m :
  mach_ok m -> lk_free m lk -> lk <> lk' -> mrel lk (macq lk' (macq lk m)) = macq lk' m.
Proof.
  intros [H1 H2] [H3 H4] Hne. mach_unfold. fupd_simpl. simpl. f_equal.
  - f_equal. rewrite (proj2 (Z.eqb_neq (noff _ + 1) 0)) by lia.
    rewrite (proj2 (Z.eqb_neq (noff _ + 1 + 1) 1)) by lia. simpl. f_equal. lia.
  - rewrite fupd_comm by congruence. rewrite fupd_fupd.
    destruct (locks m lk) as [l n c] eqn:E. simpl in *. subst.
    f_equal. rewrite <- E. apply fupd_id.
Qed.

Lemma msettle_ok m : mach_ok m -> mach_ok (msettle m).
Proof. unfold mach_ok. mach_unfold. fupd_simpl. done. Qed.

Lemma msettle_free m lk : lk_free m lk -> lk_free (msettle m) lk.
Proof. done. Qed.

Lemma msettle_idem m : msettle (msettle m) = msettle m.
Proof.
  mach_unfold. fupd_simpl. simpl. f_equal. f_equal. f_equal. destruct (_ =? 0); done.
Qed.

Lemma msettle_tp m : tp (msettle m) = tp m.
Proof. done. Qed.

Lemma msettle_c_proc m : c_proc (mycpu_of (msettle m)) = c_proc (mycpu_of m).
Proof. mach_unfold. fupd_simpl. done. Qed.

Lemma macq_msettle lk m : macq lk (msettle m) = macq lk m.
Proof.
  mach_unfold. fupd_simpl. simpl. f_equal. f_equal. f_equal. destruct (_ =? 0); done.
Qed.

(** Inside a nest, settling changes nothing. *)
Lemma msettle_macq lk m : mach_ok m -> msettle (macq lk m) = macq lk m.
Proof.
  intros [H _]. mach_unfold. fupd_simpl. simpl.
  rewrite (proj2 (Z.eqb_neq _ 0)) by lia. done.
Qed.

(** What any number of matched sections leaves. *)
Definition msame (m m' : machine) : Prop := m' = m \/ m' = msettle m.

Lemma msame_refl m : msame m m.
Proof. by left. Qed.

Lemma msame_settle m : msame m (msettle m).
Proof. by right. Qed.

Lemma msame_trans m1 m2 m3 : msame m1 m2 -> msame m2 m3 -> msame m1 m3.
Proof. intros [->| ->] [->| ->]; rewrite ?msettle_idem; [left|right..]; done. Qed.

Lemma msame_ok m m' : msame m m' -> mach_ok m -> mach_ok m'.
Proof. intros [->| ->] H; [done|by apply msettle_ok]. Qed.

Lemma msame_free m m' lk : msame m m' -> lk_free m lk -> lk_free m' lk.
Proof. by intros [->| ->]. Qed.

Lemma msame_tp m m' : msame m m' -> tp m' = tp m.
Proof. by intros [->| ->]. Qed.

Lemma msame_c_proc m m' : msame m m' -> c_proc (mycpu_of m') = c_proc (mycpu_of m).
Proof. intros [->| ->]; [done|apply msettle_c_proc]. Qed.

Lemma msame_noff m m' : msame m m' -> noff (mycpu_of m') = noff (mycpu_of m).
Proof. intros [->| ->]; [done|]. mach_unfold. fupd_simpl. done. Qed.

Lemma msame_macq lk m m' : msame m m' -> macq lk m' = macq lk m.
Proof. intros [->| ->]; [done|apply macq_msettle]. Qed.

Lemma msame_msettle m m' : msame m m' -> msettle m' = msettle m.
Proof. intros [->| ->]; [done|apply msettle_idem]. Qed.

(** Inside a nest nothing at all changes. *)
Lemma msame_in lk m m' : mach_ok m -> msame (macq lk m) m' -> m' = macq lk m.
Proof. intros Hm [->| ->]; [done|by apply msettle_macq]. Qed.

#[export] Hint Resolve msame_refl msame_settle msame_ok msame_free : kdb.

Lemma mpop_mpush m : mach_ok m -> mpop (mpush m) = msettle m.
Proof.
  intros [H1 H2]. mach_unfold. fupd_simpl. simpl. f_equal. f_equal.
  replace (noff (cpus m (tp m)) + 1 - 1) with (noff (cpus m (tp m))) by lia. f_equal.
  destruct (Z.eqb_spec (noff (cpus m (tp m))) 0) as [E|E].
  - rewrite E. done.
  - rewrite H2 by lia. rewrite (proj2 (Z.eqb_neq _ _)) by lia. done.
Qed.

Lemma myproc_run e m d :
  mach_ok m -> myproc e (mkK m d) = Ret (c_proc (mycpu_of m)) e (mkK (msettle m) d).
Proof.
  intros H. pose proof H as [H1 _]. unfold myproc. mcall (push_off_run e m d). unfold mycpu, cpuid. mrun.
  erewrite bind_Ret; [|apply pop_off_run].
  - rewrite mpop_mpush by done. unfold ret. mach_unfold. fupd_simpl. done.
  - mach_unfold. fupd_simpl. done.
  - mach_unfold. fupd_simpl. simpl. lia.
Qed.

(** ** Properties *)

Fixpoint iterM (n : nat) (m : M unit) : M unit :=
  match n with O => ret tt | S n' => m;; iterM n' m end.

Lemma iterM_last n m e s : iterM (S n) m e s = bind (iterM n m) (fun _ => m) e s.
Proof.
  revert e s. induction n as [|n IH]; intros e s.
  - unfold iterM, bind, ret. destruct (m e s) as [[] ? ?|]; done.
  - change (iterM (S (S n)) m) with (m;; iterM (S n) m). unfold bind at 1.
    change (iterM (S n) m) with (m;; iterM n m) at 2. rewrite bind_assoc. unfold bind at 1.
    destruct (m e s); [apply IH|done].
Qed.

Lemma mpush_ok m : mach_ok m -> mach_ok (mpush m).
Proof. unfold mach_ok. mach_unfold. fupd_simpl. simpl. intros []. split; [lia|done]. Qed.

Lemma msettle_mpush m : mach_ok m -> msettle (mpush m) = mpush m.
Proof.
  intros [H _]. mach_unfold. fupd_simpl. simpl. by rewrite (proj2 (Z.eqb_neq _ 0)) by lia.
Qed.

Lemma nest_run n e m d :
  mach_ok m ->
  bind (iterM n push_off) (fun _ => iterM n pop_off) e (mkK m d)
  = Ret tt e (mkK (match n with O => m | _ => msettle m end) d).
Proof.
  revert m. induction n as [|n IH]; intros m Hm; [done|].
  change (iterM (S n) push_off) with (push_off;; iterM n push_off).
  rewrite bind_assoc. mcall (push_off_run e m d).
  transitivity (bind (bind (iterM n push_off) (fun _ => iterM n pop_off)) (fun _ => pop_off)
                  e (mkK (mpush m) d)).
  { rewrite bind_assoc. unfold bind at 1. unfold bind at 1.
    destruct (iterM n push_off e (mkK (mpush m) d)); [apply iterM_last|done]. }
  mcall (IH (mpush m) (mpush_ok _ Hm)).
  replace (match n with O => mpush m | S _ => msettle (mpush m) end) with (mpush m)
    by (destruct n; [done | by rewrite msettle_mpush]).
  destruct Hm as [Hm1 Hm2]. rewrite pop_off_run.
  - by rewrite mpop_mpush.
  - mach_unfold. fupd_simpl. done.
  - mach_unfold. fupd_simpl. simpl. lia.
Qed.

(** Every step of the schedule leaves [lk] held by whoever holds it. *)
Definition keeps_held (lk : lockid) (e : env) : Prop :=
  forall f, f ∈ e -> forall s, locked (locks (km s) lk) <> 0 -> locked (locks (km (f s)) lk) <> 0.

Definition spin_body (lk : lockid) : unit -> M (unit + unit) := fun _ =>
  let* old := test_and_set lk 1 in
  if old =? 0 then ret (inr tt) else others;; ret (inl tt).

Lemma spin_body_busy lk e s :
  locked (locks (km s) lk) <> 0 ->
  spin_body lk tt e s =
  match e with
  | [] => Stop Waiting (mkK (set_locks (locks (km s)).[lk := set_locked 1 (locks (km s) lk)] (km s)) (kd s))
  | f :: e' =>
      Ret (inl tt) e'
        (f (mkK (set_locks (locks (km s)).[lk := set_locked 1 (locks (km s) lk)] (km s)) (kd s)))
  end.
Proof.
  intros H. destruct s as [m d]. unfold spin_body, test_and_set, getlk, setlk. mrun.
  simpl in H. apply Z.eqb_neq in H. rewrite H. destruct e; done.
Qed.

Lemma spin_body_free lk e s :
  locked (locks (km s) lk) = 0 ->
  spin_body lk tt e s =
  Ret (inr tt) e (mkK (set_locks (locks (km s)).[lk := set_locked 1 (locks (km s) lk)] (km s)) (kd s)).
Proof.
  intros H. destruct s as [m d]. unfold spin_body, test_and_set, getlk, setlk. mrun.
  simpl in H. by rewrite H.
Qed.

Lemma spin_excluded lk n e s :
  keeps_held lk e -> locked (locks (km s) lk) <> 0 ->
  exists s', loop_n n (spin_body lk) tt e s = Stop Waiting s'.
Proof.
  revert e s. induction n as [|n IH]; intros e s Hk Hl; [by eexists|].
  simpl. destruct e as [|f e].
  - erewrite bind_Stop; [by eexists|]. by rewrite spin_body_busy.
  - erewrite bind_Ret; [|by rewrite spin_body_busy]. apply IH.
    + intros g Hg. apply Hk. by constructor.
    + apply Hk; [by constructor|]. simpl. rewrite fupd_eq. done.
Qed.

Lemma spin_returns lk n e s e' s' :
  loop_n n (spin_body lk) tt e s = Ret tt e' s' -> locked (locks (km s') lk) = 1.
Proof.
  revert e s. induction n as [|n IH]; intros e s; [done|]. simpl.
  destruct (Z.eq_dec (locked (locks (km s) lk)) 0) as [E|E].
  - erewrite bind_Ret; [|by rewrite spin_body_free]. intros [= _ <-]. simpl. by rewrite fupd_eq.
  - destruct e as [|f e].
    + erewrite bind_Stop; [done|]. by rewrite spin_body_busy.
    + erewrite bind_Ret; [|by rewrite spin_body_busy]. apply IH.
Qed.

(** C34: mutual exclusion of a spin lock.  acquire() on a lock this CPU already
    holds panics; while another CPU holds the lock and no step of the rest of
    the machine frees it, acquire() does not return; and whenever acquire()
    returns, the lock is held by the CPU that runs. *)
Theorem acquire_mutex lk e m d :
  (lk_held m lk -> exists s, acquire lk e (mkK m d) = Stop (Panicked "acquire") s) /\
  (locked (locks m lk) <> 0 -> lk_cpu (locks m lk) <> Some (tp m) -> keeps_held lk e ->
   exists s, acquire lk e (mkK m d) = Stop Waiting s) /\
  (forall e' s', acquire lk e (mkK m d) = Ret tt e' s' -> lk_held (km s') lk).
Proof.
  unfold acquire. mcall (push_off_run e m d). mcall (holding_run lk e (mpush m) d). simpl.
  split_and!.
  - intros [Hl Hc]. apply Z.eqb_neq in Hl. rewrite Hl, Hc, bool_decide_true by done. by eexists.
  - intros Hl Hc Hk. rewrite (bool_decide_false _ Hc), andb_false_r. 
    destruct (spin_excluded lk (S (length e)) e (mkK (mpush m) d)) as [s Hs]; [done|done|].
    eexists. erewrite bind_Stop; [done|exact Hs].
  - intros e' s'. destruct (_ && _); [done|]. unfold bind at 1. fold (spin_body lk).
    destruct (loop (spin_body lk) tt e _) as [[] e1 [m1 d1]|] eqn:E; [|done].
    apply spin_returns in E. simpl in E. unfold mycpu, cpuid, setlk, mmodify. mrun.
    intros [= <- <-]. unfold lk_held, set_lk_cpu. simpl. rewrite !fupd_eq. simpl. rewrite E. done.
Qed.

(** push_off() and pop_off() are matched.  From a state whose interrupt
    flag is off inside a nest, [n] push_off()s followed by [n] pop_off()s
    return, restore the nesting depth and the interrupt flag, and change
    nothing else but the dead field [intena] at depth 0. *)
Theorem push_pop_off_matched n e m d (Hok : mach_ok m) :
  exists m', bind (iterM n push_off) (fun _ => iterM n pop_off) e (mkK m d) = Ret tt e (mkK m' d) /\
    noff (mycpu_of m') = noff (mycpu_of m) /\ sie (mycpu_of m') = sie (mycpu_of m) /\
    (0 < noff (mycpu_of m) -> m' = m) /\ locks m' = locks m /\ tp m' = tp m.
Proof.
  rewrite nest_run by done. eexists. split; [done|]. destruct Hok as [Hn _].
  destruct n; [done|]. mach_unfold. fupd_simpl. simpl. split_and!; try done.
  intros Hp. rewrite (proj2 (Z.eqb_neq _ 0)) by lia. destruct m as [t c l]. simpl. f_equal.
  etransitivity; [|apply (fupd_id c t)]. f_equal. by destruct (c t).
Qed.

Lemma push_pop_off_matched_witness :
  exists m', bind (iterM 3 push_off) (fun _ => iterM 3 pop_off) [] (mkK machine0 kdata0)
             = Ret tt [] (mkK m' kdata0).
Proof.
  destruct (push_pop_off_matched 3 [] machine0 kdata0) as (m' & H & _).
  - split; [vm_compute; congruence|vm_compute; congruence].
  - exists m'. exact H.
Defined.
