(* ===== verification/CString.v ===== *)
(** * Byte memory and kernel/string.c

    A memory or a char array is a total function from addresses to bytes.
    [memset] and [memmove] are given as closed forms on ranges, which the other
    files use, and proved equal to the literal loops of string.c. *)

From S2P Require Import Prelude.
Open Scope Z_scope.

Definition bytes : Type := Z -> Z.

Definition in_range (a b n : Z) : bool := (a <=? b) && (b <? a + n).

Lemma in_range_spec a b n : in_range a b n = true <-> a <= b < a + n.
Proof. unfold in_range. rewrite andb_true_iff, Z.leb_le, Z.ltb_lt. done. Qed.

Lemma in_range_false a b n : in_range a b n = false <-> ~ (a <= b < a + n).
Proof. rewrite <- not_true_iff_false, in_range_spec. done. Qed.

Ltac case_range :=
  repeat match goal with
  | |- context [in_range ?a ?b ?n] =>
      let E := fresh "R" in
      destruct (in_range a b n) eqn:E; [apply in_range_spec in E | apply in_range_false in E]
  end.

(** ** string.c *)

(** The loop of memset(): bytes 0, 1, ... of [dst] in order. *)
Fixpoint memset_loop (m : bytes) (dst c : Z) (n : nat) : bytes :=
  match n with
  | O => m
  | S i => (memset_loop m dst c i).[dst + Z.of_nat i := u8 c]
  end.

Definition memset (m : bytes) (dst c n : Z) : bytes :=
  fun a => if in_range dst a n then u8 c else m a.

Fixpoint memcmp (m1 m2 : bytes) (s1 s2 : Z) (n : nat) : Z :=
  match n with
  | O => 0
  | S n' => if negb (m1 s1 =? m2 s2) then m1 s1 - m2 s2
            else memcmp m1 m2 (s1 + 1) (s2 + 1) n'
  end.

(** while(n-- > 0) *--d = *--s;  with [d], [s] already advanced by [n] *)
Fixpoint memmove_down (m : bytes) (d s : Z) (n : nat) : bytes :=
  match n with
  | O => m
  | S n' => memmove_down m.[d - 1 := m (s - 1)] (d - 1) (s - 1) n'
  end.

(** while(n-- > 0) *d++ = *s++; *)
Fixpoint memmove_up (m : bytes) (d s : Z) (n : nat) : bytes :=
  match n with
  | O => m
  | S n' => memmove_up m.[d := m s] (d + 1) (s + 1) n'
  end.

Definition memmove_loop (m : bytes) (dst src n : Z) : bytes :=
  if (src <? dst) && (src + n >? dst)
  then memmove_down m (dst + n) (src + n) (Z.to_nat n)
  else memmove_up m dst src (Z.to_nat n).

(** Copy between two objects, or within one ([ms] = [md]). *)
Definition memcopy (md : bytes) (dst : Z) (ms : bytes) (src n : Z) : bytes :=
  fun a => if in_range dst a n then ms (src + (a - dst)) else md a.

Definition memmove (m : bytes) (dst src n : Z) : bytes := memcopy m dst m src n.

Definition memcpy (m : bytes) (dst src n : Z) : bytes := memmove m dst src n.

Fixpoint strncmp (mp mq : bytes) (p q : Z) (n : nat) : Z :=
  match n with
  | O => 0
  | S n' => if negb (mp p =? 0) && (mp p =? mq q)
            then strncmp mp mq (p + 1) (q + 1) n'
            else mp p - mq q
  end.

(** while(n-- > 0) *s++ = 0; *)
Fixpoint zerofill (m : bytes) (s : Z) (n : nat) : bytes :=
  match n with
  | O => m
  | S n' => zerofill m.[s := 0] (s + 1) n'
  end.

Fixpoint strncpy (m : bytes) (s : Z) (mt : bytes) (t : Z) (n : nat) : bytes :=
  match n with
  | O => m
  | S n' => let m' := m.[s := mt t] in
            if mt t =? 0 then zerofill m' (s + 1) n' else strncpy m' (s + 1) mt (t + 1) n'
  end.

(** The loop of safestrcpy(); [n] is the value before [--n]. *)
Fixpoint safestrcpy_loop (m : bytes) (s : Z) (mt : bytes) (t : Z) (n : nat) : bytes :=
  match n with
  | S (S _ as n') =>
      let m' := m.[s := mt t] in
      if mt t =? 0 then m'.[s + 1 := 0] else safestrcpy_loop m' (s + 1) mt (t + 1) n'
  | _ => m.[s := 0]
  end.

Definition safestrcpy (m : bytes) (s : Z) (mt : bytes) (t n : Z) : bytes :=
  if n <=? 0 then m else safestrcpy_loop m s mt t (Z.to_nat n).

(** for(n = 0; s[n]; n++) looking at [fuel] bytes; [None] if none of them is 0. *)
Fixpoint strlen (fuel : nat) (m : bytes) (s : Z) (n : Z) : option Z :=
  match fuel with
  | O => None
  | S f => if m (s + n) =? 0 then Some n else strlen f m s (n + 1)
  end.

(** ** Loads and stores, little endian *)

Fixpoint ldn (n : nat) (m : bytes) (a : Z) : Z :=
  match n with
  | O => 0
  | S n' => m a + 256 * ldn n' m (a + 1)
  end.

Definition stn (n : nat) (m : bytes) (a v : Z) : bytes :=
  fun x => if in_range a x (Z.of_nat n) then (v / 256 ^ (x - a)) mod 256 else m x.

Definition ld64 (m : bytes) (a : Z) : Z := ldn 8 m a.
Definition st64 (m : bytes) (a v : Z) : bytes := stn 8 m a v.

(** [n] bytes from [a], as a list. *)
Definition peekn (m : bytes) (a : Z) (n : nat) : list Z := map (fun i => m (a + Z.of_nat i)) (seq 0 n).

(** The C string at [p], cut at [n] bytes. *)
Fixpoint cstrn (m : bytes) (p : Z) (n : nat) : list Z :=
  match n with
  | O => []
  | S n' => if m p =? 0 then [] else m p :: cstrn m (p + 1) n'
  end.

Definition bytes_ok (m : bytes) : Prop := forall a, 0 <= m a < 256.

(** ** Lemmas *)

Lemma memset_loop_range m dst c n : memset_loop m dst c n = memset m dst c (Z.of_nat n).
Proof.
  extensionality a. unfold memset. induction n as [|i IH]; simpl.
  - case_range; [lia|done].
  - unfold fupd. rewrite IH. case_decide; case_range; first [done | lia].
Qed.

Lemma memmove_down_range m d s n :
  s <= d -> memmove_down m d s n = memmove m (d - Z.of_nat n) (s - Z.of_nat n) (Z.of_nat n).
Proof.
  revert m d s. induction n as [|n IH]; intros m d s H; extensionality a;
    unfold memmove, memcopy in *; simpl.
  - case_range; [lia|done].
  - rewrite IH by lia. case_range; unfold fupd; repeat case_decide;
      first [lia | f_equal; lia].
Qed.

Lemma memmove_up_range m d s n :
  d <= s \/ s + Z.of_nat n <= d -> memmove_up m d s n = memmove m d s (Z.of_nat n).
Proof.
  revert m d s. induction n as [|n IH]; intros m d s H; extensionality a;
    unfold memmove, memcopy in *; simpl.
  - case_range; [lia|done].
  - rewrite IH by lia. case_range; unfold fupd; repeat case_decide;
      first [lia | f_equal; lia].
Qed.

Lemma memcopy_in md dst ms src n a :
  dst <= a < dst + n -> memcopy md dst ms src n a = ms (src + (a - dst)).
Proof. intros. unfold memcopy. case_range; [done|lia]. Qed.

Lemma memcopy_out md dst ms src n a :
  ~ (dst <= a < dst + n) -> memcopy md dst ms src n a = md a.
Proof. intros. unfold memcopy. case_range; [lia|done]. Qed.

Lemma ldn_ext n m m' a a' :
  (forall i, 0 <= i < Z.of_nat n -> m (a + i) = m' (a' + i)) -> ldn n m a = ldn n m' a'.
Proof.
  revert a a'. induction n as [|n IH]; intros a a' H; simpl; [done|].
  f_equal; [|f_equal].
  - specialize (H 0). rewrite !Z.add_0_r in H. apply H. lia.
  - apply IH. intros i Hi. specialize (H (1 + i)). rewrite !Z.add_assoc in H. apply H. lia.
Qed.

Lemma ldn_bound n m a : bytes_ok m -> 0 <= ldn n m a < 256 ^ Z.of_nat n.
Proof.
  intros Hm. revert a. induction n as [|n IH]; intros a; [done|].
  rewrite Nat2Z.inj_succ, Z.pow_succ_r by lia. simpl. specialize (IH (a + 1)). specialize (Hm a). lia.
Qed.

Lemma ldn_stn_off n m a v k :
  (k <= n)%nat ->
  ldn k (stn n m a v) (a + Z.of_nat (n - k)) = (v / 256 ^ Z.of_nat (n - k)) mod 256 ^ Z.of_nat k.
Proof.
  induction k as [|k IH]; intros Hk; [by rewrite Z.mod_1_r|].
  rewrite Nat2Z.inj_succ, Z.pow_succ_r by lia. simpl.
  replace (a + Z.of_nat (n - S k) + 1) with (a + Z.of_nat (n - k)) by lia.
  rewrite IH by lia. unfold stn. case_range; [|lia].
  replace (a + Z.of_nat (n - S k) - a) with (Z.of_nat (n - S k)) by lia.
  replace (Z.of_nat (n - k)) with (Z.succ (Z.of_nat (n - S k))) by lia.
  rewrite Z.pow_succ_r, (Z.mul_comm 256 (256 ^ Z.of_nat (n - S k))), <- Z.div_div by lia.
  symmetry. apply Z.rem_mul_r; lia.
Qed.

Lemma ldn_stn_eq n m a v : ldn n (stn n m a v) a = v mod 256 ^ Z.of_nat n.
Proof.
  pose proof (ldn_stn_off n m a v n) as H. rewrite Nat.sub_diag, Z.add_0_r, Z.div_1_r in H.
  by apply H.
Qed.

Lemma ldn_stn_ne n k m a b v :
  b + Z.of_nat k <= a \/ a + Z.of_nat n <= b -> ldn k (stn n m a v) b = ldn k m b.
Proof. intros H. apply ldn_ext. intros i Hi. unfold stn. case_range; [lia|done]. Qed.

Lemma ld64_st64_eq m a v : ld64 (st64 m a v) a = u64 v.
Proof. unfold ld64, st64, u64. by rewrite ldn_stn_eq. Qed.

Lemma ld64_st64_ne m a b v : b + 8 <= a \/ a + 8 <= b -> ld64 (st64 m a v) b = ld64 m b.
Proof. apply (ldn_stn_ne 8 8). Qed.

Lemma ld64_ext m m' a : (forall x, a <= x < a + 8 -> m x = m' x) -> ld64 m a = ld64 m' a.
Proof. intros H. apply ldn_ext. intros i Hi. apply H. lia. Qed.

Lemma st64_out m a v x : ~ (a <= x < a + 8) -> st64 m a v x = m x.
Proof. intros. unfold st64, stn. case_range; [lia|done]. Qed.

Lemma memset_out m dst c n a : ~ (dst <= a < dst + n) -> memset m dst c n a = m a.
Proof. intros. unfold memset. case_range; [lia|done]. Qed.

Lemma memset_in m dst c n a : dst <= a < dst + n -> memset m dst c n a = u8 c.
Proof. intros. unfold memset. case_range; [done|lia]. Qed.

Lemma u8_range z : 0 <= u8 z < 256.
Proof. unfold u8. apply Z.mod_pos_bound. lia. Qed.

Lemma memset_ok m dst c n : bytes_ok m -> bytes_ok (memset m dst c n).
Proof. intros H a. unfold memset. case_range; [apply u8_range|apply H]. Qed.

Lemma memcopy_ok md dst ms src n : bytes_ok md -> bytes_ok ms -> bytes_ok (memcopy md dst ms src n).
Proof. intros H1 H2 a. unfold memcopy. case_range; [apply H2|apply H1]. Qed.

Lemma stn_ok n m a v : bytes_ok m -> bytes_ok (stn n m a v).
Proof. intros H x. unfold stn. case_range; [|apply H]. apply Z.mod_pos_bound. lia. Qed.

Lemma peekn_ext m m' a a' n :
  (forall i, 0 <= i < Z.of_nat n -> m (a + i) = m' (a' + i)) -> peekn m a n = peekn m' a' n.
Proof.
  intros H. unfold peekn. apply map_ext_in. intros i Hi%in_seq. apply H. lia.
Qed.

Lemma length_peekn m a n : length (peekn m a n) = n.
Proof. unfold peekn. by rewrite length_map, length_seq. Qed.

(** *** Strings *)

Lemma zerofill_spec m s n a :
  zerofill m s n a = if in_range s a (Z.of_nat n) then 0 else m a.
Proof.
  revert m s. induction n as [|n IH]; intros m s; cbn [zerofill].
  - case_range; [lia|done].
  - rewrite IH. unfold fupd. case_range; try lia; case_decide; first [done|lia].
Qed.

Lemma cstrn_S m p n : cstrn m p (S n) = if m p =? 0 then [] else m p :: cstrn m (p + 1) n.
Proof. done. Qed.

Lemma cstrn_ext m m' p p' n :
  (forall i, 0 <= i < Z.of_nat n -> m (p + i) = m' (p' + i)) -> cstrn m p n = cstrn m' p' n.
Proof.
  revert p p'. induction n as [|n IH]; intros p p' H; [done|]. simpl.
  assert (m p = m' p') as ->.
  { specialize (H 0). rewrite !Z.add_0_r in H. apply H. lia. }
  case_match; [done|]. f_equal. apply IH. intros i Hi.
  specialize (H (1 + i)). rewrite !Z.add_assoc in H. apply H. lia.
Qed.

Lemma strncpy_out m s mt t n a : ~ (s <= a < s + Z.of_nat n) -> strncpy m s mt t n a = m a.
Proof.
  revert m s t. induction n as [|n IH]; intros m s t H; simpl; [done|].
  case_match.
  - rewrite zerofill_spec. case_range; [lia|]. rewrite fupd_ne; [done|lia].
  - rewrite IH by lia. rewrite fupd_ne; [done|lia].
Qed.

Lemma safestrcpy_loop_SS m s mt t n :
  safestrcpy_loop m s mt t (S (S n)) =
  if mt t =? 0 then (m.[s := mt t]).[s + 1 := 0]
  else safestrcpy_loop m.[s := mt t] (s + 1) mt (t + 1) (S n).
Proof. done. Qed.

Lemma safestrcpy_loop_out m s mt t n a :
  (1 <= n)%nat -> ~ (s <= a < s + Z.of_nat n) -> safestrcpy_loop m s mt t n a = m a.
Proof.
  revert m s t. induction n as [|n IH]; intros m s t Hn H; [lia|].
  destruct n as [|n].
  - simpl. rewrite fupd_ne; [done|lia].
  - rewrite safestrcpy_loop_SS. case_match.
    + rewrite !fupd_ne; [done|lia|lia].
    + rewrite IH by lia. rewrite fupd_ne; [done|lia].
Qed.

Lemma safestrcpy_loop_cstr m s mt t n :
  (1 <= n)%nat -> cstrn (safestrcpy_loop m s mt t n) s n = cstrn mt t (n - 1).
Proof.
  revert m s t. induction n as [|n IH]; intros m s t Hn; [lia|].
  destruct n as [|n].
  - simpl. by rewrite fupd_eq.
  - replace (S (S n) - 1)%nat with (S n) by lia.
    rewrite safestrcpy_loop_SS, (cstrn_S _ _ (S n)), (cstrn_S mt t n). destruct (mt t =? 0) eqn:E.
    + rewrite fupd_ne, fupd_eq, E by lia. done.
    + rewrite safestrcpy_loop_out, fupd_eq, E by lia. f_equal.
      rewrite IH by lia. by replace (S n - 1)%nat with n by lia.
Qed.

(** Memmove() copies correctly even when source and destination overlap.
    The loop of string.c, which picks its direction from the addresses, leaves
    in [dst .. dst+n) exactly the bytes that were in [src .. src+n) before the
    call, and no other byte changes. *)
Theorem memmove_loop_correct m dst src n :
  memmove_loop m dst src n =
  fun a => if in_range dst a n then m (src + (a - dst)) else m a.
Proof.
  destruct (Z.le_gt_cases n 0) as [Hn|Hn].
  - unfold memmove_loop. replace (Z.to_nat n) with O by lia. simpl.
    extensionality a. case_range; [lia|]. by destruct (_ && _).
  - transitivity (memmove m dst src (Z.of_nat (Z.to_nat n)));
      [|by rewrite Z2Nat.id by lia].
    unfold memmove_loop. destruct (_ && _) eqn:E.
    + rewrite memmove_down_range by lia. f_equal; lia.
    + apply memmove_up_range. lia.
Qed.

(** The directory-name comparison.  strncmp(p, q, n) returns 0 exactly when
    the two C strings, each cut at [n] bytes, are the same. *)
Theorem strncmp_eq_iff mp mq p q n :
  strncmp mp mq p q n = 0 <-> cstrn mp p n = cstrn mq q n.
Proof.
  revert p q. induction n as [|n IH]; intros p q; [done|]. simpl.
  destruct (Z.eqb_spec (mp p) 0) as [E|E]; simpl.
  - rewrite E. destruct (Z.eqb_spec (mq q) 0) as [E'|E']; [rewrite E'; done|].
    split; [lia|done].
  - destruct (Z.eqb_spec (mp p) (mq q)) as [E2|E2].
    + rewrite IH, <- E2. rewrite (proj2 (Z.eqb_neq _ _) E). split; [by intros ->|by intros [=]].
    + split; [lia|]. destruct (Z.eqb_spec (mq q) 0); [done|]. intros [= ?]. done.
Qed.

(** safestrcpy() always NUL-terminates and never overruns.  For [n > 0] the
    destination ends up holding the source string cut at [n-1] bytes, with a NUL
    within the [n] bytes, and no byte outside [s .. s+n) changes. *)
Theorem safestrcpy_spec m s mt t n (Hn : 0 < n) :
  cstrn (safestrcpy m s mt t n) s (Z.to_nat n) = cstrn mt t (Z.to_nat n - 1) /\
  (forall a, ~ (s <= a < s + n) -> safestrcpy m s mt t n a = m a).
Proof.
  unfold safestrcpy. rewrite (proj2 (Z.leb_gt _ _) Hn). split.
  - apply safestrcpy_loop_cstr. lia.
  - intros a Ha. apply safestrcpy_loop_out; lia.
Qed.

Lemma safestrcpy_spec_witness :
  cstrn (safestrcpy (fun _ => 7) 100 (fun a => if a =? 3 then 0 else 65 + a) 0 16) 100 16 = [65; 66; 67].
Proof.
  etransitivity; [exact (proj1 (safestrcpy_spec (fun _ => 7) 100 _ 0 16 ltac:(lia)))|].
  vm_compute. reflexivity.
Defined.
