(* ===== verification/Kalloc.v ===== *)
(** * Physical page allocator (kernel/kalloc.c)

    The free list is the linked list that the C code threads through the free
    pages themselves: [kmem.freelist] is an address and the next pointer is the
    64-bit word at the start of each free page. *)

From S2P Require Import Prelude State Spinlock CString.
Open Scope Z_scope.

Definition getmem {A} (f : bytes -> A) : M A := gets (fun d => f (mem d)).
Definition setmem (f : bytes -> bytes) : M unit := modify (fun d => set_mem (f (mem d)) d).

Definition kfree (pa : Z) : M unit :=
  let* ed := gets (fun d => sy_end (syms d)) in
  if negb (pa mod PGSIZE =? 0) || (pa <? ed) || (pa >=? PHYSTOP) then panic "kfree" else
  (* Fill with junk to catch dangling refs. *)
  setmem (fun m => memset m pa 1 PGSIZE);;
  acquire LK_kmem;;
  let* fl := gets freelist in
  setmem (fun m => st64 m pa fl);;
  modify (set_freelist pa);;
  release LK_kmem.

Definition kalloc : M Z :=
  acquire LK_kmem;;
  let* r := gets freelist in
  when (negb (r =? 0)) (let* nx := getmem (fun m => ld64 m r) in modify (set_freelist nx));;
  release LK_kmem;;
  when (negb (r =? 0)) (setmem (fun m => memset m r 5 PGSIZE));;
  ret r.

(** The values of [p] for which the loop body of freerange() runs:
    [p], [p + PGSIZE], ... while [p + PGSIZE <= pa_end]. *)
Definition page_steps (p pa_end : Z) : list Z :=
  map (fun i => p + Z.of_nat i * PGSIZE) (seq 0 (Z.to_nat ((pa_end - p) / PGSIZE))).

Definition freerange (pa_start pa_end : Z) : M unit :=
  forM (page_steps (PGROUNDUP pa_start) pa_end) kfree.

Definition kinit : M unit :=
  initlock LK_kmem "kmem";;
  let* ed := gets (fun d => sy_end (syms d)) in
  freerange ed PHYSTOP.

(** ** Net effect on the data *)

Definition kfree_d (pa : Z) (d : kdata) : kdata :=
  set_freelist pa (set_mem (st64 (memset (mem d) pa 1 PGSIZE) pa (freelist d)) d).

Definition kalloc_d (d : kdata) : kdata :=
  if freelist d =? 0 then d
  else set_mem (memset (mem d) (freelist d) 5 PGSIZE) (set_freelist (ld64 (mem d) (freelist d)) d).

(** A page kfree() accepts. *)
Definition page_ok (d : kdata) (pa : Z) : Prop :=
  pa mod PGSIZE = 0 /\ sy_end (syms d) <= pa < PHYSTOP.

Lemma page_test_true d pa :
  page_ok d pa -> negb (pa mod PGSIZE =? 0) || (pa <? sy_end (syms d)) || (pa >=? PHYSTOP) = false.
Proof. intros [-> ?]. rewrite Z.eqb_refl. simpl. lia. Qed.

Lemma page_test_false d pa :
  ~ page_ok d pa -> negb (pa mod PGSIZE =? 0) || (pa <? sy_end (syms d)) || (pa >=? PHYSTOP) = true.
Proof. unfold page_ok. intros H. destruct (Z.eqb_spec (pa mod PGSIZE) 0); simpl; [lia|done]. Qed.

(** A held lock is released and the machine settles. *)
Lemma release_macq lk e m d :
  mach_ok m -> lk_free m lk ->
  release lk e (mkK (macq lk m) d) = Ret tt e (mkK (msettle m) d).
Proof.
  intros Hm Hf. rewrite release_run, mrel_macq; try done.
  - apply macq_held.
  - apply macq_sie.
  - rewrite macq_noff. destruct Hm. lia.
Qed.

Lemma kfree_run pa e m d :
  mach_ok m -> lk_free m LK_kmem -> page_ok d pa ->
  kfree pa e (mkK m d) = Ret tt e (mkK (msettle m) (kfree_d pa d)).
Proof.
  intros Hm Hf Hp. unfold kfree, setmem. mrun. rewrite page_test_true by done. mrun.
  mcall (acquire_run LK_kmem e m (set_mem (memset (mem d) pa 1 PGSIZE) d) Hf). mrun.
  by rewrite release_macq.
Qed.

Lemma kalloc_run e m d :
  mach_ok m -> lk_free m LK_kmem ->
  kalloc e (mkK m d) = Ret (freelist d) e (mkK (msettle m) (kalloc_d d)).
Proof.
  intros Hm Hf. unfold kalloc, setmem, getmem, kalloc_d.
  mcall (acquire_run LK_kmem e m d Hf). mrun.
  destruct (freelist d =? 0); simpl; mrun;
    (erewrite bind_Ret; [|by apply release_macq]); mrun; done.
Qed.

(** ** The free list *)

Fixpoint chain (m : bytes) (p : Z) (l : list Z) : Prop :=
  match l with
  | [] => p = 0
  | q :: l' => p = q /\ q <> 0 /\ chain m (ld64 m q) l'
  end.

(** [kmem_ok d l]: [l] is the list of free pages, head first. *)
Record kmem_ok (d : kdata) (l : list Z) : Prop := {
  kmem_chain : chain (mem d) (freelist d) l;
  kmem_nodup : NoDup l;
  kmem_pages : Forall (page_ok d) l;
}.

Lemma pages_apart p q :
  p mod PGSIZE = 0 -> q mod PGSIZE = 0 -> p <> q -> p + PGSIZE <= q \/ q + PGSIZE <= p.
Proof. unfold PGSIZE. intros Hp Hq Hne. Z.to_euclidean_division_equations. lia. Qed.

Lemma chain_ext m m' p l :
  (forall q x, q ∈ l -> q <= x < q + 8 -> m x = m' x) -> chain m p l -> chain m' p l.
Proof.
  revert p. induction l as [|q l IH]; intros p H; simpl; [done|].
  intros (-> & Hq & Hc). split_and!; try done. apply IH.
  - intros q' x Hq' Hx. apply H with q'; [by constructor|done].
  - rewrite <- (ld64_ext m m'); [done|]. intros x Hx. apply H with q; [by constructor|done].
Qed.

Lemma kmem_head d l : kmem_ok d l -> freelist d = hd 0 l.
Proof. intros [Hc _ _]. by destruct l as [|q l]; [|destruct Hc]. Qed.

Lemma kmem_freelist_range d l : 0 < sy_end (syms d) -> kmem_ok d l -> 0 <= freelist d < 2 ^ 64.
Proof.
  intros Hend H. rewrite (kmem_head _ _ H). destruct H as [_ _ Hp].
  destruct l as [|q l]; simpl; [lia|]. apply Forall_inv in Hp as [_ ?].
  unfold PHYSTOP, KERNBASE in *. lia.
Qed.

(** Freeing a page that is not free pushes it. *)
Lemma kfree_d_ok d l pa :
  0 < sy_end (syms d) -> kmem_ok d l -> page_ok d pa -> pa ∉ l -> kmem_ok (kfree_d pa d) (pa :: l).
Proof.
  intros Hend Hk Hp Hn. pose proof (kmem_freelist_range _ _ Hend Hk) as Hr.
  destruct Hk as [Hc Hd Hf]. split; simpl.
  - split_and!; [done|unfold page_ok in Hp; lia|].
    rewrite ld64_st64_eq, u64_small by done. eapply chain_ext; [|exact Hc].
    intros q x Hq Hx. rewrite Forall_forall in Hf. destruct (Hf q Hq) as [Hq1 _].
    destruct (pages_apart pa q (proj1 Hp) Hq1) as [?|?]; [congruence| |];
      unfold PGSIZE in *; rewrite st64_out, memset_out by lia; done.
  - by constructor.
  - constructor; [done|]. exact Hf.
Qed.

(** Allocation pops the head. *)
Lemma kalloc_d_ok d p l : kmem_ok d (p :: l) -> kmem_ok (kalloc_d d) l.
Proof.
  intros [(E & Hp0 & Hc) Hd Hf]. unfold kalloc_d. rewrite E.
  rewrite (proj2 (Z.eqb_neq _ _) Hp0).
  apply NoDup_cons in Hd as [Hni Hd]. apply Forall_cons in Hf as [Hp Hf]. split; simpl; [|done|done].
  eapply chain_ext; [|exact Hc]. intros q x Hq Hx. rewrite Forall_forall in Hf.
  destruct (Hf q Hq) as [Hq1 _].
  destruct (pages_apart p q (proj1 Hp) Hq1) as [?|?]; [congruence| |];
    unfold PGSIZE in *; by rewrite memset_out by lia.
Qed.

Lemma kalloc_d_nil d : kmem_ok d [] -> kalloc_d d = d.
Proof. intros H. unfold kalloc_d. by rewrite (kmem_head _ _ H). Qed.

(** ** Properties *)

(** Kalloc() on a well-formed allocator.  With no free page it returns 0
    and changes nothing; otherwise it returns the head of the free list, a page
    aligned and inside [end, PHYSTOP) that is no longer free, filled with the
    junk byte 5, and no byte outside that page changes. *)
Theorem kalloc_correct e m d l (Hm : mach_ok m) (Hl : lk_free m LK_kmem) (Hk : kmem_ok d l) :
  exists r d', kalloc e (mkK m d) = Ret r e (mkK (msettle m) d') /\
  match l with
  | [] => r = 0 /\ d' = d
  | p :: l' =>
      r = p /\ p <> 0 /\ page_ok d p /\ (p ∉ l') /\ kmem_ok d' l' /\
      (forall a, mem d' a = if in_range p a PGSIZE then 5 else mem d a) /\
      procs d' = procs d /\ syms d' = syms d
  end.
Proof.
  rewrite kalloc_run by done. do 2 eexists. split; [done|]. destruct l as [|p l].
  - by rewrite (kmem_head _ _ Hk), kalloc_d_nil.
  - pose proof (kmem_head _ _ Hk) as E. simpl in E. pose proof (kalloc_d_ok _ _ _ Hk) as Hk'.
    destruct Hk as [(_ & Hp0 & _) Hd Hf]. apply NoDup_cons in Hd as [? ?].
    apply Forall_inv in Hf. unfold kalloc_d in *. rewrite E in *.
    rewrite (proj2 (Z.eqb_neq _ _) Hp0) in *. split_and!; done.
Qed.

(** Kfree() on a well-formed allocator.  A page that is aligned, inside
    [end, PHYSTOP) and not already free becomes the head of the free list and no
    byte outside it changes; any other address panics. *)
Theorem kfree_correct e m d l pa
  (Hm : mach_ok m) (Hl : lk_free m LK_kmem) (Hend : 0 < sy_end (syms d)) (Hk : kmem_ok d l) :
  (page_ok d pa -> pa ∉ l -> exists d',
     kfree pa e (mkK m d) = Ret tt e (mkK (msettle m) d') /\ kmem_ok d' (pa :: l) /\
     (forall a, ~ (pa <= a < pa + PGSIZE) -> mem d' a = mem d a) /\ procs d' = procs d) /\
  (~ page_ok d pa -> kfree pa e (mkK m d) = Stop (Panicked "kfree") (mkK m d)).
Proof.
  split.
  - intros Hp Hn. rewrite kfree_run by done. eexists. split; [done|]. split_and!.
    + by apply kfree_d_ok.
    + intros a Ha. simpl. unfold PGSIZE in *. by rewrite st64_out, memset_out by lia.
    + done.
  - intros Hp. unfold kfree. mrun. by rewrite page_test_false.
Qed.

Lemma page_steps_elem p pa_end pa :
  p mod PGSIZE = 0 ->
  pa ∈ page_steps p pa_end <-> pa mod PGSIZE = 0 /\ p <= pa /\ pa + PGSIZE <= pa_end.
Proof.
  intros Hp. unfold page_steps. rewrite list_elem_of_In, in_map_iff.
  setoid_rewrite in_seq. unfold PGSIZE in *. split.
  - intros (i & <- & Hi). Z.to_euclidean_division_equations. lia.
  - intros (H1 & H2 & H3). exists (Z.to_nat ((pa - p) / 4096)).
    Z.to_euclidean_division_equations. lia.
Qed.

Lemma page_steps_nodup p pa_end : NoDup (page_steps p pa_end).
Proof.
  unfold page_steps. apply NoDup_ListNoDup. apply Finite.Injective_map_NoDup.
  - intros i j H. unfold PGSIZE in H. lia.
  - apply seq_NoDup.
Qed.

Lemma freerange_run (ps l : list Z) e m d :
  mach_ok m -> lk_free m LK_kmem -> 0 < sy_end (syms d) -> kmem_ok d l ->
  Forall (page_ok d) ps -> NoDup (ps ++ l) -> ps <> [] ->
  exists d', forM ps kfree e (mkK m d) = Ret tt e (mkK (msettle m) d') /\
    kmem_ok d' (rev ps ++ l) /\ syms d' = syms d /\ procs d' = procs d.
Proof.
  revert l m d. induction ps as [|p ps IH]; intros l m d Hm Hl Hend Hk Hf Hd Hne; [done|].
  apply Forall_cons in Hf as [Hp Hf]. simpl in Hd. apply NoDup_cons in Hd as [Hni Hd].
  apply not_elem_of_app in Hni as [Hni1 Hni2]. cbn [forM].
  mcall (kfree_run p e m d Hm Hl Hp).
  pose proof (kfree_d_ok _ _ _ Hend Hk Hp Hni2) as Hk'.
  destruct (decide (ps = [])) as [->|Hne'].
  - eexists. split; [done|]. by split_and!.
  - destruct (IH (p :: l) (msettle m) (kfree_d p d)) as (d' & H1 & H2 & H3 & H4); try done.
    + by apply msettle_ok.
    + rewrite <- Permutation_middle. apply NoDup_cons. split; [|done]. by apply not_elem_of_app.
    + exists d'. rewrite H1, msettle_idem. split_and!; try done.
      simpl. by rewrite <- app_assoc.
Qed.

Lemma kinit_run e m d : mach_ok m -> freelist d = 0 -> 0 < sy_end (syms d) <= PHYSTOP - 2 * PGSIZE ->
  exists m' d' l, kinit e (mkK m d) = Ret tt e (mkK m' d') /\ mach_ok m' /\ lk_free m' LK_kmem /\ syms d' = syms d /\ kmem_ok d' l /\
    forall pa, pa ∈ l <-> pa mod PGSIZE = 0 /\ PGROUNDUP (sy_end (syms d)) <= pa /\ pa + PGSIZE <= PHYSTOP.
Proof.
  intros Hm Hfl Hend. unfold kinit. mcall (initlock_run LK_kmem "kmem" e m d). mrun. unfold freerange. set (ed := sy_end (syms d)) in *.
  assert (PGROUNDUP ed = (ed + PGSIZE - 1) / PGSIZE * PGSIZE) as Eup.
  { apply PGROUNDUP_eq; unfold PGSIZE, PHYSTOP, KERNBASE in *; lia. }
  assert (PGROUNDUP ed mod PGSIZE = 0) as Hal by (rewrite Eup; apply Z.mod_mul; unfold PGSIZE; lia).
  assert (ed <= PGROUNDUP ed <= PHYSTOP - PGSIZE) as Hrng.
  { rewrite Eup. unfold PGSIZE, PHYSTOP, KERNBASE in *. Z.to_euclidean_division_equations. lia. }
  edestruct (freerange_run (page_steps (PGROUNDUP ed) PHYSTOP) [] e (minit LK_kmem "kmem" m) d) as (d' & H1 & H2 & H3 & _).
  - done.
  - apply minit_free.
  - lia.
  - by split; [|constructor..].
  - apply Forall_forall. intros pa Hpa. apply page_steps_elem in Hpa; [|done].
    split; [tauto|]. unfold PGSIZE in *. fold ed. lia.
  - rewrite app_nil_r. apply page_steps_nodup.
  - intros E. assert (PGROUNDUP ed ∈ page_steps (PGROUNDUP ed) PHYSTOP) as Hin
      by (apply page_steps_elem; [done|lia]). rewrite E in Hin. by apply not_elem_of_nil in Hin.
  - do 3 eexists. split; [exact H1|]. split; [apply msettle_ok; done|]. split; [apply msettle_free, minit_free|]. split; [exact H3|]. split; [exact H2|]. intros pa.
    rewrite app_nil_r, <- page_steps_elem by done. rewrite !list_elem_of_In. symmetry. apply in_rev.
Qed.

(** Kinit() hands every whole page of [end, PHYSTOP) to the allocator: after
    it, starting from an empty list, the free list holds without repetition exactly
    the page-aligned addresses [pa] with [PGROUNDUP end <= pa] and
    [pa + PGSIZE <= PHYSTOP]. *)
Theorem kinit_frees_all e m d
  (Hm : mach_ok m) (Hfl : freelist d = 0)
  (Hend : 0 < sy_end (syms d) <= PHYSTOP - 2 * PGSIZE) :
  exists m' d' l, kinit e (mkK m d) = Ret tt e (mkK m' d') /\ kmem_ok d' l /\
    forall pa, pa ∈ l <->
      pa mod PGSIZE = 0 /\ PGROUNDUP (sy_end (syms d)) <= pa /\ pa + PGSIZE <= PHYSTOP.
Proof.
  destruct (kinit_run e m d Hm Hfl Hend) as (m' & d' & l & H & _ & _ & _ & Hk & Hl). by exists m', d', l.
Qed.

(** ** Witnesses: an allocator whose one free page is the last page of RAM *)

Definition kdata_one_page : kdata := kfree_d 0x87fff000 kdata0.

Lemma kdata0_kmem_ok : kmem_ok kdata0 [].
Proof. by split; [|constructor..]. Qed.

Lemma page_ok_last : page_ok kdata0 0x87fff000.
Proof. split; [reflexivity|]. split; vm_compute; congruence. Qed.

Lemma kdata_one_page_ok : kmem_ok kdata_one_page [0x87fff000].
Proof.
  apply kfree_d_ok; [reflexivity|apply kdata0_kmem_ok|apply page_ok_last|apply not_elem_of_nil].
Qed.

Lemma mach_ok0 : mach_ok machine0.
Proof. split; vm_compute; congruence. Qed.

Lemma lk_free0 lk : lk_free machine0 lk.
Proof. done. Qed.

Lemma kalloc_correct_witness :
  exists d', kalloc [] (mkK machine0 kdata_one_page) = Ret 0x87fff000 [] (mkK (msettle machine0) d') /\
    kmem_ok d' [].
Proof.
  destruct (kalloc_correct [] machine0 kdata_one_page [0x87fff000] mach_ok0 (lk_free0 _)
              kdata_one_page_ok) as (r & d' & H & -> & _ & _ & _ & Hk & _).
  exists d'. split; [exact H|exact Hk].
Defined.

Lemma kfree_correct_witness :
  exists d', kfree 0x87fff000 [] (mkK machine0 kdata0) = Ret tt [] (mkK (msettle machine0) d') /\
    kmem_ok d' [0x87fff000].
Proof.
  destruct (proj1 (kfree_correct [] machine0 kdata0 [] 0x87fff000 mach_ok0 (lk_free0 _) ltac:(reflexivity)
              kdata0_kmem_ok) page_ok_last (not_elem_of_nil _)) as (d' & H & Hk & _).
  exists d'. split; [exact H|exact Hk].
Defined.

Lemma kinit_frees_all_witness :
  exists m' d' l, kinit [] (mkK machine0 kdata0) = Ret tt [] (mkK m' d') /\ kmem_ok d' l.
Proof.
  destruct (kinit_frees_all [] machine0 kdata0 mach_ok0 eq_refl
              ltac:(split; [reflexivity|vm_compute; congruence])) as (m' & d' & l & H & Hk & _).
  exists m', d', l. split; [exact H|exact Hk].
Defined.
