(* ===== verification/Sched.v ===== *)
(** * Context switching, sleep and wakeup, tick accounting and the four schedulers

    The part of kernel/proc.c that decides which process runs: sched, yield,
    sleep, wakeup, kill, trace, set_priority, the per-tick accounting
    update_clock_ticks and the body of scheduler() for each value of the build
    flag SCHEDFLAG (DEFAULT, FCFS, SRT, CFSD).  [swtch] hands control to the
    rest of the machine: one element of the schedule. *)

From S2P Require Import Prelude State Spinlock Kalloc.
Open Scope Z_scope.

Definition swtch : M unit := others.

(** Accumulating [for] loop. *)
Fixpoint foldM {X A} (l : list X) (body : A -> X -> M A) (a : A) : M A :=
  match l with
  | [] => ret a
  | x :: l' => let* a' := body a x in foldM l' body a'
  end.

(** ** proc.c *)

Definition sched : M unit :=
  let* p := myproc_deref in
  let* h := holding (LK_proc p) in
  if negb h then panic "sched p->lock" else
  let* n := getc noff in
  if negb (n =? 1) then panic "sched locks" else
  let* st := getp p p_state in
  if bool_decide (st = RUNNING) then panic "sched running" else
  let* i := intr_get in
  if i then panic "sched interruptible" else
  let* ie := getc intena in
  swtch;;
  setc (set_intena ie).

Definition yield : M unit :=
  let* p := myproc_deref in
  acquire (LK_proc p);;
  let* st := getp p p_state in
  let* t := gets ticks in
  when (bool_decide (st <> RUNNABLE)) (setp p (set_p_readyTime t));;
  setp p (set_p_state RUNNABLE);;
  sched;;
  release (LK_proc p).

Definition sleep (chan : wchan) (lk : lockid) : M unit :=
  let* p := myproc_deref in
  acquire (LK_proc p);;
  release lk;;
  (* Go to sleep. *)
  setp p (set_p_chan (Some chan));;
  let* t := gets ticks in
  setp p (set_p_sleepTime t);;
  setp p (set_p_state SLEEPING);;
  sched;;
  (* Tidy up. *)
  setp p (set_p_chan None);;
  (* Reacquire original lock. *)
  release (LK_proc p);;
  acquire lk.

(** [chan] as a pointer; exit() can pass a null parent. *)
Definition wakeup_ptr (chan : option wchan) : M unit :=
  forM all_procs (fun p =>
    let* me := myproc in
    if bool_decide (Some p <> me) then
      acquire (LK_proc p);;
      let* st := getp p p_state in
      let* ch := getp p p_chan in
      when (bool_decide (st = SLEEPING) && bool_decide (ch = chan))
        (setp p (set_p_state RUNNABLE);;
         let* t := gets ticks in
         setp p (set_p_readyTime t));;
      release (LK_proc p)
    else ret tt).

Definition wakeup (chan : wchan) : M unit := wakeup_ptr (Some chan).

Definition set_priority (prio : Z) : M Z :=
  if negb (prio =? TEST_HIGH_PRIORITY) && negb (prio =? HIGH_PRIORITY) && negb (prio =? NORMAL_PRIORITY)
     && negb (prio =? LOW_PRIORITY) && negb (prio =? TEST_LOW_PRIORITY)
  then ret (-1) else
  let* p := myproc_deref in
  acquire (LK_proc p);;
  setp p (set_p_priority prio);;
  release (LK_proc p);;
  ret 0.

Definition trace (mask_input pid : Z) : M Z :=
  forM all_procs (fun p =>
    acquire (LK_proc p);;
    let* q := getp p p_pid in
    when (q =? pid) (setp p (set_p_mask mask_input));;
    release (LK_proc p));;
  ret 0.

Definition kill (pid : Z) : M Z :=
  let* r := forE all_procs (fun p =>
    acquire (LK_proc p);;
    let* q := getp p p_pid in
    if q =? pid then
      setp p (set_p_killed 1);;
      let* st := getp p p_state in
      when (bool_decide (st = SLEEPING))
        ((* Wake process from sleep(). *)
         setp p (set_p_state RUNNABLE);;
         let* t := gets ticks in
         setp p (set_p_readyTime t));;
      release (LK_proc p);;
      ret (Some 0)
    else
      release (LK_proc p);;
      ret None) in
  match r with Some v => ret v | None => ret (-1) end.

(** The switch of update_clock_ticks(), first definition (lines 943-957). *)
Definition tick_proc (p : proc) : proc :=
  match p_state p with
  | SLEEPING => set_p_stime (i32 (p_stime p + 1)) p
  | RUNNING => set_p_rutime (i32 (p_rutime p + 1)) (set_p_tickcounter (i32 (p_tickcounter p + 1)) p)
  | RUNNABLE => set_p_retime (i32 (p_retime p + 1)) p
  | _ => p
  end.

Definition update_clock_ticks : M unit :=
  forM all_procs (fun p =>
    acquire (LK_proc p);;
    setp p tick_proc;;
    release (LK_proc p)).

(** The second definition of the same function (lines 962-985), which does not
    advance tickcounter. *)
Definition tick_proc2 (p : proc) : proc :=
  match p_state p with
  | SLEEPING => set_p_stime (i32 (p_stime p + 1)) p
  | RUNNING => set_p_rutime (i32 (p_rutime p + 1)) p
  | RUNNABLE => set_p_retime (i32 (p_retime p + 1)) p
  | _ => p
  end.

Definition update_clock_ticks2 : M unit :=
  forM all_procs (fun p =>
    acquire (LK_proc p);;
    setp p tick_proc2;;
    release (LK_proc p)).

(** ** scheduler() *)

Definition set_cpu_proc (c : nat) (p : option nat) : M unit :=
  mmodify (fun m => set_cpus (cpus m).[c := set_c_proc p (cpus m c)] m).

(** The new estimate, in hundredths of a tick. *)
Definition next_burst (tickcounter average_bursttime : Z) : Z :=
  i32 (i32 (ALPHA * tickcounter) + Z.quot (i32 ((100 - ALPHA) * average_bursttime)) 100).

(** Switch to the chosen process and, when it comes back, update its estimate;
    the same statements in each of the four policies. *)
Definition run_chosen (c p : nat) : M unit :=
  setp p (set_p_state RUNNING);;
  setp p (set_p_tickcounter 0);;
  set_cpu_proc c (Some p);;
  swtch;;
  setp p (fun q => set_p_average_bursttime (next_burst (p_tickcounter q) (p_average_bursttime q)) q);;
  set_cpu_proc c None.

Definition sched_default (c : nat) : M unit :=
  forM all_procs (fun p =>
    acquire (LK_proc p);;
    let* st := getp p p_state in
    if bool_decide (st <> RUNNABLE) then release (LK_proc p)
    else run_chosen c p;; release (LK_proc p)).

Definition fcfs_scan (minP : option nat) (p : nat) : M (option nat) :=
  acquire (LK_proc p);;
  let* st := getp p p_state in
  if bool_decide (st = RUNNABLE) then
    match minP with
    | Some q =>
        let* rp := getp p p_readyTime in
        let* rq := getp q p_readyTime in
        if rp <? rq then release (LK_proc q);; ret (Some p)
        else release (LK_proc p);; ret minP
    | None => ret (Some p)
    end
  else release (LK_proc p);; ret minP.

Definition sched_fcfs (c : nat) : M unit :=
  let* minP := foldM all_procs fcfs_scan None in
  match minP with
  | Some p => run_chosen c p;; release (LK_proc p)
  | None => ret tt
  end.

Definition srt_scan (minP : option nat) (p : nat) : M (option nat) :=
  acquire (LK_proc p);;
  let* st := getp p p_state in
  if bool_decide (st = RUNNABLE) then
    match minP with
    | Some q =>
        let* bp := getp p p_average_bursttime in
        let* bq := getp q p_average_bursttime in
        if bp <? bq then release (LK_proc q);; ret (Some p)
        else release (LK_proc p);; ret minP
    | None => ret (Some p)
    end
  else release (LK_proc p);; ret minP.

Definition sched_srt (c : nat) : M unit :=
  let* minP := foldM all_procs srt_scan None in
  match minP with
  | Some p => run_chosen c p;; release (LK_proc p)
  | None => ret tt
  end.

(** minP with the cached min_rtt_up and min_rtt_down. *)
Definition rtt_up (p : proc) : Z := i32 (p_rutime p * p_priority p).
Definition rtt_down (p : proc) : Z := i32 (p_rutime p + p_stime p).

Definition cfsd_scan (acc : option (nat * Z * Z)) (p : nat) : M (option (nat * Z * Z)) :=
  acquire (LK_proc p);;
  let* st := getp p p_state in
  if bool_decide (st = RUNNABLE) then
    let* up := getp p rtt_up in
    let* down := getp p rtt_down in
    match acc with
    | Some (q, min_rtt_up, min_rtt_down) =>
        if i32 (up * min_rtt_down) <? i32 (min_rtt_up * down)
        then release (LK_proc q);; ret (Some (p, up, down))
        else release (LK_proc p);; ret acc
    | None => ret (Some (p, up, down))
    end
  else release (LK_proc p);; ret acc.

Definition sched_cfsd (c : nat) : M unit :=
  let* acc := foldM all_procs cfsd_scan None in
  match acc with
  | Some (p, _, _) => run_chosen c p;; release (LK_proc p)
  | None => ret tt
  end.

Inductive schedflag := DEFAULT | FCFS | SRT | CFSD.

Definition sched_body (f : schedflag) : nat -> M unit :=
  match f with
  | DEFAULT => sched_default
  | FCFS => sched_fcfs
  | SRT => sched_srt
  | CFSD => sched_cfsd
  end.

(** scheduler() never returns; this is its first [n] rounds. *)
Definition scheduler (f : schedflag) (n : nat) : M unit :=
  let* c := mycpu in
  set_cpu_proc c None;;
  iterM n (intr_on;; sched_body f c).

(** ** Loops over the process table *)

Definition all_free (m : machine) : Prop := forall i, lk_free m (LK_proc i).

Lemma all_free_settle m : all_free m -> all_free (msettle m).
Proof. intros H i. apply msettle_free, H. Qed.

#[export] Hint Resolve msettle_ok all_free_settle macq_ok : kdb.

(** [g i] applied to entry [i], for the entries of [l]. *)
Definition upd_procs (l : list nat) (g : nat -> proc -> proc) (d : kdata) : kdata :=
  set_procs (fun i => if decide (i ∈ l) then g i (procs d i) else procs d i) d.

Lemma upd_procs_nil g d : upd_procs [] g d = d.
Proof. by destruct d. Qed.

Lemma upd_procs_cons i l g d :
  i ∉ l -> upd_procs l g (upd_proc i (g i) d) = upd_procs (i :: l) g d.
Proof.
  intros Hi. unfold upd_procs, upd_proc, set_procs. simpl. f_equal. extensionality j.
  unfold fupd. destruct (decide (j = i)) as [->|Hj].
  - rewrite decide_False, decide_True; [done|by constructor|done].
  - destruct (decide (j ∈ l)).
    + by rewrite decide_True by by constructor.
    + rewrite decide_False; [done|]. by intros [?|?]%elem_of_cons.
Qed.

Lemma forM_procs (P : machine -> kdata -> Prop) (g : nat -> proc -> proc) (body : nat -> M unit) l e m d :
  (forall i m d, i ∈ l -> mach_ok m -> all_free m -> P m d ->
     body i e (mkK m d) = Ret tt e (mkK (msettle m) (upd_proc i (g i) d)) /\
     P (msettle m) (upd_proc i (g i) d)) ->
  NoDup l -> l <> [] -> mach_ok m -> all_free m -> P m d ->
  forM l body e (mkK m d) = Ret tt e (mkK (msettle m) (upd_procs l g d)).
Proof.
  intros Hb. revert m d. induction l as [|i l IH]; intros m d Hd Hne Hm Hf HP; [done|].
  apply NoDup_cons in Hd as [Hi Hd]. cbn [forM].
  destruct (Hb i m d) as [Hrun HP']; [by constructor|done..|]. mcall Hrun.
  rewrite <- upd_procs_cons by done. destruct (decide (l = [])) as [->|Hl].
  - by rewrite upd_procs_nil.
  - rewrite IH; eauto with kdb.
    + by rewrite msettle_idem.
    + intros j m' d' Hj. apply Hb. by constructor.
Qed.

Lemma all_procs_nodup : NoDup all_procs.
Proof. apply NoDup_seq. Qed.

Lemma all_procs_elem i : i ∈ all_procs <-> (i < NPROC)%nat.
Proof. unfold all_procs. rewrite elem_of_seq. lia. Qed.

Lemma all_procs_seq : all_procs = seq 0 NPROC.
Proof. done. Qed.

Lemma all_procs_ne : all_procs <> [].
Proof. done. Qed.

#[export] Hint Resolve all_procs_nodup all_procs_ne : kdb.

(** One entry under its lock. *)
Lemma locked_entry i e m d (f : proc -> proc) :
  mach_ok m -> all_free m ->
  (acquire (LK_proc i);; setp i f;; release (LK_proc i)) e (mkK m d)
  = Ret tt e (mkK (msettle m) (upd_proc i f d)).
Proof.
  intros Hm Hf. mcall (acquire_run (LK_proc i) e m d (Hf i)). mrun. by rewrite release_macq.
Qed.

Lemma upd_proc_id i d : upd_proc i (fun p => p) d = d.
Proof. unfold upd_proc. rewrite fupd_id. by destruct d. Qed.

Lemma upd_proc_upd_proc i f g d : upd_proc i g (upd_proc i f d) = upd_proc i (fun p => g (f p)) d.
Proof. unfold upd_proc, set_procs. simpl. by rewrite fupd_eq, fupd_fupd. Qed.

Lemma procs_upd_proc_eq i f d : procs (upd_proc i f d) i = f (procs d i).
Proof. unfold upd_proc. simpl. by rewrite fupd_eq. Qed.

Lemma procs_upd_proc_ne i j f d : j <> i -> procs (upd_proc i f d) j = procs d j.
Proof. intros. unfold upd_proc. simpl. by rewrite fupd_ne. Qed.

Lemma upd_proc_ext i f g d : f (procs d i) = g (procs d i) -> upd_proc i f d = upd_proc i g d.
Proof. intros H. unfold upd_proc. by rewrite H. Qed.

(** *** wakeup *)

Definition wake_proc (chan : wchan) (t : Z) (p : proc) : proc :=
  if bool_decide (p_state p = SLEEPING) && bool_decide (p_chan p = Some chan)
  then set_p_readyTime t (set_p_state RUNNABLE p) else p.

Definition wakeup_d (chan : wchan) (me : option nat) (d : kdata) : kdata :=
  upd_procs all_procs (fun i p => if bool_decide (Some i <> me) then wake_proc chan (ticks d) p else p) d.

Lemma wakeup_run chan e m d :
  mach_ok m -> all_free m ->
  wakeup chan e (mkK m d) = Ret tt e (mkK (msettle m) (wakeup_d chan (c_proc (mycpu_of m)) d)).
Proof.
  intros Hm Hf. unfold wakeup, wakeup_ptr, wakeup_d.
  apply (forM_procs (fun m' d' => ticks d' = ticks d /\ c_proc (mycpu_of m') = c_proc (mycpu_of m)));
    auto with kdb.
  intros i m' d' _ Hm' Hf' [Ht Hc]. mcall (myproc_run e m' d' Hm'). rewrite Hc.
  rewrite msettle_c_proc, Hc. split; [|done].
  case_bool_decide as Hme.
  - mcall (acquire_run (LK_proc i) e (msettle m') d' (all_free_settle _ Hf' i)). mrun.
    unfold wake_proc. destruct (_ && _) eqn:E; simpl; mrun.
    + rewrite macq_msettle, release_macq by done. do 2 f_equal.
      rewrite upd_proc_upd_proc. apply upd_proc_ext. simpl. by rewrite E, Ht.
    + rewrite macq_msettle, release_macq by done. do 2 f_equal.
      rewrite <- (upd_proc_id i d') at 1. apply upd_proc_ext. by rewrite E.
  - unfold ret. by rewrite upd_proc_id.
Qed.

(** *** update_clock_ticks, trace *)

Lemma update_clock_ticks_run e m d :
  mach_ok m -> all_free m ->
  update_clock_ticks e (mkK m d) = Ret tt e (mkK (msettle m) (upd_procs all_procs (fun _ => tick_proc) d)).
Proof.
  intros. apply (forM_procs (fun _ _ => True)); auto with kdb.
  intros. split; [|done]. by apply locked_entry.
Qed.

Lemma update_clock_ticks2_run e m d :
  mach_ok m -> all_free m ->
  update_clock_ticks2 e (mkK m d) = Ret tt e (mkK (msettle m) (upd_procs all_procs (fun _ => tick_proc2) d)).
Proof.
  intros. apply (forM_procs (fun _ _ => True)); auto with kdb.
  intros. split; [|done]. by apply locked_entry.
Qed.

Definition trace_proc (mask_input pid : Z) (p : proc) : proc :=
  if p_pid p =? pid then set_p_mask mask_input p else p.

Lemma trace_run mask pid e m d :
  mach_ok m -> all_free m ->
  trace mask pid e (mkK m d)
  = Ret 0 e (mkK (msettle m) (upd_procs all_procs (fun _ => trace_proc mask pid) d)).
Proof.
  intros Hm Hf. unfold trace. erewrite bind_Ret; [done|].
  apply (forM_procs (fun _ _ => True)); auto with kdb.
  intros i m' d' _ Hm' Hf' _. split; [|done].
  mcall (acquire_run (LK_proc i) e m' d' (Hf' i)). mrun. unfold trace_proc.
  destruct (p_pid (procs d' i) =? pid) eqn:E; mrun; rewrite release_macq by done; do 2 f_equal.
  - apply upd_proc_ext. by rewrite E.
  - rewrite <- (upd_proc_id i d') at 1. apply upd_proc_ext. by rewrite E.
Qed.

(** *** kill *)

Definition kill_proc (t : Z) (p : proc) : proc :=
  let p1 := set_p_killed 1 p in
  if bool_decide (p_state p = SLEEPING) then set_p_readyTime t (set_p_state RUNNABLE p1) else p1.

(** The first entry of [l] with the given pid. *)
Definition find_pid (pid : Z) (d : kdata) (l : list nat) : option nat :=
  find (fun i => p_pid (procs d i) =? pid) l.

Definition kill_body (pid : Z) (p : nat) : M (option Z) :=
  acquire (LK_proc p);;
  let* q := getp p p_pid in
  if q =? pid then
    setp p (set_p_killed 1);;
    let* st := getp p p_state in
    when (bool_decide (st = SLEEPING))
      (setp p (set_p_state RUNNABLE);;
       let* t := gets ticks in
       setp p (set_p_readyTime t));;
    release (LK_proc p);;
    ret (Some 0)
  else
    release (LK_proc p);;
    ret None.

Lemma kill_body_run pid i e m d :
  mach_ok m -> all_free m ->
  kill_body pid i e (mkK m d) =
  if p_pid (procs d i) =? pid
  then Ret (Some 0) e (mkK (msettle m) (upd_proc i (kill_proc (ticks d)) d))
  else Ret None e (mkK (msettle m) d).
Proof.
  intros Hm Hf. unfold kill_body. mcall (acquire_run (LK_proc i) e m d (Hf i)). mrun.
  destruct (_ =? pid); mrun.
  - rewrite procs_upd_proc_eq. simpl. unfold kill_proc.
    destruct (bool_decide (p_state (procs d i) = SLEEPING)) eqn:E; mrun;
      (erewrite bind_Ret; [|by apply release_macq]); unfold ret; do 2 f_equal;
      rewrite ?upd_proc_upd_proc; apply upd_proc_ext; by rewrite E.
  - erewrite bind_Ret; [|by apply release_macq]. done.
Qed.

Lemma kill_loop pid l e m d :
  l <> [] -> mach_ok m -> all_free m ->
  forE l (kill_body pid) e (mkK m d) =
  match find_pid pid d l with
  | Some i => Ret (Some 0) e (mkK (msettle m) (upd_proc i (kill_proc (ticks d)) d))
  | None => Ret None e (mkK (msettle m) d)
  end.
Proof.
  revert m. induction l as [|i l IH]; intros m Hne Hm Hf; [done|]. cbn [forE].
  unfold find_pid. simpl. unfold bind. rewrite kill_body_run by done.
  destruct (_ =? pid) eqn:E; [done|].
  destruct (decide (l = [])) as [->|Hl]; [done|].
  rewrite IH by auto with kdb. unfold find_pid. rewrite msettle_idem. done.
Qed.

Lemma kill_run pid e m d :
  mach_ok m -> all_free m ->
  kill pid e (mkK m d) =
  match find_pid pid d all_procs with
  | Some i => Ret 0 e (mkK (msettle m) (upd_proc i (kill_proc (ticks d)) d))
  | None => Ret (-1) e (mkK (msettle m) d)
  end.
Proof.
  intros Hm Hf. unfold kill. fold (kill_body pid). unfold bind.
  rewrite kill_loop by auto with kdb. by destruct (find_pid pid d all_procs).
Qed.

(** *** The scans of FCFS, SRT and CFSD

    Each scan keeps the lock of the best process so far.  [pick better] is the
    choice it makes; the machine it leaves holds exactly that lock. *)

Definition pick (better : nat -> nat -> bool) (d : kdata) (acc : option nat) (p : nat) : option nat :=
  if bool_decide (p_state (procs d p) = RUNNABLE) then
    match acc with
    | Some q => if better p q then Some p else acc
    | None => Some p
    end
  else acc.

Definition hold (acc : option nat) (m : machine) : machine :=
  match acc with Some q => macq (LK_proc q) m | None => msettle m end.

Lemma hold_settle acc m : hold acc (msettle m) = hold acc m.
Proof. destruct acc; simpl; [apply macq_msettle|apply msettle_idem]. Qed.

(** The statements that compare [p] with the current choice. *)
Definition scan_step (b : bool) (minP : option nat) (p : nat) : M (option nat) :=
  match minP with
  | Some q => if b then release (LK_proc q);; ret (Some p) else release (LK_proc p);; ret minP
  | None => ret (Some p)
  end.

Lemma acquire_hold acc p e m d :
  all_free m -> acc <> Some p ->
  acquire (LK_proc p) e (mkK (hold acc m) d) = Ret tt e (mkK (macq (LK_proc p) (hold acc m)) d).
Proof.
  intros Hf Hne. apply acquire_run. destruct acc as [q|]; simpl; [|apply msettle_free, Hf].
  apply macq_free; [congruence|apply Hf].
Qed.

Lemma hold_ok acc m : mach_ok m -> mach_ok (hold acc m).
Proof. destruct acc; simpl; auto with kdb. Qed.

Lemma hold_free acc p m : all_free m -> acc <> Some p -> lk_free (hold acc m) (LK_proc p).
Proof.
  intros Hf Hne. destruct acc as [q|]; simpl; [|apply msettle_free, Hf].
  apply macq_free; [congruence|apply Hf].
Qed.

Lemma release_p acc p e m d :
  mach_ok m -> all_free m -> acc <> Some p ->
  release (LK_proc p) e (mkK (macq (LK_proc p) (hold acc m)) d) = Ret tt e (mkK (hold acc m) d).
Proof.
  intros Hm Hf Hne. rewrite release_macq; [|by apply hold_ok|by apply hold_free].
  destruct acc as [q|]; simpl; [by rewrite msettle_macq|by rewrite msettle_idem].
Qed.

Lemma release_q q p e m d :
  mach_ok m -> all_free m -> q <> p ->
  release (LK_proc q) e (mkK (macq (LK_proc p) (macq (LK_proc q) m)) d)
  = Ret tt e (mkK (macq (LK_proc p) m) d).
Proof.
  intros Hm Hf Hne. rewrite release_run.
  - rewrite mrel_macq_outer; [done|done|apply Hf|congruence].
  - destruct (macq_held (LK_proc q) m) as [H1 H2]. unfold lk_held.
    rewrite macq_other by congruence. done.
  - apply macq_sie.
  - rewrite !macq_noff. destruct Hm. lia.
Qed.

Lemma scan_step_run b acc p e m d :
  mach_ok m -> all_free m -> acc <> Some p ->
  scan_step b acc p e (mkK (macq (LK_proc p) (hold acc m)) d) =
  (let r := match acc with Some _ => if b then Some p else acc | None => Some p end in
   Ret r e (mkK (hold r m) d)).
Proof.
  intros Hm Hf Hne. destruct acc as [q|]; simpl.
  - destruct b; simpl.
    + erewrite bind_Ret; [|apply release_q; [done|done|congruence]]. done.
    + erewrite bind_Ret; [|by apply (release_p (Some q) p)]. done.
  - unfold ret. by rewrite macq_msettle.
Qed.

(** A scan body that acquires, compares with [scan_step] and otherwise releases. *)
Definition scans (better : kdata -> nat -> nat -> bool) (body : option nat -> nat -> M (option nat)) : Prop :=
  forall acc p e m d, mach_ok m -> all_free m -> acc <> Some p ->
    body acc p e (mkK (hold acc m) d) = Ret (pick (better d) d acc p) e (mkK (hold (pick (better d) d acc p) m) d).

Lemma fcfs_scans : scans (fun d p q => p_readyTime (procs d p) <? p_readyTime (procs d q)) fcfs_scan.
Proof.
  intros acc p e m d Hm Hf Hne. unfold fcfs_scan, pick.
  mcall (acquire_hold acc p e m d Hf Hne). mrun.
  destruct (bool_decide (p_state _ = _)).
  - destruct acc as [q|]; mrun.
    + exact (scan_step_run (p_readyTime (procs d p) <? p_readyTime (procs d q)) (Some q) p e m d Hm Hf Hne).
    + exact (scan_step_run true None p e m d Hm Hf Hne).
  - erewrite bind_Ret; [|by apply release_p]. done.
Qed.

Lemma srt_scans : scans (fun d p q => p_average_bursttime (procs d p) <? p_average_bursttime (procs d q)) srt_scan.
Proof.
  intros acc p e m d Hm Hf Hne. unfold srt_scan, pick.
  mcall (acquire_hold acc p e m d Hf Hne). mrun.
  destruct (bool_decide (p_state _ = _)).
  - destruct acc as [q|]; mrun.
    + exact (scan_step_run (p_average_bursttime (procs d p) <? p_average_bursttime (procs d q)) (Some q) p e m d Hm Hf Hne).
    + exact (scan_step_run true None p e m d Hm Hf Hne).
  - erewrite bind_Ret; [|by apply release_p]. done.
Qed.

(** The cached products of CFSD are those of the current choice. *)
Definition cfsd_cache (d : kdata) (acc : option nat) : option (nat * Z * Z) :=
  (fun q => (q, rtt_up (procs d q), rtt_down (procs d q))) <$> acc.

Definition cfsd_better (d : kdata) (p q : nat) : bool :=
  i32 (rtt_up (procs d p) * rtt_down (procs d q)) <? i32 (rtt_up (procs d q) * rtt_down (procs d p)).

Lemma cfsd_scan_run acc p e m d :
  mach_ok m -> all_free m -> acc <> Some p ->
  let r := pick (cfsd_better d) d acc p in
  cfsd_scan (cfsd_cache d acc) p e (mkK (hold acc m) d) = Ret (cfsd_cache d r) e (mkK (hold r m) d).
Proof.
  intros Hm Hf Hne. unfold cfsd_scan, pick.
  mcall (acquire_hold acc p e m d Hf Hne). mrun.
  destruct (bool_decide (p_state _ = _)); mrun.
  - destruct acc as [q|]; simpl.
    + unfold cfsd_better. destruct (_ <? _); simpl.
      * erewrite bind_Ret; [|apply release_q; [done|done|congruence]]. done.
      * erewrite bind_Ret; [|by apply (release_p (Some q) p)]. done.
    + unfold ret. by rewrite macq_msettle.
  - erewrite bind_Ret; [|by apply release_p]. done.
Qed.

(** The first acquire of a scan settles the machine. *)
Lemma acquire_settle {A} lk (k : unit -> M A) e m d :
  lk_free m lk -> bind (acquire lk) k e (mkK m d) = bind (acquire lk) k e (mkK (msettle m) d).
Proof.
  intros Hf. mcall (acquire_run lk e m d Hf).
  mcall (acquire_run lk e (msettle m) d (msettle_free _ _ Hf)). by rewrite macq_msettle.
Qed.

Lemma foldM_settle {A} l (body : A -> nat -> M A) acc e m d :
  l <> [] -> (forall p, body acc p e (mkK m d) = body acc p e (mkK (msettle m) d)) ->
  foldM l body acc e (mkK m d) = foldM l body acc e (mkK (msettle m) d).
Proof. intros Hl Hb. destruct l as [|p l]; [done|]. cbn [foldM]. unfold bind. by rewrite Hb. Qed.

Lemma pick_or better d acc p : pick better d acc p = acc \/ pick better d acc p = Some p.
Proof. unfold pick. repeat case_match; auto. Qed.

Lemma fold_pick_lt better d n q : fold_left (pick better d) (seq 0 n) None = Some q -> (q < n)%nat.
Proof.
  revert q. induction n as [|n IH]; intros q; [done|]. rewrite seq_S, fold_left_app. simpl.
  destruct (pick_or better d (fold_left (pick better d) (seq 0 n) None) n) as [E|E]; rewrite E.
  - intros H. specialize (IH q H). lia.
  - intros [= <-]. lia.
Qed.

Lemma scan_all {A} (inj : option nat -> A) better (body : A -> nat -> M A) d :
  (forall acc p e m, mach_ok m -> all_free m -> acc <> Some p ->
     body (inj acc) p e (mkK (hold acc m) d)
     = Ret (inj (pick better d acc p)) e (mkK (hold (pick better d acc p) m) d)) ->
  forall l acc e m, mach_ok m -> all_free m -> NoDup l -> (forall q, acc = Some q -> q ∉ l) ->
  let r := fold_left (pick better d) l acc in
  foldM l body (inj acc) e (mkK (hold acc m) d) = Ret (inj r) e (mkK (hold r m) d).
Proof.
  intros Hb l. induction l as [|p l IH]; intros acc e m Hm Hf Hd Hacc; [done|].
  apply NoDup_cons in Hd as [Hp Hd]. cbn [foldM fold_left].
  assert (acc <> Some p) as Hne. { intros ->. by apply (Hacc p); [|constructor]. }
  mcall (Hb acc p e m Hm Hf Hne). apply IH; try done. intros q Hq.
  destruct (pick_or better d acc p) as [E|E]; rewrite E in Hq.
  - specialize (Hacc q Hq). set_solver.
  - by simplify_eq.
Qed.

(** The process chosen among all RUNNABLE ones. *)
Definition choose (better : nat -> nat -> bool) (d : kdata) : option nat :=
  fold_left (pick better d) all_procs None.

Definition fcfs_choice (d : kdata) : option nat :=
  choose (fun p q => p_readyTime (procs d p) <? p_readyTime (procs d q)) d.
Definition srt_choice (d : kdata) : option nat :=
  choose (fun p q => p_average_bursttime (procs d p) <? p_average_bursttime (procs d q)) d.
Definition cfsd_choice (d : kdata) : option nat := choose (cfsd_better d) d.

Lemma fcfs_scan_all e m d :
  mach_ok m -> all_free m ->
  foldM all_procs fcfs_scan None e (mkK m d) = Ret (fcfs_choice d) e (mkK (hold (fcfs_choice d) m) d).
Proof.
  intros Hm Hf. rewrite foldM_settle.
  - apply (scan_all (fun a => a)); [intros; by apply fcfs_scans|done|done|auto with kdb|done].
  - apply all_procs_ne.
  - intros p. unfold fcfs_scan. apply acquire_settle, Hf.
Qed.

Lemma srt_scan_all e m d :
  mach_ok m -> all_free m ->
  foldM all_procs srt_scan None e (mkK m d) = Ret (srt_choice d) e (mkK (hold (srt_choice d) m) d).
Proof.
  intros Hm Hf. rewrite foldM_settle.
  - apply (scan_all (fun a => a)); [intros; by apply srt_scans|done|done|auto with kdb|done].
  - apply all_procs_ne.
  - intros p. unfold srt_scan. apply acquire_settle, Hf.
Qed.

Lemma cfsd_scan_all e m d :
  mach_ok m -> all_free m ->
  foldM all_procs cfsd_scan None e (mkK m d)
  = Ret (cfsd_cache d (cfsd_choice d)) e (mkK (hold (cfsd_choice d) m) d).
Proof.
  intros Hm Hf. rewrite foldM_settle.
  - apply (scan_all (cfsd_cache d) (cfsd_better d) cfsd_scan d) with (acc := None); [intros; by apply cfsd_scan_run|done|done|auto with kdb|done].
  - apply all_procs_ne.
  - intros p. unfold cfsd_scan. apply acquire_settle, Hf.
Qed.

(** *** Optimality of a choice *)

Section choice.
Context (better : nat -> nat -> bool) (d : kdata).
Let run (p : nat) : Prop := p_state (procs d p) = RUNNABLE.
Context (better_asym : forall p q, run p -> run q -> better p q = true -> better q p = false).
Context (better_trans : forall p q r, run p -> run q -> run r ->
           better q p = false -> better r q = false -> better r p = false).

(** [q] is best among the RUNNABLE entries of [l], and the first of the equally good. *)
Definition is_best (l : list nat) (acc : option nat) : Prop :=
  match acc with
  | None => forall p, p ∈ l -> ~ run p
  | Some q => q ∈ l /\ run q /\
      forall p, p ∈ l -> run p -> better p q = false /\ ((p < q)%nat -> better q p = true)
  end.

Lemma is_best_snoc l acc x :
  (forall p, p ∈ l -> (p < x)%nat) -> is_best l acc -> is_best (l ++ [x]) (pick better d acc x).
Proof.
  intros Hlt H. unfold pick. case_bool_decide as Hx.
  - assert (better x x = false) as Hxx.
    { destruct (better x x) eqn:E; [|done]. by rewrite <- (better_asym x x Hx Hx E). }
    destruct acc as [q|].
    + destruct H as (Hq & Hr & Hb). destruct (better x q) eqn:E.
      * split_and!; [set_solver|done|]. intros p [Hp|Hp%list_elem_of_singleton]%elem_of_app Hrp.
        -- destruct (Hb p Hp Hrp) as [Hpq _].
           pose proof (better_asym x q Hx Hr E) as Hqx. split; [by apply (better_trans x q p)|].
           intros _. destruct (better x p) eqn:Exp; [done|].
           by rewrite (better_trans q p x Hr Hrp Hx Hpq Exp) in E.
        -- subst. split; [done|lia].
      * split_and!; [set_solver|done|]. intros p [Hp|Hp%list_elem_of_singleton]%elem_of_app Hrp.
        -- by apply Hb.
        -- subst. split; [done|]. intros ?. specialize (Hlt q Hq). lia.
    + split_and!; [set_solver|done|]. intros p [Hp|Hp%list_elem_of_singleton]%elem_of_app Hrp.
      * by apply H in Hp.
      * subst. split; [done|lia].
  - destruct acc as [q|].
    + destruct H as (Hq & Hr & Hb). split_and!; [set_solver|done|].
      intros p [Hp|Hp%list_elem_of_singleton]%elem_of_app Hrp; [by apply Hb|by subst].
    + intros p [Hp|Hp%list_elem_of_singleton]%elem_of_app; [by apply H|by subst].
Qed.

Lemma fold_pick_best n : is_best (seq 0 n) (fold_left (pick better d) (seq 0 n) None).
Proof.
  induction n as [|n IH]; [by intros p Hp%elem_of_nil|].
  rewrite seq_S, fold_left_app. simpl. apply is_best_snoc; [|done].
  intros p Hp%elem_of_seq. lia.
Qed.

Lemma choose_best : is_best all_procs (choose better d).
Proof. apply fold_pick_best. Qed.
End choice.

Lemma choose_best_key (key : nat -> Z) d :
  is_best (fun p q => key p <? key q) d all_procs (choose (fun p q => key p <? key q) d).
Proof. apply choose_best; intros; lia. Qed.

#[global] Opaque all_procs.
