(* ===== verification/SchedSpec.v ===== *)
(** * What the schedulers, sleep/wakeup and the tick accounting promise

    The properties of Sched.v: which process each policy picks and in what
    state it is handed to swtch(), what wakeup(), kill(), trace() and
    sleep() do to the process table, and how the per-tick counters and the
    burst estimate evolve. *)

From S2P Require Import Prelude State Spinlock Kalloc Sched.
Open Scope Z_scope.

(** ** The state handed to the chosen process *)

(** The statements of scheduler() that follow swtch(). *)
Definition after_switch (c p : nat) : M unit :=
  setp p (fun q => set_p_average_bursttime (next_burst (p_tickcounter q) (p_average_bursttime q)) q);;
  set_cpu_proc c None;;
  release (LK_proc p).

Definition handed_machine (p : nat) (m : machine) : machine :=
  let m1 := macq (LK_proc p) m in
  set_cpus (cpus m1).[tp m := set_c_proc (Some p) (cpus m1 (tp m))] m1.

Definition handed_data (p : nat) (d : kdata) : kdata :=
  upd_proc p (fun q => set_p_tickcounter 0 (set_p_state RUNNING q)) d.

Lemma run_chosen_run p f e m d :
  (run_chosen (tp m) p;; release (LK_proc p)) (f :: e) (mkK (macq (LK_proc p) m) d)
  = after_switch (tp m) p e (f (mkK (handed_machine p m) (handed_data p d))).
Proof.
  unfold run_chosen, after_switch, handed_machine, handed_data, set_cpu_proc, swtch, others. mrun.
  unfold bind at 1. rewrite upd_proc_upd_proc. cbv beta iota. simpl.
  destruct (f _) as [m' d']. unfold bind, mmodify, setp, modify. done.
Qed.

(** What holds of the handed-over state: [p] is RUNNING with a fresh tick count
    and is this CPU's process, this CPU holds its lock and no other process lock,
    and no other table entry changed. *)
Definition handed_over (p : nat) (m : machine) (d : kdata) (s : kernel) : Prop :=
  p_state (procs (kd s) p) = RUNNING /\ p_tickcounter (procs (kd s) p) = 0 /\
  c_proc (cpus (km s) (tp m)) = Some p /\ lk_held (km s) (LK_proc p) /\
  (forall q, q <> p -> procs (kd s) q = procs d q /\ lk_free (km s) (LK_proc q)).

Lemma handed_over_ok p m d :
  all_free m -> handed_over p m d (mkK (handed_machine p m) (handed_data p d)).
Proof.
  intros Hf. unfold handed_over, handed_machine, handed_data. cbn [km kd].
  rewrite procs_upd_proc_eq. split_and!; try done.
  - simpl. by rewrite fupd_eq.
  - apply macq_held.
  - intros q Hq. rewrite procs_upd_proc_ne by done. split; [done|].
    destruct (Hf q) as [H1 H2]. unfold lk_free. simpl. rewrite fupd_ne by congruence. done.
Qed.

Lemma is_best_elim better d acc :
  is_best better d all_procs acc ->
  match acc with
  | None => forall p, (p < NPROC)%nat -> p_state (procs d p) <> RUNNABLE
  | Some p => (p < NPROC)%nat /\ p_state (procs d p) = RUNNABLE /\
      forall q, (q < NPROC)%nat -> p_state (procs d q) = RUNNABLE ->
        better q p = false /\ ((q < p)%nat -> better p q = true)
  end.
Proof.
  destruct acc as [p|]; simpl.
  - intros (H1%all_procs_elem & H2 & H3). split_and!; try done.
    intros q Hq%all_procs_elem Hr. by apply H3.
  - intros H p Hp%all_procs_elem. by apply H.
Qed.

(** C8: first come first served.  One round of the FCFS scheduler either finds
    no RUNNABLE process and changes nothing, or hands the CPU to the RUNNABLE
    process with the least readyTime (the first in the table among equals), with
    only that process's lock held. *)
Theorem fcfs_round f e m d (Hm : mach_ok m) (Hf : all_free m) :
  match fcfs_choice d with
  | None =>
      (forall p, (p < NPROC)%nat -> p_state (procs d p) <> RUNNABLE) /\
      sched_fcfs (tp m) (f :: e) (mkK m d) = Ret tt (f :: e) (mkK (msettle m) d)
  | Some p =>
      (p < NPROC)%nat /\ p_state (procs d p) = RUNNABLE /\
      (forall q, (q < NPROC)%nat -> p_state (procs d q) = RUNNABLE ->
         p_readyTime (procs d p) <= p_readyTime (procs d q) /\
         ((q < p)%nat -> p_readyTime (procs d p) < p_readyTime (procs d q))) /\
      exists s1, handed_over p m d s1 /\
        sched_fcfs (tp m) (f :: e) (mkK m d) = after_switch (tp m) p e (f s1)
  end.
Proof.
  assert (Hb := is_best_elim _ d (fcfs_choice d) (choose_best_key (fun p => p_readyTime (procs d p)) d)).
  unfold sched_fcfs. mcall (fcfs_scan_all (f :: e) m d Hm Hf).
  destruct (fcfs_choice d) as [p|]; simpl hold.
  - destruct Hb as (H1 & H2 & H3). split_and!; try done.
    + intros q Hq Hr. destruct (H3 q Hq Hr). lia.
    + eexists. split; [by apply handed_over_ok|]. apply run_chosen_run.
  - by split.
Qed.

(** C9: approximate shortest remaining time.  One round of the SRT scheduler
    hands the CPU to the RUNNABLE process with the least average_bursttime (the
    first in the table among equals), or changes nothing when none is RUNNABLE. *)
Theorem srt_round f e m d (Hm : mach_ok m) (Hf : all_free m) :
  match srt_choice d with
  | None =>
      (forall p, (p < NPROC)%nat -> p_state (procs d p) <> RUNNABLE) /\
      sched_srt (tp m) (f :: e) (mkK m d) = Ret tt (f :: e) (mkK (msettle m) d)
  | Some p =>
      (p < NPROC)%nat /\ p_state (procs d p) = RUNNABLE /\
      (forall q, (q < NPROC)%nat -> p_state (procs d q) = RUNNABLE ->
         p_average_bursttime (procs d p) <= p_average_bursttime (procs d q) /\
         ((q < p)%nat -> p_average_bursttime (procs d p) < p_average_bursttime (procs d q))) /\
      exists s1, handed_over p m d s1 /\
        sched_srt (tp m) (f :: e) (mkK m d) = after_switch (tp m) p e (f s1)
  end.
Proof.
  assert (Hb := is_best_elim _ d (srt_choice d) (choose_best_key (fun p => p_average_bursttime (procs d p)) d)).
  unfold sched_srt. mcall (srt_scan_all (f :: e) m d Hm Hf).
  destruct (srt_choice d) as [p|]; simpl hold.
  - destruct Hb as (H1 & H2 & H3). split_and!; try done.
    + intros q Hq Hr. destruct (H3 q Hq Hr). lia.
    + eexists. split; [by apply handed_over_ok|]. apply run_chosen_run.
  - by split.
Qed.

(** ** CFSD *)

(** Counters small enough for the [int] products of the comparison, and a
    process that has run or slept. *)
Definition cfsd_ok (p : proc) : Prop :=
  0 <= p_rutime p /\ 0 <= p_stime p /\ 0 < p_rutime p + p_stime p <= 9000 /\
  0 <= p_priority p <= TEST_LOW_PRIORITY.

Lemma cfsd_ok_products p : cfsd_ok p ->
  rtt_up p = p_rutime p * p_priority p /\ rtt_down p = p_rutime p + p_stime p /\
  0 <= rtt_up p <= 225000 /\ 0 < rtt_down p <= 9000.
Proof.
  unfold cfsd_ok, TEST_LOW_PRIORITY, rtt_up, rtt_down. intros (H1 & H2 & H3 & H4).
  assert (0 <= p_rutime p * p_priority p <= 225000) by nia.
  rewrite !i32_small by (unfold int_range; lia). lia.
Qed.

Lemma cfsd_better_iff d p q : cfsd_ok (procs d p) -> cfsd_ok (procs d q) ->
  cfsd_better d p q = true <->
  p_rutime (procs d p) * p_priority (procs d p) * (p_rutime (procs d q) + p_stime (procs d q))
  < p_rutime (procs d q) * p_priority (procs d q) * (p_rutime (procs d p) + p_stime (procs d p)).
Proof.
  intros Hp%cfsd_ok_products Hq%cfsd_ok_products.
  destruct Hp as (Hp1 & Hp2 & Hp3 & Hp4). destruct Hq as (Hq1 & Hq2 & Hq3 & Hq4).
  unfold cfsd_better. rewrite <- Hp1, <- Hp2, <- Hq1, <- Hq2.
  assert (0 <= rtt_up (procs d p) * rtt_down (procs d q) <= 2025000000) by nia.
  assert (0 <= rtt_up (procs d q) * rtt_down (procs d p) <= 2025000000) by nia.
  rewrite !i32_small by (unfold int_range; lia). apply Z.ltb_lt.
Qed.

(** [a/b <= c/d] and [c/d <= e/f] for positive denominators. *)
Lemma ratio_le_trans a b c d e f :
  0 < b -> 0 < d -> 0 < f -> a * d <= c * b -> c * f <= e * d -> a * f <= e * b.
Proof. intros. nia. Qed.

(** C10: completely fair schedule with priority decay.  As long as every
    RUNNABLE process has run or slept and the products fit an [int], one round
    of the CFSD scheduler hands the CPU to a RUNNABLE process with the least ratio
    rutime*priority / (rutime+stime), compared exactly by cross multiplication. *)
Theorem cfsd_round f e m d (Hm : mach_ok m) (Hf : all_free m)
  (Hok : forall p, p_state (procs d p) = RUNNABLE -> cfsd_ok (procs d p)) :
  match cfsd_choice d with
  | None =>
      (forall p, (p < NPROC)%nat -> p_state (procs d p) <> RUNNABLE) /\
      sched_cfsd (tp m) (f :: e) (mkK m d) = Ret tt (f :: e) (mkK (msettle m) d)
  | Some p =>
      (p < NPROC)%nat /\ p_state (procs d p) = RUNNABLE /\
      (forall q, (q < NPROC)%nat -> p_state (procs d q) = RUNNABLE ->
         p_rutime (procs d p) * p_priority (procs d p) * (p_rutime (procs d q) + p_stime (procs d q))
         <= p_rutime (procs d q) * p_priority (procs d q) * (p_rutime (procs d p) + p_stime (procs d p))) /\
      exists s1, handed_over p m d s1 /\
        sched_cfsd (tp m) (f :: e) (mkK m d) = after_switch (tp m) p e (f s1)
  end.
Proof.
  assert (forall p q, p_state (procs d p) = RUNNABLE -> p_state (procs d q) = RUNNABLE ->
    cfsd_better d q p = false <->
    p_rutime (procs d p) * p_priority (procs d p) * (p_rutime (procs d q) + p_stime (procs d q))
    <= p_rutime (procs d q) * p_priority (procs d q) * (p_rutime (procs d p) + p_stime (procs d p))) as Hle.
  { intros p q Hp Hq. rewrite <- not_true_iff_false, cfsd_better_iff by auto. lia. }
  assert (is_best (cfsd_better d) d all_procs (cfsd_choice d)) as Hb.
  { apply choose_best.
    - intros p q Hp Hq H. apply Hle; [done..|]. apply cfsd_better_iff in H; auto. lia.
    - intros p q r Hp Hq Hr. rewrite !Hle by done.
      destruct (Hok p Hp) as (_ & _ & ? & _), (Hok q Hq) as (_ & _ & ? & _), (Hok r Hr) as (_ & _ & ? & _).
      intros Ha Hb. eapply ratio_le_trans; [..|exact Ha|exact Hb]; lia. }
  apply is_best_elim in Hb. unfold sched_cfsd. mcall (cfsd_scan_all (f :: e) m d Hm Hf).
  destruct (cfsd_choice d) as [p|]; simpl hold.
  - destruct Hb as (H1 & H2 & H3). split_and!; try done.
    + intros q Hq Hr. by apply Hle, H3.
    + eexists. split; [by apply handed_over_ok|]. apply run_chosen_run.
  - by split.
Qed.

(** A defect of the CFSD comparison.  A RUNNABLE process that has neither
    run nor slept (ratio 0/0) is never chosen when a process earlier in the table
    is RUNNABLE, whatever that process's ratio is. *)
Theorem cfsd_fresh_passed_over d p r
  (Hp : p_rutime (procs d p) = 0 /\ p_stime (procs d p) = 0)
  (Hr : (r < p)%nat /\ (p < NPROC)%nat /\ p_state (procs d r) = RUNNABLE) :
  cfsd_choice d <> Some p.
Proof.
  destruct Hp as [Hp1 Hp2], Hr as (Hr1 & Hr2 & Hr3).
  assert (forall q, cfsd_better d p q = false) as Hno.
  { intros q. unfold cfsd_better, rtt_up, rtt_down. rewrite Hp1, Hp2.
    change (i32 (0 * p_priority (procs d p))) with 0. change (i32 (0 + 0)) with 0.
    rewrite Z.mul_0_l, Z.mul_0_r. done. }
  unfold cfsd_choice, choose. rewrite all_procs_seq.
  assert (forall n, (r < n)%nat -> exists q, fold_left (pick (cfsd_better d) d) (seq 0 n) None = Some q /\ q <> p) as H.
  { induction n as [|n IH]; [lia|]. intros Hn. rewrite seq_S, fold_left_app. simpl.
    destruct (decide (r < n)%nat) as [Hlt|Hge].
    - destruct (IH Hlt) as (q & -> & Hq). unfold pick. case_bool_decide; [|by eexists].
      destruct (decide (n = p)) as [->|Hnp]; [rewrite Hno; by eexists|].
      destruct (cfsd_better d n q); by eexists.
    - assert (n = r) as -> by lia. unfold pick. rewrite bool_decide_true by done.
      destruct (fold_left _ _ _) as [q|] eqn:E; [|eexists; split; [done|lia]].
      pose proof (fold_pick_lt _ _ _ _ E).
      destruct (cfsd_better d r q); eexists; split; try done; lia. }
  destruct (H NPROC) as (q & -> & Hq); [lia|]. congruence.
Qed.

(** The burst estimate stays bounded.  While no burst exceeds [q] ticks, an
    estimate in [0, 100*q] (hundredths of a tick) stays there, and it is the
    average of the old estimate and the last burst. *)
Theorem next_burst_bound t a q (Ht : 0 <= t <= q) (Ha : 0 <= a <= 100 * q) (Hq : q <= 100000) :
  next_burst t a = 50 * t + a / 2 /\ 0 <= next_burst t a <= 100 * q.
Proof.
  assert (next_burst t a = 50 * t + a / 2) as E.
  { unfold next_burst, ALPHA.
    rewrite (i32_small (50 * t)), (i32_small ((100 - 50) * a)) by (unfold int_range; lia).
    rewrite Z.quot_div_nonneg by lia.
    replace ((100 - 50) * a) with (a * 50) by lia. change 100 with (2 * 50).
    rewrite Z.div_mul_cancel_r by lia.
    apply i32_small. unfold int_range. Z.to_euclidean_division_equations; lia. }
  split; [done|]. rewrite E. Z.to_euclidean_division_equations; lia.
Qed.

(** ** The default policy *)

(** The loop of the DEFAULT policy from table index [i] on. *)
Definition rr_from (c i : nat) : M unit :=
  forM (seq i (NPROC - i)) (fun p =>
    acquire (LK_proc p);;
    let* st := getp p p_state in
    if bool_decide (st <> RUNNABLE) then release (LK_proc p)
    else run_chosen c p;; release (LK_proc p)).

Lemma rr_from_step c i :
  (i < NPROC)%nat ->
  rr_from c i =
  ((acquire (LK_proc i);;
    let* st := getp i p_state in
    if bool_decide (st <> RUNNABLE) then release (LK_proc i)
    else run_chosen c i;; release (LK_proc i));; rr_from c (S i)).
Proof.
  intros Hi. unfold rr_from. replace (NPROC - i)%nat with (S (NPROC - S i)) by lia. done.
Qed.

Lemma rr_from_end c e s : rr_from c NPROC e s = Ret tt e s.
Proof. unfold rr_from. by rewrite Nat.sub_diag. Qed.

(** No process on this CPU. *)
Definition mnone (m : machine) : machine :=
  set_cpus (cpus m).[tp m := set_c_proc None (cpus m (tp m))] m.

Lemma mnone_macq lk m : mnone (macq lk m) = macq lk (mnone m).
Proof. unfold mnone. mach_unfold. fupd_simpl. done. Qed.

Lemma mnone_ok m : mach_ok m -> mach_ok (mnone m).
Proof. unfold mnone, mach_ok. mach_unfold. fupd_simpl. done. Qed.

Lemma mnone_noff m : noff (mycpu_of (msettle (mnone m))) = noff (mycpu_of m).
Proof. unfold mnone. mach_unfold. fupd_simpl. done. Qed.

Lemma handed_mnone p m : c_proc (mycpu_of m) = Some p -> handed_machine p (mnone m) = macq (LK_proc p) m.
Proof.
  intros H. unfold handed_machine, mnone. mach_unfold. fupd_simpl. simpl. rewrite H. done.
Qed.

Lemma handed_msettle p m : handed_machine p (msettle m) = handed_machine p m.
Proof. unfold handed_machine. by rewrite macq_msettle. Qed.

Lemma after_switch_run p e m d :
  mach_ok m -> lk_free m (LK_proc p) ->
  after_switch (tp m) p e (mkK (macq (LK_proc p) m) d) =
  Ret tt e (mkK (msettle (mnone m))
    (upd_proc p (fun q => set_p_average_bursttime (next_burst (p_tickcounter q) (p_average_bursttime q)) q) d)).
Proof.
  intros Hm Hf. unfold after_switch, set_cpu_proc. mrun.
  change (set_cpus _ (macq (LK_proc p) m)) with (mnone (macq (LK_proc p) m)). rewrite mnone_macq.
  apply release_macq; [by apply mnone_ok|done].
Qed.

Lemma Forall_take_mono {A} (P : A -> Prop) n k l : (n <= k)%nat -> Forall P (take k l) -> Forall P (take n l).
Proof. intros H Hl. rewrite <-(Nat.min_l n k), <-take_take by done. by apply Forall_take. Qed.

(** The next RUNNABLE entry from index [i] on. *)
Definition rr_next (i : nat) (d : kdata) : option nat :=
  find (fun p => bool_decide (p_state (procs d p) = RUNNABLE)) (seq i (NPROC - i)).

Lemma rr_next_step i d :
  (i < NPROC)%nat ->
  rr_next i d = if bool_decide (p_state (procs d i) = RUNNABLE) then Some i else rr_next (S i) d.
Proof. intros Hi. unfold rr_next. replace (NPROC - i)%nat with (S (NPROC - S i)) by lia. done. Qed.

Lemma rr_next_end d : rr_next NPROC d = None.
Proof. unfold rr_next. by rewrite Nat.sub_diag. Qed.

(** A RUNNABLE entry is not overshot. *)
Lemma rr_next_le i p d :
  (i <= p < NPROC)%nat -> p_state (procs d p) = RUNNABLE ->
  exists q, rr_next i d = Some q /\ (i <= q <= p)%nat.
Proof.
  intros [Hi Hp] Hr. remember (p - i)%nat as n eqn:En. revert i Hi En.
  induction n as [|n IH]; intros i Hi En; rewrite rr_next_step by lia.
  - assert (i = p) as -> by lia. rewrite bool_decide_true by done. eexists. split; [done|lia].
  - case_bool_decide; [eexists; split; [done|lia]|].
    destruct (IH (S i)) as (q & Hq & Hl); [lia..|]. exists q. split; [done|lia].
Qed.

(** The pass from index [i], up to the first switch. *)
Lemma rr_from_run i f e m d :
  mach_ok m -> all_free m -> (i <= NPROC)%nat ->
  match rr_next i d with
  | None => exists m', rr_from (tp m) i (f :: e) (mkK m d) = Ret tt (f :: e) (mkK m' d)
  | Some p =>
      rr_from (tp m) i (f :: e) (mkK m d)
      = bind (after_switch (tp m) p) (fun _ => rr_from (tp m) (S p)) e
          (f (mkK (handed_machine p m) (handed_data p d)))
  end.
Proof.
  intros Hm Hf Hi. remember (NPROC - i)%nat as n eqn:En. revert i m Hm Hf Hi En.
  induction n as [|n IH]; intros i m Hm Hf Hi En.
  - assert (i = NPROC) as -> by lia. rewrite rr_next_end. eexists. apply rr_from_end.
  - rewrite rr_next_step, rr_from_step, bind_assoc by lia.
    mcall (acquire_run (LK_proc i) (f :: e) m d (Hf i)). mrun.
    destruct (bool_decide (p_state (procs d i) = RUNNABLE)) eqn:E.
    + apply bool_decide_eq_true in E. rewrite bool_decide_false by (by intros []).
      apply bind_cong, run_chosen_run.
    + apply bool_decide_eq_false in E. rewrite bool_decide_true by done.
      erewrite bind_Ret; [|by apply release_macq].
      specialize (IH (S i) (msettle m) (msettle_ok _ Hm) (all_free_settle _ Hf) ltac:(lia) ltac:(lia)).
      destruct (rr_next (S i) d) as [p|]; [|exact IH]. rewrite handed_msettle in IH. exact IH.
Qed.

(** Round robin.  The DEFAULT scheduler's pass over the table, from index
    [i]: it goes on unchanged to the next RUNNABLE process [p], hands it the CPU,
    and when it comes back continues with index [p+1]; if none is left the pass
    ends with the table unchanged. *)
Theorem default_round i f e m d (Hm : mach_ok m) (Hf : all_free m) (Hi : (i <= NPROC)%nat) :
  sched_default (tp m) = rr_from (tp m) 0 /\
  match find (fun p => bool_decide (p_state (procs d p) = RUNNABLE)) (seq i (NPROC - i)) with
  | None => exists m', rr_from (tp m) i (f :: e) (mkK m d) = Ret tt (f :: e) (mkK m' d)
  | Some p =>
      exists s1, handed_over p m d s1 /\
        rr_from (tp m) i (f :: e) (mkK m d)
        = bind (after_switch (tp m) p) (fun _ => rr_from (tp m) (S p)) e (f s1)
  end.
Proof.
  split; [done|]. assert (H := rr_from_run i f e m d Hm Hf Hi). fold (rr_next i d).
  destruct (rr_next i d) as [p|]; [|done].
  eexists. split; [by apply handed_over_ok|exact H].
Qed.

(** What a process that was given the CPU does until it comes back to the
    scheduler, as process [p] sees it: it comes back with its own lock held and
    no other process lock, as sched() checks, and leaves [p] RUNNABLE. *)
Definition comes_back (p : nat) (f : kernel -> kernel) : Prop :=
  forall q m d, q <> p -> mach_ok m -> all_free m -> noff (mycpu_of m) = 0 -> p_state (procs d p) = RUNNABLE ->
    exists m' d', f (mkK (handed_machine q m) (handed_data q d)) = mkK (macq (LK_proc q) m') d' /\
      tp m' = tp m /\ mach_ok m' /\ all_free m' /\ noff (mycpu_of m') = 0 /\ p_state (procs d' p) = RUNNABLE.

Lemma rr_from_serves p i e m d :
  mach_ok m -> all_free m -> noff (mycpu_of m) = 0 -> (i <= p < NPROC)%nat -> p_state (procs d p) = RUNNABLE ->
  (p - i < length e)%nat -> Forall (comes_back p) (take (p - i) e) ->
  exists k f m1 d1 s1, (k <= p - i)%nat /\ e !! k = Some f /\ tp m1 = tp m /\ handed_over p m1 d1 s1 /\
    rr_from (tp m) i e (mkK m d)
    = bind (after_switch (tp m) p) (fun _ => rr_from (tp m) (S p)) (drop (S k) e) (f s1).
Proof.
  revert i m d. induction e as [|f e IH]; intros i m d Hm Hf Hn Hi Hr Hl Hb; [simpl in Hl; lia|].
  destruct (rr_next_le i p d Hi Hr) as (q & Hq & Hqi).
  assert (H := rr_from_run i f e m d Hm Hf ltac:(lia)). rewrite Hq in H.
  destruct (decide (q = p)) as [->|Hne].
  - exists 0%nat, f, m, d. eexists. split_and!; [lia|done|done|by apply handed_over_ok|exact H].
  - simpl in Hl. replace (p - i)%nat with (S (p - S i)) in Hb by lia. rewrite firstn_cons in Hb.
    apply Forall_cons in Hb as [Hbf Hb].
    destruct (Hbf q m d Hne Hm Hf Hn Hr) as (m' & d' & Ef & Ht & Hm' & Hf' & Hn' & Hr').
    rewrite Ef in H. rewrite <-Ht in H at 2.
    rewrite (bind_Ret _ _ _ _ _ _ _ (after_switch_run q e m' d' Hm' (Hf' q))) in H.
    edestruct (IH (S q) (msettle (mnone m'))) as (k & f1 & m1 & d1 & s1 & Hk & He & Ht1 & Hh & E);
      [by apply msettle_ok, mnone_ok|exact Hf'|by rewrite mnone_noff|lia| | | |].
    4: { exists (S k), f1, m1, d1, s1. split_and!; [lia|done| |done|].
         - rewrite Ht1. exact Ht.
         - rewrite H. change (tp (msettle (mnone m'))) with (tp m') in E. rewrite Ht in E. exact E. }
    + rewrite procs_upd_proc_ne by congruence. exact Hr'.
    + lia.
    + eapply (Forall_take_mono _ (p - S q) (p - S i)); [lia|exact Hb].
Qed.

(** C11: no process starves under the DEFAULT policy.  A process that is
    RUNNABLE when a pass over the table starts, and that the processes served
    before it leave RUNNABLE, is handed the CPU in that same pass, after at most
    as many other processes as precede it in the table. *)
Theorem default_serves p e m d (Hm : mach_ok m) (Hf : all_free m) (Hn : noff (mycpu_of m) = 0) (Hp : (p < NPROC)%nat)
  (Hr : p_state (procs d p) = RUNNABLE) (He : (p < length e)%nat) (Hb : Forall (comes_back p) (take p e)) :
  exists k f m1 d1 s1, (k <= p)%nat /\ e !! k = Some f /\ tp m1 = tp m /\ handed_over p m1 d1 s1 /\
    sched_default (tp m) e (mkK m d)
    = bind (after_switch (tp m) p) (fun _ => rr_from (tp m) (S p)) (drop (S k) e) (f s1).
Proof.
  assert (H := rr_from_serves p 0 e m d Hm Hf Hn ltac:(lia) Hr).
  rewrite Nat.sub_0_r in H. exact (H He Hb).
Qed.

(** ** wakeup, kill, set_priority and the tick accounting *)

(** wakeup(chan) makes RUNNABLE, with readyTime set to the current tick,
    exactly the processes sleeping on [chan] other than the caller; every other
    entry of the table and every lock is left as it was. *)
Theorem wakeup_spec chan e m d (Hm : mach_ok m) (Hf : all_free m) :
  exists d', wakeup chan e (mkK m d) = Ret tt e (mkK (msettle m) d') /\
    forall i, (i < NPROC)%nat ->
      procs d' i =
      if decide (p_state (procs d i) = SLEEPING /\ p_chan (procs d i) = Some chan /\
                 c_proc (mycpu_of m) <> Some i)
      then set_p_readyTime (ticks d) (set_p_state RUNNABLE (procs d i))
      else procs d i.
Proof.
  rewrite wakeup_run by done. eexists. split; [done|]. intros i Hi. unfold wakeup_d, upd_procs. simpl.
  rewrite decide_True by by apply all_procs_elem. unfold wake_proc.
  case_decide as H; repeat case_bool_decide; simpl; first [done | naive_solver].
Qed.

(** kill(pid) acts on the first entry with that pid only: it sets [killed],
    and moves it to RUNNABLE (readyTime = now) if it was SLEEPING, and returns 0;
    with no such entry it returns -1 and changes nothing. *)
Theorem kill_spec pid e m d (Hm : mach_ok m) (Hf : all_free m) :
  (forall i, (i < NPROC)%nat -> p_pid (procs d i) = pid ->
     (forall j, (j < i)%nat -> p_pid (procs d j) <> pid) ->
     exists d', kill pid e (mkK m d) = Ret 0 e (mkK (msettle m) d') /\
       (forall j, j <> i -> procs d' j = procs d j) /\
       p_killed (procs d' i) = 1 /\ p_pid (procs d' i) = pid /\
       p_state (procs d' i) =
         (if decide (p_state (procs d i) = SLEEPING) then RUNNABLE else p_state (procs d i))) /\
  ((forall i, (i < NPROC)%nat -> p_pid (procs d i) <> pid) ->
     kill pid e (mkK m d) = Ret (-1) e (mkK (msettle m) d)).
Proof.
  rewrite kill_run by done. split.
  - intros i Hi Hp Hfirst. assert (find_pid pid d all_procs = Some i) as ->.
    { unfold find_pid. rewrite all_procs_seq. replace NPROC with (i + S (NPROC - S i))%nat by lia.
      rewrite seq_app. simpl. rewrite find_app_or.
      destruct (find _ (seq 0 i)) as [j|] eqn:E.
      - apply find_some in E as [E1%in_seq E2%Z.eqb_eq]. by destruct (Hfirst j); [lia|].
      - simpl. by rewrite Hp, Z.eqb_refl. }
    eexists. split; [done|]. split; [intros j Hj; by apply procs_upd_proc_ne|].
    rewrite procs_upd_proc_eq. unfold kill_proc. case_bool_decide; case_decide; done.
  - intros Hno. assert (find_pid pid d all_procs = None) as ->; [|done].
    unfold find_pid. destruct (find _ _) as [j|] eqn:E; [|done].
    apply find_some in E as [E1 E2%Z.eqb_eq]. apply list_elem_of_In, all_procs_elem in E1.
    by destruct (Hno j E1).
Qed.

(** set_priority() accepts exactly the five defined priorities: for these it
    sets the caller's priority and returns 0; for any other value it returns -1
    and changes nothing. *)
Theorem set_priority_spec prio p e m d
  (Hm : mach_ok m) (Hf : all_free m) (Hp : c_proc (mycpu_of m) = Some p) :
  (prio ∈ [TEST_HIGH_PRIORITY; HIGH_PRIORITY; NORMAL_PRIORITY; LOW_PRIORITY; TEST_LOW_PRIORITY] ->
   set_priority prio e (mkK m d) = Ret 0 e (mkK (msettle m) (upd_proc p (set_p_priority prio) d))) /\
  (prio ∉ [TEST_HIGH_PRIORITY; HIGH_PRIORITY; NORMAL_PRIORITY; LOW_PRIORITY; TEST_LOW_PRIORITY] ->
   set_priority prio e (mkK m d) = Ret (-1) e (mkK m d)).
Proof.
  unfold set_priority, myproc_deref. rewrite !elem_of_cons.
  split; intros H.
  - replace (_ && _) with false.
    2: { symmetry. unfold TEST_HIGH_PRIORITY, HIGH_PRIORITY, NORMAL_PRIORITY, LOW_PRIORITY, TEST_LOW_PRIORITY in *.
         rewrite elem_of_nil in H. lia. }
    rewrite bind_assoc. mcall (myproc_run e m d Hm). rewrite Hp. simpl. mrun.
    mcall (acquire_run (LK_proc p) e (msettle m) d (all_free_settle _ Hf p)). mrun.
    rewrite macq_msettle. erewrite bind_Ret; [|by apply release_macq, Hf]. done.
  - replace (_ && _) with true; [done|]. symmetry.
    unfold TEST_HIGH_PRIORITY, HIGH_PRIORITY, NORMAL_PRIORITY, LOW_PRIORITY, TEST_LOW_PRIORITY in *.
    lia.
Qed.

(** The tick accounting.  One update_clock_ticks() adds one tick to exactly
    one of stime, retime, rutime of every process that is SLEEPING, RUNNABLE or
    RUNNING, and to tickcounter when it is RUNNING; the state, priority and estimate
    of every process, and every other process's counters, stay the same. *)
Theorem update_clock_ticks_spec e m d (Hm : mach_ok m) (Hf : all_free m)
  (Hb : forall i, - 2 ^ 30 <= p_stime (procs d i) < 2 ^ 30 /\ - 2 ^ 30 <= p_retime (procs d i) < 2 ^ 30 /\
          - 2 ^ 30 <= p_rutime (procs d i) < 2 ^ 30 /\ - 2 ^ 30 <= p_tickcounter (procs d i) < 2 ^ 30) :
  exists d', update_clock_ticks e (mkK m d) = Ret tt e (mkK (msettle m) d') /\
    forall i, (i < NPROC)%nat ->
      let p := procs d i in let p' := procs d' i in
      p_state p' = p_state p /\ p_priority p' = p_priority p /\
      p_average_bursttime p' = p_average_bursttime p /\ p_readyTime p' = p_readyTime p /\
      p_stime p' = p_stime p + (if decide (p_state p = SLEEPING) then 1 else 0) /\
      p_retime p' = p_retime p + (if decide (p_state p = RUNNABLE) then 1 else 0) /\
      p_rutime p' = p_rutime p + (if decide (p_state p = RUNNING) then 1 else 0) /\
      p_tickcounter p' = p_tickcounter p + (if decide (p_state p = RUNNING) then 1 else 0).
Proof.
  rewrite update_clock_ticks_run by done. eexists. split; [done|]. intros i Hi p p'.
  assert (Hp' : p' = tick_proc p).
  { unfold p', p, upd_procs. simpl. by rewrite decide_True by by apply all_procs_elem. }
  rewrite Hp'. clear Hp' p'. specialize (Hb i). fold p in Hb. unfold tick_proc.
  destruct (p_state p) eqn:E; simpl; rewrite ?E; repeat case_decide; try done;
    rewrite ?i32_small by (unfold int_range; lia); split_and!; try done; lia.
Qed.

(** With the second definition of update_clock_ticks() no process ever
    reaches its quantum: tickcounter of every process stays what it was. *)
Theorem update_clock_ticks2_no_quantum n e m d (Hm : mach_ok m) (Hf : all_free m) :
  exists s, iterM n update_clock_ticks2 e (mkK m d) = Ret tt e s /\
    forall i, p_tickcounter (procs (kd s) i) = p_tickcounter (procs d i).
Proof.
  revert m d Hm Hf. induction n as [|n IH]; intros m d Hm Hf; [by eexists|]. cbn [iterM].
  mcall (update_clock_ticks2_run e m d Hm Hf).
  destruct (IH (msettle m) (upd_procs all_procs (fun _ => tick_proc2) d)) as (s & H1 & H2);
    auto with kdb. exists s. split; [done|]. intros i. rewrite H2. unfold upd_procs. simpl.
  case_decide; [|done]. unfold tick_proc2. by destruct (p_state _).
Qed.

(** ** sleep *)

(** The table while [p] sleeps on [chan], and the rest of sleep() after sched(). *)
Definition asleep (chan : wchan) (p : nat) (d : kdata) : kdata :=
  upd_proc p (fun q => set_p_state SLEEPING (set_p_sleepTime (ticks d) (set_p_chan (Some chan) q))) d.

Definition after_sleep (ie : bool) (p : nat) (lk : lockid) : M unit :=
  setc (set_intena ie);;
  setp p (set_p_chan None);;
  release (LK_proc p);;
  acquire lk.

Lemma sched_to_switch p e m d :
  mach_ok m -> noff (mycpu_of m) = 0 -> c_proc (mycpu_of m) = Some p ->
  p_state (procs d p) <> RUNNING ->
  sched e (mkK (macq (LK_proc p) m) d)
  = (swtch;; setc (set_intena (sie (mycpu_of m)))) e (mkK (macq (LK_proc p) m) d).
Proof.
  intros Hm Hn Hp Hs. unfold sched, myproc_deref. rewrite bind_assoc.
  mcall (myproc_run e (macq (LK_proc p) m) d (macq_ok _ _ Hm)).
  rewrite macq_c_proc, Hp, msettle_macq by done. simpl deref. mrun.
  mcall (holding_run (LK_proc p) e (macq (LK_proc p) m) d).
  destruct (macq_held (LK_proc p) m) as [H1%Z.eqb_neq H2].
  rewrite H1, H2, bool_decide_true by done. cbn [negb andb]. cbv iota.
  pose proof (macq_noff (LK_proc p) m) as En. pose proof (macq_sie (LK_proc p) m) as Es.
  assert (intena (mycpu_of (macq (LK_proc p) m)) = sie (mycpu_of m)) as Ei.
  { mach_unfold. fupd_simpl. simpl. by rewrite Hn. }
  rewrite Hn in En. unfold mycpu_of in En, Es, Ei at 1. unfold getc, intr_get, getc. mrun.
  rewrite En. cbn. mrun. rewrite (bool_decide_false _ Hs). mrun.
  rewrite Es. mrun. rewrite Ei. done.
Qed.

Lemma sched_run p f e m d :
  mach_ok m -> noff (mycpu_of m) = 0 -> c_proc (mycpu_of m) = Some p ->
  p_state (procs d p) <> RUNNING ->
  sched (f :: e) (mkK (macq (LK_proc p) m) d)
  = setc (set_intena (sie (mycpu_of m))) e (f (mkK (macq (LK_proc p) m) d)).
Proof. intros. by rewrite sched_to_switch. Qed.

(** Restoring [intena] at depth 1, and leaving. *)
Lemma set_intena_macq ie lk m :
  noff (mycpu_of m) = 0 ->
  set_cpus (cpus (macq lk m)).[tp (macq lk m) := set_intena ie (cpus (macq lk m) (tp (macq lk m)))] (macq lk m)
  = macq lk (set_cpus (cpus m).[tp m := set_sie ie (cpus m (tp m))] m).
Proof. intros Hn. mach_unfold. fupd_simpl. simpl. by rewrite Hn. Qed.

(** sleep() up to the switch, and what is left to do after it. *)
Lemma sleep_switch chan lk p f e m d :
  mach_ok m -> noff (mycpu_of m) = 0 -> c_proc (mycpu_of m) = Some p ->
  lk_free m (LK_proc p) -> lk_free m lk -> lk <> LK_proc p ->
  sleep chan lk (f :: e) (mkK (macq lk m) d)
  = after_sleep (sie (mycpu_of m)) p lk e (f (mkK (macq (LK_proc p) m) (asleep chan p d))).
Proof.
  intros Hm Hn Hp Hf Hlk Hne. unfold sleep, myproc_deref. rewrite bind_assoc.
  mcall (myproc_run (f :: e) (macq lk m) d (macq_ok _ _ Hm)).
  rewrite macq_c_proc, Hp, msettle_macq by done. simpl deref. mrun.
  erewrite bind_Ret; [|by apply acquire_run, macq_free].
  erewrite bind_Ret; [|apply release_run].
  - rewrite mrel_macq_outer by auto. mrun. rewrite !upd_proc_upd_proc.
    erewrite bind_cong; [|apply sched_run; try done; by rewrite procs_upd_proc_eq]. done.
  - unfold lk_held. rewrite macq_other by congruence. exact (macq_held lk m).
  - apply macq_sie.
  - rewrite !macq_noff. lia.
Qed.


(** ** Concrete instances *)

(** Hart 0 runs process 1; process 2 is RUNNABLE since tick 3, process 4 since
    tick 2, process 5 sleeps on the tick counter. *)
Definition m1 : machine := set_cpus (fun _ => set_c_proc (Some 1%nat) cpu0) machine0.
Definition d1 : kdata :=
  set_ticks 7 (set_procs (fun i => match i with
    | 1 => set_p_pid 11 (set_p_state RUNNING proc0)
    | 2 => set_p_pid 12 (set_p_priority 5 (set_p_rutime 4 (set_p_readyTime 3 (set_p_state RUNNABLE proc0))))
    | 4 => set_p_pid 14 (set_p_priority 5 (set_p_stime 6 (set_p_rutime 2 (set_p_readyTime 2 (set_p_state RUNNABLE proc0)))))
    | 5 => set_p_pid 15 (set_p_chan (Some CH_ticks) (set_p_state SLEEPING proc0))
    | _ => proc0
    end%nat) kdata0).

Lemma m1_ok : mach_ok m1.
Proof. by split. Qed.
Lemma m1_free : all_free m1.
Proof. by split. Qed.

Lemma fcfs_round_witness : fcfs_choice d1 = Some 4%nat /\ exists s1, handed_over 4 m1 d1 s1 /\
  sched_fcfs 0 [id] (mkK m1 d1) = after_switch 0 4 [] (id s1).
Proof.
  pose proof (fcfs_round id [] m1 d1 m1_ok m1_free) as H.
  assert (fcfs_choice d1 = Some 4%nat) as E by (vm_compute; reflexivity).
  rewrite E in H. split; [exact E|]. apply H.
Defined.

Lemma srt_round_witness : srt_choice d1 = Some 2%nat /\ exists s1, handed_over 2 m1 d1 s1 /\
  sched_srt 0 [id] (mkK m1 d1) = after_switch 0 2 [] (id s1).
Proof.
  pose proof (srt_round id [] m1 d1 m1_ok m1_free) as H.
  assert (srt_choice d1 = Some 2%nat) as E by (vm_compute; reflexivity).
  rewrite E in H. split; [exact E|]. apply H.
Defined.

Lemma cfsd_round_witness : cfsd_choice d1 = Some 4%nat /\ exists s1, handed_over 4 m1 d1 s1 /\
  sched_cfsd 0 [id] (mkK m1 d1) = after_switch 0 4 [] (id s1).
Proof.
  assert (forall p, p_state (procs d1 p) = RUNNABLE -> cfsd_ok (procs d1 p)) as Hok.
  { unfold cfsd_ok, TEST_LOW_PRIORITY. intros p. do 6 (destruct p as [|p]; [simpl; try done; lia|]). done. }
  pose proof (cfsd_round id [] m1 d1 m1_ok m1_free Hok) as H.
  assert (cfsd_choice d1 = Some 4%nat) as E by (vm_compute; reflexivity).
  rewrite E in H. split; [exact E|]. apply H.
Defined.

Lemma cfsd_fresh_passed_over_witness :
  cfsd_choice (upd_proc 6 (set_p_state RUNNABLE) d1) <> Some 6%nat.
Proof. apply (cfsd_fresh_passed_over _ 6 2); [by split|]. split; [lia|]. split; [unfold NPROC; lia|done]. Defined.

Lemma next_burst_bound_witness : next_burst 3 260 = 280 /\ 0 <= next_burst 3 260 <= 100 * 5.
Proof. destruct (next_burst_bound 3 260 5) as [H1 H2]; [lia..|]. split; [exact H1|exact H2]. Defined.

(** The turn of a process whose previous turn ended in yield() and that yields
    again: it leaves the first yield(), and the second runs up to the switch. *)
Definition turn_yield (s : kernel) : kernel :=
  match (let* p := myproc_deref in release (LK_proc p);; yield) [] s with
  | Ret _ _ s' | Stop _ s' => s'
  end.

Lemma handed_machine_macq q m :
  handed_machine q m = macq (LK_proc q) (set_cpus (cpus m).[tp m := set_c_proc (Some q) (mycpu_of m)] m).
Proof. unfold handed_machine. mach_unfold. fupd_simpl. done. Qed.

Lemma turn_yield_run q m d :
  mach_ok m -> lk_free m (LK_proc q) -> noff (mycpu_of m) = 0 -> c_proc (mycpu_of m) = Some q ->
  exists d', turn_yield (mkK (macq (LK_proc q) m) d) = mkK (macq (LK_proc q) m) d' /\
    forall p, p <> q -> procs d' p = procs d p.
Proof.
  intros Hm Hf Hn Hc. unfold turn_yield, yield, myproc_deref. rewrite bind_assoc.
  mcall (myproc_run [] (macq (LK_proc q) m) d (macq_ok _ _ Hm)).
  rewrite macq_c_proc, Hc, msettle_macq by done. simpl deref. mrun.
  erewrite bind_Ret; [|by apply release_macq]. rewrite bind_assoc.
  mcall (myproc_run [] (msettle m) d (msettle_ok _ Hm)). rewrite msettle_c_proc, Hc, msettle_idem. simpl deref. mrun.
  erewrite bind_Ret; [|by apply acquire_run]. rewrite macq_msettle. mrun.
  unfold when. case_bool_decide; mrun; (erewrite bind_cong; [|apply sched_to_switch; try done; by rewrite procs_upd_proc_eq]).
  all: unfold swtch, others, bind; eexists; split; [done|intros p Hp]; by rewrite !procs_upd_proc_ne by congruence.
Qed.

Lemma turn_yield_back p : comes_back p turn_yield.
Proof.
  intros q m d Hne Hm Hf Hn Hr. rewrite handed_machine_macq. set (m' := set_cpus _ m).
  assert (mach_ok m' /\ noff (mycpu_of m') = 0 /\ c_proc (mycpu_of m') = Some q) as (Hm' & Hn' & Hc').
  { revert Hm Hn. unfold mach_ok, m'. mach_unfold. fupd_simpl. done. }
  destruct (turn_yield_run q m' (handed_data q d) Hm' (Hf q) Hn' Hc') as (d' & E & Hd).
  exists m', d'. split_and!; try done. rewrite Hd by congruence.
  unfold handed_data. rewrite procs_upd_proc_ne by congruence. exact Hr.
Qed.

Lemma default_serves_witness :
  exists k f m2 d2 s1, (k <= 4)%nat /\ [turn_yield; turn_yield; turn_yield; turn_yield; id] !! k = Some f /\
    tp m2 = 0%nat /\ handed_over 4 m2 d2 s1 /\
    sched_default 0 [turn_yield; turn_yield; turn_yield; turn_yield; id] (mkK m1 d1)
    = bind (after_switch 0 4) (fun _ => rr_from 0 5) (drop (S k) [turn_yield; turn_yield; turn_yield; turn_yield; id]) (f s1).
Proof.
  apply (default_serves 4 [turn_yield; turn_yield; turn_yield; turn_yield; id] m1 d1 m1_ok m1_free); [done|unfold NPROC; lia|done|simpl; lia|].
  simpl take. repeat (apply Forall_cons; split; [apply turn_yield_back|]). apply Forall_nil, I.
Defined.

Lemma default_round_witness :
  exists s1, handed_over 2 m1 d1 s1 /\
    rr_from 0 0 [id] (mkK m1 d1) = bind (after_switch 0 2) (fun _ => rr_from 0 3) [] (id s1).
Proof.
  destruct (default_round 0 id [] m1 d1 m1_ok m1_free) as [_ H]; [lia|].
  assert (find (fun p => bool_decide (p_state (procs d1 p) = RUNNABLE)) (seq 0 (NPROC - 0)) = Some 2%nat) as E
    by (vm_compute; reflexivity).
  rewrite E in H. exact H.
Defined.

Lemma wakeup_spec_witness :
  exists d', wakeup CH_ticks [] (mkK m1 d1) = Ret tt [] (mkK (msettle m1) d') /\
    p_state (procs d' 5) = RUNNABLE /\ p_readyTime (procs d' 5) = 7 /\ procs d' 2 = procs d1 2.
Proof.
  destruct (wakeup_spec CH_ticks [] m1 d1 m1_ok m1_free) as (d' & H1 & H2).
  exists d'. split; [exact H1|].
  rewrite (H2 5%nat) by (unfold NPROC; lia). rewrite (H2 2%nat) by (unfold NPROC; lia).
  split_and!; vm_compute; reflexivity.
Defined.

Lemma kill_spec_witness :
  (exists d', kill 15 [] (mkK m1 d1) = Ret 0 [] (mkK (msettle m1) d') /\ p_state (procs d' 5) = RUNNABLE) /\
  kill 99 [] (mkK m1 d1) = Ret (-1) [] (mkK (msettle m1) d1).
Proof.
  destruct (kill_spec 15 [] m1 d1 m1_ok m1_free) as [H _].
  destruct (kill_spec 99 [] m1 d1 m1_ok m1_free) as [_ H']. split.
  - destruct (H 5%nat) as (d' & H1 & _ & _ & _ & H2); [unfold NPROC; lia|done| |].
    + intros j Hj. do 5 (destruct j as [|j]; [done|]). lia.
    + exists d'. split; [exact H1|exact H2].
  - apply H'. intros i _. do 6 (destruct i as [|i]; [done|]). done.
Defined.

Lemma set_priority_spec_witness :
  set_priority 7 [] (mkK m1 d1) = Ret 0 [] (mkK (msettle m1) (upd_proc 1 (set_p_priority 7) d1)) /\
  set_priority 8 [] (mkK m1 d1) = Ret (-1) [] (mkK m1 d1).
Proof.
  split; [apply (set_priority_spec 7 1 [] m1 d1 m1_ok m1_free eq_refl)
         |apply (set_priority_spec 8 1 [] m1 d1 m1_ok m1_free eq_refl)];
    [apply (bool_decide_unpack _); vm_compute; done|].
  apply (bool_decide_unpack _). vm_compute. done.
Defined.

Lemma update_clock_ticks_spec_witness :
  exists d', update_clock_ticks [] (mkK m1 d1) = Ret tt [] (mkK (msettle m1) d') /\
    p_rutime (procs d' 1) = 1 /\ p_retime (procs d' 2) = 1 /\ p_stime (procs d' 5) = 1.
Proof.
  destruct (update_clock_ticks_spec [] m1 d1 m1_ok m1_free) as (d' & H1 & H2).
  - intros i. do 6 (destruct i as [|i]; [simpl; lia|]). simpl. lia.
  - exists d'. split; [exact H1|].
    assert (forall k, (k < 64)%nat -> (k < NPROC)%nat) as Hk by (intros k; unfold NPROC; lia).
    destruct (H2 1%nat (Hk 1%nat ltac:(lia))) as (_ & _ & _ & _ & _ & _ & E1 & _).
    destruct (H2 2%nat (Hk 2%nat ltac:(lia))) as (_ & _ & _ & _ & _ & E2 & _ & _).
    destruct (H2 5%nat (Hk 5%nat ltac:(lia))) as (_ & _ & _ & _ & E3 & _ & _ & _).
    rewrite E1, E2, E3. split_and!; vm_compute; reflexivity.
Defined.

Lemma update_clock_ticks2_no_quantum_witness :
  exists s, iterM 9 update_clock_ticks2 [] (mkK m1 d1) = Ret tt [] s /\ p_tickcounter (procs (kd s) 1) = 0.
Proof.
  destruct (update_clock_ticks2_no_quantum 9 [] m1 d1 m1_ok m1_free) as (s & H1 & H2).
  exists s. split; [exact H1|]. rewrite H2. done.
Defined.

