(* ===== verification/Vm.v ===== *)
(** * Sv39 page tables and user memory (kernel/vm.c)

    Page tables are 512-entry tables in physical memory, read and written with
    64-bit loads and stores, as in the C code.  A kernel buffer that copyout()
    reads from is the list of its bytes; copyin() and copyinstr() return the
    bytes they have stored to the kernel buffer besides their result. *)

From S2P Require Import Prelude State Spinlock CString Kalloc.
Open Scope Z_scope.

(** ** Page-table entries (riscv.h) *)

Definition PTE_V : Z := 1.
Definition PTE_R : Z := 2.
Definition PTE_W : Z := 4.
Definition PTE_X : Z := 8.
Definition PTE_U : Z := 16.

Definition PA2PTE (pa : Z) : Z := Z.shiftl (Z.shiftr pa 12) 10.
Definition PTE2PA (pte : Z) : Z := u64 (Z.shiftl (Z.shiftr pte 10) 12).
Definition PTE_FLAGS (pte : Z) : Z := Z.land pte 0x3FF.

Definition PXMASK : Z := 0x1FF.
Definition PXSHIFT (level : Z) : Z := PGSHIFT + 9 * level.
Definition PX (level va : Z) : Z := Z.land (Z.shiftr va (PXSHIFT level)) PXMASK.

(** [pte & f] as a condition. *)
Definition has (pte f : Z) : bool := negb (Z.land pte f =? 0).

(** memlayout.h *)
Definition UART0 : Z := 0x10000000.
Definition VIRTIO0 : Z := 0x10001000.
Definition PLIC : Z := 0x0c000000.

(** A store or load through address 0 faults in the kernel. *)
Definition nonnull (p : Z) : M unit := if p =? 0 then panic "kerneltrap" else ret tt.

(** ** walk *)

(** The loop of walk() from [level] down; the result is the address of the
    level-0 entry, or 0. *)
Fixpoint walk_loop (level : nat) (pagetable va : Z) (alloc : bool) : M Z :=
  match level with
  | O => ret (pagetable + 8 * PX 0 va)
  | S l =>
      let pte := pagetable + 8 * PX (Z.of_nat level) va in
      let* v := getmem (fun m => ld64 m pte) in
      if has v PTE_V then walk_loop l (PTE2PA v) va alloc
      else if negb alloc then ret 0 else
        let* pagetable' := kalloc in
        if pagetable' =? 0 then ret 0 else
        setmem (fun m => memset m pagetable' 0 PGSIZE);;
        setmem (fun m => st64 m pte (Z.lor (PA2PTE pagetable') PTE_V));;
        walk_loop l pagetable' va alloc
  end.

Definition walk (pagetable va : Z) (alloc : bool) : M Z :=
  if va >=? MAXVA then panic "walk" else walk_loop 2 pagetable va alloc.

Definition walkaddr (pagetable va : Z) : M Z :=
  if va >=? MAXVA then ret 0 else
  let* pte := walk pagetable va false in
  if pte =? 0 then ret 0 else
  let* v := getmem (fun m => ld64 m pte) in
  if negb (has v PTE_V) then ret 0 else
  if negb (has v PTE_U) then ret 0 else
  ret (PTE2PA v).

(** ** Mapping and unmapping *)

(** How often the loop of mappages() can go round: up to [last], or, if that is
    never met, up to MAXVA, where walk() panics. *)
Definition mappages_fuel (a last : Z) : nat :=
  if a <=? last then S (Z.to_nat ((last - a) / PGSIZE)) else S (Z.to_nat ((MAXVA - a) / PGSIZE)).

Fixpoint mappages_loop (fuel : nat) (pagetable a last pa perm : Z) : M Z :=
  match fuel with
  | O => fun _ s => Stop Waiting s
  | S f =>
      let* pte := walk pagetable a true in
      if pte =? 0 then ret (-1) else
      let* v := getmem (fun m => ld64 m pte) in
      if has v PTE_V then panic "remap" else
      setmem (fun m => st64 m pte (Z.lor (Z.lor (PA2PTE pa) perm) PTE_V));;
      if a =? last then ret 0
      else mappages_loop f pagetable (u64 (a + PGSIZE)) last (u64 (pa + PGSIZE)) perm
  end.

Definition mappages (pagetable va size pa perm : Z) : M Z :=
  let a := PGROUNDDOWN va in
  let last := PGROUNDDOWN (u64 (va + size - 1)) in
  mappages_loop (mappages_fuel a last) pagetable a last pa perm.

Definition kvmmap (kpgtbl va pa sz perm : Z) : M unit :=
  let* r := mappages kpgtbl va sz pa perm in
  if negb (r =? 0) then panic "kvmmap" else ret tt.

(** The values [a], [a + PGSIZE], ... below [e]. *)
Definition pages_below (a e : Z) : list Z :=
  map (fun i => a + Z.of_nat i * PGSIZE) (seq 0 (Z.to_nat ((e - a + PGSIZE - 1) / PGSIZE))).

(** The body of the loop of uvmunmap(). *)
Definition unmap_page (pagetable a : Z) (do_free : bool) : M unit :=
  let* pte := walk pagetable a false in
  if pte =? 0 then panic "uvmunmap: walk" else
  let* v := getmem (fun m => ld64 m pte) in
  if negb (has v PTE_V) then panic "uvmunmap: not mapped" else
  if PTE_FLAGS v =? PTE_V then panic "uvmunmap: not a leaf" else
  when do_free (kfree (PTE2PA v));;
  setmem (fun m => st64 m pte 0).

Definition uvmunmap (pagetable va npages : Z) (do_free : bool) : M unit :=
  if negb (va mod PGSIZE =? 0) then panic "uvmunmap: not aligned" else
  forM (pages_below va (u64 (va + npages * PGSIZE))) (fun a => unmap_page pagetable a do_free).

Definition uvmcreate : M Z :=
  let* pagetable := kalloc in
  if pagetable =? 0 then ret 0 else
  setmem (fun m => memset m pagetable 0 PGSIZE);;
  ret pagetable.

(** The bytes [l] stored at [dst]. *)
Definition memput (m : bytes) (dst : Z) (l : list Z) : bytes :=
  fun a => if in_range dst a (Z.of_nat (length l)) then nth (Z.to_nat (a - dst)) l 0 else m a.

Lemma memput_in m dst l a :
  dst <= a < dst + Z.of_nat (length l) -> memput m dst l a = nth (Z.to_nat (a - dst)) l 0.
Proof. intros. unfold memput. case_range; [done|lia]. Qed.

Lemma memput_out m dst l a : ~ (dst <= a < dst + Z.of_nat (length l)) -> memput m dst l a = m a.
Proof. intros. unfold memput. case_range; [lia|done]. Qed.

Definition uvminit (pagetable : Z) (src : list Z) : M unit :=
  if Z.of_nat (length src) >=? PGSIZE then panic "inituvm: more than a page" else
  let* mem := kalloc in
  nonnull mem;;
  setmem (fun m => memset m mem 0 PGSIZE);;
  let* _ := mappages pagetable 0 PGSIZE mem (Z.lor (Z.lor (Z.lor PTE_W PTE_R) PTE_X) PTE_U) in
  setmem (fun m => memput m mem src).

Definition uvmdealloc (pagetable oldsz newsz : Z) : M Z :=
  if newsz >=? oldsz then ret oldsz else
  when (PGROUNDUP newsz <? PGROUNDUP oldsz)
    (let npages := i32 ((PGROUNDUP oldsz - PGROUNDUP newsz) / PGSIZE) in
     uvmunmap pagetable (PGROUNDUP newsz) (u64 npages) true);;
  ret newsz.

(** One iteration of the loop of uvmalloc(); [Some r] is a return of [r]. *)
Definition alloc_page (pagetable oldsz a : Z) : M (option Z) :=
  let* mem := kalloc in
  if mem =? 0 then uvmdealloc pagetable a oldsz;; ret (Some 0) else
  setmem (fun m => memset m mem 0 PGSIZE);;
  let* r := mappages pagetable a PGSIZE mem (Z.lor (Z.lor (Z.lor PTE_W PTE_X) PTE_R) PTE_U) in
  if negb (r =? 0) then kfree mem;; uvmdealloc pagetable a oldsz;; ret (Some 0)
  else ret None.

Definition uvmalloc (pagetable oldsz newsz : Z) : M Z :=
  if newsz <? oldsz then ret oldsz else
  let oldsz := PGROUNDUP oldsz in
  let* r := forE (pages_below oldsz newsz) (alloc_page pagetable oldsz) in
  match r with Some v => ret v | None => ret newsz end.

(** freewalk() recurses into child tables; [fuel] bounds the depth, and a run
    that would go deeper does not return. *)
Fixpoint freewalk_n (fuel : nat) (pagetable : Z) : M unit :=
  match fuel with
  | O => fun _ s => Stop Waiting s
  | S f =>
      forM (map Z.of_nat (seq 0 512)) (fun i =>
        let* pte := getmem (fun m => ld64 m (pagetable + 8 * i)) in
        if has pte PTE_V && (Z.land pte (Z.lor (Z.lor PTE_R PTE_W) PTE_X) =? 0) then
          freewalk_n f (PTE2PA pte);;
          setmem (fun m => st64 m (pagetable + 8 * i) 0)
        else if has pte PTE_V then panic "freewalk: leaf"
        else ret tt);;
      kfree pagetable
  end.

(** More pages than the machine has. *)
Definition freewalk (pagetable : Z) : M unit := freewalk_n (Z.to_nat 32769) pagetable.

Definition uvmfree (pagetable sz : Z) : M unit :=
  when (0 <? sz) (uvmunmap pagetable 0 (PGROUNDUP sz / PGSIZE) true);;
  freewalk pagetable.

(** One iteration of the loop of uvmcopy(); [Some i] is a jump to [err] at [i]. *)
Definition copy_page (old new i : Z) : M (option Z) :=
  let* pte := walk old i false in
  if pte =? 0 then panic "uvmcopy: pte should exist" else
  let* v := getmem (fun m => ld64 m pte) in
  if negb (has v PTE_V) then panic "uvmcopy: page not present" else
  let pa := PTE2PA v in
  let flags := PTE_FLAGS v in
  let* mem := kalloc in
  if mem =? 0 then ret (Some i) else
  setmem (fun m => memmove m mem pa PGSIZE);;
  let* r := mappages new i PGSIZE mem flags in
  if negb (r =? 0) then kfree mem;; ret (Some i) else ret None.

Definition uvmcopy (old new sz : Z) : M Z :=
  let* r := forE (pages_below 0 sz) (copy_page old new) in
  match r with
  | None => ret 0
  | Some i => uvmunmap new 0 (i / PGSIZE) true;; ret (-1)
  end.

Definition uvmclear (pagetable va : Z) : M unit :=
  let* pte := walk pagetable va false in
  if pte =? 0 then panic "uvmclear" else
  setmem (fun m => st64 m pte (Z.land (ld64 m pte) (u64 (Z.lnot PTE_U)))).

(** ** Copying between kernel and user *)

Fixpoint copyout_loop (fuel : nat) (pagetable dstva : Z) (src : list Z) : M Z :=
  match fuel with
  | O => fun _ s => Stop Waiting s
  | S f =>
      match src with
      | [] => ret 0
      | _ =>
          let va0 := PGROUNDDOWN dstva in
          let* pa0 := walkaddr pagetable va0 in
          if pa0 =? 0 then ret (-1) else
          let n := Z.min (PGSIZE - (dstva - va0)) (Z.of_nat (length src)) in
          setmem (fun m => memput m (pa0 + (dstva - va0)) (take (Z.to_nat n) src));;
          copyout_loop f pagetable (u64 (va0 + PGSIZE)) (drop (Z.to_nat n) src)
      end
  end.

(** Every iteration copies at least one byte. *)
Definition copyout (pagetable dstva : Z) (src : list Z) : M Z :=
  copyout_loop (S (length src)) pagetable dstva src.

Fixpoint copyin_loop (fuel : nat) (pagetable : Z) (dst : list Z) (srcva len : Z) : M (Z * list Z) :=
  match fuel with
  | O => fun _ s => Stop Waiting s
  | S f =>
      if len <=? 0 then ret (0, dst) else
      let va0 := PGROUNDDOWN srcva in
      let* pa0 := walkaddr pagetable va0 in
      if pa0 =? 0 then ret (-1, dst) else
      let n := Z.min (PGSIZE - (srcva - va0)) len in
      let* bs := getmem (fun m => peekn m (pa0 + (srcva - va0)) (Z.to_nat n)) in
      copyin_loop f pagetable (dst ++ bs) (u64 (va0 + PGSIZE)) (len - n)
  end.

(** The result and the bytes stored to the buffer. *)
Definition copyin (pagetable srcva len : Z) : M (Z * list Z) :=
  copyin_loop (S (Z.to_nat len)) pagetable [] srcva len.

(** The inner loop of copyinstr(): at most [n] bytes from [p]; the result says
    whether a NUL was met and what was stored, the NUL included. *)
Fixpoint instr_page (m : bytes) (p : Z) (n : nat) : bool * list Z :=
  match n with
  | O => (false, [])
  | S n' => if m p =? 0 then (true, [0])
            else let '(g, l) := instr_page m (p + 1) n' in (g, m p :: l)
  end.

Fixpoint copyinstr_loop (fuel : nat) (pagetable : Z) (dst : list Z) (srcva max : Z) : M (Z * list Z) :=
  match fuel with
  | O => fun _ s => Stop Waiting s
  | S f =>
      if max <=? 0 then ret (-1, dst) else
      let va0 := PGROUNDDOWN srcva in
      let* pa0 := walkaddr pagetable va0 in
      if pa0 =? 0 then ret (-1, dst) else
      let n := Z.min (PGSIZE - (srcva - va0)) max in
      let* r := getmem (fun m => instr_page m (pa0 + (srcva - va0)) (Z.to_nat n)) in
      if fst r then ret (0, dst ++ snd r)
      else copyinstr_loop f pagetable (dst ++ snd r) (u64 (va0 + PGSIZE)) (max - n)
  end.

Definition copyinstr (pagetable srcva max : Z) : M (Z * list Z) :=
  copyinstr_loop (S (Z.to_nat max)) pagetable [] srcva max.

(** ** The kernel's page table *)

(** proc.c *)
Definition proc_mapstacks (kpgtbl : Z) : M unit :=
  forM all_procs (fun p =>
    let* pa := kalloc in
    if pa =? 0 then panic "kalloc" else
    kvmmap kpgtbl (KSTACK (Z.of_nat p)) pa PGSIZE (Z.lor PTE_R PTE_W)).

Definition kvmmake : M Z :=
  let* kpgtbl := kalloc in
  nonnull kpgtbl;;
  setmem (fun m => memset m kpgtbl 0 PGSIZE);;
  let* etext := gets (fun d => sy_etext (syms d)) in
  let* trampoline := gets (fun d => sy_trampoline (syms d)) in
  kvmmap kpgtbl UART0 UART0 PGSIZE (Z.lor PTE_R PTE_W);;
  kvmmap kpgtbl VIRTIO0 VIRTIO0 PGSIZE (Z.lor PTE_R PTE_W);;
  kvmmap kpgtbl PLIC PLIC 0x400000 (Z.lor PTE_R PTE_W);;
  kvmmap kpgtbl KERNBASE KERNBASE (u64 (etext - KERNBASE)) (Z.lor PTE_R PTE_X);;
  kvmmap kpgtbl etext etext (u64 (PHYSTOP - etext)) (Z.lor PTE_R PTE_W);;
  kvmmap kpgtbl TRAMPOLINE trampoline PGSIZE (Z.lor PTE_R PTE_X);;
  proc_mapstacks kpgtbl;;
  ret kpgtbl.

Definition kvminit : M unit :=
  let* k := kvmmake in
  modify (set_kernel_pagetable k).
