(* ===== verification/VmSpec.v ===== *)
(** * What the page-table code promises

    The page table is described by a ghost map [tab] from index paths to the
    addresses of the table pages: [tab [] ] is the root, [tab [i]] the level-1
    table behind root entry [i], [tab [i; j]] the level-0 table below it.  The
    invariant [pt_ok] ties [tab] to the bytes in memory; the theorems are about
    the executable lookup [pte_of], which follows the entries in memory. *)

From S2P Require Import Prelude State Spinlock CString Kalloc Sched Vm.
Open Scope Z_scope.

(** ** Bits of addresses and entries *)

Lemma land_ones_mod x k : 0 <= k -> Z.land x (2 ^ k - 1) = x mod 2 ^ k.
Proof. intros. rewrite <- Z.land_ones by done. by rewrite Z.ones_equiv, Z.sub_1_r. Qed.

Lemma PX_eq l va : 0 <= l -> PX l va = va / 2 ^ (12 + 9 * l) mod 512.
Proof.
  intros. unfold PX, PXSHIFT, PGSHIFT, PXMASK. rewrite Z.shiftr_div_pow2 by lia.
  apply (land_ones_mod _ 9). lia.
Qed.

Lemma PX_range l va : 0 <= l -> 0 <= PX l va < 512.
Proof. intros. rewrite PX_eq by done. apply Z.mod_pos_bound. lia. Qed.

Lemma PX_low va : 0 <= va < MAXVA -> PX 2 va < 256.
Proof. intros H. rewrite PX_eq by lia. change MAXVA with (2 ^ 38) in H. change (12 + 9 * 2) with 30. Z.to_euclidean_division_equations. lia. Qed.

(** The path of table indices of an address. *)
Definition path (va : Z) : list Z := [PX 2 va; PX 1 va].

Definition samepage (va va' : Z) : Prop := va / PGSIZE = va' / PGSIZE.

#[global] Instance samepage_dec va va' : Decision (samepage va va').
Proof. unfold samepage. apply _. Defined.

Lemma samepage_range a x : a mod PGSIZE = 0 -> samepage a x <-> a <= x < a + PGSIZE.
Proof. unfold samepage, PGSIZE. intros H. split; intros H'; Z.to_euclidean_division_equations; lia. Qed.

Lemma PX_page_iff va va' :
  0 <= va < MAXVA -> 0 <= va' < MAXVA ->
  (path va = path va' /\ PX 0 va = PX 0 va') <-> samepage va va'.
Proof.
  unfold path, samepage. intros H1 H2. change MAXVA with (2 ^ 38) in *. unfold PGSIZE.
  rewrite !PX_eq by lia. simpl Z.pow in *. change (12 + 9 * 0) with 12.
  split.
  - intros [[= Ha Hb] Hc]. simpl Z.pow in *. Z.to_euclidean_division_equations. lia.
  - intros H. simpl Z.pow. split; [f_equal; [|f_equal]|];
      Z.to_euclidean_division_equations; lia.
Qed.

Lemma shiftr_small x k : 0 <= k -> 0 <= x < 2 ^ k -> Z.shiftr x k = 0.
Proof. intros. rewrite Z.shiftr_div_pow2 by done. by apply Z.div_small. Qed.

(** A page-table entry gives back the address stored in it. *)
Lemma PTE2PA_entry pa fl :
  pa mod PGSIZE = 0 -> 0 <= pa < 2 ^ 56 -> 0 <= fl < 1024 -> PTE2PA (Z.lor (PA2PTE pa) fl) = pa.
Proof.
  intros Ha Hp Hf. unfold PTE2PA, PA2PTE.
  rewrite Z.shiftr_lor, (shiftr_small fl), Z.lor_0_r by lia.
  rewrite Z.shiftr_shiftl_l, Z.shiftl_0_r by lia.
  rewrite Z.shiftl_mul_pow2, Z.shiftr_div_pow2 by lia. unfold PGSIZE in Ha. change (2 ^ 12) with 4096.
  rewrite u64_small by (Z.to_euclidean_division_equations; lia).
  Z.to_euclidean_division_equations; lia.
Qed.

Lemma PTE_FLAGS_entry pa fl : 0 <= pa -> 0 <= fl < 1024 -> PTE_FLAGS (Z.lor (PA2PTE pa) fl) = fl.
Proof.
  intros Hp Hf. unfold PTE_FLAGS, PA2PTE. rewrite Z.land_lor_distr_l.
  change 0x3FF with (2 ^ 10 - 1). rewrite !land_ones_mod by lia.
  rewrite (Z.mod_small fl) by lia. rewrite Z.shiftl_mul_pow2, Z.mod_mul by lia. done.
Qed.

Lemma has_testbit x k : 0 <= k -> has x (2 ^ k) = Z.testbit x k.
Proof.
  intros Hk. unfold has. destruct (Z.testbit x k) eqn:E.
  - apply negb_true_iff, Z.eqb_neq. intros H.
    assert (Z.testbit (Z.land x (2 ^ k)) k = false) as H' by by rewrite H, Z.bits_0.
    by rewrite Z.land_spec, E, Z.pow2_bits_true in H'.
  - apply negb_false_iff, Z.eqb_eq, Z.bits_inj'. intros n Hn.
    rewrite Z.land_spec, Z.bits_0, Z.pow2_bits_eqb by done.
    destruct (Z.eqb_spec k n) as [<-|]; [by rewrite E|by rewrite andb_false_r].
Qed.

Lemma has_PTE_V x : has x PTE_V = Z.testbit x 0.
Proof. apply (has_testbit x 0). done. Qed.

Lemma has_V_lor x : has (Z.lor x PTE_V) PTE_V = true.
Proof. rewrite has_PTE_V, Z.lor_spec. by rewrite orb_true_r. Qed.

Lemma has_V_0 : has 0 PTE_V = false.
Proof. done. Qed.

Lemma lor_range a b k : 0 <= k -> 0 <= a < 2 ^ k -> 0 <= b < 2 ^ k -> 0 <= Z.lor a b < 2 ^ k.
Proof.
  intros Hk Ha Hb. assert (Z.lor a b = Z.lor a b mod 2 ^ k) as ->.
  { rewrite <- Z.land_ones, Z.land_lor_distr_l, !Z.land_ones by done. by rewrite !Z.mod_small. }
  apply Z.mod_pos_bound. lia.
Qed.

Lemma entry_range pa fl : 0 <= pa < 2 ^ 56 -> 0 <= fl < 1024 -> 0 <= Z.lor (PA2PTE pa) fl < 2 ^ 64.
Proof.
  intros Hp Hf. apply lor_range; [lia| |lia]. unfold PA2PTE.
  rewrite Z.shiftl_mul_pow2, Z.shiftr_div_pow2 by lia. Z.to_euclidean_division_equations; lia.
Qed.

(** ** The entry of an address, read from memory *)

Definition pte_of (m : bytes) (root va : Z) : Z :=
  let e2 := ld64 m (root + 8 * PX 2 va) in
  if has e2 PTE_V then
    let e1 := ld64 m (PTE2PA e2 + 8 * PX 1 va) in
    if has e1 PTE_V then ld64 m (PTE2PA e1 + 8 * PX 0 va) else 0
  else 0.

(** ** Well-formed page tables *)

Definition tables := list Z -> option Z.

Definition owned (tab : tables) (q : Z) : Prop := exists p, tab p = Some q.

(** An entry that points to a table has no permission bits. *)
Definition interior (pte : Z) : Prop := Z.land pte (Z.lor (Z.lor PTE_R PTE_W) PTE_X) = 0.

Lemma interior_entry pa : interior (Z.lor (PA2PTE pa) PTE_V).
Proof.
  unfold interior, PA2PTE. rewrite Z.land_lor_distr_l. change (Z.land PTE_V _) with 0. rewrite Z.lor_0_r. apply Z.bits_inj'. intros n Hn. rewrite Z.bits_0, Z.land_spec.
  destruct (Z.lt_ge_cases n 10) as [H|H]; [by rewrite Z.shiftl_spec_low|]. rewrite (Z.bits_above_log2 (Z.lor _ _)); [by rewrite andb_false_r|done|simpl; lia].
Qed.

Record pt_ok (d : kdata) (root : Z) (tab : tables) : Prop := {
  pt_root : tab [] = Some root;
  pt_inj : forall p p' q, tab p = Some q -> tab p' = Some q -> p = p';
  pt_page : forall p q, tab p = Some q -> page_ok d q;
  pt_dom : forall p q, tab p = Some q -> (length p <= 2)%nat;
  pt_prefix : forall p i c, tab (p ++ [i]) = Some c -> 0 <= i < 512 /\ exists q, tab p = Some q;
  pt_low : forall i p q, tab (i :: p) = Some q -> i < 256;
  pt_child : forall p q i, tab p = Some q -> (length p < 2)%nat -> 0 <= i < 512 ->
    match tab (p ++ [i]) with
    | Some c => has (ld64 (mem d) (q + 8 * i)) PTE_V = true /\ PTE2PA (ld64 (mem d) (q + 8 * i)) = c /\ interior (ld64 (mem d) (q + 8 * i))
    | None => has (ld64 (mem d) (q + 8 * i)) PTE_V = false
    end;
}.

(** The address of the level-0 entry of [va] (0 if its table does not exist), and its value. *)
Definition slot (tab : tables) (va : Z) : Z :=
  match tab (path va) with Some q => q + 8 * PX 0 va | None => 0 end.

Definition pte_at (m : bytes) (tab : tables) (va : Z) : Z :=
  match tab (path va) with Some q => ld64 m (q + 8 * PX 0 va) | None => 0 end.

Lemma page_ok_bounds d q : 0 < sy_end (syms d) -> page_ok d q -> 0 < q < 2 ^ 56 /\ q mod PGSIZE = 0.
Proof. unfold page_ok, PHYSTOP, KERNBASE. lia. Qed.

Section PageTable.
Context (d : kdata) (root : Z) (tab : tables) (Hpt : pt_ok d root tab).

Lemma pt_step p q i :
    tab p = Some q -> (length p < 2)%nat -> 0 <= i < 512 ->
    match tab (p ++ [i]) with
    | Some c => has (ld64 (mem d) (q + 8 * i)) PTE_V = true /\ PTE2PA (ld64 (mem d) (q + 8 * i)) = c
    | None => has (ld64 (mem d) (q + 8 * i)) PTE_V = false
    end.
Proof. intros Hp Hl Hi. pose proof (pt_child _ _ _ Hpt p q i Hp Hl Hi) as H. destruct (tab (p ++ [i])); tauto. Qed.

Lemma tab_none_below p i : tab p = None -> tab (p ++ [i]) = None.
Proof.
  intros H. destruct (tab (p ++ [i])) as [c|] eqn:E; [|done].
  apply (pt_prefix _ _ _ Hpt) in E as (_ & q & Hq). congruence.
Qed.

Lemma pte_of_at va : pte_of (mem d) root va = pte_at (mem d) tab va.
Proof.
  unfold pte_of, pte_at, path.
  pose proof (pt_step [] root (PX 2 va) (pt_root _ _ _ Hpt) ltac:(simpl; lia) (PX_range 2 va ltac:(lia))) as H2.
  simpl app in H2. destruct (tab [PX 2 va]) as [q1|] eqn:E1.
  - destruct H2 as [-> ->].
    pose proof (pt_step [PX 2 va] q1 (PX 1 va) E1 ltac:(simpl; lia) (PX_range 1 va ltac:(lia))) as H1.
    simpl app in H1. destruct (tab [PX 2 va; PX 1 va]) as [q0|]; [by destruct H1 as [-> ->]|by rewrite H1].
  - rewrite H2. by rewrite (tab_none_below [PX 2 va] (PX 1 va) E1 : tab [PX 2 va; PX 1 va] = None).
Qed.

(** Every entry address lies inside its table's page. *)
Lemma slot_in_page va q : tab (path va) = Some q -> q <= slot tab va /\ slot tab va + 8 <= q + PGSIZE.
Proof.
  intros H. unfold slot. rewrite H. pose proof (PX_range 0 va ltac:(lia)). unfold PGSIZE. lia.
Qed.

Lemma slot_inj va va' :
    0 <= va < MAXVA -> 0 <= va' < MAXVA -> tab (path va) <> None ->
    slot tab va = slot tab va' -> 0 < sy_end (syms d) -> samepage va va'.
Proof.
  intros Hv Hv' Hn Hs Hend. apply PX_page_iff; [done..|]. revert Hs. unfold slot.
  destruct (tab (path va)) as [q|] eqn:E; [|done].
  pose proof (PX_range 0 va ltac:(lia)) as R. pose proof (PX_range 0 va' ltac:(lia)) as R'.
  destruct (page_ok_bounds d q Hend (pt_page _ _ _ Hpt _ _ E)) as [Hq Hqa].
  destruct (tab (path va')) as [q'|] eqn:E'.
  - destruct (page_ok_bounds d q' Hend (pt_page _ _ _ Hpt _ _ E')) as [Hq' Hqa'].
    intros Hs. assert (q = q') as <-.
    { destruct (Z.eq_dec q q') as [|Hne]; [done|].
      destruct (pages_apart q q' Hqa Hqa' Hne); unfold PGSIZE in *; lia. }
    split; [|lia]. by eapply pt_inj.
  - lia.
Qed.

(** walk() without allocation. *)
Lemma walk_ro va e m :
    0 <= va < MAXVA -> walk root va false e (mkK m d) = Ret (slot tab va) e (mkK m d).
Proof.
  intros Hv. unfold walk. destruct (va >=? MAXVA) eqn:Eva; [lia|].
  unfold slot, path. cbn [walk_loop]. unfold getmem. mrun. change (Z.of_nat 2) with 2. change (Z.of_nat 1) with 1.
  pose proof (pt_step [] root (PX 2 va) (pt_root _ _ _ Hpt) ltac:(simpl; lia) (PX_range 2 va ltac:(lia))) as H2.
  simpl app in H2. destruct (tab [PX 2 va]) as [q1|] eqn:E1.
  - destruct H2 as [-> ->]. mrun.
    pose proof (pt_step [PX 2 va] q1 (PX 1 va) E1 ltac:(simpl; lia) (PX_range 1 va ltac:(lia))) as H1.
    simpl app in H1. destruct (tab [PX 2 va; PX 1 va]) as [q0|]; [by destruct H1 as [-> ->]|by rewrite H1].
  - rewrite H2. by rewrite (tab_none_below [PX 2 va] (PX 1 va) E1 : tab [PX 2 va; PX 1 va] = None).
Qed.
End PageTable.

(** The invariant depends only on the bytes of the tables' pages. *)
Lemma pt_ok_frame d d' root tab :
  pt_ok d root tab -> syms d' = syms d ->
  (forall q a, owned tab q -> q <= a < q + PGSIZE -> mem d' a = mem d a) -> pt_ok d' root tab.
Proof.
  intros [H1 H2 H3 H4 H5 Hlow H6] Hs Hm. split; try done.
  - intros p q Hq. unfold page_ok. rewrite Hs. by apply (H3 p).
  - intros p q i Hp Hl Hi. specialize (H6 p q i Hp Hl Hi).
    rewrite (ld64_ext (mem d') (mem d)); [done|]. intros x Hx. apply (Hm q); [by eexists|].
    unfold PGSIZE. lia.
Qed.

Lemma pte_at_frame m m' tab va :
  (forall q a, owned tab q -> q <= a < q + PGSIZE -> m' a = m a) -> pte_at m' tab va = pte_at m tab va.
Proof.
  intros Hm. unfold pte_at. destruct (tab (path va)) as [q|] eqn:E; [|done].
  apply ld64_ext. intros x Hx. apply (Hm q); [by eexists|].
  pose proof (PX_range 0 va ltac:(lia)). unfold PGSIZE. lia.
Qed.

(** ** Memory changes confined to a set of pages *)

Definition off_pages (P : Z -> Prop) (a : Z) : Prop := forall q, P q -> ~ (q <= a < q + PGSIZE).

(** [d'] is [d] with other bytes in the pages of [P] and another free list. *)
Record only_pages (P : Z -> Prop) (d d' : kdata) : Prop := {
  op_rest : d' = set_mem (mem d') (set_freelist (freelist d') d);
  op_mem : forall a, off_pages P a -> mem d' a = mem d a;
}.

Lemma only_pages_refl P d : only_pages P d d.
Proof. split; [by destruct d|done]. Qed.

Lemma only_pages_trans P Q d1 d2 d3 :
  only_pages P d1 d2 -> only_pages Q d2 d3 -> only_pages (fun q => P q \/ Q q) d1 d3.
Proof.
  intros [H1 H2] [H3 H4]. split.
  - rewrite H3. rewrite H1. by destruct d1.
  - intros a Ha. rewrite H4, H2; [done|..]; intros q Hq; apply Ha; tauto.
Qed.

Lemma only_pages_mono (P Q : Z -> Prop) d d' :
  (forall q, P q -> Q q) -> only_pages P d d' -> only_pages Q d d'.
Proof. intros H [H1 H2]. split; [done|]. intros a Ha. apply H2. intros q Hq. by apply Ha, H. Qed.

Lemma only_pages_syms P d d' : only_pages P d d' -> syms d' = syms d.
Proof. by intros [-> _]. Qed.

Lemma only_pages_set_mem (P : Z -> Prop) d m :
  (forall a, off_pages P a -> m a = mem d a) -> only_pages P d (set_mem m d).
Proof. intros H. split; [by destruct d|done]. Qed.

(** Aligned pages that differ do not meet. *)
Lemma off_pages_apart (P : Z -> Prop) q a :
  q mod PGSIZE = 0 -> q <= a < q + PGSIZE -> (forall q', P q' -> q' mod PGSIZE = 0 /\ q' <> q) ->
  off_pages P a.
Proof.
  intros Hq Ha HP q' Hq' Ha'. destruct (HP q' Hq') as [H1 H2].
  destruct (pages_apart q' q H1 Hq H2); lia.
Qed.

(** Writing a level-0 entry keeps the table well formed and changes that entry only. *)
Lemma leaf_store d root tab va v :
  0 < sy_end (syms d) -> pt_ok d root tab -> 0 <= va < MAXVA -> tab (path va) <> None ->
  let d' := set_mem (st64 (mem d) (slot tab va) v) d in
  pt_ok d' root tab /\
  (forall va', 0 <= va' < MAXVA ->
     pte_at (mem d') tab va' = if decide (samepage va va') then u64 v else pte_at (mem d) tab va') /\
  only_pages (owned tab) d d'.
Proof.
  intros Hend Hpt Hv Hn d'. destruct (tab (path va)) as [q|] eqn:E; [|done].
  destruct (slot_in_page tab va q E) as [Hs1 Hs2].
  destruct (page_ok_bounds d q Hend (pt_page _ _ _ Hpt _ _ E)) as [Hq Hqa].
  assert (forall p q', tab p = Some q' -> p <> path va -> forall x, q' <= x < q' + PGSIZE ->
            st64 (mem d) (slot tab va) v x = mem d x) as Hother.
  { intros p q' Hp Hne x Hx. apply st64_out.
    destruct (page_ok_bounds d q' Hend (pt_page _ _ _ Hpt _ _ Hp)) as [_ Hqa'].
    assert (q' <> q) as Hqq by (intros ->; apply Hne; by eapply pt_inj).
    destruct (pages_apart q' q Hqa' Hqa Hqq); lia. }
  split_and!.
  - destruct Hpt as [H1 H2 H3 H4 H5 Hlow H6]. split; try done. intros p q' i Hp Hl Hi.
    specialize (H6 p q' i Hp Hl Hi). simpl. rewrite (ld64_ext _ (mem d)); [done|]. intros x Hx.
    apply (Hother p q' Hp); [|unfold PGSIZE; lia]. intros ->. simpl in Hl. lia.
  - intros va' Hv'. case_decide as Hsp.
    + apply PX_page_iff in Hsp as [Hp0 Hp1]; [|done..]. unfold pte_at. simpl. rewrite <- Hp0, E.
      unfold slot. rewrite E, <- Hp1. apply ld64_st64_eq.
    + unfold pte_at. simpl. destruct (tab (path va')) as [q'|] eqn:E'; [|done].
      pose proof (PX_range 0 va' ltac:(lia)) as R.
      destruct (decide (path va' = path va)) as [Hpp|Hpp].
      * rewrite Hpp, E in E'. injection E' as <-. apply ld64_st64_ne. unfold slot. rewrite E.
        assert (PX 0 va <> PX 0 va') by (intros ?; apply Hsp, PX_page_iff; done). lia.
      * apply ld64_ext. intros x Hx. apply (Hother (path va') q' E' Hpp). unfold PGSIZE. lia.
  - apply only_pages_set_mem. intros a Ha. apply st64_out. specialize (Ha q ltac:(by eexists)). lia.
Qed.

(** Linking in a fresh zeroed table page below entry [i] of [q = tab p]. *)
Definition link_child (d : kdata) (q i pg : Z) : kdata :=
  set_mem (st64 (memset (mem d) pg 0 PGSIZE) (q + 8 * i) (Z.lor (PA2PTE pg) PTE_V)) d.

Lemma link_child_only d q i pg :
  0 <= i < 512 -> only_pages (fun x => x = q \/ x = pg) d (link_child d q i pg).
Proof.
  intros Hi. apply only_pages_set_mem. intros a Ha. unfold link_child. rewrite st64_out, memset_out; [done|..].
  - apply (Ha pg). by right.
  - specialize (Ha q (or_introl eq_refl)). unfold PGSIZE in *. lia.
Qed.

Lemma ld64_memset0 m pg a : pg <= a -> a + 8 <= pg + PGSIZE -> ld64 (memset m pg 0 PGSIZE) a = 0.
Proof.
  intros H1 H2. rewrite (ld64_ext _ (fun _ => 0)); [done|]. intros x Hx. rewrite memset_in by lia. done.
Qed.

Lemma snoc_inj (p p' : list Z) i i' : p ++ [i] = p' ++ [i'] -> p = p' /\ i = i'.
Proof. apply app_inj_tail. Qed.

Section LinkChild.
Context (d : kdata) (root : Z) (tab : tables) (p : list Z) (q i pg : Z).
Context (Hend : 0 < sy_end (syms d)) (Hpt : pt_ok d root tab).
Context (Hp : tab p = Some q) (Hl : (length p < 2)%nat) (Hi : 0 <= i < 512) (Hlow : p = [] -> i < 256).
Context (Hnone : tab (p ++ [i]) = None) (Hpg : page_ok d pg) (Hfresh : ~ owned tab pg).

Let d' := link_child d q i pg.
Let tab' := tab.[p ++ [i] := Some pg].

Lemma owned_apart q' : owned tab q' -> q' + PGSIZE <= pg \/ pg + PGSIZE <= q'.
Proof.
  intros [p' Hp']. apply pages_apart.
  - apply (pt_page _ _ _ Hpt _ _ Hp').
  - apply Hpg.
  - intros ->. apply Hfresh. by eexists.
Qed.

Lemma link_other q' a : owned tab q' -> q' <= a < q' + PGSIZE -> ~ (q + 8 * i <= a < q + 8 * i + 8) ->
  mem d' a = mem d a.
Proof.
  intros Ho Ha Hn. unfold d', link_child. simpl. rewrite st64_out by done.
  apply memset_out. destruct (owned_apart q' Ho); lia.
Qed.

Lemma link_fresh a : pg <= a < pg + PGSIZE -> mem d' a = 0.
Proof.
  intros Ha. unfold d', link_child. simpl. rewrite st64_out.
  - by rewrite memset_in.
  - destruct (owned_apart q ltac:(by eexists)); unfold PGSIZE in *; lia.
Qed.

Lemma link_entry : ld64 (mem d') (q + 8 * i) = Z.lor (PA2PTE pg) PTE_V.
Proof.
  unfold d', link_child. simpl. rewrite ld64_st64_eq. apply u64_small, entry_range; [|done].
  destruct (page_ok_bounds d pg Hend Hpg). lia.
Qed.

Lemma tab'_inv p' q' : tab' p' = Some q' -> (p' = p ++ [i] /\ q' = pg) \/ (p' <> p ++ [i] /\ tab p' = Some q').
Proof. unfold tab', fupd. case_decide; intros ?; [left|right]; split; congruence. Qed.

Lemma tab'_old p' q' : tab p' = Some q' -> tab' p' = Some q'.
Proof. intros H. unfold tab'. rewrite fupd_ne; [done|]. intros ->. congruence. Qed.

Lemma link_child_ok : pt_ok d' root tab'.
Proof.
  split.
  - apply tab'_old, (pt_root _ _ _ Hpt).
  - intros p1 p2 x [[-> ->]|[Hn1 H1]]%tab'_inv [[-> E]|[Hn2 H2]]%tab'_inv; try done.
    + exfalso. apply Hfresh. by eexists.
    + subst. exfalso. apply Hfresh. by eexists.
    + by eapply pt_inj.
  - intros p' q' [[-> ->]|[Hn Ht]]%tab'_inv; [done|]. by apply (pt_page _ _ _ Hpt p').
  - intros p' q' [[-> ->]|[Hn Ht]]%tab'_inv.
    + rewrite length_app. simpl. lia.
    + by eapply pt_dom.
  - intros p' i' c [[[-> ->]%snoc_inj ->]|[Hn Ht]]%tab'_inv.
    + split; [done|]. exists q. by apply tab'_old.
    + apply (pt_prefix _ _ _ Hpt) in Ht as (? & q' & Hq'). split; [done|]. exists q'. by apply tab'_old.
  - intros j p' q' [[E _]|[Hn Ht]]%tab'_inv; [|by eapply pt_low]. destruct p as [|k p2]; injection E as -> ->; [by apply Hlow|by eapply pt_low].
  - intros p' q' i' [[-> ->]|[Hn Ht]]%tab'_inv Hl' Hi'.
    + (* the fresh table has no valid entry *)
      assert (tab' ((p ++ [i]) ++ [i']) = None) as ->.
      { unfold tab'. rewrite fupd_ne.
        - by apply (tab_none_below d root tab Hpt).
        - intros E. apply (f_equal length) in E. rewrite !length_app in E. simpl in E. lia. }
      rewrite (ld64_ext _ (fun _ => 0)); [done|]. intros x Hx. apply link_fresh. unfold PGSIZE. lia.
    + destruct (decide (p' = p /\ i' = i)) as [[-> ->]|Hne].
      * assert (q' = q) as -> by congruence. unfold tab'. rewrite fupd_eq, link_entry.
        split; [apply has_V_lor|]. split; [|apply interior_entry]. destruct (page_ok_bounds d pg Hend Hpg).
        apply PTE2PA_entry; [done|lia|unfold PTE_V; lia].
      * assert (tab' (p' ++ [i']) = tab (p' ++ [i'])) as ->.
        { unfold tab'. apply fupd_ne. intros [-> ->]%snoc_inj. by apply Hne. }
        pose proof (pt_child _ _ _ Hpt p' q' i' Ht Hl' Hi') as Hc.
        rewrite (ld64_ext (mem d') (mem d)); [done|]. intros x Hx.
        apply (link_other q'); [by eexists|unfold PGSIZE; lia|]. intros Hx'.
        destruct (decide (q' = q)) as [->|Hqq].
        -- assert (p' = p) as -> by by eapply pt_inj. assert (i' <> i) by (intros ->; by apply Hne). lia.
        -- destruct (pages_apart q' q) as [?|?]; unfold PGSIZE in *; try lia; try done.
           ++ apply (pt_page _ _ _ Hpt _ _ Ht).
           ++ apply (pt_page _ _ _ Hpt _ _ Hp).
Qed.

Lemma link_child_pte va : pte_at (mem d') tab' va = pte_at (mem d) tab va.
Proof.
  unfold pte_at. pose proof (PX_range 0 va ltac:(lia)) as R.
  destruct (decide (path va = p ++ [i])) as [E|E].
  - unfold tab'. rewrite E, fupd_eq, Hnone. rewrite (ld64_ext _ (fun _ => 0)); [done|].
    intros x Hx. apply link_fresh. unfold PGSIZE. lia.
  - unfold tab'. rewrite fupd_ne by done. destruct (tab (path va)) as [q'|] eqn:E'; [|done].
    apply ld64_ext. intros x Hx. apply (link_other q'); [by eexists|unfold PGSIZE; lia|].
    intros Hx'. destruct (decide (q' = q)) as [->|Hqq].
    + assert (path va = p) as Hpp by by eapply pt_inj.
      rewrite <- Hpp in Hl. simpl in Hl. lia.
    + destruct (pages_apart q' q) as [?|?]; unfold PGSIZE in *; try lia; try done.
      * apply (pt_page _ _ _ Hpt _ _ E').
      * apply (pt_page _ _ _ Hpt _ _ Hp).
Qed.

End LinkChild.

(** ** walk() with allocation *)

Lemma kmem_ok_frame d d' l :
  kmem_ok d l -> syms d' = syms d -> freelist d' = freelist d ->
  (forall q a, q ∈ l -> q <= a < q + PGSIZE -> mem d' a = mem d a) -> kmem_ok d' l.
Proof.
  intros [H1 H2 H3] Hs Hf Hm. split; [|done|].
  - rewrite Hf. eapply chain_ext; [|exact H1]. intros q x Hq Hx. symmetry. apply (Hm q); [done|].
    unfold PGSIZE. lia.
  - eapply Forall_impl; [exact H3|]. intros q Hq. unfold page_ok. by rewrite Hs.
Qed.

(** No table page is on the free list. *)
Definition tab_free_disj (tab : tables) (l : list Z) : Prop := forall q, owned tab q -> q ∉ l.

(** From [d] with free list [l] and tables [tab], some pages [new] of the free
    list became (empty) tables. *)
Record vm_grow (root : Z) (d : kdata) (l : list Z) (tab : tables) (d' : kdata) (l' : list Z) (tab' : tables) : Prop := {
  vg_kmem : kmem_ok d' l';
  vg_pt : pt_ok d' root tab';
  vg_new : exists new, l = new ++ l' /\ forall q, owned tab' q <-> owned tab q \/ q ∈ new;
  vg_pte : forall va, pte_at (mem d') tab' va = pte_at (mem d) tab va;
  vg_only : only_pages (owned tab') d d';
}.

Lemma vm_grow_refl root d l tab : kmem_ok d l -> pt_ok d root tab -> vm_grow root d l tab d l tab.
Proof.
  intros. split; try done; [|apply only_pages_refl]. exists []. split; [done|]. set_solver.
Qed.

Lemma vm_grow_trans root d l tab d1 l1 tab1 d2 l2 tab2 :
  vm_grow root d l tab d1 l1 tab1 -> vm_grow root d1 l1 tab1 d2 l2 tab2 -> vm_grow root d l tab d2 l2 tab2.
Proof.
  intros [A1 A2 (n1 & A3 & A4) A5 A6] [B1 B2 (n2 & B3 & B4) B5 B6]. split; try done.
  - exists (n1 ++ n2). subst. split; [by rewrite app_assoc|]. intros q. rewrite B4, A4. set_solver.
  - intros va. by rewrite B5, A5.
  - eapply only_pages_mono; [|by eapply only_pages_trans]. intros q [Hq|Hq]; [|done]. apply B4. by left.
Qed.

Lemma vm_grow_disj root d l tab d' l' tab' :
  NoDup l -> tab_free_disj tab l -> vm_grow root d l tab d' l' tab' -> tab_free_disj tab' l'.
Proof.
  intros Hd Ht [_ _ (new & -> & Ho) _ _] q Hq. apply NoDup_app in Hd as (_ & Hd & _).
  apply Ho in Hq as [Hq|Hq]; [|by apply Hd]. specialize (Ht q Hq). set_solver.
Qed.

Lemma kalloc_d_mem d pg l a :
  kmem_ok d (pg :: l) -> mem (kalloc_d d) a = if in_range pg a PGSIZE then 5 else mem d a.
Proof.
  intros Hk. pose proof (kmem_head _ _ Hk) as E. simpl in E. destruct Hk as [(_ & H0 & _) _ _].
  unfold kalloc_d. rewrite E, (proj2 (Z.eqb_neq _ _) H0). done.
Qed.

Lemma kalloc_d_only d pg l : kmem_ok d (pg :: l) -> only_pages (fun q => q = pg) d (kalloc_d d).
Proof.
  intros Hk. split.
  - unfold kalloc_d. case_match; by destruct d.
  - intros a Ha. rewrite (kalloc_d_mem d pg l a Hk). case_range; [|done]. by destruct (Ha pg eq_refl).
Qed.

Lemma kalloc_d_syms d : syms (kalloc_d d) = syms d.
Proof. unfold kalloc_d. by case_match. Qed.

Lemma grow_step root tab d l p q i pg :
  0 < sy_end (syms d) -> kmem_ok d (pg :: l) -> pt_ok d root tab -> tab_free_disj tab (pg :: l) ->
  tab p = Some q -> (length p < 2)%nat -> 0 <= i < 512 -> (p = [] -> i < 256) -> tab (p ++ [i]) = None ->
  vm_grow root d (pg :: l) tab (link_child (kalloc_d d) q i pg) l tab.[p ++ [i] := Some pg].
Proof.
  intros Hend Hk Hpt Hd Hp Hl Hi Hlow Hn.
  assert (page_ok (kalloc_d d) pg) as Hpg.
  { unfold page_ok. rewrite kalloc_d_syms. destruct Hk as [_ _ Hf]. by apply Forall_inv in Hf. }
  assert (~ owned tab pg) as Hfresh by (intros Ho; apply (Hd pg Ho); by constructor).
  assert (pt_ok (kalloc_d d) root tab) as Hpt1.
  { eapply pt_ok_frame; [exact Hpt|apply kalloc_d_syms|]. intros q' a Ho Ha.
    apply (op_mem _ _ _ (kalloc_d_only d pg l Hk)). intros ? -> Ha'.
    destruct (owned_apart d root tab pg Hpt ltac:(unfold page_ok in *; by rewrite kalloc_d_syms in Hpg) Hfresh q' Ho); lia. }
  assert (0 < sy_end (syms (kalloc_d d))) as Hend1 by by rewrite kalloc_d_syms.
  split.
  - eapply kmem_ok_frame; [by eapply kalloc_d_ok|done|done|]. intros q' a Hq' Ha.
    destruct Hk as [_ Hnd Hf]. apply NoDup_cons in Hnd as [Hni _]. rewrite Forall_forall in Hf.
    apply (op_mem _ _ _ (link_child_only (kalloc_d d) q i pg Hi)).
    apply (off_pages_apart _ q'); [apply (Hf q'); by constructor|done|]. intros x [->| ->].
    + split; [apply (pt_page _ _ _ Hpt _ _ Hp)|]. intros ->. apply (Hd q'); [by eexists|by constructor].
    + split; [apply Hpg|]. by intros ->.
  - by apply link_child_ok.
  - exists [pg]. split; [done|]. intros x. split.
    + intros [p' [[-> ->]|[_ ?]]%tab'_inv]; [right; by constructor|left; by eexists|done].
    + intros [[p' Hp']| ->%list_elem_of_singleton].
      * exists p'. by apply tab'_old.
      * exists (p ++ [i]). apply fupd_eq.
  - intros va. rewrite (link_child_pte (kalloc_d d) root tab p q i pg) by done.
    apply pte_at_frame. intros q' a Ho Ha. apply (op_mem _ _ _ (kalloc_d_only d pg l Hk)). intros ? -> Ha'.
    destruct (owned_apart (kalloc_d d) root tab pg Hpt1 Hpg Hfresh q' Ho); lia.
  - eapply only_pages_mono; [|eapply only_pages_trans; [by apply (kalloc_d_only d pg l)|
      apply (link_child_only (kalloc_d d) q i pg Hi)]].
    assert (owned tab.[p ++ [i] := Some pg] pg) by (exists (p ++ [i]); apply fupd_eq).
    intros x [->|[->| ->]]; try done. exists p. by apply tab'_old.
Qed.

(** Every new table lies on the way to an address of [X]. *)
Definition fresh_on (X : Z -> Prop) (tab tab' : tables) : Prop :=
  forall p q, tab' p = Some q -> tab p = Some q \/ exists va, X va /\ p `prefix_of` path va.

Lemma fresh_on_refl X tab : fresh_on X tab tab.
Proof. by left. Qed.

Lemma fresh_on_trans (X Y : Z -> Prop) tab tab1 tab2 : (forall x, Y x -> X x) -> fresh_on X tab tab1 -> fresh_on Y tab1 tab2 -> fresh_on X tab tab2.
Proof. intros H H1 H2 p q Hp. destruct (H2 p q Hp) as [Hp1|(va & Hva & Hpr)]; [by apply H1|right; eauto]. Qed.

Lemma fresh_on_in (X : Z -> Prop) a tab tab' : X a -> fresh_on (eq a) tab tab' -> fresh_on X tab tab'.
Proof. intros H. by apply fresh_on_trans; [intros x <-|apply fresh_on_refl]. Qed.

Section Walk.
Context (root : Z) (va : Z) (Hva : 0 <= va < MAXVA).

Lemma walk_level_step lv p q e m d l tab :
    mach_ok m -> lk_free m LK_kmem -> 0 < sy_end (syms d) ->
    kmem_ok d l -> pt_ok d root tab -> tab_free_disj tab l ->
    tab p = Some q -> (length p < 2)%nat -> (p = [] -> lv = 1%nat) ->
    (exists m', walk_loop (S lv) q va true e (mkK m d) = Ret 0 e (mkK m' d) /\ msame m m' /\ l = []) \/
    (exists c m' d' l' tab',
       walk_loop (S lv) q va true e (mkK m d) = walk_loop lv c va true e (mkK m' d') /\
       msame m m' /\ vm_grow root d l tab d' l' tab' /\ tab' (p ++ [PX (Z.of_nat (S lv)) va]) = Some c /\
       forall p' q', tab' p' = Some q' -> tab p' = Some q' \/ p' = p ++ [PX (Z.of_nat (S lv)) va]).
Proof.
  intros Hm Hl Hend Hk Hpt Hd Hp Hlen Hlv. cbn [walk_loop]. unfold getmem, setmem. mrun.
  set (i := PX (Z.of_nat (S lv)) va). assert (Hi : 0 <= i < 512) by (apply PX_range; lia).
  pose proof (pt_child _ _ _ Hpt p q i Hp Hlen Hi) as Hc. destruct (tab (p ++ [i])) as [c|] eqn:Ec.
  - destruct Hc as (-> & -> & _). right. exists c, m, d, l, tab. split_and!; auto with kdb. by apply vm_grow_refl.
  - rewrite Hc. cbn [negb]. cbv iota. rewrite (bind_Ret _ _ _ _ _ _ _ (kalloc_run e m d Hm Hl)).
    destruct l as [|pg l].
    + left. rewrite (kmem_head _ _ Hk), kalloc_d_nil by done. simpl. eexists. split_and!; auto with kdb.
    + right. rewrite (kmem_head _ _ Hk). cbn [hd].
      assert ((pg =? 0) = false) as ->. { destruct Hk as [(_ & H0 & _) _ _]. by apply Z.eqb_neq. }
      mrun. do 5 eexists. split; [reflexivity|]. split; [apply msame_settle|]. split.
      * apply (grow_step root tab d l p q i pg); try done. intros E. unfold i. rewrite (Hlv E). by apply PX_low.
      * split; [apply fupd_eq|]. intros p' q' [[-> _]|[_ H]]%tab'_inv; [by right|by left|done].
Qed.

Lemma walk_alloc e m d l tab :
    mach_ok m -> lk_free m LK_kmem -> 0 < sy_end (syms d) ->
    kmem_ok d l -> pt_ok d root tab -> tab_free_disj tab l ->
    exists r m' d' l' tab',
      walk root va true e (mkK m d) = Ret r e (mkK m' d') /\ msame m m' /\
      vm_grow root d l tab d' l' tab' /\ fresh_on (eq va) tab tab' /\
      ((r = 0 /\ l' = []) \/ (r <> 0 /\ r = slot tab' va /\ tab' (path va) <> None)).
Proof.
  intros Hm Hl Hend Hk Hpt Hd. unfold walk. destruct (va >=? MAXVA) eqn:E; [lia|].
  destruct (walk_level_step 1 [] root e m d l tab) as [(m1 & -> & ? & ->)|(c & m1 & d1 & l1 & tab1 & -> & Hm1 & Hg1 & Hc & Hf1)];
    try done; [apply (pt_root _ _ _ Hpt)|simpl; lia| |].
  { do 5 eexists. split_and!; [done|done|by apply vm_grow_refl|apply fresh_on_refl|by left]. }
  simpl app in Hc. assert (fresh_on (eq va) tab tab1) as F1.
  { intros p q Hp. destruct (Hf1 p q Hp) as [H| ->]; [by left|right]. exists va. split; [done|]. by exists [PX 1 va]. }
  assert (tab_free_disj tab1 l1) as Hd1 by (eapply vm_grow_disj; [apply Hk|done..]).
  assert (0 < sy_end (syms d1)) as Hend1 by by rewrite (only_pages_syms _ _ _ (vg_only _ _ _ _ _ _ _ Hg1)).
  destruct (walk_level_step 0 [PX 2 va] c e m1 d1 l1 tab1) as [(m2 & -> & ? & ->)|(c2 & m2 & d2 & l2 & tab2 & -> & Hm2 & Hg2 & Hc2 & Hf2)];
    try done; try (by eauto with kdb). 1: apply Hg1. 1: apply Hg1.
  { do 5 eexists. split_and!; [done|by eapply msame_trans|done|done|by left]. }
  do 5 eexists. cbn [walk_loop]. split; [done|]. split; [by eapply msame_trans|].
  split; [by eapply vm_grow_trans|]. split.
  { apply (fresh_on_trans _ (eq va) _ tab1); [done|done|]. intros p q' Hp. destruct (Hf2 p q' Hp) as [H| ->]; [by left|right]. by exists va. }
  right. simpl app in Hc2. unfold slot, path. change (Z.of_nat 1) with 1 in Hc2.
  rewrite Hc2. split_and!; try done.
  pose proof (pt_page _ _ _ (vg_pt _ _ _ _ _ _ _ Hg2) _ _ Hc2) as Hpc.
  pose proof (PX_range 0 va ltac:(lia)). apply page_ok_bounds in Hpc; [lia|].
  by rewrite (only_pages_syms _ _ _ (vg_only _ _ _ _ _ _ _ Hg2)).
Qed.
End Walk.

(** ** mappages *)

(** Like [vm_grow], with entries changed as well. *)
Record vm_ext (root : Z) (d : kdata) (l : list Z) (tab : tables) (d' : kdata) (l' : list Z) (tab' : tables) : Prop := {
  ve_kmem : kmem_ok d' l';
  ve_pt : pt_ok d' root tab';
  ve_new : exists new, l = new ++ l' /\ forall q, owned tab' q <-> owned tab q \/ q ∈ new;
  ve_only : only_pages (owned tab') d d';
}.

Lemma vm_grow_ext root d l tab d' l' tab' :
  vm_grow root d l tab d' l' tab' -> vm_ext root d l tab d' l' tab'.
Proof. by intros []. Qed.

Lemma vm_ext_trans root d l tab d1 l1 tab1 d2 l2 tab2 :
  vm_ext root d l tab d1 l1 tab1 -> vm_ext root d1 l1 tab1 d2 l2 tab2 -> vm_ext root d l tab d2 l2 tab2.
Proof.
  intros [A1 A2 (n1 & A3 & A4) A6] [B1 B2 (n2 & B3 & B4) B6]. split; try done.
  - exists (n1 ++ n2). subst. split; [by rewrite app_assoc|]. intros q. rewrite B4, A4, elem_of_app. tauto.
  - eapply only_pages_mono; [|by eapply only_pages_trans]. intros q [Hq|Hq]; [|done]. apply B4. by left.
Qed.

Lemma vm_ext_disj root d l tab d' l' tab' :
  NoDup l -> tab_free_disj tab l -> vm_ext root d l tab d' l' tab' -> tab_free_disj tab' l'.
Proof.
  intros Hd Ht [_ _ (new & -> & Ho) _] q Hq. apply NoDup_app in Hd as (_ & Hd & _).
  apply Ho in Hq as [Hq|Hq]; [|by apply Hd]. specialize (Ht q Hq). rewrite elem_of_app in Ht. tauto.
Qed.

Lemma vm_ext_syms root d l tab d' l' tab' : vm_ext root d l tab d' l' tab' -> syms d' = syms d.
Proof. intros H. eapply only_pages_syms, H. Qed.

Lemma leaf_store_ext d root tab l va v :
  0 < sy_end (syms d) -> kmem_ok d l -> pt_ok d root tab -> tab_free_disj tab l ->
  0 <= va < MAXVA -> tab (path va) <> None ->
  vm_ext root d l tab (set_mem (st64 (mem d) (slot tab va) v) d) l tab.
Proof.
  intros Hend Hk Hpt Hd Hv Hn.
  destruct (leaf_store d root tab va v Hend Hpt Hv Hn) as (H1 & _ & H3). split; try done.
  - eapply kmem_ok_frame; [exact Hk|done|done|]. intros q a Hq Ha. apply (op_mem _ _ _ H3).
    destruct Hk as [_ _ Hf]. rewrite Forall_forall in Hf.
    apply (off_pages_apart _ q); [apply (Hf q Hq)|done|]. intros q' [p Hp].
    split; [apply (pt_page _ _ _ Hpt _ _ Hp)|]. intros ->. apply (Hd q); [by eexists|done].
  - exists []. split; [done|]. intros q. rewrite elem_of_nil. tauto.
Qed.

(** The entry mappages() installs for the page at offset [x - a] of the range. *)
Definition mapped_pte (a pa perm x : Z) : Z :=
  Z.lor (Z.lor (PA2PTE (pa + (x - a) / PGSIZE * PGSIZE)) perm) PTE_V.

Lemma MAXVA_eq : MAXVA = 2 ^ 38.
Proof. done. Qed.

Section Mappages.
Context (root perm : Z) (Hperm : 0 <= perm < 1024).

Lemma entry_perm_range pa : 0 <= pa < 2 ^ 56 -> 0 <= Z.lor (Z.lor (PA2PTE pa) perm) PTE_V < 2 ^ 64.
Proof.
  intros. rewrite <- Z.lor_assoc. apply entry_range; [done|]. apply (lor_range _ _ 10); [lia..|unfold PTE_V; lia].
Qed.

Lemma mappages_step f a last pa e m d l tab :
    mach_ok m -> lk_free m LK_kmem -> 0 < sy_end (syms d) ->
    kmem_ok d l -> pt_ok d root tab -> tab_free_disj tab l ->
    0 <= a < MAXVA -> a mod PGSIZE = 0 -> 0 <= pa < 2 ^ 56 ->
    has (pte_at (mem d) tab a) PTE_V = false ->
    exists m' d' l' tab', msame m m' /\ vm_ext root d l tab d' l' tab' /\ fresh_on (eq a) tab tab' /\
      ((mappages_loop (S f) root a last pa perm e (mkK m d) = Ret (-1) e (mkK m' d') /\ l' = [] /\
        forall x, 0 <= x < MAXVA -> pte_at (mem d') tab' x = pte_at (mem d) tab x) \/
       (mappages_loop (S f) root a last pa perm e (mkK m d) =
          (if a =? last then ret 0
           else mappages_loop f root (u64 (a + PGSIZE)) last (u64 (pa + PGSIZE)) perm) e (mkK m' d') /\
        forall x, 0 <= x < MAXVA ->
          pte_at (mem d') tab' x =
          if decide (a <= x < a + PGSIZE) then mapped_pte a pa perm x else pte_at (mem d) tab x)).
Proof.
  intros Hm Hl Hend Hk Hpt Hd Ha Hal Hpa Hnv. cbn [mappages_loop].
  destruct (walk_alloc root a Ha e m d l tab) as (r & m1 & d1 & l1 & tab1 & Hw & Hm1 & Hg & Hf & Hr); try done.
  rewrite (bind_Ret _ _ _ _ _ _ _ Hw). cbv beta. destruct Hr as [[-> ->]|(Hr0 & -> & Hn)].
  - exists m1, d1, [], tab1. split; [done|]. split; [by apply vm_grow_ext|]. split; [done|]. left.
    split_and!; try done. intros x _. apply Hg.
  - rewrite (proj2 (Z.eqb_neq _ _) Hr0). unfold getmem, setmem. mrun.
    assert (ld64 (mem d1) (slot tab1 a) = pte_at (mem d1) tab1 a) as ->.
    { unfold slot, pte_at. by destruct (tab1 (path a)). }
    rewrite (vg_pte _ _ _ _ _ _ _ Hg), Hnv. mrun.
    assert (0 < sy_end (syms d1)) as Hend1 by by rewrite (vm_ext_syms _ _ _ _ _ _ _ (vm_grow_ext _ _ _ _ _ _ _ Hg)).
    assert (tab_free_disj tab1 l1) as Hd1 by (eapply vm_grow_disj; [apply Hk|done..]).
    set (v := Z.lor (Z.lor (PA2PTE pa) perm) PTE_V).
    destruct (leaf_store d1 root tab1 a v Hend1 (vg_pt _ _ _ _ _ _ _ Hg) Ha Hn) as (_ & Hpte & _).
    exists m1, (set_mem (st64 (mem d1) (slot tab1 a) v) d1), l1, tab1. split; [done|]. split.
    { eapply vm_ext_trans; [by apply vm_grow_ext|]. apply leaf_store_ext; try done; apply Hg. }
    split; [done|]. right. split; [done|]. intros x Hx. rewrite Hpte by done.
    pose proof (samepage_range a x Hal) as Hsp. destruct (decide (samepage a x)) as [H|H].
    + rewrite decide_True by tauto. unfold v. rewrite u64_small by by apply entry_perm_range.
      unfold mapped_pte. do 3 f_equal. apply Hsp in H. rewrite Z.div_small by lia. lia.
    + rewrite decide_False by tauto. apply Hg.
Qed.

Lemma mappages_loop_spec n a pa e m d l tab :
    mach_ok m -> lk_free m LK_kmem -> 0 < sy_end (syms d) ->
    kmem_ok d l -> pt_ok d root tab -> tab_free_disj tab l ->
    0 <= a -> a + (Z.of_nat n + 1) * PGSIZE <= MAXVA -> a mod PGSIZE = 0 ->
    0 <= pa -> pa + (Z.of_nat n + 1) * PGSIZE <= 2 ^ 56 ->
    (forall x, a <= x < a + (Z.of_nat n + 1) * PGSIZE -> has (pte_at (mem d) tab x) PTE_V = false) ->
    exists r k m' d' l' tab',
      mappages_loop (S n) root a (a + Z.of_nat n * PGSIZE) pa perm e (mkK m d) = Ret r e (mkK m' d') /\
      msame m m' /\ vm_ext root d l tab d' l' tab' /\ fresh_on (fun x => a <= x < a + (Z.of_nat n + 1) * PGSIZE) tab tab' /\
      ((r = 0 /\ k = Z.of_nat n + 1) \/ (r = -1 /\ 0 <= k <= Z.of_nat n /\ l' = [])) /\
      forall x, 0 <= x < MAXVA ->
        pte_at (mem d') tab' x =
        if decide (a <= x < a + k * PGSIZE) then mapped_pte a pa perm x else pte_at (mem d) tab x.
Proof.
  revert a pa m d l tab. induction n as [|n IH]; intros a pa m d l tab Hm Hl Hend Hk Hpt Hd Ha0 Ha Hal Hp0 Hp Hnv;
    rewrite MAXVA_eq in *; unfold PGSIZE in *.
  - destruct (mappages_step 0 a (a + Z.of_nat 0 * 4096) pa e m d l tab)
      as (m1 & d1 & l1 & tab1 & Hm1 & He & Hf & [(-> & -> & Hx)|(-> & Hx)]); try done;
      try (rewrite MAXVA_eq); try (unfold PGSIZE); try lia; [apply Hnv; lia|..].
    + exists (-1), 0, m1, d1, [], tab1. split_and!; try done; [eapply fresh_on_in; [|exact Hf]; unfold PGSIZE; lia|right; split_and!; (done || lia)|].
      intros x Hxr. rewrite decide_False by lia. by apply Hx.
    + rewrite (proj2 (Z.eqb_eq a _)) by lia. exists 0, 1, m1, d1, l1, tab1. split_and!; [done|done|done|eapply fresh_on_in; [|exact Hf]; unfold PGSIZE; lia|by left|].
      intros x Hxr. rewrite Hx by done. unfold PGSIZE. by rewrite Z.mul_1_l.
  - destruct (mappages_step (S n) a (a + Z.of_nat (S n) * 4096) pa e m d l tab)
      as (m1 & d1 & l1 & tab1 & Hm1 & He & Hf & [(-> & -> & Hx)|(-> & Hx)]); try done;
      try (rewrite MAXVA_eq); try (unfold PGSIZE); try lia; [apply Hnv; lia|..].
    + exists (-1), 0, m1, d1, [], tab1. split_and!; try done; [eapply fresh_on_in; [|exact Hf]; unfold PGSIZE; lia|right; split_and!; (done || lia)|].
      intros x Hxr. rewrite decide_False by lia. by apply Hx.
    + rewrite (proj2 (Z.eqb_neq a _)) by lia. unfold PGSIZE. rewrite !u64_small by lia.
      replace (a + Z.of_nat (S n) * 4096) with (a + 4096 + Z.of_nat n * 4096) by lia.
      destruct (IH (a + 4096) (pa + 4096) m1 d1 l1 tab1) as (r & k & m2 & d2 & l2 & tab2 & -> & Hm2 & He2 & Hf2 & Hr & Hx2);
        eauto with kdb; try lia.
      * by rewrite (vm_ext_syms _ _ _ _ _ _ _ He).
      * apply He.
      * apply He.
      * eapply vm_ext_disj; [apply Hk|done..].
      * Z.to_euclidean_division_equations; lia.
      * intros x Hxr. rewrite Hx by (rewrite ?MAXVA_eq; lia). unfold PGSIZE. rewrite decide_False by lia. apply Hnv. lia.
      * exists r, (k + 1), m2, d2, l2, tab2. split_and!; try done; [by eapply msame_trans|by eapply vm_ext_trans| |naive_solver lia|].
        { eapply fresh_on_trans; [|eapply fresh_on_in; [|exact Hf]; unfold PGSIZE; lia|exact Hf2]. cbv beta. unfold PGSIZE. intros x Hxr. lia. }
        intros x Hxr. rewrite Hx2, Hx by (rewrite ?MAXVA_eq; lia). unfold PGSIZE.
        repeat case_decide; try lia; try done.
        unfold mapped_pte, PGSIZE. do 3 f_equal.
        replace ((x - a) / 4096) with ((x - (a + 4096)) / 4096 + 1)
          by (Z.to_euclidean_division_equations; lia). lia.
Qed.
End Mappages.

(** ** Address translation *)

(** The physical address and the flags that the table gives [va], if it is mapped. *)
Definition translate (m : bytes) (root va : Z) : option (Z * Z) :=
  let pte := pte_of m root va in
  if has pte PTE_V then Some (PTE2PA pte + va mod PGSIZE, PTE_FLAGS pte) else None.

(** A page table, an allocator, and no page in both. *)
Record vm_ok (d : kdata) (root : Z) (l : list Z) (tab : tables) : Prop := {
  vo_end : 0 < sy_end (syms d);
  vo_kmem : kmem_ok d l;
  vo_pt : pt_ok d root tab;
  vo_disj : tab_free_disj tab l;
}.

Lemma vm_ok_ext root d l tab d' l' tab' :
  vm_ok d root l tab -> vm_ext root d l tab d' l' tab' -> vm_ok d' root l' tab'.
Proof.
  intros [H1 H2 H3 H4] He. split; [|apply He..|].
  - by rewrite (vm_ext_syms _ _ _ _ _ _ _ He).
  - eapply vm_ext_disj; [apply H2|done..].
Qed.

Lemma translate_mapped m root a pa perm x :
  a mod PGSIZE = 0 -> a <= x -> pa mod PGSIZE = 0 -> 0 <= pa -> pa + (x - a) < 2 ^ 56 -> 0 <= perm < 1024 ->
  pte_of m root x = mapped_pte a pa perm x ->
  translate m root x = Some (pa + (x - a), Z.lor perm PTE_V).
Proof.
  intros Ha Hx Hpa Hp0 Hp Hperm E. unfold translate. rewrite E. unfold mapped_pte.
  rewrite has_V_lor, <- Z.lor_assoc. unfold PGSIZE in *.
  rewrite PTE2PA_entry, PTE_FLAGS_entry; try (apply (lor_range _ _ 10); unfold PTE_V; lia).
  - do 2 f_equal. Z.to_euclidean_division_equations; lia.
  - Z.to_euclidean_division_equations; lia.
  - unfold PGSIZE. Z.to_euclidean_division_equations; lia.
  - Z.to_euclidean_division_equations; lia.
Qed.

Lemma pgrounddown_facts a : 0 <= a < 2 ^ 64 ->
  PGROUNDDOWN a mod PGSIZE = 0 /\ PGROUNDDOWN a <= a < PGROUNDDOWN a + PGSIZE /\ 0 <= PGROUNDDOWN a.
Proof.
  intros H. rewrite PGROUNDDOWN_eq by done. unfold PGSIZE.
  split; [apply Z.mod_mul; lia|]. Z.to_euclidean_division_equations; lia.
Qed.

(** C17: mappages() on a well-formed page table whose range is unmapped.  It
    returns; if it returns 0, every address of the pages touched by
    [va .. va+size) now translates to [pa] plus its offset, with permissions
    [perm|PTE_V], and every other translation is what it was.  If it returns -1
    the allocator is empty and some prefix of the pages is mapped.  Either way the
    table stays well formed, and only table pages and the free list changed. *)
Theorem mappages_spec root tab l va size pa perm e m d
  (Hm : mach_ok m) (Hl : lk_free m LK_kmem) (Hv : vm_ok d root l tab)
  (Hperm : 0 <= perm < 1024) (Hva : 0 <= va) (Hsz : 0 < size) (Hend : va + size <= MAXVA)
  (Hpa : pa mod PGSIZE = 0 /\ 0 <= pa /\ pa + size + 2 * PGSIZE <= 2 ^ 56)
  (Hfree : forall x, PGROUNDDOWN va <= x < PGROUNDDOWN (va + size - 1) + PGSIZE ->
     translate (mem d) root x = None) :
  exists r k m' d' l' tab',
    mappages root va size pa perm e (mkK m d) = Ret r e (mkK m' d') /\
    msame m m' /\ vm_ok d' root l' tab' /\ only_pages (owned tab') d d' /\
    let a := PGROUNDDOWN va in
    ((r = 0 /\ a + k * PGSIZE = PGROUNDDOWN (va + size - 1) + PGSIZE) \/
     (r = -1 /\ 0 <= k /\ a + k * PGSIZE < va + size /\ l' = [])) /\
    forall x, 0 <= x < MAXVA ->
      translate (mem d') root x =
      if decide (a <= x < a + k * PGSIZE) then Some (pa + (x - a), Z.lor perm PTE_V)
      else translate (mem d) root x.
Proof.
  rewrite MAXVA_eq in *. destruct Hpa as (Hpa1 & Hpa2 & Hpa3). unfold mappages.
  rewrite (u64_small (va + size - 1)) by lia.
  destruct (pgrounddown_facts va ltac:(lia)) as (Ha1 & Ha2 & Ha3).
  destruct (pgrounddown_facts (va + size - 1) ltac:(lia)) as (Hb1 & Hb2 & Hb3).
  set (a := PGROUNDDOWN va) in *. set (b := PGROUNDDOWN (va + size - 1)) in *.
  assert (a <= b /\ exists n, b = a + Z.of_nat n * PGSIZE /\ (b - a) / PGSIZE = Z.of_nat n) as (Hab & n & Hn & Hn').
  { split; [unfold PGSIZE in *; Z.to_euclidean_division_equations; lia|].
    exists (Z.to_nat ((b - a) / PGSIZE)). unfold PGSIZE in *. Z.to_euclidean_division_equations; lia. }
  unfold mappages_fuel. rewrite (proj2 (Z.leb_le a b) Hab), Hn', Nat2Z.id, Hn.
  destruct Hv as [V1 V2 V3 V4].
  assert (b + PGSIZE <= 2 ^ 38) as Hb4 by (unfold PGSIZE in *; Z.to_euclidean_division_equations; lia).
  destruct (mappages_loop_spec root perm Hperm n a pa e m d l tab) as (r & k & m' & d' & l' & tab' & H1 & H2 & H3 & _ & H4 & H5);
    try done; rewrite ?MAXVA_eq; try (unfold PGSIZE in *; lia).
  { intros x Hx. specialize (Hfree x ltac:(lia)). unfold translate in Hfree.
    rewrite (pte_of_at d root tab V3) in Hfree. by destruct (has _ _). }
  exists r, k, m', d', l', tab'. rewrite H1. split; [done|]. split; [done|]. split; [by eapply vm_ok_ext|].
  split; [apply H3|]. split; [unfold PGSIZE in *; naive_solver lia|].
  intros x Hx. rewrite <- MAXVA_eq in Hx. specialize (H5 x Hx).
  rewrite <- (pte_of_at d' root tab' (ve_pt _ _ _ _ _ _ _ H3)), <- (pte_of_at d root tab V3) in H5.
  case_decide.
  - apply translate_mapped; try done; unfold PGSIZE in *; naive_solver lia.
  - unfold translate. by rewrite H5.
Qed.

(** ** uvmunmap *)

Lemma kfree_d_only pa d : only_pages (fun q => q = pa) d (kfree_d pa d).
Proof.
  split; [by destruct d|]. intros a Ha. specialize (Ha pa eq_refl). unfold kfree_d. simpl.
  rewrite st64_out, memset_out; unfold PGSIZE in *; (done || lia).
Qed.

(** Freeing a page that is neither a table nor free. *)
Lemma vm_ok_kfree d root l tab pa :
  vm_ok d root l tab -> page_ok d pa -> pa ∉ l -> ~ owned tab pa ->
  vm_ok (kfree_d pa d) root (pa :: l) tab /\ forall x, pte_at (mem (kfree_d pa d)) tab x = pte_at (mem d) tab x.
Proof.
  intros [V1 V2 V3 V4] Hp Hn Ho.
  assert (forall q a, owned tab q -> q <= a < q + PGSIZE -> mem (kfree_d pa d) a = mem d a) as Hsame.
  { intros q a Hq Ha. apply (op_mem _ _ _ (kfree_d_only pa d)). intros ? -> Ha'.
    destruct (owned_apart d root tab pa V3 Hp Ho q Hq); lia. }
  split; [|intros x; by apply pte_at_frame]. split; [done|by apply kfree_d_ok| |].
  - by eapply pt_ok_frame.
  - intros q Hq Hin. apply elem_of_cons in Hin as [->|Hin]; [done|]. by apply (V4 q).
Qed.

Definition frame_of (m : bytes) (tab : tables) (a : Z) : Z := PTE2PA (pte_at m tab a).

Lemma slot_nonzero d root tab a :
  0 < sy_end (syms d) -> pt_ok d root tab -> has (pte_at (mem d) tab a) PTE_V = true ->
  tab (path a) <> None /\ slot tab a <> 0 /\ ld64 (mem d) (slot tab a) = pte_at (mem d) tab a.
Proof.
  intros Hend Hpt. unfold pte_at, slot. destruct (tab (path a)) as [q|] eqn:E; [|done]. intros _.
  split_and!; try done. pose proof (PX_range 0 a ltac:(lia)).
  destruct (page_ok_bounds d q Hend (pt_page _ _ _ Hpt _ _ E)). lia.
Qed.

Lemma unmap_page_spec root tab l a (do_free : bool) e m d :
  mach_ok m -> lk_free m LK_kmem -> vm_ok d root l tab -> 0 <= a < MAXVA ->
  has (pte_at (mem d) tab a) PTE_V = true -> PTE_FLAGS (pte_at (mem d) tab a) <> PTE_V ->
  let pa := frame_of (mem d) tab a in
  (do_free = true -> page_ok d pa /\ (pa ∉ l) /\ ~ owned tab pa) ->
  exists m' d', unmap_page root a do_free e (mkK m d) = Ret tt e (mkK m' d') /\ msame m m' /\
    vm_ok d' root (if do_free then pa :: l else l) tab /\
    only_pages (fun q => owned tab q \/ (do_free = true /\ q = pa)) d d' /\
    forall x, 0 <= x < MAXVA ->
      pte_at (mem d') tab x = if decide (samepage a x) then 0 else pte_at (mem d) tab x.
Proof.
  intros Hm Hl Hv Ha Hval Hleaf pa Hfree. unfold unmap_page. pose proof Hv as [V1 V2 V3 V4].
  mcall (walk_ro d root tab V3 a e m Ha).
  destruct (slot_nonzero d root tab a V1 V3 Hval) as (Hn & Hs & Hld).
  rewrite (proj2 (Z.eqb_neq _ _) Hs). unfold getmem, setmem. mrun. rewrite Hld, Hval. cbn [negb]. cbv iota.
  rewrite (proj2 (Z.eqb_neq _ _) Hleaf). fold (frame_of (mem d) tab a). fold pa.
  destruct do_free.
  - destruct (Hfree eq_refl) as (F1 & F2 & F3). mrun. mcall (kfree_run pa e m d Hm Hl F1).
    destruct (vm_ok_kfree d root l tab pa Hv F1 F2 F3) as [Hv1 Hpte1]. pose proof Hv1 as [W1 W2 W3 W4].
    destruct (leaf_store (kfree_d pa d) root tab a 0 W1 W3 Ha Hn) as (L1 & L2 & L3).
    do 2 eexists. split; [done|]. split; [apply msame_settle|]. split.
    { eapply vm_ok_ext; [exact Hv1|]. by apply leaf_store_ext. }
    split.
    + eapply only_pages_mono; [|eapply only_pages_trans; [apply kfree_d_only|exact L3]].
      intros q [->|Hq]; [right|left]; done.
    + intros x Hx. rewrite L2 by done. case_decide; [done|]. apply Hpte1.
  - mrun. destruct (leaf_store d root tab a 0 V1 V3 Ha Hn) as (L1 & L2 & L3).
    do 2 eexists. split; [done|]. split; [apply msame_refl|]. split.
    { eapply vm_ok_ext; [exact Hv|]. by apply leaf_store_ext. }
    split; [|done]. eapply only_pages_mono; [|exact L3]. intros q Hq. by left.
Qed.

(** The pages of a range of [n] pages from [va]. *)
Definition npages_from (va : Z) (n : nat) : list Z := map (fun i => va + Z.of_nat i * PGSIZE) (seq 0 n).

Lemma npages_from_S va n : npages_from va (S n) = va :: npages_from (va + PGSIZE) n.
Proof.
  unfold npages_from. simpl. f_equal; [lia|]. rewrite <- seq_shift, map_map. apply map_ext. intros i. lia.
Qed.

Lemma pages_below_n a n : pages_below a (a + Z.of_nat n * PGSIZE) = npages_from a n.
Proof.
  unfold pages_below, npages_from. do 2 f_equal. unfold PGSIZE. Z.to_euclidean_division_equations; lia.
Qed.

Lemma npages_from_elem va n x :
  x ∈ npages_from va n <-> exists i, (i < n)%nat /\ x = va + Z.of_nat i * PGSIZE.
Proof.
  unfold npages_from. rewrite list_elem_of_In, in_map_iff. setoid_rewrite in_seq. split.
  - intros (i & <- & Hi). exists i. split; [lia|done].
  - intros (i & Hi & ->). exists i. split; [done|lia].
Qed.

(** Every page of the range is mapped as a leaf; with [do_free], to distinct
    allocatable pages that are neither free nor tables. *)
Definition unmappable (d : kdata) (tab : tables) (l : list Z) (do_free : bool) (va : Z) (n : nat) : Prop :=
  (forall a, a ∈ npages_from va n ->
     has (pte_at (mem d) tab a) PTE_V = true /\ PTE_FLAGS (pte_at (mem d) tab a) <> PTE_V /\
     (do_free = true -> page_ok d (frame_of (mem d) tab a) /\ (frame_of (mem d) tab a ∉ l) /\
        ~ owned tab (frame_of (mem d) tab a))) /\
  (do_free = true -> NoDup (map (frame_of (mem d) tab) (npages_from va n))).

Lemma unmap_loop_spec root tab (do_free : bool) n va l e m d :
  mach_ok m -> lk_free m LK_kmem -> vm_ok d root l tab ->
  0 <= va -> va mod PGSIZE = 0 -> va + Z.of_nat n * PGSIZE <= MAXVA ->
  unmappable d tab l do_free va n ->
  let fr := map (frame_of (mem d) tab) (npages_from va n) in
  exists m' d', forM (npages_from va n) (fun a => unmap_page root a do_free) e (mkK m d) = Ret tt e (mkK m' d') /\
    msame m m' /\ vm_ok d' root (if do_free then rev fr ++ l else l) tab /\
    only_pages (fun q => owned tab q \/ (do_free = true /\ q ∈ fr)) d d' /\
    forall x, 0 <= x < MAXVA ->
      pte_at (mem d') tab x =
      if decide (va <= x < va + Z.of_nat n * PGSIZE) then 0 else pte_at (mem d) tab x.
Proof.
  revert va l m d. induction n as [|n IH]; intros va l m d Hm Hl Hv Hva Hal Hend [Hun Hnd]; cbv zeta.
  { exists m, d. split; [done|]. split; [apply msame_refl|].
    split; [by destruct do_free|]. split; [apply only_pages_refl|]. intros x Hx. rewrite decide_False by lia. done. }
  rewrite npages_from_S in *. cbn [forM map].
  assert (0 <= va < MAXVA) as Hva' by (unfold PGSIZE in *; lia).
  destruct (Hun va ltac:(by constructor)) as (U1 & U2 & U3).
  destruct (unmap_page_spec root tab l va do_free e m d) as (m1 & d1 & Hr & Hm1 & Hv1 & Ho1 & Hp1); try done.
  rewrite (bind_Ret _ _ _ _ _ _ _ Hr). cbv beta.
  assert (forall a, a ∈ npages_from (va + PGSIZE) n -> pte_at (mem d1) tab a = pte_at (mem d) tab a) as Hsame.
  { intros a (i & Hi & ->)%npages_from_elem. rewrite Hp1 by (unfold PGSIZE in *; lia).
    rewrite decide_False; [done|]. rewrite samepage_range by done. unfold PGSIZE. lia. }
  assert (map (frame_of (mem d1) tab) (npages_from (va + PGSIZE) n) =
          map (frame_of (mem d) tab) (npages_from (va + PGSIZE) n)) as Hfr.
  { apply map_ext_in. intros a Ha%list_elem_of_In. unfold frame_of. by rewrite Hsame. }
  destruct (IH (va + PGSIZE) (if do_free then frame_of (mem d) tab va :: l else l) m1 d1)
    as (m2 & d2 & Hr2 & Hm2 & Hv2 & Ho2 & Hp2); eauto with kdb; try (unfold PGSIZE in *; lia).
  - unfold PGSIZE in *. Z.to_euclidean_division_equations; lia.
  - split.
    + intros a Ha. rewrite Hsame by done. destruct (Hun a ltac:(by constructor)) as (A1 & A2 & A3).
      unfold frame_of. rewrite Hsame by done. split_and!; try done. intros ->.
      destruct (A3 eq_refl) as (B1 & B2 & B3). split_and!; try done.
      * unfold page_ok. by rewrite (only_pages_syms _ _ _ Ho1).
      * intros [E|E]%elem_of_cons; [|done]. specialize (Hnd eq_refl). apply NoDup_cons in Hnd as [Hni _].
        apply Hni. apply list_elem_of_In, in_map_iff. exists a. split; [done|by apply list_elem_of_In].
    + intros Hdf. rewrite Hfr. specialize (Hnd Hdf). by apply NoDup_cons in Hnd as [_ ?].
  - rewrite Hfr in *. exists m2, d2. split; [done|]. split; [by eapply msame_trans|]. split.
    { destruct do_free; [|done]. simpl. by rewrite <- app_assoc. }
    split.
    + eapply only_pages_mono; [|eapply only_pages_trans; [exact Ho1|exact Ho2]]. cbv beta.
      intros q Hq. rewrite elem_of_cons. tauto.
    + intros x Hx. rewrite Hp2, Hp1 by done. destruct (decide (samepage va x)) as [Hs|Hs];
        rewrite samepage_range in Hs by done; repeat case_decide; (done || (unfold PGSIZE in *; lia)).
Qed.

(** Uvmunmap() on a range of [n] leaf pages returns, removes exactly these
    translations, and with [do_free] puts their frames on the free list, latest
    first; only table pages and the freed frames change.  A start address that is
    not page aligned panics. *)
Theorem uvmunmap_spec root tab l (do_free : bool) n va e m d
  (Hm : mach_ok m) (Hl : lk_free m LK_kmem) (Hv : vm_ok d root l tab)
  (Hva : 0 <= va) (Hend : va + Z.of_nat n * PGSIZE <= MAXVA) (Hun : unmappable d tab l do_free va n) :
  (va mod PGSIZE = 0 ->
   let fr := map (frame_of (mem d) tab) (npages_from va n) in
   exists m' d', uvmunmap root va (Z.of_nat n) do_free e (mkK m d) = Ret tt e (mkK m' d') /\
     msame m m' /\ vm_ok d' root (if do_free then rev fr ++ l else l) tab /\
     only_pages (fun q => owned tab q \/ (do_free = true /\ q ∈ fr)) d d' /\
     forall x, 0 <= x < MAXVA ->
       translate (mem d') root x =
       if decide (va <= x < va + Z.of_nat n * PGSIZE) then None else translate (mem d) root x) /\
  (va mod PGSIZE <> 0 ->
   uvmunmap root va (Z.of_nat n) do_free e (mkK m d) = Stop (Panicked "uvmunmap: not aligned") (mkK m d)).
Proof.
  unfold uvmunmap. split.
  - intros Hal. rewrite Hal. cbn. rewrite MAXVA_eq in Hend.
    rewrite u64_small, pages_below_n by (unfold PGSIZE in *; lia). rewrite <- MAXVA_eq in Hend.
    destruct (unmap_loop_spec root tab do_free n va l e m d) as (m' & d' & H1 & H2 & H3 & H4 & H5); try done.
    exists m', d'. split_and!; try done. intros x Hx. specialize (H5 x Hx).
    rewrite <- (pte_of_at d' root tab (vo_pt _ _ _ _ H3)), <- (pte_of_at d root tab (vo_pt _ _ _ _ Hv)) in H5.
    unfold translate. rewrite H5. by case_decide.
  - intros Hal. by rewrite (proj2 (Z.eqb_neq _ _) Hal).
Qed.

(** ** User memory *)

(** Can user code reach [x], and where is it? *)
Definition umapped (m : bytes) (root x : Z) : bool :=
  (x <? MAXVA) && has (pte_of m root x) PTE_V && has (pte_of m root x) PTE_U.
Definition uphys (m : bytes) (root x : Z) : Z := PTE2PA (pte_of m root x) + x mod PGSIZE.

(** User frames are allocatable pages, not tables, one per virtual page. *)
Record uspace_ok (d : kdata) (root : Z) (tab : tables) : Prop := {
  us_pt : pt_ok d root tab;
  us_end : 0 < sy_end (syms d);
  us_frame : forall x, 0 <= x -> umapped (mem d) root x = true ->
    page_ok d (PTE2PA (pte_of (mem d) root x)) /\ ~ owned tab (PTE2PA (pte_of (mem d) root x));
  us_inj : forall x y, 0 <= x -> 0 <= y -> umapped (mem d) root x = true -> umapped (mem d) root y = true ->
    PTE2PA (pte_of (mem d) root x) = PTE2PA (pte_of (mem d) root y) -> samepage x y;
}.

(** Only the memory and the linker's symbols matter. *)
Lemma uspace_ok_ext d d' root tab : mem d' = mem d -> syms d' = syms d -> uspace_ok d root tab -> uspace_ok d' root tab.
Proof.
  intros Hm Hs [Hpt He Hf Hi]. split; unfold page_ok in *; rewrite ?Hm, ?Hs; try done.
  destruct Hpt as [P1 P2 P3 P4 P5 Plow P6]. split; try done; unfold page_ok in *; rewrite ?Hm, ?Hs; done.
Qed.

Lemma pte_of_samepage m root x y : samepage x y -> pte_of m root x = pte_of m root y.
Proof.
  intros H. assert (forall l, 0 <= l -> PX l x = PX l y) as E.
  { intros l Hl. rewrite !PX_eq by done. rewrite !Z.pow_add_r, <- !Z.div_div by lia.
    unfold samepage, PGSIZE in H. change (2 ^ 12) with 4096. by rewrite H. }
  unfold pte_of. by rewrite !E by lia.
Qed.

Lemma umapped_samepage m root x y : 0 <= x -> 0 <= y -> samepage x y -> umapped m root x = umapped m root y.
Proof.
  intros Hx Hy H. unfold umapped. rewrite (pte_of_samepage m root x y H). do 2 f_equal.
  unfold samepage in H. rewrite MAXVA_eq. unfold PGSIZE in H.
  destruct (Z.ltb_spec x (2 ^ 38)), (Z.ltb_spec y (2 ^ 38)); try done;
    Z.to_euclidean_division_equations; lia.
Qed.

Lemma walkaddr_run d root tab va e m :
  uspace_ok d root tab -> 0 <= va ->
  walkaddr root va e (mkK m d) =
  Ret (if umapped (mem d) root va then PTE2PA (pte_of (mem d) root va) else 0) e (mkK m d).
Proof.
  intros Hu Hva. pose proof (us_pt _ _ _ Hu) as Hpt. unfold walkaddr, umapped.
  destruct (Z.ltb_spec va MAXVA) as [Hlt|Hge].
  - replace (va >=? MAXVA) with false by lia. mcall (walk_ro d root tab Hpt va e m ltac:(lia)).
    rewrite (pte_of_at d root tab Hpt). simpl. destruct (has (pte_at (mem d) tab va) PTE_V) eqn:Ev.
    + destruct (slot_nonzero d root tab va (us_end _ _ _ Hu) Hpt Ev) as (_ & Hs & Hld).
      rewrite (proj2 (Z.eqb_neq _ _) Hs). unfold getmem. mrun. rewrite Hld, Ev. simpl.
      by destruct (has _ PTE_U).
    + unfold slot, pte_at in *. destruct (tab (path va)) as [q|] eqn:E; [|done]. unfold getmem. mrun.
      destruct (_ =? 0); [done|]. mrun. by rewrite Ev.
  - replace (va >=? MAXVA) with true by lia. done.
Qed.

Lemma uspace_ok_frame d d' root tab :
  uspace_ok d root tab -> only_pages (fun q => ~ owned tab q /\ q mod PGSIZE = 0) d d' ->
  uspace_ok d' root tab /\ forall x, pte_of (mem d') root x = pte_of (mem d) root x.
Proof.
  intros [H1 H2 H3 H4] Ho.
  assert (forall q a, owned tab q -> q <= a < q + PGSIZE -> mem d' a = mem d a) as Hsame.
  { intros q a [p Hq] Ha. apply (op_mem _ _ _ Ho).
    apply (off_pages_apart _ q); [apply (pt_page _ _ _ H1 _ _ Hq)|done|].
    intros q' [Hq' ?]. split; [done|]. intros ->. apply Hq'. by eexists. }
  pose proof (only_pages_syms _ _ _ Ho) as Hs.
  assert (pt_ok d' root tab) as H1' by by eapply pt_ok_frame.
  assert (forall x, pte_of (mem d') root x = pte_of (mem d) root x) as Hpte.
  { intros x. rewrite (pte_of_at d' root tab H1'), (pte_of_at d root tab H1). by apply pte_at_frame. }
  assert (forall x, umapped (mem d') root x = umapped (mem d) root x) as Hum.
  { intros x. unfold umapped. by rewrite Hpte. }
  split; [|done]. split; [done|by rewrite Hs|..].
  - intros x Hx. rewrite Hum, Hpte. intros Hx'. destruct (H3 x Hx Hx'). split; [|done].
    unfold page_ok. by rewrite Hs.
  - intros x y. rewrite !Hum, !Hpte. apply H4.
Qed.

(** ** copyout and copyin *)

(** One chunk, from [va] to the end of its page or of the data. *)
Lemma chunk_store d root tab va l :
  uspace_ok d root tab -> 0 <= va -> umapped (mem d) root va = true ->
  va mod PGSIZE + Z.of_nat (length l) <= PGSIZE ->
  let d' := set_mem (memput (mem d) (uphys (mem d) root va) l) d in
  only_pages (fun q => q = PTE2PA (pte_of (mem d) root va)) d d' /\
  (forall i, 0 <= i < Z.of_nat (length l) -> mem d' (uphys (mem d) root (va + i)) = nth (Z.to_nat i) l 0) /\
  (forall y, 0 <= y -> umapped (mem d) root y = true -> ~ (va <= y < va + Z.of_nat (length l)) ->
     mem d' (uphys (mem d) root y) = mem d (uphys (mem d) root y)).
Proof.
  intros Hu Hva Hmap Hlen d'. unfold uphys. split_and!.
  - apply only_pages_set_mem. intros a Ha. specialize (Ha _ eq_refl). apply memput_out. unfold uphys, PGSIZE in *.
    pose proof (Z.mod_pos_bound va 4096). lia.
  - intros i Hi. assert (samepage (va + i) va) as Hs.
    { unfold samepage, PGSIZE in *. Z.to_euclidean_division_equations; lia. }
    rewrite (pte_of_samepage _ _ _ _ Hs).
    assert ((va + i) mod PGSIZE = va mod PGSIZE + i) as ->
      by (unfold PGSIZE in *; Z.to_euclidean_division_equations; lia).
    simpl. rewrite memput_in by (unfold uphys; lia). f_equal. unfold uphys. lia.
  - intros y Hy Hmy Hny. simpl. apply memput_out. unfold uphys. intros Hin.
    destruct (us_frame _ _ _ Hu va Hva Hmap) as [[F1 _] _], (us_frame _ _ _ Hu y Hy Hmy) as [[F2 _] _].
    pose proof (Z.mod_pos_bound y PGSIZE ltac:(done)) as R1. pose proof (Z.mod_pos_bound va PGSIZE ltac:(done)) as R2.
    destruct (Z.eq_dec (PTE2PA (pte_of (mem d) root y)) (PTE2PA (pte_of (mem d) root va))) as [E|E].
    + pose proof (us_inj _ _ _ Hu y va Hy Hva Hmy Hmap E) as Hs. rewrite E in Hin.
      unfold samepage, PGSIZE in *. Z.to_euclidean_division_equations; lia.
    + destruct (pages_apart _ _ F2 F1 E); lia.
Qed.

Definition in_copy (a len x : Z) : Prop := a <= x < a + len.

Lemma copyout_loop_spec f root tab dstva src e m d :
  (length src < f)%nat -> 0 <= dstva < 2 ^ 64 -> uspace_ok d root tab ->
  let len := Z.of_nat (length src) in
  exists r d', copyout_loop f root dstva src e (mkK m d) = Ret r e (mkK m d') /\
    only_pages (fun q => exists x, in_copy dstva len x /\ umapped (mem d) root x = true /\
                  q = PTE2PA (pte_of (mem d) root x)) d d' /\
    ((r = 0 /\ (forall x, in_copy dstva len x -> umapped (mem d) root x = true) /\
      forall i, 0 <= i < len -> mem d' (uphys (mem d) root (dstva + i)) = nth (Z.to_nat i) src 0) \/
     (r = -1 /\ exists x, in_copy dstva len x /\ umapped (mem d) root x = false)) /\
    (forall y, 0 <= y -> umapped (mem d) root y = true -> ~ in_copy dstva len y ->
       mem d' (uphys (mem d) root y) = mem d (uphys (mem d) root y)).
Proof.
  revert dstva src d. induction f as [|f IH]; intros dstva src d Hf Hva Hu; [lia|]. cbv zeta. cbn [copyout_loop].
  unfold in_copy. destruct src as [|b src'] eqn:Esrc.
  { exists 0, d. split; [done|]. split; [apply only_pages_refl|]. split; [left; split_and!; intros; simpl in *; lia|done]. }
  rewrite <- Esrc in *. set (len := Z.of_nat (length src)). assert (1 <= len) by (unfold len; subst; simpl; lia).
  destruct (pgrounddown_facts dstva Hva) as (Ha1 & Ha2 & Ha3). set (va0 := PGROUNDDOWN dstva) in *.
  assert (samepage dstva va0) as Hs. { unfold samepage, PGSIZE in *. Z.to_euclidean_division_equations; lia. }
  assert (dstva mod PGSIZE = dstva - va0) as Hoff by (unfold PGSIZE in *; Z.to_euclidean_division_equations; lia).
  mcall (walkaddr_run d root tab va0 e m Hu Ha3).
  rewrite <- (umapped_samepage (mem d) root dstva va0), <- (pte_of_samepage (mem d) root dstva va0) by (done || lia).
  destruct (umapped (mem d) root dstva) eqn:Em.
  2: { exists (-1), d. split; [done|]. split; [apply only_pages_refl|]. split; [|done]. right. split; [done|].
       exists dstva. split; [lia|done]. }
  destruct (us_frame _ _ _ Hu dstva ltac:(lia) Em) as [Hpg Hno].
  rewrite (proj2 (Z.eqb_neq _ 0)) by (destruct Hpg, Hu; lia). unfold setmem. mrun.
  set (n := Z.min (PGSIZE - (dstva - va0)) len). assert (1 <= n <= len) by (unfold PGSIZE in *; lia).
  rewrite <- Hoff. fold (uphys (mem d) root dstva).
  assert (Hlt : Z.of_nat (length (take (Z.to_nat n) src)) = n) by (rewrite length_take; lia).
  assert (Hld : Z.of_nat (length (drop (Z.to_nat n) src)) = len - n) by (rewrite length_drop; lia).
  destruct (chunk_store d root tab dstva (take (Z.to_nat n) src) Hu) as (C1 & C2 & C3); [lia|done|lia|].
  set (d1 := set_mem _ d) in *.
  destruct (uspace_ok_frame d d1 root tab Hu) as [Hu1 Hpte].
  { eapply only_pages_mono; [|exact C1]. intros q ->. split; [done|apply Hpg]. }
  assert (forall x, umapped (mem d1) root x = umapped (mem d) root x) as Hum by (intros; unfold umapped; by rewrite Hpte).
  assert (forall x, uphys (mem d1) root x = uphys (mem d) root x) as Hup by (intros; unfold uphys; by rewrite Hpte).
  assert (va0 + PGSIZE <= MAXVA) as Hmax.
  { unfold umapped in Em. rewrite MAXVA_eq in *. unfold PGSIZE in *. Z.to_euclidean_division_equations; lia. }
  rewrite MAXVA_eq in Hmax. rewrite u64_small by (unfold PGSIZE in *; lia).
  destruct (IH (va0 + PGSIZE) (drop (Z.to_nat n) src) d1) as (r & d2 & -> & I1 & I2 & I3);
    [lia|unfold PGSIZE in *; lia|done|]. unfold in_copy in *. rewrite Hld in *.
  assert (forall x, dstva <= x < dstva + len <->
            (dstva <= x < dstva + n \/ va0 + PGSIZE <= x < va0 + PGSIZE + (len - n))) as Hsplit by lia.
  assert (forall x, dstva <= x < dstva + n -> umapped (mem d) root x = true) as Hfirst.
  { intros x Hx. rewrite (umapped_samepage _ _ x dstva); [done|lia..|].
    unfold samepage, PGSIZE in *. Z.to_euclidean_division_equations; lia. }
  exists r, d2. split; [done|]. split; [|split].
  - eapply only_pages_mono; [|eapply only_pages_trans; [exact C1|exact I1]].
    intros q [->|(x & Hx & Hmx & ->)]; [exists dstva; split; [lia|done]|].
    exists x. rewrite Hsplit, <- Hum, Hpte. tauto.
  - destruct I2 as [(-> & I2a & I2b)|(-> & x & Hx & Hmx)].
    + left. split; [done|]. split.
      * intros x [Hx|Hx]%Hsplit; [by apply Hfirst|]. rewrite <- Hum. by apply I2a.
      * intros i Hi. destruct (Z.lt_ge_cases i n) as [Hin|Hin].
        -- rewrite <- Hup, I3, Hup, C2 by (rewrite ?Hum; first [lia | apply Hfirst; lia]).
           apply nth_take_lt. lia.
        -- replace (dstva + i) with (va0 + PGSIZE + (i - n)) by lia. rewrite <- Hup, I2b by lia.
           rewrite nth_drop_add. f_equal. lia.
    + right. split; [done|]. exists x. rewrite Hsplit, <- Hum. tauto.
  - intros y Hy Hmy Hny. rewrite Hsplit in Hny. rewrite <- Hup, I3, Hup by (rewrite ?Hum; tauto).
    apply C3; [done..|]. rewrite Hlt. tauto.
Qed.

(** The bytes of user memory at [va .. va+n). *)
Definition ubytes (m : bytes) (root va : Z) (n : nat) : list Z :=
  map (fun i => m (uphys m root (va + Z.of_nat i))) (seq 0 n).

Lemma ubytes_app m root va n k : ubytes m root va (n + k) = ubytes m root va n ++ ubytes m root (va + Z.of_nat n) k.
Proof.
  unfold ubytes. rewrite seq_app, map_app. f_equal. simpl. rewrite seq_map_add.
  apply map_ext. intros i. do 2 f_equal. lia.
Qed.

Lemma peekn_ubytes m root va n :
  0 <= va -> va mod PGSIZE + Z.of_nat n <= PGSIZE -> peekn m (uphys m root va) n = ubytes m root va n.
Proof.
  intros Hva Hn. unfold peekn, ubytes. apply map_ext_in. intros i Hi%in_seq. f_equal. unfold uphys.
  rewrite (pte_of_samepage m root (va + Z.of_nat i) va); unfold samepage, PGSIZE in *;
    Z.to_euclidean_division_equations; lia.
Qed.

Lemma copyin_loop_spec f root tab dst srcva n e m d :
  (n < f)%nat -> 0 <= srcva < 2 ^ 64 -> uspace_ok d root tab ->
  exists r bs, copyin_loop f root dst srcva (Z.of_nat n) e (mkK m d) = Ret (r, dst ++ bs) e (mkK m d) /\
    ((r = 0 /\ (forall x, in_copy srcva (Z.of_nat n) x -> umapped (mem d) root x = true) /\
      bs = ubytes (mem d) root srcva n) \/
     (r = -1 /\ exists x, in_copy srcva (Z.of_nat n) x /\ umapped (mem d) root x = false)).
Proof.
  revert dst srcva n. induction f as [|f IH]; intros dst srcva n Hf Hva Hu; [lia|]. cbn [copyin_loop].
  unfold in_copy. destruct (Z.leb_spec (Z.of_nat n) 0) as [Hn|Hn].
  { exists 0, []. rewrite app_nil_r. split; [done|]. left. split_and!; [done|intros; lia|]. by replace n with O by lia. }
  destruct (pgrounddown_facts srcva Hva) as (Ha1 & Ha2 & Ha3). set (va0 := PGROUNDDOWN srcva) in *.
  assert (samepage srcva va0) as Hs. { unfold samepage, PGSIZE in *. Z.to_euclidean_division_equations; lia. }
  assert (srcva mod PGSIZE = srcva - va0) as Hoff by (unfold PGSIZE in *; Z.to_euclidean_division_equations; lia).
  mcall (walkaddr_run d root tab va0 e m Hu Ha3).
  rewrite <- (umapped_samepage (mem d) root srcva va0), <- (pte_of_samepage (mem d) root srcva va0) by (done || lia).
  destruct (umapped (mem d) root srcva) eqn:Em.
  2: { exists (-1), []. rewrite app_nil_r. split; [done|]. right. split; [done|]. exists srcva. split; [lia|done]. }
  destruct (us_frame _ _ _ Hu srcva ltac:(lia) Em) as [Hpg Hno].
  rewrite (proj2 (Z.eqb_neq _ 0)) by (destruct Hpg, Hu; lia). unfold getmem. mrun.
  set (k := Z.min (PGSIZE - (srcva - va0)) (Z.of_nat n)). assert (1 <= k <= Z.of_nat n) by (unfold PGSIZE in *; lia).
  rewrite <- Hoff. fold (uphys (mem d) root srcva). rewrite peekn_ubytes by (unfold PGSIZE in *; lia).
  assert (va0 + PGSIZE <= MAXVA) as Hmax.
  { unfold umapped in Em. rewrite MAXVA_eq in *. unfold PGSIZE in *. Z.to_euclidean_division_equations; lia. }
  rewrite MAXVA_eq in Hmax. rewrite u64_small by (unfold PGSIZE in *; lia).
  replace (Z.of_nat n - k) with (Z.of_nat (n - Z.to_nat k)) by lia.
  destruct (IH (dst ++ ubytes (mem d) root srcva (Z.to_nat k)) (va0 + PGSIZE) (n - Z.to_nat k)%nat)
    as (r & bs & -> & I2); [lia|unfold PGSIZE in *; lia|done|]. unfold in_copy in I2.
  assert (forall x, srcva <= x < srcva + Z.of_nat n <->
    (srcva <= x < srcva + k \/ va0 + PGSIZE <= x < va0 + PGSIZE + Z.of_nat (n - Z.to_nat k))) as Hsplit by lia.
  exists r, (ubytes (mem d) root srcva (Z.to_nat k) ++ bs). rewrite app_assoc. split; [done|].
  destruct I2 as [(-> & I2a & ->)|(-> & x & Hx & Hmx)].
  - left. split; [done|]. split.
    + intros x [Hx|Hx]%Hsplit; [|by apply I2a]. rewrite (umapped_samepage _ _ x srcva); [done|lia..|].
      unfold samepage, PGSIZE in *. Z.to_euclidean_division_equations; lia.
    + replace n with (Z.to_nat k + (n - Z.to_nat k))%nat at 2 by lia. rewrite ubytes_app. f_equal.
      destruct (decide (n - Z.to_nat k = 0)%nat) as [->|]; [done|]. f_equal. lia.
  - right. split; [done|]. exists x. rewrite Hsplit. tauto.
Qed.

(** C18: copyout() writes exactly the requested user bytes.  It returns; it
    returns 0 iff every byte of [dstva .. dstva+len) is mapped for the user, and
    then these bytes hold [src]; else -1.  No other user byte changes, the page table
    stays as it was, and only the frames behind the range change. *)
Theorem copyout_spec root tab dstva src e m d
  (Hva : 0 <= dstva < 2 ^ 64) (Hu : uspace_ok d root tab) :
  let len := Z.of_nat (length src) in
  exists r d', copyout root dstva src e (mkK m d) = Ret r e (mkK m d') /\
    uspace_ok d' root tab /\ (forall x, pte_of (mem d') root x = pte_of (mem d) root x) /\
    only_pages (fun q => exists x, in_copy dstva len x /\ umapped (mem d) root x = true /\
                  q = PTE2PA (pte_of (mem d) root x)) d d' /\
    ((r = 0 /\ (forall x, in_copy dstva len x -> umapped (mem d) root x = true) /\
      ubytes (mem d') root dstva (length src) = src) \/
     (r = -1 /\ exists x, in_copy dstva len x /\ umapped (mem d) root x = false)) /\
    (forall y, 0 <= y -> umapped (mem d) root y = true -> ~ in_copy dstva len y ->
       mem d' (uphys (mem d') root y) = mem d (uphys (mem d) root y)).
Proof.
  intros len. destruct (copyout_loop_spec (S (length src)) root tab dstva src e m d) as (r & d' & H1 & H2 & H3 & H4);
    [lia|done..|].
  destruct (uspace_ok_frame d d' root tab Hu) as [Hu' Hpte].
  { eapply only_pages_mono; [|exact H2]. intros q (x & Hx & Hmx & ->). unfold in_copy in Hx.
    destruct (us_frame _ _ _ Hu x) as [Hp Hn]; [lia|done|]. split; [done|apply Hp]. }
  assert (forall x, uphys (mem d') root x = uphys (mem d) root x) as Hup by (intros; unfold uphys; by rewrite Hpte).
  exists r, d'. unfold copyout. split_and!; try done.
  - destruct H3 as [(-> & H3a & H3b)|H3]; [left|by right]. split_and!; try done.
    apply (nth_ext _ _ 0 0); [unfold ubytes; by rewrite length_map, length_seq|].
    unfold ubytes. rewrite length_map, length_seq. intros i Hi.
    rewrite (nth_indep _ 0 (mem d' (uphys (mem d') root (dstva + Z.of_nat 0)))) by (by rewrite length_map, length_seq).
    rewrite (map_nth (fun i => mem d' (uphys (mem d') root (dstva + Z.of_nat i)))), seq_nth by done.
    simpl. rewrite Hup, H3b by lia. f_equal. lia.
  - intros y Hy Hmy Hny. rewrite Hup. by apply H4.
Qed.

(** Copyin() reads exactly the requested user bytes: it returns 0 with these
    bytes iff all of them are mapped for the user, else -1; nothing changes. *)
Theorem copyin_spec root tab srcva n e m d
  (Hva : 0 <= srcva < 2 ^ 64) (Hu : uspace_ok d root tab) :
  exists r bs, copyin root srcva (Z.of_nat n) e (mkK m d) = Ret (r, bs) e (mkK m d) /\
    ((r = 0 /\ (forall x, in_copy srcva (Z.of_nat n) x -> umapped (mem d) root x = true) /\
      bs = ubytes (mem d) root srcva n) \/
     (r = -1 /\ exists x, in_copy srcva (Z.of_nat n) x /\ umapped (mem d) root x = false)).
Proof.
  unfold copyin. rewrite Nat2Z.id.
  destruct (copyin_loop_spec (S n) root tab [] srcva n e m d) as (r & bs & H1 & H2); [lia|done..|].
  exists r, bs. split; [exact H1|exact H2].
Qed.

(** ** A concrete address space: page 0 mapped, three table pages *)

(** A page table whose root page is all zero. *)
Definition tab_root (root : Z) : tables := fun p => match p with [] => Some root | _ => None end.

Lemma pt_ok_empty d root :
  page_ok d root -> (forall a, root <= a < root + PGSIZE -> mem d a = 0) -> pt_ok d root (tab_root root).
Proof.
  intros Hp Hz. split; try done.
  - intros [|] [|] q; simpl; congruence.
  - intros [|] q; simpl; [by intros [= <-]|done].
  - intros [|] q; simpl; [lia|done].
  - intros [|x [|]] i c; done.
  - intros [|] q i; simpl; [|done]. intros [= <-] _ Hi.
    rewrite (ld64_ext _ (fun _ => 0)); [done|]. intros x Hx. apply Hz. unfold PGSIZE. lia.
Qed.

Definition Rt : Z := 0x87fff000.
Definition P1 : Z := 0x87ffe000.
Definition P2 : Z := 0x87ffd000.
Definition Uf : Z := 0x87ffc000.
Definition tabC : tables := (tab_root Rt).[[0] := Some P1].[[0; 0] := Some P2].
Definition dC : kdata := link_child (link_child kdata0 Rt 0 P1) P1 0 P2.
Definition dD : kdata := set_mem (st64 (mem dC) (slot tabC 0) (Z.lor (PA2PTE Uf) 31)) dC.

Lemma page_ok0 q : q ∈ [Rt; P1; P2; Uf] -> page_ok kdata0 q.
Proof.
  rewrite !elem_of_cons, elem_of_nil. intros H. unfold page_ok.
  destruct H as [->|[->|[->|[->|[]]]]]; (split; [reflexivity|split; vm_compute; congruence]).
Qed.

Lemma pt_ok_A : pt_ok kdata0 Rt (tab_root Rt).
Proof. apply pt_ok_empty; [apply page_ok0; by constructor|done]. Qed.

Lemma owned_root q : owned (tab_root Rt) q <-> q = Rt.
Proof. split; [intros [[|] H]; simpl in H; congruence|intros ->; by exists []]. Qed.

Lemma pt_ok_B : pt_ok (link_child kdata0 Rt 0 P1) Rt (tab_root Rt).[[0] := Some P1].
Proof.
  apply (link_child_ok kdata0 Rt (tab_root Rt) [] Rt 0 P1);
    [done|apply pt_ok_A|done|simpl; lia|lia|lia|done|apply page_ok0; by do 2 constructor|rewrite owned_root; done].
Qed.

Lemma owned_B q : owned (tab_root Rt).[[0] := Some P1] q -> q = Rt \/ q = P1.
Proof.
  intros [p H]. unfold fupd in H. case_decide; [right; congruence|left].
  apply owned_root. by exists p.
Qed.

Lemma pt_ok_C : pt_ok dC Rt tabC.
Proof.
  apply (link_child_ok _ Rt _ [0] P1 0 P2);
    [done|apply pt_ok_B|done|simpl; lia|lia|done|done|apply page_ok0; by do 3 constructor|intros [H|H]%owned_B; done].
Qed.

Lemma tabC_path0 : tabC (path 0) = Some P2.
Proof. reflexivity. Qed.

Lemma pte_C x : pte_at (mem dC) tabC x = 0.
Proof.
  unfold dC, tabC.
  rewrite (link_child_pte _ Rt _ [0] P1 0 P2);
    [|apply pt_ok_B|done|simpl; lia|lia|done|apply page_ok0; by do 3 constructor|intros [H|H]%owned_B; done].
  rewrite (link_child_pte kdata0 Rt (tab_root Rt) [] Rt 0 P1);
    [|apply pt_ok_A|done|simpl; lia|lia|done|apply page_ok0; by do 2 constructor|rewrite owned_root; done].
  unfold pte_at, tab_root, path. done.
Qed.

Lemma owned_C q : owned tabC q -> q = Rt \/ q = P1 \/ q = P2.
Proof. intros [p H]. unfold tabC, fupd in H. repeat case_decide; [right; right; congruence|right; left; congruence|left]. apply owned_root. by exists p. Qed.

Lemma pt_D : pt_ok dD Rt tabC /\
  forall x, 0 <= x < MAXVA -> pte_at (mem dD) tabC x = if decide (samepage 0 x) then Z.lor (PA2PTE Uf) 31 else 0.
Proof.
  destruct (leaf_store dC Rt tabC 0 (Z.lor (PA2PTE Uf) 31)) as (H1 & H2 & _); [done|apply pt_ok_C|done|done|].
  split; [exact H1|]. intros x Hx. unfold dD. rewrite H2 by done. case_decide; [done|apply pte_C].
Qed.

Lemma vm_ok_D : vm_ok dD Rt [] tabC.
Proof. split; [done|by split; [|constructor..]|apply pt_D|]. intros q _. apply not_elem_of_nil. Qed.

Lemma pte_of_D x : 0 <= x < MAXVA -> pte_of (mem dD) Rt x = if decide (samepage 0 x) then Z.lor (PA2PTE Uf) 31 else 0.
Proof. intros Hx. rewrite (pte_of_at dD Rt tabC (proj1 pt_D)). by apply pt_D. Qed.

Lemma umapped_D x : 0 <= x -> umapped (mem dD) Rt x = true -> samepage 0 x.
Proof.
  intros Hx Hm. unfold umapped in Hm. apply andb_prop in Hm as [[Hlt%Z.ltb_lt Hv]%andb_prop _].
  rewrite pte_of_D in Hv by done. by case_decide.
Qed.

Lemma umapped_D0 x : 0 <= x < 4096 -> umapped (mem dD) Rt x = true.
Proof.
  intros Hx. unfold umapped. rewrite pte_of_D by (rewrite MAXVA_eq; lia).
  rewrite decide_True; [|apply samepage_range; [done|]; change (PGROUNDDOWN 0) with 0; unfold PGSIZE; lia].
  rewrite (proj2 (Z.ltb_lt _ _)) by (rewrite MAXVA_eq; lia). reflexivity.
Qed.

Lemma uspace_ok_D : uspace_ok dD Rt tabC.
Proof.
  assert (forall x, 0 <= x -> umapped (mem dD) Rt x = true -> PTE2PA (pte_of (mem dD) Rt x) = Uf) as HU.
  { intros x Hx Hm. rewrite <- (pte_of_samepage _ _ 0 x) by by apply umapped_D. rewrite pte_of_D by done. reflexivity. }
  split; [apply pt_D|done|..].
  - intros x Hx Hm. rewrite HU by done. split; [apply page_ok0; by do 4 constructor|].
    intros [H|[H|H]]%owned_C; done.
  - intros x y Hx Hy Hmx Hmy _. unfold samepage. rewrite <- (umapped_D x), <- (umapped_D y) by done. done.
Qed.

Lemma page_okD : page_ok dD Uf.
Proof. apply (page_ok0 Uf). by do 4 constructor. Qed.

#[local] Opaque dD tabC.

Lemma mappages_spec_witness :
  exists r m' d', mappages Rt 4096 4096 Uf 6 [] (mkK machine0 dD) = Ret r [] (mkK m' d') /\
    translate (mem d') Rt 0 = translate (mem dD) Rt 0.
Proof.
  destruct (mappages_spec Rt tabC [] 4096 4096 Uf 6 [] machine0 dD mach_ok0 (lk_free0 _) vm_ok_D)
    as (r & k & m' & d' & l' & tab' & H1 & _ & _ & _ & _ & H2);
    [lia|lia|lia|rewrite MAXVA_eq; lia|split; [reflexivity|unfold Uf, PGSIZE; lia]|..].
  - intros x Hx. change (PGROUNDDOWN 4096) with 4096 in Hx. change (PGROUNDDOWN (4096 + 4096 - 1)) with 4096 in Hx.
    unfold translate. rewrite pte_of_D by (rewrite MAXVA_eq; unfold PGSIZE in *; lia).
    rewrite decide_False; [done|]. rewrite samepage_range by done. unfold PGSIZE in *. lia.
  - exists r, m', d'. split; [exact H1|].
    etransitivity; [apply (H2 0); rewrite MAXVA_eq; lia|]. rewrite decide_False; [reflexivity|].
    change (PGROUNDDOWN 4096) with 4096. lia.
Defined.

Lemma uvmunmap_spec_witness :
  exists m' d', uvmunmap Rt 0 1 true [] (mkK machine0 dD) = Ret tt [] (mkK m' d') /\
    kmem_ok d' [Uf] /\ translate (mem d') Rt 0 = None.
Proof.
  assert (pte_at (mem dD) tabC 0 = Z.lor (PA2PTE Uf) 31) as E.
  { destruct pt_D as [_ H]. rewrite (H 0) by (rewrite MAXVA_eq; lia). reflexivity. }
  assert (frame_of (mem dD) tabC 0 = Uf) as EU by (unfold frame_of; rewrite E; reflexivity).
  destruct (uvmunmap_spec Rt tabC [] true 1 0 [] machine0 dD mach_ok0 (lk_free0 _) vm_ok_D) as [H _].
  - lia.
  - vm_compute. congruence.
  - split.
    + intros a Ha. apply list_elem_of_singleton in Ha as ->. change (0 + Z.of_nat 0 * PGSIZE) with 0.
      rewrite EU, E. split; [reflexivity|]. split; [discriminate|]. intros _. split; [apply page_okD|].
      split; [apply not_elem_of_nil|]. intros [H|[H|H]]%owned_C; discriminate.
    + intros _. apply NoDup_singleton.
  - destruct (H eq_refl) as (m' & d' & H1 & _ & H2 & _ & H3). exists m', d'. split; [exact H1|]. split.
    + cbn [npages_from map seq rev app] in H2. change (0 + Z.of_nat 0 * PGSIZE) with 0 in H2. rewrite EU in H2. apply H2.
    + etransitivity; [apply (H3 0); rewrite MAXVA_eq; lia|]. reflexivity.
Defined.

Lemma copyout_spec_witness :
  exists r d', copyout Rt 5 [65; 66] [] (mkK machine0 dD) = Ret r [] (mkK machine0 d') /\
    (r = 0 -> ubytes (mem d') Rt 5 2 = [65; 66]).
Proof.
  destruct (copyout_spec Rt tabC 5 [65; 66] [] machine0 dD) as (r & d' & H1 & _ & _ & _ & H2 & _);
    [lia|apply uspace_ok_D|].
  exists r, d'. split; [exact H1|]. intros Hr. destruct H2 as [H2|H2].
  - exact (proj2 (proj2 H2)).
  - destruct H2 as [H2 H3]. clear H1 H3. lia.
Defined.

Lemma copyin_spec_witness :
  exists r bs, copyin Rt 5 2 [] (mkK machine0 dD) = Ret (r, bs) [] (mkK machine0 dD).
Proof.
  destruct (copyin_spec Rt tabC 5 2 [] machine0 dD) as (r & bs & H1 & _); [lia|apply uspace_ok_D|].
  exists r, bs. exact H1.
Defined.
