(* ===== verification/ProcMem.v ===== *)
(** * Process slots and process memory (first half of kernel/proc.c)

    allocpid, allocproc, freeproc, the process page table, growproc, procinit,
    and the copies to and from either user or kernel memory.  The kernel side of
    a copy is physical memory ([DMem]) or a local variable of the caller, whose
    bytes are passed as a list ([DLocal], [SLocal]). *)

From S2P Require Import Prelude State Spinlock CString Kalloc Sched Vm.
Open Scope Z_scope.

(** ** Copies to user or kernel addresses *)

Inductive kdst := DUser (va : Z) | DMem (pa : Z) | DLocal.
Inductive ksrc := SUser (va : Z) | SLocal (l : list Z).

(** dst + n *)
Definition dst_add (dst : kdst) (n : Z) : kdst :=
  match dst with DUser a => DUser (u64 (a + n)) | DMem a => DMem (a + n) | DLocal => DLocal end.
Definition src_add (src : ksrc) (n : Z) : ksrc :=
  match src with SUser a => SUser (u64 (a + n)) | SLocal l => SLocal (drop (Z.to_nat n) l) end.

Definition either_copyout (dst : kdst) (src : list Z) : M Z :=
  let* p := myproc in
  match dst with
  | DUser va => let* p := deref p in
                let* pt := getp p p_pagetable in
                copyout pt va src
  | DMem pa => setmem (fun m => memput m pa src);; ret 0
  | DLocal => ret 0
  end.

(** The result and the bytes stored to the kernel buffer. *)
Definition either_copyin (src : ksrc) (len : Z) : M (Z * list Z) :=
  let* p := myproc in
  match src with
  | SUser va => let* p := deref p in
                let* pt := getp p p_pagetable in
                copyin pt va len
  | SLocal l => ret (0, take (Z.to_nat len) l)
  end.

(** ** Page tables of processes *)

Definition proc_pagetable (p : nat) : M Z :=
  (* An empty page table. *)
  let* pagetable := uvmcreate in
  if pagetable =? 0 then ret 0 else
  let* trampoline := gets (fun d => sy_trampoline (syms d)) in
  let* r := mappages pagetable TRAMPOLINE PGSIZE trampoline (Z.lor PTE_R PTE_X) in
  if r <? 0 then uvmfree pagetable 0;; ret 0 else
  let* tf := getp p p_trapframe in
  let* r := mappages pagetable TRAPFRAME PGSIZE tf (Z.lor PTE_R PTE_W) in
  if r <? 0 then uvmunmap pagetable TRAMPOLINE 1 false;; uvmfree pagetable 0;; ret 0 else
  ret pagetable.

Definition proc_freepagetable (pagetable sz : Z) : M unit :=
  uvmunmap pagetable TRAMPOLINE 1 false;;
  uvmunmap pagetable TRAPFRAME 1 false;;
  uvmfree pagetable sz.

(** ** Process slots *)

Definition freeproc (p : nat) : M unit :=
  let* tf := getp p p_trapframe in
  when (negb (tf =? 0)) (kfree tf);;
  setp p (set_p_trapframe 0);;
  let* pt := getp p p_pagetable in
  let* sz := getp p p_sz in
  when (negb (pt =? 0)) (proc_freepagetable pt sz);;
  setp p (set_p_pagetable 0);;
  setp p (set_p_sz 0);;
  setp p (set_p_pid 0);;
  setp p (set_p_parent None);;
  setp p (fun q => set_p_name (p_name q).[0 := 0] q);;
  setp p (set_p_chan None);;
  setp p (set_p_killed 0);;
  setp p (set_p_xstate 0);;
  setp p (set_p_ctime 0);;
  setp p (set_p_readyTime 0);;
  setp p (set_p_ttime 0);;
  setp p (set_p_retime 0);;
  setp p (set_p_rutime 0);;
  setp p (set_p_average_bursttime 0);;
  setp p (set_p_state UNUSED).

Definition allocpid : M Z :=
  acquire LK_pid;;
  let* pid := gets nextpid in
  modify (set_nextpid (i32 (pid + 1)));;
  release LK_pid;;
  ret pid.

(** The code at label [found]. *)
Definition alloc_found (p : nat) : M (option nat) :=
  let* pid := allocpid in
  setp p (set_p_pid pid);;
  setp p (set_p_state USED);;
  setp p (set_p_mask 0);;
  setp p (set_p_tickcounter 0);;
  setp p (set_p_priority NORMAL_PRIORITY);;
  setp p (set_p_average_bursttime (QUANTUM * 100));;
  let* t := gets ticks in
  setp p (set_p_ctime (i32 t));;
  setp p (set_p_readyTime t);;
  setp p (set_p_rutime 0);;
  (* Allocate a trapframe page. *)
  let* tf := kalloc in
  setp p (set_p_trapframe tf);;
  if tf =? 0 then freeproc p;; release (LK_proc p);; ret None else
  (* An empty user page table. *)
  let* pt := proc_pagetable p in
  setp p (set_p_pagetable pt);;
  if pt =? 0 then freeproc p;; release (LK_proc p);; ret None else
  (* Set up new context to start executing at forkret. *)
  let* forkret := gets (fun d => sy_forkret (syms d)) in
  setp p (fun q => set_p_context (mkContext forkret (p_kstack q + PGSIZE) (repeat 0 12)) q);;
  ret (Some p).

Definition allocproc : M (option nat) :=
  let* r := forE all_procs (fun p =>
    acquire (LK_proc p);;
    let* st := getp p p_state in
    if bool_decide (st = UNUSED) then ret (Some p)
    else release (LK_proc p);; ret None) in
  match r with
  | None => ret None
  | Some p => alloc_found p
  end.

Definition procinit : M unit :=
  initlock LK_pid "nextpid";;
  initlock LK_wait "wait_lock";;
  forM all_procs (fun p =>
    initlock (LK_proc p) "proc";;
    setp p (set_p_kstack (KSTACK (Z.of_nat p)))).

(** The local [sz] is a 32-bit uint; [sz + n] is computed in it. *)
Definition growproc (n : Z) : M Z :=
  let* p := myproc_deref in
  let* sz64 := getp p p_sz in
  let* pt := getp p p_pagetable in
  let sz := u32 sz64 in
  if 0 <? n then
    let* r := uvmalloc pt sz (u32 (sz + n)) in
    let sz := u32 r in
    if sz =? 0 then ret (-1) else setp p (set_p_sz sz);; ret 0
  else if n <? 0 then
    let* r := uvmdealloc pt sz (u32 (sz + n)) in
    setp p (set_p_sz (u32 r));; ret 0
  else
    setp p (set_p_sz sz);; ret 0.
