(* ===== verification/Wp.v ===== *)
(** * Weakest preconditions for uninterrupted runs

    [wp p hl f d Q]: run by process [p] with exactly the spin locks [hl] held
    (innermost first), from data [d], the function [f] returns, whatever the
    schedule, without waiting; result, locks held and data then satisfy [Q].
    The rules below run the primitive steps, locks, wakeup() and loops.  [frame d d']
    says that only the file system's memory and the way processes are scheduled
    may have changed. *)

From S2P Require Import Prelude State Spinlock Kalloc Sched.
Open Scope Z_scope.

(** Process [p] runs on this CPU, with no spin lock held. *)
Definition quiet (p : nat) (m : machine) : Prop :=
  mach_ok m /\ (forall lk, lk_free m lk) /\ noff (mycpu_of m) = 0 /\ c_proc (mycpu_of m) = Some p.

Definition macqs (hl : list lockid) (m : machine) : machine := foldr macq m hl.

Definition wp {A} (p : nat) (hl : list lockid) (f : M A) (d : kdata)
    (Q : A -> list lockid -> kdata -> Prop) : Prop :=
  forall m0 m e, quiet p m0 -> msame (macqs hl m0) m ->
    exists a hl' m' d', f e (mkK m d) = Ret a e (mkK m' d') /\ msame (macqs hl' m0) m' /\ Q a hl' d'.

(** The fields of a process that scheduling does not touch. *)
Definition proc_rest (q : proc) :=
  (p_killed q, p_xstate q, p_pid q, p_mask q, p_priority q, p_ctime q, p_parent q, p_kstack q,
   p_sz q, p_pagetable q, p_trapframe q, p_ofile q, p_cwd q, p_name q).

Definition frame (d d' : kdata) : Prop :=
  (forall i, proc_rest (procs d' i) = proc_rest (procs d i)) /\ d' = set_fs (fs d') (set_procs (procs d') d).

Lemma frame_refl d : frame d d.
Proof. split; [done|]. by destruct d. Qed.

Lemma frame_trans d1 d2 d3 : frame d1 d2 -> frame d2 d3 -> frame d1 d3.
Proof.
  intros [H1 H2] [H3 H4]. split; [intros i; by rewrite H3|]. rewrite H4, H2. by destruct d1.
Qed.

Lemma frame_fs d f : frame d (set_fs f d).
Proof. split; [done|]. by destruct d. Qed.

Lemma frame_pid d d' i : frame d d' -> p_pid (procs d' i) = p_pid (procs d i).
Proof. intros [H _]. specialize (H i). unfold proc_rest in H. congruence. Qed.

Lemma frame_wakeup chan me d : frame d (wakeup_d chan me d).
Proof.
  split; [|by destruct d]. intros i. unfold wakeup_d, upd_procs, wake_proc. simpl.
  case_decide; [|done]. case_bool_decide; [|done]. by destruct (_ && _).
Qed.

#[export] Hint Resolve frame_refl frame_fs frame_wakeup : kdb.

(** ** The machine with locks held *)

Lemma macqs_ok hl m : mach_ok m -> mach_ok (macqs hl m).
Proof. intros H. induction hl; simpl; [done|by apply macq_ok]. Qed.

Lemma macqs_free hl m lk : lk ∉ hl -> lk_free m lk -> lk_free (macqs hl m) lk.
Proof.
  intros Hn H. induction hl as [|k hl IH]; simpl; [done|].
  apply not_elem_of_cons in Hn as [Hn1 Hn2]. apply macq_free; [congruence|by apply IH].
Qed.

Lemma macqs_c_proc hl m : c_proc (mycpu_of (macqs hl m)) = c_proc (mycpu_of m).
Proof. induction hl as [|k hl IH]; [done|]. change (macqs (k :: hl) m) with (macq k (macqs hl m)). by rewrite macq_c_proc. Qed.

Lemma quiet_same p m m' : msame m m' -> quiet p m -> quiet p m'.
Proof.
  intros Hs (H1 & H2 & H3 & H4). split_and!; [by eapply msame_ok|intros; by eapply msame_free| |].
  - by rewrite (msame_noff _ _ Hs).
  - by rewrite (msame_c_proc _ _ Hs).
Qed.

Lemma bind_ext {A B} (f : M A) (g g' : A -> M B) e s :
  (forall a e s, g a e s = g' a e s) -> bind f g e s = bind f g' e s.
Proof. intros H. unfold bind. by destruct (f e s). Qed.

(** ** Rules *)

Section wp.
Context {A : Type} (p : nat).
Implicit Types (hl : list lockid) (d : kdata) (Q : A -> list lockid -> kdata -> Prop).

Lemma wp_mono hl (f : M A) d Q Q' :
  wp p hl f d Q -> (forall a hl' d', Q a hl' d' -> Q' a hl' d') -> wp p hl f d Q'.
Proof.
  intros H HQ m0 m e Hq Hs. destruct (H m0 m e Hq Hs) as (a & hl' & m' & d' & H1 & H2 & H3).
  exists a, hl', m', d'. eauto.
Qed.

Lemma wp_ret hl a d Q : Q a hl d -> wp p hl (ret a) d Q.
Proof. intros H m0 m e _ Hs. by exists a, hl, m, d. Qed.

Lemma wp_bind {B} hl (f : M B) (g : B -> M A) d Q :
  wp p hl f d (fun b hl' d' => wp p hl' (g b) d' Q) -> wp p hl (bind f g) d Q.
Proof.
  intros H m0 m e Hq Hs. destruct (H m0 m e Hq Hs) as (b & hl' & m' & d' & H1 & H2 & H3).
  destruct (H3 m0 m' e Hq H2) as (a & hl2 & m2 & d2 & H4 & H5 & H6).
  exists a, hl2, m2, d2. by rewrite (bind_Ret _ _ _ _ _ _ _ H1).
Qed.

Lemma wp_gets hl (f : kdata -> A) d Q : Q (f d) hl d -> wp p hl (gets f) d Q.
Proof. intros H m0 m e _ Hs. by exists (f d), hl, m, d. Qed.

Lemma wp_getp hl i (f : proc -> A) d Q : Q (f (procs d i)) hl d -> wp p hl (getp i f) d Q.
Proof. intros H. by apply (wp_gets hl (fun d => f (procs d i))). Qed.

Lemma wp_eq hl (f g : M A) d Q : (forall e s, f e s = g e s) -> wp p hl g d Q -> wp p hl f d Q.
Proof. intros E H m0 m e Hq Hs. rewrite E. by apply H. Qed.

(** A loop that leaves in its first iteration. *)
Lemma wp_loop {X} hl (body : X -> M (X + A)) x d Q :
  wp p hl (body x) d (fun r hl' d' => match r with inr a => Q a hl' d' | inl _ => False end) ->
  wp p hl (loop body x) d Q.
Proof.
  intros H m0 m e Hq Hs. destruct (H m0 m e Hq Hs) as (r & hl' & m' & d' & H1 & H2 & H3).
  destruct r as [x'|a]; [done|]. exists a, hl', m', d'. split; [|done]. by apply loop_inr.
Qed.

(** A loop with a bounded number of rounds that let nobody else run: [I k x d]
    holds before a round when at most [k] rounds follow it. *)
Lemma wp_loop_for {X} hl k (body : X -> M (X + A)) (I : nat -> X -> kdata -> Prop) x d Q :
  I k x d ->
  (forall k x d, I k x d -> wp p hl (body x) d (fun r hl' d' =>
     match r with inr a => Q a hl' d' | inl x' => hl' = hl /\ exists k', k = S k' /\ I k' x' d' end)) ->
  wp p hl (loop_for k body x) d Q.
Proof.
  intros HI Hb m0 m e Hq Hs. unfold loop_for.
  assert (forall N k x d m, (k < N)%nat -> I k x d -> msame (macqs hl m0) m ->
    exists a hl' m' d', loop_n N body x e (mkK m d) = Ret a e (mkK m' d') /\ msame (macqs hl' m0) m' /\ Q a hl' d') as H.
  { clear -Hb Hq. induction N as [|N IH]; intros k x d m Hk HI Hs; [lia|]. cbn [loop_n].
    destruct (Hb k x d HI m0 m e Hq Hs) as (r & hl' & m1 & d1 & E & S1 & H1). rewrite (bind_Ret _ _ _ _ _ _ _ E).
    destruct r as [x'|a]; [|by exists a, hl', m1, d1]. destruct H1 as (-> & k' & -> & HI'). apply (IH k' x' d1 m1); [lia|done|done]. }
  apply (H _ k); [lia|done|done].
Qed.
End wp.

Section wp_unit.
Context (p : nat).
Implicit Types (hl : list lockid) (d : kdata) (Q : unit -> list lockid -> kdata -> Prop).

Lemma wp_modify hl f d Q : Q tt hl (f d) -> wp p hl (modify f) d Q.
Proof. intros H m0 m e _ Hs. by exists tt, hl, m, (f d). Qed.

Lemma wp_when hl (b : bool) f d Q :
  (b = true -> wp p hl f d Q) -> (b = false -> Q tt hl d) -> wp p hl (when b f) d Q.
Proof. intros H1 H2. destruct b; [by apply H1|by apply wp_ret, H2]. Qed.

Lemma wp_acquire hl lk d Q : lk ∉ hl -> Q tt (lk :: hl) d -> wp p hl (acquire lk) d Q.
Proof.
  intros Hn H m0 m e (Hm & Hf & _) Hs. exists tt, (lk :: hl), (macq lk m), d.
  rewrite acquire_run by (eapply msame_free; [done|by apply macqs_free]).
  split_and!; [done| |done]. simpl. rewrite (msame_macq _ _ _ Hs). apply msame_refl.
Qed.

Lemma wp_release hl lk d Q : lk ∉ hl -> Q tt hl d -> wp p (lk :: hl) (release lk) d Q.
Proof.
  intros Hn H m0 m e (Hm & Hf & _) Hs. simpl in Hs.
  rewrite (msame_in lk (macqs hl m0) m) by first [done|by apply macqs_ok].
  rewrite release_macq by first [by apply macqs_ok|by apply macqs_free].
  exists tt, hl, (msettle (macqs hl m0)), d. split_and!; [done|apply msame_settle|done].
Qed.

Lemma wp_wakeup hl chan d Q :
  (forall i, LK_proc i ∉ hl) -> (forall d', frame d d' -> fs d' = fs d -> d' = wakeup_d chan (Some p) d -> Q tt hl d') ->
  wp p hl (wakeup chan) d Q.
Proof.
  intros Hn HQ m0 m e (Hm & Hf & _ & Hc) Hs.
  rewrite wakeup_run.
  - eexists tt, hl, _, _. split; [done|]. split; [eapply msame_trans; [done|apply msame_settle]|].
    rewrite (msame_c_proc _ _ Hs), macqs_c_proc, Hc. apply HQ; [auto with kdb|done|done].
  - eapply msame_ok; [done|by apply macqs_ok].
  - intros i. eapply msame_free; [done|]. by apply macqs_free.
Qed.

Lemma wp_forM {X} hl (l : list X) (body : X -> M unit) (I : nat -> kdata -> Prop) d Q :
  I 0%nat d ->
  (forall i x d, l !! i = Some x -> I i d -> wp p hl (body x) d (fun _ hl' d' => hl' = hl /\ I (S i) d')) ->
  (forall d', I (length l) d' -> Q tt hl d') ->
  wp p hl (forM l body) d Q.
Proof.
  revert I d. induction l as [|x l IH]; intros I d H0 HI HQ; simpl.
  - by apply wp_ret, HQ.
  - apply wp_bind. eapply wp_mono; [by apply (HI 0%nat x)|]. intros [] hl' d' [-> H'].
    apply (IH (fun i => I (S i))); [done| |done]. intros i y d2 Hl. by apply HI.
Qed.
End wp_unit.

Lemma wp_myproc p hl d Q : Q (Some p) hl d -> wp p hl myproc d Q.
Proof.
  intros H m0 m e (Hm & Hf & _ & Hc) Hs. exists (Some p), hl, (msettle m), d.
  rewrite myproc_run by (eapply msame_ok; [done|by apply macqs_ok]).
  rewrite (msame_c_proc _ _ Hs), macqs_c_proc, Hc. split_and!; [done| |done].
  eapply msame_trans; [done|apply msame_settle].
Qed.

Lemma wp_myproc_deref p hl d Q : Q p hl d -> wp p hl myproc_deref d Q.
Proof. intros H. apply wp_bind, wp_myproc. simpl. by apply wp_ret. Qed.

(** A lock is not among those held. *)
Ltac lk_notin :=
  intros; repeat first [assumption | apply not_elem_of_nil | apply not_elem_of_cons; split; [discriminate|]].

(** Run the steps whose rule has no side condition to decide; later files
    extend [wp_extra] with their accessors. *)
Ltac wp_extra := fail.
Ltac wp_step :=
  lazymatch goal with
  | |- wp _ _ (bind _ _) _ _ => apply wp_bind
  | |- wp _ _ (ret _) _ _ => apply wp_ret
  | |- wp _ _ (gets _) _ _ => apply wp_gets
  | |- wp _ _ (getp _ _) _ _ => apply wp_getp
  | |- wp _ _ (modify _) _ _ => apply wp_modify
  | |- wp _ _ (setp _ _) _ _ => apply wp_modify
  | |- wp _ _ (acquire _) _ _ => apply wp_acquire; [lk_notin|]
  | |- wp _ _ (release _) _ _ => apply wp_release; [lk_notin|]
  | |- wp _ _ myproc _ _ => apply wp_myproc
  | |- wp _ _ myproc_deref _ _ => apply wp_myproc_deref
  | |- _ => wp_extra
  end; cbv beta.
Ltac wp_run := repeat wp_step.

(** ** A machine on which process 1 runs *)

Definition machine1 : machine := set_cpus (fun _ => set_c_proc (Some 1%nat) cpu0) machine0.

Lemma quiet1 : quiet 1 machine1.
Proof. split_and!; [done| |done|done]. intros lk. done. Qed.

(** From a [wp] to a run. *)
Lemma wp_run1 {A} p m (f : M A) d Q e :
  wp p [] f d Q -> quiet p m -> exists a hl m' d', f e (mkK m d) = Ret a e (mkK m' d') /\ Q a hl d'.
Proof.
  intros H Hq. destruct (H m m e Hq (msame_refl _)) as (a & hl & m' & d' & H1 & _ & H3). by exists a, hl, m', d'.
Qed.
