(* ===== verification/UvmSpec.v ===== *)
(** * User address spaces (kernel/vm.c)

    Where the pages of an address space come from and go to: uvmcopy() gives the
    copy its own frames, uvmalloc() and uvmdealloc() grow and shrink, and uvmfree()
    returns every frame and every table to the allocator. *)

From S2P Require Import Prelude State Spinlock CString Kalloc Sched Vm VmSpec ProcMem Wp.
Open Scope Z_scope.

(** ** freewalk *)

Definition idx : list Z := map Z.of_nat (seq 0 512).

Lemma elem_idx i : i ∈ idx <-> 0 <= i < 512.
Proof.
  unfold idx. rewrite list_elem_of_In, in_map_iff. setoid_rewrite in_seq. split; [intros (k & <- & Hk); lia|].
  intros H. exists (Z.to_nat i). lia.
Qed.

Lemma idx_nodup : NoDup idx.
Proof. apply NoDup_ListNoDup, Finite.Injective_map_NoDup; [intros x y; lia|apply seq_NoDup]. Qed.

(** A tree of tables of depth [n] below [q] without a leaf; [T] are its pages. *)
Fixpoint ptree (n : nat) (m : bytes) (q : Z) (T : list Z) : Prop :=
  exists Ts : Z -> list Z, T = q :: concat (map Ts idx) /\
  forall i, i ∈ idx ->
    let e := ld64 m (q + 8 * i) in
    if has e PTE_V then interior e /\ match n with O => False | S n' => ptree n' m (PTE2PA e) (Ts i) end
    else Ts i = [].

Lemma elem_concat_map {A} (f : A -> list Z) (js : list A) x : x ∈ concat (map f js) <-> exists i, i ∈ js /\ x ∈ f i.
Proof.
  rewrite list_elem_of_In, in_concat. split.
  - intros (l & (i & <- & Hi)%in_map_iff & Hx). exists i. split; by apply list_elem_of_In.
  - intros (i & Hi & Hx). exists (f i). split; [by apply in_map, list_elem_of_In|by apply list_elem_of_In].
Qed.

Lemma ptree_ext n m m' q T :
  (forall x a, x ∈ T -> x <= a < x + PGSIZE -> m' a = m a) -> ptree n m q T -> ptree n m' q T.
Proof.
  revert q T. induction n as [|n IH]; intros q T Hm (Ts & -> & H); exists Ts; (split; [done|]); intros i Hi; specialize (H i Hi);
    (rewrite (ld64_ext m' m) by (apply elem_idx in Hi; intros x Hx; apply (Hm q); [by constructor|unfold PGSIZE; lia])).
  - done.
  - cbv zeta in *. destruct (has _ _); [|done]. destruct H as [H1 H2]. split; [done|]. apply IH; [|done].
    intros x a Hx. apply Hm. constructor 2. apply elem_concat_map. eauto.
Qed.

Lemma ptree_head n m q T : ptree n m q T -> q ∈ T.
Proof. destruct n; intros (Ts & -> & _); by constructor. Qed.

(** The body of the loop of freewalk(). *)
Definition freewalk_entry (f : nat) (q i : Z) : M unit :=
  let* pte := getmem (fun m => ld64 m (q + 8 * i)) in
  if has pte PTE_V && (Z.land pte (Z.lor (Z.lor PTE_R PTE_W) PTE_X) =? 0) then
    freewalk_n f (PTE2PA pte);;
    setmem (fun m => st64 m (q + 8 * i) 0)
  else if has pte PTE_V then panic "freewalk: leaf"
  else ret tt.

(** What a run that frees the pages [T] leaves. *)
Definition frees (T : list Z) (l : list Z) (d d' : kdata) : Prop :=
  exists T', T' ≡ₚ T /\ kmem_ok d' (T' ++ l) /\ only_pages (fun x => x ∈ T) d d'.

(** The tree below an entry of a table at depth [n]. *)
Definition subtree (n : nat) (m : bytes) (q : Z) (T : list Z) : Prop := match n with O => False | S n' => ptree n' m q T end.

Lemma subtree_ext n m m' q T :
  (forall x a, x ∈ T -> x <= a < x + PGSIZE -> m' a = m a) -> subtree n m q T -> subtree n m' q T.
Proof. destruct n; [done|]. apply ptree_ext. Qed.

Section Entries.
Context (f n : nat) (q : Z) (Ts : Z -> list Z).
Hypothesis Hchild : forall c T l e m d,
  mach_ok m -> lk_free m LK_kmem -> 0 < sy_end (syms d) -> kmem_ok d l -> subtree n (mem d) c T -> NoDup (T ++ l) -> Forall (page_ok d) T ->
  exists m' d', freewalk_n f c e (mkK m d) = Ret tt e (mkK m' d') /\ msame m m' /\ frees T l d d'.

(** The children freed before leave the rest of the table and its trees as they were. *)
Lemma entry_step js i T1 l d d1 :
  0 <= i < 512 -> (i ∉ js) -> (forall j, j ∈ js -> 0 <= j < 512) -> q mod PGSIZE = 0 -> T1 ≡ₚ Ts i ->
  NoDup (q :: Ts i ++ concat (map Ts js) ++ l) -> Forall (page_ok d) (Ts i) -> Forall (page_ok d) (concat (map Ts js)) ->
  only_pages (fun x => x ∈ Ts i) d d1 -> kmem_ok d1 (T1 ++ l) ->
  (forall j, j ∈ js -> let x := ld64 (mem d) (q + 8 * j) in
     if has x PTE_V then interior x /\ subtree n (mem d) (PTE2PA x) (Ts j) else Ts j = []) ->
  let d2 := set_mem (st64 (mem d1) (q + 8 * i) 0) d1 in
  kmem_ok d2 (T1 ++ l) /\ only_pages (fun x => x = q \/ x ∈ Ts i) d d2 /\
  forall j, j ∈ js -> let x := ld64 (mem d2) (q + 8 * j) in
     if has x PTE_V then interior x /\ subtree n (mem d2) (PTE2PA x) (Ts j) else Ts j = [].
Proof using.
  intros Hi Hni Hr Hq E1 HT Hp1 Hp2 Ho Hk He d2. apply NoDup_cons in HT as [HqT HT]. rewrite !elem_of_app in HqT.
  apply NoDup_app in HT as (_ & HT & _). rewrite Forall_forall in Hp1, Hp2.
  assert (forall x a, x mod PGSIZE = 0 -> x <> q -> x <= a < x + PGSIZE -> st64 (mem d1) (q + 8 * i) 0 a = mem d1 a) as Hst.
  { intros x a Hx Hne Ha. apply st64_out. destruct (pages_apart x q Hx Hq Hne); unfold PGSIZE in *; lia. }
  assert (forall x a, x mod PGSIZE = 0 -> (x ∉ Ts i) -> x <= a < x + PGSIZE -> mem d1 a = mem d a) as Hkp.
  { intros x a Hx Hne Ha. apply (op_mem _ _ _ Ho). apply (off_pages_apart _ x); [done..|]. intros y Hy. split; [apply (Hp1 y Hy)|]. by intros ->. }
  split_and!.
  - eapply kmem_ok_frame; [exact Hk|done|done|]. intros x a Hx Ha. destruct Hk as [_ _ Hf]. rewrite Forall_forall in Hf.
    apply (Hst x); [apply (Hf x Hx)| |done]. intros ->. rewrite elem_of_app, E1 in Hx. tauto.
  - eapply only_pages_mono; [|eapply only_pages_trans; [exact Ho|apply (only_pages_set_mem (fun x => x = q))]].
    + cbv beta. intros x. tauto.
    + intros a Ha. apply st64_out. specialize (Ha q eq_refl). unfold PGSIZE in Ha. lia.
  - intros j Hj. pose proof (Hr j Hj) as Hjr. specialize (He j Hj). assert (j <> i) as Hji by (intros ->; done).
    assert (ld64 (mem d2) (q + 8 * j) = ld64 (mem d) (q + 8 * j)) as ->.
    { unfold d2. cbn [mem set_mem]. rewrite ld64_st64_ne by lia. apply ld64_ext. intros a Ha. apply (Hkp q); [done|tauto|unfold PGSIZE; lia]. }
    cbv zeta in *. destruct (has _ _); [|done]. destruct He as [H1 H2]. split; [done|]. eapply subtree_ext; [|exact H2].
    intros x a Hx Ha. assert (x ∈ concat (map Ts js)) as Hc by (apply elem_concat_map; eauto). pose proof (proj1 (Hp2 x Hc)) as Hxp.
    unfold d2. cbn [mem set_mem]. rewrite (Hst x), (Hkp x); try done.
    + intros Hx2. apply (HT x Hx2). rewrite elem_of_app. by left.
    + intros ->. tauto.
Qed.

Lemma freewalk_entries (js l : list Z) e m d :
  mach_ok m -> lk_free m LK_kmem -> 0 < sy_end (syms d) -> kmem_ok d l -> NoDup js -> (forall i, i ∈ js -> 0 <= i < 512) ->
  q mod PGSIZE = 0 -> NoDup (q :: concat (map Ts js) ++ l) -> Forall (page_ok d) (concat (map Ts js)) ->
  (forall i, i ∈ js -> let x := ld64 (mem d) (q + 8 * i) in
     if has x PTE_V then interior x /\ subtree n (mem d) (PTE2PA x) (Ts i) else Ts i = []) ->
  exists m' d' T', forM js (freewalk_entry f q) e (mkK m d) = Ret tt e (mkK m' d') /\ msame m m' /\
    T' ≡ₚ concat (map Ts js) /\ kmem_ok d' (T' ++ l) /\ only_pages (fun x => x = q \/ x ∈ T') d d'.
Proof using Hchild.
  revert l m d. induction js as [|i js IH]; intros l m d Hm Hl Hend Hk Hnd Hr Hq HT Hpg He.
  { exists m, d, []. split; [done|]. split; [apply msame_refl|]. split; [done|]. split; [done|]. apply only_pages_refl. }
  cbn [forM]. unfold freewalk_entry at 1, getmem. mrun. apply NoDup_cons in Hnd as [Hni Hnd]. cbn [map concat] in *.
  rewrite <- app_assoc in HT. apply Forall_app in Hpg as [Hp1 Hp2].
  assert (0 <= i < 512) as Hi by (apply Hr; by constructor). assert (forall j, j ∈ js -> 0 <= j < 512) as Hr' by (intros j Hj; apply Hr; by constructor).
  pose proof (He i ltac:(by constructor)) as Hei. cbv zeta in Hei. assert (forall j, j ∈ js -> _) as He' by (intros j Hj; exact (He j ltac:(by constructor))).
  destruct (has (ld64 (mem d) (q + 8 * i)) PTE_V) eqn:Ev.
  2: { rewrite Hei in *. cbn [andb]. mrun. by destruct (IH l m d) as (m' & d' & T' & H); [..|exists m', d', T']. }
  destruct Hei as [Hint Htr]. unfold interior in Hint. rewrite Hint. cbn [andb Z.eqb]. cbv iota. pose proof HT as [_ HT2]%NoDup_cons.
  destruct (Hchild (PTE2PA (ld64 (mem d) (q + 8 * i))) (Ts i) l e m d) as (m1 & d1 & Hrun & Hm1 & T1 & E1 & Hk1 & Ho1); try done.
  { apply NoDup_app in HT2 as (N1 & N2 & N3). apply NoDup_app in N3 as (_ & _ & N3). apply NoDup_app. split_and!; [done| |done].
    intros x Hx Hx2. apply (N2 x Hx), elem_of_app. by right. }
  destruct (entry_step js i T1 l d d1) as (S1 & S2 & S3); try done. set (d2 := set_mem _ d1) in *.
  assert ((freewalk_n f (PTE2PA (ld64 (mem d) (q + 8 * i)));; setmem (fun m => st64 m (q + 8 * i) 0)) e (mkK m d) = Ret tt e (mkK m1 d2)) as Hin.
  { rewrite (bind_Ret _ _ _ _ _ _ _ Hrun). done. }
  rewrite (bind_Ret _ _ _ _ _ _ _ Hin). pose proof (only_pages_syms _ _ _ S2) as Es.
  destruct (IH (T1 ++ l) m1 d2) as (m' & d' & T' & R1 & R2 & R3 & R4 & R5); try done; eauto with kdb.
  - by rewrite Es.
  - rewrite E1. by rewrite (app_assoc (concat _)), (Permutation_app_comm (concat _)), <- app_assoc.
  - eapply Forall_impl; [exact Hp2|]. intros x. unfold page_ok. by rewrite Es.
  - exists m', d', (T' ++ T1). split; [exact R1|]. split; [by eapply msame_trans|]. split_and!.
    + by rewrite R3, E1, Permutation_app_comm.
    + by rewrite <- app_assoc.
    + eapply only_pages_mono; [|eapply only_pages_trans; [exact S2|exact R5]]. cbv beta. intros x. rewrite elem_of_app, E1. tauto.
Qed.
End Entries.

Lemma freewalk_spec n : forall fuel q T l e m d, (n < fuel)%nat ->
  mach_ok m -> lk_free m LK_kmem -> 0 < sy_end (syms d) -> kmem_ok d l -> ptree n (mem d) q T -> NoDup (T ++ l) -> Forall (page_ok d) T ->
  exists m' d', freewalk_n fuel q e (mkK m d) = Ret tt e (mkK m' d') /\ msame m m' /\ frees T l d d'.
Proof.
  induction n as [n IH] using lt_wf_ind; intros fuel q T l e m d Hf Hm Hl Hend Hk Htr Hnd Hp. destruct fuel as [|fuel]; [lia|].
  assert (exists Ts, T = q :: concat (map Ts idx) /\ forall i, i ∈ idx -> let x := ld64 (mem d) (q + 8 * i) in
    if has x PTE_V then interior x /\ subtree n (mem d) (PTE2PA x) (Ts i) else Ts i = []) as (Ts & ET & He) by by destruct n.
  pose proof Hp as Hp'. rewrite ET in Hp', Hnd. apply Forall_cons in Hp' as [Hpq Hp'].
  cbn [freewalk_n]. change (map Z.of_nat (seq 0 512)) with idx. fold (freewalk_entry fuel q).
  destruct (freewalk_entries fuel n q Ts) with (js := idx) (l := l) (e := e) (m := m) (d := d) as (m1 & d1 & T1 & R1 & R2 & R3 & R4 & R5); try done.
  { intros c Tc lc ec mc dc. destruct n as [|n']; [done|]. intros. apply (IH n'); (done || lia). }
  { apply idx_nodup. } { intros i. by rewrite elem_idx. } { apply Hpq. }
  rewrite (bind_Ret _ _ _ _ _ _ _ R1). pose proof (only_pages_syms _ _ _ R5) as Es.
  assert (page_ok d1 q) as Hpq1 by (unfold page_ok; by rewrite Es).
  rewrite kfree_run by eauto with kdb. do 2 eexists. split; [done|]. split; [eapply msame_trans; [exact R2|apply msame_settle]|].
  exists (q :: T1). split_and!.
  - by rewrite R3, ET.
  - apply kfree_d_ok; [by rewrite Es|done|done|]. apply NoDup_cons in Hnd as [Hq _]. by rewrite elem_of_app, R3, <- elem_of_app.
  - eapply only_pages_mono; [|eapply only_pages_trans; [exact R5|apply kfree_d_only]]. cbv beta. intros x. rewrite ET, elem_of_cons, R3. tauto.
Qed.

(** ** The pages of a page table *)

Fixpoint tpages (n : nat) (tab : tables) (p : list Z) : list Z :=
  match tab p with
  | None => []
  | Some q => q :: match n with O => [] | S n' => concat (map (fun i => tpages n' tab (p ++ [i])) idx) end
  end.

Definition table_pages (tab : tables) : list Z := tpages 2 tab [].

Lemma NoDup_concat_map {A} (f : A -> list Z) js :
  NoDup js -> (forall i, i ∈ js -> NoDup (f i)) -> (forall i j x, i ∈ js -> j ∈ js -> x ∈ f i -> x ∈ f j -> i = j) -> NoDup (concat (map f js)).
Proof.
  induction js as [|i js IH]; intros Hn Hf Hd; [constructor|]. apply NoDup_cons in Hn as [Hni Hn]. cbn [map concat]. apply NoDup_app. split_and!.
  - apply Hf. by constructor.
  - intros x Hx (j & Hj & Hxj)%elem_concat_map. apply Hni. rewrite (Hd i j x); (done || by constructor).
  - apply IH; [done| |]; intros; [apply Hf|eapply Hd]; eauto; by constructor.
Qed.

Section Pages.
Context (d : kdata) (root : Z) (tab : tables) (Hpt : pt_ok d root tab).

Lemma tab_prefix p p' q : tab (p ++ p') = Some q -> exists q', tab p = Some q'.
Proof using Hpt.
  revert q. induction p' as [|i p' IH] using rev_ind; intros q H; [rewrite app_nil_r in H; eauto|].
  rewrite app_assoc in H. apply (pt_prefix _ _ _ Hpt) in H as [_ [q' H]]. by apply (IH q').
Qed.

Lemma elem_tpages n p x : (length p + n = 2)%nat -> x ∈ tpages n tab p <-> exists p', tab (p ++ p') = Some x.
Proof using Hpt.
  revert p. induction n as [|n IH]; intros p Hl; cbn [tpages].
  - destruct (tab p) as [q|] eqn:E.
    + rewrite list_elem_of_singleton. split; [intros ->; exists []; by rewrite app_nil_r|]. intros [[|i p'] H]; [rewrite app_nil_r in H; congruence|].
      apply (pt_dom _ _ _ Hpt) in H. rewrite length_app in H. simpl in H. lia.
    + split; [by intros []%elem_of_nil|]. intros [p' [q' H]%tab_prefix]. congruence.
  - destruct (tab p) as [q|] eqn:E.
    + rewrite elem_of_cons, elem_concat_map. split.
      * intros [->|(i & Hi & [p' H]%IH)]; [exists []; by rewrite app_nil_r|exists (i :: p'); by rewrite <- app_assoc in H|rewrite length_app; simpl; lia].
      * intros [[|i p'] H]; [left; rewrite app_nil_r in H; congruence|]. right. assert (tab ((p ++ [i]) ++ p') = Some x) as H' by by rewrite <- app_assoc.
        exists i. split; [|apply IH; [rewrite length_app; simpl; lia|by exists p']].
        destruct (tab_prefix _ _ _ H') as [q' H2]. apply (pt_prefix _ _ _ Hpt) in H2 as [Hi _]. by apply elem_idx.
    + split; [by intros []%elem_of_nil|]. intros [p' [q' H]%tab_prefix]. congruence.
Qed.

Lemma tpages_nodup n p : (length p + n = 2)%nat -> NoDup (tpages n tab p).
Proof using Hpt.
  revert p. induction n as [|n IH]; intros p Hl; cbn [tpages]; destruct (tab p) as [q|] eqn:E; try constructor.
  - apply not_elem_of_nil.
  - constructor.
  - intros (i & _ & [p' H]%elem_tpages)%elem_concat_map; [|rewrite length_app; simpl; lia].
    pose proof (pt_inj _ _ _ Hpt _ _ _ H E) as E2. apply (f_equal length) in E2. rewrite !length_app in E2. simpl in E2. lia.
  - apply NoDup_concat_map; [apply idx_nodup|intros i _; apply IH; rewrite length_app; simpl; lia|].
    intros i j x _ _ [p1 H1]%elem_tpages [p2 H2]%elem_tpages; try (rewrite length_app; simpl; lia).
    pose proof (pt_inj _ _ _ Hpt _ _ _ H1 H2) as E2. rewrite <- !app_assoc in E2. apply app_inv_head in E2. simpl in E2. congruence.
Qed.

Lemma elem_table_pages x : x ∈ table_pages tab <-> owned tab x.
Proof using Hpt. unfold table_pages. rewrite elem_tpages by done. done. Qed.

Lemma table_pages_nodup : NoDup (table_pages tab).
Proof using Hpt. by apply tpages_nodup. Qed.

(** An address whose entry is entry [k] of the table at [i], [j]. *)
Lemma path_of i j k : 0 <= i < 256 -> 0 <= j < 512 -> 0 <= k < 512 ->
  let va := i * 2 ^ 30 + j * 2 ^ 21 + k * 2 ^ 12 in 0 <= va < MAXVA /\ path va = [i; j] /\ PX 0 va = k.
Proof using.
  clear. intros Hi Hj Hk va. rewrite MAXVA_eq. split; [unfold va; lia|]. unfold path. rewrite !PX_eq by lia. unfold va.
  change (12 + 9 * 2) with 30. change (12 + 9 * 1) with 21. change (12 + 9 * 0) with 12. split; [do 2 f_equal; [|f_equal]|]; Z.to_euclidean_division_equations; lia.
Qed.

Lemma tpages_tree n p q : (length p + n = 2)%nat -> tab p = Some q -> (forall x, 0 <= x < MAXVA -> has (pte_at (mem d) tab x) PTE_V = false) ->
  ptree n (mem d) q (tpages n tab p).
Proof using Hpt.
  intros Hl Hp Hn. revert p q Hl Hp. induction n as [|n IH]; intros p q Hl Hp; cbn [tpages]; rewrite Hp.
  - exists (fun _ => []). split; [f_equal; by vm_compute|]. intros k Hk%elem_idx. cbv zeta.
    destruct p as [|i [|j [|]]]; simpl in Hl; try lia.
    assert (0 <= i < 512) as Hi by (destruct (tab_prefix [i] [j] q Hp) as [q' H]; by apply (pt_prefix _ _ _ Hpt []) in H as [? _]).
    pose proof (pt_low _ _ _ Hpt _ _ _ Hp) as Hlow. destruct (pt_prefix _ _ _ Hpt [i] j q Hp) as [Hj _].
    destruct (path_of i j k) as (V1 & V2 & V3); [lia|lia|lia|]. specialize (Hn _ V1). unfold pte_at in Hn. rewrite V2, V3, Hp in Hn. by rewrite Hn.
  - eexists. split; [done|]. intros i Hi%elem_idx. cbv zeta. pose proof (pt_child _ _ _ Hpt p q i Hp ltac:(lia) Hi) as Hc.
    destruct (tab (p ++ [i])) as [c|] eqn:Ec.
    + destruct Hc as (-> & <- & Hint). split; [done|]. apply IH; [rewrite length_app; simpl; lia|done].
    + rewrite Hc. destruct n; cbn [tpages]; by rewrite Ec.
Qed.
End Pages.

(** ** Address spaces *)

(** Writing pages that are neither free nor tables. *)
Lemma vm_ok_frame (P : Z -> Prop) d d' root l tab :
  vm_ok d root l tab -> only_pages P d d' -> freelist d' = freelist d ->
  (forall q, P q -> q mod PGSIZE = 0 /\ (q ∉ l) /\ ~ owned tab q) ->
  vm_ok d' root l tab /\ forall x, pte_at (mem d') tab x = pte_at (mem d) tab x.
Proof.
  intros [V1 V2 V3 V4] Ho Hfl HP. pose proof (only_pages_syms _ _ _ Ho) as Es.
  assert (forall q a, owned tab q -> q <= a < q + PGSIZE -> mem d' a = mem d a) as Hsame.
  { intros q a [p Hq] Ha. apply (op_mem _ _ _ Ho). apply (off_pages_apart _ q); [apply (pt_page _ _ _ V3 _ _ Hq)|done|].
    intros x (Hx1 & _ & Hx2)%HP. split; [done|]. intros ->. apply Hx2. by exists p. }
  split; [|intros x; by apply pte_at_frame]. split; [by rewrite Es| |by eapply pt_ok_frame|done].
  eapply kmem_ok_frame; [exact V2|done|done|]. intros q a Hq Ha. apply (op_mem _ _ _ Ho). destruct V2 as [_ _ Hf]. rewrite Forall_forall in Hf.
  apply (off_pages_apart _ q); [apply (Hf q Hq)|done|]. intros x (Hx1 & Hx2 & _)%HP. split; [done|]. by intros ->.
Qed.

Lemma pte_at_samepage m tab x y : 0 <= x < MAXVA -> 0 <= y < MAXVA -> samepage x y -> pte_at m tab x = pte_at m tab y.
Proof. intros Hx Hy [H1 H2]%PX_page_iff; [|done..]. unfold pte_at. by rewrite H1, H2. Qed.

(** mappages() of one page. *)
Lemma map_page root perm a pa e m d l tab :
  mach_ok m -> lk_free m LK_kmem -> vm_ok d root l tab -> 0 <= perm < 1024 ->
  0 <= a -> a + PGSIZE <= MAXVA -> a mod PGSIZE = 0 -> 0 <= pa -> pa + PGSIZE <= 2 ^ 56 -> has (pte_at (mem d) tab a) PTE_V = false ->
  exists r m' d' l' tab', mappages root a PGSIZE pa perm e (mkK m d) = Ret r e (mkK m' d') /\ msame m m' /\
    vm_ok d' root l' tab' /\ vm_ext root d l tab d' l' tab' /\
    ((r = 0 /\ forall x, 0 <= x < MAXVA -> pte_at (mem d') tab' x =
        if decide (samepage a x) then Z.lor (Z.lor (PA2PTE pa) perm) PTE_V else pte_at (mem d) tab x) \/
     (r = -1 /\ l' = [] /\ forall x, 0 <= x < MAXVA -> pte_at (mem d') tab' x = pte_at (mem d) tab x)).
Proof.
  intros Hm Hl Hv Hperm Ha Hmax Hal Hpa Hpmax Hnv. pose proof Hv as [V1 V2 V3 V4]. rewrite MAXVA_eq in Hmax. unfold mappages.
  assert (PGROUNDDOWN a = a) as E1 by (rewrite PGROUNDDOWN_eq by (unfold PGSIZE in *; lia); unfold PGSIZE in *; Z.to_euclidean_division_equations; lia).
  assert (PGROUNDDOWN (u64 (a + PGSIZE - 1)) = a) as E2.
  { rewrite u64_small by (unfold PGSIZE in *; lia). rewrite PGROUNDDOWN_eq by (unfold PGSIZE in *; lia). unfold PGSIZE in *. Z.to_euclidean_division_equations. lia. }
  rewrite E1, E2. unfold mappages_fuel. rewrite Z.leb_refl, Z.sub_diag. change (Z.to_nat (0 / PGSIZE)) with O.
  destruct (mappages_loop_spec root perm Hperm 0 a pa e m d l tab) as (r & k & m' & d' & l' & tab' & H1 & H2 & H3 & _ & H4 & H5); try done; rewrite ?MAXVA_eq; try (unfold PGSIZE in *; lia).
  { intros x Hx. assert (samepage a x) as Hsp by (apply samepage_range; [done|lia]).
    assert (path a = path x /\ PX 0 a = PX 0 x) as [P1 P2] by (apply PX_page_iff; [rewrite MAXVA_eq; unfold PGSIZE in *; lia..|done]).
    unfold pte_at in *. by rewrite <- P1, <- P2. }
  rewrite Z.add_0_r in H1. exists r, m', d', l', tab'. split; [done|]. split; [done|]. split; [by eapply vm_ok_ext|]. split; [done|].
  destruct H4 as [[-> ->]|(-> & Hk & ->)]; [left|right].
  - split; [done|]. intros x Hx. rewrite H5 by done. replace (Z.of_nat 0 + 1) with 1 by done. rewrite Z.mul_1_l. pose proof (samepage_range a x Hal) as Hsp.
    destruct (decide (samepage a x)) as [Hs|Hs]; [|rewrite decide_False by tauto; done]. rewrite decide_True by tauto. unfold mapped_pte. apply Hsp in Hs.
    rewrite Z.div_small by lia. by rewrite Z.mul_0_l, Z.add_0_r.
  - split_and!; try done. intros x Hx. rewrite H5 by done. assert (k = 0) as -> by lia. rewrite decide_False by lia. done.
Qed.

(** Taking a page from the allocator. *)
Lemma vm_ok_kalloc d root pg l tab :
  vm_ok d root (pg :: l) tab ->
  vm_ok (kalloc_d d) root l tab /\ (forall x, pte_at (mem (kalloc_d d)) tab x = pte_at (mem d) tab x) /\
  freelist d = pg /\ pg <> 0 /\ page_ok d pg /\ (pg ∉ l) /\ ~ owned tab pg /\ only_pages (fun q => q = pg) d (kalloc_d d).
Proof.
  intros [V1 V2 V3 V4]. pose proof (kalloc_d_only d pg l V2) as Ho. pose proof (kmem_head _ _ V2) as Ehd. pose proof (kalloc_d_ok _ _ _ V2) as V2'.
  destruct V2 as [(_ & H0 & _) Hnd Hf]. apply NoDup_cons in Hnd as [Hni Hnd]. apply Forall_inv in Hf as Hpg.
  assert (~ owned tab pg) as Hno by (intros H; apply (V4 pg H); by constructor).
  assert (forall q a, owned tab q -> q <= a < q + PGSIZE -> mem (kalloc_d d) a = mem d a) as Hsame.
  { intros q a Hq Ha. apply (op_mem _ _ _ Ho). intros ? -> Ha'. destruct (owned_apart d root tab pg V3 Hpg Hno q Hq); lia. }
  split_and!; try done; [|intros x; by apply pte_at_frame]. split; [by rewrite kalloc_d_syms|done|eapply pt_ok_frame; [done|apply kalloc_d_syms|done]|].
  intros q Hq Hin. apply (V4 q Hq). by constructor.
Qed.

Lemma only_mem (P : Z -> Prop) d d' q o :
  only_pages P d d' -> q mod PGSIZE = 0 -> (forall x, P x -> x mod PGSIZE = 0 /\ x <> q) -> 0 <= o < PGSIZE -> mem d' (q + o) = mem d (q + o).
Proof. intros Ho Hq HP Hr. apply (op_mem _ _ _ Ho). by apply (off_pages_apart _ q); [|lia|]. Qed.

Lemma PTE_FLAGS_range v : 0 <= PTE_FLAGS v < 1024.
Proof. unfold PTE_FLAGS. change 0x3FF with (2 ^ 10 - 1). rewrite land_ones_mod by lia. apply Z.mod_pos_bound. lia. Qed.

Lemma flags_valid v : has v PTE_V = true -> Z.lor (PTE_FLAGS v) PTE_V = PTE_FLAGS v.
Proof.
  intros H. rewrite has_PTE_V in H. apply Z.bits_inj'. intros n Hn. rewrite Z.lor_spec. destruct (decide (n = 0)) as [->|Hne].
  - unfold PTE_FLAGS. rewrite Z.land_spec, H. done.
  - change PTE_V with (2 ^ 0). rewrite Z.pow2_bits_false by done. by rewrite orb_false_r.
Qed.

Section Copy.
Context (old new : Z) (tabo tab0 : tables) (l0 : list Z) (d0 : kdata) (N : nat).
Hypothesis Hv0 : vm_ok d0 new l0 tab0.
Hypothesis Hold : pt_ok d0 old tabo.
Hypothesis Hod : forall q, owned tabo q -> (q ∉ l0) /\ ~ owned tab0 q.
Notation page k := (Z.of_nat k * PGSIZE).
Notation fr0 := (frame_of (mem d0) tabo).
Hypothesis Hleaf : forall k, (k < N)%nat -> (has (pte_at (mem d0) tabo (page k)) PTE_V = true /\ PTE_FLAGS (pte_at (mem d0) tabo (page k)) <> PTE_V) /\ page_ok d0 (fr0 (page k)) /\ (fr0 (page k) ∉ l0) /\ ~ owned tab0 (fr0 (page k)).
Hypothesis Hnone : forall k, (k < N)%nat -> pte_at (mem d0) tab0 (page k) = 0.
Hypothesis HN : page N <= MAXVA.

(** After [i] pages: [T] became tables, [F] the frames of the copy. *)
Record copied (i : nat) (d : kdata) (l : list Z) (tab : tables) (T F : list Z) : Prop := {
  cp_vm : vm_ok d new l tab;
  cp_only : only_pages (fun q => q ∈ l0 \/ owned tab0 q) d0 d;
  cp_own : forall q, owned tab q <-> owned tab0 q \/ q ∈ T;
  cp_free : l0 ≡ₚ T ++ F ++ l;
  cp_len : length F = i;
  cp_pte : forall k f, F !! k = Some f -> pte_at (mem d) tab (page k) = Z.lor (PA2PTE f) (PTE_FLAGS (pte_at (mem d0) tabo (page k)));
  cp_rest : forall x, page i <= x < MAXVA -> pte_at (mem d) tab x = pte_at (mem d0) tab0 x;
  cp_data : forall k f o, F !! k = Some f -> 0 <= o < PGSIZE -> mem d (f + o) = mem d0 (fr0 (page k) + o);
}.

Lemma in_play q : q ∈ l0 \/ owned tab0 q -> q mod PGSIZE = 0.
Proof using Hv0.
  destruct Hv0 as [V1 [_ _ V2] V3 _]. rewrite Forall_forall in V2. intros [H|[p H]]; [apply (V2 q H)|apply (pt_page _ _ _ V3 _ _ H)].
Qed.

(** The old address space stays. *)
Lemma old_kept d : only_pages (fun q => q ∈ l0 \/ owned tab0 q) d0 d ->
  pt_ok d old tabo /\ (forall x, pte_at (mem d) tabo x = pte_at (mem d0) tabo x) /\
  forall k o, (k < N)%nat -> 0 <= o < PGSIZE -> mem d (fr0 (page k) + o) = mem d0 (fr0 (page k) + o).
Proof using Hv0 Hold Hod Hleaf.
  intros Ho. assert (forall q a, owned tabo q -> q <= a < q + PGSIZE -> mem d a = mem d0 a) as Hsame.
  { intros q a Hq Ha. apply (op_mem _ _ _ Ho). destruct (Hod q Hq). destruct Hq as [p Hq].
    apply (off_pages_apart _ q); [apply (pt_page _ _ _ Hold _ _ Hq)|done|]. intros x Hx. split; [by apply in_play|]. intros ->. tauto. }
  split_and!; [eapply pt_ok_frame; [done|by eapply only_pages_syms|done]|intros x; by apply pte_at_frame|].
  intros k o Hk Hr. destruct (Hleaf k Hk) as (_ & [Hp _] & H1 & H2). eapply only_mem; [exact Ho|done| |done].
  intros x Hx. split; [by apply in_play|]. intros ->. tauto.
Qed.

Lemma copied_nodup i d l tab T F : copied i d l tab T F -> NoDup (T ++ F ++ l) /\ forall q, q ∈ T ++ F ++ l -> (q ∈ l0) /\ ~ owned tab0 q /\ page_ok d q.
Proof using Hv0.
  intros C. pose proof (cp_free _ _ _ _ _ _ C) as E. destruct Hv0 as [_ [_ V2 V3] _ V4]. rewrite Forall_forall in V3. split; [by rewrite <- E|].
  intros q Hq. rewrite <- E in Hq. split_and!; [done|intros H; by apply (V4 q H)|]. unfold page_ok. rewrite (only_pages_syms _ _ _ (cp_only _ _ _ _ _ _ C)). by apply V3.
Qed.

(** A page is taken from the allocator and filled. *)
Lemma copied_take i d pg l tab T F : copied i d (pg :: l) tab T F -> (i < N)%nat ->
  let d1 := kalloc_d d in let d2 := set_mem (memmove (mem d1) pg (fr0 (page i)) PGSIZE) d1 in
  vm_ok d2 new l tab /\ (forall x, pte_at (mem d2) tab x = pte_at (mem d) tab x) /\ only_pages (fun q => q = pg) d d2 /\
  forall o, 0 <= o < PGSIZE -> mem d2 (pg + o) = mem d0 (fr0 (page i) + o).
Proof using Hv0 Hold Hod Hleaf.
  intros C Hi d1 d2. destruct (vm_ok_kalloc d new pg l tab (cp_vm _ _ _ _ _ _ C)) as (K1 & K2 & _ & _ & K5 & K6 & K7 & K8).
  assert (only_pages (fun q => q = pg) d1 d2) as Ho.
  { apply only_pages_set_mem. intros a Ha. specialize (Ha pg eq_refl). unfold memmove, memcopy. case_range; [lia|done]. }
  destruct (vm_ok_frame (fun q => q = pg) d1 d2 new l tab K1 Ho eq_refl) as [F1 F2]; [intros q ->; split; [apply K5|done]|].
  split_and!; [done|intros x; by rewrite F2, K2|eapply only_pages_mono; [|eapply only_pages_trans; [exact K8|exact Ho]]; by intros q [H|H]|].
  intros o Hr. unfold d2. cbn [mem set_mem]. unfold memmove, memcopy. case_range; [|lia]. replace (pg + o - pg) with o by lia.
  destruct (Hleaf i Hi) as (_ & [Hp _] & H1 & _). destruct (old_kept d (cp_only _ _ _ _ _ _ C)) as (_ & _ & Hk). rewrite <- Hk by done.
  eapply only_mem; [exact K8|done| |done]. intros x ->. split; [apply K5|]. intros ->. apply H1.
  apply (copied_nodup _ _ _ _ _ _ C). rewrite !elem_of_app. right. right. by constructor.
Qed.

(** The new tables of a step. *)
Lemma copied_grow i d pg l tab T F d2 d3 l3 tab3 : copied i d (pg :: l) tab T F ->
  only_pages (fun q => q = pg) d d2 -> vm_ok d3 new l3 tab3 -> vm_ext new d2 l tab d3 l3 tab3 ->
  exists nw, l = nw ++ l3 /\ (forall q, owned tab3 q <-> owned tab0 q \/ q ∈ T ++ nw) /\ ~ owned tab3 pg /\
    only_pages (fun q => q ∈ l0 \/ owned tab0 q) d0 d3 /\
    forall f o, f ∈ F \/ f = pg -> 0 <= o < PGSIZE -> mem d3 (f + o) = mem d2 (f + o).
Proof using Hv0.
  intros C Ho2 Hv3 [_ _ (nw & El & Hown) Ho3]. destruct (copied_nodup _ _ _ _ _ _ C) as [Hnd Hin]. exists nw.
  assert (forall q, owned tab3 q <-> owned tab0 q \/ q ∈ T ++ nw) as Ho by (intros q; rewrite Hown, (cp_own _ _ _ _ _ _ C), elem_of_app; tauto).
  assert (forall f, f ∈ F \/ f = pg -> f mod PGSIZE = 0 /\ ~ owned tab3 f) as Hf.
  { intros f Hf. assert (f ∈ T ++ F ++ pg :: l) as Hf2 by (rewrite !elem_of_app, elem_of_cons; tauto). destruct (Hin f Hf2) as (H1 & H2 & [H3 _]). split; [done|].
    rewrite Ho, elem_of_app. intros [H|[H|H]]; [done| |].
    - apply NoDup_app in Hnd as (_ & Hnd & _). apply (Hnd f H). rewrite elem_of_app, elem_of_cons. tauto.
    - apply NoDup_app in Hnd as (_ & _ & Hnd). apply NoDup_app in Hnd as (_ & Hnd & Hnd2). apply NoDup_cons in Hnd2 as [Hnd2 _]. destruct Hf as [Hf| ->].
      + apply (Hnd f Hf). constructor 2. rewrite El, elem_of_app. by left.
      + apply Hnd2. rewrite El, elem_of_app. by left. }
  split_and!; [done|done|by apply Hf; right| |].
  - eapply only_pages_mono; [|eapply only_pages_trans; [exact (cp_only _ _ _ _ _ _ C)|eapply only_pages_trans; [exact Ho2|exact Ho3]]]. cbv beta.
    intros q [H|[->|H%Ho]]; [done|left; apply Hin; rewrite !elem_of_app, elem_of_cons; tauto|]. rewrite elem_of_app in H. destruct H as [H|[H|H]]; [by right|..]; left; apply Hin; rewrite !elem_of_app, ?elem_of_cons, ?El, ?elem_of_app; tauto.
  - intros f o [H1 H2]%Hf Hr. eapply only_mem; [exact Ho3|done| |done]. intros x Hx. split; [destruct Hx as [q Hx]; apply (pt_page _ _ _ (vo_pt _ _ _ _ Hv3) _ _ Hx)|]. by intros ->.
Qed.

Section Step.
Context (i : nat) (d : kdata) (pg : Z) (l : list Z) (tab : tables) (T F : list Z).
Hypothesis C : copied i d (pg :: l) tab T F.
Hypothesis Hi : (i < N)%nat.
Context (d2 d3 : kdata) (l3 : list Z) (tab3 : tables).
Hypothesis P2 : forall x, pte_at (mem d2) tab x = pte_at (mem d) tab x.
Hypothesis P3 : only_pages (fun q => q = pg) d d2.
Hypothesis P4 : forall o, 0 <= o < PGSIZE -> mem d2 (pg + o) = mem d0 (fr0 (page i) + o).
Hypothesis R3 : vm_ok d3 new l3 tab3.
Hypothesis R4 : vm_ext new d2 l tab d3 l3 tab3.

Lemma pg_fresh : page_ok d pg /\ (pg ∉ F) /\ pg ∈ l0.
Proof using Hv0 C.
  destruct (copied_nodup _ _ _ _ _ _ C) as [Hnd Hin]. assert (pg ∈ T ++ F ++ pg :: l) as H by (rewrite !elem_of_app; right; right; by constructor).
  destruct (Hin pg H) as (H1 & _ & H2). split_and!; [done| |done]. intros Hf. apply NoDup_app in Hnd as (_ & _ & Hnd). apply NoDup_app in Hnd as (_ & Hnd & _).
  apply (Hnd pg Hf). by constructor.
Qed.

Lemma step_data k f o : F !! k = Some f -> 0 <= o < PGSIZE -> mem d3 (f + o) = mem d0 (fr0 (page k) + o).
Proof using Hv0 C P3 R3 R4.
  clear P4. intros Hk Ho. destruct (copied_grow i d pg l tab T F d2 d3 l3 tab3 C P3 R3 R4) as (nw & _ & _ & _ & _ & G5). destruct pg_fresh as (K1 & K2 & _).
  assert (f ∈ F) as Hf by by eapply list_elem_of_lookup_2. rewrite G5 by (try done; by left). rewrite <- (cp_data _ _ _ _ _ _ C k f o Hk Ho). eapply only_mem; [exact P3| | |done].
  - destruct (copied_nodup _ _ _ _ _ _ C) as [_ Hin]. apply Hin. rewrite !elem_of_app. by right; left.
  - intros x ->. split; [apply K1|]. by intros ->.
Qed.

Lemma other_page k : (k < i)%nat -> ~ samepage (page i) (page k).
Proof using. clear. intros Hk. rewrite samepage_range by (by apply Z.mod_mul). unfold PGSIZE. lia. Qed.

Lemma copied_next :
  (forall x, 0 <= x < MAXVA -> pte_at (mem d3) tab3 x = if decide (samepage (page i) x) then Z.lor (Z.lor (PA2PTE pg) (PTE_FLAGS (pte_at (mem d0) tabo (page i)))) PTE_V else pte_at (mem d2) tab x) ->
  exists T' F', copied (S i) d3 l3 tab3 T' F'.
Proof using All.
  intros R5. destruct (copied_grow i d pg l tab T F d2 d3 l3 tab3 C P3 R3 R4) as (nw & G1 & G2 & G3 & G4 & G5). pose proof C as [C1 C2 C3 C4 C5 C6 C7 C8].
  exists (T ++ nw), (F ++ [pg]). split; try done.
  - rewrite C4, G1, <- !app_assoc. f_equiv. rewrite (Permutation_app_swap_app nw F). f_equiv. apply (Permutation_app_swap_app [pg] nw).
  - rewrite length_app, C5. simpl. lia.
  - intros k f [Hk|[Hk Hf]]%lookup_app_Some.
    + pose proof (lookup_lt_Some _ _ _ Hk). rewrite R5 by (unfold PGSIZE in *; lia). rewrite decide_False by (apply other_page; lia). rewrite P2. by apply C6.
    + apply list_lookup_singleton_Some in Hf as [Hk0 <-]. assert (k = i) as -> by lia. rewrite R5, decide_True by (done || unfold PGSIZE in *; lia).
      rewrite <- Z.lor_assoc, flags_valid; [done|]. by apply (Hleaf i Hi).
  - intros x Hx. rewrite R5 by (unfold PGSIZE in *; lia). rewrite decide_False, P2, C7; [done|unfold PGSIZE in *; lia|]. rewrite samepage_range by by apply Z.mod_mul. unfold PGSIZE in *. lia.
  - intros k f o [Hk|[Hk Hf]]%lookup_app_Some Ho; [by apply step_data|]. apply list_lookup_singleton_Some in Hf as [Hk0 <-]. assert (k = i) as -> by lia.
    rewrite G5 by (done || by right). by apply P4.
Qed.

Lemma copied_fail : l3 = [] -> (forall x, 0 <= x < MAXVA -> pte_at (mem d3) tab3 x = pte_at (mem d2) tab x) ->
  page_ok d3 pg /\ exists T', copied i (kfree_d pg d3) [pg] tab3 T' F.
Proof using Hv0 HN Hi C P2 P3 R3 R4.
  clear P4. intros El3 R5. destruct (copied_grow i d pg l tab T F d2 d3 l3 tab3 C P3 R3 R4) as (nw & G1 & G2 & G3 & G4 & G5). pose proof C as [C1 C2 C3 C4 C5 C6 C7 C8].
  destruct pg_fresh as (K1 & K2 & K3). assert (page_ok d3 pg) as Hpg3 by (unfold page_ok in *; rewrite (only_pages_syms _ _ _ G4), <- (only_pages_syms _ _ _ C2); done).
  split; [done|]. pose proof R3 as R3'. rewrite El3 in R3'. destruct (vm_ok_kfree d3 new [] tab3 pg R3' Hpg3 (not_elem_of_nil _) G3) as [F1 F2].
  exists (T ++ nw). split; try done.
  - eapply only_pages_mono; [|eapply only_pages_trans; [exact G4|apply kfree_d_only]]. intros q [H| ->]; [done|by left].
  - rewrite C4, G1, El3, app_nil_r, <- !app_assoc. f_equiv. rewrite (Permutation_app_swap_app nw F). f_equiv. apply (Permutation_app_comm [pg] nw).
  - intros k f Hk. pose proof (lookup_lt_Some _ _ _ Hk). rewrite F2, R5 by (unfold PGSIZE in *; lia). rewrite P2. by apply C6.
  - intros x Hx. rewrite F2, R5 by (unfold PGSIZE in *; lia). rewrite P2. by apply C7.
  - intros k f o Hk Ho. rewrite <- (step_data k f o Hk Ho). eapply only_mem; [apply kfree_d_only| | |done].
    + destruct (copied_nodup _ _ _ _ _ _ C) as [_ Hin]. apply Hin. rewrite !elem_of_app. right; left. by eapply list_elem_of_lookup_2.
    + intros x ->. split; [apply K1|]. intros ->. apply K2. by eapply list_elem_of_lookup_2.
Qed.
End Step.

Lemma copy_page_spec i d l tab T F e m : copied i d l tab T F -> (i < N)%nat -> mach_ok m -> lk_free m LK_kmem ->
  exists m' d' l' tab' T', msame m m' /\
    ((copy_page old new (page i) e (mkK m d) = Ret None e (mkK m' d') /\ exists F', copied (S i) d' l' tab' T' F') \/
     (copy_page old new (page i) e (mkK m d) = Ret (Some (page i)) e (mkK m' d') /\ copied i d' l' tab' T' F)).
Proof using All.
  intros C Hi Hm Hl. pose proof C as [C1 C2 C3 C4 C5 C6 C7 C8]. destruct (old_kept d C2) as (Hpo & Hpte & _). destruct (Hleaf i Hi) as ([L1 _] & L2 & L3 & L4).
  pose proof (vo_end _ _ _ _ C1) as Hend. assert (0 <= page i /\ page i + PGSIZE <= MAXVA) as Hr by (unfold PGSIZE in *; lia).
  unfold copy_page. mcall (walk_ro d old tabo Hpo (page i) e m ltac:(unfold PGSIZE in *; lia)).
  assert (has (pte_at (mem d) tabo (page i)) PTE_V = true) as L1' by by rewrite Hpte.
  destruct (slot_nonzero d old tabo (page i) Hend Hpo L1') as (_ & Hs & Hld). rewrite (proj2 (Z.eqb_neq _ _) Hs). unfold getmem. mrun. rewrite Hld, L1'. cbn [negb].
  rewrite Hpte. fold (fr0 (page i)). mcall (kalloc_run e m d Hm Hl). rewrite (kmem_head _ _ (vo_kmem _ _ _ _ C1)). destruct l as [|pg l].
  { rewrite kalloc_d_nil by apply C1. simpl. exists (msettle m), d, [], tab, T. split; [apply msame_settle|]. right. split; [done|]. by split. }
  destruct (pg_fresh i d pg l tab T F C) as ([_ K5] & _). destruct (vm_ok_kalloc d new pg l tab C1) as (_ & _ & _ & K4 & _). cbn [hd]. rewrite (proj2 (Z.eqb_neq _ _) K4). unfold setmem. mrun.
  destruct (copied_take i d pg l tab T F C Hi) as (P1 & P2 & P3 & P4). set (d2 := set_mem _ _) in *.
  destruct (map_page new (PTE_FLAGS (pte_at (mem d0) tabo (page i))) (page i) pg e (msettle m) d2 l tab) as (r & m3 & d3 & l3 & tab3 & R1 & R2 & R3 & R4 & R5);
    [by apply msettle_ok|by apply msettle_free|done|apply PTE_FLAGS_range|lia|lia|by apply Z.mod_mul|lia|unfold PHYSTOP, KERNBASE, PGSIZE in *; lia| |].
  { rewrite P2, C7 by (unfold PGSIZE in *; lia). by rewrite Hnone. }
  rewrite (bind_Ret _ _ _ _ _ _ _ R1). assert (msame m m3) as Hm3 by (eapply msame_trans; [apply msame_settle|exact R2]).
  destruct R5 as [[-> R5]|(-> & E3 & R5)].
  - destruct (copied_next i d pg l tab T F C Hi d2 d3 l3 tab3 P2 P3 P4 R3 R4 R5) as (T' & F' & C').
    simpl. exists m3, d3, l3, tab3, T'. split; [done|]. left. split; [done|]. by exists F'.
  - destruct (copied_fail i d pg l tab T F C Hi d2 d3 l3 tab3 P2 P3 R3 R4 E3 R5) as (Hpg3 & T' & C').
    cbn [Z.eqb negb]. mcall (kfree_run pg e m3 d3 ltac:(eauto with kdb) ltac:(eauto with kdb) Hpg3).
    exists (msettle m3), (kfree_d pg d3), [pg], tab3, T'. split; [eapply msame_trans; [exact Hm3|apply msame_settle]|]. by right.
Qed.

Lemma copied_init : copied 0 d0 l0 tab0 [] [].
Proof using Hv0.
  split; try done; [apply only_pages_refl|].
  intros q. split; [by left|]. by intros [H|[]%elem_of_nil].
Qed.

Lemma copy_loop i d l tab T F e m : copied i d l tab T F -> (i <= N)%nat -> mach_ok m -> lk_free m LK_kmem ->
  exists m' d' l' tab' T' F', msame m m' /\
    ((forE (npages_from (page i) (N - i)) (copy_page old new) e (mkK m d) = Ret None e (mkK m' d') /\ copied N d' l' tab' T' F') \/
     exists j, (j < N)%nat /\ forE (npages_from (page i) (N - i)) (copy_page old new) e (mkK m d) = Ret (Some (page j)) e (mkK m' d') /\ copied j d' l' tab' T' F').
Proof using All.
  remember (N - i)%nat as n eqn:En. revert i d l tab T F m En. induction n as [|n IH]; intros i d l tab T F m En C Hi Hm Hl.
  { assert (i = N) as -> by lia. exists m, d, l, tab, T, F. split; [apply msame_refl|]. left. done. }
  rewrite npages_from_S. cbn [forE]. destruct (copy_page_spec i d l tab T F e m C ltac:(lia) Hm Hl) as (m1 & d1 & l1 & tab1 & T1 & Hm1 & [[R1 (F1 & C1)]|[R1 C1]]);
    rewrite (bind_Ret _ _ _ _ _ _ _ R1); cbv beta iota.
  - replace (page i + PGSIZE) with (page (S i)) by lia.
    destruct (IH (S i) d1 l1 tab1 T1 F1 m1) as (m2 & d2 & l2 & tab2 & T2 & F2 & Hm2 & H); eauto with kdb; [lia|lia|].
    exists m2, d2, l2, tab2, T2, F2. split; [by eapply msame_trans|done].
  - exists m1, d1, l1, tab1, T1, F. split; [done|]. right. exists i. split; [lia|done].
Qed.

(** The frames of the copy, as uvmunmap() finds them. *)
Lemma copied_unmappable j d l tab T F : copied j d l tab T F -> (j <= N)%nat ->
  unmappable d tab l true 0 j /\ map (frame_of (mem d) tab) (npages_from 0 j) = F.
Proof using All.
  intros C Hj. destruct (copied_nodup _ _ _ _ _ _ C) as [Hnd Hin]. pose proof C as [C1 C2 C3 C4 C5 C6 C7 C8]. pose proof (vo_end _ _ _ _ C1) as Hend.
  assert (forall k f, F !! k = Some f -> frame_of (mem d) tab (page k) = f /\ page_ok d f) as Hf.
  { intros k f Hk. assert (page_ok d f) as Hpg by (apply Hin; rewrite !elem_of_app; right; left; by eapply list_elem_of_lookup_2).
    split; [|done]. unfold frame_of. rewrite (C6 k f Hk). destruct (page_ok_bounds d f Hend Hpg). apply PTE2PA_entry; [done|lia|apply PTE_FLAGS_range]. }
  assert (map (frame_of (mem d) tab) (npages_from 0 j) = F) as EF.
  { apply list_eq. intros k. unfold npages_from. rewrite !list_lookup_fmap. destruct (decide (k < j)%nat) as [Hk|Hk].
    - rewrite lookup_seq_lt by done. simpl. destruct (lookup_lt_is_Some_2 F k) as [f Ef]; [lia|]. rewrite Ef. f_equal. by apply Hf.
    - rewrite lookup_seq_ge by lia. simpl. symmetry. apply lookup_ge_None. lia. }
  split; [|done]. split; [|intros _; rewrite EF; apply NoDup_app in Hnd as (_ & _ & Hnd); by apply NoDup_app in Hnd as [Hnd _]].
  intros a (k & Hk & ->)%npages_from_elem. rewrite Z.add_0_l. destruct (lookup_lt_is_Some_2 F k) as [f Ef]; [lia|]. destruct (Hf k f Ef) as [E1 E2].
  destruct (Hleaf k ltac:(lia)) as ([L1 L2] & _). rewrite E1. destruct (page_ok_bounds d f Hend E2) as [B1 B2]. split_and!.
  - rewrite (C6 k f Ef), <- (flags_valid _ L1), Z.lor_assoc. apply has_V_lor.
  - rewrite (C6 k f Ef), PTE_FLAGS_entry; [done|lia|apply PTE_FLAGS_range].
  - intros _. assert (f ∈ F) as Hff by by eapply list_elem_of_lookup_2. destruct (Hin f) as (_ & H2 & _); [rewrite !elem_of_app; tauto|].
    split_and!; [done| |].
    + intros H. apply NoDup_app in Hnd as (_ & _ & Hnd). apply NoDup_app in Hnd as (_ & Hnd & _). by apply (Hnd f).
    + rewrite C3. intros [H|H]; [done|]. apply NoDup_app in Hnd as (_ & Hnd & _). apply (Hnd f H). rewrite elem_of_app. by left.
Qed.

Lemma uvmcopy_run sz e m : mach_ok m -> lk_free m LK_kmem -> (sz + PGSIZE - 1) / PGSIZE = Z.of_nat N ->
  exists m' d' l' tab' T F, msame m m' /\
    ((uvmcopy old new sz e (mkK m d0) = Ret 0 e (mkK m' d') /\ copied N d' l' tab' T F) \/
     (uvmcopy old new sz e (mkK m d0) = Ret (-1) e (mkK m' d') /\ copied 0 d' l' tab' T F)).
Proof using All.
  intros Hm Hl Hsz. unfold uvmcopy. assert (pages_below 0 sz = npages_from (page 0) (N - 0)) as ->.
  { unfold pages_below, npages_from. rewrite Z.sub_0_r, Hsz, Nat2Z.id, Nat.sub_0_r. done. }
  destruct (copy_loop 0 d0 l0 tab0 [] [] e m copied_init ltac:(lia) Hm Hl) as (m1 & d1 & l1 & tab1 & T1 & F1 & Hm1 & [[R C]|(j & Hj & R & C)]);
    rewrite (bind_Ret _ _ _ _ _ _ _ R); cbv beta iota.
  { exists m1, d1, l1, tab1, T1, F1. split; [done|]. left. done. }
  destruct (copied_unmappable j d1 l1 tab1 T1 F1 C ltac:(lia)) as [Hun EF]. pose proof C as [C1 C2 C3 C4 C5 C6 C7 C8].
  unfold uvmunmap. rewrite Z.div_mul by done. change (0 mod PGSIZE =? 0) with true. cbn [negb]. cbv iota.
  assert (page j <= 2 ^ 38) as Hjm by (rewrite MAXVA_eq in HN; unfold PGSIZE in *; lia).
  rewrite u64_small by (unfold PGSIZE in *; lia). rewrite pages_below_n.
  destruct (unmap_loop_spec new tab1 true j 0 l1 e m1 d1) as (m2 & d2 & U1 & U2 & U3 & U4 & U5); [eauto with kdb..|lia|done|rewrite MAXVA_eq; lia|done|].
  rewrite EF in U3, U4. rewrite (bind_Ret _ _ _ _ _ _ _ U1). exists m2, d2, (rev F1 ++ l1), tab1, T1, []. split; [by eapply msame_trans|]. right. split; [done|].
  destruct (copied_nodup _ _ _ _ _ _ C) as [_ Hin]. split; try done.
  - eapply only_pages_mono; [|eapply only_pages_trans; [exact C2|exact U4]]. cbv beta. intros q [H|[[H|H]%C3|[_ H]]]; [done|by right|left..].
    + apply Hin. rewrite !elem_of_app. tauto.
    + apply Hin. rewrite !elem_of_app. tauto.
  - rewrite C4. simpl. f_equiv. f_equiv. apply Permutation_rev.
  - intros x Hx. rewrite U5 by lia. case_decide as Hd; [|apply C7; lia]. rewrite <- (Hnone (Z.to_nat (x / PGSIZE))).
    + apply pte_at_samepage; unfold samepage, PGSIZE in *; rewrite ?MAXVA_eq in *; Z.to_euclidean_division_equations; lia.
    + unfold PGSIZE in *. Z.to_euclidean_division_equations. lia.
Qed.
End Copy.

(** ** Giving an address space back *)

Definition npg (sz : Z) : nat := Z.to_nat ((sz + PGSIZE - 1) / PGSIZE).

Notation page k := (Z.of_nat k * PGSIZE).

Definition uframes (m : bytes) (tab : tables) (n : nat) : list Z := map (frame_of m tab) (npages_from 0 n).

(** [n] user pages with frames of their own. *)
Record upages (d : kdata) (root : Z) (l : list Z) (tab : tables) (n : nat) : Prop := {
  up_vm : vm_ok d root l tab;
  up_leaf : forall k, (k < n)%nat -> (has (pte_at (mem d) tab (page k)) PTE_V = true /\ PTE_FLAGS (pte_at (mem d) tab (page k)) <> PTE_V) /\
    page_ok d (frame_of (mem d) tab (page k));
  up_nodup : NoDup (table_pages tab ++ uframes (mem d) tab n ++ l);
  up_max : page n <= TRAPFRAME;
}.

Lemma elem_uframes m tab n q : q ∈ uframes m tab n <-> exists k, (k < n)%nat /\ q = frame_of m tab (page k).
Proof.
  unfold uframes. rewrite list_elem_of_In, in_map_iff. split.
  - intros (a & <- & (k & Hk & ->)%list_elem_of_In%npages_from_elem). by exists k.
  - intros (k & Hk & ->). exists (page k). split; [done|]. apply list_elem_of_In, npages_from_elem. exists k. done.
Qed.

Lemma upages_unmappable d root l tab n : upages d root l tab n -> unmappable d tab l true 0 n.
Proof.
  intros [V L H M]. apply NoDup_app in H as (H1 & H2 & H3). apply NoDup_app in H3 as (H3 & H4 & H5). split; [|done].
  intros a (k & Hk & ->)%npages_from_elem. rewrite Z.add_0_l. destruct (L k Hk) as [[L1 L2] L3]. split_and!; try done. intros _.
  assert (frame_of (mem d) tab (page k) ∈ uframes (mem d) tab n) as Hin by (apply elem_uframes; eauto). split_and!; [done|by apply H4|].
  intros Ho. apply (H2 (frame_of (mem d) tab (page k))); [|rewrite elem_of_app; by left]. by apply (elem_table_pages d root tab (vo_pt _ _ _ _ V)).
Qed.

Lemma TRAPFRAME_eq : TRAPFRAME = 2 ^ 38 - 2 * PGSIZE /\ TRAMPOLINE = 2 ^ 38 - PGSIZE.
Proof. done. Qed.

(** freewalk() after everything has been unmapped. *)
Lemma freewalk_run d root l tab e m :
  mach_ok m -> lk_free m LK_kmem -> vm_ok d root l tab -> (forall x, 0 <= x < MAXVA -> has (pte_at (mem d) tab x) PTE_V = false) ->
  exists m' d', freewalk root e (mkK m d) = Ret tt e (mkK m' d') /\ msame m m' /\ frees (table_pages tab) l d d'.
Proof.
  intros Hm Hl [V1 V2 V3 V4] Hn. apply (freewalk_spec 2); try done.
  - apply Nat2Z.inj_lt. rewrite Z2Nat.id by lia. lia.
  - by apply (tpages_tree d root tab V3 2 []); [|apply V3|].
  - apply NoDup_app. split_and!; [by eapply table_pages_nodup| |apply V2]. intros q Hq. apply V4. by apply (elem_table_pages d root tab V3).
  - apply Forall_forall. intros q Hq. apply (elem_table_pages d root tab V3) in Hq as [p Hq]. by eapply pt_page.
Qed.

Lemma npg_roundup sz : 0 <= sz < 2 ^ 63 -> PGROUNDUP sz / PGSIZE = Z.of_nat (npg sz).
Proof.
  intros H. unfold npg. rewrite PGROUNDUP_eq by (unfold PGSIZE; lia). rewrite Z.div_mul by done. rewrite Z2Nat.id; [done|]. apply Z.div_pos; unfold PGSIZE; lia.
Qed.

Lemma uvmfree_run d root l tab sz e m :
  mach_ok m -> lk_free m LK_kmem -> 0 <= sz < 2 ^ 63 -> upages d root l tab (npg sz) ->
  (forall x, page (npg sz) <= x < MAXVA -> has (pte_at (mem d) tab x) PTE_V = false) ->
  exists m' d', uvmfree root sz e (mkK m d) = Ret tt e (mkK m' d') /\ msame m m' /\ frees (table_pages tab ++ uframes (mem d) tab (npg sz)) l d d'.
Proof.
  intros Hm Hl Hsz U Hn. pose proof U as [V L Hnd M]. pose proof (upages_unmappable _ _ _ _ _ U) as Hun. unfold uvmfree. set (n := npg sz) in *.
  destruct TRAPFRAME_eq as [ET _]. rewrite ET in M.
  assert (exists m1 d1, when (0 <? sz) (uvmunmap root 0 (PGROUNDUP sz / PGSIZE) true) e (mkK m d) = Ret tt e (mkK m1 d1) /\ msame m m1 /\
    vm_ok d1 root (rev (uframes (mem d) tab n) ++ l) tab /\ only_pages (fun q => owned tab q \/ q ∈ uframes (mem d) tab n) d d1 /\
    forall x, 0 <= x < MAXVA -> has (pte_at (mem d1) tab x) PTE_V = false) as (m1 & d1 & R1 & Hm1 & Hv1 & Ho1 & Hn1).
  { destruct (Z.ltb_spec 0 sz) as [Hs|Hs].
    - cbn [when]. rewrite npg_roundup by done. fold n. unfold uvmunmap. change (0 mod PGSIZE =? 0) with true. cbn [negb]. cbv iota.
      rewrite u64_small by (unfold PGSIZE in *; lia). rewrite pages_below_n.
      destruct (unmap_loop_spec root tab true n 0 l e m d) as (m1 & d1 & U1 & U2 & U3 & U4 & U5); try done; [rewrite MAXVA_eq; unfold PGSIZE in *; lia|].
      exists m1, d1. split_and!; try done; [eapply only_pages_mono; [|exact U4]; cbv beta; tauto|].
      intros x Hx. rewrite U5 by done. case_decide; [done|]. apply Hn. lia.
    - assert (n = 0%nat) as En by (unfold n, npg, PGSIZE; assert (sz = 0) as -> by lia; done). rewrite En in *. exists m, d. split; [done|]. split; [apply msame_refl|].
      split; [done|]. split; [apply only_pages_refl|]. intros x Hx. apply Hn. lia. }
  rewrite (bind_Ret _ _ _ _ _ _ _ R1). destruct (freewalk_run d1 root (rev (uframes (mem d) tab n) ++ l) tab e m1) as (m2 & d2 & R2 & Hm2 & T & ET2 & Hk2 & Ho2); eauto with kdb.
  exists m2, d2. split; [done|]. split; [by eapply msame_trans|]. exists (T ++ rev (uframes (mem d) tab n)). split_and!.
  - rewrite ET2. f_equiv. symmetry. apply Permutation_rev.
  - by rewrite <- app_assoc.
  - eapply only_pages_mono; [|eapply only_pages_trans; [exact Ho1|exact Ho2]]. cbv beta. intros q. rewrite elem_of_app, (elem_table_pages d root tab (vo_pt _ _ _ _ V)). tauto.
Qed.

(** ** Page tables of processes *)

Lemma table_pages_disj d root l tab : vm_ok d root l tab -> NoDup (table_pages tab ++ l).
Proof.
  intros [V1 V2 V3 V4]. apply NoDup_app. split_and!; [by eapply table_pages_nodup| |apply V2].
  intros q Hq. apply V4. by apply (elem_table_pages d root tab V3).
Qed.

(** The pages that became tables came from the free list. *)
Lemma ext_pages d root l tab d' l' tab' : vm_ok d root l tab -> vm_ext root d l tab d' l' tab' -> table_pages tab' ++ l' ≡ₚ table_pages tab ++ l.
Proof.
  intros V X. pose proof (vm_ok_ext _ _ _ _ _ _ _ V X) as V'. destruct X as [_ _ (nw & -> & Ho) _].
  rewrite (app_assoc _ nw). f_equiv. pose proof (table_pages_disj _ _ _ _ V) as Hnd. rewrite app_assoc in Hnd. apply NoDup_app in Hnd as [Hnd _].
  apply NoDup_Permutation; [eapply table_pages_nodup; apply V'|done|]. intros q.
  rewrite (elem_table_pages d' root tab' (vo_pt _ _ _ _ V')), elem_of_app, (elem_table_pages d root tab (vo_pt _ _ _ _ V)). apply Ho.
Qed.

(** uvmunmap() of one page whose frame is kept. *)
Lemma unmap1_run d root l tab a e m :
  mach_ok m -> lk_free m LK_kmem -> vm_ok d root l tab -> 0 <= a -> a + PGSIZE <= MAXVA -> a mod PGSIZE = 0 ->
  has (pte_at (mem d) tab a) PTE_V = true -> PTE_FLAGS (pte_at (mem d) tab a) <> PTE_V ->
  exists m' d', uvmunmap root a 1 false e (mkK m d) = Ret tt e (mkK m' d') /\ msame m m' /\ vm_ok d' root l tab /\ only_pages (owned tab) d d' /\
    forall x, 0 <= x < MAXVA -> pte_at (mem d') tab x = if decide (samepage a x) then 0 else pte_at (mem d) tab x.
Proof.
  intros Hm Hl V Ha Hmax Hal H1 H2. unfold uvmunmap. rewrite Hal. change (0 =? 0) with true. cbn [negb]. cbv iota.
  rewrite MAXVA_eq in Hmax. rewrite u64_small by (unfold PGSIZE in *; lia). change (a + 1 * PGSIZE) with (a + Z.of_nat 1 * PGSIZE). rewrite pages_below_n.
  destruct (unmap_loop_spec root tab false 1 a l e m d) as (m1 & d1 & U1 & U2 & U3 & U4 & U5); [done..|rewrite MAXVA_eq; unfold PGSIZE in *; lia| |].
  { split; [|done]. intros x (k & Hk & ->)%npages_from_elem. assert (k = 0%nat) as -> by lia. change (Z.of_nat 0 * PGSIZE) with 0. rewrite Z.add_0_r. done. }
  exists m1, d1. split_and!; try done; [eapply only_pages_mono; [|exact U4]; intros q [H|[H _]]; done|].
  intros x Hx. rewrite U5 by done. pose proof (samepage_range a x Hal) as Hsp. change (Z.of_nat 1 * PGSIZE) with PGSIZE.
  destruct (decide (samepage a x)); [rewrite decide_True by tauto|rewrite decide_False by tauto]; done.
Qed.

(** The address space of a process: [n] user pages, the trampoline and the trapframe page on top. *)
Record topped (d : kdata) (root : Z) (l : list Z) (tab : tables) (n : nat) : Prop := {
  to_up : upages d root l tab n;
  to_tramp : has (pte_at (mem d) tab TRAMPOLINE) PTE_V = true /\ PTE_FLAGS (pte_at (mem d) tab TRAMPOLINE) <> PTE_V;
  to_trapf : has (pte_at (mem d) tab TRAPFRAME) PTE_V = true /\ PTE_FLAGS (pte_at (mem d) tab TRAPFRAME) <> PTE_V;
  to_none : forall x, page n <= x < TRAPFRAME -> has (pte_at (mem d) tab x) PTE_V = false;
}.

Record pspace (d : kdata) (root tf : Z) (l : list Z) (tab : tables) (n : nat) : Prop := {
  ps_top : topped d root l tab n;
  ps_frame : frame_of (mem d) tab TRAPFRAME = tf;
  ps_tf : page_ok d tf;
  ps_own : tf ∉ table_pages tab ++ uframes (mem d) tab n ++ l;
}.

Lemma uframes_ext m m' tab n : page n <= MAXVA -> (forall x, 0 <= x < page n -> pte_at m' tab x = pte_at m tab x) -> uframes m' tab n = uframes m tab n.
Proof.
  intros Hn H. unfold uframes. apply map_ext_in. intros a (k & Hk & ->)%list_elem_of_In%npages_from_elem. unfold frame_of. rewrite H; [done|]. unfold PGSIZE in *. lia.
Qed.

Lemma upages_ext d d' root l tab n : upages d root l tab n -> vm_ok d' root l tab -> syms d' = syms d ->
  (forall x, 0 <= x < page n -> pte_at (mem d') tab x = pte_at (mem d) tab x) -> upages d' root l tab n.
Proof.
  intros [U1 U2 U3 U4] V Es H. destruct TRAPFRAME_eq as [ET _]. split; [done| |rewrite (uframes_ext (mem d)); [done|rewrite MAXVA_eq; unfold PGSIZE in *; lia|done]|done].
  intros k Hk. unfold frame_of, page_ok. rewrite H, Es by (unfold PGSIZE; lia). by apply U2.
Qed.

Lemma proc_freepagetable_run d root l tab sz e m :
  mach_ok m -> lk_free m LK_kmem -> 0 <= sz < 2 ^ 63 -> topped d root l tab (npg sz) ->
  exists m' d', proc_freepagetable root sz e (mkK m d) = Ret tt e (mkK m' d') /\ msame m m' /\
    frees (table_pages tab ++ uframes (mem d) tab (npg sz)) l d d'.
Proof.
  intros Hm Hl Hsz [U [T1 T2] [F1 F2] N]. unfold proc_freepagetable. pose proof (up_vm _ _ _ _ _ U) as V. destruct TRAPFRAME_eq as [ET1 ET2].
  destruct (unmap1_run d root l tab TRAMPOLINE e m) as (m1 & d1 & R1 & Hm1 & V1 & O1 & P1); try done.
  rewrite (bind_Ret _ _ _ _ _ _ _ R1). assert (~ samepage TRAMPOLINE TRAPFRAME) as Hns by by vm_compute.
  destruct (unmap1_run d1 root l tab TRAPFRAME e m1) as (m2 & d2 & R2 & Hm2 & V2 & O2 & P2); try done; [eauto with kdb|eauto with kdb|..].
  { by rewrite P1, decide_False. } { by rewrite P1, decide_False. }
  rewrite (bind_Ret _ _ _ _ _ _ _ R2). pose proof (up_max _ _ _ _ _ U) as Hmax.
  assert (forall x, 0 <= x < TRAPFRAME -> pte_at (mem d2) tab x = pte_at (mem d) tab x) as Hlow.
  { intros x Hx. rewrite P2, P1 by (rewrite MAXVA_eq; unfold PGSIZE in *; lia). rewrite !decide_False; [done|..]; rewrite samepage_range by done; unfold PGSIZE in *; lia. }
  assert (only_pages (owned tab) d d2) as O by (eapply only_pages_mono; [|by eapply only_pages_trans]; by intros q [H|H]).
  destruct (uvmfree_run d2 root l tab sz e m2) as (m3 & d3 & R3 & Hm3 & T & ET & Hk & O3); [eauto with kdb|eauto with kdb|done| | |].
  { eapply upages_ext; [exact U|done|by eapply only_pages_syms|]. intros x Hx. apply Hlow. lia. }
  { intros x Hx. assert (0 <= x) as Hx0 by (unfold PGSIZE in Hx; lia). destruct (decide (x < TRAPFRAME)) as [Hl2|Hl2]; [rewrite Hlow by lia; apply N; lia|]. rewrite P2 by (rewrite MAXVA_eq in *; lia).
    case_decide as Hsp; [done|]. rewrite P1 by (rewrite MAXVA_eq in *; lia). rewrite samepage_range in Hsp by done. rewrite decide_True; [done|].
    apply samepage_range; [done|]. rewrite MAXVA_eq in Hx. unfold PGSIZE in *. lia. }
  exists m3, d3. split; [done|]. split; [eapply msame_trans; [exact Hm1|by eapply msame_trans]|]. exists T.
  rewrite (uframes_ext (mem d)) in ET, O3 by (rewrite ?MAXVA_eq; first [unfold PGSIZE in *; lia|intros; apply Hlow; lia]). split_and!; try done.
  eapply only_pages_mono; [|eapply only_pages_trans; [exact O|exact O3]]. cbv beta. intros q. rewrite elem_of_app, (elem_table_pages d root tab (vo_pt _ _ _ _ V)). tauto.
Qed.

(** A new page table, zeroed. *)
Lemma fresh_table d pg l :
  0 < sy_end (syms d) -> kmem_ok d (pg :: l) ->
  let d1 := kalloc_d d in let d2 := set_mem (memset (mem d1) pg 0 PGSIZE) d1 in
  vm_ok d2 pg l (tab_root pg) /\ only_pages (fun q => q = pg) d d2 /\ table_pages (tab_root pg) ≡ₚ [pg] /\ freelist d = pg /\ pg <> 0.
Proof.
  intros Hend Hk d1 d2. pose proof (kalloc_d_only d pg l Hk) as O1. pose proof (kalloc_d_ok _ _ _ Hk) as Hk1. pose proof (kmem_head _ _ Hk) as Ehd.
  destruct Hk as [(_ & H0 & _) Hnd Hf]. apply NoDup_cons in Hnd as [Hni _]. apply Forall_cons in Hf as [Hpg Hf]. rewrite Forall_forall in Hf.
  assert (only_pages (fun q => q = pg) d1 d2) as O2.
  { apply only_pages_set_mem. intros a Ha. apply memset_out. by apply (Ha pg eq_refl). }
  assert (syms d2 = syms d) as Es by (cbn; apply kalloc_d_syms). assert (page_ok d2 pg) as Hpg2 by (unfold page_ok; by rewrite Es).
  assert (pt_ok d2 pg (tab_root pg)) as Hpt by (apply pt_ok_empty; [done|]; intros a Ha; unfold d2; cbn [mem set_mem]; by rewrite memset_in by lia).
  assert (forall q, owned (tab_root pg) q <-> q = pg) as Ho.
  { intros q. split; [intros [[|] H]; simpl in H; congruence|intros ->; by exists []]. }
  split_and!; try done.
  - split; [by rewrite Es| |done|intros q ->%Ho; done].
    eapply kmem_ok_frame; [exact Hk1|done|done|]. intros q a Hq Ha. apply (op_mem _ _ _ O2). apply (off_pages_apart _ q); [apply (Hf q Hq)|done|].
    intros x ->. split; [apply Hpg|]. by intros ->.
  - eapply only_pages_mono; [|eapply only_pages_trans; [exact O1|exact O2]]. by intros q [H|H].
Qed.

(** Giving back a page table that maps nothing. *)
Lemma uvmfree0_run d root l tab e m : mach_ok m -> lk_free m LK_kmem -> vm_ok d root l tab -> (forall x, 0 <= x < MAXVA -> has (pte_at (mem d) tab x) PTE_V = false) ->
  exists m' d' l', uvmfree root 0 e (mkK m d) = Ret tt e (mkK m' d') /\ msame m m' /\ kmem_ok d' l' /\ l' ≡ₚ table_pages tab ++ l /\ only_pages (fun q => q ∈ table_pages tab) d d'.
Proof.
  intros Hm Hl V Hn. change (uvmfree root 0) with (ret tt;; freewalk root). mrun.
  destruct (freewalk_run d root l tab e m Hm Hl V Hn) as (m' & d' & R & Hm' & T & ET & Hk & O). exists m', d', (T ++ l). split_and!; try done. by rewrite ET.
Qed.

Lemma entry_leaf pa fl : 0 <= pa -> 0 <= fl < 1024 -> Z.lor fl PTE_V <> PTE_V ->
  has (Z.lor (Z.lor (PA2PTE pa) fl) PTE_V) PTE_V = true /\ PTE_FLAGS (Z.lor (Z.lor (PA2PTE pa) fl) PTE_V) <> PTE_V.
Proof.
  intros H1 H2 H3. split; [apply has_V_lor|]. rewrite <- Z.lor_assoc, PTE_FLAGS_entry; [done|done|]. apply (lor_range _ _ 10); unfold PTE_V; lia.
Qed.

(** The two mappings on top of a new table [pg], taken from the free list [l0]. *)
Section Top.
Context (d0 : kdata) (pg tf : Z) (l0 : list Z) (p : nat).
Hypothesis Hpg : pg ∈ l0.

Record topping (d : kdata) (l : list Z) (tab : tables) : Prop := {
  tg_vm : vm_ok d pg l tab;
  tg_only : only_pages (fun q => q ∈ l0) d0 d;
  tg_free : l0 ≡ₚ table_pages tab ++ l;
}.

Lemma topping_ext d l tab d' l' tab' : topping d l tab -> vm_ok d' pg l' tab' -> vm_ext pg d l tab d' l' tab' -> topping d' l' tab'.
Proof using.
  clear Hpg. intros [V O E] V' X. pose proof (ext_pages _ _ _ _ _ _ _ V X) as EX. split; [done| |by rewrite EX].
  eapply only_pages_mono; [|eapply only_pages_trans; [exact O|apply (ve_only _ _ _ _ _ _ _ X)]]. cbv beta. intros q [H|H]; [done|].
  rewrite E, <- EX, elem_of_app. left. by apply (elem_table_pages d' pg tab' (vo_pt _ _ _ _ V')).
Qed.

Lemma topping_free d l tab e m : topping d l tab -> mach_ok m -> lk_free m LK_kmem -> (forall x, 0 <= x < MAXVA -> has (pte_at (mem d) tab x) PTE_V = false) ->
  exists m' d' l', uvmfree pg 0 e (mkK m d) = Ret tt e (mkK m' d') /\ msame m m' /\ only_pages (fun q => q ∈ l0) d0 d' /\ kmem_ok d' l' /\ l' ≡ₚ l0.
Proof using.
  clear Hpg. intros [V O E] Hm Hl Hn. destruct (uvmfree0_run d pg l tab e m Hm Hl V Hn) as (m' & d' & l' & R & Hm' & Hk & E' & O').
  exists m', d', l'. split_and!; try done; [|by rewrite E', E]. eapply only_pages_mono; [|eapply only_pages_trans; [exact O|exact O']]. cbv beta. intros q [H|H]; [done|]. rewrite E, elem_of_app. by left.
Qed.

Lemma topping_unmap d l tab d' : topping d l tab -> vm_ok d' pg l tab -> only_pages (owned tab) d d' -> topping d' l tab.
Proof using.
  clear Hpg. intros [V O E] V' O'. split; [done| |done]. eapply only_pages_mono; [|eapply only_pages_trans; [exact O|exact O']]. cbv beta. intros q [H|H]; [done|].
  rewrite E, elem_of_app. left. by apply (elem_table_pages d pg tab (vo_pt _ _ _ _ V)).
Qed.

Lemma topping_pspace tr d l tab : topping d l tab -> page_ok d tf ->
  pte_at (mem d) tab TRAMPOLINE = Z.lor (Z.lor (PA2PTE tr) (Z.lor PTE_R PTE_X)) PTE_V ->
  pte_at (mem d) tab TRAPFRAME = Z.lor (Z.lor (PA2PTE tf) (Z.lor PTE_R PTE_W)) PTE_V -> 0 <= tr -> (tf ∉ l0) ->
  (forall x, 0 <= x < TRAPFRAME -> has (pte_at (mem d) tab x) PTE_V = false) -> pspace d pg tf l tab 0.
Proof using.
  clear Hpg. intros [V O E] Htf E1 E2 Htr Hni Hn. destruct (page_ok_bounds d tf (vo_end _ _ _ _ V) Htf) as [B1 B2]. split; [split|..].
  - split; [done|intros; lia|simpl; by eapply table_pages_disj|done].
  - rewrite E1. by apply entry_leaf.
  - rewrite E2. apply entry_leaf; [lia|done|done].
  - intros x Hx. apply Hn. lia.
  - unfold frame_of. rewrite E2, <- Z.lor_assoc. apply PTE2PA_entry; [done|lia|done].
  - done.
  - simpl. by rewrite <- E.
Qed.
End Top.

Lemma topless x : 0 <= x < TRAPFRAME -> 0 <= x < MAXVA /\ ~ samepage TRAMPOLINE x /\ ~ samepage TRAPFRAME x.
Proof.
  intros Hx. destruct TRAPFRAME_eq as [E1 E2]. rewrite MAXVA_eq. split; [unfold PGSIZE in *; lia|]. rewrite !samepage_range by done. unfold PGSIZE in *. lia.
Qed.

Lemma proc_pagetable_run d p tf l e m :
  mach_ok m -> lk_free m LK_kmem -> 0 < sy_end (syms d) -> kmem_ok d l -> p_trapframe (procs d p) = tf -> page_ok d tf -> (tf ∉ l) ->
  0 <= sy_trampoline (syms d) -> sy_trampoline (syms d) + PGSIZE <= 2 ^ 56 ->
  exists r m' d' l', proc_pagetable p e (mkK m d) = Ret r e (mkK m' d') /\ msame m m' /\ only_pages (fun q => q ∈ l) d d' /\
    ((r = 0 /\ kmem_ok d' l' /\ l' ≡ₚ l) \/
     (r <> 0 /\ exists tab, pspace d' r tf l' tab 0 /\ l ≡ₚ table_pages tab ++ l' /\ forall x, 0 <= x < TRAPFRAME -> pte_at (mem d') tab x = 0)).
Proof.
  intros Hm Hl Hend Hk Etf Htf Htfl Ht0 Ht1. unfold proc_pagetable, uvmcreate.
  mrun. mcall (kalloc_run e m d Hm Hl). rewrite (kmem_head _ _ Hk). destruct l as [|pg l].
  { rewrite kalloc_d_nil by done. cbn [hd Z.eqb]. mrun. exists 0, (msettle m), d, []. split_and!; [done|apply msame_settle|apply only_pages_refl|]. by left. }
  destruct (fresh_table d pg l Hend Hk) as (V2 & O2 & ET2 & _ & Hpg0). cbn [hd]. rewrite (proj2 (Z.eqb_neq _ _) Hpg0). unfold setmem. mrun. rewrite (proj2 (Z.eqb_neq _ _) Hpg0). mrun.
  set (d2 := set_mem _ _) in *. assert (topping d pg (pg :: l) d2 l (tab_root pg)) as G2.
  { split; [done|eapply only_pages_mono; [|exact O2]; intros q ->; by constructor|]. by rewrite ET2. }
  assert (syms d2 = syms d) as Es2 by by eapply only_pages_syms. assert (forall x, pte_at (mem d2) (tab_root pg) x = 0) as Z2 by done.
  destruct (map_page pg (Z.lor PTE_R PTE_X) TRAMPOLINE (sy_trampoline (syms d2)) e (msettle m) d2 l (tab_root pg)) as (r & m3 & d3 & l3 & tab3 & R3 & Hm3 & V3 & X3 & H3);
    [by apply msettle_ok|by apply msettle_free|done|done|done|done|done|by rewrite Es2|by rewrite Es2|done|]. mcall R3.
  pose proof (topping_ext _ _ _ _ _ _ _ _ _ G2 V3 X3) as G3. assert (msame m m3) as Hm3' by (eapply msame_trans; [apply msame_settle|done]).
  destruct H3 as [[-> P3]|(-> & -> & P3)]; cbn [Z.ltb Z.compare]; cbv iota.
  2: { destruct (topping_free _ _ _ _ _ _ e m3 G3) as (m4 & d4 & l4 & R4 & Hm4 & O4 & Hk4 & E4); [eauto with kdb|eauto with kdb|intros x Hx; by rewrite P3, Z2|].
       mcall R4. exists 0, m4, d4, l4. split_and!; [done|by eapply msame_trans|done|by left]. }
  assert (p_trapframe (procs d3 p) = tf) as Etf3 by by rewrite (op_rest _ _ _ (tg_only _ _ _ _ _ _ G3)). mrun. rewrite Etf3.
  destruct Htf as [Htf1 Htf2]. assert (~ samepage TRAMPOLINE TRAPFRAME /\ TRAPFRAME mod PGSIZE = 0) as [Hns Hal] by by vm_compute.
  destruct (map_page pg (Z.lor PTE_R PTE_W) TRAPFRAME tf e m3 d3 l3 tab3) as (r & m4 & d4 & l4 & tab4 & R4 & Hm4 & V4 & X4 & H4);
    [eauto with kdb|eauto with kdb|done|done|done|done|done|lia|unfold PHYSTOP, KERNBASE, PGSIZE in *; lia|by rewrite P3, decide_False, Z2|]. mcall R4.
  pose proof (topping_ext _ _ _ _ _ _ _ _ _ G3 V4 X4) as G4. assert (msame m m4) as Hm4' by by eapply msame_trans. destruct (entry_leaf (sy_trampoline (syms d2)) (Z.lor PTE_R PTE_X)) as [E1 E2]; [by rewrite Es2|done|done|].
  destruct H4 as [[-> P4]|(-> & -> & P4)]; cbn [Z.ltb Z.compare]; cbv iota.
  - exists pg, m4, d4, l4. split_and!; [done|done|apply G4|]. right. split; [done|]. exists tab4. split_and!; [|apply G4|].
    2: { intros x Hx. apply topless in Hx as (Hx1 & Hx2 & Hx3). by rewrite P4, P3, !decide_False. }
    assert (page_ok d4 tf) as Htf4 by (unfold page_ok; by rewrite (only_pages_syms _ _ _ (tg_only _ _ _ _ _ _ G4))).
    eapply topping_pspace; [exact G4|done|by rewrite P4, P3, decide_False, decide_True by (by vm_compute)|by rewrite P4, decide_True|..]; try done; [by rewrite Es2|].
    intros x Hx. apply topless in Hx as (Hx1 & Hx2 & Hx3). by rewrite P4, P3, !decide_False.
  - destruct (unmap1_run d4 pg [] tab4 TRAMPOLINE e m4) as (m5 & d5 & R5 & Hm5 & V5 & O5 & P5); try done; [eauto with kdb|eauto with kdb|by rewrite P4, P3, decide_True..|].
    mcall R5. destruct (topping_free d pg (pg :: l) d5 [] tab4 e m5) as (m6 & d6 & l6 & R6 & Hm6 & O6 & Hk6 & E6).
    + by eapply topping_unmap.
    + eauto with kdb.
    + eauto with kdb.
    + intros x Hx. rewrite P5, P4, P3 by done. repeat case_decide; by rewrite ?Z2.
    + mcall R6. exists 0, m6, d6, l6. split_and!; [done|eapply msame_trans; [exact Hm4'|by eapply msame_trans]|done|by left].
Qed.

(** Pages of others may change. *)
Lemma topped_ext d d' root l l' tab n : topped d root l tab n -> vm_ok d' root l' tab -> syms d' = syms d ->
  (forall x, pte_at (mem d') tab x = pte_at (mem d) tab x) -> NoDup (table_pages tab ++ uframes (mem d) tab n ++ l') -> topped d' root l' tab n.
Proof.
  intros [[U1 U2 U3 U4] T F N] V Es H Hnd. split; [|by rewrite H|by rewrite H|intros x Hx; rewrite H; by apply N].
  assert (uframes (mem d') tab n = uframes (mem d) tab n) as EU by (unfold uframes, frame_of; apply map_ext; intros a; by rewrite H).
  split; [done| |by rewrite EU|done]. intros k Hk. unfold frame_of, page_ok. rewrite H, Es. by apply U2.
Qed.
