(* ===== verification/UvmGrow.v ===== *)
(** * Growing and shrinking an address space (kernel/vm.c, growproc() of proc.c)

    uvmalloc() adds zeroed pages, uvmdealloc() returns the pages above the new size;
    a uvmalloc() that runs out of memory takes back what it added. *)

From S2P Require Import Prelude State Spinlock CString Kalloc Sched Vm VmSpec ProcMem Wp UvmSpec.
Open Scope Z_scope.

Lemma uframes_app m tab j n : uframes m tab (j + n) = uframes m tab j ++ map (frame_of m tab) (npages_from (page j) n).
Proof.
  unfold uframes, npages_from. rewrite seq_app, !map_app, !map_map. f_equal. simpl. rewrite seq_map_add. apply map_ext. intros k. f_equal. lia.
Qed.

(** ** Unmapping the top pages *)

Lemma pspace_unmap d root tf l tab j n e m :
  mach_ok m -> lk_free m LK_kmem -> pspace d root tf l tab (j + n) ->
  exists m' d' l', uvmunmap root (page j) (Z.of_nat n) true e (mkK m d) = Ret tt e (mkK m' d') /\ msame m m' /\ pspace d' root tf l' tab j /\
    l' ≡ₚ map (frame_of (mem d) tab) (npages_from (page j) n) ++ l /\
    only_pages (fun q => owned tab q \/ q ∈ map (frame_of (mem d) tab) (npages_from (page j) n)) d d' /\
    forall x, 0 <= x < page j -> pte_at (mem d') tab x = pte_at (mem d) tab x.
Proof.
  intros Hm Hl [[U Htr Htf Hno] Hfr Hp Hown]. pose proof U as [V L Hnd Hmax]. destruct TRAPFRAME_eq as [E1 E2]. destruct (upages_unmappable _ _ _ _ _ U) as [Hun Hund].
  fold (uframes (mem d) tab (j + n)) in Hund. rewrite uframes_app in Hund, Hnd, Hown. set (fr := map _ (npages_from (page j) n)) in *.
  assert (page (j + n) = page j + page n) as Ejn by (rewrite Nat2Z.inj_add; unfold PGSIZE; lia). rewrite Ejn in *.
  unfold uvmunmap. rewrite (Z.mod_mul _ PGSIZE) by done. change (0 =? 0) with true. cbn [negb]. cbv iota. rewrite u64_small by (unfold PGSIZE in *; lia). rewrite pages_below_n.
  destruct (unmap_loop_spec root tab true n (page j) l e m d) as (m1 & d1 & R1 & Hm1 & V1 & O1 & P1);
    [done|done|done|unfold PGSIZE; lia|by apply Z.mod_mul|rewrite MAXVA_eq; unfold PGSIZE in *; lia| |].
  { split; [|intros _; specialize (Hund eq_refl); by apply NoDup_app in Hund as (_ & _ & Hund)]. intros a (k & Hk & ->)%npages_from_elem. apply Hun. apply npages_from_elem. exists (j + k)%nat. split; [lia|]. lia. }
  fold fr in V1, O1. exists m1, d1, (rev fr ++ l). split; [done|]. split; [done|].
  assert (forall x, 0 <= x < page j -> pte_at (mem d1) tab x = pte_at (mem d) tab x) as Hlow by (intros x Hx; rewrite P1 by (rewrite MAXVA_eq; unfold PGSIZE in *; lia); rewrite decide_False by lia; done).
  assert (forall x, page j + page n <= x < MAXVA -> pte_at (mem d1) tab x = pte_at (mem d) tab x) as Hhigh by (intros x Hx; rewrite P1 by (unfold PGSIZE in *; lia); rewrite decide_False by lia; done).
  assert (pte_at (mem d1) tab TRAMPOLINE = pte_at (mem d) tab TRAMPOLINE /\ pte_at (mem d1) tab TRAPFRAME = pte_at (mem d) tab TRAPFRAME) as [T1 T2] by (split; apply Hhigh; rewrite MAXVA_eq; unfold PGSIZE in *; lia).
  assert (uframes (mem d1) tab j = uframes (mem d) tab j) as EU by (apply uframes_ext; [rewrite MAXVA_eq; unfold PGSIZE in *; lia|done]).
  pose proof (only_pages_syms _ _ _ O1) as Es. assert (rev fr ++ l ≡ₚ fr ++ l) as Erev by (f_equiv; symmetry; apply Permutation_rev).
  split_and!; [|done|eapply only_pages_mono; [|exact O1]; cbv beta; tauto|done]. split; [split|..]; rewrite ?T1, ?T2; try done.
  - split; [done| |by rewrite EU, Erev, <- !app_assoc in *|unfold PGSIZE in *; lia]. intros k Hk. unfold frame_of, page_ok. rewrite Hlow, Es by (unfold PGSIZE; lia). apply L. lia.
  - intros x Hx. destruct (decide (x < page j + page n)) as [H|H].
    + rewrite P1 by (rewrite MAXVA_eq; unfold PGSIZE in *; lia). rewrite decide_True by lia. done.
    + rewrite Hhigh by (rewrite MAXVA_eq; unfold PGSIZE in *; lia). apply Hno. lia.
  - unfold frame_of. by rewrite T2.
  - unfold page_ok. by rewrite Es.
  - by rewrite EU, Erev, <- !app_assoc in *.
Qed.

(** ** Mapping one more page *)

Section MapOne.
Context (d : kdata) (root tf pg : Z) (l : list Z) (tab : tables) (i : nat).
Hypothesis Hsp : pspace d root tf (pg :: l) tab i.
Hypothesis Hmax : page (S i) <= TRAPFRAME.

Let V : vm_ok d root (pg :: l) tab := up_vm _ _ _ _ _ (to_up _ _ _ _ _ (ps_top _ _ _ _ _ _ Hsp)).
Notation d2 := (set_mem (memset (mem (kalloc_d d)) pg 0 PGSIZE) (kalloc_d d)).

(** The page taken from the allocator and cleared. *)
Lemma take_clear : vm_ok d2 root l tab /\ (forall x, pte_at (mem d2) tab x = pte_at (mem d) tab x) /\ only_pages (fun q => q = pg) d d2 /\
  (forall o, 0 <= o < PGSIZE -> mem d2 (pg + o) = 0) /\ page_ok d pg /\ pg <> 0.
Proof using All.
  destruct (vm_ok_kalloc d root pg l tab V) as (K1 & K2 & _ & K4 & K5 & K6 & K7 & K8).
  assert (only_pages (fun q => q = pg) (kalloc_d d) d2) as O by (apply only_pages_set_mem; intros a Ha; apply memset_out; by apply (Ha pg eq_refl)).
  destruct (vm_ok_frame (fun q => q = pg) (kalloc_d d) d2 root l tab K1 O eq_refl) as [F1 F2]; [intros q ->; split; [apply K5|done]|].
  split_and!; [done|intros x; by rewrite F2, K2|eapply only_pages_mono; [|eapply only_pages_trans; [exact K8|exact O]]; by intros q [H|H]| |done|done].
  intros o Ho. cbn [mem set_mem]. rewrite memset_in by lia. done.
Qed.

(** Frames survive when only page [pg] and tables change. *)
Lemma map_frames d3 l3 tab3 n : (n <= i)%nat -> vm_ok d3 root l3 tab3 -> vm_ext root d2 l tab d3 l3 tab3 ->
  (forall x, 0 <= x < page n -> pte_at (mem d3) tab3 x = pte_at (mem d) tab x) -> uframes (mem d3) tab3 n = uframes (mem d) tab n.
Proof using All.
  intros Hn V3 X H. destruct TRAPFRAME_eq as [E1 E2]. unfold uframes. apply map_ext_in. intros a (k & Hk & ->)%list_elem_of_In%npages_from_elem. unfold frame_of. rewrite H; [done|]. unfold PGSIZE in *. lia.
Qed.

Lemma map_account d3 l3 tab3 : vm_ok d3 root l3 tab3 -> vm_ext root d2 l tab d3 l3 tab3 ->
  table_pages tab3 ++ uframes (mem d) tab i ++ pg :: l3 ≡ₚ table_pages tab ++ uframes (mem d) tab i ++ pg :: l.
Proof using All.
  intros V3 X. destruct take_clear as (K1 & _). pose proof (ext_pages _ _ _ _ _ _ _ K1 X) as E.
  rewrite <- !(Permutation_middle (uframes _ _ _)), <- !Permutation_middle. f_equiv. rewrite (Permutation_app_swap_app (table_pages tab3)), (Permutation_app_swap_app (table_pages tab)). by rewrite E.
Qed.

Lemma pspace_mapped fl d3 l3 tab3 : 0 <= fl < 1024 -> Z.lor fl PTE_V <> PTE_V -> vm_ok d3 root l3 tab3 -> vm_ext root d2 l tab d3 l3 tab3 ->
  (forall x, 0 <= x < MAXVA -> pte_at (mem d3) tab3 x = if decide (samepage (page i) x) then Z.lor (Z.lor (PA2PTE pg) fl) PTE_V else pte_at (mem d2) tab x) ->
  pspace d3 root tf l3 tab3 (S i) /\ (forall x, 0 <= x < page i -> pte_at (mem d3) tab3 x = pte_at (mem d) tab x) /\
  frame_of (mem d3) tab3 (page i) = pg /\ PTE_FLAGS (pte_at (mem d3) tab3 (page i)) = Z.lor fl PTE_V /\
  uframes (mem d3) tab3 (S i) = uframes (mem d) tab i ++ [pg].
Proof using All.
  intros Hfl Hleaf V3 X P3. destruct take_clear as (K1 & K2 & K3 & K4 & K5 & K6). destruct TRAPFRAME_eq as [E1 E2]. pose proof (map_account d3 l3 tab3 V3 X) as EA.
  pose proof Hsp as [[U Htr Htf Hno] Hfr Hp Hown]. pose proof U as [_ L Hnd _]. pose proof (ve_only _ _ _ _ _ _ _ X) as O3.
  assert (syms d3 = syms d) as Es by (rewrite (only_pages_syms _ _ _ O3); by eapply only_pages_syms).
  assert (page i mod PGSIZE = 0) as Hal by by apply Z.mod_mul. assert (page (S i) = page i + PGSIZE) as ESi by lia.
  assert (forall x, 0 <= x < MAXVA -> ~ (page i <= x < page i + PGSIZE) -> pte_at (mem d3) tab3 x = pte_at (mem d) tab x) as Hother.
  { intros x Hx Hn. rewrite P3, decide_False, K2; [done| |done]. by rewrite samepage_range. }
  assert (forall x, 0 <= x < page i -> pte_at (mem d3) tab3 x = pte_at (mem d) tab x) as Hlow by (intros x Hx; apply Hother; [rewrite MAXVA_eq; unfold PGSIZE in *; lia|lia]).
  assert (pte_at (mem d3) tab3 (page i) = Z.lor (Z.lor (PA2PTE pg) fl) PTE_V) as Ei by (rewrite P3, decide_True by (done || rewrite MAXVA_eq; unfold PGSIZE in *; lia); done).
  destruct (page_ok_bounds d pg (vo_end _ _ _ _ V) K5) as [B1 B2]. assert (0 <= Z.lor fl PTE_V < 1024) as Hfl2 by (apply (lor_range _ _ 10); unfold PTE_V; lia).
  assert (frame_of (mem d3) tab3 (page i) = pg) as Efr by (unfold frame_of; rewrite Ei, <- Z.lor_assoc; apply PTE2PA_entry; [done|lia|done]).
  assert (uframes (mem d3) tab3 (S i) = uframes (mem d) tab i ++ [pg]) as EU.
  { replace (S i) with (i + 1)%nat by lia. rewrite uframes_app, (map_frames d3 l3 tab3 i) by done. f_equal. cbn. rewrite Z.mul_0_l, Z.add_0_r. by rewrite Efr. }
  assert (pte_at (mem d3) tab3 TRAMPOLINE = pte_at (mem d) tab TRAMPOLINE /\ pte_at (mem d3) tab3 TRAPFRAME = pte_at (mem d) tab TRAPFRAME) as [T1 T2] by (split; apply Hother; rewrite ?MAXVA_eq; unfold PGSIZE in *; lia).
  split_and!; [|done|done|by rewrite Ei, <- Z.lor_assoc, PTE_FLAGS_entry by lia|done].
  assert (table_pages tab3 ++ uframes (mem d3) tab3 (S i) ++ l3 ≡ₚ table_pages tab ++ uframes (mem d) tab i ++ pg :: l) as EA2 by by rewrite EU, <- app_assoc.
  split; [split|..]; rewrite ?T1, ?T2; try done.
  - split; [done| |by rewrite EA2|done]. intros k Hk. destruct (decide (k = i)) as [->|Hne].
    + rewrite Efr, Ei. split; [apply entry_leaf; [lia|done|done]|]. unfold page_ok. by rewrite Es.
    + unfold frame_of, page_ok. rewrite Hlow, Es by (unfold PGSIZE; lia). apply L. lia.
  - intros x Hx. rewrite Hother by (rewrite ?MAXVA_eq; unfold PGSIZE in *; lia). apply Hno. unfold PGSIZE in *. lia.
  - unfold frame_of. by rewrite T2.
  - unfold page_ok. by rewrite Es.
  - by rewrite EA2.
Qed.

(** The page could not be mapped and goes back. *)
Lemma pspace_unmapped d3 tab3 : vm_ok d3 root [] tab3 -> vm_ext root d2 l tab d3 [] tab3 ->
  (forall x, 0 <= x < MAXVA -> pte_at (mem d3) tab3 x = pte_at (mem d2) tab x) ->
  page_ok d3 pg /\ pspace (kfree_d pg d3) root tf [pg] tab3 i /\ (forall x, 0 <= x < MAXVA -> pte_at (mem (kfree_d pg d3)) tab3 x = pte_at (mem d) tab x).
Proof using All.
  intros V3 X P3. destruct take_clear as (K1 & K2 & K3 & K4 & K5 & K6). destruct TRAPFRAME_eq as [E1 E2]. pose proof (map_account d3 [] tab3 V3 X) as EA.
  pose proof Hsp as [[U Htr Htf Hno] Hfr Hp Hown]. pose proof U as [_ L Hnd Hm0]. pose proof (ve_only _ _ _ _ _ _ _ X) as O3.
  assert (syms d3 = syms d) as Es by (rewrite (only_pages_syms _ _ _ O3); by eapply only_pages_syms). assert (page_ok d3 pg) as Hpg3 by (unfold page_ok; by rewrite Es).
  assert (~ owned tab3 pg) as Hno3.
  { intros H. rewrite <- EA in Hnd. apply NoDup_app in Hnd as (_ & Hnd & _). apply (Hnd pg); [by apply (elem_table_pages d3 root tab3 (vo_pt _ _ _ _ V3))|]. rewrite elem_of_app. right. by constructor. }
  destruct (vm_ok_kfree d3 root [] tab3 pg V3 Hpg3 (not_elem_of_nil _) Hno3) as [V4 P4].
  assert (forall x, 0 <= x < MAXVA -> pte_at (mem (kfree_d pg d3)) tab3 x = pte_at (mem d) tab x) as Hall by (intros x Hx; by rewrite P4, P3, K2).
  split_and!; try done. assert (uframes (mem (kfree_d pg d3)) tab3 i = uframes (mem d) tab i) as EU.
  { unfold uframes. apply map_ext_in. intros a (k & Hk & ->)%list_elem_of_In%npages_from_elem. unfold frame_of. rewrite Hall; [done|]. rewrite MAXVA_eq. unfold PGSIZE in *. lia. }
  assert (pte_at (mem (kfree_d pg d3)) tab3 TRAMPOLINE = pte_at (mem d) tab TRAMPOLINE /\ pte_at (mem (kfree_d pg d3)) tab3 TRAPFRAME = pte_at (mem d) tab TRAPFRAME) as [T1 T2] by (split; by apply Hall).
  split; [split|..]; rewrite ?T1, ?T2; try done.
  - split; [done| |by rewrite EU, EA|done]. intros k Hk. unfold frame_of, page_ok. rewrite Hall by (rewrite MAXVA_eq; unfold PGSIZE in *; lia). change (syms (kfree_d pg d3)) with (syms d3). rewrite Es. by apply L.
  - intros x Hx. rewrite Hall by (rewrite ?MAXVA_eq; unfold PGSIZE in *; lia). by apply Hno.
  - unfold frame_of. by rewrite T2.
  - unfold page_ok. change (syms (kfree_d pg d3)) with (syms d3). by rewrite Es.
  - by rewrite EU, EA.
Qed.
End MapOne.

(** ** uvmdealloc() *)

Lemma npg_mono a b : a <= b -> (npg a <= npg b)%nat.
Proof. intros H. unfold npg, PGSIZE. Z.to_euclidean_division_equations. lia. Qed.

Lemma npg_page k : npg (page k) = k.
Proof. unfold npg, PGSIZE. Z.to_euclidean_division_equations. lia. Qed.

Lemma roundup_npg sz : 0 <= sz < 2 ^ 63 -> PGROUNDUP sz = page (npg sz).
Proof. intros H. rewrite <- npg_roundup by done. rewrite PGROUNDUP_eq by (unfold PGSIZE; lia). by rewrite Z.div_mul. Qed.

Definition topframes (d : kdata) (tab : tables) (j n : nat) : list Z := map (frame_of (mem d) tab) (npages_from (page j) (n - j)).

(** What giving up the pages from number [j] on does. *)
Record shrunk (d : kdata) (root tf : Z) (l : list Z) (tab : tables) (n j : nat) (d' : kdata) (l' : list Z) : Prop := {
  sh_space : pspace d' root tf l' tab j;
  sh_list : l' ≡ₚ topframes d tab j n ++ l;
  sh_only : only_pages (fun q => owned tab q \/ q ∈ topframes d tab j n) d d';
  sh_low : forall x, 0 <= x < page j -> pte_at (mem d') tab x = pte_at (mem d) tab x;
}.

Lemma shrunk_refl d root tf l tab n : pspace d root tf l tab n -> shrunk d root tf l tab n n d l.
Proof. intros H. assert (topframes d tab n n = []) as E by (unfold topframes; by rewrite Nat.sub_diag). split; rewrite ?E; try done. apply only_pages_refl. Qed.

Lemma uvmdealloc_run d root tf l tab old new e m :
  mach_ok m -> lk_free m LK_kmem -> 0 <= old < 2 ^ 63 -> 0 <= new < 2 ^ 63 -> pspace d root tf l tab (npg old) ->
  exists m' d' l', uvmdealloc root old new e (mkK m d) = Ret (Z.min old new) e (mkK m' d') /\ msame m m' /\
    shrunk d root tf l tab (npg old) (npg (Z.min old new)) d' l'.
Proof.
  intros Hm Hl Ho Hn Hsp. unfold uvmdealloc. rewrite Z.geb_leb. destruct (Z.leb_spec old new) as [H|H].
  - rewrite Z.min_l by done. exists m, d, l. split; [done|]. split; [apply msame_refl|]. by apply shrunk_refl.
  - rewrite Z.min_r by lia. pose proof (npg_mono new old ltac:(lia)) as Hle. rewrite !roundup_npg by done. destruct (Z.ltb_spec (page (npg new)) (page (npg old))) as [H1|H1].
    + assert ((page (npg old) - page (npg new)) / PGSIZE = Z.of_nat (npg old - npg new)) as -> by (rewrite <- Z.mul_sub_distr_r, Z.div_mul by done; lia).
      assert (Z.of_nat (npg old) <= 2 ^ 30) as Hb by (pose proof (up_max _ _ _ _ _ (to_up _ _ _ _ _ (ps_top _ _ _ _ _ _ Hsp))) as H2; destruct TRAPFRAME_eq as [E1 E2]; unfold PGSIZE in *; lia).
      rewrite i32_small by (unfold int_range; lia). rewrite u64_small by lia.
      replace (npg old) with (npg new + (npg old - npg new))%nat in Hsp by lia.
      destruct (pspace_unmap d root tf l tab (npg new) (npg old - npg new) e m Hm Hl Hsp) as (m' & d' & l' & R & S1 & S2 & S3 & S4 & S5).
      exists m', d', l'. split; [unfold when; cbv [bind]; by rewrite R|]. split; [done|]. by split.
    + assert (npg new = npg old) as -> by (unfold PGSIZE in *; lia). exists m, d, l. split; [done|]. split; [apply msame_refl|]. by apply shrunk_refl.
Qed.

(** ** uvmalloc() *)

Definition UFLAGS : Z := Z.lor (Z.lor (Z.lor PTE_W PTE_X) PTE_R) PTE_U.

Section Grow.
Context (root tf : Z) (d0 : kdata) (l0 : list Z) (tab0 : tables) (n0 : nat).
Hypothesis Hsp0 : pspace d0 root tf l0 tab0 n0.

(** [k] pages were added on top; the rest of the free list went into page tables or is still free. *)
Record grown (k : nat) (d : kdata) (l : list Z) (tab : tables) : Prop := {
  gr_space : pspace d root tf l tab (n0 + k);
  gr_old : forall x, 0 <= x < page n0 -> pte_at (mem d) tab x = pte_at (mem d0) tab0 x;
  gr_new : forall j, (n0 <= j < n0 + k)%nat -> PTE_FLAGS (pte_at (mem d) tab (page j)) = Z.lor UFLAGS PTE_V /\
    forall o, 0 <= o < PGSIZE -> mem d (frame_of (mem d) tab (page j) + o) = 0;
  gr_list : table_pages tab ++ topframes d tab n0 (n0 + k) ++ l ≡ₚ table_pages tab0 ++ l0;
  gr_only : only_pages (fun q => owned tab0 q \/ q ∈ l0) d0 d;
}.

Lemma grown_init : grown 0 d0 l0 tab0.
Proof using Hsp0.
  split; rewrite ?Nat.add_0_r; [done|done|lia| |apply only_pages_refl]. unfold topframes. by rewrite Nat.sub_diag.
Qed.

Lemma grown_in k d l tab q : grown k d l tab -> owned tab q \/ q ∈ topframes d tab n0 (n0 + k) \/ q ∈ l -> owned tab0 q \/ q ∈ l0.
Proof using Hsp0.
  intros G H. pose proof (up_vm _ _ _ _ _ (to_up _ _ _ _ _ (ps_top _ _ _ _ _ _ Hsp0))) as V0. pose proof (up_vm _ _ _ _ _ (to_up _ _ _ _ _ (ps_top _ _ _ _ _ _ (gr_space _ _ _ _ G)))) as V1.
  rewrite <- (elem_table_pages d0 root tab0 (vo_pt _ _ _ _ V0)). rewrite <- (elem_table_pages d root tab (vo_pt _ _ _ _ V1)) in H.
  rewrite <- elem_of_app, <- (gr_list _ _ _ _ G), !elem_of_app. tauto.
Qed.

Lemma topframes_S d tab k : topframes d tab n0 (n0 + S k) = topframes d tab n0 (n0 + k) ++ [frame_of (mem d) tab (page (n0 + k))].
Proof using.
  clear. unfold topframes, npages_from. rewrite !Nat.add_sub_swap, !Nat.sub_diag by done. rewrite !Nat.add_0_l, seq_S, !map_app. cbn. do 3 f_equal. lia.
Qed.

Lemma topframes_ext d d' tab tab' k : (forall x, page n0 <= x < page (n0 + k) -> pte_at (mem d') tab' x = pte_at (mem d) tab x) ->
  topframes d' tab' n0 (n0 + k) = topframes d tab n0 (n0 + k).
Proof using.
  clear. intros H. unfold topframes. apply map_ext_in. intros a (j & Hj & ->)%list_elem_of_In%npages_from_elem. unfold frame_of. rewrite H; [done|]. unfold PGSIZE. lia.
Qed.

Lemma elem_topframes d tab k q : q ∈ topframes d tab n0 (n0 + k) <-> exists j, (n0 <= j < n0 + k)%nat /\ q = frame_of (mem d) tab (page j).
Proof using.
  clear. unfold topframes. rewrite list_elem_of_In, in_map_iff. split.
  - intros (a & <- & (j & Hj & ->)%list_elem_of_In%npages_from_elem). exists (n0 + j)%nat. split; [lia|]. f_equal. lia.
  - intros (j & Hj & ->). exists (page j). split; [done|]. apply list_elem_of_In, npages_from_elem. exists (j - n0)%nat. split; [lia|]. unfold PGSIZE. lia.
Qed.

Section Step.
Context (k : nat) (d : kdata) (pg : Z) (l : list Z) (tab : tables).
Hypothesis G : grown k d (pg :: l) tab.
Hypothesis Hmax : page (S (n0 + k)) <= TRAPFRAME.
Notation d2 := (set_mem (memset (mem (kalloc_d d)) pg 0 PGSIZE) (kalloc_d d)).
Context (d3 : kdata) (l3 : list Z) (tab3 : tables).
Hypothesis V3 : vm_ok d3 root l3 tab3.
Hypothesis X : vm_ext root d2 l tab d3 l3 tab3.

Lemma step_list : table_pages tab3 ++ (topframes d tab n0 (n0 + k) ++ [pg]) ++ l3 ≡ₚ table_pages tab0 ++ l0.
Proof using All.
  rewrite <- (gr_list _ _ _ _ G). destruct (take_clear d root tf pg l tab (n0 + k) (gr_space _ _ _ _ G) Hmax) as (K1 & _).
  pose proof (ext_pages _ _ _ _ _ _ _ K1 X) as E. rewrite <- app_assoc. rewrite (Permutation_app_swap_app (table_pages tab3)), (Permutation_app_swap_app (table_pages tab)). f_equiv.
  change ([pg] ++ l3) with (pg :: l3). rewrite <- !Permutation_middle. by rewrite E.
Qed.

Lemma step_nodup : NoDup (table_pages tab3 ++ (topframes d tab n0 (n0 + k) ++ [pg]) ++ l3).
Proof using All.
  rewrite step_list. pose proof (up_nodup _ _ _ _ _ (to_up _ _ _ _ _ (ps_top _ _ _ _ _ _ Hsp0))) as H. rewrite Permutation_app_swap_app in H. by apply NoDup_app in H as (_ & _ & H).
Qed.

(** Memory outside the page tables and the page taken is as it was. *)
Lemma step_mem q o : q ∈ topframes d tab n0 (n0 + k) -> 0 <= o < PGSIZE -> mem d3 (q + o) = mem d (q + o).
Proof using All.
  intros Hq Ho. destruct (take_clear d root tf pg l tab (n0 + k) (gr_space _ _ _ _ G) Hmax) as (K1 & K2 & K3 & K4 & K5 & K6). pose proof step_nodup as Hnd.
  assert (page_ok d q) as Hpq by (apply elem_topframes in Hq as (j & Hj & ->); apply (up_leaf _ _ _ _ _ (to_up _ _ _ _ _ (ps_top _ _ _ _ _ _ (gr_space _ _ _ _ G)))); lia).
  eapply (only_mem (fun x => owned tab3 x \/ x = pg)); [|apply Hpq| |done].
  - eapply only_pages_mono; [|eapply only_pages_trans; [exact K3|apply X]]. cbv beta. tauto.
  - intros x Hx. split.
    + destruct Hx as [[y Hx]| ->]; [apply (pt_page _ _ _ (vo_pt _ _ _ _ V3) _ _ Hx)|apply K5].
    + intros ->. apply NoDup_app in Hnd as (_ & N1 & N2). destruct Hx as [Hx| ->].
      * apply (N1 q); [by apply (elem_table_pages d3 root tab3 (vo_pt _ _ _ _ V3))|]. rewrite !elem_of_app. tauto.
      * apply NoDup_app in N2 as (N2 & _ & _). apply NoDup_app in N2 as (_ & N2 & _). apply (N2 pg Hq). by constructor.
Qed.

Lemma step_pg o : 0 <= o < PGSIZE -> mem d3 (pg + o) = 0.
Proof using All.
  intros Ho. destruct (take_clear d root tf pg l tab (n0 + k) (gr_space _ _ _ _ G) Hmax) as (K1 & K2 & K3 & K4 & K5 & K6). pose proof step_nodup as Hnd.
  rewrite <- (K4 o Ho). eapply only_mem; [apply X|apply K5| |done]. intros x Hx. split; [destruct Hx as [y Hx]; apply (pt_page _ _ _ (vo_pt _ _ _ _ V3) _ _ Hx)|].
  intros ->. apply NoDup_app in Hnd as (_ & N1 & _). apply (N1 pg); [by apply (elem_table_pages d3 root tab3 (vo_pt _ _ _ _ V3))|]. rewrite !elem_of_app. left. right. by constructor.
Qed.

Lemma step_only : only_pages (fun q => owned tab0 q \/ q ∈ l0) d0 d3.
Proof using All.
  destruct (take_clear d root tf pg l tab (n0 + k) (gr_space _ _ _ _ G) Hmax) as (K1 & K2 & K3 & K4 & K5 & K6).
  eapply only_pages_mono; [|eapply only_pages_trans; [exact (gr_only _ _ _ _ G)|eapply only_pages_trans; [exact K3|apply X]]]. cbv beta. intros q [H|H]; [done|].
  pose proof (up_vm _ _ _ _ _ (to_up _ _ _ _ _ (ps_top _ _ _ _ _ _ Hsp0))) as V0. rewrite <- (elem_table_pages d0 root tab0 (vo_pt _ _ _ _ V0)), <- elem_of_app, <- step_list.
  rewrite !elem_of_app. destruct H as [->|H]; [right; left; right; by constructor|]. left. by apply (elem_table_pages d3 root tab3 (vo_pt _ _ _ _ V3)).
Qed.

Lemma grown_next :
  (forall x, 0 <= x < MAXVA -> pte_at (mem d3) tab3 x = if decide (samepage (page (n0 + k)) x) then Z.lor (Z.lor (PA2PTE pg) UFLAGS) PTE_V else pte_at (mem d2) tab x) ->
  grown (S k) d3 l3 tab3.
Proof using All.
  intros P3. destruct (pspace_mapped d root tf pg l tab (n0 + k) (gr_space _ _ _ _ G) Hmax UFLAGS d3 l3 tab3) as (S1 & S2 & S3 & S4 & S5); [done|done|done|done|done|].
  assert (page n0 <= page (n0 + k)) as Hle by (unfold PGSIZE; lia).
  assert (topframes d3 tab3 n0 (n0 + k) = topframes d tab n0 (n0 + k)) as ET by (apply topframes_ext; intros x Hx; apply S2; unfold PGSIZE in *; lia).
  assert (topframes d3 tab3 n0 (n0 + S k) = topframes d tab n0 (n0 + k) ++ [pg]) as EU by by rewrite topframes_S, ET, S3.
  split.
  - by rewrite <- plus_n_Sm.
  - intros x Hx. rewrite S2 by lia. by apply G.
  - intros j Hj. destruct (decide (j = n0 + k)%nat) as [->|Hne]; [rewrite S3; split; [done|apply step_pg]|]. assert (page (S j) <= page (n0 + k)) as Hjk by (unfold PGSIZE; lia).
    destruct (gr_new _ _ _ _ G j ltac:(lia)) as [N1 N2]. unfold frame_of in *. rewrite S2 by (unfold PGSIZE in *; lia). split; [done|]. intros o Ho.
    rewrite step_mem; [by apply N2| |done]. apply elem_topframes. exists j. split; [lia|done].
  - rewrite EU. apply step_list.
  - apply step_only.
Qed.
End Step.

Lemma grown_fail k d pg l tab d3 tab3 : grown k d (pg :: l) tab -> page (S (n0 + k)) <= TRAPFRAME -> vm_ok d3 root [] tab3 ->
  vm_ext root (set_mem (memset (mem (kalloc_d d)) pg 0 PGSIZE) (kalloc_d d)) l tab d3 [] tab3 ->
  (forall x, 0 <= x < MAXVA -> pte_at (mem d3) tab3 x = pte_at (mem (set_mem (memset (mem (kalloc_d d)) pg 0 PGSIZE) (kalloc_d d))) tab x) ->
  page_ok d3 pg /\ grown k (kfree_d pg d3) [pg] tab3.
Proof using Hsp0.
  intros G Hmax V3 X P3. destruct (pspace_unmapped d root tf pg l tab (n0 + k) (gr_space _ _ _ _ G) Hmax d3 tab3 V3 X P3) as (S1 & S2 & S3). split; [done|].
  destruct TRAPFRAME_eq as [E1 E2]. pose proof (step_list k d pg l tab G Hmax d3 [] tab3 V3 X) as EL. pose proof (step_nodup k d pg l tab G Hmax d3 [] tab3 V3 X) as Hnd.
  assert (forall x, 0 <= x < page (n0 + k) -> pte_at (mem (kfree_d pg d3)) tab3 x = pte_at (mem d) tab x) as Hlow by (intros x Hx; apply S3; rewrite MAXVA_eq; unfold PGSIZE in *; lia).
  assert (page n0 <= page (n0 + k)) as Hle by (unfold PGSIZE; lia).
  split; [done|intros x Hx; rewrite Hlow by lia; by apply G| | |].
  - intros j Hj. assert (page (S j) <= page (n0 + k)) as Hjk by (unfold PGSIZE; lia). destruct (gr_new _ _ _ _ G j Hj) as [N1 N2]. unfold frame_of in *. rewrite Hlow by (unfold PGSIZE in *; lia). split; [done|]. intros o Ho.
    assert (PTE2PA (pte_at (mem d) tab (page j)) ∈ topframes d tab n0 (n0 + k)) as Hin by (apply elem_topframes; by exists j).
    rewrite <- (N2 o Ho), <- (step_mem k d pg l tab G Hmax d3 [] tab3 V3 X _ o Hin Ho). eapply only_mem; [apply kfree_d_only| | |done].
    + pose proof (up_leaf _ _ _ _ _ (to_up _ _ _ _ _ (ps_top _ _ _ _ _ _ (gr_space _ _ _ _ G))) j ltac:(lia)) as [_ H]. apply H.
    + intros x ->. split; [apply S1|]. intros Hc. rewrite <- Hc in Hin. apply NoDup_app in Hnd as (_ & _ & Hnd). apply NoDup_app in Hnd as (Hnd & _). apply NoDup_app in Hnd as (_ & Hnd & _). apply (Hnd pg Hin). by constructor.
  - rewrite (topframes_ext d (kfree_d pg d3) tab tab3 k) by (intros x Hx; apply Hlow; unfold PGSIZE in *; lia). rewrite <- EL. by rewrite app_nil_r.
  - eapply only_pages_mono; [|eapply only_pages_trans; [exact (step_only k d pg l tab G Hmax d3 [] tab3 V3 X)|apply kfree_d_only]]. intros q [H| ->]; [done|]. eapply grown_in; [exact G|]. right. right. by constructor.
Qed.

Lemma grown_back k d l tab d' l' : grown k d l tab -> shrunk d root tf l tab (n0 + k) n0 d' l' -> grown 0 d' l' tab.
Proof using Hsp0.
  intros G [S1 S2 S3 S4]. split; rewrite ?Nat.add_0_r; [done| |lia| |].
  - intros x Hx. rewrite S4 by done. by apply G.
  - assert (topframes d' tab n0 n0 = []) as -> by (unfold topframes; by rewrite Nat.sub_diag). rewrite app_nil_l, S2. apply G.
  - eapply only_pages_mono; [|eapply only_pages_trans; [exact (gr_only _ _ _ _ G)|exact S3]]. intros q [H|H]; [done|]. eapply grown_in; [exact G|]. tauto.
Qed.

(** One iteration: a page more, or the way back to where the loop began. *)
Lemma alloc_page_run k d l tab e m : grown k d l tab -> page (S (n0 + k)) <= TRAPFRAME -> mach_ok m -> lk_free m LK_kmem ->
  exists m' d' l' tab', msame m m' /\
    ((alloc_page root (page n0) (page (n0 + k)) e (mkK m d) = Ret None e (mkK m' d') /\ grown (S k) d' l' tab') \/
     (alloc_page root (page n0) (page (n0 + k)) e (mkK m d) = Ret (Some 0) e (mkK m' d') /\ grown 0 d' l' tab')).
Proof using Hsp0.
  intros G Hmax Hm Hl. destruct TRAPFRAME_eq as [E1 E2]. pose proof (gr_space _ _ _ _ G) as Hsp. pose proof (up_vm _ _ _ _ _ (to_up _ _ _ _ _ (ps_top _ _ _ _ _ _ Hsp))) as V.
  assert (forall d4 l4 tab4 m4, grown k d4 l4 tab4 -> msame m m4 -> exists m' d' l', (uvmdealloc root (page (n0 + k)) (page n0);; ret (Some 0)) e (mkK m4 d4) = Ret (Some 0) e (mkK m' d') /\ msame m m' /\ grown 0 d' l' tab4) as Hback.
  { intros d4 l4 tab4 m4 G4 Hm4. pose proof (gr_space _ _ _ _ G4) as Hsp4. rewrite <- (npg_page (n0 + k)) in Hsp4.
    destruct (uvmdealloc_run d4 root tf l4 tab4 (page (n0 + k)) (page n0) e m4) as (m5 & d5 & l5 & R & S1 & S2); [eauto with kdb..|unfold PGSIZE in *; lia|unfold PGSIZE in *; lia|done|].
    rewrite Z.min_r in S2 by (unfold PGSIZE; lia). rewrite !npg_page in S2. exists m5, d5, l5. split_and!; [by rewrite (bind_Ret _ _ _ _ _ _ _ R)|by eapply msame_trans|by eapply grown_back]. }
  unfold alloc_page. mcall (kalloc_run e m d Hm Hl). rewrite (kmem_head _ _ (vo_kmem _ _ _ _ V)). destruct l as [|pg l].
  { rewrite kalloc_d_nil by apply V. cbn [hd Z.eqb]. destruct (Hback d [] tab (msettle m) G (msame_settle m)) as (m' & d' & l' & R & H1 & H2). exists m', d', l', tab. split; [done|]. right. done. }
  destruct (take_clear d root tf pg l tab (n0 + k) Hsp Hmax) as (K1 & K2 & K3 & K4 & K5 & K6). cbn [hd]. rewrite (proj2 (Z.eqb_neq _ _) K6). unfold setmem. mrun.
  destruct (page_ok_bounds d pg (vo_end _ _ _ _ V) K5) as [B1 B2]. assert (pg + PGSIZE <= 2 ^ 56) as B3 by (destruct K5 as [_ K5]; unfold PHYSTOP, KERNBASE, PGSIZE in *; lia).
  set (d2 := set_mem (memset (mem (kalloc_d d)) pg 0 PGSIZE) (kalloc_d d)) in *. change (Z.lor (Z.lor (Z.lor PTE_W PTE_X) PTE_R) PTE_U) with UFLAGS.
  destruct (map_page root UFLAGS (page (n0 + k)) pg e (msettle m) d2 l tab) as (r & m3 & d3 & l3 & tab3 & R1 & R2 & R3 & R4 & R5);
    [by apply msettle_ok|by apply msettle_free|done|done|unfold PGSIZE; lia|rewrite MAXVA_eq; unfold PGSIZE in *; lia|by apply Z.mod_mul|lia|lia| |].
  { rewrite K2. apply (to_none _ _ _ _ _ (ps_top _ _ _ _ _ _ Hsp)). unfold PGSIZE in *. lia. }
  rewrite (bind_Ret _ _ _ _ _ _ _ R1). assert (msame m m3) as Hm3 by (eapply msame_trans; [apply msame_settle|exact R2]). destruct R5 as [[-> R5]|(-> & -> & R5)]; cbn [Z.eqb negb].
  - exists m3, d3, l3, tab3. split; [done|]. left. split; [done|]. by eapply grown_next.
  - destruct (grown_fail k d pg l tab d3 tab3 G Hmax R3 R4 R5) as [Hpg3 G']. mcall (kfree_run pg e m3 d3 ltac:(eauto with kdb) ltac:(eauto with kdb) Hpg3).
    destruct (Hback (kfree_d pg d3) [pg] tab3 (msettle m3) G' ltac:(eapply msame_trans; [exact Hm3|apply msame_settle])) as (m' & d' & l' & R & H1 & H2). exists m', d', l', tab3. split; [done|]. right. done.
Qed.

Lemma alloc_loop N k d l tab e m : grown k d l tab -> (k <= N)%nat -> page (n0 + N) <= TRAPFRAME -> mach_ok m -> lk_free m LK_kmem ->
  exists m' d' l' tab', msame m m' /\
    ((forE (npages_from (page (n0 + k)) (N - k)) (alloc_page root (page n0)) e (mkK m d) = Ret None e (mkK m' d') /\ grown N d' l' tab') \/
     (forE (npages_from (page (n0 + k)) (N - k)) (alloc_page root (page n0)) e (mkK m d) = Ret (Some 0) e (mkK m' d') /\ grown 0 d' l' tab')).
Proof using Hsp0.
  remember (N - k)%nat as n eqn:En. revert k d l tab m En. induction n as [|n IH]; intros k d l tab m En G Hk HN Hm Hl.
  { assert (k = N) as -> by lia. exists m, d, l, tab. split; [apply msame_refl|]. by left. }
  rewrite npages_from_S. cbn [forE]. destruct (alloc_page_run k d l tab e m G ltac:(unfold PGSIZE in *; lia) Hm Hl) as (m1 & d1 & l1 & tab1 & Hm1 & [[R1 G1]|[R1 G1]]);
    rewrite (bind_Ret _ _ _ _ _ _ _ R1); cbv beta iota.
  - replace (page (n0 + k) + PGSIZE) with (page (n0 + S k)) by lia.
    destruct (IH (S k) d1 l1 tab1 m1) as (m2 & d2 & l2 & tab2 & Hm2 & H); eauto with kdb; [lia|lia|].
    exists m2, d2, l2, tab2. split; [by eapply msame_trans|done].
  - exists m1, d1, l1, tab1. split; [done|]. by right.
Qed.
End Grow.

(** uvmalloc() of [new >= old] bytes: every page up to [new] is there, or none was added. *)
Lemma uvmalloc_run root tf d l tab old new e m : pspace d root tf l tab (npg old) -> 0 <= old <= new -> page (npg new) <= TRAPFRAME -> mach_ok m -> lk_free m LK_kmem ->
  exists m' d' l' tab', msame m m' /\
    ((uvmalloc root old new e (mkK m d) = Ret new e (mkK m' d') /\ grown root tf d l tab (npg old) (npg new - npg old) d' l' tab') \/
     (uvmalloc root old new e (mkK m d) = Ret 0 e (mkK m' d') /\ grown root tf d l tab (npg old) 0 d' l' tab')).
Proof.
  intros Hsp Hn Hmax Hm Hl. destruct TRAPFRAME_eq as [E1 E2]. assert (new < 2 ^ 63) as Hn63 by (unfold npg, PGSIZE in *; Z.to_euclidean_division_equations; lia).
  pose proof (npg_mono old new ltac:(lia)) as Hle. unfold uvmalloc. rewrite (proj2 (Z.ltb_ge new old)) by lia. rewrite roundup_npg by lia.
  assert (pages_below (page (npg old)) new = npages_from (page (npg old)) (npg new - npg old)) as ->.
  { unfold pages_below, npages_from. do 2 f_equal. unfold npg, PGSIZE in *. Z.to_euclidean_division_equations. lia. }
  destruct (alloc_loop root tf d l tab (npg old) Hsp (npg new - npg old) 0 d l tab e m) as (m' & d' & l' & tab' & Hm' & H);
    [by apply grown_init|lia|by rewrite Nat.add_comm, Nat.sub_add|done|done|]. rewrite Nat.add_0_r, Nat.sub_0_r in H. exists m', d', l', tab'. split; [done|].
  destruct H as [[R G]|[R G]]; [left|right]; rewrite (bind_Ret _ _ _ _ _ _ _ R); done.
Qed.
