(* ===== verification/KvmSpec.v ===== *)
(** * The kernel page table (kvmmake() of kernel/vm.c, proc_mapstacks() of proc.c)

    kvmmake() maps the devices and all of RAM at their physical addresses, the
    trampoline at the top, and a stack with a guard page for every process.  It
    panics only when the allocator has no page left. *)

From S2P Require Import Prelude State Spinlock CString Kalloc Sched Vm VmSpec ProcMem Wp UvmSpec.
Open Scope Z_scope.

(** ** Code that panics only without memory *)

(** The code returns, or it panics with the free list empty and [X]. *)
Definition boots {A} (X : Prop) (e : env) (m : machine) (f : M A) (d : kdata) (Q : A -> kdata -> Prop) : Prop :=
  (exists a m' d', f e (mkK m d) = Ret a e (mkK m' d') /\ msame m m' /\ Q a d') \/
  (exists msg s, f e (mkK m d) = Stop (Panicked msg) s /\ freelist (kd s) = 0 /\ X).

Lemma boots_bind {A B} X e m (f : M A) (g : A -> M B) d Q :
  boots X e m f d (fun a d' => forall m', msame m m' -> boots X e m' (g a) d' Q) -> boots X e m (bind f g) d Q.
Proof.
  intros [(a & m1 & d1 & E & Hs & H)|(msg & s & E & H)].
  - destruct (H m1 Hs) as [(b & m2 & d2 & E2 & Hs2 & HQ)|(msg & s & E2 & HQ)]; [left|right].
    + exists b, m2, d2. split_and!; [by rewrite (bind_Ret _ _ _ _ _ _ _ E)|by eapply msame_trans|done].
    + exists msg, s. split; [by rewrite (bind_Ret _ _ _ _ _ _ _ E)|done].
  - right. exists msg, s. split; [|done]. unfold bind. by rewrite E.
Qed.

Lemma boots_ret {A} X e m (f : M A) a d d' (Q : A -> kdata -> Prop) : f e (mkK m d) = Ret a e (mkK m d') -> Q a d' -> boots X e m f d Q.
Proof. intros E HQ. left. exists a, m, d'. split_and!; [done|apply msame_refl|done]. Qed.

Lemma boots_mono {A} X e m (f : M A) d (Q R : A -> kdata -> Prop) : boots X e m f d Q -> (forall a d', Q a d' -> R a d') -> boots X e m f d R.
Proof. intros [(a & m1 & d1 & E & Hs & H)|H] HR; [left; exists a, m1, d1; auto|by right]. Qed.

(** ** Ranges of pages *)

Definition overlay (a sz pa perm : Z) (P : Z -> Z) (x : Z) : Z :=
  if decide (a <= x < a + sz) then mapped_pte a pa perm x else P x.

(** The tables the regions of the kernel need: paths of one or two indices. *)
Definition kpaths : list (list Z) :=
  [[]; [0]; [2]; [255]; [0; 96]; [0; 97]; [0; 128]; [255; 511]] ++ map (fun j => [2; Z.of_nat j]) (seq 0 64).

Lemma kpaths_prefix p x : path x ∈ kpaths -> p `prefix_of` path x -> p ∈ kpaths.
Proof.
  intros H Hp. assert (Forall (fun q => Forall (.∈ kpaths) (map (fun n => take n q) [0; 1; 2]%nat)) kpaths) as HF by (apply (bool_decide_unpack _); by vm_compute).
  rewrite Forall_forall in HF. specialize (HF _ H). pose proof (prefix_length _ _ Hp) as Hn. destruct Hp as [k E]. rewrite E in HF. rewrite Forall_forall in HF. apply HF.
  apply list_elem_of_fmap. exists (length p). split; [by rewrite take_app_length|]. simpl in Hn. destruct (length p) as [|[|[|n]]]; [set_solver..|lia].
Qed.

Lemma kpath_region x : PLIC <= x < PLIC + 0x400000 \/ UART0 <= x < UART0 + 2 * PGSIZE \/ KERNBASE <= x < PHYSTOP \/ 2 ^ 38 - 131 * PGSIZE <= x < 2 ^ 38 -> path x ∈ kpaths.
Proof.
  unfold PLIC, UART0, PHYSTOP, KERNBASE, PGSIZE. intros H. unfold path. rewrite !PX_eq by lia. change (12 + 9 * 2) with 30. change (12 + 9 * 1) with 21. unfold kpaths. rewrite elem_of_app.
  destruct H as [H|[H|[H|H]]].
  - replace (x / 2 ^ 30 mod 512) with 0 by (Z.to_euclidean_division_equations; lia). left.
    assert (x / 2 ^ 21 mod 512 = 96 \/ x / 2 ^ 21 mod 512 = 97) as [-> | ->] by (Z.to_euclidean_division_equations; lia); set_solver.
  - replace (x / 2 ^ 30 mod 512) with 0 by (Z.to_euclidean_division_equations; lia). replace (x / 2 ^ 21 mod 512) with 128 by (Z.to_euclidean_division_equations; lia). left. set_solver.
  - replace (x / 2 ^ 30 mod 512) with 2 by (Z.to_euclidean_division_equations; lia). right. apply list_elem_of_fmap. exists (Z.to_nat (x / 2 ^ 21 mod 512)).
    assert (0 <= x / 2 ^ 21 mod 512 < 64) by (Z.to_euclidean_division_equations; lia). split; [by rewrite Z2Nat.id by lia|]. apply elem_of_seq. lia.
  - replace (x / 2 ^ 30 mod 512) with 255 by (Z.to_euclidean_division_equations; lia). replace (x / 2 ^ 21 mod 512) with 511 by (Z.to_euclidean_division_equations; lia). left. set_solver.
Qed.

(** As many pages as the stacks and these tables. *)
Lemma kpaths_bound d root tab F (l : list Z) : pt_ok d root tab -> (forall p q, tab p = Some q -> p ∈ kpaths) -> (length F <= NPROC)%nat -> l ≡ₚ F ++ table_pages tab ++ [] -> (length l <= 136)%nat.
Proof.
  intros Hpt Hp HF ->. rewrite app_nil_r, length_app. assert (length (table_pages tab) <= length (omap tab kpaths))%nat as H1.
  { apply submseteq_length, NoDup_submseteq; [by eapply table_pages_nodup|]. intros q Hq. apply (elem_table_pages d root tab Hpt) in Hq as [p Hq]. apply list_elem_of_omap. eauto. }
  assert (forall L, length (omap tab L) <= length L)%nat as H2 by (intros L; induction L as [|x L IH]; [done|]; cbn; destruct (tab x); simpl; lia). specialize (H2 kpaths).
  change (length kpaths) with 72%nat in H2. unfold NPROC in HF. lia.
Qed.

(** From [d0] with the free pages [l0] the table [root] was built: [P] are its entries, [F] pages went to other uses. *)
Record kvm (d0 : kdata) (l0 F : list Z) (root : Z) (P : Z -> Z) (d : kdata) : Prop := {
  kv_tab : exists l tab, vm_ok d root l tab /\ (forall x, 0 <= x < MAXVA -> pte_at (mem d) tab x = P x) /\ l0 ≡ₚ F ++ table_pages tab ++ l /\ forall p q, tab p = Some q -> p ∈ kpaths;
  kv_len : (length F <= NPROC)%nat;
  kv_only : only_pages (fun q => q ∈ l0) d0 d;
}.

Lemma vm_in l0 F root l tab d q : vm_ok d root l tab -> l0 ≡ₚ F ++ table_pages tab ++ l -> owned tab q \/ q ∈ l -> q ∈ l0.
Proof. intros V E H. rewrite E, !elem_of_app, (elem_table_pages d root tab (vo_pt _ _ _ _ V)). tauto. Qed.

Section Kvmmap.
Context (d0 : kdata) (l0 F : list Z) (root : Z) (P : Z -> Z) (d : kdata).
Hypothesis K : kvm d0 l0 F root P d.

Lemma kvmmap_boots a sz pa perm e m : mach_ok m -> lk_free m LK_kmem -> 0 <= perm < 1024 -> 0 < sz -> sz mod PGSIZE = 0 -> 0 <= a -> a + sz <= MAXVA -> a mod PGSIZE = 0 -> 0 <= pa -> pa + sz <= 2 ^ 56 ->
  (forall x, a <= x < a + sz -> has (P x) PTE_V = false /\ path x ∈ kpaths) ->
  boots (length l0 <= 136)%nat e m (kvmmap root a pa sz perm) d (fun _ d' => kvm d0 l0 F root (overlay a sz pa perm P) d').
Proof using K.
  intros Hm Hl Hperm Hsz Hszal Ha Hmax Hal Hpa Hpm Hnv. destruct K as [(l & tab & V & HP & El & Hkp) Hlen Ho]. pose proof V as [V1 V2 V3 V4]. rewrite MAXVA_eq in *.
  assert (exists n, sz = (Z.of_nat n + 1) * PGSIZE) as (n & ->) by (exists (Z.to_nat (sz / PGSIZE - 1)); unfold PGSIZE in *; Z.to_euclidean_division_equations; lia). unfold kvmmap, mappages.
  assert (PGROUNDDOWN a = a) as E1 by (rewrite PGROUNDDOWN_eq by (unfold PGSIZE in *; lia); unfold PGSIZE in *; Z.to_euclidean_division_equations; lia).
  assert (PGROUNDDOWN (u64 (a + (Z.of_nat n + 1) * PGSIZE - 1)) = a + page n) as E2.
  { rewrite u64_small by (unfold PGSIZE in *; lia). rewrite PGROUNDDOWN_eq by (unfold PGSIZE in *; lia). unfold PGSIZE in *. Z.to_euclidean_division_equations. lia. }
  rewrite E1, E2. unfold mappages_fuel. rewrite (proj2 (Z.leb_le a (a + page n))) by (unfold PGSIZE; lia). replace (a + page n - a) with (page n) by lia. rewrite Z.div_mul, Nat2Z.id by done.
  destruct (mappages_loop_spec root perm Hperm n a pa e m d l tab) as (r & k & m' & d' & l' & tab' & H1 & H2 & H3 & Hf & H4 & H5); try done; rewrite ?MAXVA_eq; try (unfold PGSIZE in *; lia).
  { intros x Hx. rewrite HP by lia. by apply Hnv. }
  assert (forall p q, tab' p = Some q -> p ∈ kpaths) as Hkp' by (intros p q Hp; destruct (Hf p q Hp) as [H|(x & Hx & Hpr)]; [by eapply Hkp|by eapply kpaths_prefix; [apply Hnv|]]).
  pose proof (vm_ok_ext _ _ _ _ _ _ _ V H3) as V'. assert (l0 ≡ₚ F ++ table_pages tab' ++ l') as El' by by rewrite El, (ext_pages _ _ _ _ _ _ _ V H3). destruct H4 as [[-> ->]|(-> & _ & ->)].
  - left. exists tt, m', d'. split_and!; [by rewrite (bind_Ret _ _ _ _ _ _ _ H1)|done|]. split.
    + exists l', tab'. split_and!; [done| |done|done]. intros x Hx. rewrite H5 by done. unfold overlay. case_decide; [done|exact (HP x Hx)].
    + done.
    + eapply only_pages_mono; [|eapply only_pages_trans; [exact Ho|exact (ve_only _ _ _ _ _ _ _ H3)]]. intros q [H|H]; [done|]. eapply vm_in; [exact V'|exact El'|by left].
  - right. exists "kvmmap"%string, (mkK m' d'). split; [by rewrite (bind_Ret _ _ _ _ _ _ _ H1)|]. split; [exact (kmem_head _ _ (vo_kmem _ _ _ _ V'))|]. by eapply kpaths_bound; [apply V'|..].
Qed.

(** A page for a kernel stack. *)
Lemma kalloc_boots e m Q : (length F < NPROC)%nat -> mach_ok m -> lk_free m LK_kmem -> (forall pa d', pa <> 0 -> page_ok d0 pa -> kvm d0 l0 (pa :: F) root P d' -> Q pa d') ->
  boots (length l0 <= 136)%nat e m kalloc d (fun pa d' => if pa =? 0 then freelist d' = 0 /\ (length l0 <= 136)%nat else Q pa d').
Proof using K.
  intros HN Hm Hl HQ. destruct K as [(l & tab & V & HP & El & Hkp) Hlen Ho]. left. exists (freelist d), (msettle m), (kalloc_d d). split_and!; [by rewrite kalloc_run|apply msame_settle|]. rewrite (kmem_head _ _ (vo_kmem _ _ _ _ V)). destruct l as [|pg l].
  { cbn [hd Z.eqb]. rewrite kalloc_d_nil by apply V. split; [apply (kmem_head d [] (vo_kmem _ _ _ _ V))|]. by eapply kpaths_bound; [apply V|..]. }
  destruct (vm_ok_kalloc d root pg l tab V) as (K1 & K2 & _ & K4 & K5 & K6 & K7 & K8). cbn [hd]. rewrite (proj2 (Z.eqb_neq _ _) K4). assert (l0 ≡ₚ (pg :: F) ++ table_pages tab ++ l) as El2 by (change (l0 ≡ₚ pg :: F ++ table_pages tab ++ l); by rewrite El, <- !Permutation_middle).
  apply HQ; [done|unfold page_ok in *; by rewrite <- (only_pages_syms _ _ _ Ho)|]. split.
  - exists l, tab. split_and!; [done|intros x Hx; rewrite K2; by apply HP|done|done].
  - simpl. lia.
  - eapply only_pages_mono; [|eapply only_pages_trans; [exact Ho|exact K8]]. intros q [H| ->]; [done|]. rewrite El2, elem_of_app. left. by constructor.
Qed.
End Kvmmap.

(** ** The kernel's regions *)

Definition RW : Z := Z.lor PTE_R PTE_W.
Definition RX : Z := Z.lor PTE_R PTE_X.

(** The linker puts the text below etext, whole pages, with the trampoline as its last page. *)
Record kernel_layout (y : symbols) : Prop := {
  la_etext : KERNBASE < sy_etext y < PHYSTOP /\ sy_etext y mod PGSIZE = 0;
  la_tramp : KERNBASE <= sy_trampoline y < sy_etext y /\ sy_trampoline y mod PGSIZE = 0;
  la_end : 0 < sy_end y;
}.

(** The entries before the stacks are mapped. *)
Definition regions (y : symbols) : Z -> Z :=
  overlay TRAMPOLINE PGSIZE (sy_trampoline y) RX
    (overlay (sy_etext y) (PHYSTOP - sy_etext y) (sy_etext y) RW
      (overlay KERNBASE (sy_etext y - KERNBASE) KERNBASE RX
        (overlay PLIC 0x400000 PLIC RW (overlay VIRTIO0 PGSIZE VIRTIO0 RW (overlay UART0 PGSIZE UART0 RW (fun _ => 0)))))).

(** Below the stacks lie the devices and RAM. *)
Lemma kstack_eq i : KSTACK (Z.of_nat i) = 2 ^ 38 - PGSIZE - (Z.of_nat i + 1) * 2 * PGSIZE.
Proof. done. Qed.

Definition in_stack (i : nat) (x : Z) : Prop := KSTACK (Z.of_nat i) <= x < KSTACK (Z.of_nat i) + PGSIZE.

(** The stacks of the first processes: [F] are their pages, last first. *)
Record stacked (P : Z -> Z) (F : list Z) (P' : Z -> Z) : Prop := {
  st_in : forall i pa x, rev F !! i = Some pa -> in_stack i x -> P' x = mapped_pte (KSTACK (Z.of_nat i)) pa RW x;
  st_out : forall x, (forall i, (i < length F)%nat -> ~ in_stack i x) -> P' x = P x;
}.

Lemma stacked_snoc P F P' pa : stacked P F P' -> stacked P (pa :: F) (overlay (KSTACK (Z.of_nat (length F))) PGSIZE pa RW P').
Proof.
  intros [H1 H2]. split.
  - intros i pa' x Hi Hx. cbn [rev] in Hi. unfold overlay. apply lookup_app_Some in Hi as [Hi|[Hi Hp]].
    + pose proof (lookup_lt_Some _ _ _ Hi) as Hlt. rewrite length_rev in Hlt. rewrite decide_False; [by apply H1|]. unfold in_stack in Hx. rewrite !kstack_eq in *. unfold PGSIZE in *. lia.
    + rewrite length_rev in Hi, Hp. apply list_lookup_singleton_Some in Hp as [Hp ->]. assert (i = length F) as -> by lia. by rewrite decide_True by (unfold in_stack in Hx; unfold PGSIZE in *; lia).
  - intros x Hx. unfold overlay. rewrite decide_False by (intros H; apply (Hx (length F)); [simpl; lia|]; unfold in_stack; unfold PGSIZE in *; lia). apply H2. intros i Hi. apply Hx. simpl. lia.
Qed.

Section Stacks.
Context (d0 : kdata) (l0 : list Z) (root : Z) (P : Z -> Z).
Hypothesis HP : forall i x, (i < NPROC)%nat -> in_stack i x -> has (P x) PTE_V = false.

Definition stack_step (p : nat) : M unit :=
  let* pa := kalloc in if pa =? 0 then panic "kalloc" else kvmmap root (KSTACK (Z.of_nat p)) pa PGSIZE (Z.lor PTE_R PTE_W).

Lemma stack_boots F P' d e m : kvm d0 l0 F root P' d -> stacked P F P' -> Forall (page_ok d0) F -> 0 < sy_end (syms d0) -> (length F < NPROC)%nat -> mach_ok m -> lk_free m LK_kmem ->
  boots (length l0 <= 136)%nat e m (stack_step (length F)) d (fun _ d' => exists pa, page_ok d0 pa /\ kvm d0 l0 (pa :: F) root (overlay (KSTACK (Z.of_nat (length F))) PGSIZE pa RW P') d').
Proof using HP.
  intros K S HF Hend HN Hm Hl. apply boots_bind.
  eapply boots_mono; [apply (kalloc_boots d0 l0 F root P' d K e m (fun pa d1 => pa <> 0 /\ page_ok d0 pa /\ kvm d0 l0 (pa :: F) root P' d1) HN Hm Hl); auto|].
  cbv beta. intros pa d1 H m1 Hm1. destruct (pa =? 0); [right; exists "kalloc"%string, (mkK m1 d1); split; [done|exact H]|]. destruct H as (H0 & Hpa & K1).
  destruct (page_ok_bounds d0 pa Hend Hpa) as [B1 B2]. assert (pa + PGSIZE <= 2 ^ 56) as B3 by (destruct Hpa as [_ Hpa]; unfold PHYSTOP, KERNBASE, PGSIZE in *; lia).
  assert (Z.of_nat (length F) < 64) as HN' by (unfold NPROC in HN; lia).
  apply (boots_mono _ _ _ _ _ (fun _ d2 => kvm d0 l0 (pa :: F) root (overlay (KSTACK (Z.of_nat (length F))) PGSIZE pa RW P') d2)); [|intros [] d2 K2; by exists pa].
  apply (kvmmap_boots d0 l0 (pa :: F) root P' d1 K1); [eauto with kdb|eauto with kdb|done|done|done|rewrite kstack_eq; unfold PGSIZE; lia|rewrite kstack_eq, MAXVA_eq; unfold PGSIZE; lia| |lia|lia|].
  - rewrite kstack_eq. unfold PGSIZE. Z.to_euclidean_division_equations. lia.
  - intros x Hx. split; [|apply kpath_region; rewrite kstack_eq in Hx; unfold PGSIZE in *; lia]. rewrite (st_out _ _ _ S); [apply (HP (length F)); [done|unfold in_stack; unfold PGSIZE in *; lia]|]. intros i Hi Hs. unfold in_stack in Hs. rewrite !kstack_eq in *. unfold PGSIZE in *. lia.
Qed.

Lemma stacks_boots e k : forall F P' d m, kvm d0 l0 F root P' d -> stacked P F P' -> Forall (page_ok d0) F -> 0 < sy_end (syms d0) -> (length F + k <= NPROC)%nat -> mach_ok m -> lk_free m LK_kmem ->
  boots (length l0 <= 136)%nat e m (forM (seq (length F) k) stack_step) d (fun _ d' => exists F' P'', kvm d0 l0 F' root P'' d' /\ stacked P F' P'' /\ Forall (page_ok d0) F' /\ length F' = (length F + k)%nat).
Proof using HP.
  induction k as [|k IH]; intros F P' d m K Hst HF Hend HN Hm Hl; cbn [seq forM].
  - eapply boots_ret; [done|]. exists F, P'. split_and!; [done|done|done|lia].
  - apply boots_bind. eapply boots_mono; [apply (stack_boots F P'); (done || lia)|]. cbv beta. intros _ d1 (pa & Hpa & K1) m1 Hm1. change (S (length F)) with (length (pa :: F)).
    eapply boots_mono; [apply (IH (pa :: F) _ d1 m1 K1); [by apply stacked_snoc|by constructor|done|simpl; lia|eauto with kdb|eauto with kdb]|]. cbv beta. intros _ d2 (F' & P'' & H1 & H2 & H3 & H4). exists F', P''. split_and!; [done|done|done|]. rewrite H4. simpl. lia.
Qed.
End Stacks.

(** ** kvmmake() *)

(** What the page table translates. *)
Definition maps_to (m : bytes) (root a n pa perm : Z) : Prop :=
  forall x, a <= x < a + n -> translate m root x = Some (pa + (x - a), Z.lor perm PTE_V).

Lemma overlay_translate m root P a sz pa perm : (forall x, 0 <= x < MAXVA -> pte_of m root x = P x) -> (forall x, a <= x < a + sz -> P x = mapped_pte a pa perm x) ->
  0 <= a -> a + sz <= MAXVA -> a mod PGSIZE = 0 -> pa mod PGSIZE = 0 -> 0 <= pa -> pa + sz <= 2 ^ 56 -> 0 <= perm < 1024 -> maps_to m root a sz pa perm.
Proof.
  intros HP HQ Ha Hm Hal Hpal Hpa Hpm Hperm x Hx. rewrite MAXVA_eq in *. apply translate_mapped; try done; try lia.
  rewrite HP by lia. by apply HQ.
Qed.

(** The kernel's address space; [F] are the pages of the stacks. *)
Record kernel_map (y : symbols) (m : bytes) (root : Z) (F : list Z) : Prop := {
  km_uart : maps_to m root UART0 PGSIZE UART0 RW;
  km_virtio : maps_to m root VIRTIO0 PGSIZE VIRTIO0 RW;
  km_plic : maps_to m root PLIC 0x400000 PLIC RW;
  km_text : maps_to m root KERNBASE (sy_etext y - KERNBASE) KERNBASE RX;
  km_data : maps_to m root (sy_etext y) (PHYSTOP - sy_etext y) (sy_etext y) RW;
  km_tramp : maps_to m root TRAMPOLINE PGSIZE (sy_trampoline y) RX;
  km_stack : forall i pa, F !! i = Some pa -> maps_to m root (KSTACK (Z.of_nat i)) PGSIZE pa RW;
  km_guard : forall i x, (i < NPROC)%nat -> KSTACK (Z.of_nat i) - PGSIZE <= x < KSTACK (Z.of_nat i) -> translate m root x = None;
  km_rest : forall x, PHYSTOP <= x < KSTACK (Z.of_nat NPROC) -> translate m root x = None;
}.

Ltac regs := unfold overlay, UART0, VIRTIO0, PLIC, PHYSTOP, KERNBASE, TRAMPOLINE in *; rewrite ?MAXVA_eq in *; unfold PGSIZE in *; repeat (rewrite decide_False by lia); try (rewrite decide_True by lia); try done.

Lemma regions_none y x : kernel_layout y -> PHYSTOP <= x < TRAMPOLINE -> regions y x = 0.
Proof. intros [[L1 L2] [L3 L4] _] Hx. unfold regions. regs. Qed.

Lemma regions_map y m root P F : kernel_layout y -> (forall x, 0 <= x < MAXVA -> pte_of m root x = P x) -> stacked (regions y) (rev F) P -> length F = NPROC -> Forall (fun pa => 0 <= pa < 2 ^ 55 /\ pa mod PGSIZE = 0) F -> kernel_map y m root F.
Proof.
  intros L HP [S1 S2] HF Hpa. pose proof L as [[L1 L2] [L3 L4] _]. rewrite rev_involutive in S1. rewrite length_rev, HF in S2. assert (forall x, x < KSTACK (Z.of_nat NPROC) \/ TRAMPOLINE <= x -> P x = regions y x) as Hout.
  { intros x Hx. apply S2. intros i Hi Hs. unfold in_stack in Hs. unfold NPROC in *. rewrite !kstack_eq in *. unfold TRAMPOLINE in Hx. rewrite MAXVA_eq in Hx. unfold PGSIZE in *. lia. }
  assert (KSTACK (Z.of_nat NPROC) = 2 ^ 38 - 131 * PGSIZE) as Ek by done. assert (forall x, 0 <= x < MAXVA -> P x = 0 -> translate m root x = None) as Hnone by (intros x Hx E; unfold translate; rewrite HP, E by done; done).
  split.
  - apply (overlay_translate _ _ P); [done|intros x Hx; rewrite Hout by (rewrite Ek; left; regs; lia); unfold regions; regs|done..].
  - apply (overlay_translate _ _ P); [done|intros x Hx; rewrite Hout by (rewrite Ek; left; regs; lia); unfold regions; regs|done..].
  - apply (overlay_translate _ _ P); [done|intros x Hx; rewrite Hout by (rewrite Ek; left; regs; lia); unfold regions; regs|done..].
  - apply (overlay_translate _ _ P); [done|intros x Hx; rewrite Hout by (rewrite Ek; left; regs; lia); unfold regions; regs|regs; lia..|done|done|done|regs; lia|done].
  - apply (overlay_translate _ _ P); [done|intros x Hx; rewrite Hout by (rewrite Ek; left; regs; lia); unfold regions; regs|regs; lia..|done|done|regs; lia|regs; lia|done].
  - apply (overlay_translate _ _ P); [done|intros x Hx; rewrite Hout by (by right; lia); unfold regions; regs|done|done|done|done|regs; lia|regs; lia|done].
  - intros i pa Hi. pose proof (lookup_lt_Some _ _ _ Hi) as Hlt. rewrite Forall_forall in Hpa. destruct (Hpa pa) as [Hp1 Hp2]; [by eapply list_elem_of_lookup_2|]. rewrite HF in Hlt. unfold NPROC in Hlt.
    apply (overlay_translate _ _ P); [done|intros x Hx; by apply S1|rewrite kstack_eq; unfold PGSIZE; lia|rewrite kstack_eq, MAXVA_eq; unfold PGSIZE; lia| |done|lia|unfold PGSIZE; lia|done].
    rewrite kstack_eq. unfold PGSIZE. Z.to_euclidean_division_equations. lia.
  - intros i x Hi Hx. unfold NPROC in Hi. rewrite kstack_eq in Hx. apply Hnone; [rewrite MAXVA_eq; unfold PGSIZE in *; lia|]. rewrite S2, regions_none; [done|done|regs; lia|]. intros j Hj Hs. unfold in_stack in Hs. rewrite kstack_eq in Hs. unfold PGSIZE in *. lia.
  - intros x Hx. rewrite Ek in Hx. apply Hnone; [rewrite MAXVA_eq; regs; lia|]. rewrite Hout, regions_none; [done|done|regs; lia|left; lia].
Qed.

(** What kvmmake() has made of the free pages [l]. *)
Definition kernel_table (l : list Z) (d : kdata) (root : Z) (d' : kdata) : Prop :=
  exists F tab l', kernel_map (syms d) (mem d') root F /\ length F = NPROC /\ Forall (page_ok d) F /\ vm_ok d' root l' tab /\ l ≡ₚ F ++ table_pages tab ++ l' /\ only_pages (fun q => q ∈ l) d d'.

Lemma kvm_table d l root P F d' : kernel_layout (syms d) -> kvm d l F root P d' -> stacked (regions (syms d)) F P -> Forall (page_ok d) F -> length F = NPROC -> kernel_table l d root d'.
Proof.
  intros L [(l' & tab & V & HP & El & _) _ Ho] S HF HN. exists (rev F), tab, l'. rewrite length_rev. assert (Forall (page_ok d) (rev F)) as HF2 by by rewrite <- Permutation_rev.
  split_and!; [|done|done|done|by rewrite <- Permutation_rev|done]. apply (regions_map _ _ _ P); [done|intros x Hx; rewrite (pte_of_at d' root tab (vo_pt _ _ _ _ V)); by apply HP|by rewrite rev_involutive|by rewrite length_rev|].
  eapply Forall_impl; [exact HF2|]. intros pa Hpa. destruct (page_ok_bounds d pa (la_end _ L) Hpa) as [B1 B2]. destruct Hpa as [_ Hpa]. unfold PHYSTOP, KERNBASE in Hpa. split; [lia|done].
Qed.

Lemma maps_boots {A} y d0 l0 root d e m (g : M A) Q : kernel_layout y -> kvm d0 l0 [] root (fun _ => 0) d -> mach_ok m -> lk_free m LK_kmem ->
  (forall m' d', msame m m' -> kvm d0 l0 [] root (regions y) d' -> boots (length l0 <= 136)%nat e m' g d' Q) ->
  boots (length l0 <= 136)%nat e m (kvmmap root UART0 UART0 PGSIZE RW;; kvmmap root VIRTIO0 VIRTIO0 PGSIZE RW;; kvmmap root PLIC PLIC 0x400000 RW;;
    kvmmap root KERNBASE KERNBASE (sy_etext y - KERNBASE) RX;; kvmmap root (sy_etext y) (sy_etext y) (PHYSTOP - sy_etext y) RW;; kvmmap root TRAMPOLINE (sy_trampoline y) PGSIZE RX;; g) d Q.
Proof.
  intros [[L1 L2] [L3 L4] _] K Hm Hl Hg.
  apply boots_bind. eapply boots_mono; [apply (kvmmap_boots _ _ _ _ _ _ K); try done; intros x Hx; split; [done|apply kpath_region; regs; lia]|]. cbv beta. intros _ d1 K1 m1 Hm1.
  apply boots_bind. eapply boots_mono; [apply (kvmmap_boots _ _ _ _ _ _ K1); try done; [eauto 12 with kdb|eauto 12 with kdb|intros x Hx; split; [regs|apply kpath_region; regs; lia]]|]. cbv beta. intros _ d2 K2 m2 Hm2.
  apply boots_bind. eapply boots_mono; [apply (kvmmap_boots _ _ _ _ _ _ K2); try done; [eauto 12 with kdb|eauto 12 with kdb|intros x Hx; split; [regs|apply kpath_region; regs; lia]]|]. cbv beta. intros _ d3 K3 m3 Hm3.
  apply boots_bind. eapply boots_mono; [apply (kvmmap_boots _ _ _ _ _ _ K3); try done; [eauto 12 with kdb|eauto 12 with kdb|lia| |regs; lia|regs; lia|intros x Hx; split; [regs|apply kpath_region; regs; lia]]|].
  { clear -L2. unfold KERNBASE, PGSIZE in *. Z.to_euclidean_division_equations. lia. }
  cbv beta. intros _ d4 K4 m4 Hm4.
  apply boots_bind. eapply boots_mono; [apply (kvmmap_boots _ _ _ _ _ _ K4); try done; [eauto 12 with kdb|eauto 12 with kdb|lia| |regs; lia|regs; lia|regs; lia|regs; lia|intros x Hx; split; [regs|apply kpath_region; regs; lia]]|].
  { clear -L2. unfold PHYSTOP, KERNBASE, PGSIZE in *. Z.to_euclidean_division_equations. lia. }
  cbv beta. intros _ d5 K5 m5 Hm5.
  apply boots_bind. eapply boots_mono; [apply (kvmmap_boots _ _ _ _ _ _ K5); try done; [eauto 12 with kdb|eauto 12 with kdb|regs; lia|regs; lia|intros x Hx; split; [regs|apply kpath_region; regs; lia]]|]. cbv beta. intros _ d6 K6 m6 Hm6.
  apply Hg; [|exact K6]. do 5 (eapply msame_trans; [eassumption|]). done.
Qed.

(** kvmmake() either builds the kernel's page table or panics because the
    pages ran out. *)
Lemma kvmmake_boots e m d l : mach_ok m -> lk_free m LK_kmem -> kmem_ok d l -> kernel_layout (syms d) -> boots (length l <= 136)%nat e m kvmmake d (fun root d' => kernel_table l d root d').
Proof.
  intros Hm Hl Hk L. pose proof (la_end _ L) as Hend. unfold kvmmake. apply boots_bind.
  apply (boots_mono _ _ _ _ _ (fun pa d1 => pa = freelist d /\ d1 = kalloc_d d)); [left; exists (freelist d), (msettle m), (kalloc_d d); split_and!; [by rewrite kalloc_run|apply msame_settle|done..]|].
  intros _ _ [-> ->] m1 Hm1. rewrite (kmem_head _ _ Hk). destruct l as [|pg l].
  { cbn [hd]. rewrite kalloc_d_nil by done. right. exists "kerneltrap"%string, (mkK m1 d). split; [done|]. split; [apply (kmem_head d [] Hk)|simpl; lia]. }
  destruct (fresh_table d pg l Hend Hk) as (V2 & O2 & ET2 & _ & Hpg0). cbn [hd]. unfold nonnull. rewrite (proj2 (Z.eqb_neq _ _) Hpg0).
  set (d2 := set_mem _ _) in *. assert (syms d2 = syms d) as Es2 by by eapply only_pages_syms.
  assert (kvm d (pg :: l) [] pg (fun _ => 0) d2) as K2.
  { split; [|simpl; lia|eapply only_pages_mono; [|exact O2]; intros q ->; by constructor]. exists l, (tab_root pg). split_and!; [done|done|by rewrite ET2|]. intros [|i p] q H; [set_solver|done]. }
  apply boots_bind, (boots_ret _ _ _ _ tt _ (kalloc_d d)); [done|]. intros m2 Hm2. apply boots_bind, (boots_ret _ _ _ _ tt _ d2); [done|]. intros m3 Hm3.
  apply boots_bind, (boots_ret _ _ _ _ (sy_etext (syms d)) _ d2); [by rewrite <- Es2|]. intros m4 Hm4. apply boots_bind, (boots_ret _ _ _ _ (sy_trampoline (syms d)) _ d2); [by rewrite <- Es2|]. intros m5 Hm5.
  assert (msame m m5) as Hm0 by (do 4 (eapply msame_trans; [eassumption|]); done). destruct (la_etext _ L) as [L1 L2]. unfold u64. rewrite !Z.mod_small by (unfold PHYSTOP, KERNBASE in *; lia).
  apply (maps_boots (syms d) d (pg :: l)); [done|done|eauto with kdb|eauto with kdb|]. intros m6 d6 Hm6 K6. apply boots_bind.
  assert (forall i x, (i < NPROC)%nat -> in_stack i x -> has (regions (syms d) x) PTE_V = false) as HP.
  { intros i x Hi Hx. rewrite regions_none; [done|done|]. unfold in_stack in Hx. rewrite kstack_eq in Hx. unfold NPROC in Hi. unfold TRAMPOLINE, PHYSTOP, KERNBASE. rewrite MAXVA_eq. unfold PGSIZE in *. lia. }
  assert (stacked (regions (syms d)) [] (regions (syms d))) as S0 by (split; [intros i pa x Hi; by destruct i|done]). assert (msame m m6) as Hm6' by by eapply msame_trans.
  eapply boots_mono; [apply (stacks_boots d (pg :: l) pg _ HP e NPROC [] _ d6 m6 K6 S0); [done|done|done|eauto with kdb|eauto with kdb]|]. cbv beta.
  intros _ d7 (F & P & K7 & S7 & HF & HN) m7 Hm7. eapply boots_ret; [done|]. by apply (kvm_table d (pg :: l) pg P F).
Qed.

(** Enough pages for all of it. *)
Lemma free_enough l lo : NoDup l -> lo mod PGSIZE = 0 -> lo + 137 * PGSIZE <= PHYSTOP -> (forall pa, pa ∈ l <-> pa mod PGSIZE = 0 /\ lo <= pa /\ pa + PGSIZE <= PHYSTOP) -> (137 <= length l)%nat.
Proof.
  intros Hn Hlo Hb Hl. change 137%nat with (length (map (fun k => lo + page k) (seq 0 137))). apply submseteq_length, NoDup_submseteq.
  - apply NoDup_fmap_2; [intros i j H; unfold PGSIZE in H; lia|apply NoDup_seq].
  - intros q (k & -> & Hk%elem_of_seq)%list_elem_of_fmap. apply Hl. unfold PGSIZE in *. split; [|lia]. Z.to_euclidean_division_equations. lia.
Qed.

(** The memory of the booting kernel, kinit() followed by kvminit(), for a
    kernel image that leaves 138 pages of RAM free.  Neither panics.  The page
    table that kvminit() leaves in kernel_pagetable translates the registers of
    the UART, the disk and the PLIC and all of RAM to themselves, the text
    readable and executable and the rest readable and writable; the page at
    TRAMPOLINE is the trampoline's code; each of the NPROC kernel stacks is a page
    of its own with an unmapped page below it, and nothing is mapped between RAM
    and the stacks.  Every page of free memory is now a stack, a page of the table
    or free, and no page is two of these. *)
Lemma boot_memory e m d (Hm : mach_ok m) (Hfl : freelist d = 0) (Hy : kernel_layout (syms d)) (Hend : sy_end (syms d) <= PHYSTOP - 138 * PGSIZE) :
  exists m' d' F tab l, (kinit;; kvminit) e (mkK m d) = Ret tt e (mkK m' d') /\ mach_ok m' /\
    kernel_map (syms d) (mem d') (kernel_pagetable d') F /\ length F = NPROC /\
    vm_ok d' (kernel_pagetable d') l tab /\ NoDup (F ++ table_pages tab ++ l) /\
    forall pa, pa ∈ F ++ table_pages tab ++ l <-> pa mod PGSIZE = 0 /\ PGROUNDUP (sy_end (syms d)) <= pa /\ pa + PGSIZE <= PHYSTOP.
Proof.
  pose proof (la_end _ Hy) as H0. destruct (kinit_run e m d Hm Hfl) as (m1 & d1 & l & E1 & Hm1 & Hl1 & Es & Hk & Hl); [unfold PGSIZE in *; lia|]. rewrite (bind_Ret _ _ _ _ _ _ _ E1).
  assert (PGROUNDUP (sy_end (syms d)) = (sy_end (syms d) + PGSIZE - 1) / PGSIZE * PGSIZE) as Eup by (apply PGROUNDUP_eq; unfold PGSIZE, PHYSTOP, KERNBASE in *; lia).
  assert (137 <= length l)%nat as Hn.
  { apply (free_enough l (PGROUNDUP (sy_end (syms d)))); [apply Hk| | |exact Hl]; rewrite Eup; [apply Z.mod_mul; by unfold PGSIZE|]. unfold PGSIZE in *. Z.to_euclidean_division_equations. lia. }
  destruct (kvmmake_boots e m1 d1 l Hm1 Hl1 Hk) as [(root & m2 & d2 & E2 & Hm2 & F & tab & l' & K & HF & _ & V & El & Ho)|(msg & s & _ & _ & H)]; [by rewrite Es| |lia].
  unfold kvminit. rewrite (bind_Ret _ _ _ _ _ _ _ E2). exists m2, (set_kernel_pagetable root d2), F, tab, l'. rewrite Es in K.
  split_and!; [done|eauto with kdb|exact K|done| |by rewrite <- El; apply Hk|intros pa; by rewrite <- El]. destruct V as [V1 V2 V3 V4]. split; [done|by eapply kmem_ok_frame; [exact V2|..]|by eapply pt_ok_frame; [exact V3|..]|done].
Qed.
