(* ===== verification/Sleeplock.v ===== *)
(** * Sleep locks (kernel/sleeplock.c)

    Long-term locks: a flag and an owner pid, protected by the spin lock
    [LK_sl l], with sleep and wakeup on the channel [CH_sl l]. *)

From S2P Require Import Prelude State Spinlock Kalloc Sched Wp.
Open Scope Z_scope.

(** Access to the file system's memory. *)
Definition getfs {A} (f : fsdata -> A) : M A := gets (fun d => f (fs d)).
Definition upd_fs (f : fsdata -> fsdata) (d : kdata) : kdata := set_fs (f (fs d)) d.
Definition setfs (f : fsdata -> fsdata) : M unit := modify (upd_fs f).

Definition getsl {A} (l : slockid) (f : sleeplock -> A) : M A := getfs (fun x => f (slocks x l)).
Definition setsl (l : slockid) (f : sleeplock -> sleeplock) : M unit :=
  setfs (fun x => set_slocks (slocks x).[l := f (slocks x l)] x).

Definition initsleeplock (l : slockid) (name : string) : M unit :=
  initlock (LK_sl l) "sleep lock";;
  setsl l (set_sl_name name);;
  setsl l (set_sl_locked 0);;
  setsl l (set_sl_pid 0).

Definition acquiresleep (l : slockid) : M unit :=
  acquire (LK_sl l);;
  loop (fun _ : unit =>
          let* k := getsl l sl_locked in
          if negb (k =? 0) then sleep (CH_sl l) (LK_sl l);; ret (inl tt) else ret (inr tt)) tt;;
  setsl l (set_sl_locked 1);;
  let* p := myproc_deref in
  let* pid := getp p p_pid in
  setsl l (set_sl_pid pid);;
  release (LK_sl l).

Definition releasesleep (l : slockid) : M unit :=
  acquire (LK_sl l);;
  setsl l (set_sl_locked 0);;
  setsl l (set_sl_pid 0);;
  wakeup (CH_sl l);;
  release (LK_sl l).

(** [myproc()] is called only when the lock is held ([&&]). *)
Definition holdingsleep (l : slockid) : M bool :=
  acquire (LK_sl l);;
  let* k := getsl l sl_locked in
  let* r := (if k =? 0 then ret false
             else let* p := myproc_deref in
                  let* pid := getp p p_pid in
                  let* owner := getsl l sl_pid in
                  ret (owner =? pid)) in
  release (LK_sl l);;
  ret r.

(** ** Uninterrupted runs *)

Lemma wp_getfs {A} p hl (f : fsdata -> A) d Q : Q (f (fs d)) hl d -> wp p hl (getfs f) d Q.
Proof. intros H. by apply (wp_gets p hl (fun d => f (fs d))). Qed.

Lemma wp_getsl {A} p hl l (f : sleeplock -> A) d Q : Q (f (slocks (fs d) l)) hl d -> wp p hl (getsl l f) d Q.
Proof. intros H. by apply (wp_gets p hl (fun d => f (slocks (fs d) l))). Qed.

Lemma frame_upd_fs d f : frame d (upd_fs f d).
Proof. apply frame_fs. Qed.

#[export] Hint Resolve frame_upd_fs : kdb.

Lemma upd_fs_upd_fs f g d : upd_fs f (upd_fs g d) = upd_fs (fun x => f (g x)) d.
Proof. done. Qed.

Lemma upd_fs_ext f g d : f (fs d) = g (fs d) -> upd_fs f d = upd_fs g d.
Proof. unfold upd_fs. by intros ->. Qed.

Ltac wp_extra ::=
  lazymatch goal with
  | |- wp _ _ (getfs _) _ _ => apply wp_getfs
  | |- wp _ _ (setfs _) _ _ => apply wp_modify
  | |- wp _ _ (getsl _ _) _ _ => apply wp_getsl
  | |- wp _ _ (setsl _ _) _ _ => apply wp_modify
  end.

(** Sleep lock [l] set to (locked, pid). *)
Definition sl_put (l : slockid) (v pid : Z) (x : fsdata) : fsdata :=
  set_slocks (slocks x).[l := mkSleeplock v (sl_name (slocks x l)) pid] x.

Lemma wp_acquiresleep p hl l d Q :
  LK_sl l ∉ hl -> sl_locked (slocks (fs d) l) = 0 ->
  Q tt hl (upd_fs (sl_put l 1 (p_pid (procs d p))) d) -> wp p hl (acquiresleep l) d Q.
Proof.
  intros Hn Hl HQ. unfold acquiresleep. wp_run. apply wp_loop. wp_run. rewrite Hl. cbn [Z.eqb negb]. wp_run.
  eapply (eq_rect _ (Q tt hl) HQ). rewrite !upd_fs_upd_fs. apply upd_fs_ext. unfold sl_put, set_slocks. simpl.
  f_equal. by rewrite !fupd_eq, !fupd_fupd.
Qed.

Lemma wp_releasesleep p hl l d Q :
  LK_sl l ∉ hl -> (forall i, LK_proc i ∉ hl) ->
  (forall d', frame d d' -> fs d' = sl_put l 0 0 (fs d) -> Q tt hl d') -> wp p hl (releasesleep l) d Q.
Proof.
  intros Hn Hn2 HQ. unfold releasesleep. wp_run. apply wp_wakeup; [lk_notin; by apply Hn2|].
  intros d' Hf Hx _. wp_run. apply HQ.
  - eapply frame_trans; [|exact Hf]. eapply frame_trans; apply frame_upd_fs.
  - rewrite Hx. unfold upd_fs, sl_put, set_slocks. simpl. f_equal. by rewrite fupd_eq, fupd_fupd.
Qed.

Lemma wp_holdingsleep p hl l d Q :
  LK_sl l ∉ hl ->
  Q (negb (sl_locked (slocks (fs d) l) =? 0) && (sl_pid (slocks (fs d) l) =? p_pid (procs d p))) hl d ->
  wp p hl (holdingsleep l) d Q.
Proof.
  intros Hn HQ. unfold holdingsleep. wp_run. destruct (_ =? 0); simpl in HQ |- *; wp_run; done.
Qed.
