(* ===== verification/Bio.v ===== *)
(** * The buffer cache (kernel/bio.c)

    Buffers are entries of an array; the LRU list is the doubly linked list of
    the C code, threaded through [b_prev] and [b_next], with the list head at
    index NBUF.  The disk driver is an interface: [virtio_disk_rw] moves one
    block between a buffer and the medium. *)

From S2P Require Import Prelude State Spinlock Kalloc Sched Wp Sleeplock.
Open Scope Z_scope.

Definition BSIZE : Z := 1024.

Definition getb {A} (b : nat) (f : buf -> A) : M A := getfs (fun x => f (bufs x b)).
Definition upd_buf (b : nat) (f : buf -> buf) (x : fsdata) : fsdata :=
  set_bufs (bufs x).[b := f (bufs x b)] x.
Definition setb (b : nat) (f : buf -> buf) : M unit := setfs (upd_buf b f).

(** Index of bcache.head. *)
Definition bhead : nat := NBUF.

(** ** The disk driver's promise *)

(** A completed transfer of buffer [b]. *)
Definition disk_read (b : nat) (x : fsdata) : fsdata :=
  upd_buf b (fun r => set_b_disk 0 (set_b_data (dblk x (b_blockno r)) r)) x.
Definition disk_write (b : nat) (x : fsdata) : fsdata :=
  let r := bufs x b in
  set_dwr ((b_blockno r, b_data r) :: dwr x)
    (set_dblk (dblk x).[b_blockno r := b_data r] (upd_buf b (set_b_disk 0) x)).

(** A block number whose sector number fits an [int]-wide product. *)
Definition blk_ok (bn : Z) : Prop := 0 <= bn < 2 ^ 31.

(** What the cache relies on.  [disk_ready] is the driver's invariant on its
    queue.  With nothing but the disk active while the caller waits, a transfer
    returns with the block moved and the queue ready again. *)
Class DiskDriver := {
  virtio_disk_rw : nat -> bool -> M unit;
  disk_ready : disk_t -> Prop;
  virtio_disk_read : forall p b d Q, (p < NPROC)%nat -> disk_ready (vdisk (fs d)) -> blk_ok (b_blockno (bufs (fs d) b)) ->
    (forall d' v, frame d d' -> disk_ready v -> fs d' = disk_read b (set_vdisk v (fs d)) -> Q tt [] d') ->
    wp p [] (virtio_disk_rw b false) d Q;
  virtio_disk_write : forall p b d Q, (p < NPROC)%nat -> disk_ready (vdisk (fs d)) -> blk_ok (b_blockno (bufs (fs d) b)) ->
    (forall d' v, frame d d' -> disk_ready v -> fs d' = disk_write b (set_vdisk v (fs d)) -> Q tt [] d') ->
    wp p [] (virtio_disk_rw b true) d Q;
}.

(** ** bio.c *)

(** Insert [b] right after the head. *)
Definition link_front (b : nat) : M unit :=
  let* n := getb bhead b_next in
  setb b (set_b_next n);;
  setb b (set_b_prev bhead);;
  let* n := getb bhead b_next in
  setb n (set_b_prev b);;
  setb bhead (set_b_next b).

Definition binit : M unit :=
  initlock LK_bcache "bcache";;
  setb bhead (set_b_prev bhead);;
  setb bhead (set_b_next bhead);;
  forM (seq 0 NBUF) (fun b =>
    let* n := getb bhead b_next in
    setb b (set_b_next n);;
    setb b (set_b_prev bhead);;
    initsleeplock (SL_buf b) "buffer";;
    let* n := getb bhead b_next in
    setb n (set_b_prev b);;
    setb bhead (set_b_next b)).

(** The scans of bget(): the first buffer satisfying [f] along [nxt] from [b].
    The list has at most NBUF elements before the head comes round. *)
Fixpoint bscan (fuel : nat) (bs : nat -> buf) (nxt : buf -> nat) (f : buf -> bool) (b : nat) : option nat :=
  match fuel with
  | O => None
  | S n => if decide (b = bhead) then None
           else if f (bs b) then Some b else bscan n bs nxt f (nxt (bs b))
  end.

Definition is_cached (dev blockno : Z) (r : buf) : bool := (b_dev r =? dev) && (b_blockno r =? blockno).

Definition bget (dev blockno : Z) : M nat :=
  acquire LK_bcache;;
  (* Is the block already cached? *)
  let* c := getfs (fun x => bscan (S NBUF) (bufs x) b_next (is_cached dev blockno) (b_next (bufs x bhead))) in
  match c with
  | Some b =>
      setb b (fun r => set_b_refcnt (u32 (b_refcnt r + 1)) r);;
      release LK_bcache;;
      acquiresleep (SL_buf b);;
      ret b
  | None =>
      (* Not cached. Recycle the least recently used (LRU) unused buffer. *)
      let* c := getfs (fun x => bscan (S NBUF) (bufs x) b_prev (fun r => b_refcnt r =? 0) (b_prev (bufs x bhead))) in
      match c with
      | Some b =>
          setb b (set_b_dev dev);;
          setb b (set_b_blockno blockno);;
          setb b (set_b_valid 0);;
          setb b (set_b_refcnt 1);;
          release LK_bcache;;
          acquiresleep (SL_buf b);;
          ret b
      | None => panic "bget: no buffers"
      end
  end.

Section Bio.
Context `{D : DiskDriver}.

Definition bread (dev blockno : Z) : M nat :=
  let* b := bget dev blockno in
  let* v := getb b b_valid in
  when (v =? 0) (virtio_disk_rw b false;; setb b (set_b_valid 1));;
  ret b.

Definition bwrite (b : nat) : M unit :=
  let* h := holdingsleep (SL_buf b) in
  if negb h then panic "bwrite" else
  virtio_disk_rw b true.
End Bio.

Definition brelse (b : nat) : M unit :=
  let* h := holdingsleep (SL_buf b) in
  if negb h then panic "brelse" else
  releasesleep (SL_buf b);;
  acquire LK_bcache;;
  setb b (fun r => set_b_refcnt (u32 (b_refcnt r - 1)) r);;
  let* c := getb b b_refcnt in
  when (c =? 0)
    ((* no one is waiting for it. *)
     let* n := getb b b_next in
     let* p := getb b b_prev in
     setb n (set_b_prev p);;
     let* p := getb b b_prev in
     let* n := getb b b_next in
     setb p (set_b_next n);;
     link_front b);;
  release LK_bcache.

Definition bpin (b : nat) : M unit :=
  acquire LK_bcache;;
  setb b (fun r => set_b_refcnt (u32 (b_refcnt r + 1)) r);;
  release LK_bcache.

Definition bunpin (b : nat) : M unit :=
  acquire LK_bcache;;
  setb b (fun r => set_b_refcnt (u32 (b_refcnt r - 1)) r);;
  release LK_bcache.
