(* ===== verification/BioSpec.v ===== *)
(** * Correctness of the buffer cache

    The linked LRU list, and the refinement of bio.c to an abstract block
    store: [c bn] is the current content of block [bn], [r bn] the number of
    references to it, [h bn] whether the caller holds its buffer.  bread, bwrite,
    brelse, bpin and bunpin are operations on (c, r, h) and on the disk. *)

From S2P Require Import Prelude State Spinlock CString Kalloc Sched Wp Sleeplock Bio.
Open Scope Z_scope.

(** ** The doubly linked list *)

(** From [a] through [L] to [z], by the next and prev pointers. *)
Fixpoint seg (nx pv : nat -> nat) (a : nat) (L : list nat) (z : nat) : Prop :=
  match L with
  | [] => nx a = z /\ pv z = a
  | b :: L' => nx a = b /\ pv b = a /\ seg nx pv b L' z
  end.

Lemma seg_app nx pv a L1 b L2 z :
  seg nx pv a (L1 ++ b :: L2) z <-> seg nx pv a L1 b /\ seg nx pv b L2 z.
Proof. revert a. induction L1 as [|y L1 IH]; intros a; simpl; [tauto|]. rewrite IH. tauto. Qed.

Lemma seg_ext nx pv nx' pv' a L z :
  (forall y, y ∈ a :: L -> nx' y = nx y) -> (forall y, y ∈ L ++ [z] -> pv' y = pv y) ->
  seg nx pv a L z -> seg nx' pv' a L z.
Proof.
  revert a. induction L as [|y L IH]; intros a Hn Hp; simpl.
  - rewrite Hn, Hp by set_solver. done.
  - intros (H1 & H2 & H3). rewrite Hn, Hp by set_solver. split_and!; [done..|].
    apply IH; [set_solver..|done].
Qed.

Lemma seg_next nx pv a L z : seg nx pv a L z -> nx a = hd z L.
Proof. destruct L; simpl; tauto. Qed.

Lemma seg_prev nx pv a L z : seg nx pv a L z -> pv z = List.last L a.
Proof.
  revert a. induction L as [|y L IH]; intros a; [simpl; tauto|]. intros (_ & _ & H). rewrite (IH y H).
  destruct L; [done|]. clear. revert n. induction L; intros; [done|apply IHL].
Qed.

Lemma seg_unique nx pv a L L' z : seg nx pv a L z -> seg nx pv a L' z -> z ∉ L -> z ∉ L' -> L = L'.
Proof.
  revert a L'. induction L as [|b L IH]; intros a [|b' L'] H H' Hn Hn'; simpl in H, H'; try done.
  - destruct H as [E _], H' as (E' & _). destruct Hn'. rewrite <- E, E'. by left.
  - destruct H as (E & _), H' as [E' _]. destruct Hn. rewrite <- E', E. by left.
  - destruct H as (E & _ & H), H' as (E' & _ & H'). assert (b' = b) as -> by congruence. f_equal.
    eapply IH; [exact H|exact H'|set_solver..].
Qed.

(** Unlinking [b]. *)
Lemma seg_unlink nx pv L1 b L2 z :
  NoDup (z :: L1 ++ b :: L2) -> seg nx pv z (L1 ++ b :: L2) z ->
  seg (nx.[pv b := nx b]) (pv.[nx b := pv b]) z (L1 ++ L2) z.
Proof.
  intros Hd [H1 H2]%seg_app. rewrite (seg_prev _ _ _ _ _ H1), (seg_next _ _ _ _ _ H2).
  apply NoDup_cons in Hd as [Hz [H3 [H4 H5]]%NoDup_app].
  apply NoDup_cons in H5 as [H5 H6].
  assert (forall y, y ∈ L1 -> y ∉ L2) as Hdis by (intros y Hy; specialize (H4 y Hy); set_solver).
  destruct L2 as [|y L2]; simpl hd; cbn [hd].
  - rewrite app_nil_r. destruct L1 as [|k L1 _] using rev_ind.
    + simpl. by rewrite !fupd_eq.
    + rewrite last_last. apply seg_app in H1 as [H1 _]. apply NoDup_app in H3 as (H3 & H3' & _).
      apply seg_app. split; [|by simpl; rewrite !fupd_eq].
      eapply seg_ext; [| |exact H1]; intros y Hy; apply fupd_ne; set_solver.
  - destruct H2 as (_ & _ & H2). apply NoDup_cons in H6 as [H6 H7]. destruct L1 as [|k L1 _] using rev_ind.
    + simpl. rewrite !fupd_eq. split_and!; [done..|].
      eapply seg_ext; [| |exact H2]; intros w Hw; apply fupd_ne; set_solver.
    + rewrite last_last. apply seg_app in H1 as [H1 _]. apply NoDup_app in H3 as (H3 & H3' & _).
      rewrite <- app_assoc. simpl. apply seg_app. split.
      * eapply seg_ext; [| |exact H1]; intros w Hw; apply fupd_ne; set_solver.
      * simpl. rewrite !fupd_eq. split_and!; [done..|].
        eapply seg_ext; [| |exact H2]; intros w Hw; apply fupd_ne; set_solver.
Qed.

(** Linking [b] in front. *)
Lemma seg_link nx pv L b z :
  NoDup (z :: b :: L) -> seg nx pv z L z ->
  seg (nx.[b := nx z].[z := b]) (pv.[b := z].[nx z := b]) z (b :: L) z.
Proof.
  intros [Hz [Hb Hd]%NoDup_cons]%NoDup_cons H. rewrite (seg_next _ _ _ _ _ H).
  simpl. rewrite fupd_eq. assert (b <> z) by set_solver.
  destruct L as [|y L]; cbn [hd].
  - simpl. rewrite fupd_eq, !fupd_ne, !fupd_eq by done. rewrite fupd_ne, fupd_eq by done. done.
  - destruct H as (H1 & H2 & H3). apply NoDup_cons in Hd as [Hy Hd].
    rewrite (fupd_ne _ y b b), fupd_eq by set_solver. split_and!; [done..|]. simpl.
    rewrite (fupd_ne _ z b b), fupd_eq by done. rewrite fupd_eq. split_and!; [done..|].
    eapply seg_ext; [| |exact H3]; intros w Hw; rewrite !fupd_ne; set_solver.
Qed.

(** The scans of bget() search the list forwards and backwards. *)
Lemma bscan_next bs pv f fuel a L :
  seg (fun b => b_next (bs b)) pv a L bhead -> bhead ∉ L -> (length L < fuel)%nat ->
  bscan fuel bs b_next f (b_next (bs a)) = find (fun b => f (bs b)) L.
Proof.
  revert a fuel. induction L as [|b L IH]; intros a [|fuel] H Hn Hl; simpl in Hl |- *; try lia.
  - destruct H as [-> _]. by rewrite decide_True.
  - destruct H as (-> & _ & H). rewrite decide_False by set_solver.
    destruct (f (bs b)); [done|]. apply IH; [done|set_solver|lia].
Qed.

Lemma bscan_prev bs nx f fuel z L :
  seg nx (fun b => b_prev (bs b)) bhead L z -> bhead ∉ L -> (length L < fuel)%nat ->
  bscan fuel bs b_prev f (b_prev (bs z)) = find (fun b => f (bs b)) (rev L).
Proof.
  revert z fuel. induction L as [|b L IH] using rev_ind; intros z [|fuel] H Hn Hl;
    rewrite ?length_app in Hl; simpl in Hl |- *; try lia.
  - destruct H as [_ ->]. by rewrite decide_True.
  - apply seg_app in H as [H [_ ->]]. rewrite decide_False by set_solver. rewrite rev_app_distr. simpl.
    destruct (f (bs b)); [done|]. apply IH; [done|set_solver|lia].
Qed.

(** ** Moving a buffer to the front *)

Definition nexts (x : fsdata) (b : nat) : nat := b_next (bufs x b).
Definition prevs (x : fsdata) (b : nat) : nat := b_prev (bufs x b).
(** A buffer without its links and the disk's ownership flag. *)
Definition bcore (r : buf) := (b_valid r, b_dev r, b_blockno r, b_refcnt r, b_data r).

(** [L] is the list, most recently used first. *)
Definition lru (x : fsdata) (L : list nat) : Prop :=
  L ≡ₚ seq 0 NBUF /\ seg (nexts x) (prevs x) bhead L bhead.

Lemma lru_elem x L b : lru x L -> b ∈ L <-> (b < NBUF)%nat.
Proof. intros [H _]. rewrite H, elem_of_seq. lia. Qed.

Lemma lru_nodup x L : lru x L -> NoDup (bhead :: L).
Proof.
  intros H. apply NoDup_cons. split.
  - rewrite (lru_elem x) by done. unfold bhead. lia.
  - destruct H as [H _]. rewrite H. apply NoDup_seq.
Qed.

Definition unlink (b : nat) (x : fsdata) : fsdata :=
  let x1 := upd_buf (nexts x b) (set_b_prev (prevs x b)) x in
  upd_buf (prevs x1 b) (set_b_next (nexts x1 b)) x1.
Definition linkf (b : nat) (x : fsdata) : fsdata :=
  let x1 := upd_buf b (set_b_prev bhead) (upd_buf b (set_b_next (nexts x bhead)) x) in
  upd_buf bhead (set_b_next b) (upd_buf (nexts x1 bhead) (set_b_prev b) x1).

Lemma nexts_set_next b v x : nexts (upd_buf b (set_b_next v) x) = (nexts x).[b := v].
Proof. extensionality k. unfold nexts, upd_buf, fupd. simpl. by case_decide. Qed.
Lemma nexts_set_prev b v x : nexts (upd_buf b (set_b_prev v) x) = nexts x.
Proof. extensionality k. unfold nexts, upd_buf, fupd. simpl. by case_decide; subst. Qed.
Lemma prevs_set_prev b v x : prevs (upd_buf b (set_b_prev v) x) = (prevs x).[b := v].
Proof. extensionality k. unfold prevs, upd_buf, fupd. simpl. by case_decide. Qed.
Lemma prevs_set_next b v x : prevs (upd_buf b (set_b_next v) x) = prevs x.
Proof. extensionality k. unfold prevs, upd_buf, fupd. simpl. by case_decide; subst. Qed.

(** The links alone change. *)
Definition relinked (x x' : fsdata) : Prop :=
  (forall k, bcore (bufs x' k) = bcore (bufs x k)) /\ x' = set_bufs (bufs x') x.

Lemma relinked_upd b f x : (forall r, bcore (f r) = bcore r) -> relinked x (upd_buf b f x).
Proof.
  intros H. split; [|by destruct x]. intros k. unfold upd_buf, fupd. simpl. case_decide; [by subst|done].
Qed.

Lemma relinked_trans x y z : relinked x y -> relinked y z -> relinked x z.
Proof. intros [H1 H2] [H3 H4]. split; [intros; by rewrite H3|]. rewrite H4, H2. by destruct x. Qed.

Lemma links_linkf b x : b <> bhead ->
  nexts (linkf b x) = (nexts x).[b := nexts x bhead].[bhead := b] /\
  prevs (linkf b x) = (prevs x).[b := bhead].[nexts x bhead := b].
Proof.
  intros H. unfold linkf. rewrite nexts_set_next, !nexts_set_prev, prevs_set_next, !nexts_set_next, !prevs_set_prev,
    prevs_set_next. split; [done|]. rewrite (fupd_ne _ b) by congruence. done.
Qed.

Lemma links_unlink b x : nexts x b <> b ->
  nexts (unlink b x) = (nexts x).[prevs x b := nexts x b] /\
  prevs (unlink b x) = (prevs x).[nexts x b := prevs x b].
Proof.
  intros H. unfold unlink. rewrite nexts_set_next, prevs_set_next, nexts_set_prev, prevs_set_prev.
  by rewrite fupd_ne by congruence.
Qed.

Lemma move_front x L b :
  lru x L -> (b < NBUF)%nat ->
  relinked x (linkf b (unlink b x)) /\
  exists L1 L2, L = L1 ++ b :: L2 /\ lru (linkf b (unlink b x)) (b :: L1 ++ L2).
Proof.
  intros Hl Hb. split.
  { unfold linkf, unlink. repeat (eapply relinked_trans; [|by apply relinked_upd]).
    split; [done|by destruct x]. }
  pose proof (lru_nodup _ _ Hl) as Hd. apply (lru_elem x L b Hl), list_elem_of_split in Hb as (L1 & L2 & ->).
  exists L1, L2. split; [done|]. destruct Hl as [Hp Hs]. split.
  { rewrite <- Hp. apply Permutation_middle. }
  assert (NoDup (bhead :: b :: L1 ++ L2)) as Hd2 by (by rewrite Permutation_middle).
  assert (nexts x b <> b) as Hnb.
  { apply seg_app in Hs as [_ Hs]. rewrite (seg_next _ _ _ _ _ Hs).
    apply NoDup_cons in Hd2 as [Hz [Hb2 _]%NoDup_cons]. destruct L2; cbn [hd]; intros E; [apply Hz|apply Hb2]; rewrite E; set_solver. }
  apply seg_unlink in Hs; [|done]. apply seg_link with (b := b) in Hs; [|done].
  destruct (links_unlink b x Hnb) as [E1 E2]. rewrite <- E1, <- E2 in Hs.
  assert (b <> bhead) as Hbh.
  { intros E. apply NoDup_cons in Hd2 as [Hz _]. apply Hz. rewrite E. by left. }
  by destruct (links_linkf b (unlink b x) Hbh) as [-> ->].
Qed.

(** brelse()'s pointer code, as functions. *)
Lemma wp_link_front p hl b d Q : Q tt hl (upd_fs (linkf b) d) -> wp p hl (link_front b) d Q.
Proof. intros H m0 m e Hq Hs. by exists tt, hl, m, (upd_fs (linkf b) d). Qed.

Lemma wp_unlink {A} p hl b d (k : M A) Q :
  wp p hl k (upd_fs (unlink b) d) Q ->
  wp p hl (let* n := getb b b_next in
     let* p := getb b b_prev in
     setb n (set_b_prev p);;
     let* p := getb b b_prev in
     let* n := getb b b_next in
     setb p (set_b_next n);;
     k) d Q.
Proof. intros H m0 m e Hq Hs. apply (H m0 m e Hq Hs). Qed.

(** ** The abstract block store *)

Ltac wp_extra ::=
  lazymatch goal with
  | |- wp _ _ (getfs _) _ _ => apply wp_getfs
  | |- wp _ _ (setfs _) _ _ => apply wp_modify
  | |- wp _ _ (getsl _ _) _ _ => apply wp_getsl
  | |- wp _ _ (setsl _ _) _ _ => apply wp_modify
  | |- wp _ _ (getb _ _) _ _ => apply wp_getfs
  | |- wp _ _ (setb _ _) _ _ => apply wp_modify
  end.

(** Buffer [b] is the one for block [bn] of [dev]. *)
Definition blk_of (dev : Z) (x : fsdata) (b : nat) (bn : Z) : Prop :=
  (b < NBUF)%nat /\ b_dev (bufs x b) = dev /\ b_blockno (bufs x b) = bn.

(** What an operation on the cache leaves alone. *)
Definition fs_rest (x x' : fsdata) : Prop :=
  logst x' = logst x /\ sb x' = sb x /\ inodes x' = inodes x /\
  (forall i, slocks x' (SL_inode i) = slocks x (SL_inode i)).

Lemma fs_rest_refl x : fs_rest x x.
Proof. done. Qed.

Lemma fs_rest_trans x y z : fs_rest x y -> fs_rest y z -> fs_rest x z.
Proof. intros (H1 & H2 & H3 & H4) (H1' & H2' & H3' & H4'). split_and!; [congruence..|]. intros i. by rewrite H4'. Qed.

#[export] Hint Resolve fs_rest_refl : kdb.

Section Cache.
Context {D : DiskDriver} (dev pid : Z).
Implicit Types (x : fsdata) (c : Z -> bytes) (r : Z -> Z) (h : Z -> bool) (b : nat) (bn : Z).
Local Notation blk := (blk_of dev).

Record cache x c r h : Prop := {
  ca_lru : exists L, lru x L;
  ca_ready : disk_ready (vdisk x);
  ca_inj : forall b b' bn, blk x b bn -> blk x b' bn -> b = b';
  ca_dev : forall b, (b < NBUF)%nat -> b_dev (bufs x b) <> dev -> b_refcnt (bufs x b) = 0;
  ca_ref : forall b bn, blk x b bn -> b_refcnt (bufs x b) = r bn;
  ca_in : forall bn, r bn <> 0 -> exists b, blk x b bn;
  ca_valid : forall b bn, blk x b bn -> r bn <> 0 -> b_valid (bufs x b) <> 0;
  ca_data : forall b bn, blk x b bn -> b_valid (bufs x b) <> 0 -> b_data (bufs x b) = c bn;
  ca_clean : forall bn, r bn = 0 -> c bn = dblk x bn;
  ca_range : forall bn, 0 <= r bn < 2 ^ 32;
  ca_held : forall bn, h bn = true -> r bn <> 0;
  ca_lock : forall b bn, blk x b bn -> h bn = true ->
    sl_locked (slocks x (SL_buf b)) <> 0 /\ sl_pid (slocks x (SL_buf b)) = pid;
  ca_unlk : forall b, (b < NBUF)%nat -> (b_dev (bufs x b) = dev -> h (b_blockno (bufs x b)) = false) ->
    sl_locked (slocks x (SL_buf b)) = 0;
}.

(** A buffer is still free as long as fewer than NBUF blocks are referenced. *)
Definition room r bn : Prop :=
  r bn <> 0 \/ exists P : list Z, (length P < NBUF)%nat /\ forall bn', r bn' <> 0 -> bn' ∈ P.

Lemma free_buffer x c r h P :
  cache x c r h -> (length P < NBUF)%nat -> (forall bn, r bn <> 0 -> bn ∈ P) ->
  exists b, (b < NBUF)%nat /\ b_refcnt (bufs x b) = 0.
Proof.
  intros Hc Hl HP. destruct (decide (Forall (fun b => b_refcnt (bufs x b) <> 0) (seq 0 NBUF))) as [Hall|Hn].
  - exfalso. rewrite Forall_forall in Hall.
    assert (forall b, b ∈ seq 0 NBUF -> blk x b (b_blockno (bufs x b))) as Hblk.
    { intros b Hb. pose proof (Hall b Hb). apply elem_of_seq in Hb. split_and!; [lia| |done].
      destruct (decide (b_dev (bufs x b) = dev)); [done|]. by destruct H; apply (ca_dev _ _ _ _ Hc); [lia|]. }
    assert (NoDup ((fun b => b_blockno (bufs x b)) <$> seq 0 NBUF)) as Hd.
    { apply NoDup_fmap_2_strong; [|apply NoDup_seq]. intros b b' Hb Hb' E.
      apply (ca_inj _ _ _ _ Hc b b' (b_blockno (bufs x b))); [by apply Hblk|]. rewrite E. by apply Hblk. }
    assert (length ((fun b => b_blockno (bufs x b)) <$> seq 0 NBUF) <= length P)%nat as Hle.
    { apply submseteq_length, NoDup_submseteq; [done|]. intros bn (b & -> & Hb)%list_elem_of_fmap.
      apply HP. rewrite <- (ca_ref _ _ _ _ Hc b) by by apply Hblk. by apply Hall. }
    rewrite length_fmap, length_seq in Hle. lia.
  - apply not_Forall_Exists in Hn; [|apply _]. apply Exists_exists in Hn as (b & Hb & Hr).
    apply elem_of_seq in Hb. exists b. split; [lia|]. by destruct (decide (b_refcnt (bufs x b) = 0)).
Qed.

Lemma find_cached x c r h L bn :
  cache x c r h -> lru x L ->
  match find (fun b => is_cached dev bn (bufs x b)) L with
  | Some b => blk x b bn
  | None => (forall b, ~ blk x b bn) /\ r bn = 0
  end.
Proof.
  intros Hc HL. destruct (find _ L) as [b|] eqn:E.
  - apply find_some in E as [Hb [H1%Z.eqb_eq H2%Z.eqb_eq]%andb_prop].
    split_and!; [|done..]. apply (lru_elem _ _ _ HL), list_elem_of_In, Hb.
  - assert (forall b, ~ blk x b bn) as Hno.
    { intros b (Hb & H1 & H2). apply (lru_elem _ _ _ HL), list_elem_of_In in Hb.
      pose proof (find_none _ _ E b Hb) as H. unfold is_cached in H. simpl in H.
      by rewrite H1, H2, !Z.eqb_refl in H. }
    split; [done|]. destruct (decide (r bn = 0)); [done|].
    by destruct (ca_in _ _ _ _ Hc bn) as [b Hb]; [|destruct (Hno b)].
Qed.

(** The buffers of referenced blocks keep their place. *)
Definition stable r x x' : Prop := forall b bn, blk x b bn -> r bn <> 0 -> blk x' b bn.

Lemma blk_core x x' b bn : bcore (bufs x' b) = bcore (bufs x b) -> blk x' b bn <-> blk x b bn.
Proof. unfold bcore, blk_of. intros [= _ -> -> _ _]. done. Qed.

(** Only the buffer of [bn] changes, and the abstract state only at [bn]. *)
Lemma cache_one x x' c c' r r' h h' b bn :
  cache x c r h -> blk x b bn -> blk x' b bn ->
  (forall k, k <> b -> bcore (bufs x' k) = bcore (bufs x k) /\ slocks x' (SL_buf k) = slocks x (SL_buf k)) ->
  (forall bn', bn' <> bn -> c' bn' = c bn' /\ r' bn' = r bn' /\ h' bn' = h bn' /\ dblk x' bn' = dblk x bn') ->
  (exists L, lru x' L) -> disk_ready (vdisk x') ->
  b_refcnt (bufs x' b) = r' bn /\ 0 <= r' bn < 2 ^ 32 ->
  (r' bn <> 0 -> b_valid (bufs x' b) <> 0) -> (b_valid (bufs x' b) <> 0 -> b_data (bufs x' b) = c' bn) ->
  (r' bn = 0 -> c' bn = dblk x' bn) -> (h' bn = true -> r' bn <> 0) ->
  (if h' bn then sl_locked (slocks x' (SL_buf b)) <> 0 /\ sl_pid (slocks x' (SL_buf b)) = pid
   else sl_locked (slocks x' (SL_buf b)) = 0) ->
  cache x' c' r' h'.
Proof.
  intros Hc Hb Hb' Hoth Habs Hlru Hrd [Href Hrg] Hval Hdat Hcl Hhd Hlk.
  assert (forall k bn', blk x' k bn' <-> blk x k bn') as Hblk.
  { intros k bn'. destruct (decide (k = b)) as [->|Hk].
    - destruct Hb as (_ & E1 & E2), Hb' as (_ & E1' & E2'). unfold blk_of. by rewrite E1, E2, E1', E2'.
    - apply blk_core. by apply Hoth. }
  assert (forall k bn', blk x k bn' -> k = b /\ bn' = bn \/ k <> b /\ bn' <> bn) as Hcase.
  { intros k bn' Hk. destruct (decide (k = b)) as [->|Hkb].
    - left. destruct Hk as (_ & _ & <-), Hb as (_ & _ & <-). done.
    - right. split; [done|]. intros ->. apply Hkb. by apply (ca_inj _ _ _ _ Hc k b bn). }
  assert (forall k, k <> b -> b_valid (bufs x' k) = b_valid (bufs x k) /\ b_dev (bufs x' k) = b_dev (bufs x k) /\
    b_blockno (bufs x' k) = b_blockno (bufs x k) /\ b_refcnt (bufs x' k) = b_refcnt (bufs x k) /\
    b_data (bufs x' k) = b_data (bufs x k)) as Hf.
  { intros k Hk. destruct (Hoth k Hk) as [[= -> -> -> -> ->] _]. done. }
  split; [done|done|..].
  - intros k k' bn' Hk%Hblk Hk'%Hblk. by apply (ca_inj _ _ _ _ Hc k k' bn').
  - intros k Hk Hdv. destruct (decide (k = b)) as [->|Hkb]; [by destruct Hb' as (_ & ? & _)|].
    destruct (Hf k Hkb) as (_ & E & _ & -> & _). rewrite E in Hdv. by apply (ca_dev _ _ _ _ Hc).
  - intros k bn' Hk%Hblk. destruct (Hcase k bn' Hk) as [[-> ->]|[Hkb Hne]]; [done|].
    destruct (Hf k Hkb) as (_ & _ & _ & -> & _), (Habs bn' Hne) as (_ & -> & _). by apply (ca_ref _ _ _ _ Hc).
  - intros bn' Hn. destruct (decide (bn' = bn)) as [->|Hne]; [by exists b|].
    destruct (Habs bn' Hne) as (_ & E & _). rewrite E in Hn. destruct (ca_in _ _ _ _ Hc bn' Hn) as [k Hk].
    exists k. by apply Hblk.
  - intros k bn' Hk%Hblk. destruct (Hcase k bn' Hk) as [[-> ->]|[Hkb Hne]]; [done|].
    destruct (Hf k Hkb) as (-> & _), (Habs bn' Hne) as (_ & -> & _). by apply (ca_valid _ _ _ _ Hc).
  - intros k bn' Hk%Hblk. destruct (Hcase k bn' Hk) as [[-> ->]|[Hkb Hne]]; [done|].
    destruct (Hf k Hkb) as (-> & _ & _ & _ & ->), (Habs bn' Hne) as (-> & _). by apply (ca_data _ _ _ _ Hc).
  - intros bn' Hn. destruct (decide (bn' = bn)) as [->|Hne]; [by apply Hcl|].
    destruct (Habs bn' Hne) as (-> & E & _ & ->). rewrite E in Hn. by apply (ca_clean _ _ _ _ Hc).
  - intros bn'. destruct (decide (bn' = bn)) as [->|Hne]; [done|].
    destruct (Habs bn' Hne) as (_ & -> & _). apply (ca_range _ _ _ _ Hc).
  - intros bn'. destruct (decide (bn' = bn)) as [->|Hne]; [done|].
    destruct (Habs bn' Hne) as (_ & -> & -> & _). apply (ca_held _ _ _ _ Hc).
  - intros k bn' Hk%Hblk. destruct (Hcase k bn' Hk) as [[-> ->]|[Hkb Hne]]; [intros E; by rewrite E in Hlk|].
    destruct (Habs bn' Hne) as (_ & _ & -> & _), (Hoth k Hkb) as [_ ->]. by apply (ca_lock _ _ _ _ Hc).
  - intros k Hk Hx. destruct (decide (k = b)) as [->|Hkb].
    + destruct Hb' as (_ & E1 & E2). rewrite E2 in Hx. by rewrite (Hx E1) in Hlk.
    + destruct (Hf k Hkb) as (_ & E1 & E2 & _), (Hoth k Hkb) as [_ ->]. rewrite E1, E2 in Hx.
      apply (ca_unlk _ _ _ _ Hc); [done|]. intros Hdv. rewrite <- (Hx Hdv). symmetry. apply Habs.
      intros E. apply Hkb, (ca_inj _ _ _ _ Hc k b bn); [by split_and!|done].
Qed.

(** An unreferenced buffer is given to an uncached block. *)
Lemma cache_recycle x c r h b bn :
  cache x c r h -> (b < NBUF)%nat -> b_refcnt (bufs x b) = 0 -> (forall b', ~ blk x b' bn) -> r bn = 0 ->
  let x' := upd_buf b (fun q => set_b_valid 0 (set_b_blockno bn (set_b_dev dev q))) x in
  cache x' c r h /\ blk x' b bn /\ stable r x x'.
Proof.
  intros Hc Hb Href Hno Hr x'.
  assert (forall k, k <> b -> bufs x' k = bufs x k) as Hoth by (intros k Hk; simpl; by rewrite fupd_ne).
  assert (bufs x' b = set_b_valid 0 (set_b_blockno bn (set_b_dev dev (bufs x b)))) as Eb by (simpl; by rewrite fupd_eq).
  assert (forall k bn', k <> b -> blk x' k bn' <-> blk x k bn') as Hblk.
  { intros k bn' Hk. unfold blk_of. by rewrite Hoth. }
  assert (forall bn', blk x' b bn' -> bn' = bn) as Hbn by (intros bn' (_ & _ & <-); by rewrite Eb).
  assert (forall bn', blk x b bn' -> r bn' = 0) as Hold by (intros bn' Hk; by rewrite <- (ca_ref _ _ _ _ Hc b bn')).
  assert (blk x' b bn) as Hbb by (split_and!; [done|by rewrite Eb..]).
  split_and!; [split|done|].
  - destruct (ca_lru _ _ _ _ Hc) as [L [HL1 HL2]]. exists L. split; [done|].
    eapply seg_ext; [| |exact HL2]; intros y _; unfold nexts, prevs;
      (destruct (decide (y = b)) as [->|Hy]; [by rewrite Eb|by rewrite Hoth]).
  - apply (ca_ready _ _ _ _ Hc).
  - intros k k' bn' Hk Hk'. destruct (decide (k = b)) as [->|Hkb], (decide (k' = b)) as [->|Hkb']; try done.
    + apply Hbn in Hk as ->. apply Hblk in Hk'; [|done]. by destruct (Hno k').
    + apply Hbn in Hk' as ->. apply Hblk in Hk; [|done]. by destruct (Hno k).
    + apply Hblk in Hk, Hk'; try done. by apply (ca_inj _ _ _ _ Hc k k' bn').
  - intros k Hk. destruct (decide (k = b)) as [->|Hkb]; [by rewrite Eb|]. rewrite Hoth by done. by apply (ca_dev _ _ _ _ Hc).
  - intros k bn' Hk. destruct (decide (k = b)) as [->|Hkb].
    + apply Hbn in Hk as ->. rewrite Eb. simpl. congruence.
    + rewrite Hoth by done. apply (ca_ref _ _ _ _ Hc). by apply Hblk.
  - intros bn' Hn. destruct (ca_in _ _ _ _ Hc bn' Hn) as [k Hk]. exists k. apply Hblk; [|done].
    intros ->. by destruct Hn; apply Hold.
  - intros k bn' Hk. destruct (decide (k = b)) as [->|Hkb]; [by apply Hbn in Hk as ->|].
    rewrite Hoth by done. apply (ca_valid _ _ _ _ Hc). by apply Hblk.
  - intros k bn' Hk. destruct (decide (k = b)) as [->|Hkb]; [by rewrite Eb|].
    rewrite Hoth by done. apply (ca_data _ _ _ _ Hc). by apply Hblk.
  - apply (ca_clean _ _ _ _ Hc).
  - apply (ca_range _ _ _ _ Hc).
  - apply (ca_held _ _ _ _ Hc).
  - intros k bn' Hk Hh. destruct (decide (k = b)) as [->|Hkb].
    + apply Hbn in Hk as ->. by destruct (ca_held _ _ _ _ Hc bn).
    + apply (ca_lock _ _ _ _ Hc k bn'); [by apply Hblk|done].
  - intros k Hk Hx. destruct (decide (k = b)) as [->|Hkb].
    + apply (ca_unlk _ _ _ _ Hc); [done|]. intros Hdv. destruct (h (b_blockno (bufs x b))) eqn:Hh; [|done].
      destruct (ca_held _ _ _ _ Hc _ Hh). apply Hold. by split_and!.
    + rewrite Hoth in Hx by done. by apply (ca_unlk _ _ _ _ Hc).
  - intros k bn' Hk Hn. apply Hblk; [|done]. intros ->. by destruct Hn; apply Hold.
Qed.

(** ** bio.c refines the block store *)

(** Nothing is written to disk. *)
Definition no_write x x' : Prop := fs_rest x x' /\ dblk x' = dblk x /\ dwr x' = dwr x.

Lemma no_write_refl x : no_write x x.
Proof. done. Qed.

(** The buffer bget() picks: the one that caches [bn], else the least recently
    used one that nobody references. *)
Definition picked x bn b : Prop :=
  blk x b bn \/
  ((forall b', ~ blk x b' bn) /\ forall L, lru x L -> find (fun k => b_refcnt (bufs x k) =? 0) (rev L) = Some b).

Lemma lru_unique x L L' : lru x L -> lru x L' -> L = L'.
Proof.
  intros H H'. pose proof (lru_nodup _ _ H) as [Hn _]%NoDup_cons. pose proof (lru_nodup _ _ H') as [Hn' _]%NoDup_cons.
  destruct H as [_ H], H' as [_ H']. by eapply seg_unique.
Qed.

(** bget() finds or recycles a buffer [b] for [bn], counts the reference and locks it. *)
Lemma wp_bget p d c r h bn Q :
  cache (fs d) c r h -> h bn = false -> r bn + 1 < 2 ^ 32 -> room r bn ->
  (forall b x0, cache x0 c r h -> blk x0 b bn -> stable r (fs d) x0 -> no_write (fs d) x0 -> picked (fs d) bn b ->
     Q b [] (set_fs (sl_put (SL_buf b) 1 (p_pid (procs d p)) (upd_buf b (set_b_refcnt (r bn + 1)) x0)) d)) ->
  wp p [] (bget dev bn) d Q.
Proof.
  intros Hc Hh Hr Hroom HQ. destruct (ca_lru _ _ _ _ Hc) as [L HL]. pose proof (lru_nodup _ _ HL) as Hd.
  assert (length L < S NBUF)%nat as Hlen.
  { destruct HL as [HL _]. apply Permutation_length in HL. rewrite length_seq in HL. lia. }
  apply NoDup_cons in Hd as [Hnh Hd]. pose proof (ca_range _ _ _ _ Hc bn) as Hrb.
  unfold bget. wp_run.
  rewrite (bscan_next (bufs (fs d)) (prevs (fs d)) _ _ _ L); [|apply HL|done|done].
  pose proof (find_cached _ c r h L bn Hc HL) as Hfind. destruct (find _ L) as [b|].
  - wp_run. pose proof Hfind as (Hb & Hdev & Hbn).
    apply wp_acquiresleep; [lk_notin|apply (ca_unlk _ _ _ _ Hc); [done|by rewrite Hbn]|]. wp_run.
    pose proof (HQ b (fs d) Hc Hfind (fun _ _ H _ => H) (no_write_refl _) (or_introl Hfind)) as HQ'.
    eapply eq_rect; [exact HQ'|]. unfold upd_fs, upd_buf. simpl.
    rewrite (ca_ref _ _ _ _ Hc b bn Hfind), u32_small by lia. by destruct d.
  - destruct Hfind as [Hno Hr0]. wp_run.
    rewrite (bscan_prev (bufs (fs d)) (nexts (fs d)) _ _ _ L); [|apply HL|done|done].
    destruct (find _ (rev L)) as [b|] eqn:E.
    + assert (picked (fs d) bn b) as Hpk.
      { right. split; [done|]. intros L' HL'. by rewrite (lru_unique _ _ _ HL' HL). }
      apply find_some in E as [Hb Href%Z.eqb_eq]. rewrite <- in_rev in Hb.
      apply list_elem_of_In, (lru_elem _ _ _ HL) in Hb. wp_run.
      destruct (cache_recycle _ c r h b bn Hc Hb Href Hno Hr0) as (Hc1 & Hb1 & Hst).
      apply wp_acquiresleep; [lk_notin| |].
      { apply (ca_unlk _ _ _ _ Hc1 b Hb). by destruct Hb1 as (_ & _ & ->). }
      wp_run. eapply eq_rect; [by apply (HQ b _ Hc1 Hb1 Hst)|].
      rewrite Hr0, !upd_fs_upd_fs. apply (upd_fs_ext (fun _ => _)). unfold sl_put, set_slocks, upd_buf, set_bufs. simpl.
      f_equal. by rewrite !fupd_eq, !fupd_fupd.
    + exfalso. destruct Hroom as [Hx|(P & HP1 & HP2)]; [done|].
      destruct (free_buffer _ c r h P Hc HP1 HP2) as (b & Hb & Hz).
      apply (lru_elem _ _ _ HL), list_elem_of_In, in_rev in Hb.
      pose proof (find_none _ _ E b Hb) as H. simpl in H. by rewrite Hz in H.
Qed.

Lemma lru_links x x' L : (forall k, b_next (bufs x' k) = b_next (bufs x k) /\ b_prev (bufs x' k) = b_prev (bufs x k)) ->
  lru x L -> lru x' L.
Proof.
  intros H [H1 H2]. split; [done|]. eapply seg_ext; [| |exact H2]; intros y _; apply H.
Qed.

(** The buffer [b] of [bn] referenced once more and locked, with its data valid. *)
Lemma cache_enter x0 x' c r h b bn :
  cache x0 c r h -> blk x0 b bn -> r bn + 1 < 2 ^ 32 ->
  (forall k, k <> b -> bufs x' k = bufs x0 k /\ slocks x' (SL_buf k) = slocks x0 (SL_buf k)) ->
  bcore (bufs x' b) = (b_valid (bufs x' b), dev, bn, r bn + 1, c bn) ->
  b_next (bufs x' b) = b_next (bufs x0 b) -> b_prev (bufs x' b) = b_prev (bufs x0 b) ->
  b_valid (bufs x' b) <> 0 -> sl_locked (slocks x' (SL_buf b)) = 1 -> sl_pid (slocks x' (SL_buf b)) = pid ->
  dblk x' = dblk x0 -> disk_ready (vdisk x') ->
  cache x' c (r.[bn := r bn + 1]) (h.[bn := true]) /\ blk x' b bn /\ stable r x0 x'.
Proof.
  intros Hc Hb Hr Hoth [= Edev Ebn Eref Edata] Hnx Hpv Hv Hs1 Hs2 Hdk Hrd.
  assert (blk x' b bn) as Hbb by (split_and!; [apply Hb|done..]).
  pose proof (ca_range _ _ _ _ Hc bn) as Hrg. split_and!; [|done|].
  - eapply (cache_one x0 x' c c r _ h _ b bn); try done.
    + intros k Hk. by destruct (Hoth k Hk) as [-> ->].
    + intros bn' Hne. rewrite !fupd_ne, Hdk by done. done.
    + destruct (ca_lru _ _ _ _ Hc) as [L HL]. exists L. eapply lru_links; [|exact HL].
      intros k. destruct (decide (k = b)) as [->|Hk]; [done|]. by destruct (Hoth k Hk) as [-> _].
    + rewrite fupd_eq. lia.
    + rewrite fupd_eq. lia.
    + rewrite !fupd_eq. lia.
    + rewrite fupd_eq. by rewrite Hs1.
  - intros k bn' Hk _. destruct (decide (k = b)) as [->|Hkb].
    + destruct Hk as (_ & _ & <-), Hb as (_ & _ & ->). done.
    + eapply blk_core; [|exact Hk]. by destruct (Hoth k Hkb) as [-> _].
Qed.

Lemma stable_trans r x y z : stable r x y -> stable r y z -> stable r x z.
Proof. intros H1 H2 b bn Hb Hr. by apply H2; [apply H1|]. Qed.

Lemma no_write_trans x y z : no_write x y -> no_write y z -> no_write x z.
Proof. intros (H1 & H2 & H3) (H4 & H5 & H6). split_and!; [by eapply fs_rest_trans|congruence..]. Qed.

Lemma cache_data x c r h b bn : cache x c r h -> blk x b bn -> r bn <> 0 -> b_data (bufs x b) = c bn.
Proof. intros Hc Hb Hr. apply (ca_data _ _ _ _ Hc b bn Hb), (ca_valid _ _ _ _ Hc b bn Hb Hr). Qed.

(** bread() returns the locked buffer of [bn], holding the block's current content. *)
Lemma wp_bread p d c r h bn Q :
  (p < NPROC)%nat -> p_pid (procs d p) = pid ->
  cache (fs d) c r h -> blk_ok bn -> h bn = false -> r bn + 1 < 2 ^ 32 -> room r bn ->
  (forall b d', frame d d' -> no_write (fs d) (fs d') -> stable r (fs d) (fs d') ->
     cache (fs d') c (r.[bn := r bn + 1]) (h.[bn := true]) -> blk (fs d') b bn ->
     b_data (bufs (fs d') b) = c bn -> picked (fs d) bn b -> Q b [] d') ->
  wp p [] (bread dev bn) d Q.
Proof.
  intros Hp Hpid Hc Hok Hh Hr Hroom HQ. unfold bread. apply wp_bind.
  eapply (wp_bget p d c r h bn); try done. intros b x0 Hc0 Hb0 Hst Hnw Hpk. pose proof Hb0 as (Hb & Hdev & Hbn).
  wp_run. simpl. rewrite fupd_eq. simpl.
  assert (r bn <> 0 \/ c bn = dblk x0 bn) as Hcl.
  { destruct (decide (r bn = 0)); [right; by apply (ca_clean _ _ _ _ Hc0)|by left]. }
  apply wp_when; intros Hv.
  - apply Z.eqb_eq in Hv. apply wp_bind. apply virtio_disk_read; [done|apply (ca_ready _ _ _ _ Hc0)|simpl; rewrite fupd_eq; simpl; by rewrite Hbn|].
    intros d1 v Hf1 Hrd E1. wp_run.
    assert (c bn = dblk x0 bn) as Ec.
    { destruct Hcl as [Hcl|]; [|done]. by destruct (ca_valid _ _ _ _ Hc0 b bn Hb0 Hcl). }
    destruct (cache_enter x0 (fs (upd_fs (upd_buf b (set_b_valid 1)) d1)) c r h b bn) as (H1 & H2 & H3);
      try done; simpl; rewrite ?E1; unfold disk_read, upd_buf, sl_put; simpl; rewrite ?fupd_eq; simpl; rewrite ?fupd_eq; try done.
    { intros k Hk. rewrite !fupd_ne by congruence. done. }
    { unfold bcore. simpl. by rewrite Hdev, Hbn, Ec. }
    apply HQ; try done.
    + eapply frame_trans; [apply frame_fs|]. eapply frame_trans; [exact Hf1|]. apply frame_upd_fs.
    + eapply no_write_trans; [exact Hnw|]. simpl. rewrite E1. unfold no_write, fs_rest. simpl. split_and!; try done.
    + by eapply stable_trans.
    + apply (cache_data _ _ _ _ b bn H1 H2). rewrite fupd_eq. pose proof (ca_range _ _ _ _ Hc bn). lia.
  - apply Z.eqb_neq in Hv. wp_run.
    set (d' := set_fs _ d).
    destruct (cache_enter x0 (fs d') c r h b bn) as (H1 & H2 & H3);
      try done; simpl; rewrite ?fupd_eq; simpl; try done.
    { intros k Hk. rewrite !fupd_ne by congruence. done. }
    { unfold bcore. simpl. by rewrite Hdev, Hbn, (ca_data _ _ _ _ Hc0 b bn Hb0 Hv). }
    { apply (ca_ready _ _ _ _ Hc0). }
    apply HQ; try done.
    + by eapply stable_trans.
    + apply (cache_data _ _ _ _ b bn H1 H2). rewrite fupd_eq. pose proof (ca_range _ _ _ _ Hc bn). lia.
Qed.

(** Writing to the data of a referenced block's buffer. *)
Lemma cache_set_data x c r h b bn (f : buf -> buf) v :
  cache x c r h -> blk x b bn -> r bn <> 0 ->
  f (bufs x b) = set_b_data v (bufs x b) ->
  cache (upd_buf b f x) (c.[bn := v]) r h /\ blk (upd_buf b f x) b bn.
Proof.
  intros Hc Hb Hr Ef.
  assert (bufs (upd_buf b f x) b = set_b_data v (bufs x b)) as Eb by (simpl; by rewrite fupd_eq).
  assert (blk (upd_buf b f x) b bn) as Hbb by (unfold blk_of; rewrite Eb; apply Hb). split; [|done].
  eapply (cache_one x _ c _ r r h h b bn); try done.
  - intros k Hk. simpl. by rewrite fupd_ne.
  - intros bn' Hne. by rewrite fupd_ne.
  - destruct (ca_lru _ _ _ _ Hc) as [L HL]. exists L. eapply lru_links; [|exact HL].
    intros k. destruct (decide (k = b)) as [->|Hk]; [by rewrite Eb|]. simpl. by rewrite fupd_ne.
  - apply (ca_ready _ _ _ _ Hc).
  - rewrite Eb. split; [apply (ca_ref _ _ _ _ Hc b bn Hb)|apply (ca_range _ _ _ _ Hc)].
  - rewrite Eb. apply (ca_valid _ _ _ _ Hc b bn Hb).
  - rewrite Eb. by rewrite fupd_eq.
  - destruct (h bn) eqn:E; [by apply (ca_lock _ _ _ _ Hc b bn)|].
    apply (ca_unlk _ _ _ _ Hc b); [apply Hb|]. by destruct Hb as (_ & _ & ->).
Qed.

(** bwrite() writes the buffer of [bn] to the disk. *)
Lemma wp_bwrite p d c r h b bn Q :
  (p < NPROC)%nat -> p_pid (procs d p) = pid ->
  cache (fs d) c r h -> blk (fs d) b bn -> blk_ok bn -> h bn = true ->
  (forall d', frame d d' -> fs_rest (fs d) (fs d') -> stable r (fs d) (fs d') ->
     dblk (fs d') = (dblk (fs d)).[bn := c bn] -> dwr (fs d') = (bn, c bn) :: dwr (fs d) ->
     cache (fs d') c r h -> Q tt [] d') ->
  wp p [] (bwrite b) d Q.
Proof.
  intros Hp Hpid Hc Hb Hok Hh HQ. pose proof (ca_held _ _ _ _ Hc bn Hh) as Hr.
  destruct (ca_lock _ _ _ _ Hc b bn Hb Hh) as [Hl1 Hl2]. pose proof (cache_data _ _ _ _ _ _ Hc Hb Hr) as Hdat.
  unfold bwrite. apply wp_bind, wp_holdingsleep; [lk_notin|].
  rewrite Hl2, Hpid, Z.eqb_refl, (proj2 (Z.eqb_neq _ _) Hl1). cbn [negb andb].
  apply virtio_disk_write; [done|apply (ca_ready _ _ _ _ Hc)|by destruct Hb as (_ & _ & ->)|].
  intros d1 v Hf1 Hrd E1. pose proof Hb as (Hb0 & Hdev & Hbn).
  assert (forall k, bufs (fs d1) k = if decide (k = b) then set_b_disk 0 (bufs (fs d) k) else bufs (fs d) k) as Hbufs.
  { intros k. rewrite E1. unfold disk_write, upd_buf, fupd. simpl. case_decide; [by subst|done]. }
  assert (forall k bn', blk (fs d1) k bn' <-> blk (fs d) k bn') as Hblk.
  { intros k bn'. apply blk_core. rewrite Hbufs. by case_decide. }
  assert (dblk (fs d1) = (dblk (fs d)).[bn := c bn]) as Hdk.
  { rewrite E1. unfold disk_write. simpl. by rewrite Hbn, Hdat. }
  apply HQ; try done.
  - rewrite E1. done.
  - intros k bn' Hk _. by apply Hblk.
  - rewrite E1. unfold disk_write. simpl. by rewrite Hbn, Hdat.
  - eapply (cache_one (fs d) _ c _ r r h h b bn); try done.
    + by apply Hblk.
    + intros k Hk. rewrite Hbufs, decide_False by done. by rewrite E1.
    + intros bn' Hne. rewrite Hdk. by rewrite fupd_ne.
    + destruct (ca_lru _ _ _ _ Hc) as [L HL]. exists L. eapply lru_links; [|exact HL].
      intros k. rewrite Hbufs. by case_decide.
    + by rewrite E1.
    + rewrite Hbufs, decide_True by done. split; [apply (ca_ref _ _ _ _ Hc b bn Hb)|apply (ca_range _ _ _ _ Hc)].
    + rewrite Hbufs, decide_True by done. apply (ca_valid _ _ _ _ Hc b bn Hb).
    + rewrite Hbufs, decide_True by done. done.
    + rewrite Hh, E1. done.
Qed.

(** The reference count of [bn] set to [n]. *)
Lemma cache_set_ref x c r h b bn n :
  cache x c r h -> blk x b bn -> r bn <> 0 -> 0 <= n < 2 ^ 32 ->
  (n = 0 -> c bn = dblk x bn) -> (h bn = true -> n <> 0) ->
  let x' := upd_buf b (set_b_refcnt n) x in
  cache x' c (r.[bn := n]) h /\ blk x' b bn.
Proof.
  intros Hc Hb Hr Hn Hcl Hh x'.
  assert (bufs x' b = set_b_refcnt n (bufs x b)) as Eb by (simpl; by rewrite fupd_eq).
  assert (blk x' b bn) as Hbb by (unfold blk_of; rewrite Eb; apply Hb). split; [|done].
  eapply (cache_one x x' c c r _ h h b bn); try done.
  - intros k Hk. simpl. by rewrite fupd_ne.
  - intros bn' Hne. by rewrite fupd_ne.
  - destruct (ca_lru _ _ _ _ Hc) as [L HL]. exists L. eapply lru_links; [|exact HL].
    intros k. destruct (decide (k = b)) as [->|Hk]; [by rewrite Eb|]. simpl. by rewrite fupd_ne.
  - apply (ca_ready _ _ _ _ Hc).
  - by rewrite Eb, fupd_eq.
  - intros _. rewrite Eb. by apply (ca_valid _ _ _ _ Hc b bn Hb).
  - rewrite Eb. apply (ca_data _ _ _ _ Hc b bn Hb).
  - by rewrite fupd_eq.
  - by rewrite fupd_eq.
  - destruct (h bn) eqn:E; [by apply (ca_lock _ _ _ _ Hc b bn)|].
    apply (ca_unlk _ _ _ _ Hc b); [apply Hb|]. by destruct Hb as (_ & _ & ->).
Qed.

(** bpin() and bunpin() count a reference without locking the buffer. *)
Lemma wp_bpin p hl d c r h b bn Q :
  LK_bcache ∉ hl -> cache (fs d) c r h -> blk (fs d) b bn -> r bn <> 0 -> r bn + 1 < 2 ^ 32 ->
  (let d' := upd_fs (upd_buf b (set_b_refcnt (r bn + 1))) d in
   cache (fs d') c (r.[bn := r bn + 1]) h -> blk (fs d') b bn -> Q tt hl d') ->
  wp p hl (bpin b) d Q.
Proof.
  intros Hl Hc Hb Hr Hr2 HQ. pose proof (ca_range _ _ _ _ Hc bn).
  destruct (cache_set_ref _ c r h b bn (r bn + 1) Hc Hb Hr) as [H1 H2]; [lia|lia|lia|].
  unfold bpin. wp_run. eapply eq_rect; [by apply HQ|].
  unfold upd_fs, upd_buf. by rewrite (ca_ref _ _ _ _ Hc b bn Hb), u32_small by lia.
Qed.

Lemma wp_bunpin p hl d c r h b bn Q :
  LK_bcache ∉ hl -> cache (fs d) c r h -> blk (fs d) b bn -> r bn <> 0 ->
  (r bn = 1 -> c bn = dblk (fs d) bn /\ h bn = false) ->
  (let d' := upd_fs (upd_buf b (set_b_refcnt (r bn - 1))) d in
   cache (fs d') c (r.[bn := r bn - 1]) h -> blk (fs d') b bn -> Q tt hl d') ->
  wp p hl (bunpin b) d Q.
Proof.
  intros Hl Hc Hb Hr Hone HQ. pose proof (ca_range _ _ _ _ Hc bn).
  destruct (cache_set_ref _ c r h b bn (r bn - 1) Hc Hb Hr) as [H1 H2]; [lia| | |].
  { intros E. apply Hone. lia. }
  { intros E E2. destruct Hone as [_ Hone]; [lia|]. congruence. }
  unfold bunpin. wp_run. eapply eq_rect; [by apply HQ|].
  unfold upd_fs, upd_buf. by rewrite (ca_ref _ _ _ _ Hc b bn Hb), u32_small by lia.
Qed.

(** The buffer of [bn] unlocked and referenced once less, with any order of the list. *)
Lemma cache_leave x x' c r h b bn :
  cache x c r h -> blk x b bn -> h bn = true -> (r bn = 1 -> c bn = dblk x bn) ->
  (forall k, k <> b -> bcore (bufs x' k) = bcore (bufs x k) /\ slocks x' (SL_buf k) = slocks x (SL_buf k)) ->
  bcore (bufs x' b) = bcore (set_b_refcnt (r bn - 1) (bufs x b)) ->
  (exists L, lru x' L) -> sl_locked (slocks x' (SL_buf b)) = 0 -> dblk x' = dblk x -> vdisk x' = vdisk x ->
  cache x' c (r.[bn := r bn - 1]) (h.[bn := false]) /\ stable (r.[bn := r bn - 1]) x x' /\ blk x' b bn.
Proof.
  intros Hc Hb Hh Hone Hoth [= Ev Edev Ebn Eref Edata] HL Hlk Hdk Hvd.
  pose proof (ca_held _ _ _ _ Hc bn Hh) as Hr. pose proof (ca_range _ _ _ _ Hc bn).
  assert (blk x' b bn) as Hbb by (unfold blk_of; rewrite Edev, Ebn; apply Hb). split_and!; [| |done].
  - eapply (cache_one x x' c c r _ h _ b bn); try done.
    + intros bn' Hne. rewrite !fupd_ne by done. by rewrite Hdk.
    + rewrite Hvd. apply (ca_ready _ _ _ _ Hc).
    + rewrite fupd_eq. lia.
    + intros _. rewrite Ev. by apply (ca_valid _ _ _ _ Hc b bn Hb).
    + rewrite Ev, Edata. apply (ca_data _ _ _ _ Hc b bn Hb).
    + rewrite fupd_eq, Hdk. intros. apply Hone. lia.
    + by rewrite fupd_eq.
    + by rewrite fupd_eq.
  - intros k bn' Hk _. destruct (decide (k = b)) as [->|Hkb].
    + unfold blk_of in *. by rewrite Edev, Ebn.
    + eapply blk_core; [|exact Hk]. by apply Hoth.
Qed.

(** brelse() gives the buffer back; a block that nobody references any more must be clean. *)
Lemma wp_brelse p d c r h b bn Q :
  p_pid (procs d p) = pid ->
  cache (fs d) c r h -> blk (fs d) b bn -> h bn = true -> (r bn = 1 -> c bn = dblk (fs d) bn) ->
  (forall d', frame d d' -> no_write (fs d) (fs d') -> stable (r.[bn := r bn - 1]) (fs d) (fs d') ->
     cache (fs d') c (r.[bn := r bn - 1]) (h.[bn := false]) -> blk (fs d') b bn ->
     (r bn = 1 -> exists L, lru (fs d') (b :: L)) -> Q tt [] d') ->
  wp p [] (brelse b) d Q.
Proof.
  intros Hpid Hc Hb Hh Hone HQ. pose proof (ca_range _ _ _ _ Hc bn).
  pose proof (ca_held _ _ _ _ Hc bn Hh) as Hr. destruct (ca_lock _ _ _ _ Hc b bn Hb Hh) as [Hl1 Hl2].
  destruct (ca_lru _ _ _ _ Hc) as [L HL]. pose proof Hb as (Hb0 & _).
  unfold brelse. apply wp_bind, wp_holdingsleep; [lk_notin|].
  rewrite Hl2, Hpid, Z.eqb_refl, (proj2 (Z.eqb_neq _ _) Hl1). cbn [negb andb].
  apply wp_bind, wp_releasesleep; [lk_notin|lk_notin|]. intros d1 Hf1 E1. wp_run.
  simpl. rewrite fupd_eq. simpl. rewrite E1. simpl. rewrite (ca_ref _ _ _ _ Hc b bn Hb), u32_small by lia.
  set (x2 := upd_buf b (set_b_refcnt (r bn - 1)) (sl_put (SL_buf b) 0 0 (fs d))).
  assert (lru x2 L) as HL2.
  { eapply lru_links; [|exact HL]. intros k. simpl. unfold fupd. case_decide; [by subst|done]. }
  assert (upd_fs (upd_buf b (fun q => set_b_refcnt (u32 (b_refcnt q - 1)) q)) d1 = set_fs x2 d1) as Ed.
  { unfold upd_fs. f_equal. rewrite E1. unfold x2, upd_buf. simpl.
    by rewrite (ca_ref _ _ _ _ Hc b bn Hb), u32_small by lia. }
  rewrite Ed. apply wp_when; intros Hz.
  - apply Z.eqb_eq in Hz. destruct (move_front x2 L b HL2 Hb0) as [[Hrl1 Hrl2] (L1 & L2 & _ & HL3)].
    apply wp_unlink, wp_link_front. wp_run. rewrite upd_fs_upd_fs. change (upd_fs _ (set_fs x2 d1)) with (set_fs (linkf b (unlink b x2)) d1).
    destruct (cache_leave (fs d) (linkf b (unlink b x2)) c r h b bn) as (G1 & G2 & G3); try done.
    + intros k Hk. split; [rewrite Hrl1; simpl; by rewrite fupd_ne|]. rewrite Hrl2. simpl. by rewrite fupd_ne by congruence.
    + rewrite Hrl1. simpl. by rewrite fupd_eq.
    + by eexists.
    + rewrite Hrl2. simpl. by rewrite fupd_eq.
    + apply HQ; try done.
      * eapply frame_trans; [exact Hf1|apply frame_fs].
      * intros _. by eexists.
  - apply Z.eqb_neq in Hz. wp_run.
    destruct (cache_leave (fs d) x2 c r h b bn) as (G1 & G2 & G3); try done.
    + intros k Hk. simpl. by rewrite !fupd_ne by congruence.
    + simpl. by rewrite fupd_eq.
    + by eexists.
    + simpl. by rewrite fupd_eq.
    + apply HQ; try done.
      * eapply frame_trans; [exact Hf1|apply frame_fs].
      * intros. lia.
Qed.
End Cache.

(** ** binit() makes an empty cache *)

Lemma cache_empty {D : DiskDriver} dev pid x :
  (exists L, lru x L) -> disk_ready (vdisk x) ->
  (forall b, (b < NBUF)%nat -> b_dev (bufs x b) <> dev /\ b_refcnt (bufs x b) = 0 /\ sl_locked (slocks x (SL_buf b)) = 0) ->
  cache dev pid x (dblk x) (fun _ => 0) (fun _ => false).
Proof.
  intros HL Hr Hb.
  assert (forall b bn, ~ blk_of dev x b bn) as Hno by (intros b bn (H1 & H2 & _); by destruct (Hb b H1)).
  split; try done; try (intros b bn H; by destruct (Hno b bn)).
  - intros b b' bn H. by destruct (Hno b bn).
  - intros b H _. by apply Hb.
  - intros b H _. by apply Hb.
Qed.

Lemma quiet_minit p lk name m : quiet p m -> quiet p (minit lk name m).
Proof.
  intros (H1 & H2 & H3 & H4). split_and!; [done| |done|done]. intros lk'. destruct (decide (lk' = lk)) as [->|Hne].
  - apply minit_free.
  - unfold lk_free, minit. simpl. rewrite fupd_ne by done. apply H2.
Qed.

(** The state of binit()'s loop after the buffers of [L]. *)
Definition binit_inv (d0 d : kdata) (L : list nat) : Prop :=
  frame d0 d /\ fs_rest (fs d0) (fs d) /\ vdisk (fs d) = vdisk (fs d0) /\ dblk (fs d) = dblk (fs d0) /\
  dwr (fs d) = dwr (fs d0) /\ seg (nexts (fs d)) (prevs (fs d)) bhead L bhead /\
  (forall k, bcore (bufs (fs d) k) = bcore (bufs (fs d0) k)) /\
  forall b, b ∈ L -> sl_locked (slocks (fs d) (SL_buf b)) = 0.

Definition binit_body (b : nat) : M unit :=
  let* n := getb bhead b_next in
  setb b (set_b_next n);;
  setb b (set_b_prev bhead);;
  initsleeplock (SL_buf b) "buffer";;
  let* n := getb bhead b_next in
  setb n (set_b_prev b);;
  setb bhead (set_b_next b).

Lemma initsleeplock_run l name e m d :
  initsleeplock l name e (mkK m d) =
  Ret tt e (mkK (minit (LK_sl l) "sleep lock" m) (upd_fs (fun x => set_slocks (slocks x).[l := mkSleeplock 0 name 0] x) d)).
Proof.
  unfold initsleeplock, setsl, setfs. rewrite (bind_Ret _ _ _ _ _ _ _ (initlock_run _ _ _ _ _)). mrun. unfold modify.
  do 2 f_equal. cbn [kd]. rewrite !upd_fs_upd_fs. apply upd_fs_ext. unfold set_slocks. simpl. f_equal.
  by rewrite !fupd_eq, !fupd_fupd.
Qed.

Lemma binit_body_run b e m d :
  binit_body b e (mkK m d) =
  Ret tt e (mkK (minit (LK_sl (SL_buf b)) "sleep lock" m)
    (upd_fs (fun x => linkf b (set_slocks (slocks x).[SL_buf b := mkSleeplock 0 "buffer" 0] x)) d)).
Proof.
  unfold binit_body, getb, getfs, setb, setfs. mrun.
  rewrite (bind_Ret _ _ _ _ _ _ _ (initsleeplock_run _ _ _ _ _)). mrun. reflexivity.
Qed.

Lemma binit_loop p l e m d0 d L :
  NoDup (bhead :: l ++ L) -> quiet p m -> binit_inv d0 d L ->
  exists m' d', forM l binit_body e (mkK m d) = Ret tt e (mkK m' d') /\ quiet p m' /\ binit_inv d0 d' (rev l ++ L).
Proof.
  revert m d L. induction l as [|b l IH]; intros m d L Hd Hq Hi; [by exists m, d|]. cbn [forM].
  rewrite (bind_Ret _ _ _ _ _ _ _ (binit_body_run b e m d)). destruct Hi as (H1 & H2 & H3 & H4 & H5 & H6 & H7 & H8).
  assert (b <> bhead) as Hb by (intros E; apply NoDup_cons in Hd as [Hd _]; rewrite E in Hd; set_solver).
  set (x1 := set_slocks (slocks (fs d)).[SL_buf b := mkSleeplock 0 "buffer" 0] (fs d)).
  assert (relinked x1 (linkf b x1)) as [Hr1 Hr2].
  { unfold linkf. repeat (eapply relinked_trans; [|by apply relinked_upd]). split; [done|by destruct x1]. }
  destruct (links_linkf b x1 Hb) as [E1 E2].
  destruct (IH (minit (LK_sl (SL_buf b)) "sleep lock" m) (upd_fs (fun _ => linkf b x1) d) (b :: L)) as (m' & d' & R1 & R2 & R3).
  - rewrite <- Permutation_middle. done.
  - by apply quiet_minit.
  - unfold binit_inv. cbn [fs upd_fs set_fs].
    split; [by eapply frame_trans; [|apply frame_upd_fs]|]. split; [|split; [|split; [|split; [|split; [|split]]]]].
    + eapply fs_rest_trans; [exact H2|]. rewrite Hr2. by split_and!.
    + by rewrite Hr2.
    + by rewrite Hr2.
    + by rewrite Hr2.
    + rewrite E1, E2. apply seg_link; [|exact H6].
      apply NoDup_cons in Hd as [Hd1 Hd2]. simpl in Hd2. apply NoDup_cons in Hd2 as [Hd2 Hd3].
      apply NoDup_app in Hd3 as (_ & _ & Hd3). apply NoDup_cons. split; [set_solver|]. apply NoDup_cons. split; [set_solver|done].
    + intros k. rewrite Hr1. apply H7.
    + intros b' Hb'. rewrite Hr2. simpl. unfold fupd. case_decide; [done|]. apply H8. set_solver.
  - exists m', d'. split; [done|]. split; [done|]. cbn [rev]. by rewrite <- app_assoc.
Qed.

(** ** Properties *)

(** Binit() makes an empty cache.  From zeroed buffers it returns with the
    thirty buffers on the LRU list, unlocked and unreferenced, so that every block's
    content is what the disk holds; the disk is not written. *)
Theorem binit_cache {D : DiskDriver} dev pid p e m d
  (Hq : quiet p m) (Hdev : dev <> 0) (Hrd : disk_ready (vdisk (fs d)))
  (Hz : forall b, (b < NBUF)%nat -> b_dev (bufs (fs d) b) = 0 /\ b_refcnt (bufs (fs d) b) = 0) :
  exists m' d', binit e (mkK m d) = Ret tt e (mkK m' d') /\ quiet p m' /\ frame d d' /\
    dblk (fs d') = dblk (fs d) /\ dwr (fs d') = dwr (fs d) /\ lru (fs d') (rev (seq 0 NBUF)) /\
    cache dev pid (fs d') (dblk (fs d)) (fun _ => 0) (fun _ => false).
Proof.
  unfold binit. rewrite (bind_Ret _ _ _ _ _ _ _ (initlock_run _ _ _ _ _)). unfold setb at 1 2, setfs. mrun.
  set (d1 := upd_fs _ (upd_fs _ d)). fold binit_body.
  assert (NoDup (bhead :: seq 0 NBUF ++ [])) as Hnd.
  { rewrite app_nil_r. apply NoDup_cons. split; [rewrite elem_of_seq; unfold bhead; lia|apply NoDup_seq]. }
  destruct (binit_loop p (seq 0 NBUF) e (minit LK_bcache "bcache" m) d d1 [] Hnd) as (m' & d' & R1 & R2 & R3).
  { by apply quiet_minit. }
  { unfold binit_inv. split; [eapply frame_trans; apply frame_upd_fs|]. split_and!; try done.
    - intros k. unfold d1, upd_fs, upd_buf, fupd. simpl. repeat case_decide; subst; done.
    - intros b []%elem_of_nil. }
  rewrite app_nil_r in R3. destruct R3 as (H1 & H2 & H3 & H4 & H5 & H6 & H7 & H8).
  assert (lru (fs d') (rev (seq 0 NBUF))) as HL by (split; [by rewrite <- Permutation_rev|done]).
  exists m', d'. split; [exact R1|]. split_and!; try done. rewrite <- H4. apply cache_empty.
  - by eexists.
  - by rewrite H3.
  - intros b Hb. specialize (H7 b). unfold bcore in H7. injection H7 as _ -> _ -> _. destruct (Hz b Hb) as [-> ->].
    split_and!; [congruence|done|]. apply H8. apply (lru_elem _ _ _ HL), Hb.
Qed.

(** C22: bread() refines reading the abstract store.  It returns, without waiting,
    the buffer that caches the block or else the least recently used
    unreferenced one; that buffer is locked, referenced once more, and holds the
    block's current content; every other block, and the disk, is as before. *)
Theorem bread_refines {D : DiskDriver} dev p e m d c r h bn
  (Hp : (p < NPROC)%nat) (Hq : quiet p m) (Hc : cache dev (p_pid (procs d p)) (fs d) c r h)
  (Hok : blk_ok bn) (Hh : h bn = false) (Hr : r bn + 1 < 2 ^ 32) (Hroom : room r bn) :
  exists b m' d', bread dev bn e (mkK m d) = Ret b e (mkK m' d') /\ msame m m' /\ frame d d' /\
    picked dev (fs d) bn b /\ blk_of dev (fs d') b bn /\ b_data (bufs (fs d') b) = c bn /\
    cache dev (p_pid (procs d p)) (fs d') c (r.[bn := r bn + 1]) (h.[bn := true]) /\
    dblk (fs d') = dblk (fs d) /\ dwr (fs d') = dwr (fs d).
Proof.
  assert (wp p [] (bread dev bn) d (fun b hl d' => hl = [] /\ frame d d' /\
    picked dev (fs d) bn b /\ blk_of dev (fs d') b bn /\ b_data (bufs (fs d') b) = c bn /\
    cache dev (p_pid (procs d p)) (fs d') c (r.[bn := r bn + 1]) (h.[bn := true]) /\
    dblk (fs d') = dblk (fs d) /\ dwr (fs d') = dwr (fs d))) as H.
  { eapply wp_bread; try done. intros b d' Hf (_ & H1 & H2) _ H3 H4 H5 H6. by split_and!. }
  destruct (H m m e Hq (msame_refl _)) as (b & hl & m' & d' & H1 & H2 & -> & H3). by exists b, m', d'.
Qed.

(** C23: brelse() refines dropping a reference.  On a held buffer whose block is
    clean or referenced elsewhere it returns with the buffer unlocked and one
    reference fewer, contents and disk unchanged; the last reference moves the buffer
    to the most-recently-used end of the list. *)
Theorem brelse_refines {D : DiskDriver} dev p e m d c r h b bn
  (Hq : quiet p m) (Hc : cache dev (p_pid (procs d p)) (fs d) c r h)
  (Hb : blk_of dev (fs d) b bn) (Hh : h bn = true) (Hcl : r bn = 1 -> c bn = dblk (fs d) bn) :
  exists m' d', brelse b e (mkK m d) = Ret tt e (mkK m' d') /\ msame m m' /\ frame d d' /\
    cache dev (p_pid (procs d p)) (fs d') c (r.[bn := r bn - 1]) (h.[bn := false]) /\
    (r bn = 1 -> exists L, lru (fs d') (b :: L)) /\ dblk (fs d') = dblk (fs d) /\ dwr (fs d') = dwr (fs d).
Proof.
  assert (wp p [] (brelse b) d (fun _ hl d' => hl = [] /\ frame d d' /\
    cache dev (p_pid (procs d p)) (fs d') c (r.[bn := r bn - 1]) (h.[bn := false]) /\
    (r bn = 1 -> exists L, lru (fs d') (b :: L)) /\ dblk (fs d') = dblk (fs d) /\ dwr (fs d') = dwr (fs d))) as H.
  { eapply wp_brelse; try done. intros d' Hf (_ & H1 & H2) _ H3 H4 H5. by split_and!. }
  destruct (H m m e Hq (msame_refl _)) as ([] & hl & m' & d' & H1 & H2 & -> & H3). by exists m', d'.
Qed.

(** ** A concrete driver and cache *)

(** A disk that completes a transfer at once. *)
Definition sync_rw (b : nat) (write : bool) : M unit := setfs (if write then disk_write b else disk_read b).

#[local] Instance sync_driver : DiskDriver.
Proof.
  refine {| virtio_disk_rw := sync_rw; disk_ready := fun _ => True |}.
  - intros p b d Q _ _ _ HQ. apply wp_modify. eapply (HQ _ (vdisk (fs d))); [apply frame_upd_fs|done|].
    unfold upd_fs. cbn [fs set_fs]. by destruct (fs d).
  - intros p b d Q _ _ _ HQ. apply wp_modify. eapply (HQ _ (vdisk (fs d))); [apply frame_upd_fs|done|].
    unfold upd_fs. cbn [fs set_fs]. by destruct (fs d).
Defined.

Lemma binit_cache_witness :
  exists m' d', binit [] (mkK machine1 kdata0) = Ret tt [] (mkK m' d') /\ lru (fs d') (rev (seq 0 NBUF)).
Proof.
  destruct (binit_cache 1 7 1 [] machine1 kdata0) as (m' & d' & H1 & _ & _ & _ & _ & H2 & _).
  - apply quiet1.
  - done.
  - exact I.
  - intros b _. split; reflexivity.
  - exists m', d'. split; [exact H1|exact H2].
Defined.

(** A cache in which buffer 0 holds block 5, filled with [v], locked by process 1 with pid 7. *)
Definition buf_w (v : Z) (i : nat) : buf :=
  mkBuf (if decide (i = 0%nat) then 1 else 0) 0 (if decide (i = 0%nat) then 1 else 0)
    (if decide (i = 0%nat) then 5 else 0) (if decide (i = 0%nat) then 1 else 0)
    (if decide (i = 0%nat) then 30 else pred i) (if decide (i = 30%nat) then 0 else S i)%nat (fun _ => if decide (i = 0%nat) then v else 0).
Definition fs_w (locked v : Z) : fsdata :=
  sl_put (SL_buf 0) locked 7 (set_bufs (buf_w v) fs0).
Definition kdata_w (locked v : Z) : kdata :=
  set_fs (fs_w locked v) (upd_proc 1 (set_p_pid 7) kdata0).

Lemma lru_w locked v : lru (fs_w locked v) (seq 0 NBUF).
Proof. split; [done|]. vm_compute. tauto. Qed.

Lemma cache_w (locked : bool) v :
  cache 1 7 (fs_w (if locked then 1 else 0) v) ((fun _ _ => 0).[5 := fun _ => v]) ((fun _ => 0).[5 := 1]) ((fun _ => false).[5 := locked]).
Proof.
  assert (forall l b bn, blk_of 1 (fs_w l v) b bn -> b = 0%nat /\ bn = 5) as Hblk.
  { intros l b bn (_ & H & <-). simpl in *. by case_decide. }
  split.
  - eexists. apply lru_w.
  - exact I.
  - intros b b' bn [-> _]%Hblk [-> _]%Hblk. done.
  - intros b _. simpl. by case_decide.
  - intros b bn [-> ->]%Hblk. done.
  - intros bn. unfold fupd. case_decide; [|done]. subst. exists 0%nat. split_and!; [unfold NBUF; lia|done..].
  - intros b bn [-> ->]%Hblk. done.
  - intros b bn [-> ->]%Hblk. done.
  - intros bn. unfold fupd. by case_decide.
  - intros bn. unfold fupd. case_decide; lia.
  - intros bn. unfold fupd. by case_decide.
  - intros b bn [-> ->]%Hblk. rewrite fupd_eq. by intros ->.
  - intros b _ H. destruct (decide (b = 0%nat)) as [->|Hb].
    + specialize (H eq_refl). simpl in H. rewrite fupd_eq in H. by subst.
    + simpl. by rewrite fupd_ne by congruence.
Qed.

Lemma bread_refines_witness :
  exists b m' d', bread 1 5 [] (mkK machine1 (kdata_w 0 9)) = Ret b [] (mkK m' d') /\ b_data (bufs (fs d') b) 3 = 9.
Proof.
  destruct (bread_refines 1 1 [] machine1 (kdata_w 0 9) ((fun _ _ => 0).[5 := fun _ => 9]) ((fun _ => 0).[5 := 1]) ((fun _ => false).[5 := false]) 5)
    as (b & m' & d' & H1 & _ & _ & _ & _ & H2 & _).
  - unfold NPROC. lia.
  - apply quiet1.
  - apply (cache_w false 9).
  - unfold blk_ok. lia.
  - done.
  - reflexivity.
  - left. done.
  - exists b, m', d'. split; [exact H1|]. by rewrite H2.
Defined.

Lemma brelse_refines_witness :
  exists m' d', brelse 0 [] (mkK machine1 (kdata_w 1 0)) = Ret tt [] (mkK m' d') /\ exists L, lru (fs d') (0%nat :: L).
Proof.
  destruct (brelse_refines 1 1 [] machine1 (kdata_w 1 0) ((fun _ _ => 0).[5 := fun _ => 0]) ((fun _ => 0).[5 := 1]) ((fun _ => false).[5 := true]) 0 5)
    as (m' & d' & H1 & _ & _ & _ & H2 & _).
  - apply quiet1.
  - apply (cache_w true 0).
  - split; [unfold NBUF; lia|]. split; reflexivity.
  - reflexivity.
  - intros _. reflexivity.
  - exists m', d'. split; [exact H1|]. apply H2. reflexivity.
Defined.
