(* ===== verification/Log.v ===== *)
(** * The redo log (kernel/log.c)

    begin_op/end_op bracket a file-system operation, log_write records a block
    in the transaction, and commit copies the transaction to the on-disk log,
    writes the header (the commit point), installs the blocks at home and erases
    the header.  The on-disk header holds [n] and the block numbers as
    little-endian 32-bit words. *)

From S2P Require Import Prelude State Spinlock CString Kalloc Sched Sleeplock Bio.
Open Scope Z_scope.

Definition getlog {A} (f : log_t -> A) : M A := getfs (fun x => f (logst x)).
Definition setlog (f : log_t -> log_t) : M unit := setfs (fun x => set_logst (f (logst x)) x).

(** 0, 1, ..., n-1 *)
Definition upto (n : Z) : list Z := map Z.of_nat (seq 0 (Z.to_nat n)).

(** [int] and [uint] words of a block. *)
Definition ld32 (m : bytes) (a : Z) : Z := ldn 4 m a.
Definition st32 (m : bytes) (a v : Z) : bytes := stn 4 m a v.
Definition ldint (m : bytes) (a : Z) : Z := i32 (ld32 m a).

(** sizeof(struct logheader) *)
Definition sizeof_logheader : Z := 4 + 4 * LOGSIZE.

Section Log.
Context `{D : DiskDriver}.

Definition install_trans (recovering : bool) : M unit :=
  let* n := getlog lh_n in
  forM (upto n) (fun tail =>
    let* dev := getlog log_dev in
    let* start := getlog log_start in
    let* lbuf := bread dev (u32 (start + tail + 1)) in
    let* bn := getlog (fun g => lh_block g tail) in
    let* dbuf := bread dev (u32 bn) in
    let* v := getb lbuf b_data in
    setb dbuf (set_b_data v);;
    bwrite dbuf;;
    when (negb recovering) (bunpin dbuf);;
    brelse lbuf;;
    brelse dbuf).

Definition read_head : M unit :=
  let* dev := getlog log_dev in
  let* start := getlog log_start in
  let* b := bread dev (u32 start) in
  let* lh := getb b b_data in
  setlog (set_lh_n (ldint lh 0));;
  let* n := getlog lh_n in
  forM (upto n) (fun i =>
    setlog (fun g => set_lh_block (lh_block g).[i := ldint lh (4 + 4 * i)] g));;
  brelse b.

Definition write_head : M unit :=
  let* dev := getlog log_dev in
  let* start := getlog log_start in
  let* b := bread dev (u32 start) in
  let* n := getlog lh_n in
  setb b (fun r => set_b_data (st32 (b_data r) 0 n) r);;
  forM (upto n) (fun i =>
    let* bn := getlog (fun g => lh_block g i) in
    setb b (fun r => set_b_data (st32 (b_data r) (4 + 4 * i) bn) r));;
  bwrite b;;
  brelse b.

Definition recover_from_log : M unit :=
  read_head;;
  install_trans true;;
  setlog (set_lh_n 0);;
  write_head.

Definition initlog (dev : Z) (s : superblock) : M unit :=
  if sizeof_logheader >=? BSIZE then panic "initlog: too big logheader" else
  initlock LK_log "log";;
  setlog (set_log_start (i32 (sb_logstart s)));;
  setlog (set_log_size (i32 (sb_nlog s)));;
  setlog (set_log_dev dev);;
  recover_from_log.

Definition begin_op : M unit :=
  acquire LK_log;;
  loop (fun _ : unit =>
    let* committing := getlog log_committing in
    if negb (committing =? 0) then sleep CH_log LK_log;; ret (inl tt) else
    let* n := getlog lh_n in
    let* out := getlog log_outstanding in
    if n + (out + 1) * MAXOPBLOCKS >? LOGSIZE then
      (* this op might exhaust log space; wait for commit. *)
      sleep CH_log LK_log;; ret (inl tt)
    else
      setlog (set_log_outstanding (out + 1));;
      release LK_log;;
      ret (inr tt)) tt.

Definition write_log : M unit :=
  let* n := getlog lh_n in
  forM (upto n) (fun tail =>
    let* dev := getlog log_dev in
    let* start := getlog log_start in
    let* to := bread dev (u32 (start + tail + 1)) in
    let* bn := getlog (fun g => lh_block g tail) in
    let* from := bread dev (u32 bn) in
    let* v := getb from b_data in
    setb to (set_b_data v);;
    bwrite to;;
    brelse from;;
    brelse to).

Definition commit : M unit :=
  let* n := getlog lh_n in
  when (0 <? n)
    (write_log;;
     write_head;;
     install_trans false;;
     setlog (set_lh_n 0);;
     write_head).

Definition end_op : M unit :=
  acquire LK_log;;
  setlog (fun g => set_log_outstanding (log_outstanding g - 1) g);;
  let* committing := getlog log_committing in
  if negb (committing =? 0) then panic "log.committing" else
  let* out := getlog log_outstanding in
  let do_commit := out =? 0 in
  (if do_commit then setlog (set_log_committing 1) else wakeup CH_log);;
  release LK_log;;
  when do_commit
    (commit;;
     acquire LK_log;;
     setlog (set_log_committing 0);;
     wakeup CH_log;;
     release LK_log).
End Log.

(** The index of [bn] among the first [n] logged blocks, or [n]. *)
Definition log_find (block : Z -> Z) (n bn : Z) : Z :=
  match find (fun i => block i =? bn) (upto n) with Some i => i | None => n end.

Definition log_write (b : nat) : M unit :=
  acquire LK_log;;
  let* n := getlog lh_n in
  let* size := getlog log_size in
  if (n >=? LOGSIZE) || (n >=? size - 1) then panic "too big a transaction" else
  let* out := getlog log_outstanding in
  if out <? 1 then panic "log_write outside of trans" else
  let* bn := getb b b_blockno in
  (* log absorbtion *)
  let* i := getlog (fun g => log_find (lh_block g) n (i32 bn)) in
  setlog (fun g => set_lh_block (lh_block g).[i := i32 bn] g);;
  when (i =? n) (bpin b;; setlog (fun g => set_lh_n (lh_n g + 1) g));;
  release LK_log.
