(* ===== verification/LogSpec.v ===== *)
(** * Correctness of the redo log

    The disk writes that write_log, write_head and install_trans make, as lists
    of (block number, content) in the order they reach the disk; commit and
    recovery in these terms; and crash atomicity: whatever number of commit's
    writes reached the disk, recovery leaves the blocks outside the log all as
    before the transaction or all as after it. *)

From S2P Require Import Prelude State Spinlock CString Kalloc Sched Wp Sleeplock Bio BioSpec Log.
Open Scope Z_scope.

(** ** Sequences of block writes *)

Definition updl {B} (f : Z -> B) (W : list (Z * B)) : Z -> B := fold_left (fun f w => f.[w.1 := w.2]) W f.

Lemma updl_app {B} (f : Z -> B) W1 W2 : updl f (W1 ++ W2) = updl (updl f W1) W2.
Proof. apply fold_left_app. Qed.

Lemma updl_out {B} (f : Z -> B) W k : k ∉ W.*1 -> updl f W k = f k.
Proof.
  revert f. induction W as [|[k' v] W IH]; intros f H; [done|]. simpl in H. change (updl f ((k', v) :: W)) with (updl (f.[k' := v]) W).
  rewrite IH by set_solver. apply fupd_ne. set_solver.
Qed.

Lemma updl_in {B} (f : Z -> B) W k v : NoDup W.*1 -> (k, v) ∈ W -> updl f W k = v.
Proof.
  revert f. induction W as [|[k' v'] W IH]; intros f Hd H; [by apply elem_of_nil in H|].
  change (updl f ((k', v') :: W)) with (updl (f.[k' := v']) W). apply NoDup_cons in Hd as [Hn Hd].
  apply elem_of_cons in H as [[= -> ->]|H]; [|by apply IH].
  rewrite updl_out by done. apply fupd_eq.
Qed.

Lemma updl_ext {B} (f g : Z -> B) W k : (k ∉ W.*1 -> f k = g k) -> updl f W k = updl g W k.
Proof.
  revert f g. induction W as [|[k' v] W IH]; intros f g H; [apply H; apply not_elem_of_nil|].
  change (updl (f.[k' := v]) W k = updl (g.[k' := v]) W k). apply IH. intros Hn.
  unfold fupd. case_decide; [done|]. apply H. simpl. set_solver.
Qed.

(** The writes [W] took the disk from [x] to [x']. *)
Definition wrote (W : list (Z * bytes)) (x x' : fsdata) : Prop :=
  dblk x' = updl (dblk x) W /\ dwr x' = rev W ++ dwr x.

Lemma wrote_nil x : wrote [] x x.
Proof. done. Qed.

Lemma wrote_app W1 W2 x y z : wrote W1 x y -> wrote W2 y z -> wrote (W1 ++ W2) x z.
Proof.
  intros [H1 H2] [H3 H4]. split; [by rewrite H3, H1, updl_app|]. by rewrite H4, H2, rev_app_distr, app_assoc.
Qed.

(** ** The header block *)

Lemma ld32_st32_eq m a v : 0 <= v < 2 ^ 31 -> ldint (st32 m a v) a = v.
Proof.
  intros Hv. unfold ldint, ld32, st32. rewrite ldn_stn_eq. change (256 ^ Z.of_nat 4) with (2 ^ 32).
  rewrite Z.mod_small by lia. apply i32_small. unfold int_range. lia.
Qed.

Lemma ld32_st32_ne m a b v : b + 4 <= a \/ a + 4 <= b -> ldint (st32 m a v) b = ldint m b.
Proof. intros H. unfold ldint, ld32, st32. rewrite ldn_stn_ne by (simpl; lia). done. Qed.

(** The header with count [n] and the first [k] block numbers. *)
Fixpoint head_data (m : bytes) (n : Z) (block : Z -> Z) (k : nat) : bytes :=
  match k with
  | O => st32 m 0 n
  | S k' => st32 (head_data m n block k') (4 + 4 * Z.of_nat k') (block (Z.of_nat k'))
  end.

Lemma head_data_n m n block k : 0 <= n < 2 ^ 31 -> ldint (head_data m n block k) 0 = n.
Proof.
  intros Hn. induction k as [|k IH]; simpl; [by apply ld32_st32_eq|].
  rewrite ld32_st32_ne by lia. done.
Qed.

Lemma head_data_block m n block k i :
  (i < k)%nat -> 0 <= block (Z.of_nat i) < 2 ^ 31 -> ldint (head_data m n block k) (4 + 4 * Z.of_nat i) = block (Z.of_nat i).
Proof.
  intros Hi Hb. induction k as [|k IH]; [lia|]. simpl. destruct (decide (i = k)) as [->|Hne].
  - by apply ld32_st32_eq.
  - rewrite ld32_st32_ne by lia. apply IH. lia.
Qed.

(** ** The writes of commit and recovery *)

(** Block [i] of the log, and where it belongs. *)
Definition lb (start : Z) (i : nat) : Z := start + 1 + Z.of_nat i.
Definition hb (block : Z -> Z) (i : nat) : Z := block (Z.of_nat i).

(** The writes of write_log and of install_trans for the first [n] blocks. *)
Definition log_writes (start : Z) (block : Z -> Z) (c : Z -> bytes) (n : nat) : list (Z * bytes) :=
  map (fun i => (lb start i, c (hb block i))) (seq 0 n).
Definition home_writes (start : Z) (block : Z -> Z) (c : Z -> bytes) (n : nat) : list (Z * bytes) :=
  map (fun i => (hb block i, c (lb start i))) (seq 0 n).

(** The log area is [start .. start+LOGSIZE-1], the header first; home blocks are outside it. *)
Definition in_log (start bn : Z) : Prop := start <= bn < start + LOGSIZE.
Record layout (start : Z) (block : Z -> Z) (n : nat) : Prop := {
  la_start : 0 <= start /\ start + LOGSIZE < 2 ^ 31;
  la_size : (n < NBUF)%nat;
  la_block : forall i, (i < n)%nat -> 0 <= hb block i < 2 ^ 31;
  la_home : forall i, (i < n)%nat -> ~ in_log start (hb block i);
}.

Lemma lb_in_log start i : (S i < NBUF)%nat -> in_log start (lb start i).
Proof. unfold in_log, lb, LOGSIZE, MAXOPBLOCKS, NBUF. lia. Qed.

Lemma lb_u32 start block n i :
  layout start block n -> (i < n)%nat -> u32 (start + Z.of_nat i + 1) = lb start i.
Proof.
  intros [[H1 H2] H3 _ _] Hi. unfold lb. unfold LOGSIZE, MAXOPBLOCKS, NBUF in *. rewrite u32_small; lia.
Qed.

Lemma hb_u32 start block n i : layout start block n -> (i < n)%nat -> u32 (block (Z.of_nat i)) = hb block i.
Proof. intros H Hi. apply u32_small. pose proof (la_block _ _ _ H i Hi). unfold hb in *. lia. Qed.

Lemma lb_ok start block n i : layout start block n -> (i < n)%nat -> blk_ok (lb start i).
Proof.
  intros [[H1 H2] H3 _ _] Hi. unfold blk_ok, lb. unfold LOGSIZE, MAXOPBLOCKS, NBUF in *. lia.
Qed.

Lemma lb_ne_hb start block n i j : layout start block n -> (i < n)%nat -> (j < n)%nat -> lb start j <> hb block i.
Proof.
  intros H Hi Hj E. apply (la_home _ _ _ H i Hi). rewrite <- E. apply lb_in_log.
  pose proof (la_size _ _ _ H). lia.
Qed.

Lemma upto_lookup n i x : upto (Z.of_nat n) !! i = Some x -> x = Z.of_nat i /\ (i < n)%nat.
Proof.
  unfold upto. rewrite Nat2Z.id, list_lookup_fmap. intros H. apply fmap_Some in H as (j & Hj & ->).
  apply lookup_seq in Hj as [-> Hj]. done.
Qed.

Lemma length_upto n : length (upto (Z.of_nat n)) = n.
Proof. unfold upto. by rewrite length_map, length_seq, Nat2Z.id. Qed.

Lemma log_writes_S start block c n :
  log_writes start block c (S n) = log_writes start block c n ++ [(lb start n, c (hb block n))].
Proof. unfold log_writes. by rewrite seq_S, map_app. Qed.

Lemma home_writes_S start block c n :
  home_writes start block c (S n) = home_writes start block c n ++ [(hb block n, c (lb start n))].
Proof. unfold home_writes. by rewrite seq_S, map_app. Qed.

Lemma log_writes_fst start block c n : (log_writes start block c n).*1 = map (lb start) (seq 0 n).
Proof. unfold log_writes. induction (seq 0 n) as [|i l IH]; [done|]. cbn. by rewrite IH. Qed.

Lemma home_writes_fst start block c n : (home_writes start block c n).*1 = map (hb block) (seq 0 n).
Proof. unfold home_writes. induction (seq 0 n) as [|i l IH]; [done|]. cbn. by rewrite IH. Qed.

Lemma elem_map_seq (f : nat -> Z) n k : k ∈ map f (seq 0 n) <-> exists i, (i < n)%nat /\ f i = k.
Proof.
  rewrite list_elem_of_In, in_map_iff. split.
  - intros (i & <- & Hi%in_seq). exists i. split; [lia|done].
  - intros (i & Hi & <-). exists i. split; [done|]. apply in_seq. lia.
Qed.

Lemma home_writes_ext start block block' c c' n :
  (forall i, (i < n)%nat -> hb block i = hb block' i /\ c (lb start i) = c' (lb start i)) ->
  home_writes start block c n = home_writes start block' c' n.
Proof.
  intros H. apply map_ext_in. intros i Hi%in_seq. destruct (H i) as [-> ->]; [lia|done].
Qed.

Lemma layout_ext start block block' n :
  (forall i, (i < n)%nat -> hb block i = hb block' i) -> layout start block n -> layout start block' n.
Proof. intros H [H1 H2 H3 H4]. split; [done|done|..]; intros i Hi; rewrite <- H by done; auto. Qed.

(** The writes of commit(), in order. *)
Definition new_head (start : Z) (block : Z -> Z) (c : Z -> bytes) (n : nat) : bytes := head_data (c start) (Z.of_nat n) block n.
Definition commit_writes (start : Z) (block : Z -> Z) (c : Z -> bytes) (n : nat) : list (Z * bytes) :=
  log_writes start block c n ++ [(start, new_head start block c n)] ++
  map (fun i => (hb block i, c (hb block i))) (seq 0 n) ++ [(start, st32 (new_head start block c n) 0 0)].

(** What install_trans writes is what write_log logged. *)
Lemma installed_writes start block c n :
  home_writes start block ((updl c (log_writes start block c n)).[start := new_head start block c n]) n
  = map (fun i => (hb block i, c (hb block i))) (seq 0 n).
Proof.
  apply map_ext_in. intros i Hi%in_seq. f_equal. rewrite fupd_ne by (unfold lb; lia). apply updl_in.
  - rewrite log_writes_fst. apply NoDup_fmap_2; [|apply NoDup_seq]. intros i1 i2. unfold lb. lia.
  - apply list_elem_of_In, in_map_iff. exists i. split; [done|]. apply in_seq. lia.
Qed.

(** The header that a disk [dk] holds. *)
Definition disk_n (start : Z) (dk : Z -> bytes) : Z := ldint (dk start) 0.
Definition disk_block (start : Z) (dk : Z -> bytes) (i : Z) : Z := ldint (dk start) (4 + 4 * i).

(** ** The steps of commit and recovery *)

Ltac wp_extra ::=
  lazymatch goal with
  | |- wp _ _ (getfs _) _ _ => apply wp_getfs
  | |- wp _ _ (setfs _) _ _ => apply wp_modify
  | |- wp _ _ (getlog _) _ _ => apply wp_getfs
  | |- wp _ _ (setlog _) _ _ => apply wp_modify
  | |- wp _ _ (getb _ _) _ _ => apply wp_getfs
  | |- wp _ _ (setb _ _) _ _ => apply wp_modify
  end.

(** Reference counts and locks that return to what they were. *)
Ltac fupd_ext :=
  let k := fresh "k" in extensionality k; unfold fupd; repeat case_decide; subst; try done; try lia; try congruence.

Section LogSpec.
Context {D : DiskDriver} (dev pid : Z) (p : nat) (Hp : (p < NPROC)%nat).
Implicit Types (d : kdata) (c : Z -> bytes) (r : Z -> Z).

Definition none (_ : Z) : bool := false.

(** From [d] to [d'] with the writes [W]: the store holds [c], referenced as [r], nothing locked. *)
Definition step (d d' : kdata) (W : list (Z * bytes)) c r : Prop :=
  frame d d' /\ wrote W (fs d) (fs d') /\ fs_rest (fs d) (fs d') /\ cache dev pid (fs d') c r none.

Lemma step_trans d1 d2 d3 W1 W2 c r c' r' :
  step d1 d2 W1 c r -> step d2 d3 W2 c' r' -> step d1 d3 (W1 ++ W2) c' r'.
Proof.
  intros (H1 & H2 & H3 & _) (H4 & H5 & H6 & H7). split_and!;
    [by eapply frame_trans|by eapply wrote_app|by eapply fs_rest_trans|done].
Qed.

(** Two blocks [a] and [b] are held, each referenced once more; nothing else is. *)
Definition held2 d d' (W : list (Z * bytes)) c r a b (x y : nat) : Prop :=
  frame d d' /\ wrote W (fs d) (fs d') /\ fs_rest (fs d) (fs d') /\
  cache dev pid (fs d') c (r.[a := r a + 1].[b := r b + 1]) (none.[a := true].[b := true]) /\
  blk_of dev (fs d') x a /\ blk_of dev (fs d') y b.

(** The reads that write_log and install_trans start with. *)
Lemma wp_read2 d c r a b tail (k : nat -> nat -> M unit) Q :
  p_pid (procs d p) = pid -> cache dev pid (fs d) c r none ->
  log_dev (logst (fs d)) = dev -> u32 (log_start (logst (fs d)) + tail + 1) = a ->
  u32 (lh_block (logst (fs d)) tail) = b ->
  blk_ok a -> blk_ok b -> a <> b -> r a + 1 < 2 ^ 32 -> r b + 1 < 2 ^ 32 -> room r a -> room (r.[a := r a + 1]) b ->
  (forall x y d', held2 d d' [] c r a b x y -> wp p [] (k x y) d' Q) ->
  wp p [] (let* dev := getlog log_dev in
    let* start := getlog log_start in
    let* x := bread dev (u32 (start + tail + 1)) in
    let* bn := getlog (fun g => lh_block g tail) in
    let* y := bread dev (u32 bn) in
    k x y) d Q.
Proof.
  intros Hpid Hc Edev Ea Eb Oa Ob Hab Hra Hrb Hra2 Hrb2 HQ. wp_run. rewrite Edev, Ea.
  pose proof (ca_range _ _ _ _ _ _ Hc a). eapply (wp_bread dev pid p d c r none a); try done.
  intros x d1 Hf1 (Hr1 & Hk1 & Hw1) Hs1 Hc1 Hb1 _ _. wp_run. pose proof Hr1 as (Elog & _). rewrite Elog, Eb.
  assert (p_pid (procs d1 p) = pid) as Hp1 by (by rewrite (frame_pid _ _ _ Hf1)).
  eapply (wp_bread dev pid p d1 c _ _ b); try done; rewrite ?fupd_ne by congruence; try done.
  intros y d2 Hf2 (Hr2 & Hk2 & Hw2) Hs2 Hc2 Hb2 _ _. apply HQ. split_and!; try done.
  - by eapply frame_trans.
  - split; simpl; congruence.
  - by eapply fs_rest_trans.
  - apply Hs2; [done|]. rewrite fupd_eq. lia.
Qed.

(** A write of the content of one of them to the other's buffer and to the disk. *)
Lemma wp_write2 d0 d W c r a b x y z bz v Q :
  p_pid (procs d p) = pid -> held2 d0 d W c r a b x y -> a <> b ->
  (z = x /\ bz = a) \/ (z = y /\ bz = b) -> blk_ok bz ->
  (forall d', frame d d' -> held2 d0 d' (W ++ [(bz, v)]) (c.[bz := v]) r a b x y -> Q tt [] d') ->
  wp p [] (setb z (set_b_data v);; bwrite z) d Q.
Proof.
  intros Hpid (Hf & Hw & Hr & Hc & Ha & Hb) Hab Hz Oz HQ. wp_run.
  pose proof (ca_range _ _ _ _ _ _ Hc a) as Hra. pose proof (ca_range _ _ _ _ _ _ Hc b) as Hrb.
  assert (none.[a := true].[b := true] bz = true /\ blk_of dev (fs d) z bz) as [Hh Hbz].
  { destruct Hz as [[-> ->]|[-> ->]]; (split; [|done]); [by rewrite fupd_ne, fupd_eq by congruence|by rewrite fupd_eq]. }
  edestruct (cache_set_data dev pid (fs d) c) as [Hc3 Hb3]; [exact Hc|exact Hbz| |done|].
  { by apply (ca_held _ _ _ _ _ _ Hc). }
  eapply (wp_bwrite dev pid p (upd_fs (upd_buf z (set_b_data v)) d)); [done|done|exact Hc3|exact Hb3|done|done|].
  intros d4 Hf4 Hr4 Hs4 Hk4 Hw4 Hc4. rewrite fupd_eq in Hk4, Hw4.
  assert (forall k bn, blk_of dev (fs d) k bn -> none.[a := true].[b := true] bn = true -> blk_of dev (fs d4) k bn) as Hst.
  { intros k bn Hk Hbn. apply Hs4; [|by apply (ca_held _ _ _ _ _ _ Hc)]. unfold blk_of in *. simpl.
    unfold fupd. case_decide; [by subst|done]. }
  assert (frame d d4) as Hf' by (eapply frame_trans; [apply frame_upd_fs|exact Hf4]).
  apply HQ; [done|]. split_and!; [by eapply frame_trans| | |done| |].
  - destruct Hw as [Hw1 Hw2]. split.
    + rewrite Hk4, updl_app. simpl. by rewrite Hw1.
    + rewrite Hw4, rev_app_distr. simpl. by rewrite Hw2.
  - eapply fs_rest_trans; [exact Hr|exact Hr4].
  - apply Hst; [done|]. by rewrite fupd_ne, fupd_eq by congruence.
  - apply Hst; [done|]. by rewrite fupd_eq.
Qed.

(** Giving back two held buffers; a block left without references must be clean. *)
Lemma wp_brelse2 d c r h a b x y Q :
  p_pid (procs d p) = pid -> cache dev pid (fs d) c r h -> a <> b ->
  h a = true -> h b = true -> blk_of dev (fs d) x a -> blk_of dev (fs d) y b ->
  (r a = 1 -> c a = dblk (fs d) a) -> (r b = 1 -> c b = dblk (fs d) b) ->
  (forall d', frame d d' -> no_write (fs d) (fs d') ->
     cache dev pid (fs d') c (r.[a := r a - 1].[b := r b - 1]) (h.[a := false].[b := false]) -> Q tt [] d') ->
  wp p [] (brelse x;; brelse y) d Q.
Proof.
  intros Hpid Hc Hab Ha Hb Hxa Hyb Ca Cb HQ. wp_run.
  pose proof (ca_held _ _ _ _ _ _ Hc b Hb) as Hrb.
  eapply (wp_brelse dev pid p d); [done|exact Hc|done|done|done|].
  intros d1 Hf1 (Hr1 & Hk1 & Hw1) Hs1 Hc1 _ _.
  assert (p_pid (procs d1 p) = pid) as Hp1 by (by rewrite (frame_pid _ _ _ Hf1)).
  eapply (wp_brelse dev pid p d1 _ _ _ y b); [done|exact Hc1| | | |]; rewrite ?fupd_ne by congruence; try done.
  - apply Hs1; [done|]. by rewrite fupd_ne by congruence.
  - rewrite Hk1. done.
  - intros d2 Hf2 (Hr2 & Hk2 & Hw2) _ Hc2 _ _. apply HQ; [by eapply frame_trans| |done].
    split_and!; [by eapply fs_rest_trans|congruence..].
Qed.

(** write_log's body for one block: block [a] of the log receives block [b]. *)
Lemma write_log_body d c r a b tail Q :
  p_pid (procs d p) = pid -> cache dev pid (fs d) c r none ->
  log_dev (logst (fs d)) = dev -> u32 (log_start (logst (fs d)) + tail + 1) = a ->
  u32 (lh_block (logst (fs d)) tail) = b ->
  blk_ok a -> blk_ok b -> a <> b -> r a = 0 -> r b <> 0 -> r b + 1 < 2 ^ 32 -> room r a ->
  (forall d', step d d' [(a, c b)] (c.[a := c b]) r -> Q tt [] d') ->
  wp p [] (let* dev := getlog log_dev in
    let* start := getlog log_start in
    let* to := bread dev (u32 (start + tail + 1)) in
    let* bn := getlog (fun g => lh_block g tail) in
    let* from := bread dev (u32 bn) in
    let* v := getb from b_data in
    setb to (set_b_data v);;
    bwrite to;;
    brelse from;;
    brelse to) d Q.
Proof.
  intros Hpid Hc Edev Ea Eb Oa Ob Hab Hra Hrb Hrb2 Hroom HQ. pose proof (ca_range _ _ _ _ _ _ Hc b) as Hrb3.
  eapply (wp_read2 d c r a b tail); try done; [lia|left; by rewrite fupd_ne by congruence|].
  intros x y d1 Hh. pose proof Hh as (Hf1 & Hw1 & Hr1 & Hc1 & Hx1 & Hy1). apply wp_bind, wp_getfs. cbv beta.
  rewrite (cache_data _ _ _ _ _ _ y b Hc1 Hy1) by (rewrite fupd_eq; lia).
  assert (p_pid (procs d1 p) = pid) as Hp1 by (by rewrite (frame_pid _ _ _ Hf1)).
  apply (wp_eq p [] _ (let* _ := (setb x (set_b_data (c b));; bwrite x) in brelse y;; brelse x)).
  { intros. by rewrite bind_assoc. }
  apply wp_bind. eapply (wp_write2 d d1 [] c r a b x y x a); try done; [by left|].
  intros d2 Hf2 (Hf3 & Hw2 & Hr2 & Hc2 & Hx2 & Hy2).
  eapply (wp_brelse2 d2 _ _ _ b a y x); [by rewrite (frame_pid _ _ _ Hf2)|exact Hc2|congruence|..]; rewrite ?fupd_eq; try done.
  { by rewrite fupd_ne, fupd_eq by congruence. } { lia. }
  { intros _. destruct Hw2 as [-> _]. simpl. by rewrite fupd_eq. }
  intros d3 Hf4 (Hr3 & Hk3 & Hw3) Hc3. apply HQ. split_and!.
  - by eapply frame_trans.
  - destruct Hw2 as [Hw4 Hw5]. split; [by rewrite Hk3|by rewrite Hw3].
  - by eapply fs_rest_trans.
  - replace none with (none.[a := true].[b := true].[b := false].[a := false]) by fupd_ext.
    match type of Hc3 with cache _ _ _ _ ?r' _ => replace r with r' end; [done|]. fupd_ext.
Qed.

(** install_trans's body for one block: home block [b] receives block [a] of the log. *)
Lemma install_body (rec : bool) d c r a b tail Q :
  p_pid (procs d p) = pid -> cache dev pid (fs d) c r none ->
  log_dev (logst (fs d)) = dev -> u32 (log_start (logst (fs d)) + tail + 1) = a ->
  u32 (lh_block (logst (fs d)) tail) = b ->
  blk_ok a -> blk_ok b -> a <> b -> r a = 0 -> r b + 1 < 2 ^ 32 -> room r a -> room (r.[a := r a + 1]) b ->
  (rec = false -> r b <> 0) ->
  (forall d', step d d' [(b, c a)] (c.[b := c a]) (if rec then r else r.[b := r b - 1]) -> Q tt [] d') ->
  wp p [] (let* dev := getlog log_dev in
    let* start := getlog log_start in
    let* lbuf := bread dev (u32 (start + tail + 1)) in
    let* bn := getlog (fun g => lh_block g tail) in
    let* dbuf := bread dev (u32 bn) in
    let* v := getb lbuf b_data in
    setb dbuf (set_b_data v);;
    bwrite dbuf;;
    when (negb rec) (bunpin dbuf);;
    brelse lbuf;;
    brelse dbuf) d Q.
Proof.
  intros Hpid Hc Edev Ea Eb Oa Ob Hab Hra Hrb Hroom Hroom2 Hpin HQ. pose proof (ca_range _ _ _ _ _ _ Hc b) as Hrb3.
  eapply (wp_read2 d c r a b tail); try done; [lia|].
  intros x y d1 Hh. pose proof Hh as (Hf1 & Hw1 & Hr1 & Hc1 & Hx1 & Hy1). apply wp_bind, wp_getfs. cbv beta.
  rewrite (cache_data _ _ _ _ _ _ x a Hc1 Hx1) by (rewrite fupd_ne, fupd_eq by congruence; lia).
  assert (p_pid (procs d1 p) = pid) as Hp1 by (by rewrite (frame_pid _ _ _ Hf1)).
  eapply (wp_eq p [] _ (let* _ := (setb y (set_b_data (c a));; bwrite y) in _)).
  { intros. rewrite bind_assoc. reflexivity. }
  apply wp_bind. eapply (wp_write2 d d1 [] c r a b x y y b); try done; [by right|].
  intros d2 Hf2 (Hf3 & Hw2 & Hr2 & Hc2 & Hx2 & Hy2).
  assert (c a = dblk (fs d2) a) as Hca.
  { destruct Hw2 as [-> _]. simpl. rewrite fupd_ne by done. by apply (ca_clean _ _ _ _ _ _ Hc). }
  assert (c a = dblk (fs d2) b) as Hcb.
  { destruct Hw2 as [-> _]. simpl. by rewrite fupd_eq. }
  assert (p_pid (procs d2 p) = pid) as Hp2 by (by rewrite (frame_pid _ _ _ Hf2)).
  assert (none = none.[a := true].[b := true].[a := false].[b := false]) as En by fupd_ext.
  destruct Hw2 as [Hw4 Hw5]. apply wp_bind. apply wp_when; intros Erec.
  - destruct rec; [done|]. specialize (Hpin eq_refl).
    eapply (wp_bunpin dev pid p [] d2 _ _ _ y b); [set_solver|exact Hc2|done|..]; rewrite ?fupd_eq; [lia|lia|].
    intros d3 Hc3 Hy3.
    eapply (wp_brelse2 d3 _ _ _ a b x y); [done|exact Hc3|done|..]; rewrite ?fupd_eq; try done.
    { by rewrite fupd_ne, fupd_eq by congruence. }
    { unfold blk_of in *. simpl. unfold fupd. case_decide; [by subst|done]. }
    { intros _. by rewrite fupd_ne by congruence. }
    intros d4 Hf4 (Hr4 & Hk4 & Hw6) Hc4. apply HQ. split_and!.
    + eapply frame_trans; [exact Hf3|]. eapply frame_trans; [apply frame_upd_fs|exact Hf4].
    + split; [by rewrite Hk4|by rewrite Hw6].
    + eapply fs_rest_trans; [exact Hr2|exact Hr4].
    + rewrite En. match type of Hc4 with cache _ _ _ _ ?r' _ => replace (r.[b := r b - 1]) with r' end; [done|].
      fupd_ext.
  - destruct rec; [|done].
    eapply (wp_brelse2 d2 _ _ _ a b x y); [done|exact Hc2|done|..]; rewrite ?fupd_eq; try done.
    { by rewrite fupd_ne, fupd_eq by congruence. }
    { intros _. by rewrite fupd_ne by congruence. }
    intros d4 Hf4 (Hr4 & Hk4 & Hw6) Hc4. apply HQ. split_and!.
    + eapply frame_trans; [exact Hf3|exact Hf4].
    + split; [by rewrite Hk4|by rewrite Hw6].
    + eapply fs_rest_trans; [exact Hr2|exact Hr4].
    + rewrite En. match type of Hc4 with cache _ _ _ _ ?r' _ => replace r with r' at 1 end; [done|].
      fupd_ext.
Qed.

(** ** The loops *)

Lemma wp_write_log d c r n Q :
  let start := log_start (logst (fs d)) in let block := lh_block (logst (fs d)) in
  p_pid (procs d p) = pid -> cache dev pid (fs d) c r none -> log_dev (logst (fs d)) = dev ->
  lh_n (logst (fs d)) = Z.of_nat n -> layout start block n ->
  (forall i, (i < n)%nat -> r (lb start i) = 0 /\ r (hb block i) <> 0 /\ r (hb block i) + 1 < 2 ^ 32 /\ room r (lb start i)) ->
  (forall d', step d d' (log_writes start block c n) (updl c (log_writes start block c n)) r -> Q tt [] d') ->
  wp p [] write_log d Q.
Proof.
  intros start block Hpid Hc Edev En Hla Hr HQ. unfold write_log. wp_run. rewrite En.
  apply (wp_forM p [] _ _ (fun i d' => step d d' (log_writes start block c i) (updl c (log_writes start block c i)) r)).
  - split_and!; [apply frame_refl|apply wrote_nil|apply fs_rest_refl|done].
  - intros i tl d1 [-> Hi]%upto_lookup Hst. pose proof Hst as (Hf1 & _ & (Elog & _) & Hc1).
    destruct (Hr i Hi) as (Ha & Hb & Hb2 & Hrm).
    eapply (write_log_body d1 _ r (lb start i) (hb block i)); try done.
    + by rewrite (frame_pid _ _ _ Hf1).
    + by rewrite Elog.
    + rewrite Elog. by apply (lb_u32 start block n).
    + rewrite Elog. by apply (hb_u32 start block n).
    + by apply (lb_ok start block n).
    + by apply (la_block _ _ _ Hla).
    + by apply (lb_ne_hb start block n).
    + intros d2 Hst2. split; [done|].
      assert (updl c (log_writes start block c i) (hb block i) = c (hb block i)) as E.
      { apply updl_out. rewrite log_writes_fst, elem_map_seq. intros (j & Hj & E).
        by apply (lb_ne_hb start block n i j); [|done|lia|]. }
      rewrite E in Hst2. rewrite log_writes_S, updl_app. by eapply step_trans.
  - rewrite length_upto. intros d' Hst. by apply HQ.
Qed.

Lemma wp_install_trans (rec : bool) d c (R : nat -> Z -> Z) n Q :
  let start := log_start (logst (fs d)) in let block := lh_block (logst (fs d)) in
  p_pid (procs d p) = pid -> cache dev pid (fs d) c (R O) none -> log_dev (logst (fs d)) = dev ->
  lh_n (logst (fs d)) = Z.of_nat n -> layout start block n ->
  (forall i, (i < n)%nat -> R i (lb start i) = 0 /\ R i (hb block i) + 1 < 2 ^ 32 /\
     room (R i) (lb start i) /\ room ((R i).[lb start i := 1]) (hb block i) /\
     (rec = false -> R i (hb block i) <> 0) /\
     R (S i) = if rec then R i else (R i).[hb block i := R i (hb block i) - 1]) ->
  (forall d', step d d' (home_writes start block c n) (updl c (home_writes start block c n)) (R n) -> Q tt [] d') ->
  wp p [] (install_trans rec) d Q.
Proof.
  intros start block Hpid Hc Edev En Hla Hr HQ. unfold install_trans. wp_run. rewrite En.
  apply (wp_forM p [] _ _ (fun i d' => step d d' (home_writes start block c i) (updl c (home_writes start block c i)) (R i))).
  - split_and!; [apply frame_refl|apply wrote_nil|apply fs_rest_refl|done].
  - intros i tl d1 [-> Hi]%upto_lookup Hst. pose proof Hst as (Hf1 & _ & (Elog & _) & Hc1).
    destruct (Hr i Hi) as (Ha & Hb & Hrm & Hrm2 & Hpin & HS).
    eapply (install_body rec d1 _ (R i) (lb start i) (hb block i)); try done.
    + by rewrite (frame_pid _ _ _ Hf1).
    + by rewrite Elog.
    + rewrite Elog. by apply (lb_u32 start block n).
    + rewrite Elog. by apply (hb_u32 start block n).
    + by apply (lb_ok start block n).
    + by apply (la_block _ _ _ Hla).
    + by apply (lb_ne_hb start block n).
    + by rewrite Ha.
    + intros d2 Hst2. split; [done|].
      assert (updl c (home_writes start block c i) (lb start i) = c (lb start i)) as E.
      { apply updl_out. rewrite home_writes_fst, elem_map_seq. intros (j & Hj & E).
        by apply (lb_ne_hb start block n j i); [|lia|done|]. }
      rewrite E, <- HS in Hst2. rewrite home_writes_S, updl_app. by eapply step_trans.
  - rewrite length_upto. intros d' Hst. by apply HQ.
Qed.

(** ** The header *)

Lemma cache_logst x g c r h : cache dev pid x c r h -> cache dev pid (set_logst g x) c r h.
Proof. intros []. by split. Qed.

Lemma upd_buf_data b (f : buf -> buf) v v' x :
  (forall q, f (set_b_data v q) = set_b_data v' q) ->
  upd_buf b f (upd_buf b (set_b_data v) x) = upd_buf b (set_b_data v') x.
Proof.
  intros H. unfold upd_buf, set_bufs. simpl. rewrite fupd_eq, fupd_fupd, H. done.
Qed.

Lemma wp_write_head d c r n Q :
  let start := log_start (logst (fs d)) in
  let v := head_data (c start) (Z.of_nat n) (lh_block (logst (fs d))) n in
  p_pid (procs d p) = pid -> cache dev pid (fs d) c r none -> log_dev (logst (fs d)) = dev ->
  lh_n (logst (fs d)) = Z.of_nat n -> blk_ok start -> r start = 0 -> room r start ->
  (forall d', step d d' [(start, v)] (c.[start := v]) r -> Q tt [] d') ->
  wp p [] write_head d Q.
Proof.
  intros start v Hpid Hc Edev En Hs Hr Hrm HQ. unfold write_head. wp_run. rewrite Edev, u32_small by (unfold blk_ok in Hs; lia).
  eapply (wp_bread dev pid p d c r none start); try done; [lia|]. rewrite Hr.
  intros b d1 Hf1 (Hr1 & Hk1 & Hw1) Hs1 Hc1 Hb1 Hd1 _. wp_run. pose proof Hr1 as (Elog & _). rewrite Elog, En.
  set (hd := fun i => head_data (c start) (Z.of_nat n) (lh_block (logst (fs d))) i).
  set (dd := fun i => upd_fs (upd_buf b (set_b_data (hd i))) d1).
  eapply (wp_forM p [] _ _ (fun i d' => d' = dd i)).
  { unfold dd, upd_fs. f_equal. unfold upd_buf. by rewrite Hd1. }
  { intros i tl d2 [-> Hi]%upto_lookup ->. wp_run. split; [done|]. unfold dd, upd_fs. simpl. rewrite Elog.
    change (set_fs ?a (set_fs ?b d1)) with (set_fs a d1). f_equal. by apply upd_buf_data. }
  rewrite length_upto. intros d2 ->.
  edestruct (cache_set_data dev pid (fs d1) c) as [Hc2 Hb2]; [exact Hc1|exact Hb1| |done|].
  { rewrite fupd_eq. lia. }
  apply wp_bind. eapply (wp_bwrite dev pid p (dd n)); [done| |exact Hc2|exact Hb2|done|by rewrite fupd_eq|].
  { simpl. by rewrite (frame_pid _ _ _ Hf1). }
  intros d4 Hf4 Hr4 Hs4 Hk4 Hw4 Hc4. rewrite fupd_eq in Hk4, Hw4.
  eapply (wp_brelse dev pid p d4 _ _ _ b start); [|exact Hc4| |by rewrite fupd_eq| |].
  { rewrite (frame_pid _ _ _ Hf4). simpl. by rewrite (frame_pid _ _ _ Hf1). }
  { apply Hs4; [exact Hb2|]. rewrite fupd_eq. lia. }
  { intros _. by rewrite Hk4, !fupd_eq. }
  intros d5 Hf5 (Hr5 & Hk5 & Hw5) _ Hc5 _ _. apply HQ. split_and!.
  - eapply frame_trans; [exact Hf1|]. eapply frame_trans; [apply frame_upd_fs|]. by eapply frame_trans.
  - split; [rewrite Hk5, Hk4; simpl; by rewrite Hk1|rewrite Hw5, Hw4; simpl; by rewrite Hw1].
  - eapply fs_rest_trans; [exact Hr1|]. by eapply fs_rest_trans.
  - replace none with (none.[start := true].[start := false]) by fupd_ext.
    match type of Hc5 with cache _ _ _ _ ?r' _ => replace r with r' end; [done|]. fupd_ext.
Qed.

(** What read_head leaves in the in-memory header. *)
Definition head_read (g g' : log_t) (m : bytes) (n : nat) : Prop :=
  log_start g' = log_start g /\ log_dev g' = log_dev g /\ lh_n g' = Z.of_nat n /\
  forall i, (i < n)%nat -> lh_block g' (Z.of_nat i) = ldint m (4 + 4 * Z.of_nat i).

Lemma wp_read_head d c r n Q :
  let start := log_start (logst (fs d)) in
  p_pid (procs d p) = pid -> cache dev pid (fs d) c r none -> log_dev (logst (fs d)) = dev ->
  ldint (c start) 0 = Z.of_nat n -> blk_ok start -> r start = 0 -> room r start ->
  (forall d', frame d d' -> wrote [] (fs d) (fs d') -> cache dev pid (fs d') c r none ->
     head_read (logst (fs d)) (logst (fs d')) (c start) n -> Q tt [] d') ->
  wp p [] read_head d Q.
Proof.
  intros start Hpid Hc Edev En Hs Hr Hrm HQ. unfold read_head. wp_run. rewrite Edev, u32_small by (unfold blk_ok in Hs; lia).
  pose proof (ca_clean _ _ _ _ _ _ Hc start Hr) as Hcl.
  eapply (wp_bread dev pid p d c r none start); try done; [lia|]. rewrite Hr.
  intros b d1 Hf1 (Hr1 & Hk1 & Hw1) Hs1 Hc1 Hb1 Hd1 _. wp_run. pose proof Hr1 as (Elog & _). simpl. rewrite Hd1, En.
  eapply (wp_forM p [] _ _ (fun i d' => exists g, d' = upd_fs (set_logst g) d1 /\
    log_start g = start /\ log_dev g = dev /\ lh_n g = Z.of_nat n /\
    forall j, (j < i)%nat -> lh_block g (Z.of_nat j) = ldint (c start) (4 + 4 * Z.of_nat j))).
  { eexists. split; [done|]. rewrite Elog. simpl. split_and!; try done. intros; lia. }
  { intros i tl d2 [-> Hi]%upto_lookup (g & -> & H1 & H2 & H3 & H4). wp_run. split; [done|].
    exists (set_lh_block (lh_block g).[Z.of_nat i := ldint (c start) (4 + 4 * Z.of_nat i)] g).
    split_and!; try done. intros j Hj. simpl. destruct (decide (j = i)) as [->|Hne]; [by rewrite fupd_eq|].
    rewrite fupd_ne by lia. apply H4. lia. }
  rewrite length_upto. intros d2 (g & -> & H1 & H2 & H3 & H4). cbv beta.
  eapply (wp_brelse dev pid p _ c _ _ b start); [|by apply cache_logst, Hc1|exact Hb1|by rewrite fupd_eq| |].
  { simpl. by rewrite (frame_pid _ _ _ Hf1). }
  { intros _. simpl. by rewrite Hk1. }
  intros d5 Hf5 (Hr5 & Hk5 & Hw5) _ Hc5 _ _. apply HQ.
  - eapply frame_trans; [exact Hf1|]. eapply frame_trans; [apply frame_upd_fs|exact Hf5].
  - split; [rewrite Hk5; simpl; by rewrite Hk1|rewrite Hw5; simpl; by rewrite Hw1].
  - replace none with (none.[start := true].[start := false]) by fupd_ext.
    match type of Hc5 with cache _ _ _ _ ?r' _ => replace r with r' end; [done|]. fupd_ext.
  - destruct Hr5 as (-> & _). split_and!; try done. simpl. congruence.
Qed.

(** ** commit() and recovery *)

(** A transaction of [n] distinct blocks ready to commit: their buffers hold the
    new contents [c] and are pinned, and no other block is referenced. *)
Record txn d c r (n : nat) : Prop := {
  tx_cache : cache dev pid (fs d) c r none;
  tx_dev : log_dev (logst (fs d)) = dev;
  tx_n : lh_n (logst (fs d)) = Z.of_nat n;
  tx_layout : layout (log_start (logst (fs d))) (lh_block (logst (fs d))) n;
  tx_nodup : NoDup (map (hb (lh_block (logst (fs d)))) (seq 0 n));
  tx_pin : forall i, (i < n)%nat ->
    r (hb (lh_block (logst (fs d))) i) <> 0 /\ r (hb (lh_block (logst (fs d))) i) + 1 < 2 ^ 32;
  tx_only : forall bn, r bn <> 0 -> bn ∈ map (hb (lh_block (logst (fs d)))) (seq 0 n);
}.

(** The reference counts after the first [i] blocks are unpinned. *)
Definition unpinned block r (i : nat) : Z -> Z :=
  fun k => if decide (k ∈ map (hb block) (seq 0 i)) then r k - 1 else r k.

Lemma unpinned_S block r n i : NoDup (map (hb block) (seq 0 n)) -> (i < n)%nat ->
  unpinned block r i (hb block i) = r (hb block i) /\
  unpinned block r (S i) = (unpinned block r i).[hb block i := unpinned block r i (hb block i) - 1].
Proof.
  intros Hd Hi.
  assert (hb block i ∉ map (hb block) (seq 0 i)) as Hn.
  { replace n with (i + S (n - S i))%nat in Hd by lia. rewrite seq_app, map_app in Hd. simpl in Hd.
    apply NoDup_app in Hd as (_ & Hd & _). intros H. specialize (Hd _ H). set_solver. }
  split; [unfold unpinned; by rewrite decide_False|]. extensionality k. unfold unpinned, fupd.
  rewrite seq_S, map_app. simpl. repeat case_decide; subst; try done; set_solver.
Qed.

Lemma room_pinned d c r r' n bn : txn d c r n -> (forall k, r' k <> 0 -> r k <> 0) -> room r' bn.
Proof.
  intros Ht Hr. right. exists (map (hb (lh_block (logst (fs d)))) (seq 0 n)). split.
  - rewrite length_map, length_seq. apply (la_size _ _ _ (tx_layout _ _ _ _ Ht)).
  - intros k Hk. by apply (tx_only _ _ _ _ Ht), Hr.
Qed.

Lemma txn_log_free d c r n bn : txn d c r n -> in_log (log_start (logst (fs d))) bn -> r bn = 0.
Proof.
  intros Ht Hl. destruct (decide (r bn = 0)) as [|H]; [done|]. apply (tx_only _ _ _ _ Ht), elem_map_seq in H as (i & Hi & <-).
  by destruct (la_home _ _ _ (tx_layout _ _ _ _ Ht) i Hi).
Qed.

Lemma unpinned_le block r n i k : (forall j, (j < n)%nat -> r (hb block j) <> 0) -> (i <= n)%nat ->
  unpinned block r i k <> 0 -> r k <> 0.
Proof.
  intros Hpn Hi. unfold unpinned. case_decide as H; [|done]. apply elem_map_seq in H as (j & Hj & <-). intros _. apply Hpn. lia.
Qed.

Lemma wp_commit d c r n Q :
  let start := log_start (logst (fs d)) in let block := lh_block (logst (fs d)) in
  p_pid (procs d p) = pid -> txn d c r n -> (0 < n)%nat ->
  (forall d', frame d d' -> wrote (commit_writes start block c n) (fs d) (fs d') ->
     fs_rest (set_logst (set_lh_n 0 (logst (fs d))) (fs d)) (fs d') ->
     cache dev pid (fs d') (updl c (commit_writes start block c n)) (unpinned block r n) none ->
     Q tt [] d') ->
  wp p [] commit d Q.
Proof.
  intros start block Hpid Ht Hn HQ. pose proof Ht as [Hc Edev En Hla Hnd Hpin Honly].
  pose proof (la_start _ _ _ Hla) as Hst. pose proof (la_size _ _ _ Hla) as Hsz.
  assert (blk_ok start) as Hs32 by (unfold blk_ok, start; unfold LOGSIZE, MAXOPBLOCKS in Hst; lia).
  assert (in_log start start) as Hss by (unfold in_log, LOGSIZE, MAXOPBLOCKS; lia).
  assert (forall bn, in_log start bn -> r bn = 0) as Hlf by (intros; by eapply txn_log_free).
  assert (start ∉ (log_writes start block c n).*1) as Hs1.
  { rewrite log_writes_fst, elem_map_seq. unfold lb. intros (i & _ & E). lia. }
  assert (start ∉ map (hb block) (seq 0 n)) as Hs2.
  { rewrite elem_map_seq. intros (i & Hi & E). apply (la_home _ _ _ Hla i Hi).
    change (in_log start (hb block i)). by rewrite E. }
  unfold commit. wp_run. rewrite En. apply wp_when; [intros _|intros E%Z.ltb_ge; lia].
  apply wp_bind. eapply (wp_write_log d c r n); try done.
  { intros i Hi. destruct (Hpin i Hi). split_and!; try done; [apply Hlf, lb_in_log; lia|by eapply room_pinned]. }
  intros d1 (Hf1 & Hw1 & Hr1 & Hc1). pose proof Hr1 as (El1 & _).
  assert (p_pid (procs d1 p) = pid) as Hp1 by (by rewrite (frame_pid _ _ _ Hf1)).
  apply wp_bind. eapply (wp_write_head d1 _ r n); rewrite ?El1; try done; [by apply Hlf|by eapply room_pinned|].
  fold start block. rewrite (updl_out c) by done. fold (new_head start block c n).
  intros d2 (Hf2 & Hw2 & Hr2 & Hc2). pose proof Hr2 as (El2 & _). rewrite El1 in El2.
  assert (p_pid (procs d2 p) = pid) as Hp2 by (by rewrite (frame_pid _ _ _ Hf2)).
  set (c2 := (updl c (log_writes start block c n)).[start := new_head start block c n]) in *.
  pose proof (installed_writes start block c n) as Ehw. fold c2 in Ehw.
  assert (c2 start = new_head start block c n) as Ec2 by apply fupd_eq.
  apply wp_bind. eapply (wp_install_trans false d2 c2 (unpinned block r) n); rewrite ?El2; try done.
  { intros i Hi. destruct (Hpin i Hi) as [Hpi1 Hpi2]. destruct (unpinned_S block r n i Hnd Hi) as [E1 E2]. fold start block. rewrite E1.
    pose proof (unpinned_le block r n i) as Hle.
    assert (forall k, unpinned block r i k <> 0 -> r k <> 0) as Hle' by (intros k; apply Hle; [apply Hpin|lia]).
    split_and!; try done; [|by eapply room_pinned|left|by rewrite <- E1].
    - destruct (decide (unpinned block r i (lb start i) = 0)) as [|Hx]; [done|]. apply Hle' in Hx.
      destruct Hx. apply Hlf, lb_in_log. lia.
    - rewrite fupd_ne, E1; [done|]. intros E. by apply (lb_ne_hb start block n i i). }
  fold start block. rewrite Ehw. intros d3 (Hf3 & Hw3 & Hr3 & Hc3). pose proof Hr3 as (El3 & _). rewrite El2 in El3.
  wp_run. set (d4 := upd_fs _ d3).
  assert (forall k, unpinned block r n k <> 0 -> r k <> 0) as Hle by (intros k; apply (unpinned_le block r n n); [apply Hpin|lia]).
  assert (unpinned block r n start = 0) as Hu0 by (unfold unpinned; rewrite decide_False by done; by apply Hlf).
  eapply (wp_write_head d4 _ (unpinned block r n) 0); simpl; rewrite ?El3; try done.
  { by rewrite (frame_pid _ _ _ Hf3). } { by apply cache_logst. } { by eapply room_pinned. }
  fold start block. rewrite updl_out by (unfold fst; rewrite <- Ehw; rewrite home_writes_fst; done).
  rewrite Ec2. intros d5 (Hf5 & Hw5 & Hr5 & Hc5). apply HQ.
  - do 3 (eapply frame_trans; [eassumption|]). eapply frame_trans; [apply frame_upd_fs|exact Hf5].
  - unfold commit_writes. eapply wrote_app; [exact Hw1|]. eapply wrote_app; [exact Hw2|]. eapply wrote_app; [exact Hw3|exact Hw5].
  - eapply fs_rest_trans; [|exact Hr5]. pose proof (fs_rest_trans _ _ _ (fs_rest_trans _ _ _ Hr1 Hr2) Hr3) as (G1 & G2 & G3 & G4).
    split_and!; [simpl; by rewrite G1|done|done|done].
  - unfold commit_writes. rewrite !updl_app. exact Hc5.
Qed.

(** Right after boot: an empty cache over the disk [dk]. *)
Record booted (start : Z) (dk : Z -> bytes) d : Prop := {
  bo_cache : cache dev pid (fs d) dk (fun _ => 0) none;
  bo_disk : dblk (fs d) = dk;
  bo_log : log_dev (logst (fs d)) = dev /\ log_start (logst (fs d)) = start;
}.

Lemma room_free r bn bn' v : (forall k, r k = 0) -> room r bn /\ room (r.[bn := v]) bn'.
Proof.
  intros H. split; right.
  - exists []. split; [unfold NBUF; simpl; lia|]. intros k Hk. by destruct Hk.
  - exists [bn]. split; [unfold NBUF; simpl; lia|]. intros k Hk. unfold fupd in Hk. case_decide; [|by destruct Hk].
    subst. by left.
Qed.

(** Recovery installs the logged blocks and erases the header. *)
Lemma wp_recover start dk d n Q :
  p_pid (procs d p) = pid -> booted start dk d ->
  disk_n start dk = Z.of_nat n -> layout start (disk_block start dk) n ->
  (forall d', frame d d' ->
     wrote (home_writes start (disk_block start dk) dk n ++ [(start, st32 (dk start) 0 0)]) (fs d) (fs d') -> Q tt [] d') ->
  wp p [] recover_from_log d Q.
Proof.
  intros Hpid [Hc Hdk [Edev Est]] En Hla HQ. pose proof (la_start _ _ _ Hla) as Hst.
  assert (blk_ok start) as Hs32 by (unfold blk_ok; unfold LOGSIZE, MAXOPBLOCKS in Hst; lia).
  assert (forall k : Z, (fun _ : Z => 0) k = 0) as Hz by done.
  unfold recover_from_log. apply wp_bind.
  eapply (wp_read_head d dk _ n); rewrite ?Est; try done; [by apply room_free; [exact 0|..]|].
  intros d1 Hf1 Hw1 Hc1 (H1 & H2 & H3 & H4). rewrite Est in H1. rewrite Edev in H2.
  assert (forall i, (i < n)%nat -> hb (disk_block start dk) i = hb (lh_block (logst (fs d1))) i) as Hhb.
  { intros i Hi. unfold hb. rewrite H4 by done. done. }
  assert (layout start (lh_block (logst (fs d1))) n) as Hla1 by (by eapply layout_ext).
  apply wp_bind. eapply (wp_install_trans true d1 dk (fun _ _ => 0) n); rewrite ?H1; try done.
  { by rewrite (frame_pid _ _ _ Hf1). }
  { intros i Hi. split_and!; try done; by apply room_free. }
  intros d2 (Hf2 & Hw2 & Hr2 & Hc2). pose proof Hr2 as (El2 & _). wp_run. set (d3 := upd_fs _ d2).
  eapply (wp_write_head d3 _ (fun _ => 0) 0); simpl; rewrite ?El2, ?H1; try done.
  { by rewrite (frame_pid _ _ _ Hf2), (frame_pid _ _ _ Hf1). } { by apply cache_logst. }
  { by apply room_free; [exact 0|..]. }
  rewrite updl_out.
  2: { rewrite home_writes_fst, elem_map_seq. intros (i & Hi & E). apply (la_home _ _ _ Hla1 i Hi). rewrite E.
       unfold in_log, LOGSIZE, MAXOPBLOCKS. lia. }
  intros d4 (Hf4 & Hw4 & _). apply HQ.
  - do 2 (eapply frame_trans; [eassumption|]). eapply frame_trans; [apply frame_upd_fs|exact Hf4].
  - rewrite (home_writes_ext start _ (lh_block (logst (fs d1))) dk dk) by (intros i Hi; by rewrite Hhb).
    eapply wrote_app; [|exact Hw4]. by apply (wrote_app [] _ _ _ _ Hw1 Hw2).
Qed.

End LogSpec.

(** ** Crashes *)

(** The disk that recovery leaves. *)
Definition recovered (start : Z) (dk : Z -> bytes) (n : nat) : Z -> bytes :=
  updl dk (home_writes start (disk_block start dk) dk n ++ [(start, st32 (dk start) 0 0)]).

(** The blocks of a transaction at home. *)
Definition txn_writes (block : Z -> Z) (c : Z -> bytes) (n : nat) : list (Z * bytes) := map (fun i => (hb block i, c (hb block i))) (seq 0 n).

Lemma txn_writes_fst block c n : (txn_writes block c n).*1 = map (hb block) (seq 0 n).
Proof. unfold txn_writes. induction (seq 0 n) as [|i l IH]; [done|]. cbn. by rewrite IH. Qed.

Section Crash.
Context (start : Z) (block : Z -> Z) (n : nat) (dk c : Z -> bytes).
Hypothesis (Hla : layout start block n).
Let V := txn_writes block c n.
Let hd := new_head start block c n.

Lemma start_in_log : in_log start start.
Proof. unfold in_log, LOGSIZE, MAXOPBLOCKS. lia. Qed.

Lemma start_not_home : start ∉ V.*1.
Proof.
  unfold V. rewrite txn_writes_fst, elem_map_seq. intros (i & Hi & E). apply (la_home _ _ _ Hla i Hi). rewrite E.
  apply start_in_log.
Qed.

Lemma start_not_logged k : start ∉ (log_writes start block c k).*1.
Proof. rewrite log_writes_fst, elem_map_seq. unfold lb. intros (i & _ & E). lia. Qed.

Lemma log_writes_take k : (k <= n)%nat -> take k (log_writes start block c n) = log_writes start block c k.
Proof.
  intros H. unfold log_writes. rewrite firstn_map. f_equal. replace n with (k + (n - k))%nat by lia.
  rewrite seq_app. rewrite firstn_app, length_seq, Nat.sub_diag. simpl. rewrite app_nil_r. apply firstn_all2. by rewrite length_seq.
Qed.

Lemma updl_log_out k bn : (k <= n)%nat -> ~ in_log start bn -> updl dk (log_writes start block c k) bn = dk bn.
Proof.
  intros Hk H. apply updl_out. rewrite log_writes_fst, elem_map_seq. intros (i & Hi & <-). apply H, lb_in_log.
  pose proof (la_size _ _ _ Hla). lia.
Qed.

Lemma recovered_0 dk' bn : ~ in_log start bn -> recovered start dk' 0 bn = dk' bn.
Proof.
  intros H. unfold recovered. apply updl_out. intros [E|[]%elem_of_nil]%elem_of_cons. simpl in E. subst. apply H, start_in_log.
Qed.

Lemma layout_0 block' : layout start block' 0.
Proof. split; [apply Hla|unfold NBUF; lia|lia|lia]. Qed.

(** The disk once the header is written and some of the blocks are installed. *)
Lemma committed_disk j : let dk' := updl dk (log_writes start block c n ++ [(start, hd)] ++ take j V) in
  disk_n start dk' = Z.of_nat n /\ layout start (disk_block start dk') n /\
  forall bn, ~ in_log start bn -> recovered start dk' n bn = updl dk V bn.
Proof.
  intros dk'. pose proof (la_size _ _ _ Hla) as Hsz.
  assert (forall k, k ∉ V.*1 -> k ∉ (take j V).*1) as Htk.
  { intros k Hk Hx. apply Hk. rewrite <- (take_drop j V), fmap_app. set_solver. }
  assert (dk' start = hd) as Ehd.
  { unfold dk'. rewrite !updl_app, updl_out by apply Htk, start_not_home. simpl. apply fupd_eq. }
  assert (forall i, (i < n)%nat -> hb block i = hb (disk_block start dk') i) as Hhb.
  { intros i Hi. unfold hb at 2, disk_block. rewrite Ehd. unfold hd, new_head.
    rewrite head_data_block; [done|done|]. by apply (la_block _ _ _ Hla). }
  assert (forall i, (i < n)%nat -> dk' (lb start i) = c (hb block i)) as Hlb.
  { intros i Hi. unfold dk'. rewrite !updl_app, updl_out.
    - simpl. rewrite fupd_ne by (unfold lb; lia). apply updl_in.
      + rewrite log_writes_fst. apply NoDup_fmap_2; [|apply NoDup_seq]. intros i1 i2. unfold lb. lia.
      + apply list_elem_of_In, in_map_iff. exists i. split; [done|]. apply in_seq. lia.
    - apply Htk. unfold V. rewrite txn_writes_fst, elem_map_seq. intros (i' & Hi' & E).
      by apply (lb_ne_hb start block n i' i). }
  split_and!.
  - unfold disk_n. rewrite Ehd. apply head_data_n. unfold NBUF in Hsz. lia.
  - by eapply layout_ext.
  - intros bn Hbn. unfold recovered. rewrite updl_app, updl_out.
    2: { intros [E|[]%elem_of_nil]%elem_of_cons. simpl in E. subst. apply Hbn, start_in_log. }
    assert (home_writes start (disk_block start dk') dk' n = V) as ->.
    { apply map_ext_in. intros i Hi%in_seq. rewrite <- Hhb, Hlb by lia. done. }
    apply updl_ext. intros Hk. unfold dk'. rewrite !updl_app, updl_out by by apply Htk. simpl.
    rewrite fupd_ne by (intros ->; apply Hbn, start_in_log). apply updl_log_out; [lia|done].
Qed.
End Crash.

(** A crash after the first [k] writes of commit(): what recovery finds and leaves. *)
Lemma crash_recovers start block (dk c : Z -> bytes) n k :
  layout start block n -> disk_n start dk = 0 -> 
  let dk' := updl dk (take k (commit_writes start block c n)) in
  exists n', disk_n start dk' = Z.of_nat n' /\ layout start (disk_block start dk') n' /\
    forall bn, ~ in_log start bn ->
      recovered start dk' n' bn = (if decide (k <= n)%nat then dk bn else updl dk (txn_writes block c n) bn).
Proof.
  intros Hla H0 dk'.
  assert (length (log_writes start block c n) = n) as Hl1 by (unfold log_writes; by rewrite length_map, length_seq).
  assert (length (txn_writes block c n) = n) as Hl2 by (unfold txn_writes; by rewrite length_map, length_seq).
  unfold commit_writes in dk'. fold (txn_writes block c n) in dk'. case_decide as Hk; [|destruct (decide (k <= 2 * n + 1)%nat) as [Hk2|Hk2]].
  - exists O. unfold dk'. rewrite take_app_le, log_writes_take by (done || lia). split_and!.
    + unfold disk_n. by rewrite updl_out by apply start_not_logged.
    + by eapply layout_0.
    + intros bn Hbn. rewrite recovered_0 by done. by apply (updl_log_out start block n).
  - exists n. assert (take k (log_writes start block c n ++ [(start, new_head start block c n)] ++
      txn_writes block c n ++ [(start, st32 (new_head start block c n) 0 0)]) =
      log_writes start block c n ++ [(start, new_head start block c n)] ++ take (k - n - 1) (txn_writes block c n)) as E.
    { rewrite take_app_ge, Hl1 by lia. replace (k - n)%nat with (S (k - n - 1)) by lia. simpl.
      rewrite Nat.sub_0_r. do 2 f_equal. by rewrite take_app_le by lia. }
    unfold dk'. rewrite E. by apply committed_disk.
  - exists O. unfold dk'. rewrite take_ge by (rewrite !length_app, Hl1, Hl2; simpl; lia). rewrite !updl_app. split_and!.
    + unfold disk_n. change (updl ?f [(start, ?v)]) with (f.[start := v]). rewrite fupd_eq. by apply ld32_st32_eq.
    + by eapply layout_0.
    + intros bn Hbn. assert (bn <> start) as Hne by (intros ->; by apply Hbn, start_in_log).
      rewrite recovered_0 by done. change (updl ?f [(start, ?v)]) with (f.[start := v]). rewrite fupd_ne by done.
      apply updl_ext. intros _. change (updl ?f [(start, ?v)]) with (f.[start := v]). rewrite fupd_ne by done. by apply (updl_log_out start block n).
Qed.

(** ** Properties *)

(** C1: crash atomicity of the log.  commit() of a transaction of [n] blocks
    returns, having made the writes [W] in this order: the log blocks, the header,
    the blocks at home, the empty header.  If the machine stops after any number
    [k] of these writes, then recovery from the disk at that moment returns, and
    outside the log every block is as before the transaction when [k <= n], and as
    after it otherwise; the header on disk is empty again. *)
Theorem commit_crash_atomic {D : DiskDriver} dev p e m d c r n
  (Hp : (p < NPROC)%nat) (Hq : quiet p m) (Ht : txn dev (p_pid (procs d p)) d c r n) (Hn : (0 < n)%nat)
  (H0 : disk_n (log_start (logst (fs d))) (dblk (fs d)) = 0) :
  let start := log_start (logst (fs d)) in let block := lh_block (logst (fs d)) in
  let dk := dblk (fs d) in let W := commit_writes start block c n in
  (exists m' d', commit e (mkK m d) = Ret tt e (mkK m' d') /\ dwr (fs d') = rev W ++ dwr (fs d) /\
     dblk (fs d') = updl dk W /\ lh_n (logst (fs d')) = 0) /\
  forall k p2 m2 e2 d2, (p2 < NPROC)%nat -> quiet p2 m2 ->
    booted dev (p_pid (procs d2 p2)) start (updl dk (take k W)) d2 ->
    exists m3 d3, recover_from_log e2 (mkK m2 d2) = Ret tt e2 (mkK m3 d3) /\
      disk_n start (dblk (fs d3)) = 0 /\
      forall bn, ~ in_log start bn ->
        dblk (fs d3) bn = if decide (k <= n)%nat then dk bn else updl dk (txn_writes block c n) bn.
Proof.
  intros start block dk W. pose proof (tx_layout _ _ _ _ _ _ Ht) as Hla. split.
  - assert (wp p [] commit d (fun _ _ d' => wrote W (fs d) (fs d') /\ lh_n (logst (fs d')) = 0)) as H.
    { eapply wp_commit; try done. intros d' _ H1 (-> & _) _. done. }
    destruct (wp_run1 p m commit d _ e H Hq) as ([] & hl & m' & d' & H1 & [H2 H3] & H4). by exists m', d'.
  - intros k p2 m2 e2 d2 Hp2 Hq2 Hb.
    destruct (crash_recovers start block dk c n k Hla H0) as (n' & H1 & H2 & H3).
    set (dk' := updl dk (take k W)) in *.
    assert (wp p2 [] recover_from_log d2 (fun _ _ d' => dblk (fs d') = recovered start dk' n')) as H.
    { eapply (wp_recover dev _ p2 Hp2 start dk' d2 n'); try done. intros d' _ [-> _].
      unfold recovered. by rewrite (bo_disk _ _ _ _ _ Hb). }
    destruct (wp_run1 p2 m2 recover_from_log d2 _ e2 H Hq2) as ([] & hl & m3 & d3 & H4 & H5).
    exists m3, d3. rewrite H5. split_and!; [done| |done]. unfold disk_n, recovered. rewrite updl_app.
    change (updl ?f [(start, ?v)]) with (f.[start := v]). rewrite fupd_eq. by apply ld32_st32_eq.
Qed.

(** A transaction of block 5, filled with 9, with the log at block 100. *)
Definition log_w : log_t := mkLog 100 30 0 0 1 1 (fun _ => 5).
Definition kdata_txn : kdata := upd_fs (set_logst log_w) (kdata_w 0 9).
(** The machine after a crash: an empty cache over the disk [dk]. *)
Definition kdata_boot (dk : Z -> bytes) : kdata :=
  upd_fs (fun x => set_dblk dk (set_logst log_w (set_bufs (fun i => set_b_refcnt 0 (set_b_dev 0 (buf_w 0 i))) x)))
    (upd_proc 1 (set_p_pid 7) kdata0).

Lemma txn_w : txn (D := sync_driver) 1 7 kdata_txn ((fun _ _ => 0).[5 := fun _ => 9]) ((fun _ => 0).[5 := 1]) 1.
Proof.
  split; try done.
  - apply cache_logst. replace (none) with ((fun _ : Z => false).[5 := false]) by fupd_ext. apply (cache_w false 9).
  - split; [vm_compute; split; congruence|unfold NBUF; lia|intros i Hi; vm_compute; split; congruence|].
    intros i Hi. unfold in_log. vm_compute. intuition congruence.
  - apply NoDup_singleton.
  - intros bn. unfold fupd. case_decide; [|done]. intros _. subst. by left.
Qed.

Lemma booted_w dk : booted (D := sync_driver) 1 7 100 dk (kdata_boot dk).
Proof.
  split; [|done..]. apply (cache_empty (D := sync_driver) 1 7 (fs (kdata_boot dk))); [|exact I|].
  - exists (seq 0 NBUF). eapply lru_links; [|apply (lru_w 0 0)]. intros k. done.
  - intros b Hb. done.
Qed.

Lemma commit_crash_atomic_witness :
  exists m3 d3, recover_from_log (D := sync_driver) [] (mkK machine1
      (kdata_boot (updl (dblk (fs kdata_txn)) (take 2 (commit_writes 100 (fun _ => 5) ((fun _ _ => 0).[5 := fun _ => 9]) 1)))))
    = Ret tt [] (mkK m3 d3) /\ dblk (fs d3) 5 0 = 9.
Proof.
  destruct (commit_crash_atomic (D := sync_driver) 1 1 [] machine1 kdata_txn ((fun _ _ => 0).[5 := fun _ => 9])
    ((fun _ => 0).[5 := 1]) 1) as [_ H].
  - unfold NPROC. lia.
  - apply quiet1.
  - apply txn_w.
  - lia.
  - reflexivity.
  - destruct (H 2%nat 1%nat machine1 [] (kdata_boot (updl (dblk (fs kdata_txn))
      (take 2 (commit_writes 100 (fun _ => 5) ((fun _ _ => 0).[5 := fun _ => 9]) 1))))) as (m3 & d3 & H1 & _ & H2).
    + unfold NPROC. lia.
    + apply quiet1.
    + apply booted_w.
    + exists m3, d3. split; [exact H1|]. rewrite H2; [reflexivity|]. unfold in_log. vm_compute. intuition congruence.
Defined.
