(* ===== verification/Fs.v ===== *)
(** * The file system (kernel/fs.c)

    Blocks, inodes, inode contents, directories and path names, over the buffer
    cache and the log.  On-disk structures are read from and written to the bytes
    of a buffer at the offsets of the C layout: a dinode is 64 bytes (type, major,
    minor, nlink as shorts, size and 13 addresses as 32-bit words), a dirent 16
    bytes (inum and 14 name bytes).  A path is the list of its characters; a name
    buffer is an array of DIRSIZ bytes. *)

From S2P Require Import Prelude State Spinlock CString Kalloc Sched Vm ProcMem Sleeplock Bio Log.
Open Scope Z_scope.

(** ** fs.h *)

Definition ROOTINO : Z := 1.
Definition FSMAGIC : Z := 0x10203040.
Definition NDIRECT : Z := 12.
Definition NINDIRECT : Z := BSIZE / 4.
Definition MAXFILE : Z := NDIRECT + NINDIRECT.
Definition sizeof_dinode : Z := 64.
Definition IPB : Z := BSIZE / sizeof_dinode.
Definition IBLOCK (i : Z) (s : superblock) : Z := u32 (i / IPB + sb_inodestart s).
Definition BPB : Z := BSIZE * 8.
Definition BBLOCK (b : Z) (s : superblock) : Z := u32 (b / BPB + sb_bmapstart s).
Definition DIRSIZ : Z := 14.
Definition sizeof_dirent : Z := 16.
Definition T_DIR : Z := 1.
Definition T_FILE : Z := 2.
Definition T_DEVICE : Z := 3.

(** [short] and [ushort] words of a block. *)
Definition ld16 (m : bytes) (a : Z) : Z := ldn 2 m a.
Definition st16 (m : bytes) (a v : Z) : bytes := stn 2 m a v.
Definition ldshort (m : bytes) (a : Z) : Z := i16 (ld16 m a).

(** A local array with the bytes [l]. *)
Definition local_bytes (l : list Z) : bytes := memput (fun _ => 0) 0 l.

Definition getino {A} (ip : nat) (f : inode -> A) : M A := getfs (fun x => f (inodes x ip)).
Definition setino (ip : nat) (f : inode -> inode) : M unit :=
  setfs (fun x => set_inodes (inodes x).[ip := f (inodes x ip)] x).
Definition getsb : M superblock := getfs sb.
Definition upd_data (f : bytes -> bytes) (r : buf) : buf := set_b_data (f (b_data r)) r.

(** Decode the super block at the start of a block. *)
Definition superblock_of (m : bytes) : superblock :=
  mkSuperblock (ld32 m 0) (ld32 m 4) (ld32 m 8) (ld32 m 12) (ld32 m 16) (ld32 m 20) (ld32 m 24) (ld32 m 28).

(** dinode <-> inode, at byte offset [a] of a block *)
Definition dinode_get (m : bytes) (a : Z) (r : inode) : inode :=
  mkInode (i_dev r) (i_inum r) (i_ref r) (i_valid r)
    (ldshort m a) (ldshort m (a + 2)) (ldshort m (a + 4)) (ldshort m (a + 6)) (ld32 m (a + 8))
    (fun i => if in_range 0 i (NDIRECT + 1) then ld32 m (a + 12 + 4 * i) else i_addrs r i).

Fixpoint put_addrs (m : bytes) (a : Z) (addrs : Z -> Z) (n : nat) : bytes :=
  match n with
  | O => m
  | S k => st32 (put_addrs m a addrs k) (a + 12 + 4 * Z.of_nat k) (addrs (Z.of_nat k))
  end.

Definition dinode_put (m : bytes) (a : Z) (r : inode) : bytes :=
  let m := st16 m a (i_type r) in
  let m := st16 m (a + 2) (i_major r) in
  let m := st16 m (a + 4) (i_minor r) in
  let m := st16 m (a + 6) (i_nlink r) in
  let m := st32 m (a + 8) (i_size r) in
  put_addrs m a (i_addrs r) 13.

(** Byte offset of inode [inum] in its block. *)
Definition dip_off (inum : Z) : Z := inum mod IPB * sizeof_dinode.

(** ** skipelem *)

Definition slash : Z := 47.

Fixpoint skip_slashes (path : list Z) : list Z :=
  match path with
  | c :: p => if c =? slash then skip_slashes p else path
  | [] => []
  end.

(** The characters up to the next slash, and the rest. *)
Fixpoint take_elem (path : list Z) : list Z * list Z :=
  match path with
  | c :: p => if c =? slash then ([], path)
              else let '(s, rest) := take_elem p in (c :: s, rest)
  | [] => ([], [])
  end.

Definition skipelem (path : list Z) (name : bytes) : option (list Z * bytes) :=
  match skip_slashes path with
  | [] => None
  | path =>
      let '(s, rest) := take_elem path in
      let len := Z.of_nat (length s) in
      let name' := if len >=? DIRSIZ then memput name 0 (take (Z.to_nat DIRSIZ) s)
                   else (memput name 0 s).[len := 0] in
      Some (skip_slashes rest, name')
  end.

Definition namecmp (s t : bytes) : Z := strncmp s t 0 0 (Z.to_nat DIRSIZ).

(** ** The inode table *)

Definition all_inodes : list nat := seq 0 NINODE.

(** The scan of iget(): the entry of (dev, inum), or else the first empty entry. *)
Fixpoint iget_scan (ino : nat -> inode) (dev inum : Z) (l : list nat) (empty : option nat) : nat + option nat :=
  match l with
  | [] => inr empty
  | ip :: l' =>
      if (0 <? i_ref (ino ip)) && (i_dev (ino ip) =? dev) && (i_inum (ino ip) =? inum) then inl ip
      else iget_scan ino dev inum l'
             (if bool_decide (empty = None) && (i_ref (ino ip) =? 0) then Some ip else empty)
  end.

Definition iget (dev inum : Z) : M nat :=
  acquire LK_itable;;
  let* r := getfs (fun x => iget_scan (inodes x) dev inum all_inodes None) in
  match r with
  | inl ip =>
      setino ip (fun r => set_i_ref (i_ref r + 1) r);;
      release LK_itable;;
      ret ip
  | inr None => panic "iget: no inodes"
  | inr (Some ip) =>
      (* Recycle an inode entry. *)
      setino ip (set_i_dev dev);;
      setino ip (set_i_inum inum);;
      setino ip (set_i_ref 1);;
      setino ip (set_i_valid 0);;
      release LK_itable;;
      ret ip
  end.

Definition idup (ip : nat) : M nat :=
  acquire LK_itable;;
  setino ip (fun r => set_i_ref (i_ref r + 1) r);;
  release LK_itable;;
  ret ip.

Definition iinit : M unit :=
  initlock LK_itable "itable";;
  forM all_inodes (fun i => initsleeplock (SL_inode i) "inode").

Section Fs.
Context `{D : DiskDriver}.

Definition readsb (dev : Z) : M unit :=
  let* bp := bread dev 1 in
  let* m := getb bp b_data in
  setfs (set_sb (superblock_of m));;
  brelse bp.

Definition fsinit (dev : Z) : M unit :=
  readsb dev;;
  let* s := getsb in
  if negb (sb_magic s =? FSMAGIC) then panic "invalid file system" else
  initlog dev s.

Definition bzero (dev bno : Z) : M unit :=
  let* bp := bread dev (u32 bno) in
  setb bp (upd_data (fun m => memset m 0 0 BSIZE));;
  log_write bp;;
  brelse bp.

(** ** Blocks *)

Definition bit_mask (bi : Z) : Z := Z.shiftl 1 (bi mod 8).

(** The first free bit among the first [n] of a bitmap block. *)
Definition free_bit (m : bytes) (n : Z) : option Z :=
  find (fun bi => Z.land (m (bi / 8)) (bit_mask bi) =? 0) (upto n).

Definition balloc (dev : Z) : M Z :=
  let* s := getsb in
  let* r := forE (map (fun i => i * BPB) (upto ((sb_size s + BPB - 1) / BPB))) (fun b =>
    let* bp := bread dev (BBLOCK b s) in
    let* m := getb bp b_data in
    match free_bit m (Z.min BPB (sb_size s - b)) with
    | Some bi =>
        setb bp (upd_data (fun m => m.[bi / 8 := Z.lor (m (bi / 8)) (bit_mask bi)]));;
        log_write bp;;
        brelse bp;;
        bzero dev (b + bi);;
        ret (Some (b + bi))
    | None => brelse bp;; ret None
    end) in
  match r with Some b => ret b | None => panic "balloc: out of blocks" end.

Definition bfree (dev b : Z) : M unit :=
  let* s := getsb in
  let* bp := bread dev (BBLOCK b s) in
  let bi := b mod BPB in
  let* m := getb bp b_data in
  if Z.land (m (bi / 8)) (bit_mask bi) =? 0 then panic "freeing free block" else
  setb bp (upd_data (fun m => m.[bi / 8 := Z.land (m (bi / 8)) (Z.lnot (bit_mask bi))]));;
  log_write bp;;
  brelse bp.

(** ** Inodes *)

Definition ialloc (dev type : Z) : M nat :=
  let* s := getsb in
  let* r := forE (map (fun i => i + 1) (upto (sb_ninodes s - 1))) (fun inum =>
    let* bp := bread dev (IBLOCK inum s) in
    let* t := getb bp (fun r => ldshort (b_data r) (dip_off inum)) in
    if t =? 0 then
      setb bp (upd_data (fun m => memset m (dip_off inum) 0 sizeof_dinode));;
      setb bp (upd_data (fun m => st16 m (dip_off inum) type));;
      log_write bp;;
      brelse bp;;
      let* ip := iget dev inum in
      ret (Some ip)
    else brelse bp;; ret None) in
  match r with Some ip => ret ip | None => panic "ialloc: no inodes" end.

Definition iupdate (ip : nat) : M unit :=
  let* s := getsb in
  let* r := getino ip (fun r => r) in
  let* bp := bread (i_dev r) (IBLOCK (i_inum r) s) in
  setb bp (upd_data (fun m => dinode_put m (dip_off (i_inum r)) r));;
  log_write bp;;
  brelse bp.

Definition ilock (ip : option nat) : M unit :=
  match ip with
  | None => panic "ilock"
  | Some ip =>
      let* c := getino ip i_ref in
      if c <? 1 then panic "ilock" else
      acquiresleep (SL_inode ip);;
      let* v := getino ip i_valid in
      if v =? 0 then
        let* s := getsb in
        let* dev := getino ip i_dev in
        let* inum := getino ip i_inum in
        let* bp := bread dev (IBLOCK inum s) in
        let* m := getb bp b_data in
        setino ip (dinode_get m (dip_off inum));;
        brelse bp;;
        setino ip (set_i_valid 1);;
        let* t := getino ip i_type in
        if t =? 0 then panic "ilock: no type" else ret tt
      else ret tt
  end.

Definition iunlock (ip : option nat) : M unit :=
  match ip with
  | None => panic "iunlock"
  | Some ip =>
      let* h := holdingsleep (SL_inode ip) in
      if negb h then panic "iunlock" else
      let* c := getino ip i_ref in
      if c <? 1 then panic "iunlock" else
      releasesleep (SL_inode ip)
  end.

Definition itrunc (ip : nat) : M unit :=
  forM (upto NDIRECT) (fun i =>
    let* a := getino ip (fun r => i_addrs r i) in
    let* dev := getino ip i_dev in
    when (negb (a =? 0))
      (bfree dev a;;
       setino ip (fun r => set_i_addrs (i_addrs r).[i := 0] r)));;
  let* a := getino ip (fun r => i_addrs r NDIRECT) in
  let* dev := getino ip i_dev in
  when (negb (a =? 0))
    (let* bp := bread dev a in
     forM (upto NINDIRECT) (fun j =>
       let* v := getb bp (fun r => ld32 (b_data r) (4 * j)) in
       when (negb (v =? 0)) (bfree dev v));;
     brelse bp;;
     bfree dev a;;
     setino ip (fun r => set_i_addrs (i_addrs r).[NDIRECT := 0] r));;
  setino ip (set_i_size 0);;
  iupdate ip.

Definition iput (ip : nat) : M unit :=
  acquire LK_itable;;
  let* r := getino ip (fun r => r) in
  when ((i_ref r =? 1) && negb (i_valid r =? 0) && (i_nlink r =? 0))
    ((* inode has no links and no other references: truncate and free. *)
     acquiresleep (SL_inode ip);;
     release LK_itable;;
     itrunc ip;;
     setino ip (set_i_type 0);;
     iupdate ip;;
     setino ip (set_i_valid 0);;
     releasesleep (SL_inode ip);;
     acquire LK_itable);;
  setino ip (fun r => set_i_ref (i_ref r - 1) r);;
  release LK_itable.

Definition iunlockput (ip : nat) : M unit :=
  iunlock (Some ip);;
  iput ip.

(** ** Inode content *)

Definition bmap (ip : nat) (bn : Z) : M Z :=
  let* dev := getino ip i_dev in
  if bn <? NDIRECT then
    let* addr := getino ip (fun r => i_addrs r bn) in
    if addr =? 0 then
      let* addr := balloc dev in
      setino ip (fun r => set_i_addrs (i_addrs r).[bn := addr] r);;
      ret addr
    else ret addr
  else
  let bn := bn - NDIRECT in
  if bn <? NINDIRECT then
    (* Load indirect block, allocating if necessary. *)
    let* a0 := getino ip (fun r => i_addrs r NDIRECT) in
    let* addr := (if a0 =? 0 then
                    let* addr := balloc dev in
                    setino ip (fun r => set_i_addrs (i_addrs r).[NDIRECT := addr] r);;
                    ret addr
                  else ret a0) in
    let* bp := bread dev addr in
    let* v := getb bp (fun r => ld32 (b_data r) (4 * bn)) in
    let* addr := (if v =? 0 then
                    let* addr := balloc dev in
                    setb bp (upd_data (fun m => st32 m (4 * bn) addr));;
                    log_write bp;;
                    ret addr
                  else ret v) in
    brelse bp;;
    ret addr
  else panic "bmap: out of range".

(** The fields of struct stat, and its 24 bytes (padding bytes are 0). *)
Definition stati (ip : nat) : M (list Z) :=
  let* r := getino ip (fun r => r) in
  let m := st32 (fun _ => 0) 0 (i_dev r) in
  let m := st32 m 4 (i_inum r) in
  let m := st16 m 8 (i_type r) in
  let m := st16 m 10 (i_nlink r) in
  let m := st64 m 16 (i_size r) in
  ret (peekn m 0 24).

(** The loop of readi(); every iteration but a first and a last one is a whole
    block, which bounds the fuel.  The list is what was copied out. *)
Fixpoint readi_loop (fuel : nat) (ip : nat) (dst : kdst) (off n tot : Z) (acc : list Z) : M (Z * list Z) :=
  match fuel with
  | O => fun _ s => Stop Waiting s
  | S f =>
      if tot <? n then
        let* dev := getino ip i_dev in
        let* addr := bmap ip (off / BSIZE) in
        let* bp := bread dev addr in
        let m := Z.min (n - tot) (BSIZE - off mod BSIZE) in
        let* bs := getb bp (fun r => peekn (b_data r) (off mod BSIZE) (Z.to_nat m)) in
        let* r := either_copyout dst bs in
        if r =? -1 then brelse bp;; ret (-1, acc)
        else brelse bp;; readi_loop f ip (dst_add dst m) (off + m) n (tot + m) (acc ++ bs)
      else ret (tot, acc)
  end.

Definition io_fuel (n : Z) : nat := S (S (S (Z.to_nat (n / BSIZE)))).

Definition readi (ip : nat) (dst : kdst) (off n : Z) : M (Z * list Z) :=
  let* size := getino ip i_size in
  if (off >? size) || (u32 (off + n) <? off) then ret (0, []) else
  let n := if u32 (off + n) >? size then size - off else n in
  readi_loop (io_fuel n) ip dst off n 0 [].

(** The loop of writei(); the result is [tot] and the final [off]. *)
Fixpoint writei_loop (fuel : nat) (ip : nat) (src : ksrc) (off n tot : Z) : M (Z * Z) :=
  match fuel with
  | O => fun _ s => Stop Waiting s
  | S f =>
      if tot <? n then
        let* dev := getino ip i_dev in
        let* addr := bmap ip (off / BSIZE) in
        let* bp := bread dev addr in
        let m := Z.min (n - tot) (BSIZE - off mod BSIZE) in
        let* r := either_copyin src m in
        setb bp (upd_data (fun mm => memput mm (off mod BSIZE) (snd r)));;
        if fst r =? -1 then brelse bp;; ret (tot, off)
        else log_write bp;; brelse bp;; writei_loop f ip (src_add src m) (off + m) n (tot + m)
      else ret (tot, off)
  end.

Definition writei (ip : nat) (src : ksrc) (off n : Z) : M Z :=
  let* size := getino ip i_size in
  if (off >? size) || (u32 (off + n) <? off) then ret (-1) else
  if u32 (off + n) >? MAXFILE * BSIZE then ret (-1) else
  let* r := writei_loop (io_fuel n) ip src off n 0 in
  let '(tot, off) := r in
  let* size := getino ip i_size in
  when (off >? size) (setino ip (set_i_size off));;
  iupdate ip;;
  ret tot.

(** ** Directories *)

(** Offsets of the entries of a directory of [size] bytes. *)
Definition dirent_offs (size : Z) : list Z :=
  map (fun i => i * sizeof_dirent) (upto ((size + sizeof_dirent - 1) / sizeof_dirent)).

Definition de_inum (de : bytes) : Z := ld16 de 0.
Definition de_name (de : bytes) : bytes := fun i => de (2 + i).

(** The inode found and the offset stored to [*poff]. *)
Definition dirlookup (dp : nat) (name : bytes) : M (option (nat * Z)) :=
  let* t := getino dp i_type in
  if negb (t =? T_DIR) then panic "dirlookup not DIR" else
  let* size := getino dp i_size in
  forE (dirent_offs size) (fun off =>
    let* r := readi dp DLocal off sizeof_dirent in
    if negb (fst r =? sizeof_dirent) then panic "dirlookup read" else
    let de := local_bytes (snd r) in
    if de_inum de =? 0 then ret None else
    if namecmp name (de_name de) =? 0 then
      let* dev := getino dp i_dev in
      let* ip := iget dev (de_inum de) in
      ret (Some (ip, off))
    else ret None).

(** The entry written by dirlink(). *)
Definition mk_dirent (name : bytes) (inum : Z) : list Z :=
  let de := strncpy (fun _ => 0) 2 name 0 (Z.to_nat DIRSIZ) in
  peekn (st16 de 0 inum) 0 (Z.to_nat sizeof_dirent).

Definition dirlink (dp : nat) (name : bytes) (inum : Z) : M Z :=
  (* Check that name is not present. *)
  let* r := dirlookup dp name in
  match r with
  | Some (ip, _) => iput ip;; ret (-1)
  | None =>
      (* Look for an empty dirent. *)
      let* size := getino dp i_size in
      let* r := forE (dirent_offs size) (fun off =>
        let* r := readi dp DLocal off sizeof_dirent in
        if negb (fst r =? sizeof_dirent) then panic "dirlink read" else
        if de_inum (local_bytes (snd r)) =? 0 then ret (Some off) else ret None) in
      let off := match r with
                 | Some off => off
                 | None => (size + sizeof_dirent - 1) / sizeof_dirent * sizeof_dirent
                 end in
      let* w := writei dp (SLocal (mk_dirent name inum)) off sizeof_dirent in
      if negb (w =? sizeof_dirent) then panic "dirlink" else ret 0
  end.

(** ** Paths *)

(** Each iteration consumes a path element, so the length of the path bounds the fuel. *)
Fixpoint namex_loop (fuel : nat) (ip : nat) (path : list Z) (nameiparent : bool) (name : bytes)
  : M (option nat * bytes) :=
  match fuel with
  | O => fun _ s => Stop Waiting s
  | S f =>
      match skipelem path name with
      | None => if nameiparent then iput ip;; ret (None, name) else ret (Some ip, name)
      | Some (path, name) =>
          ilock (Some ip);;
          let* t := getino ip i_type in
          if negb (t =? T_DIR) then iunlockput ip;; ret (None, name) else
          if nameiparent && bool_decide (path = []) then
            (* Stop one level early. *)
            iunlock (Some ip);; ret (Some ip, name)
          else
            let* next := dirlookup ip name in
            match next with
            | None => iunlockput ip;; ret (None, name)
            | Some (next, _) => iunlockput ip;; namex_loop f next path nameiparent name
            end
      end
  end.

Definition namex (path : list Z) (nameiparent : bool) (name : bytes) : M (option nat * bytes) :=
  let* ip := (if bool_decide (hd_error path = Some slash) then iget ROOTDEV ROOTINO
              else let* p := myproc_deref in
                   let* cwd := getp p p_cwd in
                   let* cwd := deref cwd in
                   idup cwd) in
  namex_loop (S (length path)) ip path nameiparent name.

Definition namei (path : list Z) : M (option nat) :=
  let* r := namex path false (fun _ => 0) in
  ret (fst r).

Definition nameiparent (path : list Z) (name : bytes) : M (option nat * bytes) :=
  namex path true name.
End Fs.
