(* ===== verification/FsView.v ===== *)
(** * Files as the disk holds them

    The contents of a file read off the blocks of a disk: the block that holds file
    block [k] is found in the addresses of the inode or, from block NDIRECT on, in
    its indirect block.  Both the image builder (MkFsSpec) and the kernel's file
    operations (FsSpec) are specified with these definitions. *)

From S2P Require Import Prelude State CString Bio Log Fs.
Open Scope Z_scope.

(** A disk: the bytes 0 .. BSIZE-1 of every block. *)
Definition disk : Type := Z -> bytes.

(** The dinode of an inode number: 64 bytes. *)
Definition dinode_at (c : disk) (sbk : superblock) (inum : Z) : bytes := fun o => c (IBLOCK inum sbk) (dip_off inum + o).
Definition di_type (di : bytes) : Z := ldshort di 0.
Definition di_nlink (di : bytes) : Z := ldshort di 6.
Definition di_size (di : bytes) : Z := ld32 di 8.
Definition di_addr (di : bytes) (k : Z) : Z := ld32 di (12 + 4 * k).

(** The disk block of file block [k]. *)
Definition fblk (c : disk) (addr : Z -> Z) (k : Z) : Z :=
  if k <? NDIRECT then addr k else ld32 (c (addr NDIRECT)) (4 * (k - NDIRECT)).

Definition fbyte (c : disk) (addr : Z -> Z) (o : Z) : Z := c (fblk c addr (o / BSIZE)) (o mod BSIZE).

(** [n] bytes of the file from offset [off]. *)
Definition fbytes (c : disk) (addr : Z -> Z) (off : Z) (n : nat) : list Z :=
  map (fun i => fbyte c addr (off + Z.of_nat i)) (seq 0 n).

Lemma length_fbytes c addr off n : length (fbytes c addr off n) = n.
Proof. unfold fbytes. by rewrite length_map, length_seq. Qed.

Lemma nth_fbytes c addr off n i : (i < n)%nat -> nth i (fbytes c addr off n) 0 = fbyte c addr (off + Z.of_nat i).
Proof.
  intros Hi. unfold fbytes. rewrite nth_indep with (d' := fbyte c addr (off + Z.of_nat 0)) by by rewrite length_map, length_seq.
  rewrite (map_nth (fun i => fbyte c addr (off + Z.of_nat i))). by rewrite seq_nth.
Qed.

Lemma fbytes_app c addr off n k : fbytes c addr off (n + k) = fbytes c addr off n ++ fbytes c addr (off + Z.of_nat n) k.
Proof.
  unfold fbytes. rewrite seq_app, map_app. f_equal. simpl. rewrite seq_map_add. apply map_ext. intros i. f_equal. lia.
Qed.

Lemma fbytes_ext c c' addr addr' off n :
  (forall o, off <= o < off + Z.of_nat n -> fbyte c addr o = fbyte c' addr' o) -> fbytes c addr off n = fbytes c' addr' off n.
Proof. intros H. apply map_ext_in. intros i Hi%in_seq. apply H. lia. Qed.

(** Only the NDIRECT + 1 addresses of the inode matter. *)
Lemma fblk_agree c a a' k : (forall j, 0 <= j <= NDIRECT -> a j = a' j) -> 0 <= k -> fblk c a k = fblk c a' k.
Proof. intros H Hk. unfold fblk. destruct (Z.ltb_spec k NDIRECT); [apply H; lia|]. by rewrite (H NDIRECT) by (unfold NDIRECT; lia). Qed.

Lemma fbytes_agree c a a' off m : (forall j, 0 <= j <= NDIRECT -> a j = a' j) -> 0 <= off -> fbytes c a off m = fbytes c a' off m.
Proof.
  intros H Ho. apply fbytes_ext. intros o Hoo. unfold fbyte. f_equal. apply fblk_agree; [done|].
  unfold BSIZE. Z.to_euclidean_division_equations. lia.
Qed.

(** ** 32-bit words of a block *)

Lemma ld32_st32 m a v : ld32 (st32 m a v) a = u32 v.
Proof. unfold ld32, st32. by rewrite ldn_stn_eq. Qed.

Lemma ld32_st32_other m a b v : b + 4 <= a \/ a + 4 <= b -> ld32 (st32 m a v) b = ld32 m b.
Proof. apply (ldn_stn_ne 4 4). Qed.

Lemma ld32_ext m m' a a' : (forall i, 0 <= i < 4 -> m (a + i) = m' (a' + i)) -> ld32 m a = ld32 m' a'.
Proof. intros H. apply ldn_ext. intros i Hi. apply H. lia. Qed.

Lemma ld16_ext m m' a a' : (forall i, 0 <= i < 2 -> m (a + i) = m' (a' + i)) -> ld16 m a = ld16 m' a'.
Proof. intros H. apply ldn_ext. intros i Hi. apply H. lia. Qed.

Lemma ld32_zero m a : (forall i, 0 <= i < 4 -> m (a + i) = 0) -> ld32 m a = 0.
Proof. intros H. rewrite (ld32_ext _ (fun _ => 0) _ 0); [done|done]. Qed.

(** The kernel's view of a dinode. *)
Lemma dinode_get_at c sbk inum r :
  let ip := dinode_get (c (IBLOCK inum sbk)) (dip_off inum) r in
  let di := dinode_at c sbk inum in
  i_type ip = di_type di /\ i_nlink ip = di_nlink di /\ i_size ip = di_size di /\
  forall k, 0 <= k <= NDIRECT -> i_addrs ip k = di_addr di k.
Proof.
  unfold dinode_get, di_type, di_nlink, di_size, di_addr, dinode_at, ldshort. cbn [i_type i_nlink i_size i_addrs].
  split_and!; [f_equal; apply ld16_ext; intros; f_equal; lia..|apply ld32_ext; intros; f_equal; lia|].
  intros k Hk. assert (in_range 0 k (NDIRECT + 1) = true) as -> by (apply in_range_spec; lia).
  apply ld32_ext. intros. f_equal. lia.
Qed.
