(* ===== verification/FsSpec.v ===== *)
(** * Reading files

    The read side of fs.c over the buffer cache, specified with the views of FsView:
    [c] is the current content of the blocks (the cache refines it, BioSpec), so it
    includes what an open transaction has written and not yet committed.  bmap()
    finds the blocks of a file and readi() delivers its bytes. *)

From S2P Require Import Prelude State Spinlock CString Kalloc Sched SchedSpec Vm VmSpec ProcMem Wp Sleeplock Bio BioSpec Log Fs FsView.
Open Scope Z_scope.

Ltac wp_extra ::=
  lazymatch goal with
  | |- wp _ _ (getfs _) _ _ => apply wp_getfs
  | |- wp _ _ (setfs _) _ _ => apply wp_modify
  | |- wp _ _ (getb _ _) _ _ => apply wp_getfs
  | |- wp _ _ (setb _ _) _ _ => apply wp_modify
  | |- wp _ _ (getino _ _) _ _ => apply wp_getfs
  | |- wp _ _ (setino _ _) _ _ => apply wp_modify
  | |- wp _ _ getsb _ _ => apply wp_getfs
  end.

(** Only the cache and the scheduling of processes changed, and nothing was written. *)
Definition still (d d' : kdata) : Prop := frame d d' /\ no_write (fs d) (fs d').

Lemma still_refl d : still d d.
Proof. split; [apply frame_refl|done]. Qed.

Lemma still_trans d1 d2 d3 : still d1 d2 -> still d2 d3 -> still d1 d3.
Proof. intros [H1 H2] [H3 H4]. split; [by eapply frame_trans|by eapply no_write_trans]. Qed.

Lemma still_inodes d d' : still d d' -> inodes (fs d') = inodes (fs d).
Proof. by intros (_ & (_ & _ & H & _) & _). Qed.

Lemma still_sb d d' : still d d' -> sb (fs d') = sb (fs d).
Proof. by intros (_ & (_ & H & _ & _) & _). Qed.

Lemma still_pid d d' i : still d d' -> p_pid (procs d' i) = p_pid (procs d i).
Proof. intros [H _]. by apply frame_pid. Qed.

Lemma still_mem d d' : still d d' -> mem d' = mem d /\ syms d' = syms d /\ forall i, p_pagetable (procs d' i) = p_pagetable (procs d i).
Proof.
  intros [[H1 H2] _]. split; [rewrite H2; done|]. split; [rewrite H2; done|].
  intros i. specialize (H1 i). unfold proc_rest in H1. congruence.
Qed.

#[export] Hint Resolve still_refl : kdb.

(** Blocks may be pinned by an open transaction, as long as a buffer stays free. *)
Definition pins_ok (r : Z -> Z) : Prop :=
  (forall bn, r bn + 1 < 2 ^ 32) /\ exists P : list Z, (length P < NBUF)%nat /\ forall bn, r bn <> 0 -> bn ∈ P.

Definition no_buf (_ : Z) : bool := false.

Section Blocks.
Context {D : DiskDriver} (dev pid : Z) (p : nat).
Hypothesis Hp : (p < NPROC)%nat.
Implicit Types (c : disk) (r : Z -> Z) (d : kdata).

(** No buffer is held. *)
Definition fstate d c r : Prop := cache dev pid (fs d) c r no_buf /\ pins_ok r /\ p_pid (procs d p) = pid.

(** Buffer [b] is held for block [bn]. *)
Definition held d c r (b : nat) (bn : Z) : Prop :=
  cache dev pid (fs d) c (r.[bn := r bn + 1]) (no_buf.[bn := true]) /\ blk_of dev (fs d) b bn /\ pins_ok r /\
  p_pid (procs d p) = pid /\ 0 <= r bn /\ (r bn = 0 -> c bn = dblk (fs d) bn).

Lemma wp_bread_held d c r bn Q :
  fstate d c r -> blk_ok bn ->
  (forall b d', still d d' -> held d' c r b bn -> b_data (bufs (fs d') b) = c bn -> Q b [] d') ->
  wp p [] (bread dev bn) d Q.
Proof.
  intros (Hc & Hpin & Hpid) Hok HQ. pose proof Hpin as [Hr (P & HP1 & HP2)].
  eapply wp_bread; [done|done|exact Hc|done|done|apply Hr|right; by exists P|].
  intros b d' Hf Hnw Hst Hc' Hb Hdat _. apply HQ; [by split| |done]. split_and!; try done.
  - by rewrite (frame_pid _ _ _ Hf).
  - apply (ca_range _ _ _ _ _ _ Hc).
  - intros E. destruct Hnw as (_ & -> & _). by apply (ca_clean _ _ _ _ _ _ Hc).
Qed.

Lemma wp_brelse_held d c r b bn Q :
  held d c r b bn -> (forall d', still d d' -> fstate d' c r -> Q tt [] d') -> wp p [] (brelse b) d Q.
Proof.
  intros (Hc & Hb & Hpin & Hpid & Hr & Hcl) HQ. eapply wp_brelse; [done|exact Hc|exact Hb|by rewrite fupd_eq| |].
  - rewrite fupd_eq. intros E. apply Hcl. lia.
  - intros d' Hf Hnw _ Hc' _ _. apply HQ; [by split|]. rewrite !fupd_eq, !fupd_fupd in Hc'.
    replace (r bn + 1 - 1) with (r bn) in Hc' by lia. rewrite fupd_id in Hc'.
    replace (no_buf.[bn := false]) with no_buf in Hc' by (symmetry; apply (fupd_id no_buf)).
    split_and!; [done|done|]. by rewrite (frame_pid _ _ _ Hf).
Qed.

(** ** bmap() *)

(** The first [nb] blocks of a file are allocated. *)
Definition blocks_ok c (addr : Z -> Z) (nb : Z) : Prop :=
  nb <= MAXFILE /\ forall k, 0 <= k < nb ->
    fblk c addr k <> 0 /\ blk_ok (fblk c addr k) /\ (NDIRECT <= k -> addr NDIRECT <> 0 /\ blk_ok (addr NDIRECT)).

Lemma wp_bmap d c r ip nb k Q :
  fstate d c r -> i_dev (inodes (fs d) ip) = dev -> blocks_ok c (i_addrs (inodes (fs d) ip)) nb -> 0 <= k < nb ->
  (forall d', still d d' -> fstate d' c r -> Q (fblk c (i_addrs (inodes (fs d) ip)) k) [] d') ->
  wp p [] (bmap ip k) d Q.
Proof.
  intros Hs Hdev [Hmax Hb] Hk HQ. destruct (Hb k Hk) as (Hnz & Hok & Hind). unfold bmap. wp_run. rewrite Hdev. unfold fblk in *.
  destruct (Z.ltb_spec k NDIRECT) as [Hlt|Hge]; wp_run.
  - rewrite (proj2 (Z.eqb_neq _ _)) by done. wp_run. apply HQ; [apply still_refl|done].
  - change MAXFILE with (NDIRECT + NINDIRECT) in Hmax. destruct Hind as [Hin Hio]; [done|].
    rewrite (proj2 (Z.ltb_lt (k - NDIRECT) NINDIRECT)) by lia. wp_run. rewrite (proj2 (Z.eqb_neq (i_addrs (inodes (fs d) ip) NDIRECT) 0)) by done.
    wp_run. eapply wp_bread_held; [done|done|]. intros b d1 Hs1 Hh Hdat. wp_run. rewrite Hdat, (proj2 (Z.eqb_neq _ _)) by done. wp_run.
    eapply wp_brelse_held; [done|]. intros d2 Hs2 Hf2. wp_run. apply HQ; [by eapply still_trans|done].
Qed.

(** ** readi() *)

(** The bytes of one block are consecutive bytes of the file. *)
Lemma peekn_fbytes c addr off m :
  0 <= off -> off mod BSIZE + Z.of_nat m <= BSIZE -> peekn (c (fblk c addr (off / BSIZE))) (off mod BSIZE) m = fbytes c addr off m.
Proof.
  intros Hoff Hm. unfold peekn, fbytes. apply map_ext_in. intros i Hi%in_seq. unfold fbyte.
  assert ((off + Z.of_nat i) / BSIZE = off / BSIZE) as -> by (unfold BSIZE in *; Z.to_euclidean_division_equations; lia).
  f_equal. unfold BSIZE in *. Z.to_euclidean_division_equations. lia.
Qed.

(** The loop of readi(): [n] bytes from [off]; [I t d] holds when [t] of them are
    delivered, [dst t] is where the next ones go. *)
Section Loop.
Context (c : disk) (r : Z -> Z) (ip : nat) (nd : inode) (off : Z) (n : nat) (dst : nat -> kdst) (I : nat -> kdata -> Prop).
Notation addr := (i_addrs nd).
Hypothesis Hdev : i_dev nd = dev.
Hypothesis Hoff : 0 <= off.
Hypothesis Hblk : blocks_ok c addr ((off + Z.of_nat n - 1) / BSIZE + 1).
Hypothesis Hdst : forall t m, dst_add (dst t) (Z.of_nat m) = dst (t + m)%nat.
Hypothesis HIs : forall t d d', I t d -> still d d' -> I t d'.
Hypothesis HIc : forall t m d Q, I t d -> (t + m <= n)%nat ->
  (forall d', fs d' = fs d -> procs d' = procs d -> I (t + m)%nat d' -> Q 0 [] d') ->
  wp p [] (either_copyout (dst t) (fbytes c addr (off + Z.of_nat t) m)) d Q.

Lemma fstate_ext d d' : fs d' = fs d -> procs d' = procs d -> fstate d c r -> fstate d' c r.
Proof. unfold fstate. by intros -> ->. Qed.

Lemma wp_readi_loop fuel t d acc Q :
  (t <= n)%nat -> ((t < n)%nat -> (off + Z.of_nat n - 1) / BSIZE - (off + Z.of_nat t) / BSIZE + 2 <= Z.of_nat fuel) -> (0 < fuel)%nat ->
  fstate d c r -> inodes (fs d) ip = nd -> I t d ->
  (forall d', fstate d' c r -> no_write (fs d) (fs d') -> I n d' ->
    Q (Z.of_nat n, acc ++ fbytes c addr (off + Z.of_nat t) (n - t)) [] d') ->
  wp p [] (readi_loop fuel ip (dst t) (off + Z.of_nat t) (Z.of_nat n) (Z.of_nat t) acc) d Q.
Proof.
  revert t d acc. induction fuel as [|fuel IH]; intros t d acc Ht Hf Hf0 Hs Hnd HI HQ; [lia|]. cbn [readi_loop].
  destruct (Z.ltb_spec (Z.of_nat t) (Z.of_nat n)) as [Hlt|Hge].
  2: { assert (t = n) as -> by lia. wp_run. specialize (HQ d Hs (no_write_refl _) HI). rewrite Nat.sub_diag in HQ. unfold fbytes in HQ. simpl in HQ. by rewrite app_nil_r in HQ. }
  specialize (Hf ltac:(lia)). set (o := off + Z.of_nat t) in *. set (m := Z.to_nat (Z.min (Z.of_nat n - Z.of_nat t) (BSIZE - o mod BSIZE))).
  assert (0 < m /\ t + m <= n)%nat as [Hm0 Hm] by (unfold m, BSIZE in *; Z.to_euclidean_division_equations; lia).
  assert (Z.min (Z.of_nat n - Z.of_nat t) (BSIZE - o mod BSIZE) = Z.of_nat m) as -> by (unfold m, BSIZE in *; Z.to_euclidean_division_equations; lia).
  wp_run. eapply (wp_bmap d c r ip _ (o / BSIZE)); [done|by rewrite Hnd|by rewrite Hnd|unfold o, BSIZE in *; Z.to_euclidean_division_equations; lia|].
  rewrite Hnd. intros d1 Hs1 Hf1. wp_run. rewrite Hdev.
  destruct Hblk as [Hmax Hb]. destruct (Hb (o / BSIZE)) as (_ & Hok & _); [unfold o, BSIZE in *; Z.to_euclidean_division_equations; lia|].
  eapply wp_bread_held; [done|done|]. intros b d2 Hs2 Hh Hdat. wp_run. rewrite Hdat, peekn_fbytes by (unfold m, BSIZE in *; Z.to_euclidean_division_equations; lia).
  apply (HIc t m); [by eapply HIs; [|eapply still_trans]|done|]. intros d3 Hfs3 Hpr3 HI3. change (0 =? -1) with false. cbv iota. wp_run.
  eapply (wp_brelse_held d3 c r b); [by unfold held in *; rewrite Hfs3, Hpr3|]. intros d4 Hs4 Hf4.
  rewrite Hdst. replace (o + Z.of_nat m) with (off + Z.of_nat (t + m)) by lia. replace (Z.of_nat t + Z.of_nat m) with (Z.of_nat (t + m)) by lia.
  assert (no_write (fs d) (fs d4)) as Hnw.
  { eapply no_write_trans; [apply (still_trans _ _ _ Hs1 Hs2)|]. rewrite <- Hfs3. apply Hs4. }
  apply IH; [lia| | |done| |by eapply HIs|].
  - intros Hmore. unfold m, o, BSIZE in *. clear -Hf Hlt Hoff Hmore. Z.to_euclidean_division_equations. lia.
  - unfold o, BSIZE in *. clear -Hf Hlt Hoff. Z.to_euclidean_division_equations. lia.
  - destruct Hnw as ((_ & _ & -> & _) & _). done.
  - intros d5 Hf5 Hnw5 HI5. rewrite <- app_assoc. replace (n - (t + m))%nat with ((n - t) - m)%nat by lia. replace (off + Z.of_nat (t + m)) with (o + Z.of_nat m) by lia. rewrite <- fbytes_app.
    replace (m + (n - t - m))%nat with (n - t)%nat by lia. apply HQ; [done|by eapply no_write_trans|done].
Qed.
End Loop.

(** What readi() delivers: the part of the request that lies in the file. *)
Definition rd_len (size off : Z) (n : nat) : nat := if Z.of_nat n + off >? size then Z.to_nat (size - off) else n.

Lemma wp_readi c r ip nd off n dst (I : nat -> kdata -> Prop) d Q :
  i_dev nd = dev -> 0 <= off <= i_size nd -> off + Z.of_nat n < 2 ^ 32 ->
  blocks_ok c (i_addrs nd) ((off + Z.of_nat (rd_len (i_size nd) off n) - 1) / BSIZE + 1) ->
  (forall t m, dst_add (dst t) (Z.of_nat m) = dst (t + m)%nat) ->
  (forall t d d', I t d -> still d d' -> I t d') ->
  (forall t m d Q, I t d -> (t + m <= rd_len (i_size nd) off n)%nat ->
    (forall d', fs d' = fs d -> procs d' = procs d -> I (t + m)%nat d' -> Q 0 [] d') ->
    wp p [] (either_copyout (dst t) (fbytes c (i_addrs nd) (off + Z.of_nat t) m)) d Q) ->
  fstate d c r -> inodes (fs d) ip = nd -> I 0%nat d ->
  (forall d', fstate d' c r -> no_write (fs d) (fs d') -> I (rd_len (i_size nd) off n) d' ->
    Q (Z.of_nat (rd_len (i_size nd) off n), fbytes c (i_addrs nd) off (rd_len (i_size nd) off n)) [] d') ->
  wp p [] (readi ip (dst 0%nat) off (Z.of_nat n)) d Q.
Proof.
  intros Hdev Hoff Hn Hblk Hdst HIs HIc Hs Hnd HI HQ. unfold readi. wp_run. rewrite Hnd. rewrite !u32_small by lia.
  rewrite !Z.gtb_ltb, (proj2 (Z.ltb_ge (i_size nd) off)), (proj2 (Z.ltb_ge (off + Z.of_nat n) off)) by lia. cbn [orb].
  set (k := rd_len (i_size nd) off n) in *.
  assert ((if i_size nd <? off + Z.of_nat n then i_size nd - off else Z.of_nat n) = Z.of_nat k) as ->.
  { unfold k, rd_len. rewrite Z.gtb_ltb, (Z.add_comm (Z.of_nat n) off). destruct (Z.ltb_spec (i_size nd) (off + Z.of_nat n)); lia. }
  replace (readi_loop (io_fuel (Z.of_nat k)) ip (dst 0%nat) off (Z.of_nat k) 0 []) with
    (readi_loop (io_fuel (Z.of_nat k)) ip (dst 0%nat) (off + Z.of_nat 0) (Z.of_nat k) (Z.of_nat 0) []) by (f_equal; lia).
  eapply (wp_readi_loop c r ip nd off k dst I); try done; try lia.
  - intros _. unfold io_fuel. unfold BSIZE. Z.to_euclidean_division_equations. lia.
  - unfold io_fuel. lia.
  - intros d' H1 H2 H3. rewrite Nat.sub_0_r, Z.add_0_r. by apply HQ.
Qed.

(** Into a local variable of the caller. *)
Lemma wp_readi_local c r ip nd off n d Q :
  i_dev nd = dev -> 0 <= off <= i_size nd -> off + Z.of_nat n < 2 ^ 32 ->
  blocks_ok c (i_addrs nd) ((off + Z.of_nat (rd_len (i_size nd) off n) - 1) / BSIZE + 1) ->
  fstate d c r -> inodes (fs d) ip = nd ->
  (forall d', still d d' -> fstate d' c r ->
    Q (Z.of_nat (rd_len (i_size nd) off n), fbytes c (i_addrs nd) off (rd_len (i_size nd) off n)) [] d') ->
  wp p [] (readi ip DLocal off (Z.of_nat n)) d Q.
Proof.
  intros Hdev Hoff Hn Hblk Hs Hnd HQ. apply (wp_readi c r ip nd off n (fun _ => DLocal) (fun _ d' => still d d') d); try done.
  - intros ? ? ? ? ?. by eapply still_trans.
  - intros t m d1 Q' Hs1 _ HQ'. unfold either_copyout. wp_run. by apply HQ'.
  - apply still_refl.
  - intros d' H1 _ H3. by apply HQ.
Qed.
End Blocks.

(** ** Into user memory *)

(** The bytes [L] are at [va], and no other byte and no mapping has changed. *)
Record ufilled (d : kdata) (root : Z) (tab : tables) (va : Z) (L : list Z) (d' : kdata) : Prop := {
  uf_space : uspace_ok d' root tab;
  uf_pte : forall x, pte_of (mem d') root x = pte_of (mem d) root x;
  uf_bytes : forall j, (j < length L)%nat -> mem d' (uphys (mem d) root (va + Z.of_nat j)) = nth j L 0;
  uf_rest : forall y, 0 <= y -> umapped (mem d) root y = true -> ~ in_copy va (Z.of_nat (length L)) y ->
    mem d' (uphys (mem d) root y) = mem d (uphys (mem d) root y);
}.

(** copyout() of more bytes behind [L]. *)
Lemma wp_copyout_more p d0 root tab va L bs d Q :
  0 <= va -> va + Z.of_nat (length L + length bs) <= 2 ^ 64 ->
  (forall x, va <= x < va + Z.of_nat (length L + length bs) -> umapped (mem d0) root x = true) ->
  ufilled d0 root tab va L d ->
  (forall d', d' = set_mem (mem d') (set_freelist (freelist d') d) -> ufilled d0 root tab va (L ++ bs) d' -> Q 0 [] d') ->
  wp p [] (copyout root (u64 (va + Z.of_nat (length L))) bs) d Q.
Proof.
  intros Hva Hmax Hmap [Hu Hpte Hby Hre] HQ m0 m e Hq Hs. unfold copyout.
  assert (forall y, uphys (mem d) root y = uphys (mem d0) root y) as Hup by (intros; unfold uphys; by rewrite Hpte).
  assert (forall y, umapped (mem d) root y = umapped (mem d0) root y) as Hum by (intros; unfold umapped; by rewrite Hpte).
  destruct bs as [|b0 bs0] eqn:Ebs.
  { exists 0, [], m, d. split; [done|]. split; [done|]. apply HQ; [by destruct d|]. rewrite app_nil_r. by split. }
  rewrite <- Ebs in *. assert (0 < Z.of_nat (length bs)) as Hl by (rewrite Ebs; simpl; lia). rewrite u64_small by lia.
  destruct (copyout_loop_spec (S (length bs)) root tab (va + Z.of_nat (length L)) bs e m d) as (res & d' & E & Hop & H & Hoth); [lia|lia|done|].
  rewrite E. exists res, [], m, d'. split; [done|]. split; [done|].
  destruct (uspace_ok_frame d d' root tab Hu) as [Hu' Hpte'].
  { eapply only_pages_mono; [|exact Hop]. intros q (x & Hx & Hmx & ->). unfold in_copy in Hx.
    destruct (us_frame _ _ _ Hu x) as [Hpg Hn]; [lia|done|]. split; [done|apply Hpg]. }
  unfold in_copy in *. destruct H as [(-> & _ & Hb)|(_ & x & Hx & Hm)]; [|rewrite Hum, Hmap in Hm by lia; done].
  apply HQ; [by destruct Hop|]. split; [done|intros; by rewrite Hpte'|..].
  - intros j Hj. rewrite length_app in Hj. rewrite <- Hup. destruct (decide (j < length L)%nat) as [Hlt|Hge].
    + rewrite app_nth1, Hoth; [rewrite Hup; by apply Hby|lia|rewrite Hum; apply Hmap; lia|lia|done].
    + rewrite app_nth2 by lia. specialize (Hb (Z.of_nat j - Z.of_nat (length L)) ltac:(lia)).
      replace (va + Z.of_nat (length L) + (Z.of_nat j - Z.of_nat (length L))) with (va + Z.of_nat j) in Hb by lia. rewrite Hb. f_equal. lia.
  - intros y Hy Hmy Hny. unfold in_copy in *. rewrite length_app in Hny. rewrite <- Hup, Hoth; [rewrite Hup; apply Hre; [done|done|unfold in_copy; lia]|done|by rewrite Hum|lia].
Qed.

Lemma rd_len_past size off n : size < off -> rd_len size off n = 0%nat.
Proof. intros H. unfold rd_len. rewrite Z.gtb_ltb, (proj2 (Z.ltb_lt _ _)) by lia. lia. Qed.

(** C28: readi() delivers the bytes of the file: asked for [n] bytes at [off], with the
    blocks of the file allocated and the user addresses mapped, it returns without
    waiting, whatever the schedule, the number of the bytes asked for that lie before
    the end of the file, and these bytes of the file, found through the direct
    addresses and the indirect block, are at the user address; no other user byte, no
    block, inode or reference count changes and nothing is written to the disk. *)
Theorem readi_reads {D : DiskDriver} dev p m e ip c r va off n d tab :
  let nd := inodes (fs d) ip in
  let root := p_pagetable (procs d p) in
  let k := rd_len (i_size nd) off n in
  quiet p m -> (p < NPROC)%nat -> fstate dev (p_pid (procs d p)) p d c r -> i_dev nd = dev ->
  0 <= off -> off + Z.of_nat n < 2 ^ 32 -> blocks_ok c (i_addrs nd) ((off + Z.of_nat k - 1) / BSIZE + 1) ->
  uspace_ok d root tab -> 0 <= va -> va + Z.of_nat k < 2 ^ 64 ->
  (forall x, va <= x < va + Z.of_nat k -> umapped (mem d) root x = true) ->
  exists m' d', readi ip (DUser va) off (Z.of_nat n) e (mkK m d) = Ret (Z.of_nat k, fbytes c (i_addrs nd) off k) e (mkK m' d') /\
    msame m m' /\ ufilled d root tab va (fbytes c (i_addrs nd) off k) d' /\
    fstate dev (p_pid (procs d p)) p d' c r /\ no_write (fs d) (fs d').
Proof.
  intros nd root k Hq Hp Hs Hdev Hoff Hn Hblk Hu Hva Hmax Hmap.
  assert (wp p [] (readi ip (DUser va) off (Z.of_nat n)) d (fun a hl d' => hl = [] /\ a = (Z.of_nat k, fbytes c (i_addrs nd) off k) /\
    ufilled d root tab va (fbytes c (i_addrs nd) off k) d' /\ fstate dev (p_pid (procs d p)) p d' c r /\ no_write (fs d) (fs d'))) as H.
  { assert (ufilled d root tab va [] d) as H0 by (split; [done|done|simpl; lia|done]).
    destruct (decide (i_size nd < off)) as [Hpast|Hin].
    { unfold readi. wp_run. fold nd. rewrite Z.gtb_ltb, (proj2 (Z.ltb_lt (i_size nd) off)) by done. cbn [orb]. wp_run.
      unfold k. rewrite rd_len_past by done. split_and!; done. }
    assert (DUser va = DUser (u64 (va + Z.of_nat 0))) as E0 by (rewrite Z.add_0_r, u64_small by lia; done). rewrite E0.
    set (F t := fbytes c (i_addrs nd) off t).
    eapply (wp_readi dev _ p Hp c r ip nd off n (fun t => DUser (u64 (va + Z.of_nat t)))
      (fun t d' => p_pagetable (procs d' p) = root /\ ufilled d root tab va (F t) d')); try done; try lia.
    - intros t l. cbn [dst_add]. unfold u64. rewrite Zplus_mod_idemp_l. do 2 f_equal. lia.
    - intros t d1 d2 [Hpt [U1 U2 U3 U4]] Hst. destruct (still_mem _ _ Hst) as (Em & Es & Ep). rewrite Ep. split; [done|].
      split; rewrite ?Em; try done. by eapply uspace_ok_ext.
    - intros t l d1 Q [Hpt Huf] Hl HQ. unfold either_copyout. wp_run. cbn [deref]. wp_run. rewrite Hpt.
      pose proof (length_fbytes c (i_addrs nd) off t) as Lt. fold (F t) in Lt. rewrite <- Lt at 1. fold k in Hl.
      eapply (wp_copyout_more p d root tab va (F t)); [done|rewrite Lt, length_fbytes; lia|rewrite Lt, length_fbytes; intros; apply Hmap; lia|done|].
      intros d2 E Huf2. apply HQ; [by rewrite E|by rewrite E|]. unfold F in *. rewrite <- fbytes_app in Huf2. split; [by rewrite E|done].
    - intros d' H1 H2 [_ H3]. done. }
  destruct (H m m e Hq (msame_refl _)) as (a & hl & m' & d' & E & S & -> & -> & H1 & H2 & H3). by exists m', d'.
Qed.

(** ** A concrete disk, an empty cache *)

Definition bufs_e (i : nat) : buf := mkBuf 0 0 0 0 0 (if decide (i = 0%nat) then 30 else pred i) (if decide (i = 30%nat) then 0 else S i)%nat (fun _ => 0).
Definition sb_e : superblock := mkSuperblock FSMAGIC 1000 954 200 30 2 32 45.
Definition fs_e (c : disk) : fsdata := set_sb sb_e (set_dblk c (set_bufs bufs_e fs0)).

Lemma cache_e c : cache (D := sync_driver) 1 7 (fs_e c) c (fun _ => 0) no_buf.
Proof.
  apply (cache_empty (D := sync_driver) 1 7 (fs_e c)); [|exact I|done]. exists (seq 0 NBUF). split; [done|]. vm_compute. tauto.
Qed.

Lemma pins_none : pins_ok (fun _ => 0).
Proof. split; [intros; lia|]. exists []. split; [unfold NBUF; simpl; lia|done]. Qed.

(** Inode 2 has two blocks, 50 and 51, and 1027 bytes. *)
Definition disk_r : disk := (fun _ _ => 0).[50 := fun o => o mod 256].[51 := fun o => 200 + o].
Definition ino_r : inode := mkInode 1 2 1 1 T_FILE 0 0 1 1027 ((fun _ => 0).[0 := 50].[1 := 51]).
Definition kdata_r : kdata :=
  set_fs (set_inodes (fun _ => ino_r) (fs_e disk_r)) (upd_proc 1 (set_p_pid 7) (upd_proc 1 (set_p_pagetable Rt) dD)).

Lemma fstate_r : fstate (D := sync_driver) 1 7 1 kdata_r disk_r (fun _ => 0).
Proof.
  split_and!; [|apply pins_none|done]. pose proof (cache_e disk_r) as [C1 C2 C3 C4 C5 C6 C7 C8 C9 C10 C11 C12 C13]. by split.
Qed.

Lemma blocks_r : blocks_ok disk_r (i_addrs ino_r) 2.
Proof.
  split; [by vm_compute|]. intros k Hk. assert (k = 0 \/ k = 1) as [->| ->] by lia; (split; [by vm_compute|split; [by vm_compute|intros H; by vm_compute in H]]).
Qed.

Lemma readi_reads_witness :
  exists m' d', readi (D := sync_driver) 0 (DUser 5) 1022 9 [] (mkK machine1 kdata_r) = Ret (5, [254; 255; 200; 201; 202]) [] (mkK m' d') /\
    mem d' (uphys (mem dD) Rt 7) = 200.
Proof.
  destruct (readi_reads (D := sync_driver) 1 1 machine1 [] 0 disk_r (fun _ => 0) 5 1022 9 kdata_r tabC) as (m' & d' & H1 & _ & [_ _ Hb _] & _).
  - apply quiet1.
  - unfold NPROC. lia.
  - apply fstate_r.
  - done.
  - lia.
  - lia.
  - apply blocks_r.
  - eapply uspace_ok_ext; [..|exact uspace_ok_D]; done.
  - lia.
  - done.
  - intros x Hx. apply umapped_D0. change (rd_len _ 1022 9) with 5%nat in Hx. lia.
  - exists m', d'. split; [exact H1|]. exact (Hb 2%nat ltac:(vm_compute; lia)).
Defined.
