(* ===== verification/NameSpec.v ===== *)
(** * Inodes in memory, directories and path names

    [itab x c R hk]: the inode table of the kernel holds [R n] references to inode
    [n] of the device, a loaded entry agrees with the dinode on disk, and the caller
    holds the locks of the inodes [hk].  iget, idup, ilock, iunlock and iput act on
    [R] and [hk]; dirlookup() finds the entry a directory has on disk, and namei()
    walks a path through the directories. *)

From S2P Require Import Prelude State Spinlock CString Kalloc Sched SchedSpec Vm VmSpec ProcMem Wp Sleeplock Bio BioSpec Log Fs FsView FsSpec.
Open Scope Z_scope.

(** ** The directory tree on disk *)

Definition dtype (c : disk) (s : superblock) (n : Z) : Z := di_type (dinode_at c s n).
Definition dsize (c : disk) (s : superblock) (n : Z) : Z := di_size (dinode_at c s n).
Definition daddr (c : disk) (s : superblock) (n : Z) : Z -> Z := di_addr (dinode_at c s n).

(** The entry at [off] of directory [n]. *)
Definition dent (c : disk) (s : superblock) (n off : Z) : bytes := local_bytes (fbytes c (daddr c s n) off 16).

(** The first entry in use with this name: the inode number and the offset. *)
Fixpoint find_entry (c : disk) (s : superblock) (n : Z) (name : bytes) (offs : list Z) : option (Z * Z) :=
  match offs with
  | [] => None
  | off :: offs =>
      let de := dent c s n off in
      if negb (de_inum de =? 0) && (namecmp name (de_name de) =? 0) then Some (de_inum de, off)
      else find_entry c s n name offs
  end.
Definition dir_find (c : disk) (s : superblock) (n : Z) (name : bytes) : option (Z * Z) :=
  find_entry c s n name (dirent_offs (dsize c s n)).

(** The elements of a path. *)
Fixpoint elems_from (cur : list Z) (path : list Z) : list (list Z) :=
  match path with
  | [] => if decide (cur = []) then [] else [cur]
  | ch :: path => if ch =? slash then (if decide (cur = []) then elems_from [] path else cur :: elems_from [] path)
                  else elems_from (cur ++ [ch]) path
  end.
Definition elems (path : list Z) : list (list Z) := elems_from [] path.

(** The inode a path leads to from directory [n]. *)
Fixpoint lookup_path (c : disk) (s : superblock) (n : Z) (es : list (list Z)) : option Z :=
  match es with
  | [] => Some n
  | e :: es =>
      if dtype c s n =? T_DIR then
        match dir_find c s n (local_bytes e) with
        | Some (n', _) => lookup_path c s n' es
        | None => None
        end
      else None
  end.

(** The directory that is to hold the last element. *)
Fixpoint lookup_parent (c : disk) (s : superblock) (n : Z) (es : list (list Z)) : option Z :=
  match es with
  | [] => None
  | [_] => if dtype c s n =? T_DIR then Some n else None
  | e :: es =>
      if dtype c s n =? T_DIR then
        match dir_find c s n (local_bytes e) with
        | Some (n', _) => lookup_parent c s n' es
        | None => None
        end
      else None
  end.

(** A file system the kernel can walk: the inodes [V] are in use, and directories
    have all their blocks and lead to inodes of [V]. *)
Record tree_ok (c : disk) (s : superblock) (V : Z -> Prop) : Prop := {
  tr_block : forall n, V n -> blk_ok (IBLOCK n s);
  tr_type : forall n, V n -> dtype c s n <> 0;
  tr_link : forall n, V n -> di_nlink (dinode_at c s n) <> 0;
  tr_size : forall n, V n -> dtype c s n = T_DIR -> 0 <= dsize c s n < 2 ^ 31 /\ dsize c s n mod 16 = 0;
  tr_data : forall n, V n -> dtype c s n = T_DIR -> blocks_ok c (daddr c s n) ((dsize c s n - 1) / BSIZE + 1);
  tr_next : forall n off, V n -> dtype c s n = T_DIR -> off ∈ dirent_offs (dsize c s n) ->
    de_inum (dent c s n off) <> 0 -> V (de_inum (dent c s n off));
}.

(** ** Path elements: skipelem() *)

(** A name buffer that holds the element [e], cut at DIRSIZ. *)
Definition name_is (name : bytes) (e : list Z) : Prop := forall t, namecmp name t = namecmp (local_bytes e) t.

Lemma strncmp_cut m m' q b n :
  forall p, (forall i, 0 <= i < Z.of_nat n -> (forall j, 0 <= j < i -> m (p + j) <> 0) -> m (p + i) = m' (p + i)) ->
  strncmp m b p q n = strncmp m' b p q n.
Proof.
  revert q. induction n as [|n IH]; intros q p H; [done|]. cbn [strncmp].
  assert (m p = m' p) as E. { specialize (H 0 ltac:(lia)). rewrite Z.add_0_r in H. apply H. lia. }
  rewrite <- E. destruct (Z.eqb_spec (m p) 0) as [Hz|Hz]; [done|]. cbn [negb andb]. destruct (m p =? b q); [|done].
  apply IH. intros i Hi Hj. replace (p + 1 + i) with (p + (i + 1)) by lia. apply H; [lia|].
  intros j Hjj. destruct (decide (j = 0)) as [->|]; [by rewrite Z.add_0_r|]. replace (p + j) with (p + 1 + (j - 1)) by lia. apply Hj. lia.
Qed.

Lemma local_bytes_nth l i : 0 <= i -> local_bytes l i = nth (Z.to_nat i) l 0.
Proof.
  intros Hi. unfold local_bytes, memput. case_range; [f_equal; lia|]. symmetry. apply nth_overflow. lia.
Qed.

Lemma take_elem_spec path : let '(e, rest) := take_elem path in
  path = e ++ rest /\ slash ∉ e /\ (rest = [] \/ exists r, rest = slash :: r).
Proof.
  induction path as [|ch path IH]; simpl; [split_and!; [done|set_solver|by left]|].
  destruct (Z.eqb_spec ch slash) as [->|Hne].
  - split_and!; [done|set_solver|right; by eexists].
  - destruct (take_elem path) as [e rest]. destruct IH as (-> & H2 & H3). split_and!; [done|set_solver|done].
Qed.

Lemma elems_skip path : elems (skip_slashes path) = elems path.
Proof. unfold elems. induction path as [|ch path IH]; [done|]. cbn [skip_slashes]. destruct (ch =? slash) eqn:E; [|done]. cbn [elems_from]. by rewrite E, IH, decide_True. Qed.

Lemma elems_from_app cur e path : slash ∉ e -> elems_from cur (e ++ path) = elems_from (cur ++ e) path.
Proof.
  revert cur. induction e as [|ch e IH]; intros cur H; cbn [app]; [by rewrite app_nil_r|]. apply not_elem_of_cons in H as [H1 H2].
  cbn [elems_from]. rewrite (proj2 (Z.eqb_neq _ _)) by congruence. rewrite IH by done. by rewrite <- app_assoc.
Qed.

Lemma skip_slashes_head path ch p : skip_slashes path = ch :: p -> ch <> slash /\ (length (ch :: p) <= length path)%nat.
Proof.
  induction path as [|x path IH]; [done|]. cbn [skip_slashes]. destruct (Z.eqb_spec x slash) as [->|Hne].
  - intros H. destruct (IH H). simpl in *. split; [done|lia].
  - intros [= -> ->]. done.
Qed.

Lemma skip_slashes_len path : (length (skip_slashes path) <= length path)%nat.
Proof. induction path as [|ch path IH]; simpl; [done|]. destruct (ch =? slash); simpl; lia. Qed.

Lemma elems_from_ne path cur : cur <> [] -> elems_from cur path <> [].
Proof.
  revert cur. induction path as [|ch path IH]; intros cur H; cbn [elems_from]; [by rewrite decide_False|].
  destruct (ch =? slash); [by rewrite decide_False|]. apply IH. by destruct cur.
Qed.

(** skipelem() takes the first element off the path. *)
Lemma skipelem_spec path name :
  match skipelem path name with
  | None => elems path = []
  | Some (path', name') => exists e, elems path = e :: elems path' /\ name_is name' e /\ (length path' < length path)%nat /\
      (path' = [] <-> elems path' = [])
  end.
Proof.
  unfold skipelem. destruct (skip_slashes path) as [|ch q] eqn:Eq; [by rewrite <- elems_skip, Eq|].
  destruct (skip_slashes_head _ _ _ Eq) as [Hch Hlen]. set (path1 := ch :: q) in *. pose proof (take_elem_spec path1) as Ht.
  destruct (take_elem path1) as [e rest] eqn:Et. destruct Ht as (Hp & He & Hr). exists e.
  assert (e <> []) as Hne.
  { intros ->. simpl in Hp. destruct Hr as [->|[r ->]]; unfold path1 in Hp; congruence. }
  split_and!.
  - rewrite <- elems_skip, Eq. fold path1. rewrite elems_skip, Hp. unfold elems. rewrite elems_from_app by done. cbn [app].
    destruct Hr as [->|[r ->]]; cbn [elems_from]; [by rewrite decide_False|]. rewrite Z.eqb_refl, decide_False by done. by rewrite decide_True.
  - intros t. unfold namecmp, DIRSIZ. apply strncmp_cut. intros i Hi Hj. rewrite !Z.add_0_l in *. rewrite local_bytes_nth by lia.
    unfold DIRSIZ. destruct (Z.geb_spec (Z.of_nat (length e)) 14) as [Hge|Hlt].
    + rewrite memput_in by (rewrite length_take; lia). rewrite Z.sub_0_r. apply nth_take_lt. lia.
    + destruct (Z.lt_total i (Z.of_nat (length e))) as [Hil|[->|Hig]].
      * rewrite fupd_ne by lia. rewrite memput_in by lia. by rewrite Z.sub_0_r.
      * rewrite fupd_eq. symmetry. apply nth_overflow. lia.
      * destruct (Hj (Z.of_nat (length e))); [lia|]. apply fupd_eq.
  - assert (length path1 = length e + length rest)%nat by by rewrite Hp, length_app. destruct e; [done|]. pose proof (skip_slashes_len rest). simpl in *. lia.
  - split; [by intros ->|]. destruct (skip_slashes rest) as [|ch' q'] eqn:Er; [done|]. destruct (skip_slashes_head _ _ _ Er) as [Hch' _].
    unfold elems. cbn [elems_from app]. rewrite (proj2 (Z.eqb_neq _ _)) by done. intros E. by destruct (elems_from_ne q' [ch']).
Qed.

(** ** Directory blocks *)

Lemma blocks_ok_agree c a a' nb : (forall j, 0 <= j <= NDIRECT -> a j = a' j) -> blocks_ok c a nb -> blocks_ok c a' nb.
Proof.
  intros H [H1 H2]. split; [done|]. intros k Hk. rewrite <- (fblk_agree c a a') by (done || lia).
  rewrite <- (H NDIRECT) by (unfold NDIRECT; lia). by apply H2.
Qed.

Lemma blocks_ok_mono c a nb nb' : nb' <= nb -> blocks_ok c a nb -> blocks_ok c a nb'.
Proof. intros H [H1 H2]. split; [lia|]. intros k Hk. apply H2. lia. Qed.

Lemma dirent_offs_range size off : 0 <= size -> size mod 16 = 0 -> off ∈ dirent_offs size -> 0 <= off /\ off + 16 <= size.
Proof.
  intros H1 H2. unfold dirent_offs, upto, sizeof_dirent. rewrite list_elem_of_In, in_map_iff. intros (k & <- & Hk).
  rewrite in_map_iff in Hk. destruct Hk as (j & <- & Hj%in_seq). Z.to_euclidean_division_equations. lia.
Qed.

Lemma find_entry_name c s n name e l : name_is name e -> find_entry c s n name l = find_entry c s n (local_bytes e) l.
Proof. intros H. induction l as [|off l IH]; [done|]. cbn [find_entry]. by rewrite H, IH. Qed.

(** ** The inode table *)

(** A loaded entry agrees with the dinode on disk. *)
Definition loaded (c : disk) (s : superblock) (nd : inode) : Prop :=
  i_type nd = dtype c s (i_inum nd) /\ i_nlink nd = di_nlink (dinode_at c s (i_inum nd)) /\ i_size nd = dsize c s (i_inum nd) /\
  forall k, 0 <= k <= NDIRECT -> i_addrs nd k = daddr c s (i_inum nd) k.

Section Itab.
Context {D : DiskDriver} (dev pid : Z) (p : nat).
Hypothesis Hp : (p < NPROC)%nat.
Implicit Types (x : fsdata) (c : disk) (r R : Z -> Z) (d : kdata) (hk : Z -> bool) (n : Z) (i : nat).

(** Entry [i] is in use for inode [n]. *)
Definition entry x i n : Prop := (i < NINODE)%nat /\ 0 < i_ref (inodes x i) /\ i_inum (inodes x i) = n.

Record itab x c R hk : Prop := {
  it_pos : forall i, (i < NINODE)%nat -> 0 <= i_ref (inodes x i);
  it_inj : forall i j n, entry x i n -> entry x j n -> i = j;
  it_dev : forall i n, entry x i n -> i_dev (inodes x i) = dev;
  it_ref : forall i n, entry x i n -> i_ref (inodes x i) = R n;
  it_in : forall n, R n <> 0 -> exists i, entry x i n;
  it_valid : forall i n, entry x i n -> i_valid (inodes x i) <> 0 -> loaded c (sb x) (inodes x i);
  it_held : forall n, hk n = true -> R n <> 0;
  it_lock : forall i n, entry x i n -> hk n = true ->
    sl_locked (slocks x (SL_inode i)) <> 0 /\ sl_pid (slocks x (SL_inode i)) = pid /\ i_valid (inodes x i) <> 0;
  it_unlk : forall i, (i < NINODE)%nat -> (entry x i (i_inum (inodes x i)) -> hk (i_inum (inodes x i)) = false) ->
    sl_locked (slocks x (SL_inode i)) = 0;
}.

(** The file system between two operations. *)
Definition istate d c r R hk : Prop := fstate dev pid p d c r /\ itab (fs d) c R hk.

(** What these operations leave alone. *)
Definition calm d d' : Prop :=
  frame d d' /\ logst (fs d') = logst (fs d) /\ sb (fs d') = sb (fs d) /\ dblk (fs d') = dblk (fs d) /\ dwr (fs d') = dwr (fs d).

Lemma calm_refl d : calm d d.
Proof. split; [apply frame_refl|done]. Qed.

Lemma calm_trans d1 d2 d3 : calm d1 d2 -> calm d2 d3 -> calm d1 d3.
Proof. intros (H1 & H2 & H3 & H4 & H5) (G1 & G2 & G3 & G4 & G5). split; [by eapply frame_trans|]. split_and!; congruence. Qed.

Lemma still_calm d d' : still d d' -> calm d d'.
Proof. intros (H1 & (H2 & H3 & _ & _) & H4 & H5). done. Qed.

Lemma calm_fs d x : logst x = logst (fs d) -> sb x = sb (fs d) -> dblk x = dblk (fs d) -> dwr x = dwr (fs d) -> calm d (set_fs x d).
Proof. intros. split; [apply frame_fs|]. done. Qed.

(** The cache does not depend on the inodes and their locks. *)
Lemma cache_ext x x' c r h : bufs x' = bufs x -> vdisk x' = vdisk x -> dblk x' = dblk x ->
  (forall b, slocks x' (SL_buf b) = slocks x (SL_buf b)) -> cache dev pid x c r h -> cache dev pid x' c r h.
Proof.
  intros H1 H2 H3 H4 [C1 C2 C3 C4 C5 C6 C7 C8 C9 C10 C11 C12 C13].
  split; unfold lru, nexts, prevs, blk_of in *; rewrite ?H1, ?H2, ?H3; try done; intros; rewrite ?H4; [by eapply C12|by apply C13].
Qed.

Lemma fstate_ext' d d' c r : bufs (fs d') = bufs (fs d) -> vdisk (fs d') = vdisk (fs d) -> dblk (fs d') = dblk (fs d) ->
  (forall b, slocks (fs d') (SL_buf b) = slocks (fs d) (SL_buf b)) -> frame d d' -> fstate dev pid p d c r -> fstate dev pid p d' c r.
Proof.
  intros H1 H2 H3 H4 Hf (Hc & Hpin & Hpid). split_and!; [by eapply cache_ext|done|]. by rewrite (frame_pid _ _ _ Hf).
Qed.

Lemma itab_still d d' c R hk : still d d' -> itab (fs d) c R hk -> itab (fs d') c R hk.
Proof.
  intros (_ & (_ & E1 & E2 & E3) & _) [T1 T2 T3 T4 T5 T6 T7 T8 T9].
  split; unfold entry in *; rewrite ?E1, ?E2; try done; intros; rewrite ?E3; [by eapply T8|by apply T9].
Qed.

(** Only entry [i] changes, which is or becomes the entry of [n]. *)
Lemma itab_one x x' c R R' hk hk' i n nd :
  itab x c R hk -> (i < NINODE)%nat -> inodes x' = (inodes x).[i := nd] -> sb x' = sb x ->
  (forall j, j <> i -> slocks x' (SL_inode j) = slocks x (SL_inode j)) ->
  (forall n', n' <> n -> R' n' = R n' /\ hk' n' = hk n') ->
  entry x i n \/ (i_ref (inodes x i) = 0 /\ forall j, ~ entry x j n) ->
  i_ref nd = R' n -> 0 <= R' n -> (0 < R' n -> i_inum nd = n /\ i_dev nd = dev) ->
  (0 < R' n -> i_valid nd <> 0 -> loaded c (sb x) nd) ->
  (hk' n = true -> 0 < R' n /\ sl_locked (slocks x' (SL_inode i)) <> 0 /\ sl_pid (slocks x' (SL_inode i)) = pid /\ i_valid nd <> 0) ->
  (hk' n = false -> sl_locked (slocks x' (SL_inode i)) = 0) ->
  itab x' c R' hk'.
Proof.
  intros [T1 T2 T3 T4 T5 T6 T7 T8 T9] Hi Ei Es Hsl Hoth Hent Href Hpos Hn Hval Hlk Hun.
  assert (forall j n', j <> i -> entry x' j n' <-> entry x j n') as Hj by (intros j n' Hne; unfold entry; rewrite Ei, fupd_ne by done; done).
  assert (forall n', entry x' i n' -> n' = n /\ 0 < R' n) as Hi'.
  { intros n' (_ & H1 & H2). rewrite Ei, fupd_eq, Href in *. destruct (Hn H1). split; [congruence|done]. }
  assert (forall j n', j <> i -> entry x j n' -> n' <> n) as Hjn.
  { intros j n' Hne He ->. destruct Hent as [Hent|[_ Hno]]; [by apply Hne, (T2 j i n)|by apply (Hno j)]. }
  assert (forall j, j <> i -> inodes x' j = inodes x j) as Ej by (intros; rewrite Ei; by apply fupd_ne).
  assert (inodes x' i = nd) as Eii by (rewrite Ei; apply fupd_eq).
  split.
  - intros j Hjb. destruct (decide (j = i)) as [->|Hne]; [rewrite Eii; lia|rewrite Ej by done; by apply T1].
  - intros j k n' He1 He2. destruct (decide (j = i)) as [->|Hne], (decide (k = i)) as [->|Hne2]; try done.
    + destruct (Hi' _ He1) as [-> _]. apply Hj in He2; [|done]. by destruct (Hjn k n).
    + destruct (Hi' _ He2) as [-> _]. apply Hj in He1; [|done]. by destruct (Hjn j n).
    + apply Hj in He1, He2; [|done..]. by apply (T2 j k n').
  - intros j n' He. destruct (decide (j = i)) as [->|Hne]; [destruct (Hi' _ He) as [-> H]; rewrite Eii; by apply Hn|].
    rewrite Ej by done. apply (T3 j n'). by apply Hj.
  - intros j n' He. destruct (decide (j = i)) as [->|Hne]; [destruct (Hi' _ He) as [-> H]; by rewrite Eii|].
    apply Hj in He; [|done]. rewrite Ej by done. rewrite (proj1 (Hoth n' (Hjn _ _ Hne He))). by apply T4.
  - intros n' HR. destruct (decide (n' = n)) as [->|Hne].
    + exists i. assert (0 < R' n) as HR0 by lia. destruct (Hn HR0) as [Hin _]. unfold entry. rewrite Eii. split_and!; [done|lia|done].
    + rewrite (proj1 (Hoth n' Hne)) in HR. destruct (T5 n' HR) as [j He]. exists j. destruct (decide (j = i)) as [->|Hji]; [|by apply Hj].
      exfalso. destruct Hent as [(_ & _ & E1)|[E0 _]]; [destruct He as (_ & _ & E2); congruence|]. destruct He as (_ & H & _). lia.
  - intros j n' He. rewrite Es. destruct (decide (j = i)) as [->|Hne]; [destruct (Hi' _ He) as [-> H]; rewrite Eii; by apply Hval|].
    rewrite Ej by done. apply (T6 j n'). by apply Hj.
  - intros n' Hh. destruct (decide (n' = n)) as [->|Hne]; [destruct (Hlk Hh); lia|]. destruct (Hoth n' Hne) as [-> E]. apply T7. congruence.
  - intros j n' He Hh. destruct (decide (j = i)) as [->|Hne].
    + destruct (Hi' _ He) as [-> H]. rewrite Eii. by apply Hlk.
    + apply Hj in He; [|done]. rewrite Ej, Hsl by done. apply (T8 j n' He). by rewrite <- (proj2 (Hoth n' (Hjn _ _ Hne He))).
  - intros j Hjb Hh. destruct (decide (j = i)) as [->|Hne].
    + apply Hun. destruct (hk' n) eqn:E; [|done]. destruct (Hlk eq_refl) as (HR & _). destruct (Hn HR) as [Hin _].
      rewrite <- E. rewrite Eii, Hin in Hh. apply Hh. unfold entry. rewrite Eii. split_and!; [done|lia|done].
    + rewrite Hsl by done. apply T9; [done|]. intros He. rewrite <- (proj2 (Hoth _ (Hjn _ _ Hne He))). rewrite Ej in Hh by done. apply Hh. by apply Hj.
Qed.

(** ** iget() and idup() *)

Lemma iget_scan_spec (ino : nat -> inode) n l em :
  match iget_scan ino dev n l em with
  | inl i => i ∈ l /\ 0 < i_ref (ino i) /\ i_dev (ino i) = dev /\ i_inum (ino i) = n
  | inr em' => (forall i, i ∈ l -> ~ (0 < i_ref (ino i) /\ i_dev (ino i) = dev /\ i_inum (ino i) = n)) /\
      match em' with
      | Some j => em = Some j \/ (j ∈ l /\ i_ref (ino j) = 0)
      | None => em = None /\ forall j, j ∈ l -> i_ref (ino j) <> 0
      end
  end.
Proof.
  revert em. induction l as [|a l IH]; intros em; cbn [iget_scan].
  { split; [intros i Hi; by apply elem_of_nil in Hi|]. destruct em; [by left|split; [done|intros j Hj; by apply elem_of_nil in Hj]]. }
  destruct (_ && _ && _) eqn:E.
  - apply andb_prop in E as [[E1%Z.ltb_lt E2%Z.eqb_eq]%andb_prop E3%Z.eqb_eq]. split; [constructor|done].
  - specialize (IH (if bool_decide (em = None) && (i_ref (ino a) =? 0) then Some a else em)).
    destruct (iget_scan _ _ _ _ _) as [i|em']; [destruct IH; split; [by constructor|done]|]. destruct IH as [H1 H2]. split.
    + intros i [->|Hi]%elem_of_cons; [|by apply H1]. intros (G1 & G2 & G3). apply Z.ltb_lt in G1. apply Z.eqb_eq in G2, G3. by rewrite G1, G2, G3 in E.
    + destruct (bool_decide (em = None) && (i_ref (ino a) =? 0)) eqn:Eb.
      * apply andb_prop in Eb as [Eb1%bool_decide_eq_true Eb2%Z.eqb_eq]. destruct em' as [j|]; [|by destruct H2].
        destruct H2 as [[= ->]|[H2 H3]]; right; split; [constructor|done|by constructor|done].
      * destruct em' as [j|]; [destruct H2 as [->|[H2 H3]]; [by left|right; split; [by constructor|done]]|].
        destruct H2 as [-> H2]. split; [done|]. intros j [->|Hj]%elem_of_cons; [|by apply H2]. rewrite bool_decide_true in Eb by done. by apply Z.eqb_neq in Eb.
Qed.

(** Fewer inodes are referenced than the table has entries. *)
Definition iroom R : Prop := exists P : list Z, (length P < NINODE)%nat /\ forall n, R n <> 0 -> n ∈ P.

Lemma free_inode x c R hk : itab x c R hk -> iroom R -> exists i, (i < NINODE)%nat /\ i_ref (inodes x i) = 0.
Proof.
  intros [T1 T2 T3 T4 T5 _ _ _ _] (P & Hl & HP). destruct (decide (Forall (fun i => i_ref (inodes x i) <> 0) (seq 0 NINODE))) as [Hall|Hn].
  - exfalso. rewrite Forall_forall in Hall.
    assert (forall i, i ∈ seq 0 NINODE -> entry x i (i_inum (inodes x i))) as He.
    { intros i Hi. pose proof (Hall i Hi). apply elem_of_seq in Hi. pose proof (T1 i ltac:(lia)). split_and!; [lia|lia|done]. }
    assert (NoDup ((fun i => i_inum (inodes x i)) <$> seq 0 NINODE)) as Hd.
    { apply NoDup_fmap_2_strong; [|apply NoDup_seq]. intros i j Hi Hj E. apply (T2 i j (i_inum (inodes x i))); [by apply He|]. rewrite E. by apply He. }
    assert (length ((fun i => i_inum (inodes x i)) <$> seq 0 NINODE) <= length P)%nat as Hle.
    { apply submseteq_length, NoDup_submseteq; [done|]. intros n (i & -> & Hi)%list_elem_of_fmap. apply HP.
      rewrite <- (T4 _ _ (He i Hi)). by apply Hall. }
    rewrite length_fmap, length_seq in Hle. lia.
  - apply not_Forall_Exists in Hn; [|apply _]. apply Exists_exists in Hn as (i & Hi & Hr).
    apply elem_of_seq in Hi. exists i. split; [lia|]. by destruct (decide (i_ref (inodes x i) = 0)).
Qed.

(** The entry of a referenced inode changes, in memory and in its lock. *)
Lemma istate_one d d' c r R R' hk hk' i n nd :
  istate d c r R hk -> frame d d' -> (i < NINODE)%nat ->
  (exists sl, fs d' = set_inodes (inodes (fs d)).[i := nd] (set_slocks (slocks (fs d)).[SL_inode i := sl] (fs d)) /\
    (hk' n = true -> 0 < R' n /\ sl_locked sl <> 0 /\ sl_pid sl = pid /\ i_valid nd <> 0) /\ (hk' n = false -> sl_locked sl = 0)) ->
  (forall n', n' <> n -> R' n' = R n' /\ hk' n' = hk n') ->
  entry (fs d) i n \/ (i_ref (inodes (fs d) i) = 0 /\ forall j, ~ entry (fs d) j n) ->
  i_ref nd = R' n -> 0 <= R' n -> (0 < R' n -> i_inum nd = n /\ i_dev nd = dev) ->
  (0 < R' n -> i_valid nd <> 0 -> loaded c (sb (fs d)) nd) ->
  istate d' c r R' hk' /\ calm d d'.
Proof.
  intros [Hf Hi] Hfr Hlt (sl & E & H1 & H2) Hoth Hent Href Hpos Hn Hval. split; [split|].
  - eapply fstate_ext'; [..|exact Hfr|exact Hf]; by rewrite E.
  - eapply (itab_one (fs d) (fs d') c R R' hk hk' i n nd); try done; try (rewrite E; done).
    + intros j Hj. rewrite E. cbn. rewrite fupd_ne by congruence. done.
    + rewrite E. cbn. by rewrite fupd_eq.
    + rewrite E. cbn. by rewrite fupd_eq.
  - split; [done|]. by rewrite E.
Qed.

Lemma itab_lock_free x c R hk i : itab x c R hk -> (i < NINODE)%nat -> i_ref (inodes x i) = 0 -> sl_locked (slocks x (SL_inode i)) = 0.
Proof. intros Ht Hi Hr. apply (it_unlk _ _ _ _ Ht); [done|]. intros (_ & H & _). lia. Qed.

Lemma itab_lock_unheld x c R hk i n : itab x c R hk -> entry x i n -> hk n = false -> sl_locked (slocks x (SL_inode i)) = 0.
Proof. intros Ht He Hh. pose proof He as (Hi & _ & E). apply (it_unlk _ _ _ _ Ht); [done|]. by rewrite E. Qed.

(** The lock of entry [i] for the held or not held inode [n]. *)
Lemma itab_lock_cases x c R hk i n : itab x c R hk -> entry x i n ->
  let sl := slocks x (SL_inode i) in
  (hk n = true -> 0 < R n /\ sl_locked sl <> 0 /\ sl_pid sl = pid /\ i_valid (inodes x i) <> 0) /\ (hk n = false -> sl_locked sl = 0).
Proof.
  intros Ht He. split.
  - intros Hh. split; [rewrite <- (it_ref _ _ _ _ Ht _ _ He); apply He|]. by apply (it_lock _ _ _ _ Ht _ n).
  - intros Hh. by eapply itab_lock_unheld.
Qed.

(** One reference more to the inode of an entry. *)
Lemma istate_bump d c r R hk i n :
  istate d c r R hk -> entry (fs d) i n ->
  let d' := upd_fs (fun x => set_inodes (inodes x).[i := set_i_ref (i_ref (inodes x i) + 1) (inodes x i)] x) d in
  istate d' c r R.[n := R n + 1] hk /\ calm d d' /\ entry (fs d') i n /\ forall j m, entry (fs d) j m -> entry (fs d') j m.
Proof.
  intros [Hf Ht] He d'. pose proof He as (Hi & Hr & En). pose proof (it_ref _ _ _ _ Ht _ _ He) as ER.
  destruct (itab_lock_cases _ _ _ _ _ _ Ht He) as [L1 L2].
  destruct (istate_one d d' c r R R.[n := R n + 1] hk hk i n (set_i_ref (i_ref (inodes (fs d) i) + 1) (inodes (fs d) i))) as [H1 H2]; try done.
  - exists (slocks (fs d) (SL_inode i)). split; [unfold d', upd_fs; cbn; rewrite fupd_id; by destruct (fs d)|].
    split; [|done]. intros Hh. rewrite fupd_eq. destruct (L1 Hh) as (? & ? & ? & ?). split_and!; [lia|done..].
  - intros n' Hne. by rewrite fupd_ne.
  - by left.
  - rewrite fupd_eq. cbn. lia.
  - rewrite fupd_eq. lia.
  - intros _. split; [done|]. by apply (it_dev _ _ _ _ Ht _ n).
  - intros _ Hv. by apply (it_valid _ _ _ _ Ht i n).
  - assert (forall j m, entry (fs d) j m -> entry (fs d') j m) as Hk; [|split_and!; [done|done|by apply Hk|done]].
    intros j m (J1 & J2 & J3). unfold entry, d', fupd. cbn. case_decide; [subst j; cbn; split_and!; [done|lia|done]|done].
Qed.

Lemma wp_iget d c r R hk n Q :
  istate d c r R hk -> iroom R ->
  (forall i d', istate d' c r R.[n := R n + 1] hk -> calm d d' -> entry (fs d') i n -> (forall j m, entry (fs d) j m -> entry (fs d') j m) -> Q i [] d') ->
  wp p [] (iget dev n) d Q.
Proof.
  intros Hs Hroom HQ. pose proof Hs as [Hf Ht]. unfold iget. wp_run.
  pose proof (iget_scan_spec (inodes (fs d)) n all_inodes None) as Hscan. destruct (iget_scan _ _ _ _ _) as [i|em].
  - destruct Hscan as (Hi & H1 & H2 & H3). apply elem_of_seq in Hi. assert (entry (fs d) i n) as He by (split_and!; [lia|done|done]).
    wp_run. destruct (istate_bump d c r R hk i n Hs He) as (G1 & G2 & G3 & G4). by apply HQ.
  - destruct Hscan as [Hno Hem]. assert (forall j, ~ entry (fs d) j n) as Hno'.
    { intros j He. pose proof He as (Hj & Hr & En). apply (Hno j); [apply elem_of_seq; lia|]. split_and!; [done| |done]. by apply (it_dev _ _ _ _ Ht _ n). }
    assert (R n = 0) as HR0 by (destruct (decide (R n = 0)) as [|Hne]; [done|]; destruct (it_in _ _ _ _ Ht n Hne) as [j Hj]; by destruct (Hno' j)).
    destruct em as [i|].
    2: { destruct Hem as [_ Hem]. destruct (free_inode _ _ _ _ Ht Hroom) as (i & Hi & Hz). destruct (Hem i); [apply elem_of_seq; lia|done]. }
    destruct Hem as [|[Hi Hz]]; [done|]. apply elem_of_seq in Hi. wp_run. rewrite HR0 in HQ. set (d' := upd_fs _ _).
    set (nd := set_i_valid 0 (set_i_ref 1 (set_i_inum n (set_i_dev dev (inodes (fs d) i))))).
    assert (fs d' = set_inodes (inodes (fs d)).[i := nd] (set_slocks (slocks (fs d)).[SL_inode i := slocks (fs d) (SL_inode i)] (fs d))) as E.
    { unfold d', upd_fs. cbn. rewrite !fupd_eq, !fupd_fupd, fupd_id. by destruct (fs d). }
    assert (hk n = false) as Hh by (destruct (hk n) eqn:Eh; [by apply (it_held _ _ _ _ Ht) in Eh|done]).
    destruct (istate_one d d' c r R R.[n := 0 + 1] hk hk i n nd) as [G1 G2]; try done; try lia.
    + exists (slocks (fs d) (SL_inode i)). split; [done|]. rewrite Hh. split; [done|]. intros _. eapply itab_lock_free; [done|lia|done].
    + intros n' Hne. by rewrite fupd_ne.
    + right. done.
    + by rewrite fupd_eq.
    + rewrite fupd_eq. lia.
    + apply HQ; [done|done| |].
      * unfold entry. rewrite E. cbn. rewrite fupd_eq. cbn. split_and!; [lia|lia|done].
      * intros j m (J1 & J2 & J3). unfold entry. rewrite E. cbn. rewrite fupd_ne; [done|]. intros ->. lia.
Qed.

Lemma wp_idup d c r R hk i n Q :
  istate d c r R hk -> entry (fs d) i n ->
  (forall d', istate d' c r R.[n := R n + 1] hk -> calm d d' -> entry (fs d') i n -> Q i [] d') ->
  wp p [] (idup i) d Q.
Proof.
  intros Hs He HQ. unfold idup. wp_run. destruct (istate_bump d c r R hk i n Hs He) as (G1 & G2 & G3 & G4). by apply HQ.
Qed.

(** ** ilock() and iunlock() *)

Lemma loaded_get c s n nd : i_inum nd = n -> loaded c s (set_i_valid 1 (dinode_get (c (IBLOCK n s)) (dip_off n) nd)).
Proof. intros E. destruct (dinode_get_at c s n nd) as (H1 & H2 & H3 & H4). unfold loaded. cbn [i_inum set_i_valid dinode_get]. rewrite E. done. Qed.

Lemma held_ext d d' c r b bn : bufs (fs d') = bufs (fs d) -> vdisk (fs d') = vdisk (fs d) -> dblk (fs d') = dblk (fs d) ->
  (forall b, slocks (fs d') (SL_buf b) = slocks (fs d) (SL_buf b)) -> frame d d' -> held dev pid p d c r b bn -> held dev pid p d' c r b bn.
Proof.
  intros H1 H2 H3 H4 Hf (Hc & Hb & Hpin & Hpid & Hr & Hcl). split_and!; [by eapply cache_ext| |done| |done|].
  - unfold blk_of in *. by rewrite H1.
  - by rewrite (frame_pid _ _ _ Hf).
  - by rewrite H3.
Qed.

Lemma wp_ilock d c r R hk i n Q :
  istate d c r R hk -> entry (fs d) i n -> hk n = false -> blk_ok (IBLOCK n (sb (fs d))) -> dtype c (sb (fs d)) n <> 0 ->
  (forall d', istate d' c r R hk.[n := true] -> calm d d' -> entry (fs d') i n -> loaded c (sb (fs d')) (inodes (fs d') i) -> Q tt [] d') ->
  wp p [] (ilock (Some i)) d Q.
Proof.
  intros [Hf Ht] He Hh Hok Hty HQ. pose proof He as (Hi & Hr & En). pose proof (it_dev _ _ _ _ Ht _ _ He) as Ed.
  pose proof (it_ref _ _ _ _ Ht _ _ He) as ER. unfold ilock. wp_run. rewrite (proj2 (Z.ltb_ge _ _)) by lia. wp_run.
  apply wp_acquiresleep; [lk_notin|by eapply itab_lock_unheld|]. set (d1 := upd_fs _ d). wp_run. pose proof (proj2 (proj2 Hf)) as Hpid.
  assert (fstate dev pid p d1 c r) as Hf1 by (eapply fstate_ext'; [..|exact Hf]; done).
  assert (forall n', n' <> n -> R n' = R n' /\ hk.[n := true] n' = hk n') as Hoth by (intros n' Hne; by rewrite fupd_ne).
  change (inodes (fs d1)) with (inodes (fs d)). change (sb (fs d1)) with (sb (fs d)).
  destruct (Z.eqb_spec (i_valid (inodes (fs d) i)) 0) as [Hv|Hv]; wp_run.
  - change (inodes (fs d1)) with (inodes (fs d)). change (sb (fs d1)) with (sb (fs d)). rewrite Ed, En. eapply wp_bread_held; [done|exact Hf1|done|]. intros b d2 Hs2 Hh2 Hdat. wp_run. rewrite Hdat.
    set (d3 := upd_fs _ d2). assert (held dev pid p d3 c r b (IBLOCK n (sb (fs d)))) as Hh3 by (eapply held_ext; [..|exact Hh2]; done).
    eapply wp_brelse_held; [done|exact Hh3|]. intros d4 Hs4 Hf4. wp_run. set (d5 := upd_fs _ d4).
    set (nd := set_i_valid 1 (dinode_get (c (IBLOCK n (sb (fs d)))) (dip_off n) (inodes (fs d) i))).
    assert (inodes (fs d5) = (inodes (fs d)).[i := nd]) as E5.
    { unfold d5. cbn. rewrite (still_inodes _ _ Hs4). unfold d3. cbn. rewrite (still_inodes _ _ Hs2). change (inodes (fs d1)) with (inodes (fs d)).
      by rewrite fupd_eq, fupd_fupd. }
    assert (calm d d5) as Hcalm.
    { eapply calm_trans; [|eapply calm_trans; [apply (still_calm _ _ Hs2)|eapply calm_trans; [|eapply calm_trans; [apply (still_calm _ _ Hs4)|]]]]; by apply calm_fs. }
    assert (sb (fs d5) = sb (fs d)) as Esb by apply Hcalm.
    assert (loaded c (sb (fs d5)) nd) as Hld by (rewrite Esb; by apply loaded_get).
    rewrite E5, fupd_eq. destruct Hld as (Ety & Hld'). rewrite Ety, Esb. change (i_inum nd) with (i_inum (inodes (fs d) i)). rewrite En.
    rewrite (proj2 (Z.eqb_neq _ _)) by done. wp_run.
    assert (forall j, slocks (fs d5) (SL_inode j) = slocks (fs d1) (SL_inode j)) as Hsl.
    { intros j. destruct Hs4 as (_ & (_ & _ & _ & S4) & _). destruct Hs2 as (_ & (_ & _ & _ & S2) & _). unfold d5. cbn. rewrite S4. unfold d3. cbn. by rewrite S2. }
    apply HQ; [split|done| |by rewrite E5, fupd_eq].
    + eapply fstate_ext'; [..|exact Hf4]; done.
    + eapply (itab_one (fs d) (fs d5) c R R hk hk.[n := true] i n nd); try done.
      * intros j Hj. rewrite Hsl. unfold d1. cbn. by rewrite fupd_ne by congruence.
      * by left.
      * lia.
      * intros _ _. by rewrite <- Esb.
      * intros _. rewrite Hsl. unfold d1. cbn. rewrite fupd_eq. cbn. split_and!; [lia|done|done|done].
      * by rewrite fupd_eq.
    + unfold entry. rewrite E5, fupd_eq. done.
  - destruct (istate_one d d1 c r R R hk hk.[n := true] i n (inodes (fs d) i)) as [G1 G2]; try done.
    + eexists. split; [unfold d1, upd_fs, sl_put; cbn; rewrite fupd_id; reflexivity|]. rewrite fupd_eq. cbn. split; [|done]. intros _. split_and!; [lia|done|done|done].
    + by left.
    + lia.
    + intros _ Hv'. by apply (it_valid _ _ _ _ Ht i n).
    + apply HQ; [done|done|done|]. by apply (it_valid _ _ _ _ Ht i n).
Qed.

Lemma wp_iunlock d c r R hk i n Q :
  istate d c r R hk -> entry (fs d) i n -> hk n = true ->
  (forall d', istate d' c r R hk.[n := false] -> calm d d' -> inodes (fs d') = inodes (fs d) -> Q tt [] d') ->
  wp p [] (iunlock (Some i)) d Q.
Proof.
  intros Hs He Hh HQ. pose proof Hs as [Hf Ht]. pose proof He as (Hi & Hr & En). destruct (it_lock _ _ _ _ Ht _ _ He Hh) as (L1 & L2 & L3).
  pose proof (it_ref _ _ _ _ Ht _ _ He) as ER. pose proof (proj2 (proj2 Hf)) as Hpid.
  unfold iunlock. apply wp_bind, wp_holdingsleep; [lk_notin|]. rewrite L2, Hpid, Z.eqb_refl, (proj2 (Z.eqb_neq _ _) L1). cbn [negb andb].
  wp_run. rewrite (proj2 (Z.ltb_ge _ _)) by lia. apply wp_releasesleep; [lk_notin|lk_notin|]. intros d' Hfr E.
  destruct (istate_one d d' c r R R hk hk.[n := false] i n (inodes (fs d) i)) as [G1 G2]; try done.
  - eexists. split; [rewrite E; unfold sl_put; rewrite fupd_id; reflexivity|]. by rewrite fupd_eq.
  - intros n' Hne. by rewrite fupd_ne.
  - by left.
  - lia.
  - intros _. split; [done|]. by apply (it_dev _ _ _ _ Ht _ n).
  - intros _ Hv. by apply (it_valid _ _ _ _ Ht i n).
  - apply HQ; [done|done|by rewrite E].
Qed.

(** ** iput() of an inode with links *)

Lemma wp_iput d c r R hk i n Q :
  istate d c r R hk -> entry (fs d) i n -> hk n = false -> di_nlink (dinode_at c (sb (fs d)) n) <> 0 ->
  (forall d', istate d' c r R.[n := R n - 1] hk -> calm d d' ->
    (forall j m, entry (fs d) j m -> R.[n := R n - 1] m <> 0 -> entry (fs d') j m) -> Q tt [] d') ->
  wp p [] (iput i) d Q.
Proof.
  intros Hs He Hh Hnl HQ. pose proof Hs as [Hf Ht]. pose proof He as (Hi & Hr & En). pose proof (it_ref _ _ _ _ Ht _ _ He) as ER.
  unfold iput. wp_run.
  assert ((i_ref (inodes (fs d) i) =? 1) && negb (i_valid (inodes (fs d) i) =? 0) && (i_nlink (inodes (fs d) i) =? 0) = false) as ->.
  { destruct (Z.eqb_spec (i_valid (inodes (fs d) i)) 0) as [|Hv]; [by rewrite andb_false_r|]. destruct (it_valid _ _ _ _ Ht i n He Hv) as (_ & E & _).
    rewrite E, En, (proj2 (Z.eqb_neq (di_nlink _) 0) Hnl). by rewrite !andb_false_r. }
  apply wp_when; [done|]. intros _. wp_run. set (d' := upd_fs _ d).
  destruct (istate_one d d' c r R R.[n := R n - 1] hk hk i n (set_i_ref (i_ref (inodes (fs d) i) - 1) (inodes (fs d) i))) as [G1 G2]; try done.
  - exists (slocks (fs d) (SL_inode i)). split; [unfold d', upd_fs; cbn; rewrite fupd_id; by destruct (fs d)|]. rewrite Hh. split; [done|].
    intros _. by eapply itab_lock_unheld.
  - intros n' Hne. by rewrite fupd_ne.
  - by left.
  - rewrite fupd_eq. cbn. lia.
  - rewrite fupd_eq. lia.
  - intros _. split; [done|]. by apply (it_dev _ _ _ _ Ht _ n).
  - intros _ Hv. by apply (it_valid _ _ _ _ Ht i n).
  - apply HQ; [done|done|]. intros j m Hj Hm. destruct (decide (j = i)) as [->|Hne].
    + assert (m = n) as -> by (destruct Hj as (_ & _ & <-); done). rewrite fupd_eq in Hm. unfold entry, d'. cbn. rewrite fupd_eq. cbn. split_and!; [done|lia|done].
    + unfold entry, d'. cbn. by rewrite fupd_ne.
Qed.

(** ** dirlookup() *)

(** One round of the scan of dirlookup(). *)
Definition scan_body (i : nat) (name : bytes) (off : Z) : M (option (nat * Z)) :=
  bind (readi i DLocal off sizeof_dirent) (fun q =>
  if negb (fst q =? sizeof_dirent) then panic "dirlookup read" else
  let de := local_bytes (snd q) in
  if de_inum de =? 0 then ret None else
  if namecmp name (de_name de) =? 0 then
    bind (getino i i_dev) (fun dev => bind (iget dev (de_inum de)) (fun ip => ret (Some (ip, off))))
  else ret None).

Section Scan.
Context (d : kdata) (c : disk) (r R : Z -> Z) (hk : Z -> bool) (i : nat) (n : Z) (name : bytes) (V : Z -> Prop)
  (Q : option (nat * Z) -> list lockid -> kdata -> Prop).
Notation s := (sb (fs d)).
Notation nd := (inodes (fs d) i).
Hypothesis Ht : itab (fs d) c R hk.
Hypothesis He : entry (fs d) i n.
Hypothesis Hld : loaded c s nd.
Hypothesis Hroom : iroom R.
Hypothesis Htree : tree_ok c s V.
Hypothesis HV : V n.
Hypothesis Hty : dtype c s n = T_DIR.

Lemma wp_dir_scan l d1 :
  (forall o, o ∈ l -> o ∈ dirent_offs (dsize c s n)) -> still d d1 -> istate d1 c r R hk ->
  (forall d', istate d' c r R hk -> calm d d' -> entry (fs d') i n -> find_entry c s n name l = None -> Q None [] d') ->
  (forall d' i' n' off, istate d' c r R.[n' := R n' + 1] hk -> calm d d' -> entry (fs d') i n -> entry (fs d') i' n' ->
    find_entry c s n name l = Some (n', off) -> V n' -> Q (Some (i', off)) [] d') ->
  wp p [] (forE l (scan_body i name)) d1 Q.
Proof.
  destruct Hld as (_ & _ & E3 & E4). rewrite (proj2 (proj2 He)) in E3, E4.
  destruct (tr_size _ _ _ Htree n HV Hty) as [Hsz Hmod]. pose proof (tr_data _ _ _ Htree n HV Hty) as Hblk.
  revert d1. induction l as [|off l IH]; intros d1 Hl Hs1 Hst1 HQ0 HQ1; cbn [forE find_entry] in *.
  { wp_run. apply HQ0; [done|by apply still_calm| |done]. unfold entry. by rewrite (still_inodes _ _ Hs1). }
  destruct (dirent_offs_range (dsize c s n) off) as [Ho1 Ho2]; [lia|done|apply Hl; constructor|].
  assert (rd_len (i_size nd) off 16 = 16%nat) as Erd by (unfold rd_len; rewrite Z.gtb_ltb, (proj2 (Z.ltb_ge _ _)) by lia; done).
  unfold scan_body at 1. apply wp_bind, wp_bind. change sizeof_dirent with (Z.of_nat 16).
  eapply (wp_readi_local dev pid p Hp c r i nd off 16).
  - by apply (it_dev _ _ _ _ Ht _ n).
  - lia.
  - lia.
  - rewrite Erd. apply (blocks_ok_agree c (daddr c s n)); [intros; symmetry; by apply E4|]. eapply blocks_ok_mono; [|exact Hblk].
    unfold BSIZE. Z.to_euclidean_division_equations. lia.
  - apply Hst1.
  - by rewrite (still_inodes _ _ Hs1).
  - intros d2 Hs2 Hf2. rewrite Erd. cbn [fst snd]. rewrite Z.eqb_refl. cbn [negb].
    rewrite (fbytes_agree c (i_addrs nd) (daddr c s n)) by (done || lia). fold (dent c s n off). cbv zeta.
    assert (istate d2 c r R hk) as Hst2 by (split; [done|eapply itab_still; [exact Hs2|apply Hst1]]).
    assert (still d d2) as Hs02 by by eapply still_trans.
    assert (entry (fs d2) i n) as He2 by (unfold entry; by rewrite (still_inodes _ _ Hs02)).
    destruct (Z.eqb_spec (de_inum (dent c s n off)) 0) as [E0|E0]; cbn [negb andb] in *; wp_run; [by apply IH; [set_solver|..]|].
    destruct (namecmp name (de_name (dent c s n off)) =? 0) eqn:Ecmp; wp_run; [|by apply IH; [set_solver|..]].
    rewrite (it_dev _ _ _ _ (proj2 Hst2) _ _ He2). eapply wp_iget; [exact Hst2|done|]. intros i' d3 Hst3 Hc3 He3 Hk3. wp_run.
    eapply HQ1; [exact Hst3|eapply calm_trans; [apply still_calm; exact Hs02|exact Hc3]|by apply Hk3|exact He3|done|].
    apply (tr_next _ _ _ Htree n off HV Hty); [apply Hl; constructor|done].
Qed.
End Scan.

Lemma wp_dirlookup d c r R hk i n name Q V :
  istate d c r R hk -> entry (fs d) i n -> hk n = true -> iroom R -> tree_ok c (sb (fs d)) V -> V n -> dtype c (sb (fs d)) n = T_DIR ->
  (forall d', istate d' c r R hk -> calm d d' -> entry (fs d') i n -> dir_find c (sb (fs d)) n name = None -> Q None [] d') ->
  (forall d' i' n' off, istate d' c r R.[n' := R n' + 1] hk -> calm d d' -> entry (fs d') i n -> entry (fs d') i' n' ->
    dir_find c (sb (fs d)) n name = Some (n', off) -> V n' -> Q (Some (i', off)) [] d') ->
  wp p [] (dirlookup i name) d Q.
Proof.
  intros Hs He Hh Hroom Htree HV Hty HQ0 HQ1. pose proof Hs as [Hf Ht]. destruct (it_lock _ _ _ _ Ht _ _ He Hh) as (_ & _ & Hv).
  pose proof (it_valid _ _ _ _ Ht _ _ He Hv) as Hld. pose proof Hld as (E1 & _ & E3 & _). rewrite (proj2 (proj2 He)) in E1, E3.
  unfold dirlookup. wp_run. rewrite E1, Hty, Z.eqb_refl. cbn [negb]. wp_run. rewrite E3. fold (scan_body i name).
  by eapply (wp_dir_scan d c r R hk i n name V); [..|apply still_refl| | |].
Qed.

(** ** namex() *)

Definition no_lock (_ : Z) : bool := false.

(** Room for the two inodes a walk holds. *)
Definition iroom2 R : Prop := exists P : list Z, (S (length P) < NINODE)%nat /\ forall n, R n <> 0 -> n ∈ P.

Lemma iroom2_one R n : iroom2 R -> iroom R.[n := R n + 1].
Proof.
  intros (P & Hl & HP). exists (n :: P). split; [simpl; lia|]. intros n' Hn'. unfold fupd in Hn'. case_decide; [subst; constructor|constructor; by apply HP].
Qed.

Lemma iroom2_iroom R : iroom2 R -> iroom R.
Proof. intros (P & Hl & HP). exists P. split; [lia|done]. Qed.

(** One reference moves from [n] to [n']. *)
Lemma ref_move R n n' : let R1 := R.[n := R n + 1] in let R2 := R1.[n' := R1 n' + 1] in R2.[n := R2 n - 1] = R.[n' := R n' + 1].
Proof. clear Hp. cbv zeta. extensionality k. unfold fupd. repeat case_decide; subst; try done; lia. Qed.

Lemma ref_back R n : let R1 := R.[n := R n + 1] in R1.[n := R1 n - 1] = R.
Proof. clear Hp. cbv zeta. extensionality k. unfold fupd. repeat case_decide; subst; try done; lia. Qed.

Lemma unlock_back n : no_lock.[n := true].[n := false] = no_lock.
Proof. rewrite fupd_fupd. apply (fupd_id no_lock). Qed.

(** iunlockput() of an inode that was locked for the walk. *)
Lemma wp_iunlockput d c r R i n Q :
  istate d c r R no_lock.[n := true] -> entry (fs d) i n -> di_nlink (dinode_at c (sb (fs d)) n) <> 0 ->
  (forall d', istate d' c r R.[n := R n - 1] no_lock -> calm d d' ->
    (forall j m, entry (fs d) j m -> R.[n := R n - 1] m <> 0 -> entry (fs d') j m) -> Q tt [] d') ->
  wp p [] (iunlockput i) d Q.
Proof.
  intros Hs He Hnl HQ. unfold iunlockput. wp_run. eapply wp_iunlock; [exact Hs|exact He|by rewrite fupd_eq|]. rewrite unlock_back.
  intros d1 Hs1 Hc1 Ei. assert (forall j m, entry (fs d) j m -> entry (fs d1) j m) as Hk by (intros j m; unfold entry; by rewrite Ei).
  eapply wp_iput; [exact Hs1|by apply Hk|done| |].
  - destruct Hc1 as (_ & _ & -> & _). done.
  - intros d2 Hs2 Hc2 Hk2. apply HQ; [done|by eapply calm_trans|]. intros j m Hj Hm. apply Hk2; [by apply Hk|done].
Qed.

Lemma itab_nonneg x c R hk n : itab x c R hk -> 0 <= R n.
Proof.
  intros Ht. destruct (decide (R n = 0)) as [->|H]; [done|]. destruct (it_in _ _ _ _ Ht n H) as [i He]. rewrite <- (it_ref _ _ _ _ Ht _ _ He). destruct He as (_ & He & _). lia.
Qed.

(** Where a walk ends. *)
Definition walk_path c s (parent : bool) n es : option Z := if parent then lookup_parent c s n es else lookup_path c s n es.

Lemma walk_dir c s parent n e es name : dtype c s n = T_DIR -> (parent = true -> es <> []) -> name_is name e ->
  walk_path c s parent n (e :: es) = match dir_find c s n name with Some (n', _) => walk_path c s parent n' es | None => None end.
Proof.
  intros Hd Hes Hn. unfold dir_find. rewrite (find_entry_name _ _ _ _ _ _ Hn). fold (dir_find c s n (local_bytes e)). apply Z.eqb_eq in Hd. unfold walk_path.
  destruct parent; cbn; rewrite Hd; [|done]. by destruct es; [destruct (Hes eq_refl)|].
Qed.

Section Walk.
Context (c : disk) (r R : Z -> Z) (V : Z -> Prop) (s : superblock) (parent : bool).
Hypothesis Htree : tree_ok c s V.
Hypothesis Hroom : iroom2 R.
Hypothesis HR : forall n, 0 <= R n.

Lemma wp_namex_loop fuel path name n i d Q :
  (length path < fuel)%nat -> sb (fs d) = s -> V n -> istate d c r R.[n := R n + 1] no_lock -> entry (fs d) i n ->
  (forall d' i' n' name', istate d' c r R.[n' := R n' + 1] no_lock -> calm d d' -> entry (fs d') i' n' -> V n' ->
    walk_path c s parent n (elems path) = Some n' -> (if parent then name_is name' (List.last (elems path) []) else True) -> Q (Some i', name') [] d') ->
  (forall d' name', istate d' c r R no_lock -> calm d d' -> walk_path c s parent n (elems path) = None -> Q (None, name') [] d') ->
  wp p [] (namex_loop fuel i path parent name) d Q.
Proof.
  revert path name n i d. induction fuel as [|fuel IH]; intros path name n i d Hlen Es HV Hs He HQ1 HQ0; [lia|]. cbn [namex_loop].
  assert (di_nlink (dinode_at c (sb (fs d)) n) <> 0) as Hnl by (rewrite Es; by apply (tr_link _ _ _ Htree)).
  pose proof (skipelem_spec path name) as Hsk. destruct (skipelem path name) as [[path' name']|].
  2: { rewrite Hsk in *. destruct parent; wp_run.
    - eapply wp_iput; [exact Hs|exact He|done|done|]. intros d' Hs' Hc' _. wp_run. rewrite ref_back in Hs'. by apply HQ0.
    - eapply HQ1; [done|apply calm_refl|done|done|done|done]. }
  destruct Hsk as (e & Ee & Hname & Hlen' & Hnil). wp_run. eapply wp_ilock; [exact Hs|exact He|done|rewrite Es; by apply (tr_block _ _ _ Htree)|rewrite Es; by apply (tr_type _ _ _ Htree)|].
  intros d1 Hs1 Hc1 He1 (Hty & _). wp_run. assert (sb (fs d1) = s) as Es1 by (rewrite <- Es; apply Hc1). rewrite (proj2 (proj2 He1)), Es1 in Hty. rewrite Hty.
  assert (di_nlink (dinode_at c (sb (fs d1)) n) <> 0) as Hnl1 by (rewrite Es1, <- Es; done).
  destruct (Z.eqb_spec (dtype c s n) T_DIR) as [Hd|Hd]; cbn [negb].
  2: { wp_run. eapply wp_iunlockput; [exact Hs1|exact He1|done|]. intros d2 Hs2 Hc2 _. wp_run. rewrite ref_back in Hs2.
    apply HQ0; [done|by eapply calm_trans|]. rewrite Ee. unfold walk_path. apply Z.eqb_neq in Hd. destruct parent; cbn; rewrite Hd; [|done]. by destruct (elems path'). }
  destruct (parent && bool_decide (path' = [])) eqn:Eb.
  { apply andb_prop in Eb as [Ep Eb%bool_decide_eq_true]. wp_run. eapply wp_iunlock; [exact Hs1|exact He1|by rewrite fupd_eq|]. rewrite unlock_back.
    intros d2 Hs2 Hc2 Ei. wp_run. rewrite Ep in *. eapply HQ1; [exact Hs2|by eapply calm_trans|unfold entry; by rewrite Ei|done| |].
    - rewrite Ee, Eb. unfold walk_path. cbn. by rewrite (proj2 (Z.eqb_eq _ _)).
    - by rewrite Ee, Eb. }
  assert (parent = true -> elems path' <> []) as Hpe.
  { intros ->. rewrite <- Hnil. by apply bool_decide_eq_false in Eb. }
  pose proof (walk_dir c s parent n e (elems path') name' Hd Hpe Hname) as Hw.
  wp_run. eapply (wp_dirlookup d1 c r _ _ i n name' _ V); [exact Hs1|exact He1|by rewrite fupd_eq|by apply iroom2_one|by rewrite Es1|done|by rewrite Es1|rewrite Es1..].
  - intros d2 Hs2 Hc2 He2 Hfind. wp_run. eapply wp_iunlockput; [exact Hs2|exact He2|by rewrite (proj1 (proj2 (proj2 Hc2)))|].
    intros d3 Hs3 Hc3 _. wp_run. rewrite ref_back in Hs3. apply HQ0; [done|by do 2 (eapply calm_trans; [done|])|]. by rewrite Ee, Hw, Hfind.
  - intros d2 i' n' off Hs2 Hc2 He2 He2' Hfind HV'. wp_run. eapply wp_iunlockput; [exact Hs2|exact He2|by rewrite (proj1 (proj2 (proj2 Hc2)))|].
    intros d3 Hs3 Hc3 Hk3. rewrite Hfind in Hw. rewrite <- Ee in Hw. cbv zeta in Hs3, Hk3. rewrite (ref_move R n n') in Hs3, Hk3.
    assert (calm d d3) as Hc by by do 2 (eapply calm_trans; [done|]).
    apply (IH path' name' n' i' d3); [lia|by rewrite <- Es; apply Hc|done|done| | |].
    + apply Hk3; [done|]. rewrite fupd_eq. specialize (HR n'). lia.
    + intros d4 i4 n4 name4 Hs4 Hc4 He4 HV4 Hw4 Hn4. eapply HQ1; [exact Hs4|by eapply calm_trans|exact He4|done|by rewrite Hw|].
      destruct parent; [|done]. rewrite Ee. specialize (Hpe eq_refl). by destruct (elems path').
    + intros d4 name4 Hs4 Hc4 Hw4. apply HQ0; [done|by eapply calm_trans|by rewrite Hw].
Qed.
End Walk.

(** The directory a path starts from. *)
Definition start d path : option Z :=
  if bool_decide (hd_error path = Some slash) then Some ROOTINO
  else match p_cwd (procs d p) with Some i => Some (i_inum (inodes (fs d) i)) | None => None end.

Lemma wp_namex d c r R V path parent name n0 Q :
  dev = ROOTDEV -> istate d c r R no_lock -> iroom2 R -> tree_ok c (sb (fs d)) V -> start d path = Some n0 -> V n0 ->
  (hd_error path <> Some slash -> exists i, p_cwd (procs d p) = Some i /\ entry (fs d) i n0) ->
  (forall d' i' n' name', istate d' c r R.[n' := R n' + 1] no_lock -> calm d d' -> entry (fs d') i' n' -> V n' ->
    walk_path c (sb (fs d)) parent n0 (elems path) = Some n' -> (if parent then name_is name' (List.last (elems path) []) else True) -> Q (Some i', name') [] d') ->
  (forall d' name', istate d' c r R no_lock -> calm d d' -> walk_path c (sb (fs d)) parent n0 (elems path) = None -> Q (None, name') [] d') ->
  wp p [] (namex path parent name) d Q.
Proof.
  intros Hdev Hs Hroom Htree Hst HV Hcwd HQ1 HQ0. unfold namex, start in *.
  assert (forall d1 i, istate d1 c r R.[n0 := R n0 + 1] no_lock -> calm d d1 -> entry (fs d1) i n0 ->
    wp p [] (namex_loop (S (length path)) i path parent name) d1 Q) as Hgo.
  { intros d1 i Hs1 Hc1 He1. assert (sb (fs d1) = sb (fs d)) as Es by apply Hc1.
    apply (wp_namex_loop c r R V (sb (fs d)) parent Htree Hroom) with (n := n0); [|lia|done|done|done|done| |].
    - intros n. eapply itab_nonneg, (proj2 Hs).
    - intros. eapply HQ1; [done|by eapply calm_trans|done..].
    - intros. eapply HQ0; [done|by eapply calm_trans|done]. }
  destruct (bool_decide (hd_error path = Some slash)) eqn:Eb; wp_run.
  - injection Hst as <-. rewrite <- Hdev. eapply wp_iget; [done|by apply iroom2_iroom|]. intros i d1 Hs1 Hc1 He1 _. by apply Hgo.
  - apply bool_decide_eq_false in Eb. destruct (Hcwd Eb) as (i & Ei & Hei). rewrite Ei. cbn [deref]. wp_run. eapply wp_idup; [done|done|].
    intros d1 Hs1 Hc1 He1. by apply Hgo.
Qed.
End Itab.

(** C27: namei() resolves paths: on a file system the kernel can walk, with room in the
    inode table, it returns without waiting, whatever the schedule, and takes the path
    from the root or the current directory exactly as the directories on disk lead,
    element by element, an element being compared up to DIRSIZ characters.  It
    returns the in-memory inode of the inode found, with one reference more, or 0
    where an element is missing or a directory is no directory; all other references
    are as before, no lock or buffer stays held, and nothing is written. *)
Theorem namei_resolves {D : DiskDriver} p m e d c r R V path n0 :
  quiet p m -> (p < NPROC)%nat -> istate ROOTDEV (p_pid (procs d p)) p d c r R no_lock -> iroom2 R ->
  tree_ok c (sb (fs d)) V -> start p d path = Some n0 -> V n0 ->
  (hd_error path <> Some slash -> exists i, p_cwd (procs d p) = Some i /\ entry (fs d) i n0) ->
  exists res m' d', namei path e (mkK m d) = Ret res e (mkK m' d') /\ msame m m' /\ calm d d' /\
    match lookup_path c (sb (fs d)) n0 (elems path) with
    | Some n => exists i, res = Some i /\ entry (fs d') i n /\ istate ROOTDEV (p_pid (procs d p)) p d' c r R.[n := R n + 1] no_lock
    | None => res = None /\ istate ROOTDEV (p_pid (procs d p)) p d' c r R no_lock
    end.
Proof.
  intros Hq Hp Hs Hroom Htree Hst HV Hcwd.
  assert (wp p [] (namei path) d (fun res hl d' => hl = [] /\ calm d d' /\
    match lookup_path c (sb (fs d)) n0 (elems path) with
    | Some n => exists i, res = Some i /\ entry (fs d') i n /\ istate ROOTDEV (p_pid (procs d p)) p d' c r R.[n := R n + 1] no_lock
    | None => res = None /\ istate ROOTDEV (p_pid (procs d p)) p d' c r R no_lock
    end)) as H.
  { unfold namei. wp_run. eapply (wp_namex ROOTDEV _ p Hp d c r R V path false); try done.
    - intros d' i' n' name' Hs' Hc He _ Hw _. wp_run. unfold walk_path in Hw. rewrite Hw. split_and!; [done|done|]. by exists i'.
    - intros d' name' Hs' Hc Hw. wp_run. unfold walk_path in Hw. by rewrite Hw. }
  destruct (H m m e Hq (msame_refl _)) as (res & hl & m' & d' & E & S & -> & H1 & H2). by exists res, m', d'.
Qed.

(** ** A concrete tree: the root directory with the entries . and a *)

Definition dino (ty size a0 : Z) : list Z :=
  peekn (st32 (st32 (st16 (st16 (fun _ => 0) 0 ty) 6 1) 8 size) 12 a0) 0 64.
Definition disk_tree : disk :=
  (fun _ _ => 0).[32 := local_bytes (repeat 0 64 ++ dino T_DIR 32 50 ++ dino T_FILE 0 0)]
    .[50 := local_bytes (mk_dirent (local_bytes [46]) 1 ++ mk_dirent (local_bytes [97]) 2)].
Definition kdata_e (c : disk) : kdata := set_fs (fs_e c) (upd_proc 1 (set_p_pid 7) kdata0).
Notation kdata_t := (kdata_e disk_tree).
Definition in_use (n : Z) : Prop := n = 1 \/ n = 2.

Lemma istate_e c : istate (D := sync_driver) 1 7 1 (kdata_e c) c (fun _ => 0) (fun _ => 0) no_lock.
Proof.
  split; [split_and!; [apply cache_e|apply pins_none|done]|].
  split; try done; try (intros i n (_ & H & _); by vm_compute in H). intros i j n (_ & H & _). by vm_compute in H.
Qed.

Lemma iroom2_none : iroom2 (fun _ => 0).
Proof. exists []. split; [unfold NINODE; simpl; lia|done]. Qed.

Lemma tree_t : tree_ok disk_tree sb_e in_use.
Proof.
  split.
  - intros n [->| ->]; by vm_compute.
  - intros n [->| ->]; by vm_compute.
  - intros n [->| ->]; by vm_compute.
  - intros n [->| ->] H; [by vm_compute|by vm_compute in H].
  - intros n [->| ->] H; [|by vm_compute in H]. split; [by vm_compute|]. intros k Hk.
    change ((dsize disk_tree sb_e 1 - 1) / BSIZE + 1) with 1 in Hk. assert (k = 0) as -> by lia. split; [by vm_compute|split; [by vm_compute|intros G; by vm_compute in G]].
  - intros n off [->| ->] H Hoff; [|by vm_compute in H]. change (dirent_offs (dsize disk_tree sb_e 1)) with [0; 16] in Hoff.
    intros _. apply elem_of_cons in Hoff as [->|[->|[]%elem_of_nil]%elem_of_cons]; [left|right]; by vm_compute.
Qed.

Lemma find_t : lookup_path disk_tree (sb (fs kdata_t)) 1 (elems [47; 97]) = Some 2.
Proof. vm_compute. reflexivity. Qed.

Lemma namei_resolves_witness :
  exists i m' d', namei (D := sync_driver) [47; 97] [] (mkK machine1 kdata_t) = Ret (Some i) [] (mkK m' d') /\ entry (fs d') i 2.
Proof.
  destruct (namei_resolves (D := sync_driver) 1 machine1 [] kdata_t disk_tree (fun _ => 0) (fun _ => 0) in_use [47; 97] 1) as (res & m' & d' & H1 & _ & _ & H2).
  - apply quiet1.
  - unfold NPROC. lia.
  - apply istate_e.
  - apply iroom2_none.
  - apply tree_t.
  - done.
  - by left.
  - done.
  - rewrite find_t in H2. destruct H2 as (i & -> & H2 & _). exists i, m', d'. split; [exact H1|exact H2].
Defined.
