(* ===== verification/FsTxn.v ===== *)
(** * Changing blocks inside a transaction

    The rules by which the file system changes blocks between begin_op() and
    end_op(): bread(), a change of the buffer, log_write() and brelse().  [c] is the
    current content of the blocks as the buffer cache presents it, [L] the blocks
    recorded in the transaction, each pinned once, and [H] the blocks whose buffers
    are locked.  Nothing reaches the disk before the commit. *)

From S2P Require Import Prelude State Spinlock CString Kalloc Sched SchedSpec Wp Sleeplock Bio BioSpec Log LogSpec Fs FsView FsSpec.
Open Scope Z_scope.

Ltac wp_extra ::=
  lazymatch goal with
  | |- wp _ _ (getfs _) _ _ => apply wp_getfs
  | |- wp _ _ (setfs _) _ _ => apply wp_modify
  | |- wp _ _ (getb _ _) _ _ => apply wp_getfs
  | |- wp _ _ (setb _ _) _ _ => apply wp_modify
  | |- wp _ _ (getino _ _) _ _ => apply wp_getfs
  | |- wp _ _ (setino _ _) _ _ => apply wp_modify
  | |- wp _ _ (getlog _) _ _ => apply wp_getfs
  | |- wp _ _ (setlog _) _ _ => apply wp_modify
  | |- wp _ _ getsb _ _ => apply wp_getfs
  end.

(** ** The transaction record *)

Definition logadd (L : list Z) (bn : Z) : list Z := if decide (bn ∈ L) then L else L ++ [bn].

Lemma elem_logadd L bn k : k ∈ logadd L bn <-> k ∈ L \/ k = bn.
Proof. unfold logadd. case_decide; set_solver. Qed.

Lemma NoDup_logadd L bn : NoDup L -> NoDup (logadd L bn).
Proof.
  intros H. unfold logadd. case_decide; [done|]. apply NoDup_app. split_and!; [done|set_solver|apply NoDup_singleton].
Qed.

Lemma length_logadd L bn : (length L <= length (logadd L bn) <= S (length L))%nat.
Proof. unfold logadd. case_decide; rewrite ?length_app; simpl; lia. Qed.

(** The log in memory records the blocks [L], in this order, for an operation that has begun. *)
Record logged (g : log_t) (L : list Z) : Prop := {
  lg_n : lh_n g = Z.of_nat (length L);
  lg_block : forall i bn, L !! i = Some bn -> lh_block g (Z.of_nat i) = bn;
  lg_nodup : NoDup L;
  lg_size : LOGSIZE <= log_size g;
  lg_out : 1 <= log_outstanding g;
}.

Lemma find_upto (f : Z -> bool) n :
  match find f (upto (Z.of_nat n)) with
  | Some i => exists k, i = Z.of_nat k /\ (k < n)%nat /\ f i = true
  | None => forall k, (k < n)%nat -> f (Z.of_nat k) = false
  end.
Proof.
  destruct (find f _) as [i|] eqn:E.
  - apply find_some in E as [Hi Hf]. unfold upto in Hi. rewrite Nat2Z.id in Hi. apply in_map_iff in Hi as (k & <- & Hk%in_seq). exists k. split_and!; [done|lia|done].
  - intros k Hk. apply (find_none _ _ E). unfold upto. rewrite Nat2Z.id. apply in_map, in_seq. lia.
Qed.

(** Log absorption: the index log_write() stores the block number at. *)
Lemma log_find_logged g L bn :
  logged g L ->
  if decide (bn ∈ L) then exists i, log_find (lh_block g) (Z.of_nat (length L)) bn = Z.of_nat i /\ (i < length L)%nat /\ lh_block g (Z.of_nat i) = bn
  else log_find (lh_block g) (Z.of_nat (length L)) bn = Z.of_nat (length L).
Proof.
  intros Hg. unfold log_find. pose proof (find_upto (fun i => lh_block g i =? bn) (length L)) as H.
  destruct (find _ _) as [i|].
  - destruct H as (k & -> & Hk & E%Z.eqb_eq). destruct (lookup_lt_is_Some_2 L k Hk) as [bn' Hl].
    pose proof (lg_block _ _ Hg _ _ Hl) as E'. rewrite decide_True; [by exists k|].
    rewrite <- E, E'. by eapply list_elem_of_lookup_2.
  - case_decide as Hin; [|done]. exfalso. apply list_elem_of_lookup_1 in Hin as [k Hk].
    pose proof (lookup_lt_Some _ _ _ Hk) as Hlt. specialize (H k Hlt). apply Z.eqb_neq in H. by apply H, (lg_block _ _ Hg).
Qed.

(** log_write() of [bn] leaves a log that records [logadd L bn]. *)
Lemma logged_add g L bn i :
  logged g L -> log_find (lh_block g) (Z.of_nat (length L)) bn = i ->
  let g' := set_lh_block (lh_block g).[i := bn] g in
  logged (if i =? lh_n g then set_lh_n (lh_n g' + 1) g' else g') (logadd L bn) /\ (i =? lh_n g) = negb (bool_decide (bn ∈ L)).
Proof.
  intros Hg Hi g'. pose proof (log_find_logged g L bn Hg) as H. rewrite (lg_n _ _ Hg). unfold logadd.
  destruct Hg as [H1 H2 H3 H4 H5]. case_decide as Hin.
  - destruct H as (k & Hk & Hlt & Hb). rewrite Hi in Hk. subst i. rewrite (proj2 (Z.eqb_neq _ _)) by lia.
    rewrite bool_decide_true by done. split; [|done]. split; try done. intros j bn' Hj. simpl. rewrite Hk. unfold fupd. case_decide as E; [|by apply H2].
    rewrite <- Hb. rewrite <- E. by apply H2.
  - rewrite Hi in H. subst i. rewrite H, Z.eqb_refl, bool_decide_false by done. split; [|done]. split; try done.
    + simpl. rewrite length_app. simpl. lia.
    + intros j bn' Hj. simpl. rewrite H. apply lookup_app_Some in Hj as [Hj|[Hge Hj]].
      * pose proof (lookup_lt_Some _ _ _ Hj). rewrite fupd_ne by lia. by apply H2.
      * apply list_lookup_singleton_Some in Hj as [Hj ->]. replace j with (length L) by lia. apply fupd_eq.
    + apply NoDup_app. split_and!; [done|set_solver|apply NoDup_singleton].
Qed.

(** ** References and locks *)

Definition refs (L H : list Z) (bn : Z) : Z := (if decide (bn ∈ L) then 1 else 0) + (if decide (bn ∈ H) then 1 else 0).
Definition holds (H : list Z) (bn : Z) : bool := bool_decide (bn ∈ H).

Lemma refs_cons L H bn : bn ∉ H -> refs L (bn :: H) = (refs L H).[bn := refs L H bn + 1].
Proof.
  intros Hn. extensionality k. unfold refs, fupd. destruct (decide (k = bn)) as [->|Hne].
  - rewrite (decide_True (P := bn ∈ bn :: H)), (decide_False (P := bn ∈ H)) by set_solver. lia.
  - f_equal. apply decide_ext. set_solver.
Qed.

Lemma refs_logadd L H bn : bn ∉ L -> refs (L ++ [bn]) H = (refs L H).[bn := refs L H bn + 1].
Proof.
  intros Hn. extensionality k. unfold refs, fupd. destruct (decide (k = bn)) as [->|Hne].
  - rewrite (decide_True (P := bn ∈ L ++ [bn])), (decide_False (P := bn ∈ L)) by set_solver. lia.
  - f_equal. apply decide_ext. set_solver.
Qed.

Lemma holds_cons H bn : holds (bn :: H) = (holds H).[bn := true].
Proof.
  extensionality k. unfold holds, fupd. case_decide as E; [subst; apply bool_decide_true; set_solver|].
  apply bool_decide_ext. set_solver.
Qed.

Lemma holds_nil : holds [] = no_buf.
Proof. extensionality k. apply bool_decide_false, not_elem_of_nil. Qed.

Lemma refs_range L H bn : 0 <= refs L H bn <= 2.
Proof. unfold refs. repeat case_decide; lia. Qed.

Lemma refs_held L H bn : bn ∈ H -> refs L H bn <> 0.
Proof. intros. unfold refs. rewrite (decide_True (P := bn ∈ H)) by done. case_decide; lia. Qed.

(** What a step inside a transaction leaves alone: processes, the super block, the
    inodes, their locks, and the disk. *)
Record kept (x x' : fsdata) : Prop := {
  kp_sb : sb x' = sb x;
  kp_ino : inodes x' = inodes x;
  kp_slk : forall i, slocks x' (SL_inode i) = slocks x (SL_inode i);
  kp_dblk : dblk x' = dblk x;
  kp_dwr : dwr x' = dwr x;
  kp_log : exists n b, logst x' = set_lh_n n (set_lh_block b (logst x));
}.

Lemma set_lh_block_n B g : set_lh_block B g = set_lh_n (lh_n g) (set_lh_block B g).
Proof. by destruct g. Qed.

Lemma kept_refl x : kept x x.
Proof. split; try done. exists (lh_n (logst x)), (lh_block (logst x)). by destruct (logst x). Qed.

Lemma kept_trans x y z : kept x y -> kept y z -> kept x z.
Proof.
  intros [A1 A2 A3 A4 A5 (n1 & b1 & A6)] [B1 B2 B3 B4 B5 (n2 & b2 & B6)]. split; try congruence.
  exists n2, b2. rewrite B6, A6. done.
Qed.

Lemma no_write_kept x x' : no_write x x' -> kept x x'.
Proof.
  intros ((H1 & H2 & H3 & H4) & H5 & H6). split; try done.
  exists (lh_n (logst x)), (lh_block (logst x)). rewrite H1. by destruct (logst x).
Qed.

Section Txn.
Context {D : DiskDriver} (dev pid : Z) (p : nat).
Hypothesis Hp : (p < NPROC)%nat.
Implicit Types (c : disk) (d : kdata) (L H : list Z).
Notation blk := (blk_of dev).

Record tstate d c L H : Prop := {
  ts_cache : cache dev pid (fs d) c (refs L H) (holds H);
  ts_log : logged (logst (fs d)) L;
  ts_pid : p_pid (procs d p) = pid;
}.

(** The buffers of the blocks [H] stay where they are. *)
Definition tstep H d d' : Prop :=
  frame d d' /\ kept (fs d) (fs d') /\ forall b bn, bn ∈ H -> blk (fs d) b bn -> blk (fs d') b bn.

Lemma tstep_refl H d : tstep H d d.
Proof. split_and!; [apply frame_refl|apply kept_refl|done]. Qed.

Lemma tstep_trans H d1 d2 d3 : tstep H d1 d2 -> tstep H d2 d3 -> tstep H d1 d3.
Proof.
  intros (A1 & A2 & A3) (B1 & B2 & B3). split_and!; [by eapply frame_trans|by eapply kept_trans|]. intros b bn Hb Hk. by apply B3, A3.
Qed.

Lemma tstep_sub H H' d d' : H ⊆ H' -> tstep H' d d' -> tstep H d d'.
Proof using. clear Hp. intros Hs (A1 & A2 & A3). split_and!; [done|done|]. intros b bn Hb. apply A3. set_solver. Qed.

Lemma wp_bread_t d c L H bn Q :
  tstate d c L H -> blk_ok bn -> bn ∉ H -> (length L + length H < NBUF)%nat ->
  (forall b d', tstep H d d' -> tstate d' c L (bn :: H) -> blk (fs d') b bn -> b_data (bufs (fs d') b) = c bn -> Q b [] d') ->
  wp p [] (bread dev bn) d Q.
Proof using Hp.
  intros [Hc Hg Hpid] Hok Hn Hlen HQ.
  eapply wp_bread; [done|done|exact Hc|done|by apply bool_decide_false|pose proof (refs_range L H bn); lia| |].
  { right. exists (L ++ H). rewrite length_app. split; [done|]. intros bn' Hr. unfold refs in Hr. repeat case_decide; [set_solver..|done]. }
  intros b d' Hf Hnw Hst Hc' Hb Hdat _. apply HQ; try done.
  - split_and!; [done|by apply no_write_kept|]. intros b' bn' Hin Hb'. apply Hst; [done|by apply refs_held].
  - split; [by rewrite refs_cons, holds_cons| |by rewrite (frame_pid _ _ _ Hf)]. destruct Hnw as ((-> & _) & _). done.
Qed.

Lemma wp_put d c L H b bn f Q :
  tstate d c L H -> blk (fs d) b bn -> bn ∈ H ->
  (forall d', tstep H d d' -> tstate d' (c.[bn := f (c bn)]) L H -> blk (fs d') b bn -> b_data (bufs (fs d') b) = f (c bn) -> Q tt [] d') ->
  wp p [] (setb b (upd_data f)) d Q.
Proof using Hp.
  intros [Hc Hg Hpid] Hb Hin HQ. pose proof (refs_held L H bn Hin) as Hr.
  pose proof (cache_data _ _ _ _ _ _ _ _ Hc Hb Hr) as Hdat.
  destruct (cache_set_data dev pid (fs d) c _ _ b bn (upd_data f) (f (c bn)) Hc Hb Hr) as [Hc' Hb']; [unfold upd_data; by rewrite Hdat|].
  wp_run. apply HQ; [|by split|done|].
  - split_and!; [apply frame_upd_fs|split; try done; exists (lh_n (logst (fs d))), (lh_block (logst (fs d))); simpl; by destruct (logst (fs d))|].
    intros b' bn' _ Hb2. simpl. unfold blk_of in *. simpl. unfold fupd. case_decide; [subst|]; done.
  - simpl. rewrite fupd_eq. unfold upd_data. simpl. by rewrite Hdat.
Qed.

Lemma wp_log_write_t d c L H b bn Q :
  tstate d c L H -> blk (fs d) b bn -> bn ∈ H -> blk_ok bn -> Z.of_nat (length L) < LOGSIZE - 1 ->
  (forall d', tstep H d d' -> tstate d' c (logadd L bn) H -> blk (fs d') b bn -> Q tt [] d') ->
  wp p [] (log_write b) d Q.
Proof using Hp.
  intros [Hc Hg Hpid] Hb Hin Hrg Hlen HQ. unfold log_write, blk_ok in *. wp_run.
  pose proof (lg_n _ _ Hg) as En. pose proof (lg_size _ _ Hg) as Es. pose proof (lg_out _ _ Hg) as Eo.
  rewrite En. destruct (Z.geb_spec (Z.of_nat (length L)) LOGSIZE); [lia|].
  destruct (Z.geb_spec (Z.of_nat (length L)) (log_size (logst (fs d)) - 1)); [lia|]. cbn [orb]. wp_run.
  rewrite (proj2 (Z.ltb_ge _ _)) by done. wp_run.
  pose proof Hb as (Hb0 & Hbd & Hbn). rewrite Hbn, i32_small by (unfold int_range; lia).
  destruct (logged_add (logst (fs d)) L bn _ Hg eq_refl) as [Hg' Hi]. rewrite En in Hg', Hi. set (i := log_find _ _ _) in *.
  rewrite Hi in *. set (g1 := set_lh_block _ _) in *. set (d1 := upd_fs _ d).
  assert (cache dev pid (fs d1) c (refs L H) (holds H)) as Hc1 by by apply cache_logst.
  assert (tstep H d d1) as Hs1.
  { split_and!; [apply frame_upd_fs|split; try done|done]. exists (lh_n (logst (fs d))). eexists. apply set_lh_block_n. }
  pose proof (refs_range L H bn) as Hrr. unfold logadd in *. apply wp_when; intros Hw.
  - apply negb_true_iff in Hw. rewrite Hw in Hg'. apply bool_decide_eq_false in Hw. rewrite decide_False in * by done. apply wp_bind.
    eapply wp_bpin; [lk_notin|exact Hc1|exact Hb|by apply refs_held|lia|]. intros d2 Hc2 Hb2. wp_run.
    apply HQ; [|split|].
    + eapply tstep_trans; [exact Hs1|]. split_and!; [eapply frame_trans; apply frame_upd_fs|split; try done; by eexists _, _|].
      intros b' bn' _ Hb'. unfold d2, d1, blk_of in *. simpl in *. unfold fupd. destruct (decide (b' = b)) as [->|]; done.
    + rewrite refs_logadd by done. by apply cache_logst.
    + exact Hg'.
    + done.
    + exact Hb2.
  - apply negb_false_iff in Hw. rewrite Hw in Hg'. apply bool_decide_eq_true in Hw. rewrite decide_True in * by done. wp_run.
    apply HQ; [done|by split|done].
Qed.

Lemma wp_brelse_t d c L H b bn Q :
  tstate d c L (bn :: H) -> bn ∉ H -> blk (fs d) b bn -> (bn ∈ L \/ c bn = dblk (fs d) bn) ->
  (forall d', tstep H d d' -> tstate d' c L H -> Q tt [] d') -> wp p [] (brelse b) d Q.
Proof using Hp.
  intros [Hc Hg Hpid] Hn Hb Hcl HQ. pose proof (refs_range L H bn) as Hrr. pose proof (refs_cons L H bn Hn) as Er.
  eapply wp_brelse; [done|exact Hc|exact Hb|by rewrite holds_cons, fupd_eq| |].
  - rewrite Er, fupd_eq. unfold refs. intros E. destruct Hcl as [Hcl|]; [|done]. rewrite decide_True in E by done. case_decide; lia.
  - intros d' Hf Hnw Hst Hc' _ _. apply HQ.
    + split_and!; [done|by apply no_write_kept|]. intros b' bn' Hin Hb'. apply Hst; [done|].
      rewrite fupd_ne by set_solver. apply refs_held. set_solver.
    + split; [| |by rewrite (frame_pid _ _ _ Hf)].
      * rewrite Er, holds_cons, fupd_eq, !fupd_fupd in Hc'. replace (refs L H bn + 1 - 1) with (refs L H bn) in Hc' by lia. rewrite fupd_id in Hc'.
        replace ((holds H).[bn := false]) with (holds H) in Hc'; [done|]. symmetry.
        replace false with (holds H bn) by by apply bool_decide_false. apply fupd_id.
      * destruct Hnw as ((-> & _) & _). done.
Qed.

(** ** Reading inside a transaction *)

Lemma tstate_fstate d c L : tstate d c L [] -> (length L < NBUF)%nat -> fstate dev pid p d c (refs L []).
Proof using.
  clear Hp. intros [Hc Hg Hpid] Hl. split_and!; [by rewrite <- holds_nil| |done]. split.
  - intros bn. pose proof (refs_range L [] bn). lia.
  - exists L. split; [done|]. intros bn Hr. unfold refs in Hr. repeat case_decide; [done|done|set_solver|done].
Qed.

Lemma fstate_tstate d d' c L : tstate d c L [] -> still d d' -> fstate dev pid p d' c (refs L []) -> tstate d' c L [] /\ tstep [] d d'.
Proof using.
  clear Hp. intros [Hc Hg Hpid] [Hf Hnw] (Hc' & _ & Hpid'). split.
  - split; [by rewrite holds_nil| |done]. destruct Hnw as ((-> & _) & _). done.
  - split_and!; [done|by apply no_write_kept|]. intros b bn []%not_elem_of_nil.
Qed.

(** ** Changing one block *)

(** bread(), a change [f] of the data, log_write() and brelse(). *)
Lemma wp_change d c L H bn f Q :
  tstate d c L H -> blk_ok bn -> bn ∉ H -> (length L + length H < NBUF - 1)%nat -> Z.of_nat (length L) < LOGSIZE - 1 ->
  (forall d', tstep H d d' -> tstate d' (c.[bn := f (c bn)]) (logadd L bn) H -> Q tt [] d') ->
  wp p [] (let* bp := bread dev bn in setb bp (upd_data f);; log_write bp;; brelse bp) d Q.
Proof using Hp.
  intros Ht Hok Hn Hl1 Hl2 HQ. apply wp_bind. eapply wp_bread_t; [done|done|done|lia|]. intros b d1 Hs1 Ht1 Hb1 _.
  apply wp_bind. eapply wp_put; [done|done|set_solver|]. intros d2 Hs2 Ht2 Hb2 _.
  apply wp_bind. eapply wp_log_write_t; [done|done|set_solver|done|done|]. intros d3 Hs3 Ht3 Hb3.
  eapply wp_brelse_t; [done|done|done|left; apply elem_logadd; by right|]. intros d4 Hs4 Ht4. apply HQ; [|done].
  eapply tstep_trans; [exact Hs1|]. eapply tstep_trans; [by eapply tstep_sub; [|exact Hs2]; set_solver|].
  eapply tstep_trans; [by eapply tstep_sub; [|exact Hs3]; set_solver|exact Hs4].
Qed.
End Txn.
