(* ===== verification/FsAlloc.v ===== *)
(** * The free map and block allocation

    The bits of the free map as a set of used blocks, and balloc(): it takes a free
    block, marks it used and zeroes it, all inside the transaction. *)

From S2P Require Import Prelude State Spinlock CString Kalloc Sched SchedSpec Wp Sleeplock Bio BioSpec Log LogSpec Fs FsView FsSpec FsTxn.
Open Scope Z_scope.

(** ** One bit of a byte *)

Lemma land_bit_mask v i : 0 <= i -> (Z.land v (bit_mask i) =? 0) = negb (Z.testbit v (i mod 8)).
Proof.
  intros Hi. assert (0 <= i mod 8) as Hm by (apply Z.mod_pos_bound; lia). unfold bit_mask. rewrite Z.shiftl_1_l.
  destruct (Z.testbit v (i mod 8)) eqn:E; simpl.
  - apply Z.eqb_neq. intros H. assert (Z.testbit (Z.land v (2 ^ (i mod 8))) (i mod 8) = false) as H' by (rewrite H; apply Z.bits_0).
    rewrite Z.land_spec, E, Z.pow2_bits_true in H' by done. done.
  - apply Z.eqb_eq, Z.bits_inj'. intros n Hn. rewrite Z.land_spec, Z.bits_0, Z.pow2_bits_eqb by done.
    destruct (Z.eqb_spec (i mod 8) n) as [<-|]; [by rewrite E|apply andb_false_r].
Qed.

Lemma testbit_set v i j : 0 <= i -> 0 <= j < 8 -> Z.testbit (Z.lor v (bit_mask i)) j = Z.testbit v j || (i mod 8 =? j).
Proof.
  intros Hi Hj. assert (0 <= i mod 8) as Hm by (apply Z.mod_pos_bound; lia). unfold bit_mask.
  by rewrite Z.shiftl_1_l, Z.lor_spec, Z.pow2_bits_eqb.
Qed.

(** ** The layout of the disk *)

Record sb_ok (s : superblock) : Prop := {
  so_size : sb_bmapstart s + sb_size s / BPB < sb_size s < 2 ^ 31;
  so_inode : 0 < sb_inodestart s;
  so_inodes : 0 <= sb_ninodes s /\ sb_inodestart s + sb_ninodes s / IPB < sb_bmapstart s;
}.

(** The first data block. *)
Definition nmeta (s : superblock) : Z := sb_bmapstart s + sb_size s / BPB + 1.

Lemma BBLOCK_range s b : sb_ok s -> 0 <= b < sb_size s -> BBLOCK b s = b / BPB + sb_bmapstart s /\ 0 <= b / BPB <= sb_size s / BPB.
Proof.
  intros [H1 H2 [H3 H4]] Hb. assert (0 <= b / BPB <= sb_size s / BPB) as Hd.
  { split; [apply Z.div_pos; [lia|done]|apply Z.div_le_mono; [done|lia]]. }
  assert (0 <= sb_ninodes s / IPB) by (apply Z.div_pos; [lia|done]).
  split; [|done]. apply u32_small. lia.
Qed.

Lemma BBLOCK_meta s b : sb_ok s -> 0 <= b < sb_size s -> sb_bmapstart s <= BBLOCK b s < nmeta s.
Proof. intros Hs Hb. destruct (BBLOCK_range s b Hs Hb) as [-> Hd]. unfold nmeta. lia. Qed.

Lemma sb_ok_bmap s : sb_ok s -> 0 < sb_bmapstart s /\ nmeta s <= sb_size s /\ sb_bmapstart s < nmeta s.
Proof.
  intros [H1 H2 [H3 H4]]. assert (0 <= sb_ninodes s / IPB) by (apply Z.div_pos; [lia|done]). unfold nmeta.
  assert (0 <= sb_size s / BPB) by (unfold BPB, BSIZE in *; Z.to_euclidean_division_equations; lia). lia.
Qed.

Lemma IBLOCK_range s i : sb_ok s -> 0 <= i < sb_ninodes s -> IBLOCK i s = i / IPB + sb_inodestart s /\ 0 < IBLOCK i s < sb_bmapstart s.
Proof.
  intros Hs Hi. pose proof (sb_ok_bmap s Hs) as (Hb & Hm & Hn). pose proof Hs as [H1 H2 [H3 H4]].
  assert (0 <= i / IPB <= sb_ninodes s / IPB) as Hd.
  { split; [apply Z.div_pos; [lia|done]|apply Z.div_le_mono; [done|lia]]. }
  unfold nmeta in Hm, Hn. assert (IBLOCK i s = i / IPB + sb_inodestart s) as -> by (apply u32_small; lia). lia.
Qed.

(** ** Used blocks *)

Definition used (c : disk) (s : superblock) (b : Z) : bool :=
  Z.testbit (c (BBLOCK b s) (b mod BPB / 8)) (b mod BPB mod 8).

(** Boot block, super block, log, inodes and free map are marked used. *)
Definition map_ok (c : disk) (s : superblock) : Prop := forall b, 0 <= b < nmeta s -> used c s b = true.

(** The disk after balloc() took block [b]. *)
Definition alloc_c (c : disk) (s : superblock) (b : Z) : disk :=
  let m := c (BBLOCK b s) in
  let bi := b mod BPB in
  let c' := c.[BBLOCK b s := m.[bi / 8 := Z.lor (m (bi / 8)) (bit_mask bi)]] in
  c'.[b := memset (c' b) 0 0 BSIZE].

Section Used.
Context (c : disk) (s : superblock) (b : Z).
Hypothesis Hs : sb_ok s.
Hypothesis Hm : map_ok c s.
Hypothesis Hb : 0 <= b < sb_size s.
Hypothesis Hu : used c s b = false.

Lemma free_data : nmeta s <= b.
Proof. destruct (decide (b < nmeta s)); [|lia]. rewrite Hm in Hu by lia. done. Qed.

Lemma free_not_meta k : k < nmeta s -> k <> b.
Proof. pose proof free_data. lia. Qed.

Lemma alloc_other k : k <> b -> k <> BBLOCK b s -> alloc_c c s b k = c k.
Proof. intros H1 H2. unfold alloc_c. by rewrite !fupd_ne. Qed.

Lemma alloc_zero o : 0 <= o < BSIZE -> alloc_c c s b b o = 0.
Proof. intros Ho. unfold alloc_c. rewrite fupd_eq. by rewrite memset_in. Qed.

Lemma used_alloc k : 0 <= k < sb_size s -> used (alloc_c c s b) s k = (b =? k) || used c s k.
Proof.
  intros Hk. unfold used. destruct (BBLOCK_range s b Hs Hb) as [Eb Db]. destruct (BBLOCK_range s k Hs Hk) as [Ek Dk].
  assert (BBLOCK k s <> b) as Hne by (apply free_not_meta, BBLOCK_meta; done).
  assert (0 <= b mod BPB < BPB /\ 0 <= k mod BPB < BPB) as [Rb Rk] by (split; apply Z.mod_pos_bound; done).
  unfold alloc_c. rewrite (fupd_ne (_ .[ _ := _ ])) by done. unfold fupd at 1. case_decide as E.
  - rewrite E. assert (k / BPB = b / BPB) as Ed by lia. unfold fupd. case_decide as E2.
    + rewrite E2, testbit_set by (try apply Z.mod_pos_bound; lia). rewrite orb_comm. f_equal.
      apply Bool.eq_iff_eq_true. rewrite !Z.eqb_eq. unfold BPB, BSIZE in *. Z.to_euclidean_division_equations. lia.
    + destruct (Z.eqb_spec b k) as [->|]; [done|done].
  - destruct (Z.eqb_spec b k) as [->|]; [done|done].
Qed.

Lemma map_ok_alloc : map_ok (alloc_c c s b) s.
Proof.
  intros k Hk. pose proof (sb_ok_bmap s Hs). rewrite used_alloc by lia. rewrite (Hm k Hk). apply orb_true_r.
Qed.
End Used.

(** ** balloc() *)

(** Room for [n] more blocks in the transaction, with [H] held. *)
Definition fits (L H : list Z) (n : nat) : Prop := (length L + length H + n < NBUF - 1)%nat.

Lemma fits_log L H n : fits L H n -> Z.of_nat (length L) + Z.of_nat n < LOGSIZE - 1.
Proof. unfold fits, NBUF, LOGSIZE, MAXOPBLOCKS. lia. Qed.

Lemma fits_add L H n bn : fits L H (S n) -> fits (logadd L bn) H n.
Proof. unfold fits. pose proof (length_logadd L bn). lia. Qed.

Lemma fits_mono L H n m : (n <= m)%nat -> fits L H m -> fits L H n.
Proof. unfold fits. lia. Qed.

Section Balloc.
Context {D : DiskDriver} (dev pid : Z) (p : nat).
Hypothesis Hp : (p < NPROC)%nat.
Implicit Types (c : disk) (d : kdata) (L H : list Z).

Lemma wp_bzero d c L H b Q :
  tstate dev pid p d c L H -> blk_ok b -> b ∉ H -> fits L H 1 ->
  (forall d', tstep dev H d d' -> tstate dev pid p d' (c.[b := memset (c b) 0 0 BSIZE]) (logadd L b) H -> Q tt [] d') ->
  wp p [] (bzero dev b) d Q.
Proof using Hp.
  intros Ht Hok Hn Hf HQ. unfold bzero, blk_ok in *. rewrite u32_small by lia. pose proof (fits_log _ _ _ Hf).
  eapply (wp_change dev pid p Hp d c L H b (fun m => memset m 0 0 BSIZE)); try done; unfold fits in Hf; lia.
Qed.

(** The body of the loop over the blocks of the free map. *)
Definition balloc_body (s : superblock) (b : Z) : M (option Z) :=
  let* bp := bread dev (BBLOCK b s) in
  let* m := getb bp b_data in
  match free_bit m (Z.min BPB (sb_size s - b)) with
  | Some bi =>
      setb bp (upd_data (fun m => m.[bi / 8 := Z.lor (m (bi / 8)) (bit_mask bi)]));;
      log_write bp;;
      brelse bp;;
      bzero dev (b + bi);;
      ret (Some (b + bi))
  | None => brelse bp;; ret None
  end.

Lemma block_bit j bi : 0 <= j -> 0 <= bi < BPB -> (j * BPB + bi) / BPB = j /\ (j * BPB + bi) mod BPB = bi.
Proof using.
  clear Hp. intros Hj Hb. unfold BPB, BSIZE in *. Z.to_euclidean_division_equations. lia. Qed.

(** free_bit() finds a free block of the part of the map it looks at. *)
Lemma free_bit_used c s j :
  sb_ok s -> 0 <= j -> j * BPB < sb_size s ->
  match free_bit (c (BBLOCK (j * BPB) s)) (Z.min BPB (sb_size s - j * BPB)) with
  | Some bi => 0 <= bi < BPB /\ j * BPB + bi < sb_size s /\ used c s (j * BPB + bi) = false
  | None => forall b, b / BPB = j -> b < sb_size s -> used c s b = true
  end.
Proof using.
  clear Hp.
  intros Hs Hj Hsz. set (n := Z.min BPB _). assert (0 < n <= BPB) as Hn by (unfold n, BPB, BSIZE in *; lia).
  replace n with (Z.of_nat (Z.to_nat n)) by lia. unfold free_bit.
  assert (forall bi, 0 <= bi < BPB -> BBLOCK (j * BPB + bi) s = BBLOCK (j * BPB) s) as EB.
  { intros bi Hbi. unfold BBLOCK. destruct (block_bit j bi Hj Hbi) as [-> _]. by rewrite Z.div_mul. }
  assert (forall bi, 0 <= bi < BPB -> (Z.land (c (BBLOCK (j * BPB) s) (bi / 8)) (bit_mask bi) =? 0) = negb (used c s (j * BPB + bi))) as EU.
  { intros bi Hbi. unfold used. rewrite EB, land_bit_mask by lia. by destruct (block_bit j bi Hj Hbi) as [_ ->]. }
  pose proof (find_upto (fun bi => Z.land (c (BBLOCK (j * BPB) s) (bi / 8)) (bit_mask bi) =? 0) (Z.to_nat n)) as H.
  destruct (find _ _) as [bi|].
  - destruct H as (k & -> & Hk & Hf). rewrite EU in Hf by lia. apply negb_true_iff in Hf. split_and!; [lia..|unfold n in Hk; lia|done].
  - intros b Eb Hbs. pose proof (Z.div_mod b BPB ltac:(done)) as Edm. pose proof (Z.mod_pos_bound b BPB ltac:(done)) as Hbm.
    specialize (H (Z.to_nat (b mod BPB)) ltac:(unfold n; lia)). simpl in H. rewrite Z2Nat.id, EU in H by lia. apply negb_false_iff in H.
    replace (j * BPB + b mod BPB) with b in H by lia. done.
Qed.

Lemma wp_balloc_body d c L H s j Q :
  tstate dev pid p d c L H -> sb_ok s -> map_ok c s -> 0 <= j -> j * BPB < sb_size s -> fits L H 2 ->
  (forall bn, bn ∈ H -> nmeta s <= bn /\ used c s bn = true) ->
  ((forall b, b / BPB = j -> b < sb_size s -> used c s b = true) ->
     forall d', tstep dev H d d' -> tstate dev pid p d' c L H -> Q None [] d') ->
  (forall b d', 0 <= b < sb_size s -> used c s b = false -> tstep dev H d d' ->
     tstate dev pid p d' (alloc_c c s b) (logadd (logadd L (BBLOCK b s)) b) H -> Q (Some b) [] d') ->
  wp p [] (balloc_body s (j * BPB)) d Q.
Proof using Hp.
  intros Ht Hs Hm Hj Hjs Hf HH HQ0 HQ1. pose proof (sb_ok_bmap s Hs) as (Hb0 & Hb1 & Hb2). pose proof (so_size _ Hs) as Hsz.
  assert (0 <= j * BPB) as Hj0 by (unfold BPB, BSIZE; lia). set (bb := BBLOCK (j * BPB) s).
  assert (sb_bmapstart s <= bb < nmeta s) as Hbb by (apply BBLOCK_meta; [done|lia]).
  assert (blk_ok bb) as Hok by (unfold blk_ok; lia). assert (bb ∉ H) as Hnh by (intros Hin; destruct (HH bb Hin); lia).
  unfold balloc_body. fold bb. apply wp_bind. eapply wp_bread_t; [done|done|done|done|unfold fits in Hf; lia|].
  intros bp d1 Hs1 Ht1 Hbk1 Hdat. wp_run. rewrite Hdat. pose proof (free_bit_used c s j Hs Hj Hjs) as HF. fold bb in HF.
  destruct (free_bit _ _) as [bi|].
  - destruct HF as (Hbi & Hlt & Hfree). destruct (block_bit j bi Hj Hbi) as [Ed Em]. set (b := j * BPB + bi) in *.
    assert (BBLOCK b s = bb) as Eb by (unfold bb, BBLOCK; rewrite Ed, Z.div_mul; done).
    assert (nmeta s <= b) as Hdb by (eapply (free_data c); [done|split; [lia|exact Hlt]|done]). assert (b ∉ H) as Hnb by (intros Hin; destruct (HH b Hin) as [_ E]; congruence).
    apply wp_bind. eapply wp_put; [done|done|done|set_solver|]. intros d2 Hs2 Ht2 Hbk2 _.
    apply wp_bind. eapply wp_log_write_t; [done|done|exact Hbk2|set_solver|exact Hok|apply fits_log in Hf; lia|]. intros d3 Hs3 Ht3 Hbk3.
    apply wp_bind. eapply wp_brelse_t; [done|done|done|done|left; apply elem_logadd; by right|]. intros d4 Hs4 Ht4.
    apply wp_bind. eapply wp_bzero; [done|unfold blk_ok; lia|done|by apply fits_add|]. intros d5 Hs5 Ht5. wp_run.
    apply HQ1; [lia|done| |].
    + eapply tstep_trans; [exact Hs1|]. eapply tstep_trans; [by eapply tstep_sub; [|exact Hs2]; set_solver|].
      eapply tstep_trans; [by eapply tstep_sub; [|exact Hs3]; set_solver|]. by eapply tstep_trans.
    + unfold alloc_c. rewrite Eb, Em. exact Ht5.
  - apply wp_bind. eapply wp_brelse_t; [done|done|done|done| |].
    + destruct (decide (bb ∈ L)) as [|Hnl]; [by left|right]. destruct Hs1 as (_ & [_ _ _ -> _ _] & _).
      apply (ca_clean _ _ _ _ _ _ (ts_cache _ _ _ _ _ _ _ Ht)). unfold refs. by rewrite !decide_False.
    + intros d2 Hs2 Ht2. wp_run. apply HQ0; [done|by eapply tstep_trans|done].
Qed.

(** balloc() allocates a free block, when there is one. *)
Lemma wp_balloc d c L H Q :
  let s := sb (fs d) in
  tstate dev pid p d c L H -> sb_ok s -> map_ok c s -> fits L H 2 ->
  (forall bn, bn ∈ H -> nmeta s <= bn /\ used c s bn = true) ->
  (exists b, 0 <= b < sb_size s /\ used c s b = false) ->
  (forall b d', 0 <= b < sb_size s -> used c s b = false -> tstep dev H d d' ->
     tstate dev pid p d' (alloc_c c s b) (logadd (logadd L (BBLOCK b s)) b) H -> Q b [] d') ->
  wp p [] (balloc dev) d Q.
Proof using Hp.
  intros s Ht Hs Hm Hf HH (b0 & Hb0 & Hu0) HQ. unfold balloc. wp_run. fold s.
  change (forE ?l _) with (forE l (balloc_body s)).
  set (N := (sb_size s + BPB - 1) / BPB).
  assert (b0 / BPB ∈ upto N) as Hin.
  { apply list_elem_of_In. unfold upto. apply in_map_iff. exists (Z.to_nat (b0 / BPB)). rewrite in_seq. unfold N, BPB, BSIZE in *. Z.to_euclidean_division_equations. lia. }
  assert (Forall (fun j => 0 <= j /\ j * BPB < sb_size s) (upto N)) as Hall.
  { apply Forall_forall. intros j Hj%list_elem_of_In. unfold upto in Hj. apply in_map_iff in Hj as (k & <- & Hk%in_seq). unfold N, BPB, BSIZE in *. Z.to_euclidean_division_equations. lia. }
  assert (forall d1, tstep dev H d d1 -> tstate dev pid p d1 c L H ->
    wp p [] (forE (map (fun i => i * BPB) (upto N)) (balloc_body s)) d1 (fun r hl d' => hl = [] /\ exists b, r = Some b /\ 0 <= b < sb_size s /\ used c s b = false /\
      tstep dev H d d' /\ tstate dev pid p d' (alloc_c c s b) (logadd (logadd L (BBLOCK b s)) b) H)) as HL.
  { induction (upto N) as [|j l IH]; intros d1 Hs1 Ht1; [by apply elem_of_nil in Hin|]. apply Forall_cons in Hall as [[Hj Hjs] Hall]. cbn [map forE].
    apply wp_bind. eapply wp_balloc_body; try done.
    - intros Hfull d2 Hs2 Ht2. cbv beta. apply elem_of_cons in Hin as [E|Hin].
      { rewrite (Hfull b0) in Hu0; [done|done|lia]. }
      apply IH; [done|done|by eapply tstep_trans|done].
    - intros b d2 H1 H2 H3 H4. wp_run. split; [done|]. exists b. split_and!; try done; [lia..|by eapply tstep_trans]. }
  eapply wp_mono; [by apply HL; [apply tstep_refl|]|]. intros r hl d' (-> & b & -> & H1 & H2 & H3 & H4). wp_run. by apply HQ.
Qed.
End Balloc.
