(* ===== verification/FsMap.v ===== *)
(** * The blocks of a file, and taking new ones

    The blocks an inode owns (its direct blocks, its indirect block and the blocks
    listed there), when they are well formed, how allocation extends them, and
    bmap(): it returns the block of a file block, taking what is missing from the
    free map. *)

From S2P Require Import Prelude State Spinlock CString Kalloc Sched SchedSpec Wp Sleeplock Bio BioSpec Log LogSpec Fs FsView FsSpec FsTxn FsAlloc.
Open Scope Z_scope.

(** Block [i] of the file for [i < MAXFILE]; [MAXFILE] stands for the indirect block; 0 is none. *)
Definition own (c : disk) (addr : Z -> Z) (i : Z) : Z :=
  if i =? MAXFILE then addr NDIRECT else if i <? NDIRECT then addr i else
  if addr NDIRECT =? 0 then 0 else ld32 (c (addr NDIRECT)) (4 * (i - NDIRECT)).

Definition slot (i : Z) : Prop := 0 <= i <= MAXFILE.

Lemma MAXFILE_eq : MAXFILE = 268.
Proof. done. Qed.

Lemma own_fblk c addr i : slot i -> i <> MAXFILE -> own c addr i <> 0 -> fblk c addr i = own c addr i.
Proof.
  unfold own, fblk, slot. intros Hi Hne. rewrite (proj2 (Z.eqb_neq i MAXFILE)) by done.
  destruct (i <? NDIRECT); [done|]. destruct (addr NDIRECT =? 0); done.
Qed.

Lemma own_direct c addr i : i < NDIRECT -> own c addr i = addr i.
Proof. intros Hi. unfold own. rewrite (proj2 (Z.eqb_neq i MAXFILE)), (proj2 (Z.ltb_lt i NDIRECT)); [done|done|rewrite MAXFILE_eq; unfold NDIRECT in *; lia]. Qed.

Lemma own_ind c addr : own c addr MAXFILE = addr NDIRECT.
Proof. unfold own. by rewrite Z.eqb_refl. Qed.

Lemma own_entry c addr i : NDIRECT <= i < MAXFILE -> addr NDIRECT <> 0 -> own c addr i = ld32 (c (addr NDIRECT)) (4 * (i - NDIRECT)).
Proof.
  intros Hi Ha. unfold own. by rewrite (proj2 (Z.eqb_neq i MAXFILE)), (proj2 (Z.ltb_ge i NDIRECT)), (proj2 (Z.eqb_neq (addr NDIRECT) 0)) by lia.
Qed.

Lemma own_no_ind c addr i : NDIRECT <= i < MAXFILE -> addr NDIRECT = 0 -> own c addr i = 0.
Proof. intros Hi Ha. unfold own. by rewrite (proj2 (Z.eqb_neq i MAXFILE)), (proj2 (Z.ltb_ge i NDIRECT)), Ha by lia. Qed.

(** [own] reads the addresses and the indirect block only. *)
Lemma own_ext c c' addr addr' i :
  slot i -> (forall j, 0 <= j <= NDIRECT -> addr' j = addr j) ->
  (NDIRECT <= i < MAXFILE -> addr NDIRECT <> 0 -> ld32 (c' (addr NDIRECT)) (4 * (i - NDIRECT)) = ld32 (c (addr NDIRECT)) (4 * (i - NDIRECT))) ->
  own c' addr' i = own c addr i.
Proof.
  unfold slot. intros Hi Ha Hc. assert (0 <= NDIRECT < MAXFILE) as Hn by (by vm_compute). unfold own. rewrite (Ha NDIRECT) by lia.
  destruct (Z.eqb_spec i MAXFILE); [done|]. destruct (Z.ltb_spec i NDIRECT); [apply Ha; lia|].
  destruct (Z.eqb_spec (addr NDIRECT) 0); [done|]. apply Hc; lia.
Qed.

Section Files.
Context (s : superblock).
Hypothesis Hs : sb_ok s.
Implicit Types (c : disk) (addr : Z -> Z).

(** Every block of the file is a used data block, and no block has two places. *)
Record file_wf c addr : Prop := {
  fw_range : forall i, slot i -> own c addr i <> 0 -> nmeta s <= own c addr i < sb_size s /\ used c s (own c addr i) = true;
  fw_inj : forall i j, slot i -> slot j -> own c addr i = own c addr j -> own c addr i <> 0 -> i = j;
}.

(** From [c], [addr] to [c'], [addr'] the file has grown: its blocks stay in their
    places, the new ones were free, the free map lost exactly the new ones, and the
    used blocks of others are unchanged. *)
Record extends c addr c' addr' : Prop := {
  ex_own : forall i, slot i -> own c addr i <> 0 -> own c' addr' i = own c addr i;
  ex_new : forall i, slot i -> own c addr i = 0 -> own c' addr' i <> 0 -> used c s (own c' addr' i) = false;
  ex_used : forall b, 0 <= b < sb_size s -> used c s b = true -> used c' s b = true;
  ex_fresh : forall b, 0 <= b < sb_size s -> used c' s b = true -> used c s b = true \/ b <> 0 /\ exists i, slot i /\ own c' addr' i = b;
  ex_other : forall b, 0 <= b < sb_size s -> used c s b = true -> (b < sb_bmapstart s \/ nmeta s <= b) ->
    (forall i, slot i -> own c addr i <> b) -> c' b = c b;
}.

Lemma extends_refl c addr : extends c addr c addr.
Proof using. split; try done. by left. Qed.

Lemma extends_trans c addr c1 addr1 c2 addr2 :
  file_wf c1 addr1 -> file_wf c2 addr2 -> extends c addr c1 addr1 -> extends c1 addr1 c2 addr2 -> extends c addr c2 addr2.
Proof using Hs.
  pose proof (sb_ok_bmap s Hs) as (Hb0 & Hb1 & Hb2).
  intros W1 W2 [A1 A2 A3 A4 A5] [B1 B2 B3 B4 B5].
  assert (forall i, slot i -> own c addr i = 0 -> own c2 addr2 i <> 0 -> used c s (own c2 addr2 i) = false) as N.
  { intros i Hi E0 E2. destruct (decide (own c1 addr1 i = 0)) as [E1|E1].
    - destruct (used c s (own c2 addr2 i)) eqn:E; [|done]. destruct (fw_range _ _ W2 i Hi E2) as [Hr _].
      rewrite <- (A3 (own c2 addr2 i)), B2 by (try done; lia). done.
    - rewrite B1 by done. by apply A2. }
  split; [| |by auto| |].
  - intros i Hi H0. rewrite B1, A1; try done. by rewrite A1.
  - done.
  - intros b Hb H2. destruct (B4 b Hb H2) as [H1|H1]; [|by right].
    destruct (A4 b Hb H1) as [H0|(Hnz & i & Hi & E)]; [by left|]. right. split; [done|]. exists i. split; [done|]. rewrite B1; [done|done|congruence].
  - intros b Hb Hu Hm Hn. rewrite B5; [by apply A5|done|by apply A3|done|]. intros i Hi E.
    destruct (decide (own c addr i = 0)) as [E0|E0].
    + assert (own c1 addr1 i <> 0) as E1 by (intros E1; apply (Hn i Hi); congruence).
      rewrite <- E, (A2 i) in Hu by done. done.
    + apply (Hn i Hi). by rewrite <- A1.
Qed.

(** The data blocks of the file are unchanged. *)
Definition kept_data c addr c' : Prop := forall i, slot i -> i <> MAXFILE -> own c addr i <> 0 -> c' (own c addr i) = c (own c addr i).

Section Grow.
Context c addr (b i0 : Z) c' addr'.
Hypothesis Hm : map_ok c s.
Hypothesis Hw : file_wf c addr.
Hypothesis Hb : 0 <= b < sb_size s.
Hypothesis Hu : used c s b = false.
Hypothesis Hi0 : slot i0.
Hypothesis H0 : own c addr i0 = 0.
Hypothesis H0' : own c' addr' i0 = b.
Hypothesis Hown : forall i, slot i -> i <> i0 -> own c' addr' i = own c addr i.
Hypothesis Hused : forall k, 0 <= k < sb_size s -> used c' s k = (b =? k) || used c s k.
Hypothesis Hsame : forall k, k <> b -> (k < sb_bmapstart s \/ nmeta s <= k) -> k <> own c addr MAXFILE -> c' k = c k.

Lemma grow_free : nmeta s <= b.
Proof using Hm Hb Hu. by apply (free_data c). Qed.

Lemma grow_map : map_ok c' s.
Proof using Hs Hm Hused.
  pose proof (sb_ok_bmap s Hs). intros k Hk. rewrite Hused by lia. rewrite (Hm k Hk). apply orb_true_r.
Qed.

Lemma grow_nz : b <> 0.
Proof using Hs Hm Hb Hu. pose proof grow_free. pose proof (sb_ok_bmap s Hs). lia. Qed.

(** A block of the file is not the new one. *)
Lemma grow_ne i : slot i -> own c addr i <> b.
Proof using Hs Hm Hw Hb Hu.
  intros Hi E. pose proof grow_nz as Hnz. destruct (fw_range _ _ Hw i Hi) as [_ E']; congruence.
Qed.

Lemma grow_wf : file_wf c' addr'.
Proof using All.
  pose proof grow_free as Hfr. pose proof (sb_ok_bmap s Hs) as (Hb0 & Hb1 & Hb2). split.
  - intros i Hi Hnz. destruct (decide (i = i0)) as [->|Hne].
    + rewrite H0'. split; [lia|]. rewrite Hused by lia. by rewrite Z.eqb_refl.
    + rewrite Hown in * by done. destruct (fw_range _ _ Hw i Hi Hnz) as [Hr E]. split; [done|]. rewrite Hused, E by lia. apply orb_true_r.
  - intros i j Hi Hj E Hnz. destruct (decide (i = i0)) as [->|Hi'], (decide (j = i0)) as [->|Hj']; [done| | |].
    + rewrite H0', Hown in E by done. by destruct (grow_ne j Hj).
    + rewrite H0', Hown in E by done. by destruct (grow_ne i Hi).
    + rewrite !Hown in * by done. by eapply fw_inj.
Qed.

Lemma grow_extends : extends c addr c' addr'.
Proof using All.
  pose proof grow_nz as Hnz. split.
  - intros i Hi Hz. apply Hown; [done|]. intros ->. done.
  - intros i Hi Hz Hz'. destruct (decide (i = i0)) as [->|Hne]; [by rewrite H0'|]. rewrite Hown in Hz' by done. done.
  - intros k Hk E. rewrite Hused, E by done. apply orb_true_r.
  - intros k Hk E. rewrite Hused in E by done. apply orb_true_iff in E as [E%Z.eqb_eq|E]; [|by left].
    right. split; [congruence|]. exists i0. split; [done|congruence].
  - intros k Hk E Hr Hn. apply Hsame; [congruence|done|]. intros ->. apply (Hn MAXFILE); [by vm_compute|done].
Qed.

Lemma grow_data : kept_data c addr c'.
Proof using Hs Hm Hw Hb Hu Hsame.
  intros i Hi Hne Hz. destruct (fw_range _ _ Hw i Hi Hz) as [Hr E]. apply Hsame; [by apply grow_ne|lia|].
  intros EM. apply Hne, (fw_inj _ _ Hw); [done|by vm_compute|done|done].
Qed.
End Grow.

(** The three ways a file takes a block: a direct block, the indirect block, an
    entry of the indirect block. *)
Definition grown c addr c' addr' : Prop :=
  map_ok c' s /\ file_wf c' addr' /\ extends c addr c' addr' /\ kept_data c addr c'.

Lemma alloc_same c b k : sb_ok s -> 0 <= b < sb_size s -> k <> b -> (k < sb_bmapstart s \/ nmeta s <= k) -> alloc_c c s b k = c k.
Proof using. intros Hs' Hb Hne Hk. apply alloc_other; [done|]. pose proof (BBLOCK_meta s b Hs' Hb). lia. Qed.

Lemma grown_addr c addr b k :
  map_ok c s -> file_wf c addr -> 0 <= b < sb_size s -> used c s b = false -> 0 <= k <= NDIRECT -> addr k = 0 ->
  let c' := alloc_c c s b in let addr' := addr.[k := b] in
  let i0 := if k =? NDIRECT then MAXFILE else k in
  grown c addr c' addr' /\ own c' addr' i0 = b /\ (forall i, slot i -> i <> i0 -> own c' addr' i = own c addr i) /\
  forall j, 0 <= j < sb_size s -> used c' s j = (b =? j) || used c s j.
Proof using Hs.
  intros Hm Hw Hb Hu Hk H0 c' addr' i0. pose proof MAXFILE_eq as EM. assert (NDIRECT = 12) as EN by done.
  pose proof (free_data c s b Hm Hb Hu) as Hfr. pose proof (sb_ok_bmap s Hs) as (Hb0 & Hb1 & Hb2).
  assert (slot i0) as Hi0 by (unfold i0, slot; destruct (k =? NDIRECT); lia).
  assert (own c addr i0 = 0) as O0.
  { unfold i0. destruct (Z.eqb_spec k NDIRECT) as [->|]; [by rewrite own_ind|]. by rewrite own_direct by lia. }
  assert (own c' addr' i0 = b) as O1.
  { unfold i0, addr'. destruct (Z.eqb_spec k NDIRECT) as [->|]; [rewrite own_ind; apply fupd_eq|]. rewrite own_direct by lia. apply fupd_eq. }
  assert (forall i, slot i -> i <> i0 -> own c' addr' i = own c addr i) as Ho.
  { intros i Hi Hne. destruct (Z.eqb_spec k NDIRECT) as [->|Hkn].
    - destruct (decide (i < NDIRECT)) as [Hlt|Hge]; [rewrite !own_direct by done; unfold addr'; apply fupd_ne; lia|].
      unfold slot in Hi. fold i0 in Hne. rewrite (own_no_ind c addr) by (try done; unfold i0 in Hne; rewrite ?Z.eqb_refl in Hne; lia).
      rewrite own_entry by (unfold addr'; rewrite ?fupd_eq; unfold i0 in Hne; rewrite ?Z.eqb_refl in Hne; lia).
      unfold addr'. rewrite fupd_eq. apply ld32_zero. intros j Hj. apply alloc_zero. unfold i0 in Hne. rewrite ?Z.eqb_refl in Hne. unfold BSIZE. lia.
    - unfold i0 in Hne. destruct (Z.eqb_spec k NDIRECT); [done|]. destruct (decide (i < NDIRECT)); [rewrite !own_direct by done; unfold addr'; by apply fupd_ne|].
      unfold slot in Hi. destruct (decide (i = MAXFILE)) as [->|]; [rewrite !own_ind; unfold addr'; by apply fupd_ne|].
      destruct (decide (addr NDIRECT = 0)) as [Ez|Ez].
      + rewrite !own_no_ind by (try done; try lia; unfold addr'; by rewrite fupd_ne). done.
      + rewrite !own_entry by (try done; try lia; unfold addr'; by rewrite fupd_ne). unfold addr'. rewrite fupd_ne by done.
        destruct (fw_range _ _ Hw MAXFILE) as [Hr E]; [by vm_compute|by rewrite own_ind|]. rewrite own_ind in Hr, E.
        unfold c'. rewrite alloc_same; [done|done|done|congruence|lia]. }
  assert (forall j, 0 <= j < sb_size s -> used c' s j = (b =? j) || used c s j) as HU by (intros; by apply used_alloc).
  assert (forall j, j <> b -> (j < sb_bmapstart s \/ nmeta s <= j) -> j <> own c addr MAXFILE -> c' j = c j) as HS by (intros; by apply alloc_same).
  split; [|by split_and!]. split_and!; [by eapply grow_map|by eapply grow_wf|by eapply grow_extends|by eapply grow_data].
Qed.

Lemma grown_entry c addr b k :
  map_ok c s -> file_wf c addr -> 0 <= b < sb_size s -> used c s b = false -> NDIRECT <= k < MAXFILE -> addr NDIRECT <> 0 -> own c addr k = 0 ->
  let a := addr NDIRECT in let c1 := alloc_c c s b in let c' := c1.[a := st32 (c1 a) (4 * (k - NDIRECT)) b] in
  grown c addr c' addr /\ own c' addr k = b /\ (forall i, slot i -> i <> k -> own c' addr i = own c addr i) /\
  forall j, 0 <= j < sb_size s -> used c' s j = (b =? j) || used c s j.
Proof using Hs.
  intros Hm Hw Hb Hu Hk Ha H0 a c1 c'. pose proof MAXFILE_eq as EM. assert (NDIRECT = 12) as EN by done.
  pose proof (free_data c s b Hm Hb Hu) as Hfr. pose proof (sb_ok_bmap s Hs) as (Hb0 & Hb1 & Hb2). pose proof (so_size _ Hs) as Hsz.
  destruct (fw_range _ _ Hw MAXFILE) as [Ra Ea]; [by vm_compute|by rewrite own_ind|]. rewrite own_ind in Ra, Ea. fold a in Ra, Ea.
  assert (a <> b) as Hab by congruence.
  assert (c1 a = c a) as Eca by (apply alloc_same; [done|done|done|lia]).
  assert (own c' addr k = b) as O1.
  { rewrite own_entry by done. fold a. unfold c'. rewrite fupd_eq, ld32_st32. apply u32_small. lia. }
  assert (forall i, slot i -> i <> k -> own c' addr i = own c addr i) as Ho.
  { intros i Hi Hne. apply own_ext; [done|done|]. intros Hi2 _. fold a. unfold c'. rewrite fupd_eq, ld32_st32_other, Eca; [done|lia]. }
  assert (forall j, 0 <= j < sb_size s -> used c' s j = (b =? j) || used c s j) as HU.
  { intros j Hj. rewrite <- (used_alloc c s b) by done. unfold used. pose proof (BBLOCK_meta s j Hs Hj). unfold c'. by rewrite fupd_ne by lia. }
  assert (forall j, j <> b -> (j < sb_bmapstart s \/ nmeta s <= j) -> j <> own c addr MAXFILE -> c' j = c j) as HS.
  { intros j H1 H2 H3. rewrite own_ind in H3. unfold c'. rewrite fupd_ne by done. by apply alloc_same. }
  assert (slot k) as Hks by (unfold slot; lia).
  split; [|by split_and!]. split_and!; [by eapply grow_map|by eapply grow_wf|by eapply grow_extends|by eapply grow_data].
Qed.

Lemma grown_refl c addr : map_ok c s -> file_wf c addr -> grown c addr c addr.
Proof using. intros H1 H2. split_and!; [done|done|apply extends_refl|]. intros i _ _ _. done. Qed.

Lemma grown_trans c addr c1 addr1 c2 addr2 : grown c addr c1 addr1 -> grown c1 addr1 c2 addr2 -> grown c addr c2 addr2.
Proof using Hs.
  intros (A1 & A2 & A3 & A4) (B1 & B2 & B3 & B4). split_and!; [done|done|exact (extends_trans _ _ _ _ _ _ A2 B2 A3 B3)|].
  intros i Hi Hne Hz. pose proof (ex_own _ _ _ _ A3 i Hi Hz) as E. rewrite <- E, B4 by (try done; by rewrite E). rewrite E. by apply A4.
Qed.
End Files.

(** ** Free blocks *)

Definition free_blocks (c : disk) (s : superblock) : list Z := filter (fun b => used c s b = false) (upto (sb_size s)).
Definition nfree (c : disk) (s : superblock) : nat := length (free_blocks c s).

Lemma elem_upto n b : b ∈ upto n <-> 0 <= b < n.
Proof.
  rewrite list_elem_of_In. unfold upto. rewrite in_map_iff. split.
  - intros (k & <- & Hk%in_seq). lia.
  - intros Hb. exists (Z.to_nat b). rewrite in_seq. lia.
Qed.

Lemma NoDup_upto n : NoDup (upto n).
Proof. unfold upto. apply (NoDup_fmap_2 Z.of_nat), NoDup_seq. Qed.

Lemma elem_free c s b : b ∈ free_blocks c s <-> used c s b = false /\ 0 <= b < sb_size s.
Proof. unfold free_blocks. by rewrite list_elem_of_filter, elem_upto. Qed.

Lemma nfree_ex c s : (0 < nfree c s)%nat -> exists b, 0 <= b < sb_size s /\ used c s b = false.
Proof.
  unfold nfree. destruct (free_blocks c s) as [|b l] eqn:E; [simpl; lia|]. intros _.
  assert (b ∈ free_blocks c s) as H by (rewrite E; set_solver). apply elem_free in H. exists b. tauto.
Qed.

(** One block less is free when one more is used. *)
Lemma nfree_one c c' s b : (forall k, 0 <= k < sb_size s -> used c' s k = (b =? k) || used c s k) -> (nfree c s <= S (nfree c' s))%nat.
Proof.
  intros H. unfold nfree. change (S (length (free_blocks c' s))) with (length (b :: free_blocks c' s)).
  apply submseteq_length, NoDup_submseteq; [apply NoDup_filter, NoDup_upto|].
  intros k [Hk Hr]%elem_free. apply elem_of_cons. destruct (decide (k = b)) as [->|Hne]; [by left|right].
  apply elem_free. rewrite H, Hk by done. rewrite (proj2 (Z.eqb_neq b k)) by congruence. done.
Qed.

(** ** bmap() *)

(** The blocks of the free map. *)
Definition map_blocks (s : superblock) : list Z := map (fun j => j + sb_bmapstart s) (upto (sb_size s / BPB + 1)).

Lemma BBLOCK_in s b : sb_ok s -> 0 <= b < sb_size s -> BBLOCK b s ∈ map_blocks s.
Proof.
  intros Hs Hb. destruct (BBLOCK_range s b Hs Hb) as [-> Hd]. apply (list_elem_of_fmap_2' (fun j => j + sb_bmapstart s) _ (b / BPB)); [|done].
  apply elem_upto. lia.
Qed.

(** An indirect block is still to be allocated. *)
Definition ind_need (addr : Z -> Z) : nat := if addr NDIRECT =? 0 then 1 else 0.

(** File block [k] is still to be allocated. *)
Definition lacks (c : disk) (addr : Z -> Z) (k : Z) : nat := if own c addr k =? 0 then 1 else 0.

Section Bmap.
Context {D : DiskDriver} (dev pid : Z) (p : nat).
Hypothesis Hp : (p < NPROC)%nat.
Implicit Types (c : disk) (d : kdata) (L H : list Z).

(** Inside a transaction, with the addresses of inode [ip] changed. *)
Definition istep (ip : nat) (d d' : kdata) : Prop :=
  frame d d' /\ exists a, kept (set_inodes (inodes (fs d)).[ip := set_i_addrs a (inodes (fs d) ip)] (fs d)) (fs d').

Lemma set_same_ino (r : inode) : set_i_addrs (i_addrs r) r = r.
Proof using. by destruct r. Qed.

Lemma set_inodes_same x : set_inodes (inodes x) x = x.
Proof using. by destruct x. Qed.

Lemma kept_inodes x x' I : kept x x' -> kept (set_inodes I x) (set_inodes I x').
Proof using. by intros [H1 H2 H3 H4 H5 H6]. Qed.

Lemma tstep_istep ip H d d' : tstep dev H d d' -> istep ip d d'.
Proof using.
  intros (Hf & Hk & _). split; [done|]. exists (i_addrs (inodes (fs d) ip)).
  by rewrite set_same_ino, fupd_id, set_inodes_same.
Qed.

Lemma istep_inodes ip d d' : istep ip d d' -> exists a, inodes (fs d') = (inodes (fs d)).[ip := set_i_addrs a (inodes (fs d) ip)].
Proof using. intros (_ & a & K). exists a. by rewrite (kp_ino _ _ K). Qed.

Lemma istep_trans ip d1 d2 d3 : istep ip d1 d2 -> istep ip d2 d3 -> istep ip d1 d3.
Proof using.
  intros (F1 & a1 & K1) (F2 & a2 & K2). split; [by eapply frame_trans|]. exists a2.
  eapply kept_trans; [|exact K2]. rewrite (kp_ino _ _ K1). cbn [inodes set_inodes]. rewrite fupd_eq, fupd_fupd.
  apply (kept_inodes _ _ ((inodes (fs d1)).[ip := set_i_addrs a2 (inodes (fs d1) ip)])) in K1.
  exact K1.
Qed.

Lemma istep_setino ip d f a :
  f (inodes (fs d) ip) = set_i_addrs a (inodes (fs d) ip) ->
  istep ip d (upd_fs (fun x => set_inodes (inodes x).[ip := f (inodes x ip)] x) d).
Proof using. intros E. split; [apply frame_upd_fs|]. exists a. rewrite <- E. apply kept_refl. Qed.

Lemma tstate_setino d c L H I : tstate dev pid p d c L H -> tstate dev pid p (upd_fs (fun x => set_inodes (I x) x) d) c L H.
Proof using. intros [[C1 C2 C3 C4 C5 C6 C7 C8 C9 C10 C11 C12 C13] Hg Hpid]. split; [by split|done|done]. Qed.

(** The result of bmap() for file block [k]. *)
Record mapped (s : superblock) c addr L (k b : Z) c' addr' L' : Prop := {
  mp_grown : grown s c addr c' addr';
  mp_blk : own c' addr' k = b;
  mp_nz : b <> 0;
  mp_only : forall i, slot i -> i <> k -> i <> MAXFILE -> own c' addr' i = own c addr i;
  mp_zero : own c addr k = 0 -> forall o, 0 <= o < BSIZE -> c' b o = 0;
  mp_free : (nfree c s + ind_need addr' <= nfree c' s + ind_need addr + lacks c addr k)%nat;
  mp_log : forall bn, bn ∈ L' -> bn ∈ L \/ bn ∈ map_blocks s \/ bn = b \/ bn = own c' addr' MAXFILE /\ bn <> 0;
  mp_len : (length L' <= length L + 5)%nat;
}.

(** The state [d] of a transaction on the file of inode [ip]. *)
Record ostate (ip : nat) d (s : superblock) c addr L : Prop := {
  os_t : tstate dev pid p d c L [];
  os_sb : sb (fs d) = s;
  os_dev : i_dev (inodes (fs d) ip) = dev;
  os_addr : i_addrs (inodes (fs d) ip) = addr;
}.

Lemma ostate_tstep ip H d d' s c addr L c' L' :
  ostate ip d s c addr L -> tstep dev H d d' -> tstate dev pid p d' c' L' [] -> ostate ip d' s c' addr L'.
Proof using.
  intros [O1 O2 O3 O4] (_ & K & _) Ht. split; [done|by rewrite (kp_sb _ _ K)|by rewrite (kp_ino _ _ K)..].
Qed.

Lemma length_logadd2 L a b : (length (logadd (logadd L a) b) <= length L + 2)%nat.
Proof using. clear Hp. pose proof (length_logadd L a). pose proof (length_logadd (logadd L a) b). lia. Qed.

(** balloc() and storing the block in the address [k] of the inode. *)
Lemma wp_take_addr ip d s c addr L k Q :
  ostate ip d s c addr L -> sb_ok s -> map_ok c s -> file_wf s c addr -> fits L [] 2 -> (0 < nfree c s)%nat ->
  0 <= k <= NDIRECT -> addr k = 0 ->
  (forall b d', 0 <= b < sb_size s -> used c s b = false -> istep ip d d' ->
     ostate ip d' s (alloc_c c s b) (addr.[k := b]) (logadd (logadd L (BBLOCK b s)) b) -> Q b [] d') ->
  wp p [] (let* addr := balloc dev in setino ip (fun r => set_i_addrs (i_addrs r).[k := addr] r);; ret addr) d Q.
Proof using Hp.
  intros [O1 O2 O3 O4] Hs Hm Hw Hf Hn Hk H0 HQ. apply wp_bind. apply (wp_balloc dev pid p Hp d c L []); rewrite ?O2; try done.
  { intros bn []%not_elem_of_nil. }
  { by apply nfree_ex. }
  intros b d1 Hb Hu Hs1 Ht1. wp_run. apply HQ; [done|done| |].
  - eapply istep_trans; [by eapply tstep_istep|]. by apply (istep_setino ip d1 _ (i_addrs (inodes (fs d1) ip)).[k := b]).
  - destruct Hs1 as (_ & K & _). split; [by apply tstate_setino|simpl; by rewrite (kp_sb _ _ K)| |]; simpl; rewrite fupd_eq; simpl; by rewrite (kp_ino _ _ K), ?O3, ?O4.
Qed.

Lemma wp_bmap_direct ip d s c addr L k Q :
  ostate ip d s c addr L -> sb_ok s -> map_ok c s -> file_wf s c addr -> fits L [] 5 ->
  (own c addr k = 0 -> (1 + ind_need addr <= nfree c s)%nat) -> 0 <= k < NDIRECT ->
  (forall b d' c' addr' L', istep ip d d' -> ostate ip d' s c' addr' L' -> mapped s c addr L k b c' addr' L' -> Q b [] d') ->
  wp p [] (bmap ip k) d Q.
Proof using Hp.
  intros O Hs Hm Hw Hf Hn Hk HQ. pose proof O as [O1 O2 O3 O4]. unfold bmap. wp_run. rewrite O3, (proj2 (Z.ltb_lt k NDIRECT)) by lia. wp_run.
  rewrite O4. rewrite own_direct in Hn by lia. destruct (Z.eqb_spec (addr k) 0) as [E|E].
  - specialize (Hn E). eapply wp_take_addr; [done|done|done|done|by eapply fits_mono; [|done]; lia|lia|lia|done|]. intros b d' Hb Hu Hi O'.
    destruct (grown_addr s Hs c addr b k Hm Hw Hb Hu ltac:(lia) E) as (G & Ob & Oth & HU). rewrite (proj2 (Z.eqb_neq k NDIRECT)) in Ob, Oth by lia.
    apply (HQ b d' _ _ _ Hi O'). split; [done|done|exact (grow_nz s Hs c b Hm Hb Hu)|by auto| | | |pose proof (length_logadd2 L (BBLOCK b s) b); lia].
    + intros _ o Ho. by apply alloc_zero.
    + pose proof (nfree_one _ _ _ _ HU). unfold ind_need, lacks. rewrite fupd_ne, own_direct, E by lia. simpl. lia.
    + intros bn [[Hb1| ->]%elem_logadd| ->]%elem_logadd; [by left|right; left; by apply BBLOCK_in|by right; right; left].
  - wp_run. apply (HQ _ d c addr L); [exact (tstep_istep ip [] _ _ (tstep_refl dev [] d))|done|].
    split; [by apply grown_refl|by rewrite own_direct by lia|done|done|rewrite own_direct by lia; done|lia|by left|lia].
Qed.

(** The part of bmap() that looks up, or fills, an entry of the indirect block. *)
Definition bmap_entry (a j : Z) : M Z :=
  let* bp := bread dev a in
  let* v := getb bp (fun r => ld32 (b_data r) (4 * j)) in
  let* addr := (if v =? 0 then
                  let* addr := balloc dev in
                  setb bp (upd_data (fun m => st32 m (4 * j) addr));;
                  log_write bp;;
                  ret addr
                else ret v) in
  brelse bp;;
  ret addr.

Lemma wp_bmap_entry ip d s c addr L k Q :
  ostate ip d s c addr L -> sb_ok s -> map_ok c s -> file_wf s c addr -> fits L [] 4 -> (own c addr k = 0 -> (0 < nfree c s)%nat) ->
  NDIRECT <= k < MAXFILE -> addr NDIRECT <> 0 ->
  (forall b d' c' L', istep ip d d' -> ostate ip d' s c' addr L' -> mapped s c addr L k b c' addr L' -> (length L' <= length L + 3)%nat -> Q b [] d') ->
  wp p [] (bmap_entry (addr NDIRECT) (k - NDIRECT)) d Q.
Proof using Hp.
  intros O Hs Hm Hw Hf Hn Hk Ha HQ. pose proof O as [O1 O2 O3 O4]. set (a := addr NDIRECT) in *. unfold fits, NBUF in Hf. simpl in Hf.
  destruct (fw_range _ _ _ Hw MAXFILE) as [Ra Ea]; [by vm_compute|by rewrite own_ind|]. rewrite own_ind in Ra, Ea. fold a in Ra, Ea.
  pose proof (so_size _ Hs) as Hsz. pose proof (sb_ok_bmap s Hs) as (Hb0 & Hb1 & Hb2). assert (blk_ok a) as Hok by (unfold blk_ok; lia).
  pose proof (own_entry c addr k Hk Ha) as Ek. fold a in Ek.
  unfold bmap_entry. apply wp_bind. eapply wp_bread_t; [done|done|done|apply not_elem_of_nil|unfold NBUF; simpl; lia|]. intros bp d1 Hs1 Ht1 Hbk1 Hdat. wp_run. rewrite Hdat, <- Ek.
  destruct (Z.eqb_spec (own c addr k) 0) as [E|E].
  - apply wp_bind. assert (sb (fs d1) = s) as Esb by (destruct Hs1 as (_ & K & _); by rewrite (kp_sb _ _ K)).
    apply (wp_balloc dev pid p Hp d1 c L [a]); rewrite ?Esb; try done.
    { unfold fits, NBUF. simpl. lia. }
    { intros bn ->%list_elem_of_singleton. split; [lia|done]. }
    { by apply nfree_ex, Hn. }
    intros b d2 Hb Hu Hs2 Ht2. destruct (grown_entry s Hs c addr b k Hm Hw Hb Hu Hk Ha E) as (G & Ob & Oth & HU). fold a in G, Ob, Oth, HU.
    pose proof (free_data c s b Hm Hb Hu) as Hfr. assert (a <> b) as Hab by congruence.
    assert (blk_of dev (fs d2) bp a) as Hbk2 by (apply Hs2; [set_solver|done]). pose proof (length_logadd2 L (BBLOCK b s) b) as Hl2.
    apply wp_bind. eapply wp_put; [done|done|done|set_solver|]. intros d3 Hs3 Ht3 Hbk3 _.
    apply wp_bind. eapply wp_log_write_t; [done|done|exact Hbk3|set_solver|done|unfold LOGSIZE, MAXOPBLOCKS, NBUF in *; lia|]. intros d4 Hs4 Ht4 Hbk4. wp_run.
    eapply wp_brelse_t; [done|done|apply not_elem_of_nil|done|left; apply elem_logadd; by right|]. intros d5 Hs5 Ht5. wp_run.
    assert (tstep dev [] d d5) as Hst.
    { eapply tstep_trans; [exact Hs1|]. eapply tstep_trans; [by eapply tstep_sub; [|exact Hs2]; set_solver|].
      eapply tstep_trans; [by eapply tstep_sub; [|exact Hs3]; set_solver|]. eapply tstep_trans; [by eapply tstep_sub; [|exact Hs4]; set_solver|done]. }
    pose proof (length_logadd (logadd (logadd L (BBLOCK b s)) b) a) as Hl3.
    apply (HQ b d5 _ _ (tstep_istep ip _ _ _ Hst) (ostate_tstep _ _ _ _ _ _ _ _ _ _ O Hst Ht5)); [|lia].
    split; [done|done|exact (grow_nz s Hs c b Hm Hb Hu)|by auto| | | |lia].
    + intros _ o Ho. rewrite fupd_ne by done. by apply alloc_zero.
    + pose proof (nfree_one _ _ _ _ HU). unfold lacks. rewrite E. simpl. lia.
    + intros bn [[[Hb3| ->]%elem_logadd| ->]%elem_logadd| ->]%elem_logadd; [by left|right; left; by apply BBLOCK_in|by right; right; left|right; right; right; by rewrite own_ind].
  - wp_run. eapply wp_brelse_t; [done|done|apply not_elem_of_nil|done| |].
    + destruct (decide (a ∈ L)) as [|Hnl]; [by left|right]. destruct Hs1 as (_ & K & _). rewrite (kp_dblk _ _ K).
      apply (ca_clean _ _ _ _ _ _ (ts_cache _ _ _ _ _ _ _ O1)). unfold refs. rewrite !decide_False; [done|apply not_elem_of_nil|done].
    + intros d2 Hs2 Ht2. wp_run. assert (tstep dev [] d d2) as Hst by by eapply tstep_trans.
      apply (HQ _ d2 _ _ (tstep_istep ip _ _ _ Hst) (ostate_tstep _ _ _ _ _ _ _ _ _ _ O Hst Ht2)); [|lia].
      split; [by apply grown_refl|done|done|done|done|lia|by left|lia].
Qed.

Lemma mapped_after s c addr L k b c1 addr1 L1 c2 L2 a :
  sb_ok s -> grown s c addr c1 addr1 -> own c1 addr1 MAXFILE = a -> a <> 0 -> (forall i, slot i -> i <> MAXFILE -> own c1 addr1 i = own c addr i) -> slot k -> k <> MAXFILE -> (length L1 <= length L + 2)%nat ->
  (nfree c s + ind_need addr1 <= nfree c1 s + ind_need addr)%nat ->
  (forall bn, bn ∈ L1 -> bn ∈ L \/ bn ∈ map_blocks s \/ bn = a) ->
  mapped s c1 addr1 L1 k b c2 addr1 L2 -> (length L2 <= length L1 + 3)%nat -> mapped s c addr L k b c2 addr1 L2.
Proof using.
  clear Hp. intros Hs G EM Ha Ho Hk Hkm Hl1 Hfr Hlog [M1 M2 M3 M4 M5 M6 M7 M8] Hl2.
  assert (lacks c1 addr1 k = lacks c addr k) as El by (unfold lacks; by rewrite Ho). rewrite Ho in M5 by done.
  split; [by eapply grown_trans|done|done| |done|lia| |lia].
  { intros i Hi Hik Him. by rewrite M4, Ho. }
  assert (own c2 addr1 MAXFILE = a) as EM2.
  { destruct M1 as (_ & _ & Ex & _). rewrite (ex_own _ _ _ _ _ Ex); [done|by vm_compute|congruence]. }
  intros bn Hbn. destruct (M7 bn Hbn) as [H1|[H1|[H1|H1]]]; [|by right; left|by right; right; left|by right; right; right].
  destruct (Hlog bn H1) as [H2|[H2| ->]]; [by left|by right; left|]. right; right; right. by rewrite EM2.
Qed.

(** bmap() finds or takes the block of file block [k]. *)
Lemma wp_bmap_t ip d s c addr L k Q :
  ostate ip d s c addr L -> sb_ok s -> map_ok c s -> file_wf s c addr -> fits L [] 6 ->
  (own c addr k = 0 -> (1 + ind_need addr <= nfree c s)%nat) -> 0 <= k < MAXFILE ->
  (forall b d' c' addr' L', istep ip d d' -> ostate ip d' s c' addr' L' -> mapped s c addr L k b c' addr' L' -> Q b [] d') ->
  wp p [] (bmap ip k) d Q.
Proof using Hp.
  intros O Hs Hm Hw Hf Hn Hk HQ. pose proof O as [O1 O2 O3 O4]. destruct (decide (k < NDIRECT)) as [Hlt|Hge].
  { eapply wp_bmap_direct; [done|done|done|done|by eapply fits_mono; [|done]; lia|done|lia|done]. }
  unfold bmap. wp_run. rewrite O3, (proj2 (Z.ltb_ge k NDIRECT)), (proj2 (Z.ltb_lt (k - NDIRECT) NINDIRECT)) by (change MAXFILE with (NDIRECT + NINDIRECT) in Hk; lia).
  wp_run. rewrite O4. change (wp p [] ?f d _) with (wp p [] f d (fun a hl d' => wp p hl (bmap_entry a (k - NDIRECT)) d' Q)).
  destruct (Z.eqb_spec (addr NDIRECT) 0) as [E|E].
  - specialize (Hn (own_no_ind c addr k ltac:(lia) E)). unfold ind_need in Hn. rewrite E in Hn. simpl in Hn.
    eapply wp_take_addr; [done|done|done|done|by eapply fits_mono; [|done]; lia|lia|by vm_compute|done|].
    intros a d1 Hb Hu Hi1 Os1. destruct (grown_addr s Hs c addr a NDIRECT Hm Hw Hb Hu ltac:(by vm_compute) E) as (G & Oa & Oth & HU).
    rewrite Z.eqb_refl in Oa, Oth. set (addr1 := addr.[NDIRECT := a]) in *. assert (addr1 NDIRECT = a) as Ea by apply fupd_eq.
    pose proof (grow_nz s Hs c a Hm Hb Hu) as Hnz. pose proof (nfree_one _ _ _ _ HU) as Hfree. pose proof (length_logadd2 L (BBLOCK a s) a) as Hl.
    cbv beta. rewrite <- Ea at 1. pose proof G as (G1 & G2 & _).
    eapply wp_bmap_entry; [exact Os1|done|done|done|unfold fits, NBUF in *; simpl in *; lia|intros _; lia|lia|by rewrite Ea|].
    intros b d2 c2 L2 Hi2 Os2 Mp Hl2. apply (HQ b d2 c2 addr1 L2); [by eapply istep_trans|done|].
    eapply (mapped_after s c addr L k b); [done|exact G|exact Oa|done|done|unfold slot; lia|lia|done| | |done|done].
    + unfold ind_need. rewrite E, Ea, (proj2 (Z.eqb_neq a 0)) by done. simpl. lia.
    + intros bn [[Hb1| ->]%elem_logadd| ->]%elem_logadd; [by left|right; left; by apply BBLOCK_in|by right; right].
  - wp_run. eapply wp_bmap_entry; [exact O|done|done|done|by eapply fits_mono; [|done]; lia|intros E0; specialize (Hn E0); lia|lia|done|].
    intros b d2 c2 L2 Hi2 Os2 Mp Hl2. by apply (HQ b d2 c2 addr L2).
Qed.
End Bmap.
