(* ===== verification/FsWrite.v ===== *)
(** * Writing files

    writei() inside a transaction: the blocks it needs are taken from the free map,
    the bytes arrive in the file, the inode on disk follows, no other file is
    touched, and the number of blocks the transaction records is bounded. *)

From S2P Require Import Prelude State Spinlock CString Kalloc Sched SchedSpec Vm VmSpec ProcMem Wp Sleeplock Bio BioSpec Log LogSpec Fs FsView FsSpec FsTxn FsAlloc FsMap.
Open Scope Z_scope.

Lemma div_block o : 0 <= o < MAXFILE * BSIZE -> slot (o / BSIZE) /\ o / BSIZE <> MAXFILE.
Proof. unfold slot. pose proof MAXFILE_eq. unfold BSIZE in *. intros. Z.to_euclidean_division_equations. lia. Qed.

(** ** Overwriting a data block *)

Section Put.
Context (s : superblock) (c : disk) (addr : Z -> Z) (k : Z) (m : bytes).
Hypothesis Hs : sb_ok s.
Hypothesis Hw : file_wf s c addr.
Hypothesis Hk : 0 <= k < MAXFILE.
Hypothesis Hnz : own c addr k <> 0.
Notation b := (own c addr k).
Notation c' := (c.[b := m]).

Lemma put_slot : slot k.
Proof using Hk. unfold slot. lia. Qed.

Lemma put_own i : slot i -> own c' addr i = own c addr i.
Proof using Hw Hk Hnz.
  intros Hi. apply own_ext; [done|done|]. intros Hi2 Ha. rewrite fupd_ne; [done|]. intros E.
  assert (MAXFILE = k) as E'; [|lia]. apply (fw_inj _ _ _ Hw); [by vm_compute|by apply put_slot|by rewrite own_ind|by rewrite own_ind].
Qed.

Lemma put_used j : 0 <= j < sb_size s -> used c' s j = used c s j.
Proof using Hs Hw Hk Hnz.
  intros Hj. unfold used. rewrite fupd_ne; [done|]. pose proof (BBLOCK_meta s j Hs Hj). destruct (fw_range _ _ _ Hw k put_slot Hnz) as [Hr _]. lia.
Qed.

Lemma put_map : map_ok c s -> map_ok c' s.
Proof using Hs Hw Hk Hnz. intros Hm j Hj. pose proof (sb_ok_bmap s Hs). rewrite put_used by lia. by apply Hm. Qed.

Lemma put_wf : file_wf s c' addr.
Proof using Hs Hw Hk Hnz.
  split.
  - intros i Hi. rewrite put_own by done. intros Hz. destruct (fw_range _ _ _ Hw i Hi Hz) as [Hr E]. split; [done|].
    pose proof (sb_ok_bmap s Hs). rewrite put_used by lia. done.
  - intros i j Hi Hj. rewrite !put_own by done. by apply (fw_inj _ _ _ Hw).
Qed.

Lemma put_extends : extends s c addr c' addr.
Proof using Hs Hw Hk Hnz.
  split.
  - intros i Hi _. by apply put_own.
  - intros i Hi E. rewrite put_own by done. by rewrite E.
  - intros j Hj E. by rewrite put_used.
  - intros j Hj E. rewrite put_used in E by done. by left.
  - intros j Hj _ _ Hn. rewrite fupd_ne; [done|]. intros ->. by apply (Hn k put_slot).
Qed.

(** The other blocks of the file keep their bytes. *)
Lemma put_fbyte o : 0 <= o < MAXFILE * BSIZE -> own c addr (o / BSIZE) <> 0 ->
  fbyte c' addr o = if o / BSIZE =? k then m (o mod BSIZE) else fbyte c addr o.
Proof using Hw Hk Hnz.
  intros Ho Hz. assert (slot (o / BSIZE) /\ o / BSIZE <> MAXFILE) as [Hi Hne].
  { unfold slot. pose proof MAXFILE_eq. unfold BSIZE in *. Z.to_euclidean_division_equations. lia. }
  unfold fbyte. rewrite own_fblk, (own_fblk c) by (try done; by rewrite put_own). rewrite put_own by done.
  destruct (Z.eqb_spec (o / BSIZE) k) as [->|Hok]; [by rewrite fupd_eq|]. rewrite fupd_ne; [done|]. intros E.
  apply Hok, (fw_inj _ _ _ Hw); [done|by apply put_slot|done|done].
Qed.
End Put.

(** ** The bytes written so far *)

Section Written.
Context (s : superblock) (c0 : disk) (addr0 : Z -> Z) (off : Z).
Hypothesis Hs : sb_ok s.
Hypothesis Hoff : 0 <= off.

Record written (bs : list Z) (c : disk) (addr : Z -> Z) : Prop := {
  wr_map : map_ok c s;
  wr_wf : file_wf s c addr;
  wr_ext : extends s c0 addr0 c addr;
  wr_in : forall j, (j < length bs)%nat -> own c addr ((off + Z.of_nat j) / BSIZE) <> 0 /\ fbyte c addr (off + Z.of_nat j) = nth j bs 0;
  wr_out : forall o, 0 <= o < MAXFILE * BSIZE -> ~ (off <= o < off + Z.of_nat (length bs)) -> own c addr (o / BSIZE) <> 0 ->
    fbyte c addr o = if own c0 addr0 (o / BSIZE) =? 0 then 0 else fbyte c0 addr0 o;
}.

Lemma written_nil : map_ok c0 s -> file_wf s c0 addr0 -> written [] c0 addr0.
Proof using.
  intros Hm Hw. split; [done|done|apply extends_refl|simpl; lia|]. intros o _ _ Hz. by rewrite (proj2 (Z.eqb_neq _ _)).
Qed.

(** bmap() does not change the bytes, and a new block is zero. *)
Lemma written_mapped bs c addr L k b c1 addr1 L1 :
  written bs c addr -> mapped s c addr L k b c1 addr1 L1 -> 0 <= k < MAXFILE -> off + Z.of_nat (length bs) <= MAXFILE * BSIZE ->
  written bs c1 addr1.
Proof using Hs Hoff.
  intros [W1 W2 W3 W4 W5] [(G1 & G2 & G3 & G4) M2 M3 Mo M4 _ _ _] Hk Hmax.
  assert (forall o, 0 <= o < MAXFILE * BSIZE -> own c addr (o / BSIZE) <> 0 -> own c1 addr1 (o / BSIZE) = own c addr (o / BSIZE) /\ fbyte c1 addr1 o = fbyte c addr o) as HF.
  { intros o Ho Hz. destruct (div_block o Ho) as [Hi Hne]. pose proof (ex_own _ _ _ _ _ G3 _ Hi Hz) as E. split; [done|].
    unfold fbyte. rewrite (own_fblk c1), (own_fblk c), E by (try done; by rewrite E). by rewrite G4. }
  split; [done|done|by exact (extends_trans s Hs _ _ _ _ _ _ W2 G2 W3 G3)| |].
  - intros j Hj. destruct (W4 j Hj) as [Hz E]. destruct (HF (off + Z.of_nat j)) as [-> ->]; [lia|done|done].
  - intros o Ho Hn Hz. destruct (div_block o Ho) as [Hi Hne]. destruct (decide (own c addr (o / BSIZE) = 0)) as [E0|E0].
    + assert (own c0 addr0 (o / BSIZE) = 0) as ->.
      { destruct (decide (own c0 addr0 (o / BSIZE) = 0)) as [|E]; [done|]. rewrite (ex_own _ _ _ _ _ W3) in E0 by done. done. }
      simpl. destruct (decide (o / BSIZE = k)) as [E|E]; [|by destruct Hz; rewrite Mo].
      unfold fbyte. rewrite own_fblk, E, M2 by done. apply M4; [by rewrite <- E|]. apply Z.mod_pos_bound. done.
    + destruct (HF o Ho E0) as [_ ->]. by apply W5.
Qed.

(** Storing the next bytes, all in one block. *)
Lemma written_put bs bs2 c addr :
  let o := off + Z.of_nat (length bs) in let k := o / BSIZE in
  written bs c addr -> own c addr k <> 0 -> o mod BSIZE + Z.of_nat (length bs2) <= BSIZE ->
  o + Z.of_nat (length bs2) <= MAXFILE * BSIZE -> bs2 <> [] ->
  written (bs ++ bs2) (c.[own c addr k := memput (c (own c addr k)) (o mod BSIZE) bs2]) addr.
Proof using Hs Hoff.
  intros o k [W1 W2 W3 W4 W5] Hz Hin Hmax Hne. assert (0 < length bs2)%nat as Hl by (destruct bs2; [done|simpl; lia]).
  assert (0 <= o < MAXFILE * BSIZE) as Ho by lia. destruct (div_block o Ho) as [Hsk Hkm].
  assert (0 <= k < MAXFILE) as Hk by (unfold slot in Hsk; fold k in Hsk, Hkm; lia).
  set (mm := memput _ _ _). set (c' := c.[_ := _]).
  assert (forall x, 0 <= x < MAXFILE * BSIZE -> own c addr (x / BSIZE) <> 0 ->
    fbyte c' addr x = if decide (o <= x < o + Z.of_nat (length bs2)) then nth (Z.to_nat (x - o)) bs2 0 else fbyte c addr x) as HF.
  { intros x Hx Hxz. destruct (div_block x Hx) as [Hsx Hxm]. unfold c'. rewrite (put_fbyte s c addr k mm W2 Hk Hz x Hx Hxz).
    pose proof (Z.div_mod o BSIZE ltac:(done)) as Eo. pose proof (Z.div_mod x BSIZE ltac:(done)) as Ex.
    pose proof (Z.mod_pos_bound x BSIZE ltac:(done)) as Rx. pose proof (Z.mod_pos_bound o BSIZE ltac:(done)) as Ro. fold k in Eo.
    destruct (Z.eqb_spec (x / BSIZE) k) as [E|E].
    - rewrite E in Ex. unfold mm. case_decide as Hd.
      + rewrite memput_in by lia. f_equal. lia.
      + rewrite memput_out by lia. unfold fbyte. rewrite own_fblk, E; [done|done|done|by rewrite E].
    - rewrite decide_False; [done|]. intros Hd. apply E. unfold BSIZE in *. nia. }
  split; [by eapply put_map|by eapply put_wf|exact (extends_trans s Hs _ _ _ _ _ _ W2 (put_wf s c addr k mm Hs W2 Hk Hz) W3 (put_extends s c addr k mm Hs W2 Hk Hz))| |].
  - intros j Hj. rewrite length_app in Hj. destruct (div_block (off + Z.of_nat j) ltac:(lia)) as [Hsj Hjm].
    unfold c'. rewrite (put_own s c addr k mm W2 Hk Hz) by done. fold c'.
    assert (own c addr ((off + Z.of_nat j) / BSIZE) <> 0) as Hzj.
    { destruct (decide (j < length bs)%nat) as [Hlt|Hge]; [by apply W4|].
      replace ((off + Z.of_nat j) / BSIZE) with k; [done|]. unfold k, o, BSIZE in *. Z.to_euclidean_division_equations. lia. }
    split; [done|]. rewrite HF by (try done; lia). unfold o. case_decide as Hd.
    + rewrite app_nth2 by lia. f_equal. lia.
    + rewrite app_nth1 by lia. apply W4. lia.
  - intros x Hx Hn Hxz. rewrite length_app in Hn. destruct (div_block x Hx) as [Hsx Hxm]. unfold c' in Hxz. rewrite (put_own s c addr k mm W2 Hk Hz) in Hxz by done.
    rewrite HF by done. rewrite decide_False by (unfold o; lia). apply W5; [done|lia|done].
Qed.
End Written.

(** ** The blocks a transaction records *)

Definition nmap (s : superblock) : nat := Z.to_nat (sb_size s / BPB + 1).

(** Beyond [L0], only blocks of the free map, the indirect block and the file
    blocks from [k0] up to [k1] are recorded. *)
Definition recorded (s : superblock) (L0 : list Z) (k0 k1 : Z) (c : disk) (addr : Z -> Z) (L : list Z) : Prop :=
  forall bn, bn ∈ L -> bn ∈ L0 \/ bn ∈ map_blocks s \/ exists i, (i = MAXFILE \/ k0 <= i < k1) /\ own c addr i = bn /\ bn <> 0.

Lemma recorded_length s L0 k0 k1 c addr L :
  recorded s L0 k0 k1 c addr L -> NoDup L -> k0 <= k1 -> (length L <= length L0 + nmap s + 1 + Z.to_nat (k1 - k0))%nat.
Proof.
  intros Hr Hd Hk. set (T := L0 ++ map_blocks s ++ map (own c addr) (MAXFILE :: map (Z.add k0) (upto (k1 - k0)))).
  assert (length T = length L0 + nmap s + 1 + Z.to_nat (k1 - k0))%nat as <-.
  { unfold T, map_blocks, upto. rewrite !length_app, !length_map. simpl. rewrite !length_map, !length_seq. unfold nmap. lia. }
  apply submseteq_length, NoDup_submseteq; [done|]. intros bn Hbn. unfold T. rewrite !elem_of_app.
  destruct (Hr bn Hbn) as [H|[H|(i & Hi & <- & _)]]; [by left|by right; left|]. right; right.
  apply list_elem_of_In, in_map_iff. exists i. split; [done|]. apply list_elem_of_In, elem_of_cons. destruct Hi as [->|Hi]; [by left|right].
  apply list_elem_of_In, in_map_iff. exists (i - k0). split; [lia|]. apply list_elem_of_In, elem_upto. lia.
Qed.

(** The next block recorded, by bmap() and log_write(). *)
Lemma recorded_mapped s L0 k0 k1 k c addr L b c1 addr1 L1 c2 :
  recorded s L0 k0 k1 c addr L -> mapped s c addr L k b c1 addr1 L1 -> k1 <= k + 1 -> 0 <= k0 <= k -> k < MAXFILE ->
  (forall i, slot i -> own c2 addr1 i = own c1 addr1 i) -> recorded s L0 k0 (k + 1) c2 addr1 (logadd L1 b).
Proof.
  intros Hr Hm Hk1 Hk Hkm Hown bn Hbn. assert (slot MAXFILE /\ slot k) as [HsM Hsk] by (unfold slot; pose proof MAXFILE_eq; lia).
  pose proof (mp_blk _ _ _ _ _ _ _ _ _ Hm) as Eb. pose proof (mp_nz _ _ _ _ _ _ _ _ _ Hm) as Hnz.
  assert (bn = b \/ bn ∈ L1) as [->|H1] by (apply elem_logadd in Hbn; tauto).
  { right; right. exists k. split; [lia|]. by rewrite Hown, Eb. }
  destruct (mp_log _ _ _ _ _ _ _ _ _ Hm bn H1) as [H2|[H2|[->|[-> H2]]]]; [|by right; left| |].
  - destruct (Hr bn H2) as [H|[H|(i & Hi & E & Hz)]]; [by left|by right; left|]. right; right. exists i.
    assert (slot i) as Hsi by (unfold slot in *; lia). split; [lia|]. split; [|done]. rewrite Hown by done.
    destruct (mp_grown _ _ _ _ _ _ _ _ _ Hm) as (_ & _ & Ex & _). rewrite (ex_own _ _ _ _ _ Ex i Hsi); [done|congruence].
  - right; right. exists k. split; [lia|]. by rewrite Hown.
  - right; right. exists MAXFILE. split; [by left|]. by rewrite Hown.
Qed.

Lemma recorded_next s L0 k0 k1 k2 c addr L : recorded s L0 k0 k1 c addr L -> k1 <= k2 -> recorded s L0 k0 k2 c addr L.
Proof. intros Hr Hk bn Hbn. destruct (Hr bn Hbn) as [H|[H|(i & Hi & E)]]; [by left|by right; left|]. right; right. exists i. split; [lia|done]. Qed.

Lemma nfree_ext c c' s : (forall j, 0 <= j < sb_size s -> used c' s j = used c s j) -> nfree c' s = nfree c s.
Proof.
  intros H. unfold nfree, free_blocks. f_equal.
  assert (Forall (fun j => 0 <= j < sb_size s) (upto (sb_size s))) as Hl by (apply Forall_forall; intros j; apply elem_upto).
  induction Hl as [|j l Hj Hl IH]; [done|]. rewrite !filter_cons, (H j Hj), IH. done.
Qed.

(** ** Blocks and byte offsets *)

Lemma blk_le off t n : (t <= n)%nat ->
  off / BSIZE <= (off + Z.of_nat t + BSIZE - 1) / BSIZE <= (off + Z.of_nat n + BSIZE - 1) / BSIZE.
Proof. intros H. unfold BSIZE. split; apply Z.div_le_mono; lia. Qed.

Lemma blk_end_in o m : 0 < m -> o mod BSIZE + m <= BSIZE -> (o + m + BSIZE - 1) / BSIZE = o / BSIZE + 1.
Proof. intros H1 H2. unfold BSIZE in *. Z.to_euclidean_division_equations. lia. Qed.

Lemma blk_next o m : o mod BSIZE + m = BSIZE -> (o + m) / BSIZE = o / BSIZE + 1.
Proof. intros H. unfold BSIZE in *. Z.to_euclidean_division_equations. lia. Qed.

Lemma blk_lt o e : o < e -> o / BSIZE < (e + BSIZE - 1) / BSIZE.
Proof. intros H. unfold BSIZE in *. Z.to_euclidean_division_equations. lia. Qed.

Lemma blk_ceil o : (o + BSIZE - 1) / BSIZE <= o / BSIZE + 1.
Proof. unfold BSIZE. Z.to_euclidean_division_equations. lia. Qed.

Lemma blk_at_cases o m : 0 < m -> o mod BSIZE + m <= BSIZE -> (o + m) / BSIZE = o / BSIZE \/ (o + m) / BSIZE = o / BSIZE + 1.
Proof. intros H1 H2. unfold BSIZE in *. Z.to_euclidean_division_equations. lia. Qed.

(** How many of the [n] file blocks from [k] on are still to be allocated. *)
Fixpoint miss (c : disk) (addr : Z -> Z) (k : Z) (n : nat) : nat :=
  match n with O => 0%nat | S n' => (lacks c addr k + miss c addr (k + 1) n')%nat end.

Lemma miss_ext c c' addr addr' k n : (forall i, k <= i < k + Z.of_nat n -> own c' addr' i = own c addr i) -> miss c' addr' k n = miss c addr k n.
Proof.
  revert k. induction n as [|n IH]; intros k H; [done|]. cbn [miss]. f_equal; [unfold lacks; by rewrite H by lia|]. apply IH. intros i Hi. apply H. lia.
Qed.

(** ** The loop of writei() *)

Section Loop.
Context {D : DiskDriver} (dev pid : Z) (p : nat).
Hypothesis Hp : (p < NPROC)%nat.
Context (ip : nat) (s : superblock) (c0 : disk) (addr0 : Z -> Z) (L0 : list Z) (off : Z) (data : list Z).
Context (src : nat -> ksrc) (I : kdata -> Prop) (kend : Z).
Notation n := (length data).
(** The file block of byte [t] of the request, and the end of the blocks of the first [t]. *)
Notation blk_at t := ((off + Z.of_nat t) / BSIZE).
Notation blk_end t := ((off + Z.of_nat t + BSIZE - 1) / BSIZE).
Hypothesis Hs : sb_ok s.
Hypothesis Hoff : 0 <= off.
Hypothesis Hmax : off + Z.of_nat n <= MAXFILE * BSIZE.
Hypothesis HE : blk_end n <= kend <= MAXFILE.
Hypothesis Hcap : (length L0 + nmap s + Z.to_nat (blk_end n - off / BSIZE) + 8 < NBUF)%nat.
Hypothesis Hsrc : forall t m, src_add (src t) (Z.of_nat m) = src (t + m)%nat.
Hypothesis HIf : forall d d', I d -> frame d d' -> I d'.
Hypothesis HIc : forall t m d Q, I d -> (t + m <= n)%nat -> Q (0, take m (drop t data)) [] d ->
  wp p [] (either_copyin (src t) (Z.of_nat m)) d Q.

Record winv (t : nat) (d : kdata) (c : disk) (addr : Z -> Z) (L : list Z) : Prop := {
  wi_o : ostate dev pid p ip d s c addr L;
  wi_w : written s c0 addr0 off (take t data) c addr;
  wi_r : recorded s L0 (off / BSIZE) (blk_end t) c addr L;
  wi_f : (miss c addr (blk_at t) (Z.to_nat (kend - blk_at t)) + ind_need addr <= nfree c s)%nat;
}.

(** Reading inside a transaction takes a clean buffer back unchanged. *)
Lemma clean_held d c L bn : tstate dev pid p d c L [] -> bn ∈ L \/ c bn = dblk (fs d) bn.
Proof using.
  intros Ht. destruct (decide (bn ∈ L)) as [|Hn]; [by left|right].
  apply (ca_clean _ _ _ _ _ _ (ts_cache _ _ _ _ _ _ _ Ht)). unfold refs. rewrite !decide_False; [done|apply not_elem_of_nil|done].
Qed.

Lemma winv_fits t d c addr L : (t <= n)%nat -> winv t d c addr L -> fits L [] 6.
Proof using Hp Hcap Hoff HE.
  intros Ht [O W R F]. pose proof (lg_nodup _ _ (ts_log _ _ _ _ _ _ _ (os_t _ _ _ _ _ _ _ _ _ O))) as Hd.
  pose proof (blk_le off t n Ht) as Hle.
  pose proof (recorded_length _ _ _ _ _ _ _ R Hd ltac:(lia)) as Hl. unfold fits, NBUF in *. simpl. lia.
Qed.

(** One round of the loop: [m] bytes, all in one block. *)
Lemma winv_step t m d c addr L b c1 addr1 L1 d' :
  let o := off + Z.of_nat t in
  winv t d c addr L -> mapped s c addr L (o / BSIZE) b c1 addr1 L1 -> (0 < m)%nat -> (t + m <= n)%nat ->
  o mod BSIZE + Z.of_nat m <= BSIZE ->
  let c2 := c1.[b := memput (c1 b) (o mod BSIZE) (take m (drop t data))] in
  ostate dev pid p ip d' s c2 addr1 (logadd L1 b) -> winv (t + m) d' c2 addr1 (logadd L1 b).
Proof using Hp Hs Hoff Hmax HE Hcap.
  intros o [O W R F] M Hm Htm Hin c2 O2. assert (0 <= o < MAXFILE * BSIZE) as Ho by lia.
  destruct (div_block o Ho) as [Hsk Hkm]. assert (0 <= o / BSIZE < MAXFILE) as Hk by (unfold slot in Hsk; lia).
  assert (length (take t data) = t) as Lt by (rewrite length_take; lia).
  assert (length (take m (drop t data)) = m) as Lm by (rewrite length_take, length_drop; lia).
  pose proof (mp_blk _ _ _ _ _ _ _ _ _ M) as Eb. pose proof (mp_nz _ _ _ _ _ _ _ _ _ M) as Hnz. rewrite <- Eb in Hnz.
  pose proof (written_mapped s c0 addr0 off Hs Hoff _ _ _ _ _ _ _ _ _ W M Hk) as W1. rewrite Lt in W1. specialize (W1 ltac:(lia)).
  pose proof (wr_wf _ _ _ _ _ _ _ W1) as Wf1. split; [done| | |].
  - replace (take (t + m) data) with (take t data ++ take m (drop t data)) by apply take_take_drop.
    pose proof (written_put s c0 addr0 off Hs Hoff (take t data) (take m (drop t data)) c1 addr1) as Hput. cbv zeta in Hput. rewrite Lt, Lm in Hput. fold o in Hput. rewrite Eb in Hput.
    apply Hput; [done|by rewrite <- Eb|done|lia|]. intros E. rewrite E in Lm. simpl in Lm. lia.
  - replace (blk_end (t + m)) with (o / BSIZE + 1) by (rewrite <- (blk_end_in o (Z.of_nat m)) by lia; f_equal; lia).
    eapply recorded_mapped; [exact R|exact M|apply blk_ceil|split; [apply Z.div_pos; [lia|done]|apply Z.div_le_mono; [done|lia]]|lia|].
    intros i Hi. unfold c2. rewrite <- Eb. by apply (put_own s c1 addr1 (o / BSIZE)).
  - assert (nfree c2 s = nfree c1 s) as ->.
    { apply nfree_ext. intros j Hj. unfold c2. rewrite <- Eb. by apply (put_used s c1 addr1 (o / BSIZE)). }
    assert (forall i, slot i -> own c2 addr1 i = own c1 addr1 i) as Ho2 by (intros i Hsi; unfold c2; rewrite <- Eb; by apply (put_own s c1 addr1 (o / BSIZE))).
    pose proof (blk_lt o (off + Z.of_nat n) ltac:(lia)) as Hlast. pose proof (mp_free _ _ _ _ _ _ _ _ _ M) as Hfr.
    set (k := o / BSIZE) in *. set (n' := Z.to_nat (kend - (k + 1))). fold o in F. fold k in F.
    replace (Z.to_nat (kend - k)) with (S n') in F by lia. cbn [miss] in F.
    assert (miss c2 addr1 (k + 1) n' = miss c addr (k + 1) n') as Em.
    { apply miss_ext. intros i Hi. assert (slot i) as Hsi by (unfold slot; lia). rewrite Ho2 by done. apply (mp_only _ _ _ _ _ _ _ _ _ M); [done|lia|lia]. }
    replace (off + Z.of_nat (t + m)) with (o + Z.of_nat m) by lia.
    destruct (blk_at_cases o (Z.of_nat m) ltac:(lia) Hin) as [-> | ->]; fold k.
    + replace (Z.to_nat (kend - k)) with (S n') by lia. cbn [miss]. rewrite Em. unfold lacks at 1. rewrite Ho2, (proj2 (Z.eqb_neq _ _) Hnz) by done. lia.
    + fold n'. rewrite Em. lia.
Qed.

Lemma wp_writei_loop fuel t d d0 c addr L Q :
  (t <= n)%nat -> ((t < n)%nat -> blk_end n - blk_at t < Z.of_nat fuel) -> (0 < fuel)%nat ->
  winv t d c addr L -> I d -> istep ip d0 d ->
  (forall d' c' addr' L', winv n d' c' addr' L' -> istep ip d0 d' -> Q (Z.of_nat n, off + Z.of_nat n) [] d') ->
  wp p [] (writei_loop fuel ip (src t) (off + Z.of_nat t) (Z.of_nat n) (Z.of_nat t)) d Q.
Proof using All.
  revert t d c addr L. induction fuel as [|fuel IH]; intros t d c addr L Ht Hf Hf0 Hi HI Hst HQ; [lia|]. cbn [writei_loop].
  destruct (Z.ltb_spec (Z.of_nat t) (Z.of_nat n)) as [Hlt|Hge].
  2: { assert (t = n) as -> by lia. wp_run. by eapply HQ. }
  specialize (Hf ltac:(lia)). set (o := off + Z.of_nat t) in *. pose proof (Z.mod_pos_bound o BSIZE ltac:(done)) as Ro.
  set (m := Z.to_nat (Z.min (Z.of_nat n - Z.of_nat t) (BSIZE - o mod BSIZE))).
  assert (Z.min (Z.of_nat n - Z.of_nat t) (BSIZE - o mod BSIZE) = Z.of_nat m) as Em by lia. rewrite Em.
  assert (0 < m /\ t + m <= n)%nat as [Hm0 Hm] by lia. assert (o mod BSIZE + Z.of_nat m <= BSIZE) as Hin by lia.
  assert ((t + m < n)%nat -> o mod BSIZE + Z.of_nat m = BSIZE) as Hfull by lia.
  pose proof Hi as [O W R F]. pose proof (blk_lt o (off + Z.of_nat n) ltac:(lia)) as Hblk. destruct (div_block o ltac:(lia)) as [Hsk Hkm].
  wp_run. rewrite (os_dev _ _ _ _ _ _ _ _ _ O).
  eapply (wp_bmap_t dev pid p Hp ip d s c addr L); [done|done|exact (wr_map _ _ _ _ _ _ _ W)|exact (wr_wf _ _ _ _ _ _ _ W)|exact (winv_fits t d c addr L Ht Hi)| |unfold slot in Hsk; lia|].
  { intros E0. fold o in F. replace (Z.to_nat (kend - o / BSIZE)) with (S (Z.to_nat (kend - (o / BSIZE + 1)))) in F by lia. cbn [miss] in F. unfold lacks in F at 1. rewrite E0 in F. simpl in F. lia. }
  intros b d1 c1 addr1 L1 Hi1 O1 M. wp_run.
  destruct (mp_grown _ _ _ _ _ _ _ _ _ M) as (_ & Wf1 & _ & _). pose proof (mp_blk _ _ _ _ _ _ _ _ _ M) as Eb.
  destruct (fw_range _ _ _ Wf1 (o / BSIZE) Hsk) as [Rb _]; [rewrite Eb; apply (mp_nz _ _ _ _ _ _ _ _ _ M)|]. rewrite Eb in Rb.
  pose proof (so_size _ Hs) as Hsz. pose proof (sb_ok_bmap s Hs) as (Hb0 & Hb1 & Hb2). assert (blk_ok b) as Hok by (unfold blk_ok; lia).
  pose proof (winv_fits t d c addr L Ht Hi) as Hfit. pose proof (mp_len _ _ _ _ _ _ _ _ _ M) as Hlen. unfold fits, NBUF in Hfit. simpl in Hfit.
  eapply wp_bread_t; [done|exact (os_t _ _ _ _ _ _ _ _ _ O1)|done|apply not_elem_of_nil|unfold NBUF; simpl; lia|]. intros bp d2 Hs2 Ht2 Hbk2 _. wp_run.
  apply HIc; [by eapply HIf; [eapply HIf; [exact HI|apply Hi1]|apply Hs2]|done|]. cbv beta. apply wp_bind.
  eapply wp_put; [done|done|done|set_solver|]. intros d3 Hs3 Ht3 Hbk3 _. cbn [fst snd]. change (0 =? -1) with false. cbv iota. wp_run.
  eapply wp_log_write_t; [done|done|exact Hbk3|set_solver|done|unfold LOGSIZE, MAXOPBLOCKS; lia|]. intros d4 Hs4 Ht4 Hbk4. wp_run.
  eapply wp_brelse_t; [done|done|apply not_elem_of_nil|done|left; apply elem_logadd; by right|]. intros d5 Hs5 Ht5.
  assert (tstep dev [] d1 d5) as Hst5.
  { eapply tstep_trans; [exact Hs2|]. eapply tstep_trans; [by eapply tstep_sub; [|exact Hs3]; set_solver|]. eapply tstep_trans; [by eapply tstep_sub; [|exact Hs4]; set_solver|done]. }
  assert (istep ip d0 d5) as Hi5 by (eapply istep_trans; [exact Hst|]; eapply istep_trans; [exact Hi1|by eapply tstep_istep]).
  rewrite Hsrc. replace (o + Z.of_nat m) with (off + Z.of_nat (t + m)) by lia. replace (Z.of_nat t + Z.of_nat m) with (Z.of_nat (t + m)) by lia.
  eapply IH; [done| |lia| | |exact Hi5|exact HQ].
  - intros Hmore. replace (blk_at (t + m)) with (o / BSIZE + 1) by (rewrite <- (blk_next o (Z.of_nat m)) by auto; f_equal; lia). lia.
  - eapply winv_step; [exact Hi|exact M|done|done|done|]. eapply ostate_tstep; [exact O1|exact Hst5|exact Ht5].
  - eapply HIf; [eapply HIf; [exact HI|apply Hi1]|apply Hst5].
Qed.
End Loop.

(** ** The inode on disk *)

Lemma stn_out n m a v x : ~ (a <= x < a + Z.of_nat n) -> stn n m a v x = m x.
Proof. intros H. unfold stn. case_range; [lia|done]. Qed.

Lemma put_addrs_out m a addrs n x : ~ (a + 12 <= x < a + 12 + 4 * Z.of_nat n) -> put_addrs m a addrs n x = m x.
Proof.
  induction n as [|n IH]; intros Hx; [done|]. cbn [put_addrs]. unfold st32. rewrite stn_out by (simpl; lia). apply IH. lia.
Qed.

Lemma put_addrs_in m a addrs n k : (k < n)%nat -> ld32 (put_addrs m a addrs n) (a + 12 + 4 * Z.of_nat k) = u32 (addrs (Z.of_nat k)).
Proof.
  induction n as [|n IH]; intros Hk; [lia|]. cbn [put_addrs]. destruct (decide (k = n)) as [->|Hne]; [by rewrite ld32_st32|].
  rewrite ld32_st32_other by lia. apply IH. lia.
Qed.

Lemma dinode_put_out m a r x : ~ (a <= x < a + sizeof_dinode) -> dinode_put m a r x = m x.
Proof.
  intros Hx. unfold sizeof_dinode in Hx. unfold dinode_put. rewrite put_addrs_out by lia.
  unfold st32, st16. rewrite !stn_out by (simpl; lia). done.
Qed.

Lemma ld16_st16 m a v : ld16 (st16 m a v) a = v mod 2 ^ 16.
Proof. unfold ld16, st16. by rewrite ldn_stn_eq. Qed.

Lemma ld16_other m m' a : (forall x, a <= x < a + 2 -> m x = m' x) -> ld16 m a = ld16 m' a.
Proof. intros H. apply ld16_ext. intros i Hi. apply H. lia. Qed.

Lemma ld32_other m m' a : (forall x, a <= x < a + 4 -> m x = m' x) -> ld32 m a = ld32 m' a.
Proof. intros H. apply ld32_ext. intros i Hi. apply H. lia. Qed.

(** Skip the stores that do not reach the bytes loaded. *)
Ltac skip_stores := intros; unfold st32, st16; rewrite !stn_out by (simpl; lia); reflexivity.

(** The fields of a dinode that iupdate() wrote. *)
Lemma dinode_put_fields m a r :
  let di := fun o => dinode_put m a r (a + o) in
  di_size di = u32 (i_size r) /\ di_type di = i16 (i_type r mod 2 ^ 16) /\ di_nlink di = i16 (i_nlink r mod 2 ^ 16) /\
  forall k, 0 <= k <= NDIRECT -> di_addr di k = u32 (i_addrs r k).
Proof.
  cbv zeta. unfold di_size, di_type, di_nlink, di_addr, ldshort. split_and!.
  - rewrite (ld32_ext _ (dinode_put m a r) 8 (a + 8)) by (intros; f_equal; lia). unfold dinode_put.
    rewrite (ld32_other _ _ (a + 8) (fun x Hx => put_addrs_out _ a _ 13 x ltac:(lia))). apply ld32_st32.
  - f_equal. rewrite (ld16_ext _ (dinode_put m a r) 0 a) by (intros; f_equal; lia). unfold dinode_put.
    rewrite (ld16_other _ _ a (fun x Hx => put_addrs_out _ a _ 13 x ltac:(lia))).
    rewrite <- (ld16_st16 m a (i_type r)). apply ld16_other. skip_stores.
  - f_equal. rewrite (ld16_ext _ (dinode_put m a r) 6 (a + 6)) by (intros; f_equal; lia). unfold dinode_put.
    rewrite (ld16_other _ _ (a + 6) (fun x Hx => put_addrs_out _ a _ 13 x ltac:(lia))).
    match goal with |- ld16 (st32 ?m' _ _) _ = _ => rewrite (ld16_other _ m' (a + 6)); [apply ld16_st16|] end. skip_stores.
  - intros k Hk. rewrite (ld32_ext _ (dinode_put m a r) (12 + 4 * k) (a + 12 + 4 * k)) by (intros; f_equal; lia). unfold dinode_put.
    replace k with (Z.of_nat (Z.to_nat k)) by lia. apply put_addrs_in. unfold NDIRECT in Hk. lia.
Qed.

(** Two inodes of a block do not overlap. *)
Lemma dip_off_apart i j : 0 <= i -> 0 <= j -> i <> j -> i / IPB = j / IPB ->
  dip_off i + sizeof_dinode <= dip_off j \/ dip_off j + sizeof_dinode <= dip_off i.
Proof.
  intros Hi Hj Hne E. unfold dip_off, sizeof_dinode. change IPB with 16 in *. Z.to_euclidean_division_equations. lia.
Qed.

(** ** What writei() achieves *)

(** The bytes of a file. *)
Definition contents (c : disk) (addr : Z -> Z) (size : Z) : list Z := fbytes c addr 0 (Z.to_nat size).

(** [data] written over a list from [off] on. *)
Definition overwrite (l : list Z) (off : nat) (data : list Z) : list Z := take off l ++ data ++ drop (off + length data) l.

(** A file of [size] bytes has a block for each of them. *)
Definition allocated (c : disk) (addr : Z -> Z) (size : Z) : Prop :=
  size <= MAXFILE * BSIZE /\ forall o, 0 <= o < size -> own c addr (o / BSIZE) <> 0.

(** From disk [c] to [c'] the file of inode [inum] had [data] written at [off]; [r] is
    its inode afterwards.  Its dinode is up to date; the inodes of other files, and
    every used block that neither is one of this file nor holds file system tables,
    are unchanged; the free map lost the blocks the file gained. *)
Record wrote_file (s : superblock) (inum : Z) (c : disk) (addr : Z -> Z) (size off : Z) (data : list Z) (c' : disk) (r : inode) : Prop := {
  wf_size : i_size r = Z.max size (off + Z.of_nat (length data));
  wf_data : contents c' (i_addrs r) (i_size r) = overwrite (contents c addr size) (Z.to_nat off) data;
  wf_alloc : allocated c' (i_addrs r) (i_size r);
  wf_map : map_ok c' s;
  wf_wf : file_wf s c' (i_addrs r);
  wf_dinode : let di := dinode_at c' s inum in
    di_size di = i_size r /\ di_type di = i16 (i_type r mod 2 ^ 16) /\ di_nlink di = i16 (i_nlink r mod 2 ^ 16) /\
    forall k, 0 <= k <= NDIRECT -> di_addr di k = i_addrs r k;
  wf_inodes : forall i, 0 <= i < sb_ninodes s -> i <> inum -> forall o, 0 <= o < sizeof_dinode -> dinode_at c' s i o = dinode_at c s i o;
  wf_other : forall b, 0 <= b < sb_size s -> used c s b = true -> (b < sb_bmapstart s \/ nmeta s <= b) -> b <> IBLOCK inum s ->
    (forall i, slot i -> own c addr i <> b) -> c' b = c b;
  wf_new : forall i, slot i -> own c' (i_addrs r) i = own c addr i \/ used c s (own c' (i_addrs r) i) = false;
  wf_free : forall b, 0 <= b < sb_size s ->
    used c' s b = true <-> used c s b = true \/ b <> 0 /\ exists i, slot i /\ own c' (i_addrs r) i = b;
}.

Lemma length_contents c addr size : length (contents c addr size) = Z.to_nat size.
Proof. apply length_fbytes. Qed.

Lemma contents_overwrite c addr size off data c' addr' :
  0 <= off <= size -> let size' := Z.max size (off + Z.of_nat (length data)) in
  (forall o, 0 <= o < size' -> fbyte c' addr' o =
     if decide (off <= o < off + Z.of_nat (length data)) then nth (Z.to_nat (o - off)) data 0 else fbyte c addr o) ->
  contents c' addr' size' = overwrite (contents c addr size) (Z.to_nat off) data.
Proof.
  intros Hoff size' H. unfold overwrite. assert (length (take (Z.to_nat off) (contents c addr size)) = Z.to_nat off) as L1 by (rewrite length_take, length_contents; lia).
  apply (nth_ext _ _ 0 0).
  - rewrite length_contents, !length_app, L1, length_drop, length_contents. lia.
  - intros i Hi. rewrite length_contents in Hi. unfold contents at 1. rewrite nth_fbytes, Z.add_0_l, H by lia. case_decide as Hd.
    + rewrite app_nth2, L1, app_nth1 by lia. f_equal. lia.
    + destruct (decide (Z.of_nat i < off)) as [Hlt|Hge].
      * rewrite app_nth1, nth_take_lt by lia. unfold contents. rewrite nth_fbytes by lia. f_equal.
      * rewrite app_nth2, L1, app_nth2, nth_skipn by lia. unfold contents. rewrite nth_fbytes by lia. f_equal. lia.
Qed.

Lemma u32_of_i32 x : 0 <= x < 2 ^ 31 -> u32 x = x.
Proof. intros. apply u32_small. lia. Qed.

(** An inode block is no block of a file and not in the free map. *)
Section Iblock.
Context (s : superblock) (c : disk) (addr : Z -> Z) (ib : Z) (m : bytes).
Hypothesis Hs : sb_ok s.
Hypothesis Hw : file_wf s c addr.
Hypothesis Hib : 0 < ib < sb_bmapstart s.
Notation c' := (c.[ib := m]).

Lemma ib_not_own i : slot i -> own c addr i <> ib.
Proof using All. intros Hi E. pose proof (sb_ok_bmap s Hs). destruct (fw_range _ _ _ Hw i Hi) as [Hr _]; lia. Qed.

Lemma ib_own i : slot i -> own c' addr i = own c addr i.
Proof using All.
  intros Hi. apply own_ext; [done|done|]. intros _ _. rewrite fupd_ne; [done|]. rewrite <- (own_ind c). apply ib_not_own. by vm_compute.
Qed.

Lemma ib_used j : 0 <= j < sb_size s -> used c' s j = used c s j.
Proof using All. intros Hj. unfold used. rewrite fupd_ne; [done|]. pose proof (BBLOCK_meta s j Hs Hj). lia. Qed.

Lemma ib_fbyte o : 0 <= o < MAXFILE * BSIZE -> own c addr (o / BSIZE) <> 0 -> fbyte c' addr o = fbyte c addr o.
Proof using All.
  intros Ho Hz. destruct (div_block o Ho) as [Hi Hne]. unfold fbyte. rewrite !own_fblk; rewrite ?ib_own; try done.
  rewrite fupd_ne; [done|]. by apply ib_not_own.
Qed.

Lemma ib_nfree : nfree c' s = nfree c s.
Proof using All. apply nfree_ext. apply ib_used. Qed.

Lemma ib_miss k n : 0 <= k -> k + Z.of_nat n <= MAXFILE -> miss c' addr k n = miss c addr k n.
Proof using All. intros Hk Hn. apply miss_ext. intros i Hi. apply ib_own. unfold slot. lia. Qed.

Lemma ib_wf : file_wf s c' addr.
Proof using All.
  split.
  - intros i Hi. rewrite ib_own by done. intros Hz. destruct (fw_range _ _ _ Hw i Hi Hz) as [Hr E]. split; [done|].
    pose proof (sb_ok_bmap s Hs). rewrite ib_used by lia. done.
  - intros i j Hi Hj. rewrite !ib_own by done. by apply (fw_inj _ _ _ Hw).
Qed.
End Iblock.

(** The loop and iupdate() together. *)
Lemma wrote_file_intro s inum c addr size off data c2 r :
  sb_ok s -> 0 <= inum < sb_ninodes s -> 0 <= off <= size -> off + Z.of_nat (length data) <= MAXFILE * BSIZE ->
  allocated c addr size -> written s c addr off data c2 (i_addrs r) -> i_size r = Z.max size (off + Z.of_nat (length data)) ->
  (forall k, 0 <= k <= NDIRECT -> u32 (i_addrs r k) = i_addrs r k) ->
  let ib := IBLOCK inum s in
  wrote_file s inum c addr size off data (c2.[ib := dinode_put (c2 ib) (dip_off inum) r]) r.
Proof.
  intros Hs Hi Hoff Hmax [Hsz Hal] [W1 W2 W3 W4 W5] Er Hu ib. destruct (IBLOCK_range s inum Hs Hi) as [Eib Hib]. fold ib in Eib, Hib.
  pose proof (sb_ok_bmap s Hs) as (Hb0 & Hb1 & Hb2). set (m := dinode_put _ _ _). set (c' := c2.[ib := m]).
  set (n := length data) in *. assert (i_size r <= MAXFILE * BSIZE) as Hr by lia.
  assert (forall o, 0 <= o < i_size r -> own c2 (i_addrs r) (o / BSIZE) <> 0) as Hall.
  { intros o Ho. destruct (decide (off <= o < off + Z.of_nat n)) as [Hd|Hd].
    - destruct (W4 (Z.to_nat (o - off)) ltac:(lia)) as [Hz _]. replace (off + Z.of_nat (Z.to_nat (o - off))) with o in Hz by lia. done.
    - pose proof (Hal o ltac:(lia)) as Hz. destruct (div_block o ltac:(lia)) as [Hsl _]. by rewrite (ex_own _ _ _ _ _ W3 _ Hsl Hz). }
  split.
  - done.
  - rewrite Er. apply contents_overwrite; [done|]. cbv zeta. fold n. rewrite <- Er. intros o Ho. pose proof (Hall o Ho) as Hz.
    unfold c'. rewrite (ib_fbyte s c2 (i_addrs r) ib m Hs W2 Hib) by (try done; lia). case_decide as Hd.
    + destruct (W4 (Z.to_nat (o - off)) ltac:(lia)) as [_ E]. replace (off + Z.of_nat (Z.to_nat (o - off))) with o in E by lia. done.
    + rewrite W5 by (try done; lia). rewrite (proj2 (Z.eqb_neq _ _)); [done|]. apply Hal. lia.
  - split; [done|]. intros o Ho. destruct (div_block o ltac:(lia)) as [Hsl _]. unfold c'. rewrite (ib_own s c2 (i_addrs r) ib m Hs W2 Hib) by done. by apply Hall.
  - intros j Hj. unfold c'. rewrite (ib_used s c2 (i_addrs r) ib m Hs W2 Hib) by lia. by apply W1.
  - by apply ib_wf.
  - cbv zeta. destruct (dinode_put_fields (c2 ib) (dip_off inum) r) as (F1 & F2 & F3 & F4).
    assert (dinode_at c' s inum = fun o => m (dip_off inum + o)) as -> by (extensionality o; unfold dinode_at, c'; fold ib; by rewrite fupd_eq).
    unfold m. rewrite F1, F2, F3. split_and!; [|done|done|].
    + apply u32_small. pose proof MAXFILE_eq. unfold BSIZE in *. lia.
    + intros k Hk. rewrite F4 by done. by apply Hu.
  - intros i Hi2 Hne o Ho. unfold dinode_at, c', fupd. destruct (IBLOCK_range s i Hs Hi2) as [Ei Hib2].
    assert (c2 (IBLOCK i s) = c (IBLOCK i s)) as E2.
    { apply (ex_other _ _ _ _ _ W3); [lia| |lia|].
      - destruct (used c s (IBLOCK i s)) eqn:E; [done|]. exfalso.
        assert (used c2 s (IBLOCK i s) = true) as E1 by (apply W1; lia).
        destruct (ex_fresh _ _ _ _ _ W3 (IBLOCK i s) ltac:(lia) E1) as [E3|(Hz & j & Hj & Ej)]; [congruence|].
        destruct (fw_range _ _ _ W2 j Hj) as [Hrj _]; lia.
      - intros j Hj Ej. destruct (decide (own c addr j = 0)) as [Ez|Ez]; [lia|].
        pose proof (ex_own _ _ _ _ _ W3 j Hj Ez) as E3. destruct (fw_range _ _ _ W2 j Hj) as [Hrj _]; lia. }
    case_decide as Ed; [|by rewrite E2]. rewrite <- E2. unfold m. rewrite dinode_put_out; [by rewrite Ed|].
    destruct (dip_off_apart i inum) as [H|H]; [lia|lia|done|lia|lia|lia].
  - intros b Hb Hub Hreg Hne Hno. unfold c'. rewrite fupd_ne by done. by apply (ex_other _ _ _ _ _ W3).
  - intros i Hsi. unfold c'. rewrite (ib_own s c2 (i_addrs r) ib m Hs W2 Hib) by done. destruct (decide (own c addr i = 0)) as [Ez|Ez].
    + destruct (decide (own c2 (i_addrs r) i = 0)) as [Ez2|Ez2]; [left; congruence|right; by apply (ex_new _ _ _ _ _ W3)].
    + left. by apply (ex_own _ _ _ _ _ W3).
  - intros b Hb. unfold c'. rewrite (ib_used s c2 (i_addrs r) ib m Hs W2 Hib) by done. split.
    + intros E. destruct (ex_fresh _ _ _ _ _ W3 b Hb E) as [E1|(Hz & j & Hj & Ej)]; [by left|right]. split; [done|]. exists j. split; [done|].
      by rewrite (ib_own s c2 (i_addrs r) ib m Hs W2 Hib).
    + intros [E|(Hz & j & Hj & Ej)]; [by apply (ex_used _ _ _ _ _ W3)|]. rewrite (ib_own s c2 (i_addrs r) ib m Hs W2 Hib) in Ej by done.
      destruct (fw_range _ _ _ W2 j Hj) as [_ E]; [congruence|]. by rewrite Ej in E.
Qed.
