(* ===== verification/WriteSpec.v ===== *)
(** * writei() and crash atomicity of a file write

    writei() puts the bytes into the file; and a transaction that writes a file and
    commits is atomic with respect to crashes: after recovery the file has either
    its old contents or the new ones. *)

From S2P Require Import Prelude State Spinlock CString Kalloc Sched SchedSpec Vm VmSpec ProcMem Wp Sleeplock Bio BioSpec Log LogSpec Fs FsView FsSpec FsTxn FsAlloc FsMap FsWrite.
Open Scope Z_scope.

(** The block after the last byte. *)
Lemma blk_at_max o : o <= MAXFILE * BSIZE -> 0 <= o -> o / BSIZE <= MAXFILE.
Proof. intros H1 H2. unfold BSIZE in *. Z.to_euclidean_division_equations. lia. Qed.

Section Writei.
Context {D : DiskDriver} (dev pid : Z) (p : nat).
Hypothesis Hp : (p < NPROC)%nat.
Implicit Types (c : disk) (d : kdata) (L : list Z).

Lemma wp_iupdate ip d s c addr L Q :
  let r := inodes (fs d) ip in let ib := IBLOCK (i_inum r) s in
  ostate dev pid p ip d s c addr L -> sb_ok s -> 0 <= i_inum r < sb_ninodes s -> fits L [] 1 ->
  (forall d', tstep dev [] d d' -> tstate dev pid p d' (c.[ib := dinode_put (c ib) (dip_off (i_inum r)) r]) (logadd L ib) [] -> Q tt [] d') ->
  wp p [] (iupdate ip) d Q.
Proof using Hp.
  intros r ib [O1 O2 O3 O4] Hs Hi Hf HQ. unfold iupdate. apply wp_bind, wp_getfs. apply wp_bind, wp_getfs. fold r in O3. rewrite O2. fold r. rewrite O3. fold ib.
  destruct (IBLOCK_range s (i_inum r) Hs Hi) as [_ Hib]. fold ib in Hib. pose proof (sb_ok_bmap s Hs) as (Hb0 & Hb1 & Hb2). pose proof (so_size _ Hs).
  pose proof (fits_log _ _ _ Hf) as Hl. unfold fits, NBUF in Hf. simpl in Hf.
  eapply (wp_change dev pid p Hp d c L [] ib (fun m => dinode_put m (dip_off (i_inum r)) r)); [done|unfold blk_ok; lia|apply not_elem_of_nil|unfold NBUF; simpl; lia|lia|done].
Qed.

Section Source.
Context (ip : nat) (off : Z) (data : list Z) (src : nat -> ksrc) (I : kdata -> Prop).
Hypothesis Hsrc : forall t m, src_add (src t) (Z.of_nat m) = src (t + m)%nat.
Hypothesis HIf : forall d d', I d -> frame d d' -> I d'.
Hypothesis HIc : forall t m d Q, I d -> (t + m <= length data)%nat -> Q (0, take m (drop t data)) [] d ->
  wp p [] (either_copyin (src t) (Z.of_nat m)) d Q.

(** The blocks that [n] bytes at [off] lie in, and the end of the last one. *)
Definition blk_end (off n : Z) : Z := (off + n + BSIZE - 1) / BSIZE.
Definition nblk (off n : Z) : nat := Z.to_nat (blk_end off n - off / BSIZE).

(** There are as many free blocks as the file lacks from offset [off] up to block [kend]. *)
Definition enough (s : superblock) c addr (off kend : Z) : Prop :=
  (miss c addr (off / BSIZE) (Z.to_nat (kend - off / BSIZE)) + ind_need addr <= nfree c s)%nat.

(** What the transaction records when inode [inum] is written: of the file its
    indirect block and the blocks written, the free map, and the block of the inode. *)
Definition write_records (s : superblock) (inum : Z) (off n : Z) L0 c' addr' L' : Prop :=
  NoDup L' /\ (length L' <= length L0 + nmap s + nblk off n + 2)%nat /\ IBLOCK inum s ∈ L' /\
  forall bn, bn ∈ L' -> bn ∈ L0 \/ bn ∈ map_blocks s \/ bn = IBLOCK inum s \/ exists i, slot i /\ own c' addr' i = bn /\ bn <> 0.

(** The inode [ip] is changed and the disk is not. *)
Definition wstep d d' : Prop :=
  frame d d' /\ exists a z, kept (set_inodes (inodes (fs d)).[ip := set_i_size z (set_i_addrs a (inodes (fs d) ip))] (fs d)) (fs d').

Lemma recorded_records s c2 addr2 L0 L2 inum m :
  sb_ok s -> 0 <= off -> file_wf s c2 addr2 -> 0 <= inum < sb_ninodes s -> NoDup L2 ->
  off + Z.of_nat (length data) <= MAXFILE * BSIZE ->
  recorded s L0 (off / BSIZE) (blk_end off (Z.of_nat (length data))) c2 addr2 L2 ->
  write_records s inum off (Z.of_nat (length data)) L0 (c2.[IBLOCK inum s := m]) addr2 (logadd L2 (IBLOCK inum s)).
Proof using.
  clear Hp. intros Hs Hoff Hw Hi Hd Hmax R. destruct (IBLOCK_range s inum Hs Hi) as [_ Hib].
  pose proof (blk_le off 0 (length data) ltac:(lia)) as [Hle1 Hle2]. fold (blk_end off (Z.of_nat (length data))) in *. split_and!.
  - by apply NoDup_logadd.
  - pose proof (recorded_length _ _ _ _ _ _ _ R Hd ltac:(lia)). pose proof (length_logadd L2 (IBLOCK inum s)). unfold nblk. lia.
  - apply elem_logadd. by right.
  - intros bn [Hbn| ->]%elem_logadd; [|by right; right; left]. destruct (R bn Hbn) as [H|[H|(i & Hk & E & Hz)]]; [by left|by right; left|].
    right; right; right. exists i. assert (slot i) as Hsi.
    { pose proof MAXFILE_eq. unfold slot. clear -Hk H Hoff Hmax. destruct Hk as [->|Hk]; [lia|]. unfold blk_end, BSIZE in *. Z.to_euclidean_division_equations. lia. }
    split; [done|]. by rewrite (ib_own s c2 addr2 _ m Hs Hw Hib).
Qed.

Lemma wp_writei d s c L kend Q :
  let r := inodes (fs d) ip in let n := Z.of_nat (length data) in
  ostate dev pid p ip d s c (i_addrs r) L -> I d ->
  sb_ok s -> map_ok c s -> file_wf s c (i_addrs r) -> allocated c (i_addrs r) (i_size r) -> 0 <= i_inum r < sb_ninodes s ->
  0 <= off <= i_size r -> off + n <= MAXFILE * BSIZE -> blk_end off n <= kend <= MAXFILE -> enough s c (i_addrs r) off kend ->
  (length L + nmap s + nblk off n + 8 < NBUF)%nat ->
  (forall d' c' L', wstep d d' -> tstate dev pid p d' c' L' [] ->
     wrote_file s (i_inum r) c (i_addrs r) (i_size r) off data c' (inodes (fs d') ip) ->
     write_records s (i_inum r) off n L c' (i_addrs (inodes (fs d') ip)) L' ->
     enough s c' (i_addrs (inodes (fs d') ip)) (off + n) kend -> Q n [] d') ->
  wp p [] (writei ip (src 0%nat) off n) d Q.
Proof using All.
  intros r n O HI Hs Hm Hw Hal Hi Hoff Hmax HE Hfree Hcap HQ. pose proof MAXFILE_eq as EM. unfold writei. wp_run. fold r.
  rewrite u32_small by (unfold BSIZE in *; lia). rewrite !Z.gtb_ltb, (proj2 (Z.ltb_ge (i_size r) off)), (proj2 (Z.ltb_ge (off + n) off)), (proj2 (Z.ltb_ge (MAXFILE * BSIZE) (off + n))) by lia. cbn [orb]. wp_run.
  assert (winv dev pid p ip s c (i_addrs r) L off data kend 0 d c (i_addrs r) L) as W0.
  { split; [done|by apply written_nil|by left|]. rewrite Z.add_0_r. exact Hfree. }
  replace (writei_loop (io_fuel n) ip (src 0%nat) off n 0) with (writei_loop (io_fuel n) ip (src 0%nat) (off + Z.of_nat 0) n (Z.of_nat 0)) by (f_equal; lia).
  eapply (wp_writei_loop dev pid p Hp ip s c (i_addrs r) L off data src I kend Hs ltac:(lia) Hmax HE Hcap Hsrc HIf HIc _ _ d d); [lia| |unfold io_fuel; lia|exact W0|done|exact (tstep_istep dev ip [] _ _ (tstep_refl dev [] d))|].
  { intros _. fold n. unfold io_fuel. clear. unfold BSIZE. Z.to_euclidean_division_equations. lia. }
  intros d1 c1 addr1 L1 W1 Hi1. fold n. pose proof (winv_fits dev pid p Hp ip s c (i_addrs r) L off data kend ltac:(lia) HE Hcap _ _ _ _ _ (le_n _) W1) as Hf1.
  pose proof W1 as [O1 Wr R1 F1]. fold n in F1. rewrite take_ge in Wr by lia. pose proof O1 as [Ot Osb Odv Oad].
  destruct Hi1 as (Hfr1 & a1 & K1). pose proof (kp_ino _ _ K1) as Ei. cbn [inodes set_inodes] in Ei.
  assert (a1 = addr1) as -> by (rewrite <- Oad, Ei, fupd_eq; done). fold r in Ei, K1.
  set (size' := Z.max (i_size r) (off + n)). set (r2 := set_i_size size' (set_i_addrs addr1 r)).
  assert (forall d2, frame d d2 -> kept (set_inodes (inodes (fs d)).[ip := r2] (fs d)) (fs d2) -> tstate dev pid p d2 c1 L1 [] -> wp p [] (iupdate ip;; ret n) d2 Q) as Htail.
  { intros d2 Hf2 K2 Ht2. pose proof (kp_ino _ _ K2) as Ei2. cbn [inodes set_inodes] in Ei2. assert (inodes (fs d2) ip = r2) as Er2 by (rewrite Ei2; apply fupd_eq).
    apply wp_bind. eapply (wp_iupdate ip d2 s c1 addr1 L1); [|done|by rewrite Er2|by eapply fits_mono; [|exact Hf1]; lia|].
    { split; [done|rewrite (kp_sb _ _ K2); apply (os_sb _ _ _ _ _ _ _ _ _ O)|rewrite Er2; apply (os_dev _ _ _ _ _ _ _ _ _ O)|by rewrite Er2]. }
    rewrite Er2. intros d3 Hs3 Ht3. wp_run. destruct Hs3 as (Hf3 & K3 & _).
    assert (inodes (fs d3) ip = r2) as Er3 by (by rewrite (kp_ino _ _ K3)).
    eapply HQ; [split; [by eapply frame_trans|exists addr1, size'; by eapply kept_trans]|exact Ht3| | |].
    - rewrite Er3. apply (wrote_file_intro s (i_inum r) c (i_addrs r) (i_size r) off data c1 r2); try done.
      intros k Hk. cbn [i_addrs r2 set_i_size set_i_addrs]. pose proof (so_size _ Hs) as Hsz. pose proof (sb_ok_bmap s Hs).
      destruct (decide (addr1 k = 0)) as [->|Hz]; [done|]. apply u32_small.
      destruct (decide (k = NDIRECT)) as [->|Hne].
      + destruct (fw_range _ _ _ (wr_wf _ _ _ _ _ _ _ Wr) MAXFILE) as [Hr _]; [by vm_compute|by rewrite own_ind|]. rewrite own_ind in Hr. lia.
      + destruct (fw_range _ _ _ (wr_wf _ _ _ _ _ _ _ Wr) k) as [Hr _]; [unfold slot, NDIRECT in *; lia|by rewrite own_direct by lia|]. rewrite own_direct in Hr by lia. lia.
    - rewrite Er3. apply recorded_records; try done; [lia|apply (wr_wf _ _ _ _ _ _ _ Wr)|]. apply (lg_nodup _ _ (ts_log _ _ _ _ _ _ _ Ot)).
    - rewrite Er3. destruct (IBLOCK_range s (i_inum r) Hs Hi) as [_ Hib]. pose proof (wr_wf _ _ _ _ _ _ _ Wr) as Wf. unfold enough.
      rewrite (ib_nfree s c1 addr1 _ _ Hs Wf Hib), (ib_miss s c1 addr1 _ _ Hs Wf Hib); [exact F1|apply Z.div_pos; [lia|done]|].
      pose proof (blk_at_max (off + n) Hmax ltac:(lia)). lia. }
  wp_run. rewrite Ei, fupd_eq. cbn [i_size set_i_addrs]. apply wp_when; intros Hc.
  - rewrite Z.gtb_ltb in Hc. apply Z.ltb_lt in Hc. apply wp_modify, Htail.
    + eapply frame_trans; [exact Hfr1|apply frame_upd_fs].
    + apply (kept_inodes _ _ ((inodes (fs d)).[ip := r2])) in K1. cbn [fs upd_fs inodes set_inodes set_fs].
      rewrite Ei, fupd_eq, fupd_fupd. unfold r2, size' in *. rewrite Z.max_r in * by lia. exact K1.
    + by apply tstate_setino.
  - rewrite Z.gtb_ltb in Hc. apply Z.ltb_ge in Hc. apply Htail; [done| |done].
    replace r2 with (set_i_addrs addr1 r); [done|]. unfold r2, size'. rewrite Z.max_l by lia. by destruct r.
Qed.
End Source.
End Writei.

(** ** From user memory *)

Lemma ubytes_slice m root va n t l : (t + l <= n)%nat -> take l (drop t (ubytes m root va n)) = ubytes m root (va + Z.of_nat t) l.
Proof.
  intros H. unfold ubytes. rewrite skipn_map, firstn_map, drop_seq, take_seq, Nat.add_0_l, Nat.min_l by lia.
  rewrite seq_map_add. apply map_ext. intros i. do 2 f_equal. lia.
Qed.

Lemma length_ubytes m root va n : length (ubytes m root va n) = n.
Proof. unfold ubytes. by rewrite length_map, length_seq. Qed.

(** The user's bytes are found wherever the copy starts. *)
Lemma wp_copyin_part p d0 root tab va n t l d Q :
  uspace_ok d0 root tab -> 0 <= va -> va + Z.of_nat n < 2 ^ 64 ->
  (forall x, va <= x < va + Z.of_nat n -> umapped (mem d0) root x = true) ->
  p_pagetable (procs d p) = root /\ mem d = mem d0 /\ syms d = syms d0 -> (t + l <= n)%nat ->
  Q (0, take l (drop t (ubytes (mem d0) root va n))) [] d ->
  wp p [] (either_copyin (SUser (u64 (va + Z.of_nat t))) (Z.of_nat l)) d Q.
Proof.
  intros Hu Hva Hmax Hmap (Ep & Em & Es) Hl HQ. unfold either_copyin. wp_run. cbn [deref]. wp_run. rewrite Ep, u64_small by lia.
  intros m0 m e Hq Hs. unfold copyin. rewrite Nat2Z.id.
  destruct (copyin_loop_spec (S l) root tab [] (va + Z.of_nat t) l e m d) as (r & bs & E & H); [lia|lia|by eapply uspace_ok_ext|].
  rewrite E. eexists (r, bs), [], m, d. split; [done|]. split; [done|]. unfold in_copy in H. rewrite Em in H.
  destruct H as [(-> & _ & ->)|(_ & x & Hx & Hm)]; [by rewrite ubytes_slice in HQ|]. rewrite Hmap in Hm by lia. done.
Qed.

(** The conditions under which a file is written: the map, its blocks and its
    inode are in order, the [n] bytes at [off] are within reach, and there are free
    blocks for what it lacks up to block [kend]. *)
Record writable (s : superblock) (c : disk) (r : inode) (L : list Z) (off n kend : Z) : Prop := {
  wb_sb : sb_ok s;
  wb_map : map_ok c s;
  wb_wf : file_wf s c (i_addrs r);
  wb_alloc : allocated c (i_addrs r) (i_size r);
  wb_inum : 0 <= i_inum r < sb_ninodes s;
  wb_off : 0 <= off <= i_size r;
  wb_max : off + n <= MAXFILE * BSIZE;
  wb_end : blk_end off n <= kend <= MAXFILE;
  wb_free : enough s c (i_addrs r) off kend;
  wb_room : (length L + nmap s + nblk off n + 8 < NBUF)%nat;
}.

Lemma wp_writei_user {D : DiskDriver} dev pid p ip d s c L tab va off n kend Q :
  let r := inodes (fs d) ip in
  let root := p_pagetable (procs d p) in
  let data := ubytes (mem d) root va n in
  (p < NPROC)%nat -> tstate dev pid p d c L [] -> sb (fs d) = s -> i_dev r = dev -> writable s c r L off (Z.of_nat n) kend ->
  uspace_ok d root tab -> 0 <= va -> va + Z.of_nat n < 2 ^ 64 -> (forall x, va <= x < va + Z.of_nat n -> umapped (mem d) root x = true) ->
  (forall d' c' L', wstep ip d d' -> tstate dev pid p d' c' L' [] ->
     wrote_file s (i_inum r) c (i_addrs r) (i_size r) off data c' (inodes (fs d') ip) ->
     write_records s (i_inum r) off (Z.of_nat n) L c' (i_addrs (inodes (fs d') ip)) L' ->
     enough s c' (i_addrs (inodes (fs d') ip)) (off + Z.of_nat n) kend -> Q (Z.of_nat n) [] d') ->
  wp p [] (writei ip (SUser va) off (Z.of_nat n)) d Q.
Proof.
  intros r root data Hp Ht Hsb Hdev [W1 W2 W3 W4 W5 W6 W7 W8 W9 W10] Hu Hva Hmax Hmap HQ.
  assert (length data = n) as Hlen by apply length_ubytes.
  replace (SUser va) with (SUser (u64 (va + Z.of_nat 0))) by (rewrite Z.add_0_r, u64_small by lia; done). rewrite <- Hlen at 1.
  apply (wp_writei dev pid p Hp ip off data (fun t => SUser (u64 (va + Z.of_nat t)))
    (fun d' => p_pagetable (procs d' p) = root /\ mem d' = mem d /\ syms d' = syms d)) with (s := s) (c := c) (L := L) (kend := kend); rewrite ?Hlen; try done.
  - intros t m. cbn [src_add]. unfold u64. rewrite Zplus_mod_idemp_l. do 2 f_equal. lia.
  - intros d1 d2 (E1 & E2 & E3) [F1 F2]. split_and!; [|by rewrite F2|by rewrite F2].
    specialize (F1 p). unfold proc_rest in F1. congruence.
  - intros t m d1 Q1 HI Hl HQ1. by eapply (wp_copyin_part p d root tab va n).
Qed.
