(* ===== verification/OpSpec.v ===== *)
(** * Operations on the file system: begin_op() to end_op()

    A file system at rest has no operation in progress and an empty log; begin_op()
    opens a transaction, and the end_op() of the last operation commits it: every
    block then is on the disk as the buffer cache had it. *)

From S2P Require Import Prelude State Spinlock CString Kalloc Sched SchedSpec Wp Sleeplock Bio BioSpec Log LogSpec Fs FsView FsSpec FsTxn.
Open Scope Z_scope.

(** No operation in progress. *)
Record log_idle (dev : Z) (g : log_t) : Prop := {
  li_dev : log_dev g = dev;
  li_out : log_outstanding g = 0;
  li_com : log_committing g = 0;
  li_n : lh_n g = 0;
  li_size : LOGSIZE <= log_size g;
  li_start : 0 <= log_start g /\ log_start g + LOGSIZE < 2 ^ 31;
}.

(** One operation in progress, the log still empty. *)
Definition begun (d : kdata) : kdata := upd_fs (fun x => set_logst (set_log_outstanding 1 (logst x)) x) d.

Lemma wp_begin_op dev p d Q : log_idle dev (logst (fs d)) -> Q tt [] (begun d) -> wp p [] begin_op d Q.
Proof.
  intros [G1 G2 G3 G4 G5 G6] HQ. unfold begin_op. wp_run. apply wp_loop. wp_run. rewrite G3. simpl. wp_run. rewrite G4, G2.
  change (0 + (0 + 1) * MAXOPBLOCKS >? LOGSIZE) with false. cbv iota. wp_run. exact HQ.
Qed.

Lemma logged_begun dev d : log_idle dev (logst (fs d)) -> logged (logst (fs (begun d))) [].
Proof. intros [G1 G2 G3 G4 G5 G6]. split; simpl; try done. apply NoDup_nil_2. Qed.

(** ** The end of an operation *)

(** The recorded blocks of a transaction, as commit() reads them off the log. *)
Lemma logged_blocks g L : logged g L -> map (hb (lh_block g)) (seq 0 (length L)) = L.
Proof.
  intros Hg. apply list_eq. intros i. rewrite list_lookup_fmap. destruct (L !! i) as [bn|] eqn:E.
  - pose proof (lookup_lt_Some _ _ _ E). rewrite lookup_seq_lt by done. simpl. unfold hb. by rewrite (lg_block _ _ Hg _ _ E).
  - apply lookup_ge_None in E. rewrite lookup_seq_ge by done. done.
Qed.

(** The blocks recorded lie outside the log. *)
Definition homes (start : Z) (L : list Z) : Prop := forall bn, bn ∈ L -> blk_ok bn /\ ~ in_log start bn.

Section Op.
Context {D : DiskDriver} (dev pid : Z) (p : nat).
Hypothesis Hp : (p < NPROC)%nat.
Implicit Types (c : disk) (d : kdata) (L : list Z).

Lemma tstate_txn d c L :
  let g := logst (fs d) in
  tstate dev pid p d c L [] -> log_dev g = dev -> 0 <= log_start g /\ log_start g + LOGSIZE < 2 ^ 31 -> (length L < NBUF)%nat ->
  homes (log_start g) L -> txn dev pid d c (refs L []) (length L).
Proof using.
  clear Hp. intros g [Hc Hg _] Hdev Hst Hlen Hh. pose proof (logged_blocks _ _ Hg) as EL. fold g in EL, Hg.
  assert (forall i, (i < length L)%nat -> hb (lh_block g) i ∈ L) as Hin.
  { intros i Hi. rewrite <- EL. apply list_elem_of_In, in_map, in_seq. lia. }
  split; fold g.
  - by rewrite holds_nil in Hc.
  - done.
  - apply (lg_n _ _ Hg).
  - split; [done|done| |]; intros i Hi; destruct (Hh _ (Hin i Hi)); done.
  - rewrite EL. apply (lg_nodup _ _ Hg).
  - intros i Hi. pose proof (refs_range L [] (hb (lh_block g) i)). split; [|lia]. unfold refs. rewrite decide_True by by apply Hin. case_decide; lia.
  - intros bn Hr. rewrite EL. unfold refs in Hr. repeat case_decide; [done|done|set_solver|done].
Qed.

Lemma unpinned_refs g L : logged g L -> unpinned (lh_block g) (refs L []) (length L) = fun _ => 0.
Proof using.
  clear Hp. intros Hg. extensionality k. unfold unpinned. rewrite (logged_blocks _ _ Hg). unfold refs.
  destruct (decide (k ∈ L)); rewrite (decide_False (P := k ∈ [])) by apply not_elem_of_nil; done.
Qed.

(** What the writes of commit() leave outside the log. *)
Lemma commit_home start block n (c f : disk) bn :
  layout start block n -> NoDup (map (hb block) (seq 0 n)) -> ~ in_log start bn ->
  updl f (commit_writes start block c n) bn = if decide (bn ∈ map (hb block) (seq 0 n)) then c bn else f bn.
Proof using.
  clear Hp. intros Hla Hd Hn. assert (bn <> start) as Hne by (intros ->; by apply Hn, start_in_log).
  unfold commit_writes. fold (txn_writes block c n). rewrite !updl_app. change (updl ?f [(start, ?v)]) with (f.[start := v]). rewrite fupd_ne by done.
  case_decide as Hin.
  - apply updl_in; [by rewrite txn_writes_fst|]. apply elem_map_seq in Hin as (i & Hi & <-). apply list_elem_of_In, in_map_iff. exists i. split; [done|]. apply in_seq. lia.
  - rewrite updl_out by by rewrite txn_writes_fst. change (updl ?f [(start, ?v)]) with (f.[start := v]). rewrite fupd_ne by done. by apply (updl_log_out start block n).
Qed.

(** The end_op() of the only operation: the transaction is on the disk. *)
Lemma wp_end_op d c L Q :
  let g := logst (fs d) in
  tstate dev pid p d c L [] -> log_dev g = dev -> 0 <= log_start g /\ log_start g + LOGSIZE < 2 ^ 31 -> (0 < length L < NBUF)%nat ->
  homes (log_start g) L -> log_outstanding g = 1 -> log_committing g = 0 ->
  (forall d' c', frame d d' -> log_idle dev (logst (fs d')) -> log_start (logst (fs d')) = log_start g ->
     sb (fs d') = sb (fs d) -> inodes (fs d') = inodes (fs d) -> (forall i, slocks (fs d') (SL_inode i) = slocks (fs d) (SL_inode i)) ->
     cache dev pid (fs d') c' (fun _ => 0) no_buf -> (forall bn, ~ in_log (log_start g) bn -> c' bn = c bn) ->
     wrote (commit_writes (log_start g) (lh_block g) c (length L)) (fs d) (fs d') -> Q tt [] d') ->
  wp p [] end_op d Q.
Proof using Hp.
  intros g Ht Hdev Hst Hlen Hh Hout Hcom HQ. pose proof Ht as [Hc Hg Hpid]. fold g in Hg. pose proof (lg_size _ _ Hg) as Hsz. unfold end_op. wp_run.
  cbn [fs upd_fs set_fs logst set_logst log_committing set_log_outstanding log_outstanding]. fold g. rewrite Hcom. simpl. wp_run.
  cbn [fs upd_fs set_fs logst set_logst log_committing set_log_outstanding log_outstanding]. fold g. rewrite Hout. change (1 - 1 =? 0) with true. cbv iota. wp_run.
  set (d1 := upd_fs _ (upd_fs _ d)). unfold when. apply wp_bind.
  assert (txn dev pid d1 c (refs L []) (length L)) as Hx.
  { destruct (tstate_txn d c L Ht Hdev Hst ltac:(lia) Hh) as [X1 X2 X3 X4 X5 X6 X7]. by split; [apply cache_logst, cache_logst|..]. }
  eapply (wp_commit dev pid p Hp d1 c (refs L []) (length L)); [done|exact Hx|lia|].
  change (log_start (logst (fs d1))) with (log_start g). change (lh_block (logst (fs d1))) with (lh_block g).
  intros d2 Hf2 Hw2 (R1 & R2 & R3 & R4) Hc2. rewrite (unpinned_refs g L Hg) in Hc2. wp_run.
  apply wp_wakeup; [intros i; lk_notin|]. intros d3 Hf3 Efs3 _. wp_run.
  pose proof (tx_layout _ _ _ _ _ _ Hx) as Hla. pose proof (tx_nodup _ _ _ _ _ _ Hx) as Hnd.
  assert (fs d3 = set_logst (set_log_committing 0 (logst (fs d2))) (fs d2)) as E3 by by rewrite Efs3.
  eapply (HQ d3); rewrite ?E3.
  - eapply frame_trans; [|exact Hf3]. eapply frame_trans; [|apply frame_upd_fs]. eapply frame_trans; [|exact Hf2]. eapply frame_trans; apply frame_upd_fs.
  - split; simpl; rewrite ?R1; simpl; try done. fold g. by rewrite Hout.
  - simpl. by rewrite R1.
  - simpl. by rewrite R2.
  - simpl. by rewrite R3.
  - intros i. simpl. by rewrite R4.
  - apply cache_logst. exact Hc2.
  - intros bn Hbn. rewrite (commit_home _ _ _ _ _ _ Hla Hnd Hbn). by case_decide.
  - exact Hw2.
Qed.

(** The end_op() of an operation that recorded nothing. *)
Lemma wp_end_op_nil d Q :
  let g := logst (fs d) in
  lh_n g = 0 -> log_outstanding g = 1 -> log_committing g = 0 ->
  (forall d', frame d d' -> fs d' = set_logst (set_log_outstanding 0 g) (fs d) -> Q tt [] d') ->
  wp p [] end_op d Q.
Proof using.
  clear Hp. intros g Hn Hout Hcom HQ. unfold end_op. wp_run.
  cbn [fs upd_fs set_fs logst set_logst log_committing set_log_outstanding log_outstanding]. fold g. rewrite Hcom. simpl. wp_run.
  cbn [fs upd_fs set_fs logst set_logst log_committing set_log_outstanding log_outstanding]. fold g. rewrite Hout. change (1 - 1 =? 0) with true. cbv iota. wp_run.
  unfold commit, when. wp_run. cbn [fs upd_fs set_fs logst set_logst lh_n set_log_outstanding set_log_committing]. fold g. rewrite Hn. change (0 <? 0) with false. cbv iota. wp_run.
  apply wp_wakeup; [intros i; lk_notin|]. intros d3 Hf3 Efs3 _. wp_run. apply HQ.
  - eapply frame_trans; [|exact Hf3]. eapply frame_trans; [|apply frame_upd_fs]. eapply frame_trans; apply frame_upd_fs.
  - rewrite Efs3. cbn [fs upd_fs set_fs logst set_logst]. fold g. unfold set_logst, set_log_committing, set_log_outstanding. simpl. rewrite Hout. f_equal. fold g. destruct g. simpl in *. by subst.
Qed.
End Op.
