(* ===== verification/Uart.v ===== *)
(** * The uart and kernel printf (kernel/uart.c, kernel/printf.c, consputc of console.c)

    A load from a device register returns what the last step of the machine left
    in [uart_regs]; stores are recorded in [uart_out], latest first.  Reading the
    receive register lets the device move on (one step of the schedule).
    printf()'s output is computed as the list of characters it sends. *)

From S2P Require Import Prelude State Spinlock Kalloc Sched.
Open Scope Z_scope.

Definition getio {A} (f : iodata -> A) : M A := gets (fun d => f (io d)).
Definition setio (f : iodata -> iodata) : M unit := modify (fun d => set_io (f (io d)) d).

(** ** Registers *)

Definition RHR : Z := 0.
Definition THR : Z := 0.
Definition IER : Z := 1.
Definition FCR : Z := 2.
Definition LCR : Z := 3.
Definition LSR : Z := 5.
Definition LSR_RX_READY : Z := 1.
Definition LSR_TX_IDLE : Z := 32.

Definition ReadReg (reg : Z) : M Z := getio (fun x => uart_regs x reg).
Definition WriteReg (reg v : Z) : M unit := setio (fun x => set_uart_out ((reg, u8 v) :: uart_out x) x).

Definition UART_TX_BUF_SIZE : Z := 32.

(** for(;;) ; *)
Definition hang {A} : M A := fun _ s => Stop Waiting s.

Definition uartinit : M unit :=
  WriteReg IER 0x00;;
  WriteReg LCR 0x80;;
  WriteReg 0 0x03;;
  WriteReg 1 0x00;;
  WriteReg LCR 0x03;;
  WriteReg FCR 0x07;;
  WriteReg IER 0x03;;
  initlock LK_uart_tx "uart".

Definition uartputc_sync (c : Z) : M unit :=
  push_off;;
  let* pk := getio panicked in
  if negb (pk =? 0) then hang else
  (* wait for Transmit Holding Empty to be set in LSR. *)
  loop (fun _ : unit =>
    let* l := ReadReg LSR in
    if Z.land l LSR_TX_IDLE =? 0 then others;; ret (inl tt) else ret (inr tt)) tt;;
  WriteReg THR c;;
  pop_off.

(** Each iteration sends one buffered character, so their number bounds the fuel. *)
Fixpoint uartstart_loop (fuel : nat) : M unit :=
  match fuel with
  | O => ret tt
  | S f =>
      let* w := getio uart_tx_w in
      let* r := getio uart_tx_r in
      if w =? r then ret tt else
      let* l := ReadReg LSR in
      if Z.land l LSR_TX_IDLE =? 0 then ret tt else
      let* c := getio (fun x => uart_tx_buf x (r mod UART_TX_BUF_SIZE)) in
      setio (set_uart_tx_r (u64 (r + 1)));;
      (* maybe uartputc() is waiting for space in the buffer. *)
      wakeup CH_uart_tx_r;;
      WriteReg THR c;;
      uartstart_loop f
  end.

Definition uartstart : M unit :=
  let* n := getio (fun x => u64 (uart_tx_w x - uart_tx_r x)) in
  uartstart_loop (S (Z.to_nat n)).

Definition uartputc (c : Z) : M unit :=
  acquire LK_uart_tx;;
  let* pk := getio panicked in
  if negb (pk =? 0) then hang else
  loop (fun _ : unit =>
    let* w := getio uart_tx_w in
    let* r := getio uart_tx_r in
    if w =? u64 (r + UART_TX_BUF_SIZE) then
      sleep CH_uart_tx_r LK_uart_tx;; ret (inl tt)
    else
      setio (fun x => set_uart_tx_buf (uart_tx_buf x).[w mod UART_TX_BUF_SIZE := u8 c] x);;
      setio (fun x => set_uart_tx_w (u64 (uart_tx_w x + 1)) x);;
      uartstart;;
      release LK_uart_tx;;
      ret (inr tt)) tt.

Definition uartgetc : M Z :=
  let* l := ReadReg LSR in
  if Z.land l LSR_RX_READY =? 0 then ret (-1)
  else let* c := ReadReg RHR in others;; ret c.

(** ** printf.c *)

Definition BACKSPACE : Z := 0x100.

Definition consputc (c : Z) : M unit :=
  if c =? BACKSPACE then uartputc_sync 8;; uartputc_sync 32;; uartputc_sync 8
  else uartputc_sync c.

Fixpoint chars (s : string) : list Z :=
  match s with
  | EmptyString => []
  | String c s' => Z.of_N (Ascii.N_of_ascii c) :: chars s'
  end.

Definition digits : list Z := chars "0123456789abcdef".
Definition digit (x : Z) : Z := nth (Z.to_nat x) digits 0.

(** do buf[i++] = digits[x % base]; while((x /= base) != 0);  least digit first.
    A 32-bit number has at most 32 digits. *)
Fixpoint printint_digits (fuel : nat) (x base : Z) : list Z :=
  match fuel with
  | O => []
  | S f => digit (x mod base) :: (if x / base =? 0 then [] else printint_digits f (x / base) base)
  end.

Definition printint (xx base : Z) (sign : bool) : list Z :=
  let neg := sign && (xx <? 0) in
  let x := if neg then u32 (- xx) else u32 xx in
  let b := printint_digits 32 x base in
  rev (if neg then b ++ [45] else b).

Fixpoint printptr_loop (n : nat) (x : Z) : list Z :=
  match n with
  | O => []
  | S n' => digit (Z.shiftr x 60) :: printptr_loop n' (u64 (Z.shiftl x 4))
  end.

Definition printptr (x : Z) : list Z := 48 :: 120 :: printptr_loop 16 x.

(** A variadic argument. *)
Inductive fmtarg := AInt (z : Z) | APtr (z : Z) | AStr (s : option (list Z)).

(** The characters printf() sends; [None] if an argument is missing or of another type. *)
Fixpoint format (fmt : list Z) (args : list fmtarg) : option (list Z) :=
  match fmt with
  | [] => Some []
  | c :: fmt1 =>
      if negb (c =? 37) then option_map (cons c) (format fmt1 args) else
      match fmt1 with
      | [] => Some []
      | c :: fmt2 =>
          if c =? 100 then (* d *)
            match args with
            | AInt z :: args' => option_map (app (printint z 10 true)) (format fmt2 args')
            | _ => None
            end
          else if c =? 120 then (* x *)
            match args with
            | AInt z :: args' => option_map (app (printint z 16 true)) (format fmt2 args')
            | _ => None
            end
          else if c =? 112 then (* p *)
            match args with
            | APtr z :: args' => option_map (app (printptr z)) (format fmt2 args')
            | _ => None
            end
          else if c =? 115 then (* s *)
            match args with
            | AStr s :: args' =>
                option_map (app (match s with Some l => l | None => chars "(null)" end)) (format fmt2 args')
            | _ => None
            end
          else if c =? 37 then option_map (cons 37) (format fmt2 args)
          else option_map (fun l => 37 :: c :: l) (format fmt2 args)
      end
  end.

Definition printf (fmt : string) (args : list fmtarg) : M unit :=
  let* locking := getio pr_locking in
  when (negb (locking =? 0)) (acquire LK_pr);;
  match format (chars fmt) args with
  | Some l => forM l consputc
  | None => hang
  end;;
  when (negb (locking =? 0)) (release LK_pr).

Definition printfinit : M unit :=
  initlock LK_pr "pr";;
  setio (set_pr_locking 1).
