(* ===== verification/Console.v ===== *)
(** * The console (kernel/console.c), and procdump of proc.c

    Line editing in a circular buffer: [cons_r <= cons_w <= cons_e] count the
    characters read, completed and typed. *)

From S2P Require Import Prelude State Spinlock CString Kalloc Sched Vm ProcMem Uart.
Open Scope Z_scope.

Definition INPUT_BUF : Z := 128.
Definition NEWLINE : Z := 10.
Definition CTRL_P : Z := 16.
Definition CTRL_U : Z := 21.
Definition CTRL_H : Z := 8.
Definition CTRL_D : Z := 4.
Definition DEL : Z := 127.

(** ** Output *)

(** [rem] characters are left of [n]. *)
Fixpoint consolewrite_loop (rem : nat) (src : ksrc) (i : Z) : M Z :=
  match rem with
  | O => ret i
  | S r =>
      let* c := either_copyin src 1 in
      if fst c =? -1 then ret i else
      uartputc (nth 0 (snd c) 0);;
      consolewrite_loop r (src_add src 1) (i + 1)
  end.

Definition consolewrite (src : ksrc) (n : Z) : M Z := consolewrite_loop (Z.to_nat n) src 0.

(** ** Input *)

(** Wait until interrupt handler has put some input into cons.buf; [false] if killed. *)
Definition cons_wait : M bool :=
  loop (fun _ : unit =>
    let* r := getio cons_r in
    let* w := getio cons_w in
    if r =? w then
      let* p := myproc_deref in
      let* k := getp p p_killed in
      if negb (k =? 0) then release LK_cons;; ret (inr false)
      else sleep CH_cons_r LK_cons;; ret (inl tt)
    else ret (inr true)) tt.

(** [None] if killed (cons.lock already released); else the final value of [n]. *)
Fixpoint consoleread_loop (n : nat) (target : Z) (dst : kdst) : M (option Z) :=
  match n with
  | O => ret (Some 0)
  | S n' =>
      let* ok := cons_wait in
      if negb ok then ret None else
      let* r := getio cons_r in
      let* c := getio (fun x => cons_buf x (r mod INPUT_BUF)) in
      setio (set_cons_r (u32 (r + 1)));;
      if c =? CTRL_D then
        (* end-of-file: save ^D for next time, so that the caller gets a 0-byte result. *)
        when (Z.of_nat n <? target) (setio (fun x => set_cons_r (u32 (cons_r x - 1)) x));;
        ret (Some (Z.of_nat n))
      else
        let* e := either_copyout dst [c] in
        if e =? -1 then ret (Some (Z.of_nat n)) else
        if c =? NEWLINE then ret (Some (Z.of_nat n'))
        else consoleread_loop n' target (dst_add dst 1)
  end.

Definition consoleread (dst : kdst) (n : Z) : M Z :=
  acquire LK_cons;;
  let* r := consoleread_loop (Z.to_nat n) (u32 n) dst in
  match r with
  | None => ret (-1)
  | Some k =>
      release LK_cons;;
      ret (i32 (u32 n - (if n <=? 0 then n else k)))
  end.

(** ** Interrupt handler *)

(** proc.c: no lock is taken. *)
Definition state_name (st : procstate) : string :=
  match st with
  | UNUSED => "unused" | USED => "???" | SLEEPING => "sleep " | RUNNABLE => "runble"
  | RUNNING => "run   " | ZOMBIE => "zombie"
  end.

Definition procdump : M unit :=
  printf (String (Ascii.ascii_of_nat 10) EmptyString) [];;
  forM all_procs (fun p =>
    let* st := getp p p_state in
    if bool_decide (st = UNUSED) then ret tt else
    let* pid := getp p p_pid in
    let* name := getp p p_name in
    printf "%d %s %s" [AInt pid; AStr (Some (chars (state_name st))); AStr (Some (cstrn name 0 16))];;
    printf (String (Ascii.ascii_of_nat 10) EmptyString) []).

(** One erased character per iteration: [e - w] bounds the fuel. *)
Fixpoint kill_line (fuel : nat) : M unit :=
  match fuel with
  | O => ret tt
  | S f =>
      let* e := getio cons_e in
      let* w := getio cons_w in
      let* c := getio (fun x => cons_buf x (u32 (e - 1) mod INPUT_BUF)) in
      if negb (e =? w) && negb (c =? NEWLINE) then
        setio (set_cons_e (u32 (e - 1)));;
        consputc BACKSPACE;;
        kill_line f
      else ret tt
  end.

Definition consoleintr (c : Z) : M unit :=
  acquire LK_cons;;
  (if c =? CTRL_P then procdump
   else if c =? CTRL_U then
     let* n := getio (fun x => u32 (cons_e x - cons_w x)) in
     kill_line (S (Z.to_nat n))
   else if (c =? CTRL_H) || (c =? DEL) then
     let* e := getio cons_e in
     let* w := getio cons_w in
     when (negb (e =? w)) (setio (set_cons_e (u32 (e - 1)));; consputc BACKSPACE)
   else
     let* e := getio cons_e in
     let* r := getio cons_r in
     when (negb (c =? 0) && (u32 (e - r) <? INPUT_BUF))
       (let c := if c =? 13 then NEWLINE else c in
        (* echo back to the user. *)
        consputc c;;
        (* store for consumption by consoleread(). *)
        setio (fun x => set_cons_buf (cons_buf x).[e mod INPUT_BUF := u8 c] x);;
        setio (set_cons_e (u32 (e + 1)));;
        let* e := getio cons_e in
        let* r := getio cons_r in
        when ((c =? NEWLINE) || (c =? CTRL_D) || (e =? u32 (r + INPUT_BUF)))
          ((* wake up consoleread() if a whole line (or end-of-file) has arrived. *)
           setio (set_cons_w e);;
           wakeup CH_cons_r)));;
  release LK_cons.

(** uart.c *)
Definition uartintr : M unit :=
  loop (fun _ : unit =>
    let* c := uartgetc in
    if c =? -1 then ret (inr tt) else consoleintr c;; ret (inl tt)) tt;;
  acquire LK_uart_tx;;
  uartstart;;
  release LK_uart_tx.

Definition CONSOLE : Z := 1.

Definition consoleinit : M unit :=
  initlock LK_cons "cons";;
  uartinit;;
  modify (fun d => set_devsw (devsw d).[CONSOLE := mkDevsw (Some FN_consoleread) (Some FN_consolewrite)] d).
