(* ===== verification/File.v ===== *)
(** * Pipes and open files (kernel/pipe.c, kernel/file.c)

    A pipe is named by the address of the page pipealloc() got for it; its
    contents are the entry of [pipes] at that address. *)

From S2P Require Import Prelude State Spinlock CString Kalloc Sched Vm ProcMem Sleeplock Bio Log Fs Uart Console.
Open Scope Z_scope.

(** ** pipe.c *)

Definition PIPESIZE : Z := 512.

Definition getpi {A} (pi : Z) (f : pipe -> A) : M A := gets (fun d => f (pipes d pi)).
Definition setpi (pi : Z) (f : pipe -> pipe) : M unit :=
  modify (fun d => set_pipes (pipes d).[pi := f (pipes d pi)] d).

Definition pipeclose (pi : Z) (writable : bool) : M unit :=
  acquire (LK_pipe pi);;
  (if writable then setpi pi (set_pi_writeopen 0);; wakeup (CH_nread pi)
   else setpi pi (set_pi_readopen 0);; wakeup (CH_nwrite pi));;
  let* r := getpi pi pi_readopen in
  let* w := getpi pi pi_writeopen in
  if (r =? 0) && (w =? 0) then release (LK_pipe pi);; kfree pi
  else release (LK_pipe pi).

(** One iteration of the loop of pipewrite(): [inl i] goes on, [inr (r, true)] returns
    [r] with the lock already released, [inr (i, false)] leaves the loop. *)
Definition pipewrite_body (pi addr n : Z) (pr : nat) (i : Z) : M (Z + (Z * bool)) :=
  if i <? n then
    let* ro := getpi pi pi_readopen in
    let* k := getp pr p_killed in
    if (ro =? 0) || negb (k =? 0) then release (LK_pipe pi);; ret (inr (-1, true)) else
    let* nw := getpi pi pi_nwrite in
    let* nr := getpi pi pi_nread in
    if nw =? u32 (nr + PIPESIZE) then (* pipewrite-full *)
      wakeup (CH_nread pi);;
      sleep (CH_nwrite pi) (LK_pipe pi);;
      ret (inl i)
    else
      let* pt := getp pr p_pagetable in
      let* c := copyin pt (u64 (addr + i)) 1 in
      if fst c =? -1 then ret (inr (i, false)) else
      setpi pi (fun q => set_pi_data (pi_data q).[nw mod PIPESIZE := nth 0 (snd c) 0] q);;
      setpi pi (set_pi_nwrite (u32 (nw + 1)));;
      ret (inl (i + 1))
  else ret (inr (i, false)).

(** At most [n] iterations do not sleep. *)
Definition pipewrite (pi addr n : Z) : M Z :=
  let* pr := myproc_deref in
  acquire (LK_pipe pi);;
  let* r := loop_for (Z.to_nat n) (pipewrite_body pi addr n pr) 0 in
  let '(i, returned) := r in
  if returned : bool then ret i else
  wakeup (CH_nread pi);;
  release (LK_pipe pi);;
  ret i.

(** Wait for data: [false] if killed, with the lock released. *)
Definition piperead_wait (pi : Z) (pr : nat) : M bool :=
  loop (fun _ : unit =>
    let* nr := getpi pi pi_nread in
    let* nw := getpi pi pi_nwrite in
    let* wo := getpi pi pi_writeopen in
    if (nr =? nw) && negb (wo =? 0) then
      let* k := getp pr p_killed in
      if negb (k =? 0) then release (LK_pipe pi);; ret (inr false)
      else sleep (CH_nread pi) (LK_pipe pi);; ret (inl tt)
    else ret (inr true)) tt.

(** The copy loop of piperead(): [rem] bytes are left of [n]; the result is [i]. *)
Fixpoint piperead_loop (rem : nat) (pi addr : Z) (pr : nat) (i : Z) : M Z :=
  match rem with
  | O => ret i
  | S r =>
      let* nr := getpi pi pi_nread in
      let* nw := getpi pi pi_nwrite in
      if nr =? nw then ret i else
      let* ch := getpi pi (fun q => pi_data q (nr mod PIPESIZE)) in
      setpi pi (set_pi_nread (u32 (nr + 1)));;
      let* pt := getp pr p_pagetable in
      let* c := copyout pt (u64 (addr + i)) [ch] in
      if c =? -1 then ret i else piperead_loop r pi addr pr (i + 1)
  end.

Definition piperead (pi addr n : Z) : M Z :=
  let* pr := myproc_deref in
  acquire (LK_pipe pi);;
  let* ok := piperead_wait pi pr in
  if negb ok then ret (-1) else
  let* i := piperead_loop (Z.to_nat n) pi addr pr 0 in
  wakeup (CH_nwrite pi);;
  release (LK_pipe pi);;
  ret i.

(** ** file.c *)

Definition getf {A} (f : nat) (g : file -> A) : M A := gets (fun d => g (files d f)).
Definition setf (f : nat) (g : file -> file) : M unit :=
  modify (fun d => set_files (files d).[f := g (files d f)] d).

Definition fileinit : M unit := initlock LK_ftable "ftable".

(** The first free entry of the file table. *)
Definition free_file (fl : nat -> file) : option nat :=
  find (fun f => f_ref (fl f) =? 0) (seq 0 NFILE).

Definition filealloc : M (option nat) :=
  acquire LK_ftable;;
  let* r := gets (fun d => free_file (files d)) in
  match r with
  | Some f => setf f (set_f_ref 1);; release LK_ftable;; ret (Some f)
  | None => release LK_ftable;; ret None
  end.

Definition filedup (f : nat) : M nat :=
  acquire LK_ftable;;
  let* r := getf f f_ref in
  if r <? 1 then panic "filedup" else
  setf f (fun x => set_f_ref (f_ref x + 1) x);;
  release LK_ftable;;
  ret f.

Section File.
Context `{D : DiskDriver}.

Definition fileclose (f : nat) : M unit :=
  acquire LK_ftable;;
  let* r := getf f f_ref in
  if r <? 1 then panic "fileclose" else
  setf f (fun x => set_f_ref (f_ref x - 1) x);;
  let* r := getf f f_ref in
  if 0 <? r then release LK_ftable else
  let* ff := getf f (fun x => x) in
  setf f (set_f_ref 0);;
  setf f (set_f_type FD_NONE);;
  release LK_ftable;;
  match f_type ff with
  | FD_PIPE => pipeclose (f_pipe ff) (negb (f_writable ff =? 0))
  | FD_INODE | FD_DEVICE =>
      begin_op;;
      let* ip := deref (f_ip ff) in
      iput ip;;
      end_op
  | FD_NONE => ret tt
  end.

(** pipe.c.  The result is the return value, [*f0] and [*f1]. *)
Definition pipealloc : M (Z * option nat * option nat) :=
  let bad (pi : Z) (f0 f1 : option nat) :=
    when (negb (pi =? 0)) (kfree pi);;
    match f0 with Some f => fileclose f | None => ret tt end;;
    match f1 with Some f => fileclose f | None => ret tt end;;
    ret (-1, f0, f1) in
  let* f0 := filealloc in
  match f0 with
  | None => bad 0 None None
  | Some a =>
      let* f1 := filealloc in
      match f1 with
      | None => bad 0 f0 None
      | Some b =>
          let* pi := kalloc in
          if pi =? 0 then bad 0 f0 f1 else
          setpi pi (set_pi_readopen 1);;
          setpi pi (set_pi_writeopen 1);;
          setpi pi (set_pi_nwrite 0);;
          setpi pi (set_pi_nread 0);;
          initlock (LK_pipe pi) "pipe";;
          setf a (set_f_type FD_PIPE);;
          setf a (set_f_readable 1);;
          setf a (set_f_writable 0);;
          setf a (set_f_pipe pi);;
          setf b (set_f_type FD_PIPE);;
          setf b (set_f_readable 0);;
          setf b (set_f_writable 1);;
          setf b (set_f_pipe pi);;
          ret (0, f0, f1)
      end
  end.

Definition filestat (f : nat) (addr : Z) : M Z :=
  let* p := myproc_deref in
  let* t := getf f f_type in
  if bool_decide (t = FD_INODE \/ t = FD_DEVICE) then
    let* ip := getf f f_ip in
    ilock ip;;
    let* ip' := deref ip in
    let* st := stati ip' in
    iunlock ip;;
    let* pt := getp p p_pagetable in
    let* r := copyout pt addr st in
    if r <? 0 then ret (-1) else ret 0
  else ret (-1).

(** devsw[major].read(1, addr, n) and .write(1, addr, n) *)
Definition call_dev (fn : devfn) (addr n : Z) : M Z :=
  match fn with
  | FN_consoleread => consoleread (DUser addr) n
  | FN_consolewrite => consolewrite (SUser addr) n
  end.

Definition fileread (f : nat) (addr n : Z) : M Z :=
  let* rd := getf f f_readable in
  if rd =? 0 then ret (-1) else
  let* t := getf f f_type in
  match t with
  | FD_PIPE => let* pi := getf f f_pipe in piperead pi addr n
  | FD_DEVICE =>
      let* mj := getf f f_major in
      let* fn := gets (fun d => dv_read (devsw d mj)) in
      if (mj <? 0) || (mj >=? NDEV) then ret (-1) else
      match fn with None => ret (-1) | Some fn => call_dev fn addr n end
  | FD_INODE =>
      let* ip := getf f f_ip in
      ilock ip;;
      let* ip' := deref ip in
      let* off := getf f f_off in
      let* r := readi ip' (DUser addr) off (u32 n) in
      when (0 <? fst r) (setf f (fun x => set_f_off (u32 (f_off x + fst r)) x));;
      iunlock ip;;
      ret (fst r)
  | FD_NONE => panic "fileread"
  end.

(** The loop of filewrite(): a few blocks per transaction; the result is the final [i]. *)
Definition write_max : Z := (MAXOPBLOCKS - 1 - 1 - 2) / 2 * BSIZE.

Fixpoint filewrite_loop (fuel : nat) (f : nat) (addr n i : Z) : M Z :=
  match fuel with
  | O => fun _ s => Stop Waiting s
  | S k =>
      if i <? n then
        let n1 := Z.min (n - i) write_max in
        begin_op;;
        let* ip := getf f f_ip in
        ilock ip;;
        let* ip' := deref ip in
        let* off := getf f f_off in
        let* r := writei ip' (SUser (u64 (addr + i))) off n1 in
        when (0 <? r) (setf f (fun x => set_f_off (u32 (f_off x + r)) x));;
        iunlock ip;;
        end_op;;
        if negb (r =? n1) then ret i (* error from writei *)
        else filewrite_loop k f addr n (i + r)
      else ret i
  end.

Definition filewrite (f : nat) (addr n : Z) : M Z :=
  let* wr := getf f f_writable in
  if wr =? 0 then ret (-1) else
  let* t := getf f f_type in
  match t with
  | FD_PIPE => let* pi := getf f f_pipe in pipewrite pi addr n
  | FD_DEVICE =>
      let* mj := getf f f_major in
      let* fn := gets (fun d => dv_write (devsw d mj)) in
      if (mj <? 0) || (mj >=? NDEV) then ret (-1) else
      match fn with None => ret (-1) | Some fn => call_dev fn addr n end
  | FD_INODE =>
      let* i := filewrite_loop (S (S (Z.to_nat (n / write_max)))) f addr n 0 in
      ret (if i =? n then n else -1)
  | FD_NONE => panic "filewrite"
  end.
End File.
