(* ===== verification/PipeSpec.v ===== *)
(** * Pipes as bounded queues

    [pq] reads the ring of a pipe as the queue of the bytes written and not yet
    read; the two 32-bit counters may wrap around.  pipewrite() appends user bytes
    to it and piperead() takes them from its front. *)

From S2P Require Import Prelude State Spinlock CString Kalloc Sched SchedSpec Vm VmSpec Wp File.
Open Scope Z_scope.

Record pipe_ok (q : pipe) : Prop := {
  po_nread : 0 <= pi_nread q < 2 ^ 32;
  po_nwrite : 0 <= pi_nwrite q < 2 ^ 32;
  po_size : u32 (pi_nwrite q - pi_nread q) <= PIPESIZE;
}.

Definition pq_len (q : pipe) : nat := Z.to_nat (u32 (pi_nwrite q - pi_nread q)).
Definition pq (q : pipe) : list Z :=
  map (fun i => pi_data q ((pi_nread q + Z.of_nat i) mod PIPESIZE)) (seq 0 (pq_len q)).

Lemma pq_length q : length (pq q) = pq_len q.
Proof. unfold pq. by rewrite length_map, length_seq. Qed.

(** ** The ring *)

Lemma nwrite_mod q : pipe_ok q -> pi_nwrite q mod PIPESIZE = (pi_nread q + Z.of_nat (pq_len q)) mod PIPESIZE.
Proof.
  intros [H1 H2 H3]. unfold pq_len. rewrite Z2Nat.id by apply u32_range. unfold u32, PIPESIZE in *.
  Z.to_euclidean_division_equations. lia.
Qed.

Lemma full_iff q : pipe_ok q -> (pi_nwrite q =? u32 (pi_nread q + PIPESIZE)) = (pq_len q =? 512)%nat.
Proof.
  intros [H1 H2 H3]. unfold pq_len, u32, PIPESIZE in *. apply eq_bool_prop_intro. rewrite !Is_true_true, Z.eqb_eq, Nat.eqb_eq.
  Z.to_euclidean_division_equations. lia.
Qed.

Lemma empty_iff q : pipe_ok q -> (pi_nread q =? pi_nwrite q) = (pq_len q =? 0)%nat.
Proof.
  intros [H1 H2 H3]. unfold pq_len, u32, PIPESIZE in *. apply eq_bool_prop_intro. rewrite !Is_true_true, Z.eqb_eq, Nat.eqb_eq.
  Z.to_euclidean_division_equations. lia.
Qed.

(** What one iteration of pipewrite() stores. *)
Definition push (b : Z) (q : pipe) : pipe :=
  set_pi_nwrite (u32 (pi_nwrite q + 1)) (set_pi_data (pi_data q).[pi_nwrite q mod PIPESIZE := b] q).

Lemma push_ok b q : pipe_ok q -> (pq_len q < 512)%nat -> pipe_ok (push b q) /\ pq (push b q) = pq q ++ [b].
Proof.
  intros Hok Hl. pose proof (nwrite_mod q Hok) as Hm. pose proof Hok as [H1 H2 H3].
  assert (u32 (pi_nwrite (push b q) - pi_nread (push b q)) = u32 (pi_nwrite q - pi_nread q) + 1) as Hlen.
  { unfold push, pq_len, u32, PIPESIZE in *. simpl. Z.to_euclidean_division_equations. lia. }
  assert (pq_len (push b q) = S (pq_len q)) as Hlen'.
  { unfold pq_len. rewrite Hlen. pose proof (u32_range (pi_nwrite q - pi_nread q)). lia. }
  split.
  - split; [done|apply u32_range|]. rewrite Hlen. unfold pq_len, PIPESIZE in *. lia.
  - unfold pq. rewrite Hlen', seq_S, map_app. simpl. rewrite Hm, fupd_eq. f_equal.
    apply map_ext_in. intros i Hi%in_seq. apply fupd_ne. unfold PIPESIZE. Z.to_euclidean_division_equations. lia.
Qed.

Definition pop (q : pipe) : pipe := set_pi_nread (u32 (pi_nread q + 1)) q.

Lemma pop_ok q c l : pipe_ok q -> pq q = c :: l -> pi_data q (pi_nread q mod PIPESIZE) = c /\ pipe_ok (pop q) /\ pq (pop q) = l.
Proof.
  intros Hok E. pose proof Hok as [H1 H2 H3].
  assert (length (pq q) = S (length l)) as Hl by by rewrite E. rewrite pq_length in Hl.
  assert (u32 (pi_nwrite (pop q) - pi_nread (pop q)) = u32 (pi_nwrite q - pi_nread q) - 1) as Hlen.
  { unfold pop, pq_len, u32, PIPESIZE in *. simpl. Z.to_euclidean_division_equations. lia. }
  unfold pq in E. rewrite Hl in E. cbn [seq map] in E. rewrite Z.add_0_r in E. injection E as E0 E1. split_and!; [done| |].
  - split; [apply u32_range|done|]. rewrite Hlen. lia.
  - unfold pq. assert (pq_len (pop q) = length l) as -> by (unfold pq_len in *; rewrite Hlen; lia).
    etransitivity; [|exact E1]. rewrite <- seq_shift, map_map. apply map_ext. intros i. simpl. f_equal. unfold u32, PIPESIZE.
    Z.to_euclidean_division_equations. lia.
Qed.

(** ** One byte of user memory *)

Lemma wp_copyin1 p hl root tab va d Q :
  uspace_ok d root tab -> 0 <= va < 2 ^ 64 ->
  (umapped (mem d) root va = true -> Q (0, [mem d (uphys (mem d) root va)]) hl d) ->
  (forall bs, umapped (mem d) root va = false -> Q (-1, bs) hl d) ->
  wp p hl (copyin root va 1) d Q.
Proof.
  intros Hu Hva H1 H0 m0 m e Hq Hs. unfold copyin.
  destruct (copyin_loop_spec 2 root tab [] va 1 e m d) as (r & bs & E & H); [lia|done|done|].
  change (S (Z.to_nat 1)) with 2%nat. change (Z.of_nat 1) with 1 in *. rewrite E. eexists (r, bs), hl, m, d.
  split; [done|]. split; [done|]. destruct H as [(-> & Hm & ->)|(-> & x & Hx & Hm)].
  - unfold ubytes. cbn [seq map]. rewrite Z.add_0_r. apply H1, Hm. unfold in_copy. lia.
  - apply H0. unfold in_copy in Hx. replace va with x by lia. done.
Qed.

(** The byte at [va] changes, and no other byte of the address space. *)
Definition ustored (d : kdata) (root va b : Z) (d' : kdata) : Prop :=
  (forall x, pte_of (mem d') root x = pte_of (mem d) root x) /\
  mem d' (uphys (mem d) root va) = b /\
  (forall y, 0 <= y -> umapped (mem d) root y = true -> y <> va -> mem d' (uphys (mem d) root y) = mem d (uphys (mem d) root y)) /\
  d' = set_mem (mem d') (set_freelist (freelist d') d).

(** No byte of the address space changes. *)
Definition ukept (d : kdata) (root : Z) (d' : kdata) : Prop :=
  (forall x, pte_of (mem d') root x = pte_of (mem d) root x) /\
  (forall y, 0 <= y -> umapped (mem d) root y = true -> mem d' (uphys (mem d) root y) = mem d (uphys (mem d) root y)) /\
  d' = set_mem (mem d') (set_freelist (freelist d') d).

Lemma wp_copyout1 p hl root tab va b d Q :
  uspace_ok d root tab -> 0 <= va < 2 ^ 64 ->
  (forall d', umapped (mem d) root va = true -> uspace_ok d' root tab -> ustored d root va b d' -> Q 0 hl d') ->
  (forall d', umapped (mem d) root va = false -> uspace_ok d' root tab -> ukept d root d' -> Q (-1) hl d') ->
  wp p hl (copyout root va [b]) d Q.
Proof.
  intros Hu Hva H1 H0 m0 m e Hq Hs. unfold copyout.
  destruct (copyout_loop_spec 2 root tab va [b] e m d) as (r & d' & E & Hop & H & Hoth); [simpl; lia|done|done|].
  change (S (length [b])) with 2%nat. rewrite E. exists r, hl, m, d'. split; [done|]. split; [done|].
  destruct (uspace_ok_frame d d' root tab Hu) as [Hu' Hpte].
  { eapply only_pages_mono; [|exact Hop]. intros q (x & Hx & Hmx & ->). unfold in_copy in Hx.
    destruct (us_frame _ _ _ Hu x) as [Hp Hn]; [lia|done|]. split; [done|apply Hp]. }
  unfold in_copy in *. simpl in *. destruct H as [(-> & Hm & Hb)|(-> & x & Hx & Hm)].
  - apply H1; [apply Hm; lia|done|]. split_and!; [done| | |by destruct Hop].
    + specialize (Hb 0 ltac:(lia)). by rewrite Z.add_0_r in Hb.
    + intros y Hy Hmy Hne. apply Hoth; [done|done|lia].
  - replace x with va in Hm by lia. apply H0; [done|done|]. split_and!; [done| |by destruct Hop].
    intros y Hy Hmy. apply Hoth; [done|done|]. intros Hin. replace y with va in Hmy by lia. congruence.
Qed.

(** ** pipewrite() *)

Ltac wp_extra ::=
  lazymatch goal with
  | |- wp _ _ (getpi _ _) _ _ => apply wp_gets
  | |- wp _ _ (setpi _ _) _ _ => apply wp_modify
  end.

Definition set_pipe (pi : Z) (q : pipe) (d : kdata) : kdata := set_pipes (pipes d).[pi := q] d.

Lemma set_pipe_set pi q q' d : set_pipe pi q' (set_pipe pi q d) = set_pipe pi q' d.
Proof. unfold set_pipe. destruct d. simpl. by rewrite fupd_fupd. Qed.

Lemma set_pipe_id pi d : set_pipe pi (pipes d pi) d = d.
Proof. unfold set_pipe. destruct d. simpl. by rewrite fupd_id. Qed.

Lemma pipes_set_pipe pi q d : pipes (set_pipe pi q d) pi = q.
Proof. apply fupd_eq. Qed.

Lemma ubytes_S m root va n : ubytes m root va (S n) = ubytes m root va n ++ [m (uphys m root (va + Z.of_nat n))].
Proof. unfold ubytes. by rewrite seq_S, map_app. Qed.

(** The first [r] of [n] user bytes are mapped, and all of them or the next is not. *)
Definition mapped_prefix (m : bytes) (root addr : Z) (n r : nat) : Prop :=
  (r <= n)%nat /\ (forall i, (i < r)%nat -> umapped m root (addr + Z.of_nat i) = true) /\
  (r = n \/ umapped m root (addr + Z.of_nat r) = false).

Section Write.
Context (p : nat) (pi addr : Z) (n : nat) (d : kdata) (tab : tables).
Notation root := (p_pagetable (procs d p)).
Hypothesis Hu : uspace_ok d root tab.
Hypothesis Hlo : 0 <= addr.
Hypothesis Hhi : addr + Z.of_nat n <= 2 ^ 64.
Hypothesis Hok : pipe_ok (pipes d pi).
Hypothesis Hro : pi_readopen (pipes d pi) <> 0.
Hypothesis Hk : p_killed (procs d p) = 0.
Hypothesis Hroom : (length (pq (pipes d pi)) + n <= 512)%nat.

(** The pipe after [i] bytes. *)
Definition written (i : nat) (q : pipe) : Prop :=
  pipe_ok q /\ pi_readopen q = pi_readopen (pipes d pi) /\ pi_writeopen q = pi_writeopen (pipes d pi) /\
  pq q = pq (pipes d pi) ++ ubytes (mem d) root addr i.

Lemma wp_pipewrite_loop Q :
  (forall r q, mapped_prefix (mem d) root addr n r -> written r q -> Q (Z.of_nat r, false) [LK_pipe pi] (set_pipe pi q d)) ->
  wp p [LK_pipe pi] (loop_for n (pipewrite_body pi addr (Z.of_nat n) p) 0) d Q.
Proof.
  intros HQ. apply (wp_loop_for p _ _ _ (fun k i d' => exists j q, i = Z.of_nat j /\ (j + k = n)%nat /\ d' = set_pipe pi q d /\ written j q /\
    forall i', (i' < j)%nat -> umapped (mem d) root (addr + Z.of_nat i') = true)).
  { exists O, (pipes d pi). split_and!; [done|lia|by rewrite set_pipe_id| |lia]. unfold written. by rewrite app_nil_r. }
  intros k i d' (j & q & -> & Hjk & -> & Hw & Hmap). unfold pipewrite_body. destruct (Z.ltb_spec (Z.of_nat j) (Z.of_nat n)) as [Hlt|Hge].
  2: { wp_run. apply HQ; [|done]. split_and!; [lia|done|left; lia]. }
  pose proof Hw as (Hq & Hqr & Hqw & Hqq). wp_run. rewrite pipes_set_pipe, Hqr. change (procs (set_pipe pi q d)) with (procs d).
  rewrite Hk, (proj2 (Z.eqb_neq _ _) Hro). cbn [orb negb Z.eqb]. wp_run. rewrite !pipes_set_pipe, full_iff by done.
  assert (pq_len q < 512)%nat as Hlen.
  { rewrite <- pq_length, Hqq, length_app. unfold ubytes. rewrite length_map, length_seq. lia. }
  rewrite (proj2 (Nat.eqb_neq _ _)) by lia. wp_run. change (procs (set_pipe pi q d)) with (procs d).
  rewrite u64_small by lia. apply (wp_copyin1 p _ root tab); [by eapply uspace_ok_ext; [..|exact Hu]|lia| |].
  - intros Hmj. cbn [fst snd nth Z.eqb]. wp_run. split; [done|]. exists (k - 1)%nat. split; [lia|].
    exists (S j), (push (mem d (uphys (mem d) root (addr + Z.of_nat j))) q). split_and!; [lia|lia| | |].
    + unfold push, set_pipe. cbn [pipes set_pipes]. rewrite !fupd_eq, !fupd_fupd. reflexivity.
    + destruct (push_ok (mem d (uphys (mem d) root (addr + Z.of_nat j))) q Hq Hlen) as [P1 P2].
      split_and!; [done|done|done|]. by rewrite P2, Hqq, ubytes_S, <- app_assoc.
    + intros i' Hi'. destruct (decide (i' = j)) as [->|]; [done|]. apply Hmap. lia.
  - intros bs Hmj. cbn [fst]. rewrite Z.eqb_refl. wp_run. apply HQ; [|done]. split_and!; [lia|done|by right].
Qed.
End Write.


(** ** piperead() *)

Section Read.
Context (p : nat) (pi addr : Z) (n : nat) (d : kdata) (tab : tables).
Notation root := (p_pagetable (procs d p)).
Notation queue := (pq (pipes d pi)).
Hypothesis Hlo : 0 <= addr.
Hypothesis Hhi : addr + Z.of_nat n <= 2 ^ 64.

(** After [i] bytes were delivered and [k] taken from the queue. *)
Record delivered (i k : nat) (d' : kdata) : Prop := {
  dl_pipe : exists q, pipe_ok q /\ pq q = drop k queue /\
    d' = set_mem (mem d') (set_freelist (freelist d') (set_pipe pi q d));
  dl_space : uspace_ok d' root tab;
  dl_pte : forall x, pte_of (mem d') root x = pte_of (mem d) root x;
  dl_mapped : forall j, (j < i)%nat -> umapped (mem d) root (addr + Z.of_nat j) = true;
  dl_bytes : forall j, (j < i)%nat -> mem d' (uphys (mem d) root (addr + Z.of_nat j)) = nth j queue 0;
  dl_rest : forall y, 0 <= y -> umapped (mem d) root y = true -> ~ in_copy addr (Z.of_nat i) y ->
    mem d' (uphys (mem d) root y) = mem d (uphys (mem d) root y);
}.

Lemma umapped_pte m m' y : (forall x, pte_of m' root x = pte_of m root x) -> umapped m' root y = umapped m root y.
Proof. intros H. unfold umapped. by rewrite H. Qed.

Lemma uphys_pte m m' y : (forall x, pte_of m' root x = pte_of m root x) -> uphys m' root y = uphys m root y.
Proof. intros H. unfold uphys. by rewrite H. Qed.

(** A byte taken from the queue and stored. *)
Lemma delivered_step i d1 d2 q :
  delivered i i d1 -> (i < n)%nat -> (i < length queue)%nat -> pipe_ok q -> pq q = drop (S i) queue ->
  umapped (mem d) root (addr + Z.of_nat i) = true -> uspace_ok d2 root tab ->
  ustored (set_pipe pi q d1) root (addr + Z.of_nat i) (nth i queue 0) d2 -> delivered (S i) (S i) d2.
Proof.
  intros [(q1 & _ & _ & E1) Hsp Hpte Hmap Hb Hr] Hi Hl Hq Hqq Hm Hu (S1 & S2 & S3 & S4).
  change (mem (set_pipe pi q d1)) with (mem d1) in *.
  assert (forall y, uphys (mem d1) root y = uphys (mem d) root y) as Hup by (intros; by apply uphys_pte).
  assert (forall y, umapped (mem d1) root y = umapped (mem d) root y) as Hum by (intros; by apply umapped_pte).
  split; [|done| | | |].
  - exists q. split_and!; [done|done|]. etransitivity; [exact S4|]. rewrite E1. unfold set_pipe. cbn. by rewrite fupd_fupd.
  - intros x. by rewrite S1, Hpte.
  - intros j Hj. destruct (decide (j = i)) as [->|]; [done|]. apply Hmap. lia.
  - intros j Hj. rewrite <- Hup. destruct (decide (j = i)) as [->|]; [done|].
    rewrite S3; [by rewrite Hup; apply Hb; lia|lia|by rewrite Hum; apply Hmap; lia|lia].
  - intros y Hy Hmy Hny. unfold in_copy in *. rewrite <- Hup. rewrite S3; [rewrite Hup; apply Hr; [done|done|unfold in_copy; lia]|done|by rewrite Hum|lia].
Qed.

(** A byte taken from the queue that could not be stored. *)
Lemma delivered_lost i d1 d2 q :
  delivered i i d1 -> (i < n)%nat -> pipe_ok q -> pq q = drop (S i) queue ->
  uspace_ok d2 root tab -> ukept (set_pipe pi q d1) root d2 -> delivered i (S i) d2.
Proof.
  intros [(q1 & _ & _ & E1) Hsp Hpte Hmap Hb Hr] Hi Hq Hqq Hu (S1 & S2 & S3).
  change (mem (set_pipe pi q d1)) with (mem d1) in *.
  assert (forall y, uphys (mem d1) root y = uphys (mem d) root y) as Hup by (intros; by apply uphys_pte).
  assert (forall y, umapped (mem d1) root y = umapped (mem d) root y) as Hum by (intros; by apply umapped_pte).
  split; [|done| |done| |].
  - exists q. split_and!; [done|done|]. etransitivity; [exact S3|]. rewrite E1. unfold set_pipe. cbn. by rewrite fupd_fupd.
  - intros x. by rewrite S1, Hpte.
  - intros j Hj. rewrite <- Hup, S2; [rewrite Hup; by apply Hb|lia|rewrite Hum; by apply Hmap].
  - intros y Hy Hmy Hny. rewrite <- Hup, S2; [rewrite Hup; by apply Hr|done|by rewrite Hum].
Qed.

(** The outcome: all that was asked for or there, or the next byte could not be
    stored and is lost. *)
Definition read_post (r k : nat) : Prop :=
  r = k /\ r = Nat.min n (length queue) \/
  k = S r /\ (r < Nat.min n (length queue))%nat /\ umapped (mem d) root (addr + Z.of_nat r) = false.

Lemma wp_piperead_loop rem i d' Q :
  (i + rem = n)%nat -> (i <= length queue)%nat -> delivered i i d' ->
  (forall r k d'', read_post r k -> delivered r k d'' -> Q (Z.of_nat r) [LK_pipe pi] d'') ->
  wp p [LK_pipe pi] (piperead_loop rem pi addr p (Z.of_nat i)) d' Q.
Proof.
  revert i d'. induction rem as [|rem IH]; intros i d' Hi Hl Hd HQ; cbn [piperead_loop].
  { wp_run. apply (HQ i i); [left; lia|done]. }
  pose proof Hd as [(q & Hq & Hqq & Ed) Hsp Hpte Hmap Hb Hr].
  assert (pipes d' pi = q) as Epi by (rewrite Ed; cbn; apply fupd_eq).
  wp_run. rewrite Epi, empty_iff by done. assert (pq_len q = length queue - i)%nat as Hlen by (by rewrite <- pq_length, Hqq, length_drop).
  destruct (Nat.eqb_spec (pq_len q) 0) as [E0|E0]; wp_run.
  { apply (HQ i i); [left; lia|done]. }
  rewrite !Epi. destruct (pq q) as [|c l] eqn:Eq; [rewrite <- pq_length, Eq in E0; done|].
  destruct (pop_ok q c l Hq Eq) as (P1 & P2 & P3). rewrite P1.
  assert (c = nth i queue 0 /\ l = drop (S i) queue) as [-> ->].
  { rewrite <- (Nat.add_0_r i), <- nth_drop_add, <- Hqq. split; [done|]. rewrite Nat.add_0_r, <- Nat.add_1_r, <- drop_drop, <- Hqq. done. }
  set (d1 := set_pipes _ d'). assert (d1 = set_pipe pi (pop q) d') as Ed1 by reflexivity.
  assert (procs d1 = procs d) as Ep by (rewrite Ed1, Ed; done). rewrite Ep.
  rewrite u64_small by lia. apply (wp_copyout1 p _ root tab); [rewrite Ed1; by eapply uspace_ok_ext; [..|exact Hsp]|lia| |].
  - intros d2 Hm Hu2 Hst. rewrite Ed1 in Hm, Hst. change (0 =? -1) with false. cbv iota.
    replace (Z.of_nat i + 1) with (Z.of_nat (S i)) by lia. change (mem (set_pipe pi (pop q) d')) with (mem d') in Hm.
    apply IH; [lia|lia| |done]. apply (delivered_step i d' d2 (pop q)); try done; try lia. by rewrite <- (umapped_pte (mem d) (mem d')).
  - intros d2 Hm Hu2 Hk. rewrite Ed1 in Hm, Hk. change (mem (set_pipe pi (pop q) d')) with (mem d') in Hm.
    rewrite Z.eqb_refl. wp_run. apply (HQ i (S i)).
    + right. split_and!; [done|lia|]. by rewrite <- (umapped_pte (mem d) (mem d')).
    + by apply (delivered_lost i d' d2 (pop q)); [..|lia| | | |].
Qed.
End Read.

(** C33: piperead() takes from the front of the queue: with bytes in the pipe, or the
    write end closed, it returns without sleeping, whatever the schedule; it stores
    the oldest bytes of the queue, in order, at the user address, as many as asked
    for or present, and they leave the queue; where an address is not mapped it
    stops, returns the count so far, and the byte it had taken is lost.  No other
    byte of the address space and no mapping changes, the writers are woken and no
    lock stays held. *)
Theorem piperead_takes p m e pi addr n d tab :
  quiet p m -> uspace_ok d (p_pagetable (procs d p)) tab -> 0 <= addr -> addr + Z.of_nat n <= 2 ^ 64 ->
  pipe_ok (pipes d pi) -> pq (pipes d pi) <> [] \/ pi_writeopen (pipes d pi) = 0 ->
  exists r k d' m', piperead pi addr (Z.of_nat n) e (mkK m d) =
      Ret (Z.of_nat r) e (mkK m' (wakeup_d (CH_nwrite pi) (Some p) d')) /\
    msame m m' /\ read_post p pi addr n d r k /\ delivered p pi addr d tab r k d'.
Proof.
  intros Hq Hu Hlo Hhi Hok Hne.
  assert (wp p [] (piperead pi addr (Z.of_nat n)) d (fun a hl d' => hl = [] /\ exists r k d'', a = Z.of_nat r /\
    d' = wakeup_d (CH_nwrite pi) (Some p) d'' /\ read_post p pi addr n d r k /\ delivered p pi addr d tab r k d'')) as H.
  { unfold piperead. wp_run. apply wp_loop. wp_run. rewrite empty_iff by done.
    assert ((pq_len (pipes d pi) =? 0)%nat && negb (pi_writeopen (pipes d pi) =? 0) = false) as ->.
    { destruct Hne as [Hne|Hc]; [|rewrite Hc; apply andb_false_r]. rewrite <- pq_length. by destruct (pq (pipes d pi)). }
    wp_run. cbn [negb]. wp_run. rewrite Nat2Z.id. apply (wp_piperead_loop p pi addr n d tab Hlo Hhi n 0 d); [done|lia| |].
    - split; try done; try lia. exists (pipes d pi). split_and!; [done|done|]. rewrite set_pipe_id. by destruct d.
    - intros r k d' Hp Hd. wp_run. apply wp_wakeup; [lk_notin|]. intros d'' _ _ ->. wp_run. split; [done|]. by exists r, k, d'. }
  destruct (H m m e Hq (msame_refl _)) as (a & hl & m' & d' & E & S & -> & r & k & d'' & -> & -> & H1 & H2).
  by exists r, k, d'', m'.
Qed.

(** ** A concrete pipe: the counters about to wrap, two bytes in the queue *)

Definition pipeE (w : Z) (k : nat) : pipe :=
  mkPipe (fun i => if decide (i = 511) then 65 else 66) (2 ^ 32 - 1) (u32 (2 ^ 32 - 1 + Z.of_nat k)) w w.
Definition dP (q : pipe) : kdata := set_pipe 7 q (upd_proc 1 (set_p_pagetable Rt) dD).

Lemma uspace_ok_P q : uspace_ok (dP q) Rt tabC.
Proof. eapply uspace_ok_ext; [..|exact uspace_ok_D]; done. Qed.

Lemma pq_P : pq (pipes (dP (pipeE 1 2)) 7) = [65; 66].
Proof. unfold dP. rewrite pipes_set_pipe. by vm_compute. Qed.


Lemma piperead_takes_witness :
  exists d' m', piperead 7 5 9 [] (mkK machine1 (dP (pipeE 1 2))) =
      Ret 2 [] (mkK m' (wakeup_d (CH_nwrite 7) (Some 1%nat) d')) /\
    pq (pipes d' 7) = [] /\ mem d' (uphys (mem dD) Rt 5) = 65 /\ mem d' (uphys (mem dD) Rt 6) = 66.
Proof.
  destruct (piperead_takes 1 machine1 [] 7 5 9 (dP (pipeE 1 2)) tabC) as (r & k & d' & m' & H1 & _ & Hp & [(q & _ & Hq & E) _ _ _ Hb _]);
    [apply quiet1|apply uspace_ok_P|lia|lia|by split|left; by rewrite pq_P|].
  unfold read_post in Hp. rewrite pq_P in *. change (Nat.min 9 (length [65; 66])) with 2%nat in Hp.
  assert (r = 2 /\ k = 2)%nat as [-> ->].
  { destruct Hp as [[<- ->]|(-> & Hr & Hn)]; [by split|]. exfalso. destruct r as [|[|r]]; try lia; rewrite (umapped_D0 _) in Hn; by try lia. }
  exists d', m'. split; [exact H1|]. split; [rewrite E; etransitivity; [|exact Hq]; f_equal; apply fupd_eq|]. split; [exact (Hb 0%nat ltac:(lia))|exact (Hb 1%nat ltac:(lia))].
Defined.
