(* ===== verification/FileSpec.v ===== *)
(** * Writing through an open file

    write() on an inode: filewrite() splits the request into operations that each
    fit the log, every one of them locks the inode, writes a part, unlocks and
    commits.  On return the disk holds the file with the bytes in place. *)

From S2P Require Import Prelude State Spinlock CString Kalloc Sched SchedSpec Vm VmSpec ProcMem Wp Sleeplock Bio BioSpec Log LogSpec Fs FsView FsSpec NameSpec FsTxn FsAlloc FsMap FsWrite WriteSpec OpSpec File.
Open Scope Z_scope.

Ltac wp_extra ::=
  lazymatch goal with
  | |- wp _ _ (getf _ _) _ _ => apply wp_gets
  | |- wp _ _ (setf _ _) _ _ => apply wp_modify
  end.

(** ** Two disks that hold the same files *)

Section Same.
Context (s : superblock) (c c' : disk) (addr addr' : Z -> Z).
Hypothesis Hs : sb_ok s.
Hypothesis Hc : forall bn, sb_inodestart s <= bn -> c' bn = c bn.
Hypothesis Ha : forall j, 0 <= j <= NDIRECT -> addr' j = addr j.

Lemma meta_inodestart : sb_inodestart s <= sb_bmapstart s.
Proof using Hs. destruct Hs as [H1 H2 [H3 H4]]. assert (0 <= sb_ninodes s / IPB) by (apply Z.div_pos; [lia|done]). lia. Qed.

Lemma same_used b : 0 <= b < sb_size s -> used c' s b = used c s b.
Proof using Hs Hc. intros Hb. unfold used. pose proof meta_inodestart. pose proof (BBLOCK_meta s b Hs Hb). rewrite Hc by lia. done. Qed.

Lemma same_map : map_ok c s -> map_ok c' s.
Proof using Hs Hc. intros Hm b Hb. pose proof (sb_ok_bmap s Hs). rewrite same_used by lia. by apply Hm. Qed.

Lemma same_nfree : nfree c' s = nfree c s.
Proof using Hs Hc. apply nfree_ext, same_used. Qed.

Lemma same_dinode i o : 0 <= i < sb_ninodes s -> dinode_at c' s i o = dinode_at c s i o.
Proof using Hs Hc.
  intros Hi. unfold dinode_at. destruct (IBLOCK_range s i Hs Hi) as [E _]. assert (0 <= i / IPB) by (apply Z.div_pos; [lia|done]). rewrite Hc by lia. done.
Qed.

Lemma same_ind : ind_need addr' = ind_need addr.
Proof using Ha. unfold ind_need. by rewrite Ha. Qed.

Section Wf.
Hypothesis Hw : file_wf s c addr.

Lemma same_own i : slot i -> own c' addr' i = own c addr i.
Proof using All.
  intros Hi. apply own_ext; [done|done|]. intros _ Hz. rewrite Hc; [done|]. pose proof meta_inodestart. pose proof (sb_ok_bmap s Hs).
  destruct (fw_range _ _ _ Hw MAXFILE) as [Hr _]; [by vm_compute|by rewrite own_ind|]. rewrite own_ind in Hr. lia.
Qed.

Lemma same_wf : file_wf s c' addr'.
Proof using All.
  split.
  - intros i Hi. rewrite same_own by done. intros Hz. destruct (fw_range _ _ _ Hw i Hi Hz) as [Hr E]. split; [done|].
    pose proof (sb_ok_bmap s Hs). rewrite same_used by lia. done.
  - intros i j Hi Hj. rewrite !same_own by done. by apply (fw_inj _ _ _ Hw).
Qed.

Lemma same_alloc size : allocated c addr size -> allocated c' addr' size.
Proof using All. intros [H1 H2]. split; [done|]. intros o Ho. rewrite same_own; [by apply H2|]. apply div_block. lia. Qed.

Lemma same_contents size : allocated c addr size -> contents c' addr' size = contents c addr size.
Proof using All.
  intros [H1 H2]. apply fbytes_ext. intros o Ho. assert (0 <= o < size) as Ho2 by lia. destruct (div_block o ltac:(lia)) as [Hsl Hne].
  pose proof (H2 o Ho2) as Hz. unfold fbyte. rewrite !own_fblk; rewrite ?same_own; try done.
  rewrite Hc; [done|]. pose proof meta_inodestart. pose proof (sb_ok_bmap s Hs). destruct (fw_range _ _ _ Hw _ Hsl Hz) as [Hr _]. lia.
Qed.

Lemma same_enough off kend : 0 <= off -> kend <= MAXFILE -> off / BSIZE <= MAXFILE -> enough s c addr off kend -> enough s c' addr' off kend.
Proof using All.
  intros Ho Hk Hm. unfold enough. rewrite same_nfree, same_ind. rewrite (miss_ext c c' addr addr'); [done|]. intros i Hi. apply same_own.
  assert (0 <= off / BSIZE) by (apply Z.div_pos; [lia|done]). unfold slot. lia.
Qed.
End Wf.
End Same.

(** ** A file on the disk *)

(** Inode [inum] is a file with the contents [l]. *)
Record file_on (s : superblock) (c : disk) (inum : Z) (l : list Z) : Prop := {
  fo_inum : 0 <= inum < sb_ninodes s;
  fo_type : dtype c s inum <> 0;
  fo_wf : file_wf s c (daddr c s inum);
  fo_alloc : allocated c (daddr c s inum) (dsize c s inum);
  fo_size : dsize c s inum = Z.of_nat (length l);
  fo_data : contents c (daddr c s inum) (dsize c s inum) = l;
}.

(** From [c] to [c'] only the file [inum] changed: the dinodes of others are as they
    were, and used data blocks of others keep their contents and stay used by others. *)
Record only_file (s : superblock) (inum : Z) (c c' : disk) : Prop := {
  of_inodes : forall i, 0 <= i < sb_ninodes s -> i <> inum -> forall o, 0 <= o < sizeof_dinode -> dinode_at c' s i o = dinode_at c s i o;
  of_blocks : forall b, nmeta s <= b < sb_size s -> used c s b = true -> (forall i, slot i -> own c (daddr c s inum) i <> b) ->
    c' b = c b /\ used c' s b = true /\ forall i, slot i -> own c' (daddr c' s inum) i <> b;
}.

Lemma only_file_refl s inum c : only_file s inum c c.
Proof. by split. Qed.

Lemma only_file_trans s inum c1 c2 c3 : only_file s inum c1 c2 -> only_file s inum c2 c3 -> only_file s inum c1 c3.
Proof.
  intros [A1 A2] [B1 B2]. split.
  - intros i Hi Hne o Ho. rewrite B1, A1; done.
  - intros b Hb Hu Hn. destruct (A2 b Hb Hu Hn) as (E1 & E2 & E3). destruct (B2 b Hb E2 E3) as (E4 & E5 & E6). split_and!; [congruence|done|done].
Qed.

(** ** Fields of a dinode from its bytes *)

Section Fields.
Context (s : superblock) (c c' : disk) (n : Z).
Hypothesis H : forall o, 0 <= o < sizeof_dinode -> dinode_at c' s n o = dinode_at c s n o.

Lemma same_type : dtype c' s n = dtype c s n.
Proof using H. unfold dtype, di_type, ldshort. f_equal. apply ld16_ext. intros i Hi. apply H. unfold sizeof_dinode. lia. Qed.
Lemma same_nlink : di_nlink (dinode_at c' s n) = di_nlink (dinode_at c s n).
Proof using H. unfold di_nlink, ldshort. f_equal. apply ld16_ext. intros i Hi. apply H. unfold sizeof_dinode. lia. Qed.
Lemma same_size : dsize c' s n = dsize c s n.
Proof using H. apply ld32_ext. intros i Hi. apply H. unfold sizeof_dinode. lia. Qed.
Lemma same_addr k : 0 <= k <= NDIRECT -> daddr c' s n k = daddr c s n k.
Proof using H. intros Hk. apply ld32_ext. intros i Hi. apply H. unfold sizeof_dinode, NDIRECT in *. lia. Qed.

Lemma same_loaded nd : i_inum nd = n -> loaded c s nd -> loaded c' s nd.
Proof using H.
  intros En (L1 & L2 & L3 & L4). unfold loaded. rewrite En in *. rewrite same_type, same_nlink, same_size. split_and!; try done.
  intros k Hk. rewrite same_addr by done. by apply L4.
Qed.
End Fields.

(** A disk that differs below the inodes only holds the same files. *)
Section Agree.
Context (s : superblock) (c c' : disk) (inum : Z).
Hypothesis Hs : sb_ok s.
Hypothesis Hc : forall bn, sb_inodestart s <= bn -> c' bn = c bn.

Lemma agree_daddr : 0 <= inum < sb_ninodes s -> daddr c' s inum = daddr c s inum.
Proof using All. intros Hi. extensionality k. apply ld32_ext. intros i _. by apply same_dinode. Qed.

Lemma agree_file_on l : file_on s c inum l -> file_on s c' inum l.
Proof using All.
  intros [F1 F2 F3 F4 F5 F6]. pose proof (fun o => same_dinode s c c' Hs Hc inum o F1) as Hd. pose proof (agree_daddr F1) as Ea.
  assert (dsize c' s inum = dsize c s inum) as Ez by (apply same_size; intros; apply Hd). split; rewrite ?Ez, ?Ea; try done.
  - rewrite (same_type s c c'); [done|intros; apply Hd].
  - by eapply (same_wf s c c').
  - by eapply (same_alloc s c c').
  - rewrite <- F6. by eapply (same_contents s c c').
Qed.

Lemma agree_only_file l : file_on s c inum l -> only_file s inum c c'.
Proof using All.
  intros [F1 F2 F3 F4 F5 F6]. pose proof (meta_inodestart s Hs). pose proof (sb_ok_bmap s Hs) as (Hb0 & Hb1 & Hb2). split.
  - intros i Hi _ o _. by apply same_dinode.
  - intros b Hb Hu Hn. split_and!; [apply Hc; lia|by rewrite (same_used s c c') by (try done; lia)|].
    intros i Hi. rewrite (agree_daddr F1), (same_own s c c' (daddr c s inum)) by done. by apply Hn.
Qed.
End Agree.

Lemma i16_idem v : i16 (i16 v mod 2 ^ 16) = i16 v.
Proof. unfold i16. change (2 ^ 15) with 32768. change (2 ^ 16) with 65536. Z.to_euclidean_division_equations. lia. Qed.

Section Chunk.
Context {D : DiskDriver} (dev pid : Z) (p : nat).
Hypothesis Hp : (p < NPROC)%nat.
Context (s : superblock).
Hypothesis Hs : sb_ok s.
Implicit Types (c : disk) (d : kdata) (R : Z -> Z).

Definition ikey (r : inode) := (i_dev r, i_inum r, i_ref r, i_valid r).

Lemma itab_change x x' c c' R hk :
  itab dev pid x c R hk -> (forall i, ikey (inodes x' i) = ikey (inodes x i)) -> (forall i, slocks x' (SL_inode i) = slocks x (SL_inode i)) ->
  (forall i n, entry x i n -> i_valid (inodes x i) <> 0 -> loaded c (sb x) (inodes x i) -> loaded c' (sb x') (inodes x' i)) ->
  itab dev pid x' c' R hk /\ forall i n, entry x' i n <-> entry x i n.
Proof using.
  intros [T1 T2 T3 T4 T5 T6 T7 T8 T9] Hk Hl Hld.
  assert (forall i, i_dev (inodes x' i) = i_dev (inodes x i) /\ i_inum (inodes x' i) = i_inum (inodes x i) /\
    i_ref (inodes x' i) = i_ref (inodes x i) /\ i_valid (inodes x' i) = i_valid (inodes x i)) as K.
  { intros i. specialize (Hk i). unfold ikey in Hk. injection Hk as E1 E2 E3 E4. done. }
  assert (forall i n, entry x' i n <-> entry x i n) as He by (intros i n; unfold entry; by destruct (K i) as (_ & -> & -> & _)).
  split; [|done]. split.
  - intros i. destruct (K i) as (_ & _ & -> & _). apply T1.
  - intros i j n H1%He H2%He. by eapply T2.
  - intros i n H1%He. destruct (K i) as (-> & _). by eapply T3.
  - intros i n H1%He. destruct (K i) as (_ & _ & -> & _). by apply T4.
  - intros n H1. destruct (T5 n H1) as [i Hi]. exists i. by apply He.
  - intros i n H1%He. destruct (K i) as (_ & _ & _ & ->). intros Hv. apply (Hld i n H1 Hv). by eapply T6.
  - done.
  - intros i n H1%He Hh. rewrite Hl. destruct (K i) as (_ & _ & _ & ->). by eapply T8.
  - intros i Hi H1. rewrite Hl. apply T9; [done|]. destruct (K i) as (_ & E & _ & _). rewrite E in H1. intros H2. apply H1. by apply He.
Qed.

(** No operation is in progress: no block is pinned or locked, so what the cache
    presents is what the disk holds, and no inode is locked. *)
Record resting d c R : Prop := {
  re_i : istate dev pid p d c (fun _ => 0) R no_lock;
  re_sb : sb (fs d) = s;
  re_log : log_idle dev (logst (fs d));
  re_area : log_start (logst (fs d)) + LOGSIZE <= sb_inodestart s;
  re_inum : forall n, R n <> 0 -> 0 <= n < sb_ninodes s;
}.

Lemma resting_disk d c R : resting d c R -> forall bn, c bn = dblk (fs d) bn.
Proof using. intros [[(Hc & _) _] _ _ _ _] bn. by apply (ca_clean _ _ _ _ _ _ Hc). Qed.

(** A file as the loaded inode presents it. *)
Lemma loaded_addr c nd j : loaded c s nd -> 0 <= j <= NDIRECT -> i_addrs nd j = daddr c s (i_inum nd) j.
Proof using. intros (_ & _ & _ & H) Hj. by apply H. Qed.

(** The inode table after a write to the file of inode [ip]. *)
Lemma itab_wrote x x' c c' R hk ip inum off data :
  let r := inodes x ip in let r' := inodes x' ip in
  itab dev pid x c R hk -> entry x ip inum -> sb x = s -> sb x' = s -> (forall n, R n <> 0 -> 0 <= n < sb_ninodes s) ->
  (forall i, slocks x' (SL_inode i) = slocks x (SL_inode i)) ->
  (exists a z, inodes x' = (inodes x).[ip := set_i_size z (set_i_addrs a r)]) -> loaded c s r ->
  wrote_file s inum c (i_addrs r) (i_size r) off data c' r' ->
  itab dev pid x' c' R hk /\ (forall i n, entry x' i n <-> entry x i n) /\ loaded c' s r'.
Proof using All.
  intros r r' Ht He Es Es' HR Hl (a & z & Ei) (L1 & L2 & L3 & L4) W. pose proof He as (_ & _ & En). fold r in En.
  assert (r' = set_i_size z (set_i_addrs a r)) as Er' by (unfold r'; rewrite Ei; apply fupd_eq).
  assert (loaded c' s r') as Hld'.
  { destruct (wf_dinode _ _ _ _ _ _ _ _ _ W) as (F1 & F2 & F3 & F4). rewrite Er' in *. cbn [i_size i_addrs i_type i_nlink i_inum set_i_size set_i_addrs] in *.
    unfold loaded. cbn [i_size i_addrs i_type i_nlink i_inum set_i_size set_i_addrs]. rewrite En in *. unfold dtype, dsize, daddr in *.
    split_and!; [rewrite F2, L1; unfold di_type, ldshort; by rewrite i16_idem|rewrite F3, L2; unfold di_nlink, ldshort; by rewrite i16_idem|done|]. intros k Hk. by rewrite F4. }
  destruct (itab_change x x' c c' R hk Ht) as [G1 G2]; [|done| |by split_and!].
  - intros i. rewrite Ei. unfold fupd. case_decide; [by subst|done].
  - rewrite Es, Es'. intros i n Hi Hv Hld. destruct (decide (i = ip)) as [->|Hne]; [done|].
    assert (n <> inum) as Hn by (intros ->; apply Hne; by eapply it_inj). pose proof Hi as (_ & _ & En2).
    rewrite Ei, fupd_ne by done. apply (same_loaded s c c' n); [|done|done]. apply (wf_inodes _ _ _ _ _ _ _ _ _ W); [|done].
    apply HR. rewrite <- (it_ref _ _ _ _ _ _ Ht _ _ Hi). destruct Hi. lia.
Qed.

(** The file as its loaded inode has it, and back. *)
Lemma file_on_loaded c nd l : file_on s c (i_inum nd) l -> loaded c s nd ->
  file_wf s c (i_addrs nd) /\ allocated c (i_addrs nd) (i_size nd) /\ i_size nd = Z.of_nat (length l) /\ contents c (i_addrs nd) (i_size nd) = l.
Proof using Hs.
  intros [F1 F2 F3 F4 F5 F6] Hld. pose proof (fun j => loaded_addr c nd j Hld) as Ha. destruct Hld as (_ & _ & Ez & _). rewrite Ez.
  split_and!; [by eapply (same_wf s c c)|by eapply (same_alloc s c c)|done|]. rewrite <- F6. by eapply (same_contents s c c).
Qed.

Lemma loaded_file_on c nd l : loaded c s nd -> 0 <= i_inum nd < sb_ninodes s -> i_type nd <> 0 -> file_wf s c (i_addrs nd) ->
  allocated c (i_addrs nd) (i_size nd) -> i_size nd = Z.of_nat (length l) -> contents c (i_addrs nd) (i_size nd) = l -> file_on s c (i_inum nd) l.
Proof using Hs.
  intros Hld Hi Hty Hw Hal Hsz Hd. pose proof (fun j Hj => eq_sym (loaded_addr c nd j Hld Hj)) as Ha. destruct Hld as (Et & _ & Ez & _).
  split; [done|by rewrite <- Et|by eapply (same_wf s c c)| | |]; rewrite <- Ez; [by eapply (same_alloc s c c)|done|].
  rewrite <- Hd. by eapply (same_contents s c c).
Qed.

Lemma length_overwrite l off data : (off <= length l)%nat -> Z.of_nat (length (overwrite l off data)) = Z.max (Z.of_nat (length l)) (Z.of_nat off + Z.of_nat (length data)).
Proof using. clear Hp. intros H. unfold overwrite. rewrite !length_app, length_take, length_drop. lia. Qed.

(** A write, in terms of the disk. *)
Lemma wrote_on c c' r r' l off data :
  loaded c s r -> loaded c' s r' -> i_inum r' = i_inum r -> i_type r' = i_type r -> map_ok c s -> file_on s c (i_inum r) l -> 0 <= off <= Z.of_nat (length l) ->
  wrote_file s (i_inum r) c (i_addrs r) (i_size r) off data c' r' ->
  file_on s c' (i_inum r) (overwrite l (Z.to_nat off) data) /\ only_file s (i_inum r) c c'.
Proof using All.
  intros Hld Hld' En Et Hm Hf Hoff W. destruct (file_on_loaded c r l Hf Hld) as (G1 & G2 & G3 & G4).
  pose proof (fun j Hj => eq_sym (loaded_addr c r j Hld Hj)) as Ha. pose proof (fun j Hj => eq_sym (loaded_addr c' r' j Hld' Hj)) as Ha'. rewrite En in Ha'.
  destruct W as [W1 W2 W3 W4 W5 W6 W7 W8 W9 W10]. split.
  - rewrite <- En. apply loaded_file_on; try done.
    + rewrite En. apply (fo_inum _ _ _ _ Hf).
    + rewrite Et. destruct Hld as (-> & _). apply (fo_type _ _ _ _ Hf).
    + rewrite W1, G3, length_overwrite by lia. lia.
    + by rewrite W2, G4.
  - split; [done|]. intros b Hb Hu Hn. pose proof (sb_ok_bmap s Hs) as (Hb0 & Hb1 & Hb2).
    assert (forall i, slot i -> own c (i_addrs r) i <> b) as Hn'.
    { intros i Hi. rewrite <- (same_own s c c (i_addrs r) (daddr c s (i_inum r))); [by apply Hn|done..]. }
    destruct (IBLOCK_range s (i_inum r) Hs (fo_inum _ _ _ _ Hf)) as [_ Hib]. split_and!.
    + apply W8; [lia|done|lia|lia|done].
    + apply W10; [lia|by left].
    + intros i Hi. rewrite (same_own s c' c' (i_addrs r') (daddr c' s (i_inum r))); [|done..].
      intros E. destruct (W9 i Hi) as [E1|E1]; [by apply (Hn' i Hi); rewrite <- E1|]. rewrite E in E1. congruence.
Qed.

(** The recorded blocks of a write are home blocks. *)
Lemma write_homes start inum off n c' addr' L' :
  start + LOGSIZE <= sb_inodestart s -> 0 <= inum < sb_ninodes s -> file_wf s c' addr' -> write_records s inum off n [] c' addr' L' -> homes start L'.
Proof using Hs.
  clear Hp. intros Hst Hi Hw (_ & _ & _ & Hr) bn Hbn. pose proof (sb_ok_bmap s Hs) as (Hb0 & Hb1 & Hb2). pose proof (so_size _ Hs) as Hsz.
  pose proof (meta_inodestart s Hs) as Hmi. assert (sb_inodestart s <= bn < sb_size s) as Hrg.
  { destruct (Hr bn Hbn) as [[]%elem_of_nil|[H|[->|(i & Hsi & <- & Hz)]]].
    - unfold map_blocks in H. apply list_elem_of_In, in_map_iff in H as (j & <- & Hj%list_elem_of_In%elem_upto). unfold nmeta in Hb1. lia.
    - destruct (IBLOCK_range s inum Hs Hi) as [E Hib]. assert (0 <= inum / IPB) by (apply Z.div_pos; [lia|done]). lia.
    - destruct (fw_range _ _ _ Hw i Hsi Hz) as [Hrg _]. lia. }
  pose proof (so_inode _ Hs). unfold blk_ok, in_log. lia.
Qed.

(** Where user data comes from. *)
Record usource d (va : Z) (n : nat) : Prop := {
  us_va : 0 <= va /\ va + Z.of_nat n < 2 ^ 64;
  us_map : forall x, va <= x < va + Z.of_nat n -> umapped (mem d) (p_pagetable (procs d p)) x = true;
  us_tab : exists tab, uspace_ok d (p_pagetable (procs d p)) tab;
}.

(** What filewrite() leaves alone besides the file system. *)
Definition umem_same d d' : Prop := mem d' = mem d /\ syms d' = syms d /\ p_pagetable (procs d' p) = p_pagetable (procs d p).

Lemma frame_umem d d' : frame d d' -> umem_same d d' /\ files d' = files d.
Proof using.
  intros [F1 F2]. specialize (F1 p). unfold proc_rest in F1. split; [split_and!|]; [by rewrite F2|by rewrite F2|congruence|by rewrite F2].
Qed.

Lemma umem_trans d1 d2 d3 : umem_same d1 d2 -> umem_same d2 d3 -> umem_same d1 d3.
Proof using. intros (A1 & A2 & A3) (B1 & B2 & B3). split_and!; congruence. Qed.

(** The part of the loop of filewrite() between begin_op() and end_op(). *)
Definition write_op {A} (f : nat) (va n : Z) (K : Z -> M A) : M A :=
  begin_op;;
  let* ip := getf f f_ip in
  ilock ip;;
  let* ip' := deref ip in
  let* off := getf f f_off in
  let* r := writei ip' (SUser va) off n in
  when (0 <? r) (setf f (fun x => set_f_off (u32 (f_off x + r)) x));;
  iunlock ip;;
  end_op;;
  K r.

(** The log while one operation is in progress. *)
Definition log_one (start : Z) (g : log_t) : Prop := log_dev g = dev /\ log_start g = start /\ log_outstanding g = 1 /\ log_committing g = 0.

(** The operation that took the disk of [d] to that of [d'] made the writes of one
    commit, whose blocks are, from the inodes on, those of [c']. *)
Definition one_commit (start : Z) (d d' : kdata) (c' : disk) : Prop :=
  exists block c n, layout start block n /\ (0 < n)%nat /\ wrote (commit_writes start block c n) (fs d) (fs d') /\
    forall bn, sb_inodestart s <= bn -> updl (dblk (fs d)) (txn_writes block c n) bn = c' bn.

(** The end of an operation on a locked inode. *)
Lemma wp_op_end {A} d c L R ip inum start (K : M A) Q :
  tstate dev pid p d c L [] -> itab dev pid (fs d) c R no_lock.[inum := true] -> entry (fs d) ip inum -> sb (fs d) = s ->
  log_one start (logst (fs d)) -> 0 <= start -> start + LOGSIZE <= sb_inodestart s ->
  (0 < length L < NBUF)%nat -> homes start L -> (forall n, R n <> 0 -> 0 <= n < sb_ninodes s) ->
  (forall d' c', resting d' c' R -> (forall bn, sb_inodestart s <= bn -> c' bn = c bn) -> entry (fs d') ip inum -> frame d d' ->
     one_commit start d d' c' -> wp p [] K d' Q) ->
  wp p [] (iunlock (Some ip);; end_op;; K) d Q.
Proof using Hp Hs.
  intros Ht Hit He Esb (Eg1 & Eg2 & Eg3 & Eg4) Hst0 Hst Hlen Hh HR HQ. pose proof (sb_ok_bmap s Hs) as (Hb0 & Hb1 & Hb2). pose proof (so_size _ Hs) as Hsz. pose proof (meta_inodestart s Hs) as Hmi.
  apply wp_bind. eapply (wp_iunlock dev pid p Hp d c (refs L []) R _ ip inum); [split; [by apply tstate_fstate; [|lia]|exact Hit]|done|by rewrite fupd_eq|].
  rewrite unlock_back. intros d1 [(Hc1 & _ & Hpid1) Hit1] (Hf1 & Elg1 & Esb1 & Edk1 & Edw1) Ei1.
  assert (tstate dev pid p d1 c L []) as Ht1 by (split; [by rewrite holds_nil|rewrite Elg1; apply (ts_log _ _ _ _ _ _ _ Ht)|done]).
  apply wp_bind. eapply (wp_end_op dev pid p Hp d1 c L); rewrite ?Elg1, ?Eg1, ?Eg2, ?Eg3, ?Eg4; [done|done|lia|done|done|done|done|].
  intros d2 c2 Hf2 Hidle Est Esb2 Ei2 Esl2 Hc2 Hag Hwr. assert (forall bn, sb_inodestart s <= bn -> c2 bn = c bn) as Hag2 by (intros bn Hbn; apply Hag; unfold in_log; lia).
  destruct (itab_change (fs d1) (fs d2) c c2 R no_lock Hit1) as [Hit2 Hen2]; [intros i; by rewrite Ei2|done| |].
  { intros i m Hem Hv Hld. rewrite Esb2, Esb1, Esb, Ei2 in *. pose proof Hem as (_ & Hrf & En). apply (same_loaded s c c2 m); [|done|done].
    intros o Ho. apply (same_dinode s c c2 Hs Hag2). apply HR. rewrite <- (it_ref _ _ _ _ _ _ Hit1 _ _ Hem). lia. }
  assert (txn dev pid d1 c (refs L []) (length L)) as Hx by (apply (tstate_txn dev pid p); rewrite ?Elg1, ?Eg1, ?Eg2; try done; lia).
  apply (HQ d2 c2); [|done| |by eapply frame_trans|].
  - split; [|by rewrite Esb2, Esb1|done|by rewrite Est|done]. split; [|done]. split_and!; [done|apply pins_none|].
    by rewrite (frame_pid _ _ _ Hf2).
  - apply Hen2. unfold entry in *. by rewrite Ei1.
  - exists (lh_block (logst (fs d1))), c, (length L). pose proof (tx_layout _ _ _ _ _ _ Hx) as Hla. pose proof (tx_nodup _ _ _ _ _ _ Hx) as Hnd.
    rewrite Elg1, Eg2 in *. split_and!; [done|lia|unfold wrote in *; by rewrite <- Edk1, <- Edw1|].
    intros bn Hbn. rewrite Hag2, <- Edk1 by done. pose proof (ts_log _ _ _ _ _ _ _ Ht) as Hg. pose proof (logged_blocks _ _ Hg) as EL.
    destruct (decide (bn ∈ L)) as [Hl|Hl].
    + apply updl_in; [by rewrite txn_writes_fst|]. rewrite <- EL in Hl. apply elem_map_seq in Hl as (i & Hi & <-). apply list_elem_of_In, in_map_iff. exists i. split; [done|]. apply in_seq. lia.
    + rewrite updl_out by (rewrite txn_writes_fst; by rewrite EL). symmetry. apply (ca_clean _ _ _ _ _ _ Hc1). unfold refs. rewrite !decide_False; [done|apply not_elem_of_nil|done].
Qed.

Lemma wp_write_op {A} d c R f ip inum l va off n kend (K : Z -> M A) Q :
  let data := ubytes (mem d) (p_pagetable (procs d p)) va n in
  resting d c R -> map_ok c s -> file_on s c inum l -> entry (fs d) ip inum -> f_ip (files d f) = Some ip -> f_off (files d f) = off ->
  0 <= off <= Z.of_nat (length l) -> off + Z.of_nat n <= MAXFILE * BSIZE -> (0 < n)%nat ->
  blk_end off (Z.of_nat n) <= kend <= MAXFILE -> enough s c (daddr c s inum) off kend -> (nmap s + nblk off (Z.of_nat n) + 8 < NBUF)%nat -> usource d va n ->
  (forall d' c', resting d' c' R -> map_ok c' s -> file_on s c' inum (overwrite l (Z.to_nat off) data) -> only_file s inum c c' ->
     enough s c' (daddr c' s inum) (off + Z.of_nat n) kend -> entry (fs d') ip inum -> umem_same d d' ->
     files d' = (files d).[f := set_f_off (off + Z.of_nat n) (files d f)] -> one_commit (log_start (logst (fs d))) d d' c' ->
     wp p [] (K (Z.of_nat n)) d' Q) ->
  wp p [] (write_op f va (Z.of_nat n) K) d Q.
Proof using Hp Hs.
  intros data [Hi Esb Hlg Har HR] Hm Hf He Efip Efoff Hoff Hmax Hn Hend Hen Hcap [[Hva1 Hva2] Humap (tab & Hutab)] HQ.
  unfold write_op. apply wp_bind, (wp_begin_op dev); [done|]. wp_run. change (files (begun d)) with (files d). rewrite Efip.
  pose proof (fo_inum _ _ _ _ Hf) as Hin. pose proof (sb_ok_bmap s Hs) as (Hb0 & Hb1 & Hb2). pose proof (so_size _ Hs) as Hsz.
  destruct (IBLOCK_range s inum Hs Hin) as [_ Hib].
  assert (istate dev pid p (begun d) c (fun _ => 0) R no_lock) as Hi0.
  { destruct Hi as [(Hc & Hpn & Hpid) Ht]. split; [split_and!; [by apply cache_logst|done|done]|]. eapply itab_change; [exact Ht|done|done|]. done. }
  eapply wp_ilock; [done|exact Hi0|exact He|done|change (sb (fs (begun d))) with (sb (fs d)); rewrite Esb; unfold blk_ok; lia|
    change (sb (fs (begun d))) with (sb (fs d)); rewrite Esb; apply (fo_type _ _ _ _ Hf)|].
  intros d1 [(Hc1 & Hpn1 & Hpid1) Ht1] (Hfr1 & Elg1 & Esb1 & Edk1 & Edw1) He1 Hld1. cbn [deref]. wp_run.
  change (sb (fs (begun d))) with (sb (fs d)) in Esb1. rewrite Esb in Esb1. rewrite Esb1 in Hld1.
  assert (frame d d1) as Hfr01 by (eapply frame_trans; [apply frame_upd_fs|exact Hfr1]). destruct (frame_umem _ _ Hfr01) as [(Em1 & Es1 & Ep1) Ef1].
  pose proof He1 as (_ & _ & Ein). rewrite Ef1, Efoff. rewrite <- Ein in Hf. destruct (file_on_loaded c _ l Hf Hld1) as (G1 & G2 & G3 & G4).
  assert (tstate dev pid p d1 c [] []) as Ht1'.
  { split; [rewrite holds_nil; by apply Hc1|rewrite Elg1; by eapply logged_begun|done]. }
  assert (writable s c (inodes (fs d1) ip) [] off (Z.of_nat n) kend) as Hwb.
  { split; try done; [by rewrite Ein|by rewrite G3|].
    eapply (same_enough s c c (daddr c s inum)); [done|done|intros j Hj; rewrite <- Ein; by apply (loaded_addr c)|rewrite <- Ein; apply (fo_wf _ _ _ _ Hf)|lia|lia| |done].
    apply blk_at_max; lia. }
  eapply (wp_writei_user dev pid p ip d1 s c [] tab va off n kend); rewrite ?Em1, ?Ep1; try done.
  { by eapply (it_dev _ _ _ _ _ _ Ht1). } { by eapply uspace_ok_ext. }
  intros d2 c2 L2 (Hfr2 & a2 & z2 & K2) Ht2 W2 Wr2 En2. cbv beta. rewrite (proj2 (Z.ltb_lt 0 (Z.of_nat n))) by lia. unfold when. apply wp_bind, wp_modify. cbv beta.
  destruct (frame_umem _ _ Hfr2) as [(Em2 & Es2 & Ep2) Ef2]. pose proof (kp_ino _ _ K2) as Ei2. cbn [inodes set_inodes] in Ei2.
  assert (sb (fs d2) = s) as Esb2 by (rewrite (kp_sb _ _ K2); exact Esb1). rewrite Ein in W2, Wr2.
  destruct (itab_wrote (fs d1) (fs d2) c c2 R no_lock.[inum := true] ip inum off data Ht1 He1 Esb1 Esb2 HR) as (Hit2 & Hen2 & Hld2);
    [intros i; apply (kp_slk _ _ K2)|by exists a2, z2|done|done|].
  assert (i_inum (inodes (fs d2) ip) = i_inum (inodes (fs d1) ip) /\ i_type (inodes (fs d2) ip) = i_type (inodes (fs d1) ip)) as [Ein2 Ety2] by (by rewrite Ei2, fupd_eq).
  destruct (wrote_on c c2 (inodes (fs d1) ip) (inodes (fs d2) ip) l off data Hld1 Hld2 Ein2 Ety2 Hm Hf Hoff ltac:(by rewrite Ein)) as [Hf2 Ho2].
  rewrite Ein in Hf2, Ho2. set (d3 := set_files _ d2).
  assert (files d3 = (files d).[f := set_f_off (off + Z.of_nat n) (files d f)]) as Ef3.
  { unfold d3. cbn [files set_files]. rewrite Ef2, Ef1, Efoff. rewrite u32_small by (pose proof MAXFILE_eq; unfold BSIZE in *; lia). done. }
  assert (map_ok c2 s) as Hm2 by apply (wf_map _ _ _ _ _ _ _ _ _ W2). pose proof (wf_wf _ _ _ _ _ _ _ _ _ W2) as Hwf2.
  assert (homes (log_start (logst (fs d))) L2) as Hh2 by (eapply write_homes; [exact Har|exact Hin|exact Hwf2|exact Wr2]).
  destruct Wr2 as (Wn & Wl & WI & _). destruct Hlg as [I1 I2 I3 I4 I5 I6]. destruct (kp_log _ _ K2) as (nn & BB & Elg2). cbn [logst set_inodes] in Elg2. rewrite Elg1 in Elg2.
  eapply (wp_op_end d3 c2 L2 R ip inum (log_start (logst (fs d)))); try done.
  - destruct Ht2 as [T1 T2 T3]. by split.
  - by apply Hen2.
  - unfold log_one. cbn [d3 fs set_files]. by rewrite Elg2.
  - lia.
  - apply list_elem_of_lookup_1 in WI as (k & Hk%lookup_lt_Some). simpl in Wl. unfold NBUF in *. lia.
  - intros d5 c5 Hre Hag He5 Hfr5 (B5 & c6 & n6 & X1 & X2 & X3 & X4). destruct (frame_umem _ _ Hfr5) as [(Em5 & Es5 & Ep5) Ef5].
    eapply (HQ d5 c5); [done|by eapply (same_map s c2 c5)|by eapply (agree_file_on s c2 c5)| | |done| |by rewrite Ef5|].
    + eapply only_file_trans; [exact Ho2|]. by eapply (agree_only_file s c2 c5).
    + rewrite (agree_daddr s c2 c5) by done.
      eapply (same_enough s c2 c5 (i_addrs (inodes (fs d2) ip))); [done|done| |done|lia|lia|apply blk_at_max; lia|done].
      intros j Hj. rewrite <- Ein, <- Ein2. symmetry. by apply (loaded_addr c2).
    + eapply umem_trans; [by split_and!|]. eapply umem_trans; [split_and!; [exact Em2|exact Es2|exact Ep2]|]. by split_and!.
    + exists B5, c6, n6. unfold wrote in *. cbn [d3 fs set_files] in X3, X4. rewrite (kp_dblk _ _ K2), (kp_dwr _ _ K2) in *. cbn [dblk dwr set_inodes] in X3, X4. rewrite Edk1, Edw1 in *. done.
Qed.

(** A write past the largest file is refused: nothing is written. *)
Lemma wp_write_op_large {A} d c R f ip inum l va off n (K : Z -> M A) Q :
  resting d c R -> file_on s c inum l -> entry (fs d) ip inum -> f_ip (files d f) = Some ip -> f_off (files d f) = off ->
  0 <= off <= Z.of_nat (length l) -> 0 < n < 2 ^ 31 -> off <= MAXFILE * BSIZE < off + n ->
  (forall d', resting d' c R -> entry (fs d') ip inum -> umem_same d d' -> files d' = files d -> dblk (fs d') = dblk (fs d) -> dwr (fs d') = dwr (fs d) ->
     wp p [] (K (-1)) d' Q) ->
  wp p [] (write_op f va n K) d Q.
Proof using Hp Hs.
  intros [Hi Esb Hlg Har HR] Hf He Efip Efoff Hoff Hn Hlarge HQ. pose proof Hlg as [I1 I2 I3 I4 I5 I6].
  unfold write_op. apply wp_bind, (wp_begin_op dev); [done|]. wp_run. change (files (begun d)) with (files d). rewrite Efip.
  pose proof (fo_inum _ _ _ _ Hf) as Hin. pose proof (sb_ok_bmap s Hs) as (Hb0 & Hb1 & Hb2). pose proof (so_size _ Hs) as Hsz.
  destruct (IBLOCK_range s inum Hs Hin) as [_ Hib].
  assert (istate dev pid p (begun d) c (fun _ => 0) R no_lock) as Hi0.
  { destruct Hi as [(Hc & Hpn & Hpid) Ht]. split; [split_and!; [by apply cache_logst|done|done]|]. eapply itab_change; [exact Ht|done|done|]. done. }
  eapply wp_ilock; [done|exact Hi0|exact He|done|change (sb (fs (begun d))) with (sb (fs d)); rewrite Esb; unfold blk_ok; lia|
    change (sb (fs (begun d))) with (sb (fs d)); rewrite Esb; apply (fo_type _ _ _ _ Hf)|].
  intros d1 Hi1 (Hfr1 & Elg1 & Esb1 & Edk1 & Edw1) He1 Hld1. cbn [deref]. wp_run.
  change (sb (fs (begun d))) with (sb (fs d)) in Esb1. rewrite Esb in Esb1. rewrite Esb1 in Hld1. pose proof He1 as (_ & _ & Ein).
  assert (frame d d1) as Hfr01 by (eapply frame_trans; [apply frame_upd_fs|exact Hfr1]). destruct (frame_umem _ _ Hfr01) as [Hu1 Ef1]. rewrite Ef1, Efoff.
  rewrite <- Ein in Hf. destruct (file_on_loaded c _ l Hf Hld1) as (_ & _ & G3 & _).
  unfold writei, getino. wp_run. apply wp_getfs. rewrite G3. pose proof MAXFILE_eq as HM. unfold BSIZE in *.
  rewrite u32_small by lia. rewrite (proj2 (Z.ltb_ge (off + n) off)), !Z.gtb_ltb, (proj2 (Z.ltb_ge _ off)), (proj2 (Z.ltb_lt _ (off + n))) by lia. cbn [orb]. wp_run.
  change (0 <? -1) with false. cbn [when]. wp_run.
  eapply (wp_iunlock dev pid p Hp d1 c (fun _ => 0) R _ ip inum); [exact Hi1|done|by rewrite fupd_eq|].
  rewrite unlock_back. intros d2 Hi2 (Hf2 & Elg2 & Esb2 & Edk2 & Edw2) Ei2. rewrite Elg1 in Elg2.
  apply wp_bind. apply (wp_end_op_nil p d2); rewrite ?Elg2; [done|done|done|].
  intros d3 Hf3 E3. assert (frame d d3) as Hfr by (eapply frame_trans; [exact Hfr01|]; by eapply frame_trans). destruct (frame_umem _ _ Hfr) as [Hu3 Ef3].
  assert (logst (fs d3) = logst (fs d)) as Elg3 by (rewrite E3; simpl; destruct (logst (fs d)); simpl in *; by subst).
  apply HQ; try done.
  - split; [|by rewrite E3; simpl; rewrite Esb2|by rewrite Elg3|by rewrite Elg3|done]. destruct Hi2 as [(Hc & Hpn & Hpid) Ht].
    split; [split_and!; [rewrite E3; by apply cache_logst|done|by rewrite (frame_pid _ _ _ Hf3)]|]. rewrite E3. eapply itab_change; [exact Ht|done|done|]. done.
  - rewrite E3. unfold entry in *. cbn [inodes set_logst]. by rewrite Ei2.
  - rewrite E3. cbn [dblk set_logst]. by rewrite Edk2, Edk1.
  - rewrite E3. cbn [dwr set_logst]. by rewrite Edw2, Edw1.
Qed.

(** ** The loop of filewrite() *)

Lemma overwrite_app l off a b : (off <= length l)%nat -> overwrite (overwrite l off a) (off + length a) b = overwrite l off (a ++ b).
Proof using.
  clear Hp. intros H. unfold overwrite. assert (length (take off l) = off) as L1 by (rewrite length_take; lia).
  set (A := take off l) in *. assert (length (A ++ a) = off + length a)%nat as L2 by (rewrite length_app, L1; lia).
  rewrite (app_assoc A a), take_app_length' by done. rewrite drop_app_ge by lia. rewrite L2, drop_drop, length_app.
  rewrite <- !app_assoc. do 4 f_equal. lia.
Qed.

Lemma overwrite_nil l off : overwrite l off [] = l.
Proof using. unfold overwrite. simpl. rewrite Nat.add_0_r. apply take_drop. Qed.

Lemma nblk_chunk off n : 0 <= n <= write_max -> (nblk off n <= 4)%nat.
Proof using. clear. unfold nblk, blk_end. change write_max with 3072. unfold BSIZE. intros H. Z.to_euclidean_division_equations. lia. Qed.

Lemma blk_end_mono off n off' n' : off + n <= off' + n' -> blk_end off n <= blk_end off' n'.
Proof using. clear. intros H. unfold blk_end. apply Z.div_le_mono; [done|lia]. Qed.

Lemma chunk_fits (n : Z) (N i n1 : nat) :
  (i <= N)%nat -> i <> N -> n = Z.of_nat N \/ Z.of_nat N < n /\ (Z.of_nat N - Z.of_nat i) mod write_max = 0 ->
  Z.min (n - Z.of_nat i) write_max = Z.of_nat n1 ->
  (0 < n1)%nat /\ (i + n1 <= N)%nat /\ (n = Z.of_nat N \/ Z.of_nat N < n /\ (Z.of_nat N - Z.of_nat (i + n1)) mod write_max = 0).
Proof using. clear. change write_max with 3072. intros Hi Hne HnN En1. Z.to_euclidean_division_equations. lia. Qed.

Section Loop.
Context (R : Z -> Z) (f ip : nat) (inum va off0 kend : Z) (l0 : list Z) (N : nat) (d0 : kdata) (c0 : disk).
Notation data := (ubytes (mem d0) (p_pagetable (procs d0 p)) va N).
Hypothesis Hfip : f_ip (files d0 f) = Some ip.
Hypothesis Hoff0 : 0 <= off0 <= Z.of_nat (length l0).
Hypothesis HN : off0 + Z.of_nat N <= MAXFILE * BSIZE.
Hypothesis Hkend : blk_end off0 (Z.of_nat N) <= kend <= MAXFILE.
Hypothesis Hcap : (nmap s + 12 < NBUF)%nat.
Hypothesis Hus : usource d0 va N.

(** After [i] bytes. *)
Record fwinv (i : nat) d c : Prop := {
  fi_re : resting d c R;
  fi_map : map_ok c s;
  fi_on : file_on s c inum (overwrite l0 (Z.to_nat off0) (take i data));
  fi_only : only_file s inum c0 c;
  fi_free : enough s c (daddr c s inum) (off0 + Z.of_nat i) kend;
  fi_ent : entry (fs d) ip inum;
  fi_mem : umem_same d0 d;
  fi_file : files d = (files d0).[f := set_f_off (off0 + Z.of_nat i) (files d0 f)];
}.

Lemma length_take_ubytes m root i : (i <= N)%nat -> length (take i (ubytes m root va N)) = i.
Proof using. intros Hi. rewrite length_take, length_ubytes. by apply Nat.min_l. Qed.

(** The loop, asked for [n] bytes, up to byte [N]: the last, or the end of a chunk. *)
Lemma wp_filewrite_loop n fuel i d c Q :
  (i <= N)%nat -> n = Z.of_nat N \/ Z.of_nat N < n /\ (Z.of_nat N - Z.of_nat i) mod write_max = 0 ->
  (n - Z.of_nat i + write_max - 1) / write_max < Z.of_nat fuel -> fwinv i d c ->
  (forall fuel' d' c', (n - Z.of_nat N + write_max - 1) / write_max < Z.of_nat fuel' -> fwinv N d' c' ->
     wp p [] (filewrite_loop fuel' f va n (Z.of_nat N)) d' Q) ->
  wp p [] (filewrite_loop fuel f va n (Z.of_nat i)) d Q.
Proof using All.
  intros Hi HnN Hfuel Hinv HQ. revert i d c Hi HnN Hfuel Hinv. induction fuel as [|fuel IH]; intros i d c Hi HnN Hfuel Hinv.
  { exfalso. change write_max with 3072 in Hfuel. clear -Hfuel Hi HnN. Z.to_euclidean_division_equations. lia. }
  destruct (decide (i = N)) as [->|Hne]; [by eapply HQ|].
  cbn [filewrite_loop]. destruct (Z.ltb_spec (Z.of_nat i) n) as [Hlt|Hge]; [|lia].
  assert (0 < write_max) as Hwm by done. set (n1 := Z.to_nat (Z.min (n - Z.of_nat i) write_max)).
  assert (Z.min (n - Z.of_nat i) write_max = Z.of_nat n1) as En1 by lia. rewrite En1.
  destruct (chunk_fits n N i n1) as (Hn1 & Hn2 & HnN'); [done|done|done|done|]. destruct Hinv as [V1 V2 V3 V4 V5 V6 (V7 & V8 & V9) V10]. destruct Hus as [[U1 U2] U3 (tab & U4)].
  rewrite u64_small by lia. pose proof (length_take_ubytes (mem d0) (p_pagetable (procs d0 p)) i Hi) as Lt.
  assert (Z.of_nat (length (overwrite l0 (Z.to_nat off0) (take i data))) = Z.max (Z.of_nat (length l0)) (off0 + Z.of_nat i)) as Ll.
  { rewrite length_overwrite, Lt by lia. lia. }
  change (begin_op;; _) with (write_op f (va + Z.of_nat i) (Z.of_nat n1) (fun r => if negb (r =? Z.of_nat n1) then ret (Z.of_nat i) else filewrite_loop fuel f va n (Z.of_nat i + r))).
  pose proof (nblk_chunk (off0 + Z.of_nat i) (Z.of_nat n1) ltac:(lia)) as Hnb.
  eapply (wp_write_op d c R f ip inum _ _ (off0 + Z.of_nat i) n1 kend); try done.
  - by rewrite V10, fupd_eq.
  - by rewrite V10, fupd_eq.
  - lia.
  - lia.
  - pose proof (blk_end_mono (off0 + Z.of_nat i) (Z.of_nat n1) off0 (Z.of_nat N)). lia.
  - unfold NBUF in *. lia.
  - split; [lia| |].
    + intros x Hx. rewrite V7, V9. apply U3. lia.
    + exists tab. rewrite V9. by eapply uspace_ok_ext.
  - intros d' c' W1 W2 W3 W4 W5 W6 W7 W8 _. rewrite Z.eqb_refl. cbn [negb]. replace (Z.of_nat i + Z.of_nat n1) with (Z.of_nat (i + n1)) by lia.
    eapply IH; [lia|done| |].
    + change write_max with 3072 in *. clear -Hfuel En1 Hlt. Z.to_euclidean_division_equations. lia.
    + split; try done.
      * rewrite V7, V9, <- (ubytes_slice _ _ va N i n1) in W3 by lia.
        replace (Z.to_nat (off0 + Z.of_nat i)) with (Z.to_nat off0 + length (take i data))%nat in W3 by (rewrite Lt; lia).
        rewrite overwrite_app, take_take_drop in W3 by lia. exact W3.
      * by eapply only_file_trans.
      * by replace (off0 + Z.of_nat (i + n1)) with (off0 + Z.of_nat i + Z.of_nat n1) by lia.
      * eapply umem_trans; [|exact W7]. by split_and!.
      * rewrite W8, V10, fupd_fupd, fupd_eq. f_equal. replace (off0 + Z.of_nat (i + n1)) with (off0 + Z.of_nat i + Z.of_nat n1) by lia. by destruct (files d0 f).
Qed.
End Loop.
End Chunk.
