(* ===== verification/FileThm.v ===== *)
(** * write() on a file: contents, crashes, refusals

    The theorems on filewrite() for an inode: the bytes reach the disk and nothing
    else changes, a write of one chunk is atomic with respect to crashes, a write
    past the largest file is refused after the chunks that fit, and one chunk never
    outgrows the part of the log an operation may use. *)

From S2P Require Import Prelude State Spinlock CString Kalloc Sched SchedSpec Vm VmSpec ProcMem Wp Sleeplock Bio BioSpec Log LogSpec Fs FsView FsSpec NameSpec FsTxn FsAlloc FsMap FsWrite WriteSpec OpSpec File FileSpec.
Open Scope Z_scope.

Ltac wp_extra ::=
  lazymatch goal with
  | |- wp _ _ (getf _ _) _ _ => apply wp_gets
  | |- wp _ _ (setf _ _) _ _ => apply wp_modify
  end.

(** The file system is at rest and the open file [f], writable, stands at offset [off]
    of the inode [inum], in slot [ip] of the inode table, whose file holds [l]. *)
Record open_file {D : DiskDriver} (dev : Z) (p : nat) (s : superblock) (R : Z -> Z) (f ip : nat) (inum off : Z) (l : list Z) (d : kdata) : Prop := {
  op_sb : sb_ok s;
  op_cap : (nmap s + 12 < NBUF)%nat;
  op_rest : resting dev (p_pid (procs d p)) p s d (dblk (fs d)) R;
  op_map : map_ok (dblk (fs d)) s;
  op_on : file_on s (dblk (fs d)) inum l;
  op_ent : entry (fs d) ip inum;
  op_type : f_type (files d f) = FD_INODE;
  op_wr : f_writable (files d f) <> 0;
  op_ip : f_ip (files d f) = Some ip;
  op_off : f_off (files d f) = off;
  op_range : 0 <= off <= Z.of_nat (length l);
}.

(** Room on the disk for [n] bytes from [off] on. *)
Definition room_for (s : superblock) (c : disk) (inum off n : Z) : Prop :=
  off + n <= MAXFILE * BSIZE /\ enough s c (daddr c s inum) off (blk_end off n).

Lemma blk_end_max off n : 0 <= off -> 0 <= n -> off + n <= MAXFILE * BSIZE -> blk_end off n <= MAXFILE.
Proof. rewrite MAXFILE_eq. unfold blk_end, BSIZE. intros. Z.to_euclidean_division_equations. lia. Qed.

Section Thm.
Context {D : DiskDriver} (dev : Z) (p : nat) (s : superblock) (R : Z -> Z) (f ip : nat) (inum off : Z) (l : list Z).
Hypothesis Hp : (p < NPROC)%nat.
Implicit Types (d : kdata).

Lemma open_fwinv d va n : open_file dev p s R f ip inum off l d -> room_for s (dblk (fs d)) inum off (Z.of_nat n) ->
  fwinv dev (p_pid (procs d p)) p s R f ip inum va off (blk_end off (Z.of_nat n)) l n d (dblk (fs d)) 0 d (dblk (fs d)).
Proof using.
  clear Hp. intros [O1 O2 O3 O4 O5 O6 O7 O8 O9 O10 O11] [R1 R2]. split; try done.
  - rewrite take_0, overwrite_nil. done.
  - by rewrite Z.add_0_r.
  - rewrite Z.add_0_r, <- O10. unfold fupd. extensionality j. case_decide; [subst|done]. by destruct (files d f).
Qed.

(** The end of the loop, in terms of the disk. *)
Lemma fwinv_open d va n d' c' : open_file dev p s R f ip inum off l d ->
  fwinv dev (p_pid (procs d p)) p s R f ip inum va off (blk_end off (Z.of_nat n)) l n d (dblk (fs d)) n d' c' ->
  open_file dev p s R f ip inum (off + Z.of_nat n) (overwrite l (Z.to_nat off) (ubytes (mem d) (p_pagetable (procs d p)) va n)) d' /\
  only_file s inum (dblk (fs d)) (dblk (fs d')).
Proof using.
  clear Hp. intros [O1 O2 O3 O4 O5 O6 O7 O8 O9 O10 O11] [V1 V2 V3 V4 V5 V6 V7 V8].
  pose proof (re_i _ _ _ _ _ _ _ V1) as [(_ & _ & Epid) _].
  assert (c' = dblk (fs d')) as -> by (extensionality bn; by eapply resting_disk).
  rewrite take_ge in V3 by by rewrite length_ubytes. split; [|done].
  split; try done; try (rewrite V8, fupd_eq; done); [by rewrite Epid|].
  rewrite length_overwrite, length_ubytes by lia. lia.
Qed.
End Thm.

Lemma wp_filewrite {D : DiskDriver} p f va n d Q : f_writable (files d f) <> 0 -> f_type (files d f) = FD_INODE ->
  wp p [] (filewrite_loop (S (S (Z.to_nat (n / write_max)))) f va n 0) d (fun i hl d' => Q (if i =? n then n else -1) hl d') ->
  wp p [] (filewrite f va n) d Q.
Proof.
  intros Hw Ht H. unfold filewrite. wp_run. rewrite (proj2 (Z.eqb_neq _ _) Hw). wp_run. rewrite Ht. apply wp_bind.
  eapply wp_mono; [exact H|]. intros i hl d' HQ. by apply wp_ret.
Qed.

Lemma chunk_fuel n : 0 <= n -> (n - 0 + write_max - 1) / write_max < Z.of_nat (S (S (Z.to_nat (n / write_max)))).
Proof. change write_max with 3072. intros. rewrite !Nat2Z.inj_succ, Z2Nat.id by (apply Z.div_pos; lia). Z.to_euclidean_division_equations. lia. Qed.

(** C3: write() on an open file.  filewrite() returns the count it was asked for; on
    return the file system is at rest again with the log empty, the disk holds the
    file with the bytes of the user's buffer in place of the ones at the offset, the
    file has grown if the write ends past its end, the offset stands behind the
    written bytes, and every other file is as it was. *)
Theorem filewrite_writes {D : DiskDriver} dev p s R f ip inum off l m e d va n
  (Hp : (p < NPROC)%nat) (Hq : quiet p m) (Ho : open_file dev p s R f ip inum off l d)
  (Hr : room_for s (dblk (fs d)) inum off (Z.of_nat n)) (Hu : usource p d va n) :
  let data := ubytes (mem d) (p_pagetable (procs d p)) va n in
  exists m' d', filewrite f va (Z.of_nat n) e (mkK m d) = Ret (Z.of_nat n) e (mkK m' d') /\ msame m m' /\
    open_file dev p s R f ip inum (off + Z.of_nat n) (overwrite l (Z.to_nat off) data) d' /\
    only_file s inum (dblk (fs d)) (dblk (fs d')).
Proof.
  intros data. pose proof Ho as [O1 O2 O3 O4 O5 O6 O7 O8 O9 O10 O11].
  assert (wp p [] (filewrite f va (Z.of_nat n)) d (fun r hl d' => hl = [] /\ r = Z.of_nat n /\
    open_file dev p s R f ip inum (off + Z.of_nat n) (overwrite l (Z.to_nat off) data) d' /\ only_file s inum (dblk (fs d)) (dblk (fs d')))) as H.
  { apply wp_filewrite; [done|done|]. change 0 with (Z.of_nat 0) at 1.
    eapply (wp_filewrite_loop dev _ p Hp s O1 R f ip inum va off (blk_end off (Z.of_nat n)) l n d (dblk (fs d)));
      [done|done|apply Hr|split; [done|apply blk_end_max; [lia|lia|apply Hr]]|done|done|lia|by left|apply chunk_fuel; lia|by apply open_fwinv|].
    intros fuel d' c' Hfuel V. destruct fuel as [|fuel]; [exfalso; change write_max with 3072 in Hfuel; clear -Hfuel; Z.to_euclidean_division_equations; lia|].
    cbn [filewrite_loop]. rewrite Z.ltb_irrefl. apply wp_ret. rewrite Z.eqb_refl. destruct (fwinv_open dev p s R f ip inum off l d va n d' c' Ho V). done. }
  destruct (H m m e Hq (msame_refl _)) as (r & hl & m' & d' & E & S & -> & -> & H1 & H2). by exists m', d'.
Qed.

(** What a crash during the one commit of an operation leaves to the recovery. *)
Lemma commit_recovers {D : DiskDriver} dev s start d d' c' :
  start + LOGSIZE <= sb_inodestart s -> disk_n start (dblk (fs d)) = 0 -> one_commit s start d d' c' ->
  exists W kc, dwr (fs d') = rev W ++ dwr (fs d) /\ (kc < length W)%nat /\
  forall k p2 m2 e2 d2, (p2 < NPROC)%nat -> quiet p2 m2 ->
    booted dev (p_pid (procs d2 p2)) start (updl (dblk (fs d)) (take k W)) d2 ->
    exists m3 d3, recover_from_log e2 (mkK m2 d2) = Ret tt e2 (mkK m3 d3) /\
      forall bn, sb_inodestart s <= bn -> dblk (fs d3) bn = (if decide (k <= kc)%nat then dblk (fs d) else c') bn.
Proof.
  intros Hst H0 (block & c & n & Hla & Hn & [_ Hw] & Hc). exists (commit_writes start block c n), n. split_and!; [done| |].
  { unfold commit_writes. rewrite length_app. simpl. unfold log_writes. rewrite length_map, length_seq. lia. }
  intros k p2 m2 e2 d2 Hp2 Hq2 Hb. destruct (crash_recovers start block (dblk (fs d)) c n k Hla H0) as (n' & H1 & H2 & H3).
  set (dk' := updl (dblk (fs d)) (take k _)) in *.
  assert (wp p2 [] recover_from_log d2 (fun _ _ d' => dblk (fs d') = recovered start dk' n')) as H.
  { eapply (wp_recover dev _ p2 Hp2 start dk' d2 n'); [done|exact Hb|exact H1|exact H2|]. intros d3 _ [-> _]. unfold recovered. by rewrite (bo_disk _ _ _ _ _ Hb). }
  destruct (wp_run1 p2 m2 recover_from_log d2 _ e2 H Hq2) as ([] & hl & m3 & d3 & H4 & H5). exists m3, d3. split; [done|].
  intros bn Hbn. rewrite H5, H3 by (unfold in_log; lia). case_decide; [done|by apply Hc].
Qed.

(** C2: crash safety of write().  A write() of at most one chunk is atomic: the disk
    writes it makes are those of one commit, and when the machine stops after any
    number of them and restarts, recovery leaves the file either with its old contents
    or with the new ones, the new ones if all writes were made, and no other file is
    touched in either case. *)
Theorem filewrite_crash_atomic {D : DiskDriver} dev p s R f ip inum off l m e d va n
  (Hp : (p < NPROC)%nat) (Hq : quiet p m) (Ho : open_file dev p s R f ip inum off l d)
  (Hr : room_for s (dblk (fs d)) inum off (Z.of_nat n)) (Hu : usource p d va n)
  (Hn : 0 < Z.of_nat n <= write_max) (H0 : disk_n (log_start (logst (fs d))) (dblk (fs d)) = 0) :
  let start := log_start (logst (fs d)) in
  let new := overwrite l (Z.to_nat off) (ubytes (mem d) (p_pagetable (procs d p)) va n) in
  exists m' d' W kc, filewrite f va (Z.of_nat n) e (mkK m d) = Ret (Z.of_nat n) e (mkK m' d') /\
    dwr (fs d') = rev W ++ dwr (fs d) /\ (kc < length W)%nat /\
    forall k p2 m2 e2 d2, (p2 < NPROC)%nat -> quiet p2 m2 ->
      booted dev (p_pid (procs d2 p2)) start (updl (dblk (fs d)) (take k W)) d2 ->
      exists m3 d3, recover_from_log e2 (mkK m2 d2) = Ret tt e2 (mkK m3 d3) /\
        file_on s (dblk (fs d3)) inum (if decide (k <= kc)%nat then l else new) /\
        only_file s inum (dblk (fs d)) (dblk (fs d3)).
Proof.
  intros start new. pose proof Ho as [O1 O2 O3 O4 O5 O6 O7 O8 O9 O10 O11]. destruct Hr as [Hr1 Hr2].
  pose proof (re_area _ _ _ _ _ _ _ O3) as Har. fold start in Har. pose proof (nblk_chunk off (Z.of_nat n) ltac:(lia)) as Hnb.
  assert (wp p [] (filewrite f va (Z.of_nat n)) d (fun r hl d' => r = Z.of_nat n /\ exists c', one_commit s start d d' c' /\
    file_on s c' inum new /\ only_file s inum (dblk (fs d)) c')) as H.
  { apply wp_filewrite; [done|done|]. cbn [filewrite_loop]. rewrite (proj2 (Z.ltb_lt 0 _)), Z.sub_0_r, Z.min_l, Z.add_0_r by lia.
    destruct Hu as [[U1 U2] U3 U4]. rewrite u64_small by lia.
    eapply (wp_write_op dev _ p Hp s O1 d (dblk (fs d)) R f ip inum l va off n (blk_end off (Z.of_nat n))); try done; try lia.
    - split; [done|]. apply blk_end_max; lia.
    - intros d' c' W1 W2 W3 W4 W5 W6 W7 W8 W9. cbv beta. rewrite Z.eqb_refl. cbn [negb]. rewrite Z.add_0_l.
      change ((if _ <? _ then _ else _)) with (filewrite_loop (S (Z.to_nat (Z.of_nat n / write_max))) f va (Z.of_nat n) (Z.of_nat n)).
      cbn [filewrite_loop]. rewrite Z.ltb_irrefl. apply wp_ret. rewrite Z.eqb_refl. split; [done|]. by exists c'. }
  destruct (wp_run1 p m _ d _ e H Hq) as (r & hl & m' & d' & E & -> & c' & Hone & Hnew & Honly).
  destruct (commit_recovers dev s start d d' c' Har H0 Hone) as (W & kc & W1 & W2 & W3).
  exists m', d', W, kc. split_and!; [done|done|done|]. intros k p2 m2 e2 d2 Hp2 Hq2 Hb.
  destruct (W3 k p2 m2 e2 d2 Hp2 Hq2 Hb) as (m3 & d3 & E3 & Hag). exists m3, d3. split; [done|]. case_decide.
  - split; [by eapply agree_file_on|by eapply agree_only_file].
  - split; [by eapply agree_file_on|]. eapply only_file_trans; [exact Honly|]. by eapply agree_only_file.
Qed.

(** C29: write() past the largest file.  When the request does not fit below MAXFILE
    blocks, filewrite() writes the chunks that do fit, here [j] of them with [N] bytes, is refused
    the next one by writei(), and returns -1: on return the file holds the bytes of
    the [j] chunks, the offset has moved behind them, and nothing else changed. *)
Theorem filewrite_too_large {D : DiskDriver} dev p s R f ip inum off l m e d va n j N
  (Hp : (p < NPROC)%nat) (Hq : quiet p m) (Ho : open_file dev p s R f ip inum off l d)
  (HN : N = (j * Z.to_nat write_max)%nat)
  (Hr : room_for s (dblk (fs d)) inum off (Z.of_nat N)) (Hu : usource p d va N)
  (Hn : Z.of_nat N < n) (Hlarge : MAXFILE * BSIZE < off + Z.of_nat N + Z.min (n - Z.of_nat N) write_max) :
  let data := ubytes (mem d) (p_pagetable (procs d p)) va N in
  exists m' d', filewrite f va n e (mkK m d) = Ret (-1) e (mkK m' d') /\ msame m m' /\
    open_file dev p s R f ip inum (off + Z.of_nat N) (overwrite l (Z.to_nat off) data) d' /\
    only_file s inum (dblk (fs d)) (dblk (fs d')).
Proof.
  intros data. pose proof Ho as [O1 O2 O3 O4 O5 O6 O7 O8 O9 O10 O11].
  assert (wp p [] (filewrite f va n) d (fun r hl d' => hl = [] /\ r = -1 /\
    open_file dev p s R f ip inum (off + Z.of_nat N) (overwrite l (Z.to_nat off) data) d' /\ only_file s inum (dblk (fs d)) (dblk (fs d')))) as H.
  { apply wp_filewrite; [done|done|]. change 0 with (Z.of_nat 0) at 1.
    eapply (wp_filewrite_loop dev _ p Hp s O1 R f ip inum va off (blk_end off (Z.of_nat N)) l N d (dblk (fs d)));
      [done|done|apply Hr|split; [done|apply blk_end_max; [lia|lia|apply Hr]]|done|done|lia| |apply chunk_fuel; lia|by apply open_fwinv|].
    { right. split; [done|]. rewrite HN, Nat2Z.inj_mul, Z2Nat.id, Z.sub_0_r by done. by apply Z.mod_mul. }
    intros fuel d' c' Hfuel V. destruct fuel as [|fuel]; [exfalso; change write_max with 3072 in Hfuel; clear -Hfuel Hn; Z.to_euclidean_division_equations; lia|].
    destruct (fwinv_open dev p s R f ip inum off l d va N d' c' Ho V) as [[P1 P2 P3 P4 P5 P6 P7 P8 P9 P10 P11] Hof].
    pose proof (re_i _ _ _ _ _ _ _ (fi_re _ _ _ _ _ _ _ _ _ _ _ _ _ _ _ _ _ _ V)) as [(_ & _ & Epid) _]. rewrite Epid in P3.
    cbn [filewrite_loop]. rewrite (proj2 (Z.ltb_lt _ _)) by lia. set (n1 := Z.min _ _) in *. assert (0 < n1 <= write_max) as Hn1 by (split; [apply Z.min_glb_lt; [lia|done]|apply Z.le_min_r]).
    eapply (wp_write_op_large dev _ p Hp s O1 d' (dblk (fs d')) R f ip inum _ _ (off + Z.of_nat N) n1); try done.
    - change write_max with 3072 in Hn1. lia.
    - destruct Hr. lia.
    - intros d2 Q1 Q2 Q3 Q4 Q5 _. rewrite (proj2 (Z.eqb_neq (-1) n1)) by lia. apply wp_ret. rewrite (proj2 (Z.eqb_neq _ _)) by lia.
      split_and!; [done|done| |by rewrite Q5]. pose proof (re_i _ _ _ _ _ _ _ Q1) as [(_ & _ & Epid2) _]. split; rewrite ?Q4, ?Q5, ?Epid2; done. }
  destruct (H m m e Hq (msame_refl _)) as (r & hl & m' & d' & E & S & -> & -> & H1 & H2). by exists m', d'.
Qed.

(** C30: log space.  filewrite() passes writei() at most one chunk at a time so that an
    operation stays within the MAXOPBLOCKS blocks begin_op() reserves for it: on a disk
    with at most four free-map blocks a chunk adds at most MAXOPBLOCKS blocks to
    the transaction, whatever other operations have recorded in it before, and none is
    recorded twice. *)
Theorem writei_log_bound {D : DiskDriver} dev p m e ip d s c L tab va off n kend
  (Hp : (p < NPROC)%nat) (Hq : quiet p m) (Ht : tstate dev (p_pid (procs d p)) p d c L []) (Hsb : sb (fs d) = s)
  (Hdev : i_dev (inodes (fs d) ip) = dev) (Hw : writable s c (inodes (fs d) ip) L off (Z.of_nat n) kend)
  (Hu : uspace_ok d (p_pagetable (procs d p)) tab) (Hva : 0 <= va /\ va + Z.of_nat n < 2 ^ 64)
  (Hmap : forall x, va <= x < va + Z.of_nat n -> umapped (mem d) (p_pagetable (procs d p)) x = true)
  (Hn : Z.of_nat n <= write_max) (Hm : (nmap s <= 4)%nat) :
  exists m' d' c' L', writei ip (SUser va) off (Z.of_nat n) e (mkK m d) = Ret (Z.of_nat n) e (mkK m' d') /\
    tstate dev (p_pid (procs d p)) p d' c' L' [] /\ NoDup L' /\
    lh_n (logst (fs d')) <= lh_n (logst (fs d)) + MAXOPBLOCKS.
Proof.
  pose proof (nblk_chunk off (Z.of_nat n) ltac:(lia)) as Hnb. destruct Hva as [Hva1 Hva2].
  assert (wp p [] (writei ip (SUser va) off (Z.of_nat n)) d (fun r hl d' => r = Z.of_nat n /\ exists c' L',
    tstate dev (p_pid (procs d p)) p d' c' L' [] /\ NoDup L' /\ lh_n (logst (fs d')) <= lh_n (logst (fs d)) + MAXOPBLOCKS)) as H.
  { eapply (wp_writei_user dev _ p ip d s c L tab va off n kend); try done.
    intros d' c' L' _ Ht' _ (Hnd & Hlen & _) _. split; [done|]. exists c', L'. split_and!; [done|done|].
    rewrite (lg_n _ _ (ts_log _ _ _ _ _ _ _ Ht)), (lg_n _ _ (ts_log _ _ _ _ _ _ _ Ht')). unfold MAXOPBLOCKS. lia. }
  destruct (wp_run1 p m _ d _ e H Hq) as (r & hl & m' & d' & E & -> & c' & L' & H1). by exists m', d', c', L'.
Qed.

(** ** Concrete open files *)

(** Inode 2 in slot 0 of the inode table, open as file 0 at offset [off]. *)
Definition R_f : Z -> Z := (fun _ => 0).[2 := 1].
Definition kdata_f (c : disk) (off : Z) : kdata :=
  set_files (fun _ => mkFile FD_INODE 1 1 1 0 (Some 0%nat) off 0)
    (set_fs (set_logst (mkLog 2 30 0 0 1 0 (fun _ => 0)) (set_inodes (fun i => if decide (i = 0%nat) then set_i_dev 1 (set_i_inum 2 (set_i_ref 1 inode0)) else inode0) (fs_e c)))
       (upd_proc 1 (set_p_pid 7) (upd_proc 1 (set_p_pagetable Rt) dD))).

Lemma sb_ok_e : sb_ok sb_e.
Proof. split; by vm_compute. Qed.

Lemma entry_f c off i n : entry (fs (kdata_f c off)) i n <-> i = 0%nat /\ n = 2.
Proof.
  unfold entry. cbn [kdata_f fs set_files set_fs set_logst inodes set_inodes]. case_decide as Hi; simpl; [subst|].
  - split; [by intros (_ & _ & <-)|intros [_ ->]; split_and!; [unfold NINODE; lia|lia|done]].
  - split; [lia|tauto].
Qed.

Lemma open_f c l off : map_ok c sb_e -> file_on sb_e c 2 l -> 0 <= off <= Z.of_nat (length l) ->
  open_file (D := sync_driver) 1 1 sb_e R_f 0 0 2 off l (kdata_f c off).
Proof.
  intros Hm Hf Hoff. split; try done; [vm_compute; lia| |].
  - split; try done.
    + split; [split_and!; [|apply pins_none|done]|].
      { pose proof (cache_e c) as [C1 C2 C3 C4 C5 C6 C7 C8 C9 C10 C11 C12 C13]. by split. }
      split; try done.
      * intros i _. simpl. case_decide; simpl; lia.
      * intros i j n [-> _]%entry_f [-> _]%entry_f. done.
      * intros i n [-> ->]%entry_f. done.
      * intros i n [-> ->]%entry_f. done.
      * intros n Hn. exists 0%nat. apply entry_f. split; [done|]. unfold R_f, fupd in Hn. by case_decide.
      * intros i n [-> ->]%entry_f Hv. by vm_compute in Hv.
    + intros n Hn. unfold R_f, fupd in Hn. case_decide; [subst; by vm_compute|done].
  - by apply entry_f.
Qed.

Lemma usource_f c off n : (n <= 4096)%nat -> usource 1 (kdata_f c off) 0 n.
Proof.
  intros Hn. split; [lia| |].
  - intros x Hx. apply (umapped_D0 x). lia.
  - exists tabC. eapply uspace_ok_ext; [..|exact uspace_ok_D]; done.
Qed.

(** A file of three bytes in block 50. *)
Definition disk_f : disk :=
  (fun _ _ => 0).[32 := local_bytes (repeat 0 128 ++ dino T_FILE 3 50)].[45 := local_bytes (repeat 255 7)].[50 := local_bytes [10; 20; 30]].

Lemma map_f : map_ok disk_f sb_e.
Proof.
  intros b Hb. change (nmeta sb_e) with 46 in Hb.
  assert (forallb (used disk_f sb_e) (upto 46) = true) as H by by vm_compute. rewrite forallb_forall in H. by apply H, list_elem_of_In, elem_upto.
Qed.

Lemma own_f i : slot i -> own disk_f (daddr disk_f sb_e 2) i = if decide (i = 0) then 50 else 0.
Proof.
  intros Hi. assert (forallb (fun i => own disk_f (daddr disk_f sb_e 2) i =? if decide (i = 0) then 50 else 0) (upto 269) = true) as H by by vm_compute.
  rewrite forallb_forall in H. apply Z.eqb_eq, H, list_elem_of_In, elem_upto. unfold slot in Hi. rewrite MAXFILE_eq in Hi. lia.
Qed.

Lemma on_f : file_on sb_e disk_f 2 [10; 20; 30].
Proof.
  split; [by vm_compute|by vm_compute| | |by vm_compute|by vm_compute].
  - split.
    + intros i Hi. rewrite own_f by done. case_decide; [|done]. intros _. by vm_compute.
    + intros i j Hi Hj. rewrite !own_f by done. do 2 case_decide; congruence.
  - split; [by vm_compute|]. change (dsize disk_f sb_e 2) with 3. intros o Ho. rewrite own_f by (apply div_block; rewrite MAXFILE_eq; unfold BSIZE; lia).
    rewrite decide_True; [done|]. apply Z.div_small. unfold BSIZE. lia.
Qed.

Lemma filewrite_writes_witness :
  exists m' d', filewrite (D := sync_driver) 0 0 2 [] (mkK machine1 (kdata_f disk_f 2)) = Ret 2 [] (mkK m' d') /\
    file_on sb_e (dblk (fs d')) 2 [10; 20; 0; 0].
Proof.
  destruct (filewrite_writes (D := sync_driver) 1 1 sb_e R_f 0 0 2 2 [10; 20; 30] machine1 [] (kdata_f disk_f 2) 0 2) as (m' & d' & H1 & _ & H2 & _).
  - unfold NPROC. lia.
  - apply quiet1.
  - apply open_f; [apply map_f|apply on_f|done].
  - split; [by vm_compute|]. vm_compute. lia.
  - apply usource_f. lia.
  - exists m', d'. split; [exact H1|]. exact (op_on _ _ _ _ _ _ _ _ _ _ H2).
Defined.

(** The machine restarted over the disk [dk]. *)
Definition kdata_up (dk : disk) : kdata :=
  set_fs (set_logst (mkLog 2 30 0 0 1 0 (fun _ => 0)) (fs_e dk)) (upd_proc 1 (set_p_pid 7) kdata0).

Lemma booted_up dk : booted (D := sync_driver) 1 7 2 dk (kdata_up dk).
Proof. split; [apply cache_logst, cache_e|done|done]. Qed.

Lemma filewrite_crash_atomic_witness :
  exists W kc m3 d3 m4 d4, (kc < length W)%nat /\
    recover_from_log (D := sync_driver) [] (mkK machine1 (kdata_up (updl disk_f (take kc W)))) = Ret tt [] (mkK m3 d3) /\
    file_on sb_e (dblk (fs d3)) 2 [10; 20; 30] /\
    recover_from_log (D := sync_driver) [] (mkK machine1 (kdata_up (updl disk_f (take (S kc) W)))) = Ret tt [] (mkK m4 d4) /\
    file_on sb_e (dblk (fs d4)) 2 [10; 20; 0; 0].
Proof.
  destruct (filewrite_crash_atomic (D := sync_driver) 1 1 sb_e R_f 0 0 2 2 [10; 20; 30] machine1 [] (kdata_f disk_f 2) 0 2) as (m' & d' & W & kc & _ & _ & H1 & H2).
  - unfold NPROC. lia.
  - apply quiet1.
  - apply open_f; [apply map_f|apply on_f|done].
  - split; [by vm_compute|]. vm_compute. lia.
  - apply usource_f. lia.
  - by vm_compute.
  - by vm_compute.
  - destruct (H2 kc 1%nat machine1 [] (kdata_up (updl disk_f (take kc W)))) as (m3 & d3 & H3 & H4 & _);
      [unfold NPROC; lia|apply quiet1|apply booted_up|].
    destruct (H2 (S kc) 1%nat machine1 [] (kdata_up (updl disk_f (take (S kc) W)))) as (m4 & d4 & H5 & H6 & _);
      [unfold NPROC; lia|apply quiet1|apply booted_up|].
    rewrite decide_True in H4 by lia. rewrite decide_False in H6 by lia.
    exists W, kc, m3, d3, m4, d4. split_and!; [exact H1|exact H3|exact H4|exact H5|exact H6].
Defined.

(** A file that ends 4000 bytes below the largest size, in the blocks from 60 on. *)
Definition dino_l : bytes := fun o =>
  if o <? 128 then 0 else
  if o <? 140 then local_bytes (dino T_FILE 270432 60) (o - 128) else st32 (fun _ => 0) (o / 4 * 4) (60 + (o - 140) / 4) o.
Definition disk_l : disk :=
  (fun _ _ => 0).[32 := dino_l].[45 := fun o => if o <? 48 then 255 else 0].[72 := fun o => st32 (fun _ => 0) (o / 4 * 4) (73 + o / 4) o].

Lemma map_l : map_ok disk_l sb_e.
Proof.
  intros b Hb. change (nmeta sb_e) with 46 in Hb.
  assert (forallb (used disk_l sb_e) (upto 46) = true) as H by by vm_compute. rewrite forallb_forall in H. by apply H, list_elem_of_In, elem_upto.
Qed.

Lemma own_l i : slot i -> own disk_l (daddr disk_l sb_e 2) i = if decide (i < 12) then 60 + i else if decide (i = 268) then 72 else 61 + i.
Proof.
  intros Hi. assert (forallb (fun i => own disk_l (daddr disk_l sb_e 2) i =? if decide (i < 12) then 60 + i else if decide (i = 268) then 72 else 61 + i) (upto 269) = true) as H by by vm_compute.
  rewrite forallb_forall in H. apply Z.eqb_eq, H, list_elem_of_In, elem_upto. unfold slot in Hi. rewrite MAXFILE_eq in Hi. lia.
Qed.

Lemma used_l b : 46 <= b < 330 -> used disk_l sb_e b = true.
Proof.
  intros Hb. assert (forallb (used disk_l sb_e) (upto 330) = true) as H by by vm_compute.
  rewrite forallb_forall in H. apply H, list_elem_of_In, elem_upto. lia.
Qed.

Definition bytes_l : list Z := contents disk_l (daddr disk_l sb_e 2) 270432.

Lemma length_l : Z.of_nat (length bytes_l) = 270432.
Proof. unfold bytes_l, contents. rewrite length_fbytes. lia. Qed.

Lemma on_l : file_on sb_e disk_l 2 bytes_l.
Proof.
  assert (dsize disk_l sb_e 2 = 270432) as Ez by by vm_compute.
  split; rewrite ?Ez, ?length_l; [by vm_compute|by vm_compute| | |done|done].
  - split.
    + intros i Hi _. rewrite own_l by done. unfold slot in Hi. rewrite MAXFILE_eq in Hi. change (nmeta sb_e) with 46. change (sb_size sb_e) with 1000.
      split; [repeat case_decide; lia|]. apply used_l. repeat case_decide; lia.
    + intros i j Hi Hj. rewrite !own_l by done. unfold slot in *. rewrite MAXFILE_eq in *. repeat case_decide; lia.
  - split; [rewrite MAXFILE_eq; unfold BSIZE; lia|]. intros o Ho. destruct (div_block o) as [Hsl Hne]; [rewrite MAXFILE_eq; unfold BSIZE; lia|].
    rewrite own_l by done. unfold slot in Hsl. repeat case_decide; lia.
Qed.

Lemma filewrite_too_large_witness :
  exists m' d', filewrite (D := sync_driver) 0 0 9000 [] (mkK machine1 (kdata_f disk_l 270432)) = Ret (-1) [] (mkK m' d') /\
    dsize (dblk (fs d')) sb_e 2 = 273504.
Proof.
  destruct (filewrite_too_large (D := sync_driver) 1 1 sb_e R_f 0 0 2 270432 bytes_l machine1 [] (kdata_f disk_l 270432) 0 9000 1 3072) as (m' & d' & H1 & _ & H2 & _).
  - unfold NPROC. lia.
  - apply quiet1.
  - apply open_f; [apply map_l|apply on_l|rewrite length_l; lia].
  - by vm_compute.
  - split; [by vm_compute|]. vm_compute. lia.
  - apply usource_f. lia.
  - lia.
  - by vm_compute.
  - exists m', d'. split; [exact H1|]. rewrite (fo_size _ _ _ _ (op_on _ _ _ _ _ _ _ _ _ _ H2)), length_overwrite, length_l, length_ubytes; [lia|].
    pose proof length_l. lia.
Defined.

(** Inside an operation on the three bytes, with the inode loaded. *)
Definition kdata_o : kdata :=
  begun (upd_fs (set_inodes (fun _ => mkInode 1 2 1 1 T_FILE 0 0 1 3 ((fun _ => 0).[0 := 50]))) (kdata_f disk_f 0)).

Lemma own_o i : slot i -> own disk_f ((fun _ => 0).[0 := 50]) i = if decide (i = 0) then 50 else 0.
Proof.
  intros Hi. assert (forallb (fun i => own disk_f ((fun _ => 0).[0 := 50]) i =? if decide (i = 0) then 50 else 0) (upto 269) = true) as H by by vm_compute.
  rewrite forallb_forall in H. apply Z.eqb_eq, H, list_elem_of_In, elem_upto. unfold slot in Hi. rewrite MAXFILE_eq in Hi. lia.
Qed.

Lemma writable_o : writable sb_e disk_f (inodes (fs kdata_o) 0) [] 2 2 1.
Proof.
  split; [apply sb_ok_e|apply map_f| | |done|done|by vm_compute|by vm_compute|vm_compute; lia|vm_compute; lia].
  - split; [intros i Hi; rewrite own_o by done; case_decide; [|done]; intros _; by vm_compute|].
    intros i j Hi Hj. rewrite !own_o by done. do 2 case_decide; congruence.
  - split; [by vm_compute|]. intros o Ho. change (i_size (inodes (fs kdata_o) 0)) with 3 in Ho. rewrite own_o by (apply div_block; rewrite MAXFILE_eq; unfold BSIZE; lia).
    rewrite decide_True; [done|]. apply Z.div_small. unfold BSIZE. lia.
Qed.

Lemma writei_log_bound_witness :
  exists m' d', writei (D := sync_driver) 0 (SUser 0) 2 2 [] (mkK machine1 kdata_o) = Ret 2 [] (mkK m' d') /\ lh_n (logst (fs d')) <= MAXOPBLOCKS.
Proof.
  destruct (writei_log_bound (D := sync_driver) 1 1 machine1 [] 0 kdata_o sb_e disk_f [] tabC 0 2 2 1) as (m' & d' & c' & L' & H1 & _ & _ & H2).
  - unfold NPROC. lia.
  - apply quiet1.
  - split; [|split; simpl; try done; apply NoDup_nil_2|done]. rewrite holds_nil. pose proof (cache_e disk_f) as [C1 C2 C3 C4 C5 C6 C7 C8 C9 C10 C11 C12 C13]. by split.
  - done.
  - done.
  - apply writable_o.
  - eapply uspace_ok_ext; [..|exact uspace_ok_D]; done.
  - lia.
  - intros x Hx. apply (umapped_D0 x). lia.
  - by vm_compute.
  - vm_compute. lia.
  - exists m', d'. split; [exact H1|exact H2].
Defined.
