(* ===== verification/Proc.v ===== *)
(** * Process life cycle (second half of kernel/proc.c)

    fork, exit, wait (with the performance counters of wait_stat), reparent,
    userinit and forkret.  A trapframe is a page of physical memory, accessed at
    the offsets of struct trapframe. *)

From S2P Require Import Prelude State Spinlock CString Kalloc Sched Vm ProcMem Sleeplock Bio Log Fs Uart Console File.
Open Scope Z_scope.

(** Offsets in struct trapframe (proc.h). *)
Definition tf_kernel_satp : Z := 0.
Definition tf_kernel_sp : Z := 8.
Definition tf_kernel_trap : Z := 16.
Definition tf_epc : Z := 24.
Definition tf_kernel_hartid : Z := 32.
Definition tf_sp : Z := 48.
Definition tf_a0 : Z := 112.
Definition tf_a1 : Z := 120.
Definition tf_a7 : Z := 168.
Definition sizeof_trapframe : Z := 288.

(** p->trapframe->field *)
Definition get_tf (p : nat) (off : Z) : M Z :=
  let* tf := getp p p_trapframe in
  getmem (fun m => ld64 m (tf + off)).
Definition set_tf (p : nat) (off v : Z) : M unit :=
  let* tf := getp p p_trapframe in
  setmem (fun m => st64 m (tf + off) v).

(** The bytes of an [int]. *)
Definition int_bytes (v : Z) : list Z := peekn (stn 4 (fun _ => 0) 0 v) 0 4.

(** ** wait *)

(** The chain of copyout()s joined by [||]: [true] if one failed. *)
Fixpoint copyout_ints (pt addr : Z) (l : list Z) : M bool :=
  match l with
  | [] => ret false
  | v :: l' =>
      let* r := copyout pt addr (int_bytes v) in
      if r <? 0 then ret true else copyout_ints pt (u64 (addr + 4)) l'
  end.

Definition perf_ints (q : proc) : list Z :=
  [p_ctime q; p_ttime q; p_stime q; p_retime q; p_rutime q; p_average_bursttime q].

(** The scan for an exited child: [inl r] returns [r], [inr havekids] ends the scan. *)
Fixpoint wait_scan (l : list nat) (p : nat) (addr performance : Z) (havekids : bool) : M (Z + bool) :=
  match l with
  | [] => ret (inr havekids)
  | np :: l' =>
      let* par := getp np p_parent in
      if bool_decide (par = Some p) then
        (* make sure the child isn't still in exit() or swtch(). *)
        acquire (LK_proc np);;
        let* st := getp np p_state in
        if bool_decide (st = ZOMBIE) then
          (* Found one. *)
          let* pid := getp np p_pid in
          let* pt := getp p p_pagetable in
          let* xs := getp np p_xstate in
          let* bad := (if addr =? 0 then ret false
                       else let* r := copyout pt addr (int_bytes xs) in ret (r <? 0)) in
          if bad then release (LK_proc np);; release LK_wait;; ret (inl (-1)) else
          let* q := getp np (fun q => q) in
          let* bad := (if performance =? 0 then ret false
                       else copyout_ints pt performance (perf_ints q)) in
          if bad then ret (inl (-1)) else
          freeproc np;;
          release (LK_proc np);;
          release LK_wait;;
          ret (inl pid)
        else release (LK_proc np);; wait_scan l' p addr performance true
      else wait_scan l' p addr performance havekids
  end.

Definition wait_extension (addr performance : Z) : M Z :=
  let* p := myproc_deref in
  acquire LK_wait;;
  loop (fun _ : unit =>
    let* r := wait_scan all_procs p addr performance false in
    match r with
    | inl v => ret (inr v)
    | inr havekids =>
        let* k := getp p p_killed in
        (* No point waiting if we don't have any children. *)
        if negb havekids || negb (k =? 0) then release LK_wait;; ret (inr (-1))
        else sleep (CH_proc p) LK_wait;; ret (inl tt)
    end) tt.

Definition wait (addr : Z) : M Z := wait_extension addr 0.

(** The int [*status] is converted to a user address. *)
Definition wait_stat (status performance : Z) : M Z := wait_extension (u64 status) performance.

(** ** exit *)

Definition reparent (p : nat) : M unit :=
  forM all_procs (fun pp =>
    let* par := getp pp p_parent in
    when (bool_decide (par = Some p))
      (let* ini := gets initproc in
       setp pp (set_p_parent ini);;
       wakeup_ptr (option_map CH_proc ini))).

Section Proc.
Context `{D : DiskDriver}.

Definition exit (status : Z) : M unit :=
  let* p := myproc_deref in
  let* t := gets ticks in
  setp p (set_p_ttime (i32 t));;
  let* ini := gets initproc in
  if bool_decide (Some p = ini) then panic "init exiting" else
  (* Close all open files. *)
  forM (seq 0 NOFILE) (fun fd =>
    let* f := getp p (fun q => p_ofile q fd) in
    match f with
    | Some f => fileclose f;; setp p (fun q => set_p_ofile (p_ofile q).[fd := None] q)
    | None => ret tt
    end);;
  begin_op;;
  let* cwd := getp p p_cwd in
  let* cwd := deref cwd in
  iput cwd;;
  end_op;;
  setp p (set_p_cwd None);;
  acquire LK_wait;;
  (* Give any children to init. *)
  reparent p;;
  (* Parent might be sleeping in wait(). *)
  let* par := getp p p_parent in
  wakeup_ptr (option_map CH_proc par);;
  acquire (LK_proc p);;
  setp p (set_p_xstate status);;
  setp p (set_p_state ZOMBIE);;
  release LK_wait;;
  (* Jump into the scheduler, never to return. *)
  sched;;
  panic "zombie exit".

(** ** fork *)

(** [*(np->trapframe) = *(p->trapframe)] *)
Definition copy_trapframe (np p : nat) : M unit :=
  let* dst := getp np p_trapframe in
  let* src := getp p p_trapframe in
  setmem (fun m => memmove m dst src sizeof_trapframe).

Definition fork : M Z :=
  let* p := myproc_deref in
  (* Allocate process. *)
  let* r := allocproc in
  match r with
  | None => ret (-1)
  | Some np =>
      (* Copy user memory from parent to child. *)
      let* pt := getp p p_pagetable in
      let* npt := getp np p_pagetable in
      let* sz := getp p p_sz in
      let* c := uvmcopy pt npt sz in
      if c <? 0 then freeproc np;; release (LK_proc np);; ret (-1) else
      setp np (set_p_sz sz);;
      let* mask := getp p p_mask in
      setp np (set_p_mask mask);;
      let* prio := getp p p_priority in
      setp np (set_p_priority prio);;
      setp np (set_p_tickcounter 0);;
      setp np (set_p_average_bursttime (QUANTUM * 100));;
      (* copy saved user registers. *)
      copy_trapframe np p;;
      (* Cause fork to return 0 in the child. *)
      set_tf np tf_a0 0;;
      (* increment reference counts on open file descriptors. *)
      forM (seq 0 NOFILE) (fun i =>
        let* f := getp p (fun q => p_ofile q i) in
        match f with
        | Some f => let* g := filedup f in setp np (fun q => set_p_ofile (p_ofile q).[i := Some g] q)
        | None => ret tt
        end);;
      let* cwd := getp p p_cwd in
      let* cwd := deref cwd in
      let* ip := idup cwd in
      setp np (set_p_cwd (Some ip));;
      let* name := getp p p_name in
      setp np (fun q => set_p_name (safestrcpy (p_name q) 0 name 0 16) q);;
      let* pid := getp np p_pid in
      release (LK_proc np);;
      acquire LK_wait;;
      setp np (set_p_parent (Some p));;
      release LK_wait;;
      acquire (LK_proc np);;
      setp np (set_p_state RUNNABLE);;
      let* t := gets ticks in
      setp np (set_p_readyTime t);;
      release (LK_proc np);;
      ret pid
  end.

(** ** The first process *)

Definition initcode : list Z :=
  [0x17; 0x05; 0x00; 0x00; 0x13; 0x05; 0x45; 0x02;
   0x97; 0x05; 0x00; 0x00; 0x93; 0x85; 0x35; 0x02;
   0x93; 0x08; 0x70; 0x00; 0x73; 0x00; 0x00; 0x00;
   0x93; 0x08; 0x20; 0x00; 0x73; 0x00; 0x00; 0x00;
   0xef; 0xf0; 0x9f; 0xff; 0x2f; 0x69; 0x6e; 0x69;
   0x74; 0x00; 0x00; 0x24; 0x00; 0x00; 0x00; 0x00;
   0x00; 0x00; 0x00; 0x00].

Definition userinit : M unit :=
  let* r := allocproc in
  modify (set_initproc r);;
  let* p := deref r in
  (* allocate one user page and copy init's instructions and data into it. *)
  let* pt := getp p p_pagetable in
  uvminit pt initcode;;
  setp p (set_p_sz PGSIZE);;
  (* prepare for the very first "return" from kernel to user. *)
  set_tf p tf_epc 0;;
  set_tf p tf_sp PGSIZE;;
  setp p (fun q => set_p_name (safestrcpy (p_name q) 0 (local_bytes (chars "initcode")) 0 16) q);;
  let* ip := namei [slash] in
  setp p (set_p_cwd ip);;
  let* st := getp p p_state in
  let* t := gets ticks in
  when (bool_decide (st <> RUNNABLE)) (setp p (set_p_readyTime t));;
  setp p (set_p_state RUNNABLE);;
  release (LK_proc p).

(** The part of forkret() before usertrapret(). *)
Definition forkret_init : M unit :=
  (* Still holding p->lock from scheduler. *)
  let* p := myproc_deref in
  release (LK_proc p);;
  let* first := gets forkret_first in
  when first
    ((* File system initialization must be run in the context of a
        regular process (e.g., because it calls sleep). *)
     modify (set_forkret_first false);;
     fsinit ROOTDEV).
End Proc.
