(* ===== verification/ProcSpec.v ===== *)
(** * Birth and death of processes (kernel/proc.c)

    A process owns its trapframe page, its page tables and its user frames.
    allocproc() takes them from the allocator, fork() fills the child's with copies
    of the parent's, and freeproc() gives every one of them back; when something
    fails on the way nothing is lost. *)

From S2P Require Import Prelude State Spinlock CString Kalloc Sched SchedSpec Vm VmSpec ProcMem Wp UvmSpec Sleeplock Fs File Proc.
Open Scope Z_scope.

(** Runs that use the allocator only. *)
Lemma wp_kmem {A} p hl (f : M A) d Q : LK_kmem ∉ hl ->
  (forall e m, mach_ok m -> lk_free m LK_kmem -> exists a m' d', f e (mkK m d) = Ret a e (mkK m' d') /\ msame m m' /\ Q a hl d') ->
  wp p hl f d Q.
Proof.
  intros Hn H m0 m e (Hm & Hf & _) Hs. destruct (H e m) as (a & m' & d' & E & Hs' & HQ).
  - eapply msame_ok; [exact Hs|by apply macqs_ok].
  - eapply msame_free; [exact Hs|by apply macqs_free].
  - exists a, hl, m', d'. split_and!; [done|by eapply msame_trans|done].
Qed.

Lemma wp_kfree p hl pa d Q : LK_kmem ∉ hl -> page_ok d pa -> Q tt hl (kfree_d pa d) -> wp p hl (kfree pa) d Q.
Proof. intros Hn Hp HQ. apply wp_kmem; [done|]. intros e m Hm Hl. rewrite kfree_run by done. do 3 eexists. split; [done|]. split; [apply msame_settle|done]. Qed.

Lemma wp_kalloc p hl d Q : LK_kmem ∉ hl -> Q (freelist d) hl (kalloc_d d) -> wp p hl kalloc d Q.
Proof. intros Hn HQ. apply wp_kmem; [done|]. intros e m Hm Hl. rewrite kalloc_run by done. do 3 eexists. split; [done|]. split; [apply msame_settle|done]. Qed.

(** From [d] to [d'] only the process table, the free list and the pages [P] changed. *)
Record pstep (P : Z -> Prop) (d d' : kdata) : Prop := {
  pst_rest : d' = set_procs (procs d') (set_mem (mem d') (set_freelist (freelist d') d));
  pst_mem : forall a, off_pages P a -> mem d' a = mem d a;
}.

Lemma pstep_only P d d' : only_pages P d d' -> pstep P d d' /\ procs d' = procs d.
Proof. intros [H1 H2]. split; [split; [|done]|by rewrite H1]. rewrite H1. by destruct d. Qed.

Lemma pstep_trans (P Q R : Z -> Prop) d1 d2 d3 : pstep P d1 d2 -> pstep Q d2 d3 -> (forall q, P q -> R q) -> (forall q, Q q -> R q) -> pstep R d1 d3.
Proof.
  intros [A1 A2] [B1 B2] HP HQ. split.
  - rewrite B1, A1. by destruct d1.
  - intros a Ha. rewrite B2, A2; [done|..]; intros q Hq; apply Ha; auto.
Qed.

Lemma pstep_procs P d f : pstep P d (set_procs f d).
Proof. split; [by destruct d|done]. Qed.

Lemma pstep_syms P d d' : pstep P d d' -> syms d' = syms d.
Proof. by intros [-> _]. Qed.

(** ** freeproc *)

(** What freeproc() leaves in the slot. *)
Definition freed (q : proc) : proc :=
  set_p_state UNUSED (set_p_average_bursttime 0 (set_p_rutime 0 (set_p_retime 0 (set_p_ttime 0 (set_p_readyTime 0 (set_p_ctime 0 (set_p_xstate 0 (set_p_killed 0
    (set_p_chan None (set_p_name (p_name q).[0 := 0] (set_p_parent None (set_p_pid 0 (set_p_sz 0 (set_p_pagetable 0 (set_p_trapframe 0 q))))))))))))))).

(** The pages [T] of the process [q] besides the free pages [l]. *)
Inductive owns (d : kdata) (q : proc) (l : list Z) : list Z -> Prop :=
  | owns_none : p_trapframe q = 0 -> p_pagetable q = 0 -> kmem_ok d l -> owns d q l []
  | owns_tf tf : p_trapframe q = tf -> p_pagetable q = 0 -> kmem_ok d l -> page_ok d tf -> tf ∉ l -> owns d q l [tf]
  | owns_all root tf tab : p_trapframe q = tf -> p_pagetable q = root -> 0 <= p_sz q < 2 ^ 63 -> pspace d root tf l tab (npg (p_sz q)) ->
      owns d q l (tf :: table_pages tab ++ uframes (mem d) tab (npg (p_sz q))).

Lemma kmem_ext d d' l : mem d' = mem d -> freelist d' = freelist d -> syms d' = syms d -> kmem_ok d l -> kmem_ok d' l.
Proof. intros Em Ef Es [H1 H2 H3]. split; [by rewrite Em, Ef|done|]. unfold page_ok. by rewrite Es. Qed.

Lemma pt_ext d d' root tab : mem d' = mem d -> syms d' = syms d -> pt_ok d root tab -> pt_ok d' root tab.
Proof. intros Em Es H. eapply pt_ok_frame; [done|done|]. intros. by rewrite Em. Qed.

Lemma vm_ext_mem d d' root l tab : mem d' = mem d -> freelist d' = freelist d -> syms d' = syms d -> vm_ok d root l tab -> vm_ok d' root l tab.
Proof. intros Em Ef Es [H1 H2 H3 H4]. split; [by rewrite Es|by eapply kmem_ext|by eapply pt_ext|done]. Qed.

Lemma upages_ext_mem d d' root l tab n : mem d' = mem d -> freelist d' = freelist d -> syms d' = syms d -> upages d root l tab n -> upages d' root l tab n.
Proof. intros Em Ef Es [H1 H2 H3 H4]. split; [by eapply vm_ext_mem| |by rewrite Em|done]. intros k Hk. unfold page_ok. rewrite Em, Es. by apply H2. Qed.

Lemma pspace_ext d d' root tf l tab n : mem d' = mem d -> freelist d' = freelist d -> syms d' = syms d -> pspace d root tf l tab n -> pspace d' root tf l tab n.
Proof.
  intros Em Ef Es [[H1 H2 H3 H4] H5 H6 H7]. split; [split|..]; rewrite ?Em; try done; [by eapply upages_ext_mem|]. unfold page_ok. by rewrite Es.
Qed.

Lemma upd_comp i f g d : upd_proc i g (upd_proc i f d) = upd_proc i (fun q => g (f q)) d.
Proof. unfold upd_proc. cbn [procs set_procs]. rewrite fupd_eq, fupd_fupd. by destruct d. Qed.

(** The assignments of freeproc() after the pages are gone. *)
Definition free_fields (p : nat) : M unit :=
  setp p (set_p_pagetable 0);;
  setp p (set_p_sz 0);;
  setp p (set_p_pid 0);;
  setp p (set_p_parent None);;
  setp p (fun q => set_p_name (p_name q).[0 := 0] q);;
  setp p (set_p_chan None);;
  setp p (set_p_killed 0);;
  setp p (set_p_xstate 0);;
  setp p (set_p_ctime 0);;
  setp p (set_p_readyTime 0);;
  setp p (set_p_ttime 0);;
  setp p (set_p_retime 0);;
  setp p (set_p_rutime 0);;
  setp p (set_p_average_bursttime 0);;
  setp p (set_p_state UNUSED).

Lemma wp_free_fields p hl i d Q : p_trapframe (procs d i) = 0 -> Q tt hl (upd_proc i freed d) -> wp p hl (free_fields i) d Q.
Proof.
  intros Etf HQ. unfold free_fields. wp_run. rewrite !upd_comp. replace (upd_proc i _ d) with (upd_proc i freed d); [done|].
  unfold upd_proc. f_equal. f_equal. unfold freed. destruct (procs d i). simpl in *. by subst.
Qed.

Section Free.
Context (p : nat) (hl : list lockid) (i : nat) (l T : list Z) (d : kdata).
Hypothesis Hhl : LK_kmem ∉ hl.
Hypothesis Hend : 0 < sy_end (syms d).
Hypothesis Ho : owns d (procs d i) l T.

Lemma wp_freeproc Q :
  (forall d' l', pstep (fun q => q ∈ T) d d' -> procs d' = (procs d).[i := freed (procs d i)] -> kmem_ok d' l' -> l' ≡ₚ T ++ l -> Q tt hl d') ->
  wp p hl (freeproc i) d Q.
Proof using All.
  intros HQ. change (freeproc i) with (let* tf := getp i p_trapframe in when (negb (tf =? 0)) (kfree tf);; setp i (set_p_trapframe 0);;
    let* pt := getp i p_pagetable in let* sz := getp i p_sz in when (negb (pt =? 0)) (proc_freepagetable pt sz);; free_fields i).
  assert (forall d1 l', pstep (fun q => q ∈ T) d d1 -> procs d1 = (procs d).[i := set_p_trapframe 0 (procs d i)] -> kmem_ok d1 l' -> l' ≡ₚ T ++ l -> wp p hl (free_fields i) d1 Q) as Hlast.
  { intros d1 l' H1 H2 H3 H4. apply wp_free_fields; [by rewrite H2, fupd_eq|]. apply (HQ _ l'); [|unfold upd_proc; cbn [procs set_procs]; by rewrite H2, fupd_eq, fupd_fupd| |done].
    - eapply pstep_trans; [exact H1|apply (pstep_procs (fun q => q ∈ T))|done|done].
    - by eapply kmem_ext; [..|exact H3]. }
  wp_run. destruct Ho as [E1 E2 Hk|tf E1 E2 Hk Hp Hni|root tf tab E1 E2 Hsz Hsp].
  - rewrite E1. cbn [Z.eqb negb when]. wp_run. cbn [procs upd_proc set_procs]. rewrite fupd_eq. cbn [p_pagetable set_p_trapframe]. rewrite E2. cbn [Z.eqb negb when]. wp_run.
    apply (Hlast _ l); [apply pstep_procs|done|by eapply kmem_ext; [..|exact Hk]|done].
  - rewrite E1. assert (tf <> 0) as H0 by (destruct (page_ok_bounds d tf Hend Hp); lia). rewrite (proj2 (Z.eqb_neq _ _) H0). cbn [negb when].
    apply wp_kfree; [done|done|]. wp_run. cbn [procs upd_proc set_procs]. rewrite fupd_eq. cbn [p_pagetable set_p_trapframe kfree_d procs set_freelist set_mem]. rewrite E2. cbn [Z.eqb negb when]. wp_run.
    apply (Hlast _ (tf :: l)); [|done|by eapply kmem_ext; [..|apply (kfree_d_ok d l tf)]|done].
    eapply pstep_trans; [apply (pstep_only _ _ _ (kfree_d_only tf d))|apply (pstep_procs (fun q => q ∈ [tf]))|intros q ->; by constructor|done].
  - rewrite E1. destruct Hsp as [Htop Hfr Hp Hni]. assert (tf <> 0) as H0 by (destruct (page_ok_bounds d tf Hend Hp); lia). rewrite (proj2 (Z.eqb_neq _ _) H0). cbn [negb when].
    apply wp_kfree; [done|done|]. wp_run. cbn [procs upd_proc set_procs]. rewrite fupd_eq. cbn [p_pagetable p_sz set_p_trapframe kfree_d procs set_freelist set_mem]. rewrite E2.
    set (n := npg (p_sz (procs d i))) in *. pose proof (up_vm _ _ _ _ _ (to_up _ _ _ _ _ Htop)) as V.
    assert (~ owned tab tf) as Hno by (intros H; apply Hni; rewrite elem_of_app; left; by apply (elem_table_pages d root tab (vo_pt _ _ _ _ V))).
    assert (tf ∉ l) as Hnl by (intros H; apply Hni; rewrite !elem_of_app; tauto). destruct (vm_ok_kfree d root l tab tf V Hp Hnl Hno) as [V1 P1].
    pose proof (pt_page _ _ _ (vo_pt _ _ _ _ V) _ _ (pt_root _ _ _ (vo_pt _ _ _ _ V))) as Hroot. assert (root <> 0) as Hr0 by (destruct (page_ok_bounds d root Hend Hroot); lia).
    rewrite (proj2 (Z.eqb_neq _ _) Hr0). cbn [negb when]. set (d2 := upd_proc i _ (kfree_d tf d)).
    assert (topped d2 root (tf :: l) tab n) as Htop2.
    { eapply topped_ext; [exact Htop|by eapply vm_ext_mem; [..|exact V1]|done|exact P1|].
      rewrite (app_assoc (table_pages tab)), <- Permutation_middle, <- app_assoc. apply NoDup_cons. split; [done|]. apply (up_nodup _ _ _ _ _ (to_up _ _ _ _ _ Htop)). }
    apply wp_kmem; [done|]. intros e m Hm Hl. destruct (proc_freepagetable_run d2 root (tf :: l) tab (p_sz (procs d i)) e m) as (m' & d3 & R & Hm' & T' & ET & Hk & O3); try done.
    exists tt, m', d3. split; [done|]. split; [done|]. fold n in ET, O3. assert (uframes (mem d2) tab n = uframes (mem d) tab n) as EU by (apply map_ext; intros a; unfold frame_of; f_equal; apply P1).
    rewrite EU in ET, O3. destruct (pstep_only _ _ _ O3) as [S3 E3]. apply (Hlast _ (T' ++ tf :: l)); [|by rewrite E3|done|by rewrite ET, <- Permutation_middle].
    eapply pstep_trans; [apply (pstep_only _ _ _ (kfree_d_only tf d))|eapply pstep_trans; [apply (pstep_procs (fun q => q ∈ table_pages tab ++ uframes (mem d) tab n))|exact S3|done|done]|intros q ->; by constructor|].
    intros q Hq. by constructor.
Qed.
End Free.

(** ** allocproc *)

(** The slot after the assignments at label [found]. *)
Definition born (pid t : Z) (q : proc) : proc :=
  set_p_rutime 0 (set_p_readyTime t (set_p_ctime (i32 t) (set_p_average_bursttime (QUANTUM * 100) (set_p_priority NORMAL_PRIORITY
    (set_p_tickcounter 0 (set_p_mask 0 (set_p_state USED (set_p_pid pid q)))))))).

(** The slot as allocproc() returns it. *)
Definition started (pid t tf root fr : Z) (q : proc) : proc :=
  let q1 := set_p_pagetable root (set_p_trapframe tf (born pid t q)) in
  set_p_context (mkContext fr (p_kstack q + PGSIZE) (repeat 0 12)) q1.

Lemma freed_tf v q : freed (set_p_trapframe v q) = freed q.
Proof. by destruct q. Qed.

Lemma freed_pt v q : freed (set_p_pagetable v q) = freed q.
Proof. by destruct q. Qed.

Lemma wp_allocpid p hl d Q : LK_pid ∉ hl -> Q (nextpid d) hl (set_nextpid (i32 (nextpid d + 1)) d) -> wp p hl allocpid d Q.
Proof. intros Hn HQ. unfold allocpid. wp_run. done. Qed.

Section Alloc.
Context (p np : nat) (d : kdata) (l : list Z).
Hypothesis Hend : 0 < sy_end (syms d).
Hypothesis Hk : kmem_ok d l.
Hypothesis Hpt : p_pagetable (procs d np) = 0.
Hypothesis Hsz : p_sz (procs d np) = 0.
Hypothesis Htr : 0 <= sy_trampoline (syms d) /\ sy_trampoline (syms d) + PGSIZE <= 2 ^ 56.
Notation pid := (nextpid d).
Notation dn := (set_nextpid (i32 (nextpid d + 1)) d).

Lemma wp_alloc_found Q :
  (forall d' l', pstep (fun q => q ∈ l) dn d' -> procs d' = (procs d).[np := freed (born pid (ticks d) (procs d np))] ->
     kmem_ok d' l' -> l' ≡ₚ l -> Q None [] d') ->
  (forall d' l' tf root tab, pstep (fun q => q ∈ l) dn d' ->
     procs d' = (procs d).[np := started pid (ticks d) tf root (sy_forkret (syms d)) (procs d np)] ->
     pspace d' root tf l' tab 0 -> l ≡ₚ tf :: table_pages tab ++ l' -> (forall x, 0 <= x < TRAPFRAME -> pte_at (mem d') tab x = 0) -> Q (Some np) [LK_proc np] d') ->
  wp p [LK_proc np] (alloc_found np) d Q.
Proof using All.
  intros HN HS. unfold alloc_found. wp_run. apply wp_allocpid; [lk_notin|]. wp_run. rewrite !upd_comp. cbn [ticks upd_proc set_procs set_nextpid].
  set (d1 := upd_proc np _ _). assert (procs d1 = (procs d).[np := born pid (ticks d) (procs d np)]) as E1 by done.
  assert (pstep (fun q => q ∈ l) dn d1) as S1 by (split; [by destruct d|done]). assert (kmem_ok d1 l) as Hk1 by by eapply kmem_ext; [..|exact Hk].
  apply wp_kalloc; [lk_notin|]. wp_run. rewrite (kmem_head _ _ Hk1). destruct l as [|tf l1].
  { rewrite kalloc_d_nil by done. cbn [hd Z.eqb]. cbv iota. apply wp_bind. set (d2 := upd_proc np _ d1). assert (procs d2 = (procs d1).[np := set_p_trapframe 0 (procs d1 np)]) as E2 by done.
    apply (wp_freeproc p _ np [] [] d2); [lk_notin|done| |].
    - apply owns_none; [by rewrite E2, fupd_eq|by rewrite E2, fupd_eq, E1, fupd_eq|by eapply kmem_ext; [..|exact Hk1]].
    - intros d3 l3 S3 E3 Hk3 P3. wp_run. apply (HN d3 l3); try done.
      + eapply pstep_trans; [exact S1|eapply pstep_trans; [apply (pstep_procs (fun q => q ∈ []))|exact S3|done|done]|done|done].
      + by rewrite E3, E2, !fupd_fupd, fupd_eq, freed_tf, E1, fupd_fupd, fupd_eq. }
  pose proof (kalloc_d_only d1 tf l1 Hk1) as O1. pose proof (kalloc_d_ok _ _ _ Hk1) as Hk2. pose proof Hk1 as [(_ & Htf0 & _) Hnd Hf]. apply Forall_cons in Hf as [Htf _]. apply NoDup_cons in Hnd as [Htfl _].
  cbn [hd]. rewrite (proj2 (Z.eqb_neq _ _) Htf0). cbv iota. set (d2 := upd_proc np _ (kalloc_d d1)).
  assert (procs (kalloc_d d1) = procs d1) as Eka by by rewrite (op_rest _ _ _ O1). assert (procs d2 = (procs d1).[np := set_p_trapframe tf (procs d1 np)]) as E2 by (unfold d2, upd_proc; cbn [procs set_procs]; by rewrite Eka).
  assert (syms d2 = syms d) as Es2 by (unfold d2, upd_proc; cbn [syms set_procs]; rewrite kalloc_d_syms; done). assert (page_ok d2 tf) as Htf2 by (unfold page_ok; by rewrite Es2).
  assert (pstep (fun q => q ∈ tf :: l1) dn d2) as S2.
  { eapply (pstep_trans _ (fun q => q ∈ tf :: l1)); [exact S1|eapply (pstep_trans (fun q => q = tf)); [apply (pstep_only _ _ _ O1)|apply (pstep_procs (fun q => q ∈ tf :: l1))|intros q ->; by constructor|done]|done|done]. }
  apply wp_bind, wp_kmem; [lk_notin|]. intros e m Hm Hl.
  destruct (proc_pagetable_run d2 np tf l1 e m) as (r & m3 & d3 & l3 & R & Hm3 & O3 & H3); try done; rewrite ?Es2; try done.
  { by eapply kmem_ext; [..|exact Hk2]. } { by rewrite E2, fupd_eq. } { apply Htr. } { apply Htr. }
  exists r, m3, d3. split; [done|]. split; [done|]. wp_run. destruct (pstep_only _ _ _ O3) as [S3 E3]. set (d4 := upd_proc np _ d3).
  assert (procs d4 = (procs d).[np := set_p_pagetable r (set_p_trapframe tf (born pid (ticks d) (procs d np)))]) as E4.
  { unfold d4, upd_proc. cbn [procs set_procs]. by rewrite E3, E2, fupd_eq, !fupd_fupd, E1, fupd_eq, fupd_fupd. }
  assert (pstep (fun q => q ∈ tf :: l1) dn d4) as S4.
  { eapply (pstep_trans _ (fun q => q ∈ l1)); [exact S2|eapply pstep_trans; [exact S3|apply (pstep_procs (fun q => q ∈ l1))|done|done]|done|intros q Hq; by constructor]. }
  destruct H3 as [(-> & Hk3 & P3)|(Hr & tab & Hsp & P3 & Hz)].
  - cbn [Z.eqb]. cbv iota. apply wp_bind. apply (wp_freeproc p _ np l3 [tf] d4); [lk_notin|by rewrite (pstep_syms _ _ _ S4)| |].
    + eapply owns_tf; [by rewrite E4, fupd_eq|by rewrite E4, fupd_eq|by eapply kmem_ext; [..|exact Hk3]|unfold page_ok; by rewrite (pstep_syms _ _ _ S4)|by rewrite P3].
    + intros d5 l5 S5 E5 Hk5 P5. wp_run. apply (HN d5 l5); [|by rewrite E5, E4, fupd_fupd, fupd_eq, freed_pt, freed_tf|done|by rewrite P5, P3].
      eapply pstep_trans; [exact S4|exact S5|done|]. intros q ->%list_elem_of_singleton. by constructor.
  - rewrite (proj2 (Z.eqb_neq _ _) Hr). cbv iota. wp_run. set (d5 := upd_proc np _ d4). apply (HS d5 l3 tf r tab).
    + eapply pstep_trans; [exact S4|apply (pstep_procs (fun q => q ∈ tf :: l1))|done|done].
    + unfold d5, upd_proc. cbn [procs set_procs]. rewrite E4, fupd_fupd, fupd_eq, (pstep_syms _ _ _ S4). reflexivity.
    + by eapply pspace_ext; [..|exact Hsp].
    + by rewrite P3.
    + exact Hz.
Qed.
End Alloc.

Definition unused (d : kdata) (i : nat) : bool := bool_decide (p_state (procs d i) = UNUSED).

Lemma wp_scan_unused p d js Q :
  match find (unused d) js with Some i => Q (Some i) [LK_proc i] d | None => Q None [] d end ->
  wp p [] (forE js (fun i => acquire (LK_proc i);; let* st := getp i p_state in if bool_decide (st = UNUSED) then ret (Some i) else release (LK_proc i);; ret None)) d Q.
Proof.
  induction js as [|i js IH]; intros HQ; cbn [forE find] in *; [by wp_run|]. wp_run. unfold unused in HQ at 1. case_bool_decide; wp_run; [done|by apply IH].
Qed.

Lemma wp_allocproc p d l Q :
  0 < sy_end (syms d) -> kmem_ok d l -> 0 <= sy_trampoline (syms d) /\ sy_trampoline (syms d) + PGSIZE <= 2 ^ 56 ->
  (forall np, p_state (procs d np) = UNUSED -> p_pagetable (procs d np) = 0 /\ p_sz (procs d np) = 0) ->
  (find (unused d) all_procs = None -> Q None [] d) ->
  (forall np, find (unused d) all_procs = Some np -> p_state (procs d np) = UNUSED ->
    let dn := set_nextpid (i32 (nextpid d + 1)) d in
    (forall d' l', pstep (fun q => q ∈ l) dn d' -> procs d' = (procs d).[np := freed (born (nextpid d) (ticks d) (procs d np))] -> kmem_ok d' l' -> l' ≡ₚ l -> Q None [] d') /\
    (forall d' l' tf root tab, pstep (fun q => q ∈ l) dn d' ->
       procs d' = (procs d).[np := started (nextpid d) (ticks d) tf root (sy_forkret (syms d)) (procs d np)] ->
       pspace d' root tf l' tab 0 -> l ≡ₚ tf :: table_pages tab ++ l' -> (forall x, 0 <= x < TRAPFRAME -> pte_at (mem d') tab x = 0) -> Q (Some np) [LK_proc np] d')) ->
  wp p [] allocproc d Q.
Proof.
  intros Hend Hk Htr Hslot HN HS. unfold allocproc. apply wp_bind, wp_scan_unused. destruct (find (unused d) all_procs) as [np|] eqn:E; [|wp_run; by apply HN].
  apply find_some in E as [_ Hu]. unfold unused in Hu. apply bool_decide_eq_true in Hu. destruct (Hslot np Hu) as [H1 H2]. destruct (HS np eq_refl Hu) as [H3 H4].
  by apply (wp_alloc_found p np d l).
Qed.

(** ** Address spaces of others *)

(** The pages of [P] are not tables or frames of the address space. *)
Lemma pspace_keep (P : Z -> Prop) d d' root tf l l' tab n :
  pspace d root tf l tab n -> pstep P d d' -> (forall q, P q -> q mod PGSIZE = 0 /\ q ∉ table_pages tab ++ uframes (mem d) tab n) -> kmem_ok d' l' ->
  (forall q, q ∈ l' -> q ∉ tf :: table_pages tab ++ uframes (mem d) tab n) ->
  pspace d' root tf l' tab n /\ (forall x, pte_at (mem d') tab x = pte_at (mem d) tab x) /\
  forall q o, ~ P q -> q ∈ tf :: table_pages tab ++ uframes (mem d) tab n -> 0 <= o < PGSIZE -> mem d' (q + o) = mem d (q + o).
Proof.
  intros [Htop Hfr Htf Hown] S HP Hk Hl. pose proof (up_vm _ _ _ _ _ (to_up _ _ _ _ _ Htop)) as [V1 V2 V3 V4]. pose proof (pstep_syms _ _ _ S) as Es.
  assert (forall q a, owned tab q -> q <= a < q + PGSIZE -> mem d' a = mem d a) as Hsame.
  { intros q a Hq Ha. apply (pst_mem _ _ _ S). pose proof Hq as [pp Hq']. apply (off_pages_apart _ q); [apply (pt_page _ _ _ V3 _ _ Hq')|done|].
    intros x [Hx1 Hx2]%HP. split; [done|]. intros ->. apply Hx2. rewrite elem_of_app. left. by apply (elem_table_pages d root tab V3). }
  assert (forall x, pte_at (mem d') tab x = pte_at (mem d) tab x) as Hpte by (intros x; by apply pte_at_frame).
  assert (uframes (mem d') tab n = uframes (mem d) tab n) as EU by (apply map_ext; intros a; unfold frame_of; by rewrite Hpte).
  assert (NoDup (table_pages tab ++ uframes (mem d) tab n ++ l')) as Hnd.
  { pose proof (up_nodup _ _ _ _ _ (to_up _ _ _ _ _ Htop)) as H. rewrite app_assoc in *. apply NoDup_app in H as (H1 & _ & _). apply NoDup_app. split_and!; [done| |apply Hk].
    intros q Hq Hq2. apply (Hl q Hq2). by constructor. }
  split_and!; [|done|].
  - split; [|by unfold frame_of; rewrite Hpte|unfold page_ok; by rewrite Es|rewrite EU].
    + eapply topped_ext; [exact Htop| |done|done|done]. split; [by rewrite Es|done|by eapply pt_ok_frame|].
      intros q Hq Hq2. apply (Hl q Hq2). constructor 2. rewrite elem_of_app. left. by apply (elem_table_pages d root tab V3).
    + rewrite app_assoc, elem_of_app. intros [H|H]; [apply Hown; rewrite app_assoc, elem_of_app; by left|]. apply (Hl tf H). by constructor.
  - intros q o HnP Hq Ho. assert (q mod PGSIZE = 0) as Hqa.
    { apply elem_of_cons in Hq as [->|Hq]; [apply Htf|]. apply elem_of_app in Hq as [[pp Hq]%(elem_table_pages d root tab V3)|(k & Hk2 & ->)%elem_uframes]; [apply (pt_page _ _ _ V3 _ _ Hq)|].
      apply (up_leaf _ _ _ _ _ (to_up _ _ _ _ _ Htop) k Hk2). }
    apply (pst_mem _ _ _ S). apply (off_pages_apart _ q); [done|lia|]. intros x Hx. split; [by apply HP|]. by intros ->.
Qed.

(** ** Copying an address space *)

(** The copy [tab'] of the first [n] pages of [tab]: same permissions, same bytes. *)
Definition same_pages (d : kdata) (tab : tables) (d' : kdata) (tab' : tables) (n : nat) : Prop :=
  forall k, (k < n)%nat -> PTE_FLAGS (pte_at (mem d') tab' (page k)) = PTE_FLAGS (pte_at (mem d) tab (page k)) /\
    forall o, 0 <= o < PGSIZE -> mem d' (frame_of (mem d') tab' (page k) + o) = mem d (frame_of (mem d) tab (page k) + o).

Section CopySpace.
Context (d : kdata) (old new tfo tfn : Z) (l : list Z) (tabo tab : tables) (n : nat).
Hypothesis Hold : pspace d old tfo l tabo n.
Hypothesis Hnew : pspace d new tfn l tab 0.
Hypothesis Hz : forall x, 0 <= x < TRAPFRAME -> pte_at (mem d) tab x = 0.
Hypothesis Hdis : forall q, q ∈ tfo :: table_pages tabo ++ uframes (mem d) tabo n -> q ∉ tfn :: table_pages tab.

Let Vn : vm_ok d new l tab := up_vm _ _ _ _ _ (to_up _ _ _ _ _ (ps_top _ _ _ _ _ _ Hnew)).
Let Vo : vm_ok d old l tabo := up_vm _ _ _ _ _ (to_up _ _ _ _ _ (ps_top _ _ _ _ _ _ Hold)).

Lemma cs_owned q : owned tabo q -> (q ∉ l) /\ ~ owned tab q.
Proof using Hold Hnew Hdis.
  intros Hq. split; [by apply (vo_disj _ _ _ _ Vo)|]. intros Hq2. apply (Hdis q); constructor 2; [rewrite elem_of_app; left|]; by eapply elem_table_pages; [apply Vo || apply Vn|].
Qed.

Lemma cs_leaf k : (k < n)%nat -> (has (pte_at (mem d) tabo (page k)) PTE_V = true /\ PTE_FLAGS (pte_at (mem d) tabo (page k)) <> PTE_V) /\
  page_ok d (frame_of (mem d) tabo (page k)) /\ (frame_of (mem d) tabo (page k) ∉ l) /\ ~ owned tab (frame_of (mem d) tabo (page k)).
Proof using Hold Hnew Hdis.
  intros Hk. pose proof (to_up _ _ _ _ _ (ps_top _ _ _ _ _ _ Hold)) as U. destruct (up_leaf _ _ _ _ _ U k Hk) as [L1 L2].
  assert (frame_of (mem d) tabo (page k) ∈ uframes (mem d) tabo n) as Hin by (apply elem_uframes; eauto). split_and!; [apply L1|apply L1|apply L2| |].
  - pose proof (up_nodup _ _ _ _ _ U) as H. apply NoDup_app in H as (_ & _ & H). apply NoDup_app in H as (_ & H & _). by apply H.
  - intros Hq. apply (Hdis (frame_of (mem d) tabo (page k))); constructor 2; [rewrite elem_of_app; by right|]. by eapply elem_table_pages; [apply Vn|].
Qed.

Lemma cs_zero k : (k < n)%nat -> pte_at (mem d) tab (page k) = 0.
Proof using Hold Hz. intros Hk. apply Hz. pose proof (up_max _ _ _ _ _ (to_up _ _ _ _ _ (ps_top _ _ _ _ _ _ Hold))). unfold PGSIZE in *. lia. Qed.

Lemma cs_max : page n <= MAXVA.
Proof using Hold. pose proof (up_max _ _ _ _ _ (to_up _ _ _ _ _ (ps_top _ _ _ _ _ _ Hold))). destruct TRAPFRAME_eq. rewrite MAXVA_eq. unfold PGSIZE in *. lia. Qed.

Lemma copied_pspace i d' l' tab' T F : (i <= n)%nat -> copied new tabo tab l d i d' l' tab' T F ->
  pspace d' new tfn l' tab' i /\ same_pages d tabo d' tab' i /\ table_pages tab' ++ uframes (mem d') tab' i ++ l' ≡ₚ table_pages tab ++ l.
Proof using All.
  intros Hi C. destruct (copied_unmappable old new tabo tab l d n Vn (vo_pt _ _ _ _ Vo) cs_owned cs_leaf cs_zero cs_max i d' l' tab' T F C Hi) as [[Hun Hnd] EF].
  fold (uframes (mem d') tab' i) in EF. pose proof C as [C1 C2 C3 C4 C5 C6 C7 C8]. destruct (copied_nodup new tabo tab l d Vn i d' l' tab' T F C) as [_ Hin].
  assert (table_pages tab' ≡ₚ table_pages tab ++ T) as ET.
  { pose proof (table_pages_disj _ _ _ _ Vn) as H. rewrite C4, app_assoc in H. apply NoDup_app in H as [H _]. apply NoDup_Permutation; [by eapply table_pages_nodup, C1|done|].
    intros q. rewrite elem_of_app, (elem_table_pages d' new tab' (vo_pt _ _ _ _ C1)), (elem_table_pages d new tab (vo_pt _ _ _ _ Vn)). apply C3. }
  assert (table_pages tab' ++ uframes (mem d') tab' i ++ l' ≡ₚ table_pages tab ++ l) as EA by by rewrite EF, ET, <- app_assoc, C4.
  destruct Hnew as [[U Htr Htf Hno] Hfr Hpt Hown]. destruct TRAPFRAME_eq as [E1 E2]. pose proof cs_max as Hmx.
  assert (page i <= TRAPFRAME) as Hit by (pose proof (up_max _ _ _ _ _ (to_up _ _ _ _ _ (ps_top _ _ _ _ _ _ Hold))); unfold PGSIZE in *; lia).
  assert (forall x, page i <= x < MAXVA -> pte_at (mem d') tab' x = pte_at (mem d) tab x) as Hrest by done.
  assert (pte_at (mem d') tab' TRAMPOLINE = pte_at (mem d) tab TRAMPOLINE /\ pte_at (mem d') tab' TRAPFRAME = pte_at (mem d) tab TRAPFRAME) as [R1 R2].
  { split; apply Hrest; rewrite MAXVA_eq; unfold PGSIZE in *; lia. }
  split_and!; [|split|done].
  - split; [split|..].
    + split; [done| |rewrite EA; by eapply table_pages_disj|done]. intros k Hk. destruct (Hun (page k)) as (H1 & H2 & H3); [apply npages_from_elem; exists k; done|]. destruct (H3 eq_refl) as [H4 _]. done.
    + by rewrite R1.
    + by rewrite R2.
    + intros x Hx. rewrite Hrest by (rewrite MAXVA_eq; unfold PGSIZE in *; lia). apply Hno. unfold PGSIZE in *. lia.
    + unfold frame_of. by rewrite R2.
    + unfold page_ok. by rewrite (only_pages_syms _ _ _ C2).
    + rewrite EA. exact Hown.
  - destruct (lookup_lt_is_Some_2 F k) as [f Ef]; [lia|]. rewrite (C6 k f Ef), PTE_FLAGS_entry; [done| |apply PTE_FLAGS_range].
    destruct (Hin f) as (_ & _ & Hpf); [rewrite !elem_of_app; right; left; by eapply list_elem_of_lookup_2|]. destruct (page_ok_bounds d' f (vo_end _ _ _ _ C1) Hpf). lia.
  - intros o Ho. destruct (lookup_lt_is_Some_2 F k) as [f Ef]; [lia|]. rewrite <- (C8 k f o Ef Ho). do 2 f_equal. rewrite <- EF in Ef.
    unfold uframes in Ef. rewrite list_lookup_fmap in Ef. unfold npages_from in Ef. rewrite list_lookup_fmap, lookup_seq_lt in Ef by lia. simpl in Ef. congruence.
Qed.

Lemma wp_uvmcopy p hl sz Q : LK_kmem ∉ hl -> 0 <= sz -> npg sz = n ->
  (forall r i d' l' tab', r = 0 /\ i = n \/ r = -1 /\ i = 0%nat -> only_pages (fun q => q ∈ l \/ owned tab q) d d' ->
     pspace d' new tfn l' tab' i -> same_pages d tabo d' tab' i -> table_pages tab' ++ uframes (mem d') tab' i ++ l' ≡ₚ table_pages tab ++ l -> Q r hl d') ->
  wp p hl (uvmcopy old new sz) d Q.
Proof using All.
  intros Hn Hsz En HQ. apply wp_kmem; [done|]. intros e m Hm Hl.
  destruct (uvmcopy_run old new tabo tab l d n Vn (vo_pt _ _ _ _ Vo) cs_owned cs_leaf cs_zero cs_max sz e m Hm Hl) as (m' & d' & l' & tab' & T & F & Hm' & [[R C]|[R C]]).
  { rewrite <- En. unfold npg. rewrite Z2Nat.id; [done|]. apply Z.div_pos; unfold PGSIZE; lia. }
  - exists 0, m', d'. split; [done|]. split; [done|]. destruct (copied_pspace n d' l' tab' T F ltac:(lia) C) as (H1 & H2 & H3). apply (HQ 0 n d' l' tab'); [by left|apply C|exact H1|exact H2|exact H3].
  - exists (-1), m', d'. split; [done|]. split; [done|]. destruct (copied_pspace 0 d' l' tab' T F ltac:(lia) C) as (H1 & H2 & H3). apply (HQ (-1) 0%nat d' l' tab'); [by right|apply C|exact H1|exact H2|exact H3].
Qed.
End CopySpace.

(** ** fork *)

(** How often the descriptors of [q] below [n] name the file [f]. *)
Definition fd_refs (q : proc) (n : nat) (f : nat) : Z := Z.of_nat (length (List.filter (fun fd => bool_decide (p_ofile q fd = Some f)) (seq 0 n))).

Lemma fd_refs_S q n f : fd_refs q (S n) f = fd_refs q n f + if bool_decide (p_ofile q n = Some f) then 1 else 0.
Proof. unfold fd_refs. rewrite seq_S, List.filter_app, length_app. simpl. case_bool_decide; simpl; lia. Qed.

(** The table of open files of the child. *)
Definition dup_files (pa q : proc) (n : nat) (fd : nat) : option nat :=
  if decide (fd < n)%nat then match p_ofile pa fd with Some f => Some f | None => p_ofile q fd end else p_ofile q fd.

Lemma dup_files_S pa q n : dup_files pa q (S n) = match p_ofile pa n with Some f => (dup_files pa q n).[n := Some f] | None => dup_files pa q n end.
Proof.
  extensionality fd. unfold dup_files, fupd. destruct (p_ofile pa n) as [f|] eqn:E; repeat case_decide; subst; rewrite ?E; try done; try lia.
  assert (fd = n) as -> by lia. by rewrite E.
Qed.

Lemma dup_files_eq pa q q' n : p_ofile q = p_ofile q' -> dup_files pa q n = dup_files pa q' n.
Proof. intros E. unfold dup_files. by rewrite E. Qed.

Lemma wp_filedup p hl f d Q : LK_ftable ∉ hl -> 1 <= f_ref (files d f) ->
  Q f hl (set_files (files d).[f := set_f_ref (f_ref (files d f) + 1) (files d f)] d) -> wp p hl (filedup f) d Q.
Proof.
  intros Hn Hr HQ. unfold filedup, getf, setf. wp_run. rewrite (proj2 (Z.ltb_ge _ _)) by lia. wp_run. done.
Qed.

(** The loop that copies the open files. *)
Lemma wp_dup_loop p np d Q : p <> np -> (forall fd f, p_ofile (procs d p) fd = Some f -> 1 <= f_ref (files d f)) ->
  Q tt [LK_proc np] (set_files (fun f => set_f_ref (f_ref (files d f) + fd_refs (procs d p) NOFILE f) (files d f))
     (upd_proc np (fun q => set_p_ofile (dup_files (procs d p) q NOFILE) q) d)) ->
  wp p [LK_proc np] (forM (seq 0 NOFILE) (fun i =>
    let* f := getp p (fun q => p_ofile q i) in
    match f with
    | Some f => let* g := filedup f in setp np (fun q => set_p_ofile (p_ofile q).[i := Some g] q)
    | None => ret tt
    end)) d Q.
Proof.
  intros Hne Href HQ. set (J := fun k d' => d' = set_files (fun f => set_f_ref (f_ref (files d f) + fd_refs (procs d p) k f) (files d f))
     (upd_proc np (fun q => set_p_ofile (dup_files (procs d p) q k) q) d)).
  apply (wp_forM p _ _ _ J).
  - unfold J. replace (upd_proc np _ d) with d.
    + replace (fun f => _) with (files d); [by destruct d|]. extensionality f. change (fd_refs _ 0 f) with 0. rewrite Z.add_0_r. by destruct (files d f).
    + unfold upd_proc. change (dup_files (procs d p) (procs d np) 0) with (p_ofile (procs d np)). replace (set_p_ofile _ _) with (procs d np) by by destruct (procs d np). rewrite fupd_id. by destruct d.
  - intros i x d' [-> Hx]%lookup_seq ->. simpl in Hx |- *. wp_run. cbn [procs set_files upd_proc set_procs]. rewrite fupd_ne by done.
    unfold J. destruct (p_ofile (procs d p) i) as [f|] eqn:Ef.
    + wp_run. apply wp_filedup; [lk_notin|cbn; specialize (Href i f Ef); unfold fd_refs; lia|]. wp_run. split; [done|]. cbn [procs set_files upd_proc set_procs files].
      unfold upd_proc. cbn [procs set_files set_procs files]. rewrite fupd_eq, fupd_fupd. cbn [p_ofile set_p_ofile]. 
      replace (set_p_ofile _ (set_p_ofile _ _)) with (set_p_ofile (dup_files (procs d p) (procs d np) (S i)) (procs d np)) by (rewrite dup_files_S, Ef; by destruct (procs d np)).
      replace (fupd _ f _) with (fun f => set_f_ref (f_ref (files d f) + fd_refs (procs d p) (S i) f) (files d f)); [by destruct d|].
      extensionality g. rewrite fd_refs_S, Ef. unfold fupd. case_decide as Hg; case_bool_decide as Hb; simplify_eq; [|by rewrite Z.add_0_r]. unfold set_f_ref. cbn. f_equal. lia.
    + wp_run. split; [done|]. f_equal.
      * extensionality g. rewrite fd_refs_S, Ef, bool_decide_eq_false_2 by done. by rewrite Z.add_0_r.
      * unfold upd_proc. by rewrite dup_files_S, Ef.
  - intros d' ->. rewrite length_seq. exact HQ.
Qed.

(** A process that can fork: its address space and its table of files are in order,
    and free slots are empty. *)
Record forkable (p : nat) (d : kdata) (l : list Z) (tab : tables) (ip : nat) : Prop := {
  fk_end : 0 < sy_end (syms d);
  fk_tramp : 0 <= sy_trampoline (syms d) /\ sy_trampoline (syms d) + PGSIZE <= 2 ^ 56;
  fk_sz : 0 <= p_sz (procs d p) < 2 ^ 63;
  fk_space : pspace d (p_pagetable (procs d p)) (p_trapframe (procs d p)) l tab (npg (p_sz (procs d p)));
  fk_run : p_state (procs d p) <> UNUSED;
  fk_slots : forall i, p_state (procs d i) = UNUSED -> p_pagetable (procs d i) = 0 /\ p_sz (procs d i) = 0;
  fk_files : forall fd f, p_ofile (procs d p) fd = Some f -> 1 <= f_ref (files d f);
  fk_cwd : p_cwd (procs d p) = Some ip;
}.

(** The slot of the child when fork() is done. *)
Definition forked (p : nat) (pa : proc) (t : Z) (q : proc) : proc :=
  set_p_readyTime t (set_p_state RUNNABLE (set_p_parent (Some p) (set_p_name (safestrcpy (p_name q) 0 (p_name pa) 0 16)
    (set_p_cwd (p_cwd pa) (set_p_ofile (dup_files pa q NOFILE) (set_p_average_bursttime (QUANTUM * 100) (set_p_tickcounter 0
      (set_p_priority (p_priority pa) (set_p_mask (p_mask pa) (set_p_sz (p_sz pa) q)))))))))).

Section Fork.
Context (p : nat) (d : kdata) (l : list Z) (tab : tables) (ip : nat).
Hypothesis Hf : forkable p d l tab ip.
Notation pa := (procs d p).
Notation n := (npg (p_sz pa)).
Notation mine := (p_trapframe pa :: table_pages tab ++ uframes (mem d) tab n).

(** The parent's side of fork(). *)
Definition parent_kept (d' : kdata) (l' : list Z) : Prop :=
  pspace d' (p_pagetable pa) (p_trapframe pa) l' tab n /\ procs d' p = pa /\ (forall x, pte_at (mem d') tab x = pte_at (mem d) tab x) /\ forall q o, q ∈ mine -> 0 <= o < PGSIZE -> mem d' (q + o) = mem d (q + o).

Lemma mine_apart q : q ∈ l -> q mod PGSIZE = 0 /\ q ∉ mine.
Proof using Hf.
  destruct Hf as [_ _ _ [Htop _ _ Hown] _ _ _ _]. pose proof (to_up _ _ _ _ _ Htop) as U. destruct (up_vm _ _ _ _ _ U) as [_ [_ _ Hk] _ _]. rewrite Forall_forall in Hk.
  intros Hq. split; [apply (Hk q Hq)|]. intros [->|H]%elem_of_cons; [apply Hown; rewrite !elem_of_app; tauto|].
  pose proof (up_nodup _ _ _ _ _ U) as Hnd. rewrite app_assoc in Hnd. apply NoDup_app in Hnd as (_ & Hnd & _). by apply (Hnd q).
Qed.

Lemma parent_step d' l' : pstep (fun q => q ∈ l) (set_nextpid (i32 (nextpid d + 1)) d) d' -> procs d' p = pa -> kmem_ok d' l' -> (forall q, q ∈ l' -> q ∈ l) -> parent_kept d' l'.
Proof using Hf.
  intros S Ep Hk Hl. set (dn := set_nextpid _ d) in *.
  assert (pspace dn (p_pagetable pa) (p_trapframe pa) l tab n) as Hsp by (eapply pspace_ext; [..|apply (fk_space _ _ _ _ _ Hf)]; done).
  destruct (pspace_keep _ dn d' _ _ l l' tab n Hsp S) as (H1 & H2 & H3).
  - intros q Hq. destruct (mine_apart q Hq) as [Ha Hb]. split; [done|]. intros H. apply Hb. by constructor.
  - done.
  - intros q Hq. by apply mine_apart, Hl.
  - split_and!; [done|done|done|]. intros q o Hq Ho. apply H3; [|done|done]. intros Hq2. by apply (mine_apart q Hq2).
Qed.

(** fork() once allocproc() has found slot [np]. *)
Section Child.
Context (np : nat) (d1 : kdata) (l1 : list Z) (tf root : Z) (tab1 : tables).
Notation dn := (set_nextpid (i32 (nextpid d + 1)) d).
Notation slot0 := (started (nextpid d) (ticks d) tf root (sy_forkret (syms d)) (procs d np)).
Hypothesis Hnp : p_state (procs d np) = UNUSED.
Hypothesis S1 : pstep (fun q => q ∈ l) dn d1.
Hypothesis E1 : procs d1 = (procs d).[np := slot0].
Hypothesis Hsp1 : pspace d1 root tf l1 tab1 0.
Hypothesis EA : l ≡ₚ tf :: table_pages tab1 ++ l1.
Hypothesis Hz : forall x, 0 <= x < TRAPFRAME -> pte_at (mem d1) tab1 x = 0.

Lemma np_ne : p <> np.
Proof using Hf Hnp. intros ->. by apply (fk_run _ _ _ _ _ Hf). Qed.

(** What the child has after uvmcopy(), [i] pages copied. *)
Record child_space (i : nat) (d2 : kdata) (l2 : list Z) (tab2 : tables) : Prop := {
  cs_step : pstep (fun q => q ∈ l) dn d2;
  cs_procs : procs d2 = procs d1;
  cs_space : pspace d2 root tf l2 tab2 i;
  cs_same : same_pages d tab d2 tab2 i;
  cs_free : l ≡ₚ tf :: table_pages tab2 ++ uframes (mem d2) tab2 i ++ l2;
}.

Lemma wp_copy_space Q :
  (forall r i d2 l2 tab2, r = 0 /\ i = n \/ r = -1 /\ i = 0%nat -> child_space i d2 l2 tab2 -> Q r [LK_proc np] d2) ->
  wp p [LK_proc np] (uvmcopy (p_pagetable pa) root (p_sz pa)) d1 Q.
Proof using All.
  intros HQ. pose proof (up_vm _ _ _ _ _ (to_up _ _ _ _ _ (ps_top _ _ _ _ _ _ Hsp1))) as V1. pose proof np_ne as Hne.
  destruct (parent_step d1 l1 S1) as (P1 & P2 & P3 & P4); [by rewrite E1, fupd_ne|apply V1|intros q Hq; rewrite EA; constructor 2; rewrite elem_of_app; by right|].
  assert (uframes (mem d1) tab n = uframes (mem d) tab n) as EU by (apply map_ext; intros a; unfold frame_of; by rewrite P3).
  eapply (wp_uvmcopy d1 (p_pagetable pa) root (p_trapframe pa) tf l1 tab tab1 n P1 Hsp1 Hz); [|lk_notin|apply (fk_sz _ _ _ _ _ Hf)|done|].
  { rewrite EU. intros q Hq Hq2. apply (mine_apart q); [|done]. rewrite EA. apply elem_of_cons in Hq2 as [->|H]; [by constructor|]. constructor 2. rewrite elem_of_app. by left. }
  intros r i d2 l2 tab2 Hr O2 Hsp2 Hsame EA2. apply (HQ r i d2 l2 tab2 Hr). destruct (pstep_only _ _ _ O2) as [S2 E2]. split; try done.
  - eapply pstep_trans; [exact S1|exact S2|done|]. cbv beta. intros q [H|H]; rewrite EA; constructor 2; rewrite elem_of_app; [by right|left]. by apply (elem_table_pages d1 root tab1 (vo_pt _ _ _ _ V1)).
  - intros k Hk. destruct (Hsame k Hk) as [H1 H2]. rewrite H1, P3. split; [done|]. intros o Ho. rewrite H2 by done. unfold frame_of. rewrite P3. apply P4; [|done].
    constructor 2. rewrite elem_of_app. right. apply elem_uframes. exists k. split; [destruct Hr as [[_ ->]|[_ ->]]; lia|done].
  - by rewrite EA, <- EA2.
Qed.

Lemma wp_fork_fail d2 l2 tab2 Q : child_space 0 d2 l2 tab2 ->
  (forall d3 l3, parent_kept d3 l3 -> l3 ≡ₚ l -> pstep (fun q => q ∈ l) dn d3 -> procs d3 = (procs d).[np := freed slot0] -> Q (-1) [] d3) ->
  wp p [LK_proc np] (freeproc np;; release (LK_proc np);; ret (-1)) d2 Q.
Proof using All.
  intros [C1 C2 C3 C4 C5] HQ. pose proof np_ne as Hne. destruct (fk_slots _ _ _ _ _ Hf np Hnp) as [_ Hsz0].
  apply wp_bind. eapply (wp_freeproc p [LK_proc np] np l2 _ d2); [lk_notin|rewrite (pstep_syms _ _ _ C1); apply (fk_end _ _ _ _ _ Hf)| |].
  - assert (p_sz (procs d2 np) = 0) as Esz by by rewrite C2, E1, fupd_eq. eapply (owns_all d2 _ l2 root tf tab2); [by rewrite C2, E1, fupd_eq|by rewrite C2, E1, fupd_eq|by rewrite Esz|by rewrite Esz].
  - assert (p_sz (procs d2 np) = 0) as -> by by rewrite C2, E1, fupd_eq. change (npg 0) with 0%nat. intros d3 l3 S3 E3 Hk3 P3. wp_run.
    assert (pstep (fun q => q ∈ l) dn d3) as S13.
    { eapply pstep_trans; [exact C1|exact S3|done|]. cbv beta. intros q Hq. rewrite C5, app_assoc. apply elem_of_cons in Hq as [->|Hq]; [by constructor|]. constructor 2. rewrite elem_of_app. by left. }
    assert (l3 ≡ₚ l) as E3l by (rewrite P3, C5; simpl; by rewrite <- app_assoc).
    apply (HQ d3 l3); [|done|done|by rewrite E3, C2, E1, fupd_eq, fupd_fupd]. apply parent_step; [done|by rewrite E3, fupd_ne, C2, E1, fupd_ne|done|intros q; by rewrite E3l].
Qed.

(** The rest of fork() after a successful uvmcopy(). *)
Definition fork_rest : M Z :=
  setp np (set_p_sz (p_sz pa));;
  let* mask := getp p p_mask in
  setp np (set_p_mask mask);;
  let* prio := getp p p_priority in
  setp np (set_p_priority prio);;
  setp np (set_p_tickcounter 0);;
  setp np (set_p_average_bursttime (QUANTUM * 100));;
  copy_trapframe np p;;
  set_tf np tf_a0 0;;
  forM (seq 0 NOFILE) (fun i =>
    let* f := getp p (fun q => p_ofile q i) in
    match f with
    | Some f => let* g := filedup f in setp np (fun q => set_p_ofile (p_ofile q).[i := Some g] q)
    | None => ret tt
    end);;
  let* cwd := getp p p_cwd in
  let* cwd := deref cwd in
  let* ip := idup cwd in
  setp np (set_p_cwd (Some ip));;
  let* name := getp p p_name in
  setp np (fun q => set_p_name (safestrcpy (p_name q) 0 name 0 16) q);;
  let* pid := getp np p_pid in
  release (LK_proc np);;
  acquire LK_wait;;
  setp np (set_p_parent (Some p));;
  release LK_wait;;
  acquire (LK_proc np);;
  setp np (set_p_state RUNNABLE);;
  let* t := gets ticks in
  setp np (set_p_readyTime t);;
  release (LK_proc np);;
  ret pid.

(** The state while the child is filled in: its slot, the memory, the files and the
    file system, the rest as in [d2]. *)
Definition filling (d2 : kdata) (g : proc) (mm : bytes) (ff : nat -> file) (x : fsdata) : kdata :=
  set_fs x (set_files ff (set_procs (procs d2).[np := g] (set_mem mm d2))).

Lemma filling_init d2 : d2 = filling d2 (procs d2 np) (mem d2) (files d2) (fs d2).
Proof using. unfold filling. rewrite fupd_id. by destruct d2. Qed.

Lemma filling_upd d2 g mm ff x h : upd_proc np h (filling d2 g mm ff x) = filling d2 (h g) mm ff x.
Proof using. unfold upd_proc, filling. cbn [procs set_fs set_files set_procs]. by rewrite fupd_eq, fupd_fupd. Qed.

Lemma filling_np d2 g mm ff x : procs (filling d2 g mm ff x) np = g.
Proof using. unfold filling. cbn [procs set_fs set_files set_procs]. apply fupd_eq. Qed.

Lemma filling_p d2 g mm ff x : procs d2 = procs d1 -> procs (filling d2 g mm ff x) p = pa.
Proof using Hf Hnp E1. intros E. pose proof np_ne. unfold filling. cbn [procs set_fs set_files set_procs]. rewrite fupd_ne, E, E1, fupd_ne by done. done. Qed.

Lemma filling_sets d2 g mm ff x : (forall m', set_mem m' (filling d2 g mm ff x) = filling d2 g m' ff x) /\
  (forall f', set_files f' (filling d2 g mm ff x) = filling d2 g mm f' x) /\ (forall h, upd_fs h (filling d2 g mm ff x) = filling d2 g mm ff (h x)).
Proof using. done. Qed.

Lemma filling_gets d2 g mm ff x : mem (filling d2 g mm ff x) = mm /\ files (filling d2 g mm ff x) = ff /\ ticks (filling d2 g mm ff x) = ticks d2.
Proof using. done. Qed.

(** Running fork()'s updates of the child. *)
#[local] Ltac fill_run := repeat (wp_step; rewrite ?filling_upd, ?filling_np, ?filling_p, ?(proj1 (filling_sets _ _ _ _ _)), ?(proj1 (filling_gets _ _ _ _ _)) by done).

Lemma wp_fork_rest d2 l2 tab2 Q : child_space n d2 l2 tab2 ->
  let mm := st64 (memmove (mem d2) tf (p_trapframe pa) sizeof_trapframe) (tf + tf_a0) 0 in
  Q (nextpid d) [] (filling d2 (forked p pa (ticks d) slot0) mm (fun f => set_f_ref (f_ref (files d f) + fd_refs pa NOFILE f) (files d f))
     (set_inodes (inodes (fs d)).[ip := set_i_ref (i_ref (inodes (fs d) ip) + 1) (inodes (fs d) ip)] (fs d))) ->
  wp p [LK_proc np] fork_rest d2 Q.
Proof using All.
  intros [C1 C2 C3 C4 C5] mm HQ. pose proof np_ne as Hne. unfold fork_rest, copy_trapframe, set_tf, setmem. rewrite (filling_init d2).
  assert (procs d2 np = slot0) as E2 by by rewrite C2, E1, fupd_eq. assert (files d2 = files d /\ fs d2 = fs d /\ ticks d2 = ticks d) as (Ef & Ex & Et) by by rewrite (pst_rest _ _ _ C1).
  fill_run. cbn [p_trapframe set_p_average_bursttime set_p_tickcounter set_p_priority set_p_mask set_p_sz]. rewrite E2. change (p_trapframe slot0) with tf. fold mm.
  apply wp_dup_loop; [done|rewrite filling_p by done; intros fd f; rewrite (proj1 (proj2 (filling_gets _ _ _ _ _))), Ef; apply (fk_files _ _ _ _ _ Hf)|].
  rewrite filling_p, filling_upd, (proj1 (proj2 (filling_sets _ _ _ _ _))), (proj1 (proj2 (filling_gets _ _ _ _ _))) by done. unfold idup, setino, setfs.
  fill_run. rewrite (fk_cwd _ _ _ _ _ Hf). cbn [deref]. fill_run.
  rewrite ?(proj2 (proj2 (filling_sets _ _ _ _ _))), ?filling_upd, ?filling_p, ?filling_upd, ?filling_np, ?(proj2 (proj2 (filling_gets _ _ _ _ _))), ?filling_upd, Et, Ef, Ex by done.
  assert (p_pid slot0 = nextpid d) as Epid by done. assert (p_cwd pa = Some ip) as Ecwd by apply (fk_cwd _ _ _ _ _ Hf). unfold forked in HQ. rewrite Ecwd in HQ.
  clear -HQ Epid. revert HQ Epid. generalize slot0. generalize (nextpid d). intros i0 q0 HQ <-.
  rewrite (dup_files_eq pa (set_p_average_bursttime (QUANTUM * 100) (set_p_tickcounter 0 (set_p_priority (p_priority pa) (set_p_mask (p_mask pa) (set_p_sz (p_sz pa) q0))))) q0 NOFILE eq_refl). exact HQ.
Qed.

(** The bytes of the trapframe: the parent's, with 0 in a0. *)
Lemma tf_bytes mm0 o : 0 <= o < sizeof_trapframe ->
  st64 (memmove mm0 tf (p_trapframe pa) sizeof_trapframe) (tf + tf_a0) 0 (tf + o) = if decide (tf_a0 <= o < tf_a0 + 8) then 0 else mm0 (p_trapframe pa + o).
Proof using.
  clear. intros Ho. case_decide.
  - unfold st64, stn. case_range; [|lia]. rewrite Z.div_0_l; [done|]. apply Z.pow_nonzero; lia.
  - rewrite st64_out by lia. unfold memmove, memcopy. case_range; [|lia]. f_equal. lia.
Qed.

Lemma filled d2 l2 tab2 g ff x : child_space n d2 l2 tab2 ->
  let d3 := filling d2 g (st64 (memmove (mem d2) tf (p_trapframe pa) sizeof_trapframe) (tf + tf_a0) 0) ff x in
  parent_kept d3 l2 /\ pspace d3 root tf l2 tab2 n /\ same_pages d tab d3 tab2 n /\ l ≡ₚ tf :: table_pages tab2 ++ uframes (mem d3) tab2 n ++ l2 /\
  forall o, 0 <= o < sizeof_trapframe -> mem d3 (tf + o) = if decide (tf_a0 <= o < tf_a0 + 8) then 0 else mem d (p_trapframe pa + o).
Proof using All.
  intros [C1 C2 C3 C4 C5] d3. set (mm := st64 _ _ _) in *. pose proof np_ne as Hne. set (dm := set_procs (procs d2).[np := g] (set_mem mm d2)).
  pose proof (up_vm _ _ _ _ _ (to_up _ _ _ _ _ (ps_top _ _ _ _ _ _ C3))) as V2.
  assert (tf ∈ l) as Htfl by (rewrite C5; by constructor).
  assert (pstep (fun q => q = tf) d2 dm) as Sm.
  { split; [by destruct d2|]. intros a Ha. specialize (Ha tf eq_refl). unfold dm, mm, PGSIZE, sizeof_trapframe, tf_a0 in *. cbn [mem set_procs set_mem]. rewrite st64_out by lia. unfold memmove, memcopy. case_range; [lia|done]. }
  destruct C3 as [Ct Cf Cp Co]. assert (kmem_ok dm l2) as Hkm.
  { eapply kmem_ok_frame; [apply V2|done|done|]. intros q a Hq Ha. apply (pst_mem _ _ _ Sm). apply (off_pages_apart _ q); [apply (mine_apart q); rewrite C5, !elem_of_cons, !elem_of_app; tauto|done|].
    intros y ->. split; [apply Cp|]. intros ->. apply Co. rewrite !elem_of_app. tauto. }
  destruct (pspace_keep (fun q => q = tf) d2 dm root tf l2 l2 tab2 n) as (H1 & H2 & H3); [by split|done| |done| |].
  { intros q ->. split; [apply Cp|]. intros H. apply Co. rewrite app_assoc, elem_of_app. by left. }
  { intros q Hq [->|H]%elem_of_cons; [apply Co; rewrite !elem_of_app; tauto|]. pose proof (up_nodup _ _ _ _ _ (to_up _ _ _ _ _ Ct)) as Hnd. rewrite app_assoc in Hnd. apply NoDup_app in Hnd as (_ & Hnd & _). by apply (Hnd q). }
  assert (uframes (mem d3) tab2 n = uframes (mem d2) tab2 n) as EU by (apply map_ext; intros a; unfold frame_of; f_equal; apply H2).
  assert (parent_kept dm l2) as Hpk.
  { apply parent_step; [|unfold dm; cbn [procs set_procs]; by rewrite fupd_ne, C2, E1, fupd_ne|done|intros q Hq; rewrite C5, !elem_of_cons, !elem_of_app; tauto].
    eapply pstep_trans; [exact C1|exact Sm|done|by intros q ->]. }
  split_and!; [|by eapply pspace_ext; [..|exact H1]| |by rewrite EU|].
  - destruct Hpk as (P1 & P2 & P3 & P4). split_and!; [by eapply pspace_ext; [..|exact P1]|exact P2|exact P3|exact P4].
  - intros k Hk. destruct (C4 k Hk) as [D1 D2]. unfold frame_of. change (mem d3) with (mem dm). rewrite H2. split; [done|]. intros o Ho. rewrite <- D2 by done. apply H3; [|constructor 2; rewrite elem_of_app; right; apply elem_uframes; eauto|done].
    fold (frame_of (mem d2) tab2 (page k)). intros E. apply Co. rewrite <- E, !elem_of_app. right. left. apply elem_uframes. eauto.
  - intros o Ho. change (mem d3) with mm. unfold mm. rewrite tf_bytes by done. case_decide; [done|]. assert (mem d2 (p_trapframe pa + o) = mem d (p_trapframe pa + o)) as ->; [|done].
    destruct (parent_step d2 l2 C1) as (_ & _ & _ & P4); [by rewrite C2, E1, fupd_ne|apply V2|intros q Hq; rewrite C5, !elem_of_cons, !elem_of_app; tauto|].
    apply P4; [by constructor|]. unfold sizeof_trapframe, PGSIZE in *. lia.
Qed.
End Child.
End Fork.

(** What the slot [slot] becomes when the process [pa], in slot [p], forks at time [t]. *)
Record child_of (p : nat) (pa slot : proc) (pid t tf root : Z) (c : proc) : Prop := {
  co_state : p_state c = RUNNABLE;
  co_parent : p_parent c = Some p;
  co_pid : p_pid c = pid;
  co_mem : p_trapframe c = tf /\ p_pagetable c = root /\ p_sz c = p_sz pa;
  co_files : forall fd, (fd < NOFILE)%nat -> p_ofile c fd = match p_ofile pa fd with Some f => Some f | None => p_ofile slot fd end;
  co_cwd : p_cwd c = p_cwd pa;
  co_name : p_name c = safestrcpy (p_name slot) 0 (p_name pa) 0 16;
  co_trace : p_mask c = p_mask pa;
  co_prio : p_priority c = p_priority pa;
  co_burst : p_average_bursttime c = QUANTUM * 100 /\ p_tickcounter c = 0;
  co_times : p_ctime c = i32 t /\ p_readyTime c = t /\ p_rutime c = 0 /\ p_retime c = p_retime slot /\ p_stime c = p_stime slot;
}.

Lemma child_of_forked p pa pid t tf root fr q : child_of p pa q pid t tf root (forked p pa t (started pid t tf root fr q)).
Proof. split; try done. intros fd Hfd. change (p_ofile (forked _ _ _ _) fd) with (dup_files pa q NOFILE fd). unfold dup_files. by rewrite decide_True. Qed.

(** A fork() that failed: the allocator has all its pages, and only a slot that was
    free and stays free has changed. *)
Definition fork_nothing (d : kdata) (l : list Z) (d' : kdata) (l' : list Z) : Prop :=
  l' ≡ₚ l /\ files d' = files d /\ fs d' = fs d /\
  forall i, procs d' i = procs d i \/ (p_state (procs d i) = UNUSED /\ p_state (procs d' i) = UNUSED /\ p_pagetable (procs d' i) = 0 /\ p_trapframe (procs d' i) = 0).

(** A fork() into slot [np]. *)
Definition fork_child (p : nat) (d : kdata) (l : list Z) (tab : tables) (ip : nat) (np : nat) (d' : kdata) (l' : list Z) : Prop :=
  let pa := procs d p in let n := npg (p_sz pa) in
  exists tf root tabc,
    child_of p pa (procs d np) (nextpid d) (ticks d) tf root (procs d' np) /\ (forall i, i <> np -> procs d' i = procs d i) /\
    pspace d' root tf l' tabc n /\ same_pages d tab d' tabc n /\ l ≡ₚ tf :: table_pages tabc ++ uframes (mem d') tabc n ++ l' /\
    (forall o, 0 <= o < sizeof_trapframe -> mem d' (tf + o) = if decide (tf_a0 <= o < tf_a0 + 8) then 0 else mem d (p_trapframe pa + o)) /\
    (forall f, files d' f = set_f_ref (f_ref (files d f) + fd_refs pa NOFILE f) (files d f)) /\
    fs d' = set_inodes (inodes (fs d)).[ip := set_i_ref (i_ref (inodes (fs d) ip) + 1) (inodes (fs d) ip)] (fs d).

Lemma wp_fork p d l tab ip : forkable p d l tab ip ->
  wp p [] fork d (fun r hl d' => hl = [] /\ exists l', parent_kept p d tab d' l' /\
    (r = -1 /\ fork_nothing d l d' l' \/ exists np, find (unused d) all_procs = Some np /\ r = nextpid d /\ fork_child p d l tab ip np d' l')).
Proof.
  intros Hf. pose proof Hf as [F1 F2 F3 F4 F5 F6 F7 F8]. unfold fork. wp_run.
  apply (wp_allocproc p d l); [done|apply (up_vm _ _ _ _ _ (to_up _ _ _ _ _ (ps_top _ _ _ _ _ _ F4)))|done|done|..].
  - intros _. wp_run. split; [done|]. exists l. split; [by split_and!|]. left. split; [done|]. split_and!; try done. by left.
  - intros np Efind Hnp dn. split.
    + intros d' l' S E Hk P. wp_run. assert (p <> np) as Hne by (intros ->; done). split; [done|]. exists l'.
      split; [apply (parent_step p d l tab ip Hf); [done|by rewrite E, fupd_ne|done|intros q; by rewrite P]|]. left. split; [done|].
      split_and!; [done|by rewrite (pst_rest _ _ _ S)|by rewrite (pst_rest _ _ _ S)|]. intros i. rewrite E. unfold fupd. case_decide as Hi; [subst; by right|by left].
    + intros d1 l1 tf root tab1 S1 E1 Hsp1 EA Hz. assert (p <> np) as Hne by (intros ->; done). wp_run. rewrite E1, fupd_eq, fupd_ne by done. change (p_pagetable (started _ _ _ _ _ _)) with root.
      eapply (wp_copy_space p d l tab ip Hf np d1 l1 tf root tab1); try done. intros r i d2 l2 tab2 Hr C. destruct Hr as [[-> ->]|[-> ->]].
      * change (0 <? 0) with false. cbv iota. fold (fork_rest p d np). eapply (wp_fork_rest p d l tab ip Hf np d1 l1 tf root tab1); try done. split; [done|]. exists l2.
        destruct (filled p d l tab ip Hf np d1 l1 tf root tab1 Hnp S1 E1 Hsp1 EA Hz d2 l2 tab2 (forked p (procs d p) (ticks d) (started (nextpid d) (ticks d) tf root (sy_forkret (syms d)) (procs d np)))
          (fun f => set_f_ref (f_ref (files d f) + fd_refs (procs d p) NOFILE f) (files d f))
          (set_inodes (inodes (fs d)).[ip := set_i_ref (i_ref (inodes (fs d) ip) + 1) (inodes (fs d) ip)] (fs d)) C) as (G1 & G2 & G3 & G4 & G5).
        split; [exact G1|]. right. exists np. split; [done|]. split; [done|]. exists tf, root, tab2. split_and!; [|  |exact G2|exact G3|exact G4|exact G5|done|done].
        -- rewrite filling_np. apply child_of_forked.
        -- intros j Hj. unfold filling. cbn [procs set_fs set_files set_procs]. rewrite fupd_ne, (cs_procs _ _ _ _ _ _ _ _ _ _ C), E1, fupd_ne by done. done.
      * change (-1 <? 0) with true. cbv iota. eapply (wp_fork_fail p d l tab ip Hf np d1 l1 tf root tab1); try done. intros d3 l3 P3 E3l S3 E3. split; [done|]. exists l3. split; [done|]. left. split; [done|].
        split_and!; [done|by rewrite (pst_rest _ _ _ S3)|by rewrite (pst_rest _ _ _ S3)|]. intros j. rewrite E3. unfold fupd. case_decide as Hj; [subst; by right|by left].
Qed.
