(* ===== verification/ProcThm.v ===== *)
(** * Address spaces of processes, resizing and reaping (kernel/proc.c)

    growproc() behind sbrk(), and wait() with its performance record, on top of the
    accounting of pages of [UvmGrow] and [ProcSpec]; concrete states for fork(). *)

From S2P Require Import Prelude State Spinlock CString Kalloc Sched SchedSpec Vm VmSpec ProcMem Wp UvmSpec UvmGrow Sleeplock Fs File Proc ProcSpec.
Open Scope Z_scope.

(** ** growproc *)

(** The first [n] user pages are mapped where they were and hold what they held. *)
Definition kept_pages (d : kdata) (tab : tables) (d' : kdata) (tab' : tables) (n : nat) : Prop :=
  forall k, (k < n)%nat -> pte_at (mem d') tab' (page k) = pte_at (mem d) tab (page k) /\
    forall o, 0 <= o < PGSIZE -> mem d' (frame_of (mem d) tab (page k) + o) = mem d (frame_of (mem d) tab (page k) + o).

(** User pages are apart from the page tables and from the free pages. *)
Lemma user_mem (P : Z -> Prop) d root tf l tab n d' k o : pspace d root tf l tab n -> (k < n)%nat -> 0 <= o < PGSIZE -> only_pages P d d' ->
  (forall q, P q -> owned tab q \/ q ∈ l \/ exists j, (j < n)%nat /\ (j <> k)%nat /\ q = frame_of (mem d) tab (page j)) ->
  mem d' (frame_of (mem d) tab (page k) + o) = mem d (frame_of (mem d) tab (page k) + o).
Proof.
  intros [[U _ _ _] _ _ _] Hk Ho O HP. destruct U as [V L Hnd _]. destruct (L k Hk) as [_ [Hal _]]. assert (frame_of (mem d) tab (page k) ∈ uframes (mem d) tab n) as Hin by (apply elem_uframes; by exists k).
  eapply only_mem; [exact O|done| |done]. intros x Hx. pose proof (HP x Hx) as Hx'. split.
  - destruct Hx' as [[y H]|[H|(j & Hj & _ & ->)]]; [apply (pt_page _ _ _ (vo_pt _ _ _ _ V) _ _ H)| |apply (L j Hj)]. destruct (vo_kmem _ _ _ _ V) as [_ _ Hf]. rewrite Forall_forall in Hf. apply (Hf x H).
  - intros ->. apply NoDup_app in Hnd as (_ & N1 & N2). apply NoDup_app in N2 as (N2 & N3 & _). destruct Hx' as [H|[H|(j & Hj & Hne & E)]].
    + apply (N1 (frame_of (mem d) tab (page k))); [by apply (elem_table_pages d root tab (vo_pt _ _ _ _ V))|]. rewrite elem_of_app. by left.
    + by apply (N3 _ Hin).
    + apply Hne. unfold uframes, npages_from in N2. rewrite map_map in N2. symmetry.
      apply (NoDup_lookup _ k j (frame_of (mem d) tab (page k)) N2); rewrite list_lookup_fmap, lookup_seq_lt by done; [|rewrite E]; apply (f_equal Some), (f_equal (frame_of (mem d) tab)); lia.
Qed.

Lemma grown_kept d root tf l tab n k d' l' tab' : pspace d root tf l tab n -> grown root tf d l tab n k d' l' tab' -> kept_pages d tab d' tab' n.
Proof.
  intros Hsp G j Hj. split; [apply G; unfold PGSIZE; lia|]. intros o Ho. eapply user_mem; [exact Hsp|done|done|exact (gr_only _ _ _ _ _ _ _ _ _ _ G)|]. cbv beta. tauto.
Qed.

Lemma shrunk_kept d root tf l tab n j d' l' : pspace d root tf l tab n -> (j <= n)%nat -> shrunk d root tf l tab n j d' l' -> kept_pages d tab d' tab j.
Proof.
  intros Hsp Hjn S k Hk. split; [apply S; unfold PGSIZE; lia|]. intros o Ho. eapply (user_mem _ d root tf l tab n); [exact Hsp|lia|done|exact (sh_only _ _ _ _ _ _ _ _ _ S)|]. cbv beta.
  intros q [H|H]; [by left|]. right; right. replace n with (j + (n - j))%nat in H by lia. apply elem_topframes in H as (i & Hi & ->). exists i. split_and!; [lia|lia|done].
Qed.

Section Growproc.
Context (p : nat) (d : kdata) (l : list Z) (tab : tables).
Notation q := (procs d p).
Hypothesis Hsp : pspace d (p_pagetable q) (p_trapframe q) l tab (npg (p_sz q)).
Hypothesis Hsz : 0 <= p_sz q < 2 ^ 32.

(** [k] zeroed pages were added, [d1] being the kernel without the change of size. *)
Definition sized_up (k : nat) (d1 : kdata) (l' : list Z) (tab' : tables) : Prop :=
  grown (p_pagetable q) (p_trapframe q) d l tab (npg (p_sz q)) k d1 l' tab' /\ kept_pages d tab d1 tab' (npg (p_sz q)).

(** The pages above the size [sz] are free again. *)
Definition sized_down (sz : Z) (d1 : kdata) (l' : list Z) : Prop :=
  shrunk d (p_pagetable q) (p_trapframe q) l tab (npg (p_sz q)) (npg sz) d1 l' /\ kept_pages d tab d1 tab (npg sz).

Lemma wp_growproc n Q : -2 ^ 31 <= n < 2 ^ 31 -> p_sz q + n < 2 ^ 32 ->
  (forall d1 l' tab', 0 < n -> sized_up (npg (p_sz q + n) - npg (p_sz q)) d1 l' tab' -> Q 0 [] (upd_proc p (set_p_sz (p_sz q + n)) d1)) ->
  (forall d1 l' tab', 0 < n -> sized_up 0 d1 l' tab' -> Q (-1) [] d1) ->
  (forall sz d1 l', n <= 0 -> sz = (if decide (p_sz q + n < 0) then p_sz q else p_sz q + n) -> sized_down sz d1 l' -> Q 0 [] (upd_proc p (set_p_sz sz) d1)) ->
  wp p [] (growproc n) d Q.
Proof using All.
  intros Hn Hb Hup Hfail Hdown. destruct TRAPFRAME_eq as [E1 E2]. unfold growproc. wp_run. rewrite (u32_small (p_sz q)) by lia. destruct (Z.ltb_spec 0 n) as [H0|H0].
  - rewrite (u32_small (p_sz q + n)) by lia. apply wp_bind, wp_kmem; [lk_notin|]. intros e m Hm Hl.
    destruct (uvmalloc_run (p_pagetable q) (p_trapframe q) d l tab (p_sz q) (p_sz q + n) e m Hsp) as (m' & d1 & l' & tab' & Hm' & [[R G]|[R G]]); [lia|unfold npg, PGSIZE in *; Z.to_euclidean_division_equations; lia|done|done|..].
    + exists (p_sz q + n), m', d1. split; [done|]. split; [done|]. rewrite u32_small by lia. rewrite (proj2 (Z.eqb_neq _ _)) by lia. wp_run. eapply Hup; [lia|]. split; [exact G|by eapply grown_kept].
    + exists 0, m', d1. split; [done|]. split; [done|]. change (u32 0 =? 0) with true. cbv iota. wp_run. eapply Hfail; [lia|]. split; [exact G|by eapply grown_kept].
  - destruct (Z.ltb_spec n 0) as [H1|H1].
    + apply wp_bind, wp_kmem; [lk_notin|]. intros e m Hm Hl.
      destruct (uvmdealloc_run d (p_pagetable q) (p_trapframe q) l tab (p_sz q) (u32 (p_sz q + n)) e m Hm Hl) as (m' & d1 & l' & R & Hm' & S); [lia|pose proof (u32_range (p_sz q + n)); lia|done|].
      exists (Z.min (p_sz q) (u32 (p_sz q + n))), m', d1. split; [done|]. split; [done|]. wp_run.
      assert (Z.min (p_sz q) (u32 (p_sz q + n)) = if decide (p_sz q + n < 0) then p_sz q else p_sz q + n) as EM.
      { case_decide as Hd; [|rewrite u32_small by lia; lia]. unfold u32. replace (p_sz q + n) with (p_sz q + n + 2 ^ 32 + -1 * 2 ^ 32) by lia. rewrite Z.mod_add by lia. rewrite Z.mod_small by lia. lia. }
      rewrite EM in *. rewrite u32_small by (case_decide; lia). eapply Hdown; [lia|done|]. split; [exact S|]. eapply shrunk_kept; [exact Hsp| |exact S]. apply npg_mono. case_decide; lia.
    + assert (n = 0) as -> by lia. wp_run. eapply Hdown; [lia|by rewrite decide_False, Z.add_0_r by lia|]. split; [by apply shrunk_refl|done].
Qed.
End Growproc.

(** ** A process with one user page *)

(** Twenty free pages above the kernel, and process 1 with the page below them as trapframe. *)
Definition pg0 (k : nat) : Z := 0x80100000 + page k.
Definition given (n : nat) : kdata := fold_right (fun k d => kfree_d (pg0 (S k)) d) kdata0 (seq 0 n).
Definition bare : kdata :=
  upd_proc 1 (fun q => set_p_priority NORMAL_PRIORITY (set_p_cwd (Some 0%nat) (set_p_state RUNNING (set_p_trapframe (pg0 0) q)))) (given 20).

Definition out_of {A} (r : out A) (a : A) : A * kdata := match r with Ret a _ s => (a, kd s) | Stop _ s => (a, kd s) end.
Definition tabled : Z * kdata := out_of (proc_pagetable 1 [] (mkK machine1 bare)) 0.
Definition paged : Z * kdata := out_of (uvmalloc (fst tabled) 0 PGSIZE [] (mkK machine1 (snd tabled))) 0.
Definition one_page : kdata := upd_proc 1 (fun q => set_p_sz PGSIZE (set_p_pagetable (fst tabled) q)) (snd paged).

Lemma given_ok n : (n < 1000)%nat -> kmem_ok (given n) (map (fun k => pg0 (S k)) (seq 0 n)) /\ syms (given n) = syms0 /\ procs (given n) = procs kdata0.
Proof.
  intros Hn. unfold given. assert (NoDup (seq 0 n)) as Hnd by apply NoDup_seq. assert (Forall (fun k => k < 1000)%nat (seq 0 n)) as Hf by (apply Forall_seq; lia).
  induction (seq 0 n) as [|k ks IH]; cbn [fold_right map]; [split; [apply kdata0_kmem_ok|done]|].
  apply NoDup_cons in Hnd as [Hk Hnd]. apply Forall_cons in Hf as [Hlt Hf]. destruct (IH Hnd Hf) as (H1 & H2 & H3). split; [|done]. apply kfree_d_ok; [by rewrite H2|done| |].
  - unfold page_ok. rewrite H2. split; [unfold pg0, PGSIZE; Z.to_euclidean_division_equations; lia|]. unfold pg0, PHYSTOP, KERNBASE, PGSIZE. simpl sy_end. lia.
  - intros (j & E & Hj)%list_elem_of_In%in_map_iff. apply Hk. apply list_elem_of_In. by replace k with j by (unfold pg0, PGSIZE in E; lia).
Qed.

#[local] Opaque given.

Lemma upd_syms p f d : syms (upd_proc p f d) = syms d.
Proof. done. Qed.

Lemma upd_procs p f d : procs (upd_proc p f d) = (procs d).[p := f (procs d p)].
Proof. done. Qed.

Lemma only_procs P d d' : only_pages P d d' -> procs d' = procs d /\ syms d' = syms d.
Proof. by intros [-> _]. Qed.

Lemma kmem_upd p f d l : kmem_ok d l -> kmem_ok (upd_proc p f d) l.
Proof. by apply kmem_ext. Qed.

Lemma pspace_upd p f d root tf l tab n : pspace d root tf l tab n -> pspace (upd_proc p f d) root tf l tab n.
Proof. by apply pspace_ext. Qed.

Lemma bare_ok : exists l, kmem_ok bare l /\ pg0 0 ∉ l.
Proof.
  destruct (given_ok 20 ltac:(lia)) as (H & _). exists (map (fun k => pg0 (S k)) (seq 0 20)). split; [by apply kmem_upd|].
  intros (k & E & _)%list_elem_of_In%in_map_iff. unfold pg0, PGSIZE in E. lia.
Qed.

Lemma bare_syms : syms bare = syms0.
Proof. destruct (given_ok 20 ltac:(lia)) as (_ & H & _). unfold bare. by rewrite upd_syms. Qed.

Lemma bare_procs : procs bare = (procs kdata0).[1%nat := set_p_priority NORMAL_PRIORITY (set_p_cwd (Some 0%nat) (set_p_state RUNNING (set_p_trapframe (pg0 0) proc0)))].
Proof. destruct (given_ok 20 ltac:(lia)) as (_ & _ & H). unfold bare. by rewrite upd_procs, H. Qed.

#[local] Opaque bare.

Lemma tabled_ok : exists l tab, pspace (snd tabled) (fst tabled) (pg0 0) l tab 0 /\ only_pages (fun _ => True) bare (snd tabled).
Proof.
  destruct bare_ok as (l & Hk & Hn). pose proof bare_syms as Es. destruct (proc_pagetable_run bare 1 (pg0 0) l [] machine1) as (r & m' & d' & l' & R & _ & O & H);
    [apply quiet1|apply quiet1|by rewrite Es|exact Hk|by rewrite bare_procs| |exact Hn|by rewrite Es|by rewrite Es|].
  { unfold page_ok. rewrite Es. split; [done|]. unfold pg0, PHYSTOP, KERNBASE, PGSIZE. cbn [sy_end syms0]. lia. }
  assert (tabled = (r, d')) as E by (unfold tabled; rewrite R; reflexivity). clear R. assert (fst tabled <> 0) as Hne by by vm_compute. rewrite E in *.
  destruct H as [(-> & _)|(_ & tab & Hs & _)]; [by destruct Hne|]. exists l', tab. split; [exact Hs|]. eapply only_pages_mono; [|exact O]. done.
Qed.

#[local] Opaque tabled.

Lemma one_page_ok : exists l tab, pspace one_page (fst tabled) (pg0 0) l tab 1 /\ only_pages (fun _ => True) bare (snd paged).
Proof.
  destruct tabled_ok as (l & tab & Hs & O). destruct (uvmalloc_run (fst tabled) (pg0 0) (snd tabled) l tab 0 PGSIZE [] machine1 Hs) as (m' & d' & l' & tab' & _ & H);
    [unfold PGSIZE; lia|vm_compute; congruence|apply quiet1|apply quiet1|]. assert (fst paged = PGSIZE) as Hp by by vm_compute. destruct H as [[R G]|[R G]].
  - assert (paged = (PGSIZE, d')) as E by (unfold paged; rewrite R; reflexivity). exists l', tab'. unfold one_page. rewrite E. split; [apply pspace_upd, G|].
    eapply only_pages_mono; [|eapply only_pages_trans; [exact O|exact (gr_only _ _ _ _ _ _ _ _ _ _ G)]]. clear. done.
  - exfalso. assert (paged = (0, d')) as E by (unfold paged; rewrite R; reflexivity). rewrite E in Hp. clear - Hp. done.
Qed.

#[local] Opaque paged.

Lemma one_page_proc : procs one_page = (procs bare).[1%nat := set_p_sz PGSIZE (set_p_pagetable (fst tabled) (procs bare 1%nat))] /\ syms one_page = syms0.
Proof.
  destruct one_page_ok as (_ & _ & _ & O). unfold one_page. rewrite upd_syms, upd_procs. destruct (only_procs _ _ _ O) as [-> ->]. split; [done|apply bare_syms].
Qed.

#[local] Opaque one_page.

Lemma one_page_forkable : exists l tab, forkable 1 one_page l tab 0.
Proof.
  destruct one_page_ok as (l & tab & Hs & _). exists l, tab. destruct one_page_proc as [E1 E2]. rewrite bare_procs in E1. revert Hs E1 E2. generalize one_page (fst tabled). intros d rt Hs E1 E2.
  split; rewrite ?E1, ?E2, ?fupd_eq; [done|done|done|exact Hs|done| |done|done]. intros i. unfold fupd. by repeat case_decide.
Qed.

(** ** fork and growproc *)

(** C4: fork().  The first free slot becomes a RUNNABLE child with a new pid: it has
    the parent's user memory, byte for byte and with the same permissions, in frames
    of its own, the parent's saved registers with a0 = 0, the parent's open files and
    working directory, whose reference counts have gone up, and its trace mask and
    priority; the parent is unchanged.  Without a free slot or enough memory fork()
    returns -1 and every page it took is back with the allocator.  The pages of the
    child and the free pages are together the pages that were free before. *)
Theorem fork_copies p m e d l tab ip (Hq : quiet p m) (Hf : forkable p d l tab ip) :
  exists r m' d' l', fork e (mkK m d) = Ret r e (mkK m' d') /\ msame m m' /\ parent_kept p d tab d' l' /\
    (r = -1 /\ fork_nothing d l d' l' \/
     exists np, find (unused d) all_procs = Some np /\ r = nextpid d /\ fork_child p d l tab ip np d' l').
Proof.
  destruct (wp_fork p d l tab ip Hf m m e Hq (msame_refl _)) as (r & hl & m' & d' & E & Hs & -> & l' & H). by exists r, m', d', l'.
Qed.

Lemma fork_copies_witness : exists l tab np m' d' l',
  fork [] (mkK machine1 one_page) = Ret (nextpid one_page) [] (mkK m' d') /\ parent_kept 1 one_page tab d' l' /\
  find (unused one_page) all_procs = Some np /\ fork_child 1 one_page l tab 0 np d' l'.
Proof.
  destruct one_page_forkable as (l & tab & Hf). assert (fst (out_of (fork [] (mkK machine1 one_page)) 0) = 1) as Hr by (vm_compute; reflexivity).
  destruct (fork_copies 1 machine1 [] one_page l tab 0 quiet1 Hf) as (r & m' & d' & l' & R & _ & H & [[E _]|(np & H1 & E & H2)]); rewrite E in R.
  - rewrite R in Hr. discriminate Hr.
  - exists l, tab, np, m', d', l'. exact (conj R (conj H (conj H1 H2))).
Defined.

(** C20: growproc() for sbrk().  With n > 0 either the process has n bytes more, every
    added page zeroed and mapped readable, writable and executable for the user, or
    it returns -1 with no page added and the size unchanged; with n <= 0 the pages
    above the new size are free again, and a size that would be negative stays what
    it was.  The pages below both sizes keep their mappings and their bytes, and no
    page is lost: free pages, page tables and added pages are together the pages that
    were free or page tables before. *)
Theorem growproc_resizes p n m e d l tab (Hq : quiet p m) (Hsz : 0 <= p_sz (procs d p) < 2 ^ 32) (Hn : -2 ^ 31 <= n < 2 ^ 31) (Hb : p_sz (procs d p) + n < 2 ^ 32)
    (Hsp : pspace d (p_pagetable (procs d p)) (p_trapframe (procs d p)) l tab (npg (p_sz (procs d p)))) :
  let sz := p_sz (procs d p) in
  exists m' d1 l' tab', msame m m' /\
    (0 < n /\ growproc n e (mkK m d) = Ret 0 e (mkK m' (upd_proc p (set_p_sz (sz + n)) d1)) /\ sized_up p d l tab (npg (sz + n) - npg sz) d1 l' tab' \/
     0 < n /\ growproc n e (mkK m d) = Ret (-1) e (mkK m' d1) /\ sized_up p d l tab 0 d1 l' tab' \/
     n <= 0 /\ exists sz', sz' = (if decide (sz + n < 0) then sz else sz + n) /\
       growproc n e (mkK m d) = Ret 0 e (mkK m' (upd_proc p (set_p_sz sz') d1)) /\ sized_down p d l tab sz' d1 l').
Proof.
  intros sz.
  destruct (wp_growproc p d l tab Hsp Hsz n (fun r hl d' => hl = [] /\ exists d1 l' tab',
    (0 < n /\ r = 0 /\ d' = upd_proc p (set_p_sz (sz + n)) d1 /\ sized_up p d l tab (npg (sz + n) - npg sz) d1 l' tab' \/
     0 < n /\ r = -1 /\ d' = d1 /\ sized_up p d l tab 0 d1 l' tab' \/
     n <= 0 /\ exists sz', sz' = (if decide (sz + n < 0) then sz else sz + n) /\ r = 0 /\ d' = upd_proc p (set_p_sz sz') d1 /\ sized_down p d l tab sz' d1 l'))
    Hn Hb) with (m0 := m) (m := m) (e := e) as (r & hl & m' & d' & R & Hs & -> & d1 & l' & tab' & H); [..|exact Hq|apply msame_refl|].
  - intros d1 l' tab' H0 H. split; [done|]. exists d1, l', tab'. by left.
  - intros d1 l' tab' H0 H. split; [done|]. exists d1, l', tab'. by right; left.
  - intros sz' d1 l' H0 E H. split; [done|]. exists d1, l', tab. right; right. split; [done|]. by exists sz'.
  - exists m', d1, l', tab'. split; [done|]. destruct H as [(H0 & -> & -> & H)|[(H0 & -> & -> & H)|(H0 & sz' & E & -> & -> & H)]]; [by left|by right; left|right; right]. split; [done|]. by exists sz'.
Qed.

Lemma growproc_resizes_witness : exists tab l m' d1 l' tab',
  growproc 4096 [] (mkK machine1 one_page) = Ret 0 [] (mkK m' (upd_proc 1 (set_p_sz 8192) d1)) /\ sized_up 1 one_page l tab 1 d1 l' tab'.
Proof.
  destruct one_page_forkable as (l & tab & Hf). destruct one_page_proc as [E1 _]. assert (p_sz (procs one_page 1%nat) = 4096) as Esz by (rewrite E1, fupd_eq; reflexivity).
  assert (fst (out_of (growproc 4096 [] (mkK machine1 one_page)) 1) = 0) as Hr by (vm_compute; reflexivity).
  destruct (growproc_resizes 1 4096 machine1 [] one_page l tab quiet1) as (m' & d1 & l' & tab' & _ & H); [rewrite Esz; lia|lia|rewrite Esz; lia|exact (fk_space _ _ _ _ _ Hf)|].
  rewrite Esz in H. destruct H as [(_ & R & H)|[(_ & R & _)|(H & _)]].
  - exists tab, l, m', d1, l', tab'. split; [exact R|exact H].
  - rewrite R in Hr. discriminate Hr.
  - lia.
Defined.
