(* ===== verification/WaitSpec.v ===== *)
(** * Reaping a child (wait() and wait_stat() of kernel/proc.c)

    wait_extension() finds an exited child, copies its exit status and, for
    wait_stat(), its performance record to the caller, and frees it. *)

From S2P Require Import Prelude State Spinlock CString Kalloc Sched SchedSpec Vm VmSpec ProcMem Wp UvmSpec UvmGrow Sleeplock Fs File Proc ProcSpec ProcThm.
Open Scope Z_scope.

(** ** The memory a user sees *)

Definition uview (m : bytes) (root x : Z) : option Z := if umapped m root x then Some (m (uphys m root x)) else None.

Definition uput (v : Z -> option Z) (a : Z) (bs : list Z) (x : Z) : option Z :=
  if decide (in_copy a (Z.of_nat (length bs)) x) then Some (nth (Z.to_nat (x - a)) bs 0) else v x.

(** The frames the user can reach. *)
Definition upage (m : bytes) (root q : Z) : Prop := exists x, 0 <= x /\ umapped m root x = true /\ q = PTE2PA (pte_of m root x).

(** [bs] was written at [a], or part of it and a byte is not mapped. *)
Definition uwrote (m : bytes) (root a : Z) (bs : list Z) (r : Z) (m' : bytes) : Prop :=
  let len := Z.of_nat (length bs) in
  (r = 0 /\ (forall x, in_copy a len x -> umapped m root x = true) /\ forall x, 0 <= x -> uview m' root x = uput (uview m root) a bs x) \/
  (r = -1 /\ (exists x, in_copy a len x /\ umapped m root x = false) /\ forall x, 0 <= x -> ~ in_copy a len x -> uview m' root x = uview m root x).

(** copyout() does not allocate. *)
Definition keeps_list {A} (f : M A) : Prop := forall e s a e' s', f e s = Ret a e' s' -> freelist (kd s') = freelist (kd s).

Lemma keeps_bind {A B} (f : M A) (g : A -> M B) : keeps_list f -> (forall a, keeps_list (g a)) -> keeps_list (bind f g).
Proof. intros Hf Hg e s b e' s' H. unfold bind in H. destruct (f e s) as [a e1 s1|] eqn:E; [|done]. rewrite (Hg _ _ _ _ _ _ H). by eapply Hf. Qed.

Lemma keeps_ret {A} (a : A) : keeps_list (ret a).
Proof. by intros e s x e' s' [= <- <- <-]. Qed.

Lemma keeps_gets {A} (f : kdata -> A) : keeps_list (gets f).
Proof. by intros e s x e' s' [= <- <- <-]. Qed.

Lemma keeps_setmem f : keeps_list (setmem f).
Proof. by intros e s x e' s' [= <- <- <-]. Qed.

Lemma keeps_panic {A} s : keeps_list (panic s : M A).
Proof. by intros e ? x e' s' H. Qed.

Create HintDb keeps.
#[local] Hint Resolve keeps_ret keeps_gets keeps_setmem keeps_panic : keeps.

Lemma keeps_walk pt va : keeps_list (walk pt va false).
Proof.
  unfold walk. destruct (_ >=? _); [auto with keeps|]. generalize 2%nat as n. intros n. revert pt. induction n as [|n IH]; intros pt; cbn [walk_loop]; [auto with keeps|].
  apply keeps_bind; [unfold getmem; auto with keeps|]. intros v. destruct (has v PTE_V); [apply IH|]. cbn. auto with keeps.
Qed.

Lemma keeps_copyout f : forall pt va l, keeps_list (copyout_loop f pt va l).
Proof.
  induction f as [|f IH]; intros pt va l; [by intros e s x e' s' H|]. cbn [copyout_loop]. destruct l as [|b l]; [auto with keeps|]. apply keeps_bind.
  - unfold walkaddr. destruct (_ >=? _); [auto with keeps|]. apply keeps_bind; [apply keeps_walk|]. intros pte. destruct (_ =? _); [auto with keeps|].
    apply keeps_bind; [unfold getmem; auto with keeps|]. intros v. do 2 (destruct (negb _); [auto with keeps|]). auto with keeps.
  - intros pa. destruct (_ =? _); [auto with keeps|]. apply keeps_bind; [auto with keeps|]. intros _. apply IH.
Qed.

(** A step that changes user memory of [root] only. *)
Record ustep (root : Z) (tab : tables) (d d' : kdata) : Prop := {
  uu_space : uspace_ok d' root tab;
  uu_pte : forall x, pte_of (mem d') root x = pte_of (mem d) root x;
  uu_only : only_pages (upage (mem d) root) d d';
  uu_list : freelist d' = freelist d;
}.

Lemma ustep_refl root tab d : uspace_ok d root tab -> ustep root tab d d.
Proof. intros H. split; [done|done|apply only_pages_refl|done]. Qed.

Lemma upage_pte m m' root q : (forall x, pte_of m' root x = pte_of m root x) -> upage m' root q -> upage m root q.
Proof. intros H (x & H1 & H2 & ->). exists x. unfold umapped in *. by rewrite !H in *. Qed.

Lemma ustep_trans root tab d1 d2 d3 : ustep root tab d1 d2 -> ustep root tab d2 d3 -> ustep root tab d1 d3.
Proof.
  intros [_ A2 A3 A4] [B1 B2 B3 B4]. split; [done|intros x; by rewrite B2, A2| |by rewrite B4]. eapply only_pages_mono; [|eapply only_pages_trans; [exact A3|exact B3]].
  intros q [H|H]; [done|]. by eapply upage_pte.
Qed.

Lemma umapped_ext m m' root x : (forall x, pte_of m' root x = pte_of m root x) -> umapped m' root x = umapped m root x.
Proof. intros H. unfold umapped. by rewrite H. Qed.

Lemma wp_copyout p hl root tab a bs d Q : uspace_ok d root tab -> 0 <= a < 2 ^ 64 ->
  (forall r d', ustep root tab d d' -> uwrote (mem d) root a bs r (mem d') -> Q r hl d') -> wp p hl (copyout root a bs) d Q.
Proof.
  intros Hu Ha HQ m0 m e Hq Hs. unfold copyout. destruct (copyout_loop_spec (S (length bs)) root tab a bs e m d) as (r & d' & E & Hop & H & Hoth); [lia|done|done|].
  rewrite E. exists r, hl, m, d'. split; [done|]. split; [done|]. destruct (uspace_ok_frame d d' root tab Hu) as [Hu' Hpte].
  { eapply only_pages_mono; [|exact Hop]. intros q (x & Hx & Hmx & ->). unfold in_copy in Hx. destruct (us_frame _ _ _ Hu x) as [Hp Hn]; [lia|done|]. split; [done|apply Hp]. }
  apply HQ.
  - split; [done|done| |exact (keeps_copyout _ _ _ _ _ _ _ _ _ E)]. eapply only_pages_mono; [|exact Hop]. intros q (x & Hx & Hmx & ->). exists x. unfold in_copy in Hx. split_and!; [lia|done|done].
  - assert (forall x, 0 <= x -> ~ in_copy a (Z.of_nat (length bs)) x -> uview (mem d') root x = uview (mem d) root x) as Hout.
    { intros x Hx Hn. unfold uview, uphys. rewrite (umapped_ext (mem d) (mem d') root x Hpte), Hpte. destruct (umapped (mem d) root x) eqn:Em; [|done]. f_equal. by apply Hoth. }
    destruct H as [(-> & Hm & Hb)|(-> & Hm)]; [left|right; done]. split_and!; [done|done|]. intros x Hx. unfold uput. case_decide as Hd; [|by apply Hout].
    unfold uview, uphys. rewrite (umapped_ext (mem d) (mem d') root x Hpte), Hpte, Hm by done. f_equal. unfold in_copy in Hd. specialize (Hb (x - a) ltac:(lia)). rewrite Z.add_comm, Z.sub_add in Hb. exact Hb.
Qed.

Lemma uput_ext v v' a bs x : v x = v' x -> uput v a bs x = uput v' a bs x.
Proof. intros H. unfold uput. by rewrite H. Qed.

Lemma uput_app v a bs cs x : uput (uput v a bs) (a + Z.of_nat (length bs)) cs x = uput v a (bs ++ cs) x.
Proof.
  unfold uput, in_copy. rewrite length_app. repeat case_decide; try lia; try done.
  - f_equal. rewrite app_nth2 by lia. f_equal. lia.
  - f_equal. by rewrite app_nth1 by lia.
Qed.

Lemma uwrote_app m root a bs cs r m1 m2 : (forall x, pte_of m1 root x = pte_of m root x) -> 0 <= a -> uwrote m root a bs 0 m1 -> uwrote m1 root (a + Z.of_nat (length bs)) cs r m2 -> uwrote m root a (bs ++ cs) r m2.
Proof.
  intros Hp Ha [(_ & A1 & A2)|(E & _)] H; [|done]. unfold uwrote. cbv zeta. rewrite length_app. assert (forall x, umapped m1 root x = umapped m root x) as Hm by (intros x; by apply umapped_ext).
  destruct H as [(-> & B1 & B2)|(-> & (x & B1 & B2) & B3)]; [left|right]; split_and!; try done.
  - intros x Hx. unfold in_copy in *. destruct (decide (x < a + Z.of_nat (length bs))); [apply A1; lia|]. rewrite <- Hm. apply B1. lia.
  - intros x Hx. rewrite B2 by done. rewrite <- uput_app. by apply uput_ext, A2.
  - exists x. unfold in_copy in *. split; [lia|]. by rewrite <- Hm.
  - intros y Hy Hn. unfold in_copy in *. rewrite B3, A2 by lia. unfold uput. rewrite decide_False; [done|]. unfold in_copy. lia.
Qed.

Lemma uwrote_fail m root a bs cs m' : uwrote m root a bs (-1) m' -> uwrote m root a (bs ++ cs) (-1) m'.
Proof.
  intros [(E & _)|(_ & (x & B1 & B2) & B3)]; [done|]. right. unfold in_copy in *. rewrite length_app. split_and!; [done| |].
  - exists x. split; [lia|done].
  - intros y Hy Hn. apply B3; lia.
Qed.

(** The chain of copyout()s writes the integers one after the other. *)
Definition ints_bytes (l : list Z) : list Z := concat (map int_bytes l).

Lemma wp_copyout_ints p hl root tab : forall l a d Q, uspace_ok d root tab -> 0 <= a < 2 ^ 64 ->
  (forall (b : bool) d', ustep root tab d d' -> uwrote (mem d) root a (ints_bytes l) (if b then -1 else 0) (mem d') -> Q b hl d') ->
  wp p hl (copyout_ints root a l) d Q.
Proof.
  induction l as [|v l IH]; intros a d Q Hu Ha HQ; cbn [copyout_ints].
  - wp_run. apply HQ; [by apply ustep_refl|]. left. unfold uput, in_copy. split_and!; [done|simpl; lia|]. intros x Hx. rewrite decide_False; [done|simpl; lia].
  - apply wp_bind, (wp_copyout p hl root tab); [done|done|]. intros r d1 U1 W1. pose proof W1 as W1'. destruct W1 as [(-> & A1 & _)|(-> & _)].
    + change (0 <? 0) with false. cbv iota. assert (a + 3 < MAXVA) as Hmax.
      { specialize (A1 (a + 3) ltac:(unfold in_copy; simpl; lia)). unfold umapped in A1. lia. }
      rewrite MAXVA_eq in Hmax. rewrite u64_small by lia. apply IH; [apply U1|lia|]. intros b d2 U2 W2. apply HQ; [by eapply ustep_trans|].
      change (ints_bytes (v :: l)) with (int_bytes v ++ ints_bytes l). eapply uwrote_app; [exact (uu_pte _ _ _ _ U1)|lia|exact W1'|exact W2].
    + change (-1 <? 0) with true. cbv iota. wp_run. apply HQ; [done|]. change (ints_bytes (v :: l)) with (int_bytes v ++ ints_bytes l). by apply uwrote_fail.
Qed.

(** ** The scan *)

Lemma owns_keep (P : Z -> Prop) d d' q l T : owns d q l T -> pstep P d d' -> freelist d' = freelist d ->
  (forall x, P x -> x mod PGSIZE = 0 /\ (x ∉ T) /\ (x ∉ l)) -> owns d' q l T.
Proof.
  intros H S Hfl HP. pose proof (pstep_syms _ _ _ S) as Es. assert (kmem_ok d l -> kmem_ok d' l) as Hk.
  { intros Hk. eapply kmem_ok_frame; [exact Hk|done|done|]. intros x a Hx Ha. apply (pst_mem _ _ _ S). destruct Hk as [_ _ Hf]. rewrite Forall_forall in Hf.
    apply (off_pages_apart _ x); [apply (Hf x Hx)|done|]. intros y Hy. destruct (HP y Hy) as (H1 & _ & H2). split; [done|]. by intros ->. }
  destruct H as [H1 H2 H3|tf H1 H2 H3 H4 H5|root tf tab H1 H2 H3 H4].
  - constructor 1; auto.
  - constructor 2; auto. unfold page_ok. by rewrite Es.
  - pose proof (up_vm _ _ _ _ _ (to_up _ _ _ _ _ (ps_top _ _ _ _ _ _ H4))) as V.
    destruct (pspace_keep P d d' root tf l l tab _ H4 S) as (K1 & K2 & _).
    + intros x Hx. destruct (HP x Hx) as (A1 & A2 & _). split; [done|]. intros H. apply A2. by constructor 2.
    + apply Hk, V.
    + intros x Hx [->|H]%elem_of_cons; [apply (ps_own _ _ _ _ _ _ H4); rewrite !elem_of_app; tauto|]. pose proof (up_nodup _ _ _ _ _ (to_up _ _ _ _ _ (ps_top _ _ _ _ _ _ H4))) as Hnd.
      rewrite app_assoc in Hnd. apply NoDup_app in Hnd as (_ & Hnd & _). by apply (Hnd x).
    + assert (uframes (mem d) tab (npg (p_sz q)) = uframes (mem d') tab (npg (p_sz q))) as -> by (apply map_ext; intros a; unfold frame_of; by rewrite K2). by apply (owns_all d' q l root tf tab).
Qed.

Lemma owns_pages d q l T x : owns d q l T -> x ∈ T -> x mod PGSIZE = 0.
Proof.
  intros [E1 E2 E3|tf E1 E2 E3 E4 E5|rt tf tb E1 E2 E3 E4] Hq.
  - by apply elem_of_nil in Hq.
  - apply list_elem_of_singleton in Hq as ->. apply E4.
  - pose proof (to_up _ _ _ _ _ (ps_top _ _ _ _ _ _ E4)) as U. rewrite elem_of_cons, elem_of_app in Hq. destruct Hq as [->|[Hq|Hq]].
    + apply (ps_tf _ _ _ _ _ _ E4).
    + apply (elem_table_pages d rt tb (vo_pt _ _ _ _ (up_vm _ _ _ _ _ U))) in Hq as [y Hq]. apply (pt_page _ _ _ (vo_pt _ _ _ _ (up_vm _ _ _ _ _ U)) _ _ Hq).
    + apply elem_uframes in Hq as (k & Hk & ->). apply (up_leaf _ _ _ _ _ U k Hk).
Qed.

(** A write that address 0 turns off. *)
Definition uput0 (v : Z -> option Z) (a : Z) (bs : list Z) : Z -> option Z := if a =? 0 then v else uput v a bs.

Definition zombie_of (d : kdata) (p i : nat) : bool := bool_decide (p_parent (procs d i) = Some p) && bool_decide (p_state (procs d i) = ZOMBIE).

Section Wait.
Context (p np : nat) (d : kdata) (l T : list Z) (tab : tables) (addr perf : Z).
Notation root := (p_pagetable (procs d p)).
Notation ch := (procs d np).

(** The child's pages and the free pages are not the parent's. *)
Record waiting : Prop := {
  wt_space : uspace_ok d root tab;
  wt_child : owns d ch l T;
  wt_apart : forall q, owned tab q \/ upage (mem d) root q -> (q ∉ T) /\ (q ∉ l);
  wt_addr : 0 <= addr < 2 ^ 64;
  wt_perf : 0 <= perf < 2 ^ 64;
}.

(** The child is reaped and the caller has its status and its performance record. *)
Record reaped (d' : kdata) : Prop := {
  rp_slots : procs d' = (procs d).[np := freed ch];
  rp_list : exists l', kmem_ok d' l' /\ l' ≡ₚ T ++ l;
  rp_view : forall x, 0 <= x -> uview (mem d') root x = uput0 (uput0 (uview (mem d) root) addr (int_bytes (p_xstate ch))) perf (ints_bytes (perf_ints ch)) x;
  rp_rest : pstep (fun q => upage (mem d) root q \/ q ∈ T) d d';
}.

(** A byte of the destination [a] is not mapped. *)
Definition fault (a : Z) (n : nat) : Prop := a <> 0 /\ exists x, in_copy a (Z.of_nat n) x /\ umapped (mem d) root x = false.
Definition covered (a : Z) (n : nat) : Prop := a <> 0 -> forall x, in_copy a (Z.of_nat n) x -> umapped (mem d) root x = true.

Inductive wait_post : Z -> list lockid -> kdata -> Prop :=
  | wait_done d' : covered addr 4 -> covered perf 24 -> reaped d' -> wait_post (p_pid ch) [] d'
  | wait_status_fault d' : fault addr 4 -> ustep root tab d d' -> wait_post (-1) [] d'
  | wait_perf_fault d' : covered addr 4 -> fault perf 24 -> ustep root tab d d' -> wait_post (-1) [LK_proc np; LK_wait] d'.

Hypothesis Hw : waiting.

Lemma upage_ok q : upage (mem d) root q -> q mod PGSIZE = 0 /\ (q ∉ T) /\ (q ∉ l).
Proof using Hw.
  intros Hq. split; [|by apply (wt_apart Hw); right]. destruct Hq as (x & H1 & H2 & ->). apply (us_frame _ _ _ (wt_space Hw) x H1 H2).
Qed.

(** Freeing the child does not disturb the caller's memory. *)
Lemma free_view d2 d' x : ustep root tab d d2 -> pstep (fun q => q ∈ T) d2 d' -> (forall q, q ∈ T -> q mod PGSIZE = 0) -> 0 <= x -> uview (mem d') root x = uview (mem d2) root x.
Proof using Hw.
  intros U S HT Hx. assert (forall q a, (owned tab q \/ upage (mem d) root q) -> q mod PGSIZE = 0 -> q <= a < q + PGSIZE -> mem d' a = mem d2 a) as Hsame.
  { intros q a Hq Hal Ha. apply (pst_mem _ _ _ S). apply (off_pages_apart _ q); [done|done|]. intros y Hy. split; [by apply HT|]. intros ->. by destruct (wt_apart Hw q Hq). }
  pose proof (us_pt _ _ _ (uu_space _ _ _ _ U)) as P2. assert (pt_ok d' root tab) as P3.
  { eapply pt_ok_frame; [exact P2|by eapply pstep_syms|]. intros q a Hq Ha. apply (Hsame q); [by left| |done]. destruct Hq as [y Hq]. apply (pt_page _ _ _ P2 _ _ Hq). }
  assert (forall y, pte_of (mem d') root y = pte_of (mem d2) root y) as Hpte.
  { intros y. rewrite (pte_of_at d' root tab P3), (pte_of_at d2 root tab P2). apply pte_at_frame. intros q a Hq Ha. apply (Hsame q); [by left| |done]. destruct Hq as [z Hq]. apply (pt_page _ _ _ P2 _ _ Hq). }
  unfold uview. rewrite (umapped_ext (mem d2) (mem d') root x Hpte). destruct (umapped (mem d2) root x) eqn:Em; [|done]. f_equal. unfold uphys. rewrite Hpte. rewrite (uu_pte _ _ _ _ U) in *.
  rewrite (umapped_ext (mem d) (mem d2) root x (uu_pte _ _ _ _ U)) in Em. apply (Hsame (PTE2PA (pte_of (mem d) root x))); [right; by exists x|apply (us_frame _ _ _ (wt_space Hw) x Hx Em)|].
  pose proof (Z.mod_pos_bound x PGSIZE ltac:(done)). lia.
Qed.

(** The copy of [bs] to [a], which 0 turns off. *)
Definition ucopied (m : bytes) (a : Z) (bs : list Z) (b : bool) (m' : bytes) : Prop :=
  if b then a <> 0 /\ exists x, in_copy a (Z.of_nat (length bs)) x /\ umapped m root x = false
  else (a <> 0 -> forall x, in_copy a (Z.of_nat (length bs)) x -> umapped m root x = true) /\ forall x, 0 <= x -> uview m' root x = uput0 (uview m root) a bs x.

Lemma ucopied_wrote m a bs r m' : a <> 0 -> uwrote m root a bs r m' -> ucopied m a bs (r <? 0) m'.
Proof using.
  intros Ha H. unfold ucopied, uput0. rewrite (proj2 (Z.eqb_neq a 0) Ha). destruct H as [(-> & H1 & H2)|(-> & H1 & _)]; cbn; [split; [by intros _|done]|done].
Qed.

Lemma wp_copy_status hl xs Q :
  (forall b d1, ustep root tab d d1 -> ucopied (mem d) addr (int_bytes xs) b (mem d1) -> Q b hl d1) ->
  wp p hl (if addr =? 0 then ret false else let* r := copyout root addr (int_bytes xs) in ret (r <? 0)) d Q.
Proof using Hw.
  intros HQ. pose proof (wt_space Hw) as Hu. destruct (Z.eqb_spec addr 0) as [H0|H0].
  - wp_run. apply HQ; [by apply ustep_refl|]. split; [done|]. intros x Hx. unfold uput0. by rewrite H0.
  - apply wp_bind, (wp_copyout p hl root tab); [done|apply Hw|]. intros r d1 U W. wp_run. apply HQ; [done|]. by apply ucopied_wrote.
Qed.

Lemma wp_copy_perf hl d1 q Q : uspace_ok d1 root tab ->
  (forall b d2, ustep root tab d1 d2 -> ucopied (mem d1) perf (ints_bytes (perf_ints q)) b (mem d2) -> Q b hl d2) ->
  wp p hl (if perf =? 0 then ret false else copyout_ints root perf (perf_ints q)) d1 Q.
Proof using Hw.
  intros Hu HQ. destruct (Z.eqb_spec perf 0) as [H0|H0].
  - wp_run. apply HQ; [by apply ustep_refl|]. split; [done|]. intros x Hx. unfold uput0. by rewrite H0.
  - apply (wp_copyout_ints p hl root tab); [done|apply Hw|]. intros b d2 U W. apply HQ; [done|]. apply ucopied_wrote in W; [|done]. by destruct b.
Qed.

Lemma ucopied_pte m m1 a bs b m' : (forall x, pte_of m1 root x = pte_of m root x) -> ucopied m1 a bs b m' ->
  if b then a <> 0 /\ exists x, in_copy a (Z.of_nat (length bs)) x /\ umapped m root x = false
  else (a <> 0 -> forall x, in_copy a (Z.of_nat (length bs)) x -> umapped m root x = true) /\ forall x, 0 <= x -> uview m' root x = uput0 (uview m1 root) a bs x.
Proof using.
  intros Hp H. assert (forall x, umapped m1 root x = umapped m root x) as E by (intros x; by apply umapped_ext). destruct b.
  - destruct H as (H0 & x & H1 & H2). split; [done|]. exists x. by rewrite <- E.
  - destruct H as (H1 & H2). split; [|done]. intros H0 x Hx. rewrite <- E. by apply H1.
Qed.

Lemma uput0_ext v v' a bs x : v x = v' x -> uput0 v a bs x = uput0 v' a bs x.
Proof using. intros H. unfold uput0. destruct (a =? 0); [done|by apply uput_ext]. Qed.

Lemma reap_found d2 d1 d' l' : ustep root tab d d1 -> ustep root tab d1 d2 -> ucopied (mem d) addr (int_bytes (p_xstate ch)) false (mem d1) ->
  ucopied (mem d1) perf (ints_bytes (perf_ints ch)) false (mem d2) ->
  pstep (fun q => q ∈ T) d2 d' -> procs d' = (procs d2).[np := freed (procs d2 np)] -> kmem_ok d' l' -> l' ≡ₚ T ++ l -> reaped d'.
Proof using Hw.
  intros U1 U2 [C1 V1] [C2 V2] S E Hk Hl. pose proof (ustep_trans _ _ _ _ _ U1 U2) as U. destruct (pstep_only _ _ _ (uu_only _ _ _ _ U)) as [S2 E2]. split.
  - by rewrite E, E2.
  - by exists l'.
  - intros x Hx. rewrite (free_view d2 d' x U S (fun q => owns_pages _ _ _ _ q (wt_child Hw)) Hx), V2 by done. by apply uput0_ext, V1.
  - eapply pstep_trans; [exact S2|exact S|by left|by right].
Qed.

(** The found child, with its lock and wait_lock held. *)
Lemma wp_found Q : (forall r hl d', wait_post r hl d' -> Q (inl r) hl d') ->
  wp p [LK_proc np; LK_wait]
    (let* bad := (if addr =? 0 then ret false else let* r := copyout root addr (int_bytes (p_xstate ch)) in ret (r <? 0)) in
     if bad then release (LK_proc np);; release LK_wait;; ret (inl (-1)) else
     let* q := getp np (fun q => q) in
     let* bad := (if perf =? 0 then ret false else copyout_ints root perf (perf_ints q)) in
     if bad then ret (inl (-1)) else
     freeproc np;; release (LK_proc np);; release LK_wait;; ret (inl (p_pid ch) : Z + bool)) d Q.
Proof using Hw.
  intros HQ. apply wp_bind, wp_copy_status. intros b d1 U1 C1. destruct b; [wp_run; apply HQ; by constructor 2|]. destruct (pstep_only _ _ _ (uu_only _ _ _ _ U1)) as [S1 E1].
  wp_run. rewrite E1. apply wp_copy_perf; [apply U1|]. intros b d2 U2 C2. pose proof (ustep_trans _ _ _ _ _ U1 U2) as U.
  pose proof (ucopied_pte (mem d) (mem d1) perf _ b (mem d2) (uu_pte _ _ _ _ U1) C2) as C2'. destruct b.
  { wp_run. apply HQ. constructor 3; [exact (proj1 C1)|exact C2'|exact U]. }
  destruct (pstep_only _ _ _ (uu_only _ _ _ _ U)) as [S2 E2]. apply wp_bind. eapply (wp_freeproc p _ np l T d2).
  - lk_notin.
  - apply (us_end _ _ _ (uu_space _ _ _ _ U)).
  - rewrite E2. eapply owns_keep; [exact (wt_child Hw)|exact S2|exact (uu_list _ _ _ _ U)|exact upage_ok].
  - intros d' l' S3 E3 Hk Hl. wp_run. apply HQ. constructor 1; [exact (proj1 C1)|exact (proj1 C2')|]. by eapply (reap_found d2 d1 d' l').
Qed.

Lemma wp_wait_scan js hk Q : find (zombie_of d p) js = Some np ->
  (forall r hl d', wait_post r hl d' -> Q (inl r) hl d') -> wp p [LK_wait] (wait_scan js p addr perf hk) d Q.
Proof using Hw.
  intros Hf HQ. revert hk Hf. induction js as [|i js IH]; intros hk Hf; cbn [find wait_scan] in *; [done|]. unfold zombie_of in Hf at 1. wp_run.
  destruct (bool_decide (p_parent (procs d i) = Some p)); cbn [andb] in Hf; [|by apply IH]. wp_run.
  destruct (bool_decide (p_state (procs d i) = ZOMBIE)); [|wp_run; by apply IH]. injection Hf as ->. do 6 wp_step. by apply wp_found.
Qed.

Lemma wp_wait Q : find (zombie_of d p) all_procs = Some np -> (forall r hl d', wait_post r hl d' -> Q r hl d') -> wp p [] (wait_extension addr perf) d Q.
Proof using Hw.
  intros Hf HQ. unfold wait_extension. wp_run. apply wp_loop. apply wp_bind, wp_wait_scan; [done|]. intros r hl d' H. wp_run. by apply HQ.
Qed.
End Wait.

(** ** A scan that finds nobody *)

Definition has_child (d : kdata) (p : nat) (js : list nat) : bool := existsb (fun i => bool_decide (p_parent (procs d i) = Some p)) js.

Lemma wp_scan_none p d addr perf js hk Q : find (zombie_of d p) js = None -> Q (inr (hk || has_child d p js)) [LK_wait] d -> wp p [LK_wait] (wait_scan js p addr perf hk) d Q.
Proof.
  revert hk. induction js as [|i js IH]; intros hk Hf HQ; cbn [find wait_scan has_child existsb] in *; [wp_run; by rewrite orb_false_r in HQ|]. unfold zombie_of in Hf at 1. wp_run.
  destruct (bool_decide (p_parent (procs d i) = Some p)); cbn [andb orb] in *; [|by apply IH]. wp_run. destruct (bool_decide (p_state (procs d i) = ZOMBIE)); [done|]. wp_run. apply IH; [done|]. by rewrite orb_true_r in HQ.
Qed.

Lemma wp_wait_none p d addr perf Q : find (zombie_of d p) all_procs = None -> has_child d p all_procs = false \/ p_killed (procs d p) <> 0 -> Q (-1) [] d -> wp p [] (wait_extension addr perf) d Q.
Proof.
  intros Hf Hk HQ. unfold wait_extension. wp_run. apply wp_loop. apply wp_bind, wp_scan_none; [done|]. cbn [orb]. wp_run.
  assert (negb (has_child d p all_procs) || negb (p_killed (procs d p) =? 0) = true) as -> by (destruct Hk as [->|H]; [done|]; rewrite (proj2 (Z.eqb_neq _ _) H); apply orb_true_r). by wp_run.
Qed.

(** C19: wait() and wait_stat().  If a child has exited, the first one in the table
    is reaped: the call returns its pid, the bytes of the exit status are at the
    status address and those of the six performance counters at the performance
    address (an address 0 turns a copy off), no other byte of the caller's memory
    changes, and every page of the child, trapframe, page tables and user frames, is
    free again.  If the status cannot be stored the call returns -1 and the child
    remains; likewise for the performance record, where the locks are kept.  Without
    children, or when killed and nobody has exited, it returns -1 and nothing changes. *)
Theorem wait_reaps p m e d addr perf (Hq : quiet p m) :
  (forall np l T tab, find (zombie_of d p) all_procs = Some np -> waiting p np d l T tab addr perf ->
     exists r hl m' d', wait_extension addr perf e (mkK m d) = Ret r e (mkK m' d') /\ msame (macqs hl m) m' /\ wait_post p np d l T tab addr perf r hl d') /\
  (find (zombie_of d p) all_procs = None -> has_child d p all_procs = false \/ p_killed (procs d p) <> 0 ->
     exists m', wait_extension addr perf e (mkK m d) = Ret (-1) e (mkK m' d) /\ msame m m').
Proof.
  split.
  - intros np l T tab Hf Hw. destruct (wp_wait p np d l T tab addr perf Hw (wait_post p np d l T tab addr perf) Hf) with (m0 := m) (m := m) (e := e) as (r & hl & m' & d' & H); [done|done|apply msame_refl|].
    by exists r, hl, m', d'.
  - intros Hf Hk. destruct (wp_wait_none p d addr perf (fun r hl d' => r = -1 /\ hl = [] /\ d' = d) Hf Hk) with (m0 := m) (m := m) (e := e) as (r & hl & m' & d' & R & Hs & -> & -> & ->); [done|done|apply msame_refl|].
    by exists m'.
Qed.

Lemma held_both np m m' : mach_ok m -> msame (macqs [LK_proc np; LK_wait] m) m' -> lk_held m' LK_wait /\ lk_held m' (LK_proc np).
Proof.
  intros Hm H. assert (mach_ok (macq LK_wait m)) as Hm2 by by apply (macqs_ok [LK_wait]). apply (msame_in (LK_proc np) (macq LK_wait m) m' Hm2) in H as ->. split; unfold lk_held, macq; simpl; rewrite ?fupd_eq, ?fupd_ne, ?fupd_eq by done; done.
Qed.

(** C31: wait_stat() with a performance address that is not mapped, an exited child
    and a status address that is 0 or mapped: it returns -1 with wait_lock and the
    child's lock still held, and the child is not reaped. *)
Theorem wait_stat_fault_locks p m e d addr perf np l T tab (Hq : quiet p m) (Hz : find (zombie_of d p) all_procs = Some np) (Hw : waiting p np d l T tab addr perf)
    (Hs : covered p d addr 4) (Hf : fault p d perf 24) :
  exists m' d', wait_extension addr perf e (mkK m d) = Ret (-1) e (mkK m' d') /\ lk_held m' LK_wait /\ lk_held m' (LK_proc np) /\ procs d' = procs d.
Proof.
  destruct (wp_wait p np d l T tab addr perf Hw (wait_post p np d l T tab addr perf) Hz) with (m0 := m) (m := m) (e := e) as (r & hl & m' & d' & R & Hm & H); [done|done|apply msame_refl|].
  destruct H as [d' H1 H2 H3|d' [H1 (x & H2 & H3)] H4|d' H1 H2 H3].
  - destruct Hf as (Hn & x & H4 & H5). specialize (H2 Hn x H4). congruence.
  - specialize (Hs H1 x H2). congruence.
  - exists m', d'. split; [done|]. destruct (held_both np m m' (proj1 Hq) Hm) as [K1 K2]. split_and!; [done|done|]. by destruct (pstep_only _ _ _ (uu_only _ _ _ _ H3)).
Qed.

(** ** A parent and its exited child *)

(** The user reaches the user pages only. *)
Lemma pspace_reach d root tf l tab n x : pspace d root tf l tab n -> has (pte_of (mem d) root TRAMPOLINE) PTE_U = false -> has (pte_of (mem d) root TRAPFRAME) PTE_U = false ->
  0 <= x -> umapped (mem d) root x = true -> exists k, (k < n)%nat /\ samepage x (page k) /\ pte_of (mem d) root x = pte_at (mem d) tab (page k).
Proof.
  intros [[U _ _ Hno] _ _ _] H1 H2 Hx Hm. pose proof (vo_pt _ _ _ _ (up_vm _ _ _ _ _ U)) as Hpt. destruct TRAPFRAME_eq as [E1 E2]. unfold umapped in Hm.
  apply andb_prop in Hm as [[HM HV]%andb_prop HU]. apply Z.ltb_lt in HM. rewrite MAXVA_eq in HM. destruct (decide (x < page n)) as [Hl|Hl].
  - exists (Z.to_nat (x / PGSIZE)). assert (samepage x (page (Z.to_nat (x / PGSIZE)))) as Hs by (unfold samepage, PGSIZE in *; Z.to_euclidean_division_equations; lia).
    split_and!; [unfold PGSIZE in *; Z.to_euclidean_division_equations; lia|done|]. rewrite (pte_of_samepage _ _ _ _ Hs). apply (pte_of_at d root tab Hpt).
  - exfalso. destruct (decide (x < TRAPFRAME)) as [Ht|Ht]; [rewrite (pte_of_at d root tab Hpt), Hno in HV by lia; done|]. destruct (decide (x < TRAMPOLINE)) as [Hr|Hr].
    + assert (samepage x TRAPFRAME) as Hs by (unfold samepage, PGSIZE in *; Z.to_euclidean_division_equations; lia). rewrite (pte_of_samepage _ _ _ _ Hs) in HU. congruence.
    + assert (samepage x TRAMPOLINE) as Hs by (unfold samepage, PGSIZE in *; Z.to_euclidean_division_equations; lia). rewrite (pte_of_samepage _ _ _ _ Hs) in HU. congruence.
Qed.

Lemma pspace_uspace d root tf l tab n : pspace d root tf l tab n -> has (pte_of (mem d) root TRAMPOLINE) PTE_U = false -> has (pte_of (mem d) root TRAPFRAME) PTE_U = false ->
  uspace_ok d root tab /\ forall q, upage (mem d) root q -> q ∈ uframes (mem d) tab n.
Proof.
  intros Hs H1 H2. pose proof Hs as [[[V L Hnd _] _ _ _] _ _ _]. assert (forall x, 0 <= x -> umapped (mem d) root x = true -> exists k, (k < n)%nat /\ samepage x (page k) /\ PTE2PA (pte_of (mem d) root x) = frame_of (mem d) tab (page k)) as Hr.
  { intros x Hx Hm. destruct (pspace_reach _ _ _ _ _ _ x Hs H1 H2 Hx Hm) as (k & K1 & K2 & K3). exists k. by rewrite K3. }
  assert (forall q, upage (mem d) root q -> q ∈ uframes (mem d) tab n) as Hup by (intros q (x & Hx & Hm & ->); destruct (Hr x Hx Hm) as (k & K1 & _ & ->); apply elem_uframes; by exists k).
  split; [|done]. split; [apply V|apply V| |].
  - intros x Hx Hm. assert (PTE2PA (pte_of (mem d) root x) ∈ uframes (mem d) tab n) as Hin by (apply Hup; by exists x). destruct (Hr x Hx Hm) as (k & K1 & _ & K2). rewrite K2 in *. split; [by apply L|].
    intros Ho. apply NoDup_app in Hnd as (_ & Hnd & _). apply (Hnd (frame_of (mem d) tab (page k))); [by apply (elem_table_pages d root tab (vo_pt _ _ _ _ V))|]. rewrite elem_of_app. by left.
  - intros x y Hx Hy Hmx Hmy E. destruct (Hr x Hx Hmx) as (k & K1 & K2 & K3), (Hr y Hy Hmy) as (j & J1 & J2 & J3). rewrite K3, J3 in E. assert (k = j) as ->.
    { apply NoDup_app in Hnd as (_ & _ & Hnd). apply NoDup_app in Hnd as (Hnd & _). unfold uframes, npages_from in Hnd. rewrite map_map in Hnd.
      apply (NoDup_lookup _ k j (frame_of (mem d) tab (page k)) Hnd); rewrite list_lookup_fmap, lookup_seq_lt by done; [|rewrite E]; apply (f_equal Some), (f_equal (frame_of (mem d) tab)); lia. }
    unfold samepage in *. congruence.
Qed.

Definition exits (v : Z) (q : proc) : proc := set_p_xstate v (set_p_state ZOMBIE q).

(** When the child of a fork() has exited its parent can wait for it. *)
Lemma exit_waiting p np d l tab ip d1 l' v addr perf : let d2 := upd_proc np (exits v) d1 in
  forkable p d l tab ip -> p <> np -> parent_kept p d tab d1 l' -> fork_child p d l tab ip np d1 l' ->
  has (pte_of (mem d2) (p_pagetable (procs d2 p)) TRAMPOLINE) PTE_U = false -> has (pte_of (mem d2) (p_pagetable (procs d2 p)) TRAPFRAME) PTE_U = false ->
  0 <= addr < 2 ^ 64 -> 0 <= perf < 2 ^ 64 -> exists T, waiting p np d2 l' T tab addr perf.
Proof.
  intros d2 Hf Hne (K1 & K2 & K3 & _) (tf & root & tabc & C1 & _ & C3 & _ & C5 & _) F1 F2 Ha Hp. set (n := npg (p_sz (procs d p))) in *.
  assert (procs d2 p = procs d p) as P1 by (unfold d2; by rewrite upd_procs, fupd_ne). assert (procs d2 np = exits v (procs d1 np)) as P2 by (unfold d2; by rewrite upd_procs, fupd_eq).
  apply (pspace_upd np (exits v)) in K1, C3. fold d2 in K1, C3. rewrite P1 in F1, F2. destruct (pspace_uspace d2 _ _ _ _ _ K1 F1 F2) as [Hu Hup]. destruct (co_mem _ _ _ _ _ _ _ _ C1) as (M1 & M2 & M3).
  exists (tf :: table_pages tabc ++ uframes (mem d2) tabc n). split; [by rewrite P1| | |done|done].
  - assert (n = npg (p_sz (procs d2 np))) as En by (rewrite P2; unfold n; rewrite <- M3; done). rewrite En in *. apply (owns_all d2 _ _ root); [by rewrite P2|by rewrite P2| |done]. rewrite P2. cbn [exits p_sz set_p_xstate set_p_state]. rewrite M3. apply Hf.
  - intros q Hq. rewrite P1 in Hq. assert (q ∈ p_trapframe (procs d p) :: table_pages tab ++ uframes (mem d) tab n) as Hin.
    { constructor 2. rewrite elem_of_app. destruct Hq as [Hq|Hq]; [left|right].
      - by apply (elem_table_pages d2 (p_pagetable (procs d p)) tab (us_pt _ _ _ Hu)).
      - apply Hup in Hq. unfold uframes in Hq. by rewrite (map_ext _ (frame_of (mem d) tab) (fun a => f_equal PTE2PA (K3 a))) in Hq. }
    assert (q ∉ l) as Hql by (intros H; by destruct (mine_apart p d l tab ip Hf q H)). rewrite C5 in Hql. change (mem d2) with (mem d1). rewrite !elem_of_cons, !elem_of_app in *. tauto.
Qed.

(** After fork() the child, in slot 0, exits with status 7. *)
Definition forked_page : kdata := snd (out_of (fork [] (mkK machine1 one_page)) 0).
Definition exited : kdata := upd_proc 0 (exits 7) forked_page.

#[local] Opaque one_page.

Lemma forked_page_ok : exists l tab l', forkable 1 one_page l tab 0 /\ parent_kept 1 one_page tab forked_page l' /\ fork_child 1 one_page l tab 0 0 forked_page l'.
Proof.
  destruct one_page_forkable as (l & tab & Hf). assert (fst (out_of (fork [] (mkK machine1 one_page)) 0) = 1) as Hr by (vm_compute; reflexivity).
  assert (find (unused one_page) all_procs = Some 0%nat) as Hn by (vm_compute; reflexivity).
  destruct (wp_fork 1 one_page l tab 0 Hf machine1 machine1 [] quiet1 (msame_refl _)) as (r & hl & m' & d' & R & _ & _ & l' & K & H). exists l, tab, l'.
  assert (forked_page = d') as -> by (unfold forked_page; rewrite R; reflexivity). destruct H as [(E & _)|(np & H1 & _ & H2)].
  - rewrite E in R. rewrite R in Hr. discriminate Hr.
  - rewrite Hn in H1. injection H1 as <-. exact (conj Hf (conj K H2)).
Qed.

Lemma exited_facts : find (zombie_of exited 1) all_procs = Some 0%nat /\
  has (pte_of (mem exited) (p_pagetable (procs exited 1%nat)) TRAMPOLINE) PTE_U = false /\ has (pte_of (mem exited) (p_pagetable (procs exited 1%nat)) TRAPFRAME) PTE_U = false.
Proof. split_and!; vm_compute; reflexivity. Qed.

#[local] Opaque forked_page.

Lemma exited_waiting addr perf : 0 <= addr < 2 ^ 64 -> 0 <= perf < 2 ^ 64 -> exists l T tab, waiting 1 0 exited l T tab addr perf.
Proof.
  intros Ha Hp. destruct forked_page_ok as (l & tab & l' & Hf & K & C). destruct exited_facts as (_ & F1 & F2).
  destruct (exit_waiting 1 0 one_page l tab 0 forked_page l' 7 addr perf Hf ltac:(done) K C F1 F2 Ha Hp) as (T & H). exists l', T, tab. exact H.
Qed.

Lemma wait_reaps_witness : exists l T m' d', wait_extension 16 32 [] (mkK machine1 exited) = Ret 1 [] (mkK m' d') /\ msame machine1 m' /\ reaped 1 0 exited l T 16 32 d'.
Proof.
  destruct (exited_waiting 16 32 ltac:(lia) ltac:(lia)) as (l & T & tab & Hw). destruct exited_facts as (Hf & _).
  assert (fst (out_of (wait_extension 16 32 [] (mkK machine1 exited)) 0) = 1) as Hr by (vm_compute; reflexivity).
  destruct (wait_reaps 1 machine1 [] exited 16 32 quiet1) as [H _]. destruct (H 0%nat l T tab Hf Hw) as (r & hl & m' & d' & R & Hm & P). exists l, T, m', d'. rewrite R in Hr. cbn in Hr. rewrite Hr in R.
  split; [exact R|]. destruct P as [d' P1 P2 P3|d' P1 P2|d' P1 P2 P3]; [exact (conj Hm P3)|discriminate Hr|discriminate Hr].
Defined.

Lemma wait_stat_fault_locks_witness : exists m' d', wait_extension 0 8192 [] (mkK machine1 exited) = Ret (-1) [] (mkK m' d') /\ lk_held m' LK_wait /\ lk_held m' (LK_proc 0) /\ procs d' = procs exited.
Proof.
  destruct (exited_waiting 0 8192 ltac:(lia) ltac:(lia)) as (l & T & tab & Hw). destruct exited_facts as (Hf & _).
  apply (wait_stat_fault_locks 1 machine1 [] exited 0 8192 0%nat l T tab quiet1 Hf Hw).
  - intros H. lia.
  - split; [lia|]. exists 8192. split; [unfold in_copy; lia|]. vm_compute. reflexivity.
Defined.

(** ** The priorities of the process table *)

Definition priorities : list Z := [TEST_HIGH_PRIORITY; HIGH_PRIORITY; NORMAL_PRIORITY; LOW_PRIORITY; TEST_LOW_PRIORITY].

(** Every process in use has one of the five priorities. *)
Definition priority_typed (d : kdata) : Prop := forall i, p_state (procs d i) <> UNUSED -> p_priority (procs d i) ∈ priorities.

Lemma typed_fork p d l tab ip r d' l' : forkable p d l tab ip -> priority_typed d ->
  (r = -1 /\ fork_nothing d l d' l' \/ exists np, find (unused d) all_procs = Some np /\ r = nextpid d /\ fork_child p d l tab ip np d' l') -> priority_typed d'.
Proof.
  intros Hf Ht [(_ & _ & _ & _ & H)|(np & _ & _ & tf & root & tabc & C & Ho & _)] i Hi.
  - destruct (H i) as [E|(_ & E & _)]; [|done]. rewrite E in *. by apply Ht.
  - destruct (decide (i = np)) as [->|Hne]; [rewrite (co_prio _ _ _ _ _ _ _ _ C); apply Ht, Hf|]. rewrite Ho in * by done. by apply Ht.
Qed.

Lemma typed_wait p np d l T tab addr perf r hl d' : priority_typed d -> wait_post p np d l T tab addr perf r hl d' -> priority_typed d'.
Proof.
  assert (forall d', procs d' = procs d -> priority_typed d -> priority_typed d') as Hsame by (intros d1 E H i; rewrite E; apply H).
  intros Ht [d1 _ _ [E _ _ _]|d1 _ U|d1 _ _ U]; [|by destruct (pstep_only _ _ _ (uu_only _ _ _ _ U)); apply Hsame..].
  intros i. rewrite E. unfold fupd. case_decide; [done|apply Ht].
Qed.


Lemma one_page_typed : priority_typed one_page.
Proof.
  intros i. destruct one_page_proc as [-> _]. rewrite bare_procs. unfold fupd. destruct (decide (i = 1%nat)); [intros _; apply (bool_decide_unpack _); reflexivity|done].
Qed.

