(* ===== verification/Exec.v ===== *)
(** * exec (kernel/exec.c)

    The argument vector is the list of the addresses of its strings, which are
    in physical memory.  Every [goto bad] is a call of [exec_bad] with the current
    values of pagetable, sz and ip. *)

From S2P Require Import Prelude State Spinlock CString Kalloc Sched Vm ProcMem Sleeplock Bio Log Fs Uart Console File Proc.
Open Scope Z_scope.

(** ** elf.h *)

Definition ELF_MAGIC : Z := 0x464C457F.
Definition ELF_PROG_LOAD : Z := 1.
Definition sizeof_elfhdr : Z := 64.
Definition sizeof_proghdr : Z := 56.

Record elfhdr := mkElf { e_magic : Z; e_entry : Z; e_phoff : Z; e_phnum : Z }.
Record proghdr := mkPh { ph_type : Z; ph_off : Z; ph_vaddr : Z; ph_filesz : Z; ph_memsz : Z }.

Definition elf_of (m : bytes) : elfhdr := mkElf (ldn 4 m 0) (ld64 m 24) (ld64 m 32) (ldn 2 m 56).
Definition ph_of (m : bytes) : proghdr :=
  mkPh (ldn 4 m 0) (ld64 m 8) (ld64 m 16) (ld64 m 32) (ld64 m 40).

Section Exec.
Context `{D : DiskDriver}.

Definition loadseg (pagetable va : Z) (ip : nat) (offset sz : Z) : M Z :=
  if negb (va mod PGSIZE =? 0) then panic "loadseg: va must be page aligned" else
  let* r := forE (pages_below 0 sz) (fun i =>
    let* pa := walkaddr pagetable (u64 (va + i)) in
    if pa =? 0 then panic "loadseg: address should exist" else
    let n := if sz - i <? PGSIZE then sz - i else PGSIZE in
    let* r := readi ip (DMem pa) (u32 (offset + i)) n in
    if negb (fst r =? n) then ret (Some (-1)) else ret None) in
  match r with Some v => ret v | None => ret 0 end.

Definition exec_bad (pagetable sz : Z) (ip : option nat) : M Z :=
  when (negb (pagetable =? 0)) (proc_freepagetable pagetable sz);;
  match ip with
  | Some ip => iunlockput ip;; end_op
  | None => ret tt
  end;;
  ret (-1).

(** Load program into memory: [n] headers from file offset [off]; [inl sz] is a
    [goto bad] with that [sz], [inr sz] the end of the loop. *)
Fixpoint exec_load (n : nat) (pagetable : Z) (ip : nat) (off sz : Z) : M (Z + Z) :=
  match n with
  | O => ret (inr sz)
  | S n' =>
      let* r := readi ip DLocal (u32 off) sizeof_proghdr in
      if negb (fst r =? sizeof_proghdr) then ret (inl sz) else
      let ph := ph_of (local_bytes (snd r)) in
      let next := i32 (off + sizeof_proghdr) in
      if negb (ph_type ph =? ELF_PROG_LOAD) then exec_load n' pagetable ip next sz else
      if ph_memsz ph <? ph_filesz ph then ret (inl sz) else
      if u64 (ph_vaddr ph + ph_memsz ph) <? ph_vaddr ph then ret (inl sz) else
      let* sz1 := uvmalloc pagetable sz (u64 (ph_vaddr ph + ph_memsz ph)) in
      if sz1 =? 0 then ret (inl sz) else
      if negb (ph_vaddr ph mod PGSIZE =? 0) then ret (inl sz1) else
      let* l := loadseg pagetable (ph_vaddr ph) ip (u32 (ph_off ph)) (u32 (ph_filesz ph)) in
      if l <? 0 then ret (inl sz1) else
      exec_load n' pagetable ip next sz1
  end.

(** strlen of a string in memory; exec's strings end within a page. *)
Definition kstrlen (s : Z) : M Z :=
  let* r := getmem (fun m => strlen (Z.to_nat PGSIZE) m s 0) in
  match r with Some n => ret n | None => hang end.

(** Push argument strings: [ustack] holds the addresses so far; [None] is a [goto bad]. *)
Fixpoint push_args (pagetable stackbase : Z) (argv : list Z) (sp : Z) (ustack : list Z) : M (option (Z * list Z)) :=
  match argv with
  | [] => ret (Some (sp, ustack))
  | s :: argv' =>
      if Z.of_nat (length ustack) >=? MAXARG then ret None else
      let* len := kstrlen s in
      let sp := u64 (sp - (len + 1)) in
      let sp := sp - sp mod 16 in (* riscv sp must be 16-byte aligned *)
      if sp <? stackbase then ret None else
      let* str := getmem (fun m => peekn m s (Z.to_nat (len + 1))) in
      let* r := copyout pagetable sp str in
      if r <? 0 then ret None else
      push_args pagetable stackbase argv' sp (ustack ++ [sp])
  end.

(** The bytes of an array of 64-bit words. *)
Definition words_bytes (l : list Z) : list Z := concat (map (fun v => peekn (st64 (fun _ => 0) 0 v) 0 8) l).

(** The characters after the last slash. *)
Fixpoint last_elem (path last : list Z) : list Z :=
  match path with
  | [] => last
  | c :: p => last_elem p (if c =? slash then p else last)
  end.

(** From the image loaded to the commit; [sz] is the program's size. *)
Definition exec_stack (path : list Z) (argv : list Z) (pagetable sz entry : Z) : M Z :=
  let* p := myproc_deref in
  let* oldsz := getp p p_sz in
  (* Allocate two pages at the next page boundary. Use the second as the user stack. *)
  let sz := PGROUNDUP sz in
  let* sz1 := uvmalloc pagetable sz (u64 (sz + 2 * PGSIZE)) in
  if sz1 =? 0 then exec_bad pagetable sz None else
  let sz := sz1 in
  uvmclear pagetable (u64 (sz - 2 * PGSIZE));;
  let stackbase := u64 (sz - PGSIZE) in
  let* r := push_args pagetable stackbase argv sz [] in
  match r with
  | None => exec_bad pagetable sz None
  | Some (sp, ustack) =>
      let argc := Z.of_nat (length ustack) in
      (* push the array of argv[] pointers. *)
      let sp := u64 (sp - (argc + 1) * 8) in
      let sp := sp - sp mod 16 in
      if sp <? stackbase then exec_bad pagetable sz None else
      let* r := copyout pagetable sp (words_bytes (ustack ++ [0])) in
      if r <? 0 then exec_bad pagetable sz None else
      set_tf p tf_a1 sp;;
      (* Save program name for debugging. *)
      setp p (fun q => set_p_name (safestrcpy (p_name q) 0 (local_bytes (last_elem path path)) 0 16) q);;
      (* Commit to the user image. *)
      let* oldpagetable := getp p p_pagetable in
      setp p (set_p_pagetable pagetable);;
      setp p (set_p_sz sz);;
      set_tf p tf_epc entry;;
      set_tf p tf_sp sp;;
      proc_freepagetable oldpagetable oldsz;;
      ret argc
  end.

Definition exec (path : list Z) (argv : list Z) : M Z :=
  let* p := myproc in
  begin_op;;
  let* r := namei path in
  match r with
  | None => end_op;; ret (-1)
  | Some ip =>
      ilock (Some ip);;
      (* Check ELF header *)
      let* r := readi ip DLocal 0 sizeof_elfhdr in
      if negb (fst r =? sizeof_elfhdr) then exec_bad 0 0 (Some ip) else
      let elf := elf_of (local_bytes (snd r)) in
      if negb (e_magic elf =? ELF_MAGIC) then exec_bad 0 0 (Some ip) else
      let* p := deref p in
      let* pagetable := proc_pagetable p in
      if pagetable =? 0 then exec_bad 0 0 (Some ip) else
      let* r := exec_load (Z.to_nat (e_phnum elf)) pagetable ip (i32 (e_phoff elf)) 0 in
      match r with
      | inl sz => exec_bad pagetable sz (Some ip)
      | inr sz =>
          iunlockput ip;;
          end_op;;
          exec_stack path argv pagetable sz (e_entry elf)
      end
  end.
End Exec.
