(* ===== verification/Syscall.v ===== *)
(** * System calls (kernel/syscall.c, sysproc.c, sysfile.c)

    Arguments come from the trapframe; each handler returns the value stored to
    a0.  A path argument is the list of its characters, as fetchstr() copied it. *)

From S2P Require Import Prelude State Spinlock CString Kalloc Sched Vm ProcMem Sleeplock Bio Log Fs Uart Console File Proc Exec.
Open Scope Z_scope.

(** ** Argument fetching *)

Definition fetchaddr (addr : Z) : M (Z * Z) :=
  let* p := myproc_deref in
  let* sz := getp p p_sz in
  if (addr >=? sz) || (u64 (addr + 8) >? sz) then ret (-1, 0) else
  let* pt := getp p p_pagetable in
  let* r := copyin pt addr 8 in
  if negb (fst r =? 0) then ret (-1, 0) else
  ret (0, ld64 (local_bytes (snd r)) 0).

(** The length and the characters, or -1. *)
Definition fetchstr (addr max : Z) : M (Z * list Z) :=
  let* p := myproc_deref in
  let* pt := getp p p_pagetable in
  let* r := copyinstr pt addr max in
  if fst r <? 0 then ret (fst r, []) else
  let s := cstrn (local_bytes (snd r)) 0 (length (snd r)) in
  ret (Z.of_nat (length s), s).

(** fetchstr() into a buffer in physical memory. *)
Definition fetchstr_mem (addr buf max : Z) : M Z :=
  let* p := myproc_deref in
  let* pt := getp p p_pagetable in
  let* r := copyinstr pt addr max in
  setmem (fun m => memput m buf (snd r));;
  if fst r <? 0 then ret (fst r) else kstrlen buf.

Definition argraw (n : Z) : M Z :=
  let* p := myproc_deref in
  if (0 <=? n) && (n <=? 5) then get_tf p (tf_a0 + 8 * n) else panic "argraw".

Definition argint (n : Z) : M Z := let* v := argraw n in ret (i32 v).
Definition argaddr (n : Z) : M Z := argraw n.
Definition argstr (n max : Z) : M (Z * list Z) :=
  let* addr := argaddr n in
  fetchstr addr max.

(** The descriptor and its file; [None] for -1. *)
Definition argfd (n : Z) : M (option (Z * nat)) :=
  let* fd := argint n in
  if (fd <? 0) || (fd >=? Z.of_nat NOFILE) then ret None else
  let* p := myproc_deref in
  let* f := getp p (fun q => p_ofile q (Z.to_nat fd)) in
  match f with None => ret None | Some f => ret (Some (fd, f)) end.

Definition free_fd (ofile : nat -> option nat) : option nat :=
  find (fun fd => bool_decide (ofile fd = None)) (seq 0 NOFILE).

Definition fdalloc (f : nat) : M Z :=
  let* p := myproc_deref in
  let* r := getp p (fun q => free_fd (p_ofile q)) in
  match r with
  | Some fd => setp p (fun q => set_p_ofile (p_ofile q).[fd := Some f] q);; ret (Z.of_nat fd)
  | None => ret (-1)
  end.

Definition clear_fd (p : nat) (fd : Z) : M unit :=
  setp p (fun q => set_p_ofile (p_ofile q).[Z.to_nat fd := None] q).

(** ** sysproc.c *)

Section Sysproc.
Context `{D : DiskDriver}.

Definition sys_exit : M Z :=
  let* n := argint 0 in
  exit n;;
  ret 0.

Definition sys_getpid : M Z := let* p := myproc_deref in getp p p_pid.
Definition sys_fork : M Z := fork.
Definition sys_wait : M Z := let* p := argaddr 0 in wait p.

Definition sys_sbrk : M Z :=
  let* n := argint 0 in
  let* p := myproc_deref in
  let* sz := getp p p_sz in
  let addr := i32 sz in
  let* r := growproc n in
  if r <? 0 then ret (-1) else ret addr.

(** [ticks - ticks0 < n] compares as uint. *)
Definition sys_sleep : M Z :=
  let* n := argint 0 in
  acquire LK_ticks;;
  let* ticks0 := gets ticks in
  loop (fun _ : unit =>
    let* t := gets ticks in
    if u32 (t - ticks0) <? u32 n then
      let* p := myproc_deref in
      let* k := getp p p_killed in
      if negb (k =? 0) then release LK_ticks;; ret (inr (-1))
      else sleep CH_ticks LK_ticks;; ret (inl tt)
    else release LK_ticks;; ret (inr 0)) tt.

Definition sys_set_priority : M Z := let* prio := argint 0 in set_priority prio.
Definition sys_trace : M Z :=
  let* mask := argint 0 in
  let* pid := argint 1 in
  trace mask pid.
Definition sys_kill : M Z := let* pid := argint 0 in kill pid.

Definition sys_uptime : M Z :=
  acquire LK_ticks;;
  let* xticks := gets ticks in
  release LK_ticks;;
  ret xticks.

Definition sys_wait_stat : M Z :=
  let* p := myproc_deref in
  let* tmp := get_tf p tf_a1 in
  let* status := argint 0 in
  wait_stat status tmp.
End Sysproc.

(** ** sysfile.c *)

Definition O_RDONLY : Z := 0x000.
Definition O_WRONLY : Z := 0x001.
Definition O_RDWR : Z := 0x002.
Definition O_CREATE : Z := 0x200.
Definition O_TRUNC : Z := 0x400.

Section Sysfile.
Context `{D : DiskDriver}.

Definition sys_dup : M Z :=
  let* r := argfd 0 in
  match r with
  | None => ret (-1)
  | Some (_, f) =>
      let* fd := fdalloc f in
      if fd <? 0 then ret (-1) else
      filedup f;;
      ret fd
  end.

Definition sys_read : M Z :=
  let* r := argfd 0 in
  match r with
  | None => ret (-1)
  | Some (_, f) => let* n := argint 2 in let* p := argaddr 1 in fileread f p n
  end.

Definition sys_write : M Z :=
  let* r := argfd 0 in
  match r with
  | None => ret (-1)
  | Some (_, f) => let* n := argint 2 in let* p := argaddr 1 in filewrite f p n
  end.

Definition sys_close : M Z :=
  let* r := argfd 0 in
  match r with
  | None => ret (-1)
  | Some (fd, f) =>
      let* p := myproc_deref in
      clear_fd p fd;;
      fileclose f;;
      ret 0
  end.

Definition sys_fstat : M Z :=
  let* r := argfd 0 in
  match r with
  | None => ret (-1)
  | Some (_, f) => let* st := argaddr 1 in filestat f st
  end.

(** Label [bad] of sys_link(). *)
Definition link_bad (ip : nat) : M Z :=
  ilock (Some ip);;
  setino ip (fun r => set_i_nlink (i16 (i_nlink r - 1)) r);;
  iupdate ip;;
  iunlockput ip;;
  end_op;;
  ret (-1).

Definition sys_link : M Z :=
  let* old := argstr 0 MAXPATH in
  if fst old <? 0 then ret (-1) else
  let* new := argstr 1 MAXPATH in
  if fst new <? 0 then ret (-1) else
  begin_op;;
  let* r := namei (snd old) in
  match r with
  | None => end_op;; ret (-1)
  | Some ip =>
      ilock (Some ip);;
      let* t := getino ip i_type in
      if t =? T_DIR then iunlockput ip;; end_op;; ret (-1) else
      setino ip (fun r => set_i_nlink (i16 (i_nlink r + 1)) r);;
      iupdate ip;;
      iunlock (Some ip);;
      let* r := nameiparent (snd new) (fun _ => 0) in
      match r with
      | (None, _) => link_bad ip
      | (Some dp, name) =>
          ilock (Some dp);;
          let* ddev := getino dp i_dev in
          let* idev := getino ip i_dev in
          let* inum := getino ip i_inum in
          let* bad := (if negb (ddev =? idev) then ret true
                       else let* l := dirlink dp name inum in ret (l <? 0)) in
          if bad then iunlockput dp;; link_bad ip else
          iunlockput dp;;
          iput ip;;
          end_op;;
          ret 0
      end
  end.

Definition isdirempty (dp : nat) : M bool :=
  let* size := getino dp i_size in
  let* r := forE (drop 2 (dirent_offs size)) (fun off =>
    let* r := readi dp DLocal off sizeof_dirent in
    if negb (fst r =? sizeof_dirent) then panic "isdirempty: readi" else
    if negb (de_inum (local_bytes (snd r)) =? 0) then ret (Some false) else ret None) in
  match r with Some b => ret b | None => ret true end.

Definition unlink_bad (dp : nat) : M Z :=
  iunlockput dp;;
  end_op;;
  ret (-1).

Definition sys_unlink : M Z :=
  let* path := argstr 0 MAXPATH in
  if fst path <? 0 then ret (-1) else
  begin_op;;
  let* r := nameiparent (snd path) (fun _ => 0) in
  match r with
  | (None, _) => end_op;; ret (-1)
  | (Some dp, name) =>
      ilock (Some dp);;
      (* Cannot unlink . or .. *)
      if (namecmp name (local_bytes (chars ".")) =? 0) || (namecmp name (local_bytes (chars "..")) =? 0)
      then unlink_bad dp else
      let* r := dirlookup dp name in
      match r with
      | None => unlink_bad dp
      | Some (ip, off) =>
          ilock (Some ip);;
          let* nl := getino ip i_nlink in
          if nl <? 1 then panic "unlink: nlink < 1" else
          let* t := getino ip i_type in
          let* busy := (if t =? T_DIR then let* e := isdirempty ip in ret (negb e) else ret false) in
          if busy then iunlockput ip;; unlink_bad dp else
          let* w := writei dp (SLocal (repeat 0 16)) off sizeof_dirent in
          if negb (w =? sizeof_dirent) then panic "unlink: writei" else
          let* t := getino ip i_type in
          when (t =? T_DIR)
            (setino dp (fun r => set_i_nlink (i16 (i_nlink r - 1)) r);; iupdate dp);;
          iunlockput dp;;
          setino ip (fun r => set_i_nlink (i16 (i_nlink r - 1)) r);;
          iupdate ip;;
          iunlockput ip;;
          end_op;;
          ret 0
      end
  end.

Definition create (path : list Z) (type major minor : Z) : M (option nat) :=
  let* r := nameiparent path (fun _ => 0) in
  match r with
  | (None, _) => ret None
  | (Some dp, name) =>
      ilock (Some dp);;
      let* r := dirlookup dp name in
      match r with
      | Some (ip, _) =>
          iunlockput dp;;
          ilock (Some ip);;
          let* t := getino ip i_type in
          if (type =? T_FILE) && ((t =? T_FILE) || (t =? T_DEVICE)) then ret (Some ip) else
          iunlockput ip;;
          ret None
      | None =>
          let* dev := getino dp i_dev in
          let* ip := ialloc dev type in
          ilock (Some ip);;
          setino ip (set_i_major (i16 major));;
          setino ip (set_i_minor (i16 minor));;
          setino ip (set_i_nlink 1);;
          iupdate ip;;
          let* inum := getino ip i_inum in
          when (type =? T_DIR)
            ((* Create . and .. entries. *)
             setino dp (fun r => set_i_nlink (i16 (i_nlink r + 1)) r);;
             iupdate dp;;
             let* a := dirlink ip (local_bytes (chars ".")) inum in
             if a <? 0 then panic "create dots" else
             let* dinum := getino dp i_inum in
             let* b := dirlink ip (local_bytes (chars "..")) dinum in
             if b <? 0 then panic "create dots" else ret tt);;
          let* l := dirlink dp name inum in
          if l <? 0 then panic "create: dirlink" else
          iunlockput dp;;
          ret (Some ip)
      end
  end.

Definition has_flag (omode f : Z) : bool := negb (Z.land omode f =? 0).

(** From the locked inode to the descriptor. *)
Definition open_inode (ip : nat) (omode : Z) : M Z :=
  let* t := getino ip i_type in
  let* mj := getino ip i_major in
  if (t =? T_DEVICE) && ((mj <? 0) || (mj >=? NDEV)) then iunlockput ip;; end_op;; ret (-1) else
  let* f := filealloc in
  match f with
  | None => iunlockput ip;; end_op;; ret (-1)
  | Some f =>
      let* fd := fdalloc f in
      if fd <? 0 then fileclose f;; iunlockput ip;; end_op;; ret (-1) else
      (if t =? T_DEVICE then setf f (set_f_type FD_DEVICE);; setf f (set_f_major mj)
       else setf f (set_f_type FD_INODE);; setf f (set_f_off 0));;
      setf f (set_f_ip (Some ip));;
      setf f (set_f_readable (if has_flag omode O_WRONLY then 0 else 1));;
      setf f (set_f_writable (if has_flag omode O_WRONLY || has_flag omode O_RDWR then 1 else 0));;
      when (has_flag omode O_TRUNC && (t =? T_FILE)) (itrunc ip);;
      iunlock (Some ip);;
      end_op;;
      ret fd
  end.

Definition sys_open : M Z :=
  let* path := argstr 0 MAXPATH in
  if fst path <? 0 then ret (-1) else
  let* omode := argint 1 in
  begin_op;;
  if has_flag omode O_CREATE then
    let* r := create (snd path) T_FILE 0 0 in
    match r with
    | None => end_op;; ret (-1)
    | Some ip => open_inode ip omode
    end
  else
    let* r := namei (snd path) in
    match r with
    | None => end_op;; ret (-1)
    | Some ip =>
        ilock (Some ip);;
        let* t := getino ip i_type in
        if (t =? T_DIR) && negb (omode =? O_RDONLY) then iunlockput ip;; end_op;; ret (-1)
        else open_inode ip omode
    end.

Definition sys_mkdir : M Z :=
  begin_op;;
  let* path := argstr 0 MAXPATH in
  let* r := (if fst path <? 0 then ret None else create (snd path) T_DIR 0 0) in
  match r with
  | None => end_op;; ret (-1)
  | Some ip => iunlockput ip;; end_op;; ret 0
  end.

Definition sys_mknod : M Z :=
  begin_op;;
  let* path := argstr 0 MAXPATH in
  let* r := (if fst path <? 0 then ret None else
             let* major := argint 1 in
             let* minor := argint 2 in
             create (snd path) T_DEVICE major minor) in
  match r with
  | None => end_op;; ret (-1)
  | Some ip => iunlockput ip;; end_op;; ret 0
  end.

Definition sys_chdir : M Z :=
  let* p := myproc_deref in
  begin_op;;
  let* path := argstr 0 MAXPATH in
  let* r := (if fst path <? 0 then ret None else namei (snd path)) in
  match r with
  | None => end_op;; ret (-1)
  | Some ip =>
      ilock (Some ip);;
      let* t := getino ip i_type in
      if negb (t =? T_DIR) then iunlockput ip;; end_op;; ret (-1) else
      iunlock (Some ip);;
      let* cwd := getp p p_cwd in
      let* cwd := deref cwd in
      iput cwd;;
      end_op;;
      setp p (set_p_cwd (Some ip));;
      ret 0
  end.

(** Fetch the argument strings into fresh pages: the pages so far and whether all
    went well; [n] entries of argv[MAXARG] are left. *)
Fixpoint exec_args (n : nat) (uargv : Z) (argv : list Z) : M (bool * list Z) :=
  match n with
  | O => ret (false, argv)
  | S n' =>
      let* r := fetchaddr (u64 (uargv + 8 * Z.of_nat (length argv))) in
      if fst r <? 0 then ret (false, argv) else
      if snd r =? 0 then ret (true, argv) else
      let* pg := kalloc in
      if pg =? 0 then ret (false, argv) else
      let* s := fetchstr_mem (snd r) pg PGSIZE in
      if s <? 0 then ret (false, argv ++ [pg]) else
      exec_args n' uargv (argv ++ [pg])
  end.

Definition sys_exec : M Z :=
  let* path := argstr 0 MAXPATH in
  if fst path <? 0 then ret (-1) else
  let* uargv := argaddr 1 in
  let* r := exec_args (Z.to_nat MAXARG) uargv [] in
  let '(ok, argv) := r in
  let* ret_ := (if ok : bool then exec (snd path) argv else ret (-1)) in
  forM argv kfree;;
  ret ret_.

Definition sys_pipe : M Z :=
  let* p := myproc_deref in
  let* fdarray := argaddr 0 in
  let* r := pipealloc in
  match r with
  | (0, Some rf, Some wf) =>
      let* fd0 := fdalloc rf in
      let* fd1 := (if fd0 <? 0 then ret (-1) else fdalloc wf) in
      if (fd0 <? 0) || (fd1 <? 0) then
        when (0 <=? fd0) (clear_fd p fd0);;
        fileclose rf;;
        fileclose wf;;
        ret (-1)
      else
        let* pt := getp p p_pagetable in
        let* a := copyout pt fdarray (int_bytes fd0) in
        let* b := (if a <? 0 then ret (-1) else copyout pt (u64 (fdarray + 4)) (int_bytes fd1)) in
        if (a <? 0) || (b <? 0) then
          clear_fd p fd0;;
          clear_fd p fd1;;
          fileclose rf;;
          fileclose wf;;
          ret (-1)
        else ret 0
  | _ => ret (-1)
  end.

(** ** syscall.c *)

(** The table [syscalls], by number (syscall.h). *)
Definition syscalls (num : Z) : option (M Z) :=
  match num with
  | 1 => Some sys_fork
  | 2 => Some sys_exit
  | 3 => Some sys_wait
  | 4 => Some sys_pipe
  | 5 => Some sys_read
  | 6 => Some sys_kill
  | 7 => Some sys_exec
  | 8 => Some sys_fstat
  | 9 => Some sys_chdir
  | 10 => Some sys_dup
  | 11 => Some sys_getpid
  | 12 => Some sys_sbrk
  | 13 => Some sys_sleep
  | 14 => Some sys_uptime
  | 15 => Some sys_open
  | 16 => Some sys_write
  | 17 => Some sys_mknod
  | 18 => Some sys_unlink
  | 19 => Some sys_link
  | 20 => Some sys_mkdir
  | 21 => Some sys_close
  | 22 => Some sys_trace
  | 23 => Some sys_wait_stat
  | 24 => Some sys_set_priority
  | _ => None
  end.
End Sysfile.

Definition SYS_fork : Z := 1.
Definition SYS_kill : Z := 6.
Definition SYS_sbrk : Z := 12.

Definition sys_calls_names : list string :=
  [""; "fork"; "exit"; "wait"; "pipe"; "read"; "kill"; "exec";
   "fstat"; "chdir"; "dup"; "getpid"; "sbrk"; "sleep"; "uptime"; "open"; "write"; "mknod";
   "unlink"; "link"; "mkdir"; "close"; "trace"; "wait_stat"; "set_priority"].

(** p->mask & (1 << num): the shift amount is taken modulo 32. *)
Definition traced (mask num : Z) : bool := negb (Z.land mask (i32 (Z.shiftl 1 (num mod 32))) =? 0).

Definition newline : string := String (Ascii.ascii_of_nat 10) EmptyString.

(** The trace line: format and arguments. *)
Definition trace_line (pid num argument ret_ : Z) (name : string) : string * list fmtarg :=
  if num =? SYS_fork then
    (("%d: syscall %s NULL -> %d" +:+ newline)%string, [AInt pid; AStr (Some (chars name)); AInt ret_])
  else if (num =? SYS_kill) || (num =? SYS_sbrk) then
    (("%d: syscall %s %d -> %d" +:+ newline)%string, [AInt pid; AStr (Some (chars name)); AInt argument; AInt ret_])
  else
    (("%d: syscall %s -> %d" +:+ newline)%string, [AInt pid; AStr (Some (chars name)); AInt ret_]).

Definition syscall `{D : DiskDriver} : M unit :=
  let* p := myproc_deref in
  let* a7 := get_tf p tf_a7 in
  let num := i32 a7 in
  let* argument := (if (num =? SYS_fork) || (num =? SYS_kill) || (num =? SYS_sbrk) then argint 0 else ret 0) in
  match syscalls num with
  | Some f => let* v := f in set_tf p tf_a0 (u64 v)
  | None =>
      let* pid := getp p p_pid in
      let* name := getp p p_name in
      printf ("%d %s: unknown sys call %d" +:+ newline) [AInt pid; AStr (Some (cstrn name 0 16)); AInt num];;
      set_tf p tf_a0 (u64 (-1))
  end;;
  let* a0 := get_tf p tf_a0 in
  let ret_ := i32 a0 in
  let* mask := getp p p_mask in
  if traced mask num then
    let* pid := getp p p_pid in
    match (if num <? 0 then None else nth_error sys_calls_names (Z.to_nat num)) with
    | Some name => let '(fmt, args) := trace_line pid num argument ret_ name in printf fmt args
    | None => hang (* reads past the end of sys_calls_names *)
    end
  else ret tt.
