(* ===== verification/Virtio.v ===== *)
(** * The virtio disk driver (kernel/virtio_disk.c)

    The driver's side of the virtqueue: descriptors, the avail and used rings,
    and the wait for the completion interrupt.  The device itself is part of the
    rest of the machine: it acts at the steps of the schedule. *)

From S2P Require Import Prelude State Spinlock CString Kalloc Sched Vm Sleeplock Bio Log.
Open Scope Z_scope.

Definition NUM : nat := 8.
Definition VRING_DESC_F_NEXT : Z := 1.
Definition VRING_DESC_F_WRITE : Z := 2.
Definition VIRTIO_BLK_T_IN : Z := 0.
Definition VIRTIO_BLK_T_OUT : Z := 1.

(** Register offsets (virtio.h) *)
Definition VIRTIO_MMIO_MAGIC_VALUE : Z := 0x000.
Definition VIRTIO_MMIO_VERSION : Z := 0x004.
Definition VIRTIO_MMIO_DEVICE_ID : Z := 0x008.
Definition VIRTIO_MMIO_VENDOR_ID : Z := 0x00c.
Definition VIRTIO_MMIO_DEVICE_FEATURES : Z := 0x010.
Definition VIRTIO_MMIO_DRIVER_FEATURES : Z := 0x020.
Definition VIRTIO_MMIO_GUEST_PAGE_SIZE : Z := 0x028.
Definition VIRTIO_MMIO_QUEUE_SEL : Z := 0x030.
Definition VIRTIO_MMIO_QUEUE_NUM_MAX : Z := 0x034.
Definition VIRTIO_MMIO_QUEUE_NUM : Z := 0x038.
Definition VIRTIO_MMIO_QUEUE_PFN : Z := 0x040.
Definition VIRTIO_MMIO_QUEUE_NOTIFY : Z := 0x050.
Definition VIRTIO_MMIO_INTERRUPT_STATUS : Z := 0x060.
Definition VIRTIO_MMIO_INTERRUPT_ACK : Z := 0x064.
Definition VIRTIO_MMIO_STATUS : Z := 0x070.

Definition getv {A} (f : disk_t -> A) : M A := getfs (fun x => f (vdisk x)).
Definition setv (f : disk_t -> disk_t) : M unit := setfs (fun x => set_vdisk (f (vdisk x)) x).
Definition setdesc (i : nat) (f : virtq_desc -> virtq_desc) : M unit :=
  setv (fun v => set_v_desc (v_desc v).[i := f (v_desc v i)] v).

Definition rdreg (r : Z) : M Z := getv (fun v => v_regs v r).
Definition wrreg (r x : Z) : M unit := setv (fun v => set_v_out ((r, u32 x) :: v_out v) v).

(** features &= ~(1 << bit) for the bits the driver does not use *)
Definition clear_bits (features : Z) (bits : list Z) : Z :=
  fold_left (fun f b => Z.land f (Z.lnot (Z.shiftl 1 b))) bits features.

(** [pages] is the physical address of disk.pages. *)
Definition virtio_disk_init (pages : Z) : M unit :=
  initlock LK_vdisk "virtio_disk";;
  let* magic := rdreg VIRTIO_MMIO_MAGIC_VALUE in
  let* version := rdreg VIRTIO_MMIO_VERSION in
  let* devid := rdreg VIRTIO_MMIO_DEVICE_ID in
  let* vendor := rdreg VIRTIO_MMIO_VENDOR_ID in
  if negb (magic =? 0x74726976) || negb (version =? 1) || negb (devid =? 2) || negb (vendor =? 0x554d4551)
  then panic "could not find virtio disk" else
  wrreg VIRTIO_MMIO_STATUS 1;;
  wrreg VIRTIO_MMIO_STATUS 3;;
  (* negotiate features *)
  let* features := rdreg VIRTIO_MMIO_DEVICE_FEATURES in
  wrreg VIRTIO_MMIO_DRIVER_FEATURES (clear_bits features [5; 7; 11; 12; 27; 29; 28]);;
  (* tell device that feature negotiation is complete. *)
  wrreg VIRTIO_MMIO_STATUS 11;;
  (* tell device we're completely ready. *)
  wrreg VIRTIO_MMIO_STATUS 15;;
  wrreg VIRTIO_MMIO_GUEST_PAGE_SIZE PGSIZE;;
  (* initialize queue 0. *)
  wrreg VIRTIO_MMIO_QUEUE_SEL 0;;
  let* max := rdreg VIRTIO_MMIO_QUEUE_NUM_MAX in
  if max =? 0 then panic "virtio disk has no queue 0" else
  if max <? Z.of_nat NUM then panic "virtio disk max queue too short" else
  wrreg VIRTIO_MMIO_QUEUE_NUM (Z.of_nat NUM);;
  (* memset(disk.pages, 0, sizeof(disk.pages)): descriptors and both rings *)
  setv (fun v => set_v_used_ring (fun _ => 0) (set_v_used_dev_idx 0 (set_v_avail_ring (fun _ => 0)
         (set_v_avail_idx 0 (set_v_desc (fun _ => mkDesc DP_null 0 0 0) v)))));;
  wrreg VIRTIO_MMIO_QUEUE_PFN (Z.shiftr pages PGSHIFT);;
  (* all NUM descriptors start out unused. *)
  forM (seq 0 NUM) (fun i => setv (fun v => set_v_free (v_free v).[i := 1] v)).

Definition free_index (fr : nat -> Z) : option nat := find (fun i => negb (fr i =? 0)) (seq 0 NUM).

(** [None] for -1 *)
Definition alloc_desc : M (option nat) :=
  let* r := getv (fun v => free_index (v_free v)) in
  match r with
  | Some i => setv (fun v => set_v_free (v_free v).[i := 0] v);; ret (Some i)
  | None => ret None
  end.

Definition free_desc (i : nat) : M unit :=
  if (NUM <=? i)%nat then panic "free_desc 1" else
  let* f := getv (fun v => v_free v i) in
  if negb (f =? 0) then panic "free_desc 2" else
  setdesc i (fun _ => mkDesc DP_null 0 0 0);;
  setv (fun v => set_v_free (v_free v).[i := 1] v);;
  wakeup CH_disk_free.

(** A chain that comes back to a freed descriptor panics, so NUM+1 steps are enough. *)
Fixpoint free_chain_loop (fuel i : nat) : M unit :=
  match fuel with
  | O => fun _ s => Stop Waiting s
  | S f =>
      let* flag := getv (fun v => vd_flags (v_desc v i)) in
      let* nxt := getv (fun v => vd_next (v_desc v i)) in
      free_desc i;;
      if negb (Z.land flag VRING_DESC_F_NEXT =? 0) then free_chain_loop f (Z.to_nat nxt) else ret tt
  end.

Definition free_chain (i : nat) : M unit := free_chain_loop (S NUM) i.

(** [got] are the descriptors allocated so far; the result is [idx[0..2]], or [None] for -1. *)
Fixpoint alloc3_loop (n : nat) (got : list nat) : M (option (list nat)) :=
  match n with
  | O => ret (Some got)
  | S n' =>
      let* d := alloc_desc in
      match d with
      | Some i => alloc3_loop n' (got ++ [i])
      | None => forM got free_desc;; ret None
      end
  end.

Definition alloc3_desc : M (option (list nat)) := alloc3_loop 3 [].

Definition virtio_disk_rw (b : nat) (write : bool) : M unit :=
  let* bn := getb b b_blockno in
  let sector := u32 (bn * (BSIZE / 512)) in
  acquire LK_vdisk;;
  (* allocate the three descriptors. *)
  let* idx := loop (fun _ : unit =>
    let* r := alloc3_desc in
    match r with
    | Some l => ret (inr l)
    | None => sleep CH_disk_free LK_vdisk;; ret (inl tt)
    end) tt in
  let i0 := nth 0 idx O in
  let i1 := nth 1 idx O in
  let i2 := nth 2 idx O in
  (* format the three descriptors. *)
  setv (fun v => set_v_ops (v_ops v).[i0 :=
         mkReq (if write then VIRTIO_BLK_T_OUT else VIRTIO_BLK_T_IN) 0 sector] v);;
  setdesc i0 (fun _ => mkDesc (DP_op i0) 16 VRING_DESC_F_NEXT (Z.of_nat i1));;
  setdesc i1 (fun _ => mkDesc (DP_data b) BSIZE
    (Z.lor (if write then 0 else VRING_DESC_F_WRITE) VRING_DESC_F_NEXT) (Z.of_nat i2));;
  (* device writes 0 on success *)
  setv (fun v => set_v_info_status (v_info_status v).[i0 := 0xff] v);;
  setdesc i2 (fun _ => mkDesc (DP_status i0) 1 VRING_DESC_F_WRITE 0);;
  (* record struct buf for virtio_disk_intr(). *)
  setb b (set_b_disk 1);;
  setv (fun v => set_v_info_b (v_info_b v).[i0 := Some b] v);;
  (* tell the device the first index in our chain of descriptors. *)
  setv (fun v => set_v_avail_ring (v_avail_ring v).[v_avail_idx v mod Z.of_nat NUM := Z.of_nat i0] v);;
  (* tell the device another avail ring entry is available. *)
  setv (fun v => set_v_avail_idx (u16 (v_avail_idx v + 1)) v);;
  wrreg VIRTIO_MMIO_QUEUE_NOTIFY 0;;
  (* Wait for virtio_disk_intr() to say request has finished. *)
  loop (fun _ : unit =>
    let* k := getb b b_disk in
    if k =? 1 then sleep (CH_buf b) LK_vdisk;; ret (inl tt) else ret (inr tt)) tt;;
  setv (fun v => set_v_info_b (v_info_b v).[i0 := None] v);;
  free_chain i0;;
  release LK_vdisk.

(** One completion per iteration: [used->idx - used_idx] bounds the fuel. *)
Fixpoint intr_loop (fuel : nat) : M unit :=
  match fuel with
  | O => ret tt
  | S f =>
      let* ui := getv v_used_idx in
      let* di := getv v_used_dev_idx in
      if ui =? di then ret tt else
      let* id := getv (fun v => Z.to_nat (v_used_ring v (ui mod Z.of_nat NUM))) in
      let* st := getv (fun v => v_info_status v id) in
      if negb (st =? 0) then panic "virtio_disk_intr status" else
      let* b := getv (fun v => v_info_b v id) in
      let* b := deref b in
      setb b (set_b_disk 0);;
      wakeup (CH_buf b);;
      setv (fun v => set_v_used_idx (u16 (v_used_idx v + 1)) v);;
      intr_loop f
  end.

Definition virtio_disk_intr : M unit :=
  acquire LK_vdisk;;
  let* st := rdreg VIRTIO_MMIO_INTERRUPT_STATUS in
  wrreg VIRTIO_MMIO_INTERRUPT_ACK (Z.land st 0x3);;
  let* n := getv (fun v => u16 (v_used_dev_idx v - v_used_idx v)) in
  intr_loop (S (Z.to_nat n));;
  release LK_vdisk.
