(* ===== verification/VirtioSpec.v ===== *)
(** * The virtio driver implements the disk interface

    The driver of Virtio.v run with a device that serves one request, the
    completion interrupt and the scheduler switching back: it moves exactly one
    block, and its queue is ready again.  So it is an instance of [DiskDriver],
    the interface the buffer cache is verified against. *)

From S2P Require Import Prelude State Spinlock CString Kalloc Sched SchedSpec Wp Sleeplock Bio BioSpec Log Virtio.
Open Scope Z_scope.

(** ** The device *)

(** One request is pending: the avail ring names descriptor [id], which heads the
    chain request [k], data of buffer [b], status byte [k']. *)
Record pending (v : disk_t) (id k b k' : nat) : Prop := {
  pe_avail : v_avail_idx v = u16 (v_used_dev_idx v + 1);
  pe_ring : v_avail_ring v (v_used_dev_idx v mod Z.of_nat NUM) = Z.of_nat id;
  pe_chain : exists i1 i2,
    v_desc v id = mkDesc (DP_op k) 16 VRING_DESC_F_NEXT (Z.of_nat i1) /\
    v_desc v i1 = mkDesc (DP_data b) BSIZE
      (Z.lor (if vr_type (v_ops v k) =? VIRTIO_BLK_T_OUT then 0 else VRING_DESC_F_WRITE) VRING_DESC_F_NEXT) (Z.of_nat i2) /\
    v_desc v i2 = mkDesc (DP_status k') 1 VRING_DESC_F_WRITE 0;
}.

(** A block transfer at a sector: to the medium, or from it. *)
Definition transfer (x : fsdata) (req : virtio_blk_req) (b : nat) : fsdata :=
  let bn := vr_sector req / (BSIZE / 512) in
  if vr_type req =? VIRTIO_BLK_T_OUT
  then set_dwr ((bn, b_data (bufs x b)) :: dwr x) (set_dblk (dblk x).[bn := b_data (bufs x b)] x)
  else upd_buf b (set_b_data (dblk x bn)) x.

(** The used ring receives [id], and the status byte [k'] becomes 0. *)
Definition completed (v : disk_t) (id k' : nat) : disk_t :=
  set_v_info_status (v_info_status v).[k' := 0]
    (set_v_used_dev_idx (u16 (v_used_dev_idx v + 1))
       (set_v_used_ring (v_used_ring v).[v_used_dev_idx v mod Z.of_nat NUM := Z.of_nat id] v)).

(** What the virtio block device is documented to do with a pending request. *)
Definition device_serves (dev : fsdata -> fsdata) : Prop :=
  forall x id k b k', pending (vdisk x) id k b k' ->
    dev x = set_vdisk (completed (vdisk x) id k') (transfer x (v_ops (vdisk x) k) b).

(** ** The driver in three parts *)

Definition submit (b : nat) (write : bool) : M nat :=
  let* bn := getb b b_blockno in
  let sector := u32 (bn * (BSIZE / 512)) in
  acquire LK_vdisk;;
  let* idx := loop (fun _ : unit =>
    let* r := alloc3_desc in
    match r with
    | Some l => ret (inr l)
    | None => sleep CH_disk_free LK_vdisk;; ret (inl tt)
    end) tt in
  let i0 := nth 0 idx O in
  let i1 := nth 1 idx O in
  let i2 := nth 2 idx O in
  setv (fun v => set_v_ops (v_ops v).[i0 :=
         mkReq (if write then VIRTIO_BLK_T_OUT else VIRTIO_BLK_T_IN) 0 sector] v);;
  setdesc i0 (fun _ => mkDesc (DP_op i0) 16 VRING_DESC_F_NEXT (Z.of_nat i1));;
  setdesc i1 (fun _ => mkDesc (DP_data b) BSIZE
    (Z.lor (if write then 0 else VRING_DESC_F_WRITE) VRING_DESC_F_NEXT) (Z.of_nat i2));;
  setv (fun v => set_v_info_status (v_info_status v).[i0 := 0xff] v);;
  setdesc i2 (fun _ => mkDesc (DP_status i0) 1 VRING_DESC_F_WRITE 0);;
  setb b (set_b_disk 1);;
  setv (fun v => set_v_info_b (v_info_b v).[i0 := Some b] v);;
  setv (fun v => set_v_avail_ring (v_avail_ring v).[v_avail_idx v mod Z.of_nat NUM := Z.of_nat i0] v);;
  setv (fun v => set_v_avail_idx (u16 (v_avail_idx v + 1)) v);;
  wrreg VIRTIO_MMIO_QUEUE_NOTIFY 0;;
  ret i0.

Definition await (b : nat) : M unit :=
  loop (fun _ : unit =>
    let* k := getb b b_disk in
    if k =? 1 then sleep (CH_buf b) LK_vdisk;; ret (inl tt) else ret (inr tt)) tt.

Definition finish (i0 : nat) : M unit :=
  setv (fun v => set_v_info_b (v_info_b v).[i0 := None] v);;
  free_chain i0;;
  release LK_vdisk.

Lemma virtio_disk_rw_parts b write e s :
  Virtio.virtio_disk_rw b write e s = bind (submit b write) (fun i0 => bind (await b) (fun _ => finish i0)) e s.
Proof.
  unfold Virtio.virtio_disk_rw, submit, await, finish.
  repeat (rewrite bind_assoc; apply bind_ext; clear; intros ? e s). by rewrite bind_ret.
Qed.

(** ** The queue *)

(** All descriptors are free and nothing is in flight. *)
Record vready (v : disk_t) : Prop := {
  vr_free : forall i, (i < NUM)%nat -> v_free v i = 1;
  vr_idx : v_used_dev_idx v = v_avail_idx v /\ v_used_idx v = v_avail_idx v;
  vr_range : 0 <= v_avail_idx v < 2 ^ 16;
}.

(** A request for buffer [b] is in flight in descriptors 0, 1 and 2. *)
Record vbusy (v : disk_t) (b : nat) (write : bool) (sector : Z) : Prop := {
  vb_free : forall i, (i < NUM)%nat -> v_free v i = if decide (i < 3)%nat then 0 else 1;
  vb_desc : v_desc v 0 = mkDesc (DP_op 0) 16 VRING_DESC_F_NEXT 1 /\
            v_desc v 1 = mkDesc (DP_data b) BSIZE (Z.lor (if write then 0 else VRING_DESC_F_WRITE) VRING_DESC_F_NEXT) 2 /\
            v_desc v 2 = mkDesc (DP_status 0) 1 VRING_DESC_F_WRITE 0;
  vb_op : v_ops v 0 = mkReq (if write then VIRTIO_BLK_T_OUT else VIRTIO_BLK_T_IN) 0 sector;
  vb_info : v_info_b v 0 = Some b;
}.

Ltac wp_extra ::=
  lazymatch goal with
  | |- wp _ _ (getfs _) _ _ => apply wp_getfs
  | |- wp _ _ (setfs _) _ _ => apply wp_modify
  | |- wp _ _ (getb _ _) _ _ => apply wp_getfs
  | |- wp _ _ (setb _ _) _ _ => apply wp_modify
  | |- wp _ _ (getv _) _ _ => apply wp_getfs
  | |- wp _ _ (setv _) _ _ => apply wp_modify
  | |- wp _ _ (setdesc _ _) _ _ => apply wp_modify
  | |- wp _ _ (wrreg _ _) _ _ => apply wp_modify
  end.

Definition upd_v (f : disk_t -> disk_t) (x : fsdata) : fsdata := set_vdisk (f (vdisk x)) x.

Lemma free_index_skip fr n : (n < NUM)%nat -> (forall i, (i < n)%nat -> fr i = 0) -> fr n = 1 -> free_index fr = Some n.
Proof.
  intros Hn H0 H1. unfold free_index. replace NUM with (n + S (NUM - S n))%nat by lia. rewrite seq_app. simpl.
  rewrite find_app_or. destruct (find _ (seq 0 n)) as [i|] eqn:E.
  - apply find_some in E as [Hi%in_seq Hz]. rewrite H0 in Hz by lia. done.
  - simpl. by rewrite H1.
Qed.

Lemma wp_alloc_desc p hl d n Q :
  (n < NUM)%nat -> (forall i, (i < n)%nat -> v_free (vdisk (fs d)) i = 0) -> v_free (vdisk (fs d)) n = 1 ->
  Q (Some n) hl (upd_fs (upd_v (fun v => set_v_free (v_free v).[n := 0] v)) d) -> wp p hl alloc_desc d Q.
Proof.
  intros Hn H0 H1 HQ. unfold alloc_desc. wp_run. rewrite (free_index_skip _ n) by done. wp_run. exact HQ.
Qed.

Lemma wp_alloc3_desc p hl d Q :
  vready (vdisk (fs d)) ->
  Q (Some [0; 1; 2]%nat) hl (upd_fs (upd_v (fun v => set_v_free (v_free v).[0%nat := 0].[1%nat := 0].[2%nat := 0] v)) d) ->
  wp p hl alloc3_desc d Q.
Proof.
  intros [Hf _ _] HQ. unfold alloc3_desc. cbn [alloc3_loop].
  apply wp_bind, (wp_alloc_desc p hl d 0); [unfold NUM; lia|lia|apply Hf; unfold NUM; lia|].
  apply wp_bind, (wp_alloc_desc p hl _ 1); [unfold NUM; lia| | |].
  { intros i Hi. replace i with 0%nat by lia. done. }
  { simpl. rewrite fupd_ne by done. apply Hf. unfold NUM. lia. }
  apply wp_bind, (wp_alloc_desc p hl _ 2); [unfold NUM; lia| | |].
  { intros i Hi. simpl. unfold fupd. repeat case_decide; try done. lia. }
  { simpl. rewrite !fupd_ne by done. apply Hf. unfold NUM. lia. }
  apply wp_ret. exact HQ.
Qed.

Definition sector_of (bn : Z) : Z := u32 (bn * (BSIZE / 512)).

(** The request is in flight for [b], one ahead of the device. *)
Definition in_flight (v : disk_t) (b : nat) (write : bool) (bn a : Z) : Prop :=
  vbusy v b write (sector_of bn) /\ 0 <= a < 2 ^ 16 /\
  v_avail_idx v = u16 (a + 1) /\ v_used_dev_idx v = a /\ v_used_idx v = a /\
  v_avail_ring v (a mod Z.of_nat NUM) = 0.

Definition queued (v : disk_t) (b : nat) (write : bool) (bn : Z) : disk_t :=
  let v := set_v_free (v_free v).[0%nat := 0].[1%nat := 0].[2%nat := 0] v in
  let v := set_v_ops (v_ops v).[0%nat := mkReq (if write then VIRTIO_BLK_T_OUT else VIRTIO_BLK_T_IN) 0 (sector_of bn)] v in
  let v := set_v_desc (v_desc v).[0%nat := mkDesc (DP_op 0) 16 VRING_DESC_F_NEXT 1].[1%nat :=
    mkDesc (DP_data b) BSIZE (Z.lor (if write then 0 else VRING_DESC_F_WRITE) VRING_DESC_F_NEXT) 2].[2%nat :=
    mkDesc (DP_status 0) 1 VRING_DESC_F_WRITE 0] v in
  let v := set_v_info_status (v_info_status v).[0%nat := 0xff] v in
  let v := set_v_info_b (v_info_b v).[0%nat := Some b] v in
  let v := set_v_avail_ring (v_avail_ring v).[v_avail_idx v mod Z.of_nat NUM := 0] v in
  let v := set_v_avail_idx (u16 (v_avail_idx v + 1)) v in
  set_v_out ((VIRTIO_MMIO_QUEUE_NOTIFY, u32 0) :: v_out v) v.

Lemma queued_in_flight v b write bn : vready v -> in_flight (queued v b write bn) b write bn (v_avail_idx v).
Proof.
  intros [H1 [H2 H3] H4]. unfold in_flight. simpl. split_and!; try done; try lia; [|by rewrite fupd_eq].
  split; simpl; try done. intros i Hi. unfold fupd. repeat case_decide; subst; try done; try lia. by apply H1.
Qed.

Lemma wp_submit p d b write Q :
  vready (vdisk (fs d)) ->
  Q 0%nat [LK_vdisk] (upd_fs (fun x => set_vdisk (queued (vdisk x) b write (b_blockno (bufs x b)))
     (upd_buf b (set_b_disk 1) x)) d) ->
  wp p [] (submit b write) d Q.
Proof.
  intros Hv HQ. unfold submit. wp_run. apply wp_loop. apply wp_bind, wp_alloc3_desc; [done|]. wp_run.
  cbn [nth]. wp_run. exact HQ.
Qed.

(** free_chain() gives the three descriptors back. *)
Lemma wp_free_desc p d i Q :
  (i < NUM)%nat -> v_free (vdisk (fs d)) i = 0 ->
  (forall d', frame d d' ->
     fs d' = upd_v (fun v => set_v_free (v_free v).[i := 1] (set_v_desc (v_desc v).[i := mkDesc DP_null 0 0 0] v)) (fs d) ->
     Q tt [LK_vdisk] d') ->
  wp p [LK_vdisk] (free_desc i) d Q.
Proof.
  intros Hi Hf HQ. unfold free_desc. rewrite (proj2 (Nat.leb_gt _ _) Hi). wp_run. rewrite Hf. cbn [negb Z.eqb]. wp_run.
  apply wp_wakeup; [lk_notin|]. intros d' Hfr Efs _. apply HQ; [|by rewrite Efs].
  eapply frame_trans; [|exact Hfr]. eapply frame_trans; apply frame_upd_fs.
Qed.

Definition freed1 (i : nat) (v : disk_t) : disk_t :=
  set_v_free (v_free v).[i := 1] (set_v_desc (v_desc v).[i := mkDesc DP_null 0 0 0] v).

Lemma wp_free_chain_step p d fuel i j fl Q :
  (i < NUM)%nat -> v_free (vdisk (fs d)) i = 0 ->
  vd_flags (v_desc (vdisk (fs d)) i) = fl -> vd_next (v_desc (vdisk (fs d)) i) = Z.of_nat j ->
  (forall d', frame d d' -> fs d' = upd_v (freed1 i) (fs d) ->
     if Z.land fl VRING_DESC_F_NEXT =? 0 then Q tt [LK_vdisk] d' else wp p [LK_vdisk] (free_chain_loop fuel j) d' Q) ->
  wp p [LK_vdisk] (free_chain_loop (S fuel) i) d Q.
Proof.
  intros Hi Hf Hfl Hnx HQ. cbn [free_chain_loop]. wp_run. rewrite Hfl, Hnx, Nat2Z.id.
  apply wp_free_desc; [done|done|]. intros d' F E. specialize (HQ d' F E).
  destruct (_ =? 0); cbn [negb]; [by apply wp_ret|done].
Qed.

#[local] Arguments free_chain_loop : simpl never.

(** What finish() does to the queue. *)
Definition retire (v : disk_t) : disk_t :=
  freed1 2 (freed1 1 (freed1 0 (set_v_info_b (v_info_b v).[0%nat := None] v))).

Lemma wp_finish p d b write sector Q :
  vbusy (vdisk (fs d)) b write sector ->
  (forall d', frame d d' ->
     fs d' = upd_v retire (fs d) -> Q tt [] d') ->
  wp p [LK_vdisk] (finish 0) d Q.
Proof.
  intros [Hf (H0 & H1 & H2) _ _] HQ. unfold finish, free_chain, NUM.
  assert (forall i, (i < 3)%nat -> v_free (vdisk (fs d)) i = 0) as Hf3.
  { intros i Hi. rewrite Hf by (unfold NUM; lia). by rewrite decide_True. }
  wp_run. eapply (wp_free_chain_step p _ _ 0 1 VRING_DESC_F_NEXT); simpl; rewrite ?H0;
    [unfold NUM; lia|apply Hf3; lia|done|done|]. intros d1 F1 E1.
  eapply (wp_free_chain_step p d1 _ 1 2 _); rewrite ?E1; simpl; rewrite ?fupd_ne by done; rewrite ?H1;
    [unfold NUM; lia|apply Hf3; lia|done|done|].
  intros d2 F2 E2. simpl vd_flags. replace (_ =? 0) with false by (by destruct write).
  eapply (wp_free_chain_step p d2 _ 2 0 VRING_DESC_F_WRITE); rewrite ?E2, ?E1; simpl; rewrite ?fupd_ne by done; rewrite ?H2;
    [unfold NUM; lia|apply Hf3; lia|done|done|].
  intros d3 F3 E3. simpl. wp_run. apply HQ; [|by rewrite E3].
  eapply frame_trans; [apply frame_upd_fs|]. eapply frame_trans; [exact F1|]. by eapply frame_trans.
Qed.

(** ** The completion interrupt *)

Definition acked (v : disk_t) : disk_t :=
  set_v_used_idx (u16 (v_used_idx v + 1)) (set_v_out
    ((VIRTIO_MMIO_INTERRUPT_ACK, u32 (Z.land (v_regs v VIRTIO_MMIO_INTERRUPT_STATUS) 0x3)) :: v_out v) v).

Definition served (b : nat) (x : fsdata) : fsdata := upd_v acked (upd_buf b (set_b_disk 0) x).

Lemma wakeup_upd_fs ch me f d : wakeup_d ch me (upd_fs f d) = upd_fs (fun _ => f (fs d)) (wakeup_d ch me d).
Proof. done. Qed.

Ltac red_v :=
  cbn [fs upd_fs set_fs vdisk set_vdisk v_used_dev_idx v_used_idx set_v_out set_v_used_idx v_used_ring v_info_status
       v_info_b upd_buf set_bufs].

Lemma virtio_disk_intr_run e m d b a :
  mach_ok m -> all_free m -> lk_free m LK_vdisk ->
  let v := vdisk (fs d) in
  0 <= a < 2 ^ 16 -> v_used_idx v = a -> v_used_dev_idx v = u16 (a + 1) ->
  v_used_ring v (a mod Z.of_nat NUM) = 0 -> v_info_status v 0 = 0 -> v_info_b v 0 = Some b ->
  virtio_disk_intr e (mkK m d) =
  Ret tt e (mkK (msettle m) (upd_fs (fun _ => served b (fs d)) (wakeup_d (CH_buf b) (c_proc (mycpu_of m)) d))).
Proof.
  intros Hm Hf Hl v Ha H1 H2 H3 H4 H5. subst v. unfold virtio_disk_intr.
  mcall (acquire_run LK_vdisk e m d Hl). unfold rdreg, wrreg, getv, setv, getfs, setfs. mrun.
  red_v. rewrite H1, H2.
  assert (u16 (u16 (a + 1) - a) = 1) as ->.
  { unfold u16. rewrite Zminus_mod_idemp_l. replace (a + 1 - a) with 1 by lia. done. }
  change (S (Z.to_nat 1)) with 2%nat. cbn [intr_loop]. unfold getv, setv, getb, setb, getfs, setfs. mrun.
  red_v.
  assert ((a =? u16 (a + 1)) = false) as Hne.
  { apply Z.eqb_neq. unfold u16. intros E. destruct (decide (a + 1 = 2 ^ 16)) as [E2|E2].
    - rewrite E2, Z_mod_same_full in E. lia.
    - rewrite Z.mod_small in E by lia. lia. }
  rewrite H1, H2, Hne. mrun. red_v. rewrite H3. change (Z.to_nat 0) with 0%nat. mrun. red_v. rewrite H4. cbn [Z.eqb negb].
  mrun. red_v. rewrite H5. cbn [deref]. mrun.
  assert (all_free (macq LK_vdisk m)) as Hf' by (intros i; apply macq_free; [done|apply Hf]).
  rewrite (bind_Ret _ _ _ _ _ _ _ (wakeup_run (CH_buf b) e (macq LK_vdisk m) _ (macq_ok _ _ Hm) Hf')).
  rewrite msettle_macq, macq_c_proc, !wakeup_upd_fs by done. mrun. red_v. rewrite H1, H2, Z.eqb_refl. mrun.
  rewrite release_macq by done. rewrite !upd_fs_upd_fs. reflexivity.
Qed.

(** ** While the caller sleeps *)

(** On hart [c] the scheduler gets the CPU back from process [p], the device
    serves the request, its interrupt is handled, and the scheduler's pass over
    the table comes to [p]; the turn ends at the switch to a process. *)
Definition disk_turn (dev : fsdata -> fsdata) (c p : nat) (s : kernel) : kernel :=
  match (after_switch c p;; virtio_disk_intr;; rr_from c p) [] (mkK (km s) (upd_fs dev (kd s))) with
  | Ret _ _ s' | Stop _ s' => s'
  end.

Lemma frame_upd_proc p f d : (forall q, proc_rest (f q) = proc_rest q) -> frame d (upd_proc p f d).
Proof.
  intros H. split; [|by destruct d]. intros i. destruct (decide (i = p)) as [->|Hne].
  - by rewrite procs_upd_proc_eq.
  - by rewrite procs_upd_proc_ne.
Qed.

(** A pass of the scheduler that starts at a RUNNABLE process hands it the CPU. *)
Lemma rr_from_hands p m d :
  lk_free m (LK_proc p) -> (p < NPROC)%nat -> p_state (procs d p) = RUNNABLE ->
  rr_from (tp m) p [] (mkK m d) = Stop Waiting (mkK (handed_machine p m) (handed_data p d)).
Proof.
  intros Hf Hp Hs. rewrite rr_from_step by done. rewrite bind_assoc. mcall (acquire_run (LK_proc p) [] m d Hf). mrun.
  rewrite bool_decide_false by (intros H; by apply H). unfold run_chosen, set_cpu_proc, swtch, others. mrun.
  unfold bind at 1. rewrite upd_proc_upd_proc. done.
Qed.

Lemma disk_turn_run dev p m d b write bn a :
  device_serves dev -> quiet p m -> (p < NPROC)%nat ->
  in_flight (vdisk (fs d)) b write bn a -> p_state (procs d p) = SLEEPING -> p_chan (procs d p) = Some (CH_buf b) ->
  exists d', disk_turn dev (tp m) p (mkK (macq (LK_proc p) m) d) = mkK (macq (LK_proc p) m) d' /\ frame d d' /\
    fs d' = served b (set_vdisk (completed (vdisk (fs d)) 0 0)
              (transfer (fs d) (v_ops (vdisk (fs d)) 0) b)).
Proof.
  intros Hdev (Hm & Hf & Hn & Hc) Hp (Hb & Ha & Hav & Hdi & Hui & Hri) Hst Hch.
  destruct Hb as [_ (Hd0 & Hd1 & Hd2) Hop Hin].
  assert (pending (vdisk (fs d)) 0 0 b 0) as Hpe.
  { split; [by rewrite Hdi|by rewrite Hdi|]. exists 1%nat, 2%nat. split_and!; [done| |done].
    rewrite Hd1, Hop. by destruct write. }
  specialize (Hdev (fs d) 0%nat 0%nat b 0%nat Hpe).
  set (x1 := set_vdisk (completed (vdisk (fs d)) 0 0) (transfer (fs d) (v_ops (vdisk (fs d)) 0) b)) in *.
  unfold disk_turn. cbn [km kd]. unfold upd_fs at 1. rewrite Hdev. set (d1 := set_fs x1 d).
  rewrite (bind_Ret _ _ _ _ _ _ _ (after_switch_run _ _ _ _ Hm (Hf _))).
  set (d2 := upd_proc p _ d1).
  assert (vdisk x1 = completed (vdisk (fs d)) 0 0) as Ev by done.
  rewrite (bind_Ret _ _ _ _ _ _ _ (virtio_disk_intr_run [] (msettle (mnone m)) d2 b a
    (msettle_ok _ (mnone_ok _ Hm)) (fun i => Hf (LK_proc i)) (Hf _) Ha Hui ltac:(simpl; by rewrite Hdi) ltac:(simpl; rewrite Hdi; apply fupd_eq)
    ltac:(simpl; apply fupd_eq) Hin)).
  rewrite msettle_idem. set (d3 := upd_fs _ (wakeup_d _ _ _)).
  change (rr_from (tp m)) with (rr_from (tp (msettle (mnone m)))).
  rewrite rr_from_hands; [|apply Hf|done|].
  2: { unfold d3, wakeup_d, upd_procs, upd_fs. cbn [procs set_fs set_procs]. rewrite decide_True by by apply all_procs_elem.
       rewrite bool_decide_true.
       2: { rewrite msettle_c_proc. unfold mnone, mycpu_of. simpl. by rewrite fupd_eq. }
       unfold d2. rewrite procs_upd_proc_eq. unfold wake_proc. cbn. rewrite Hst, Hch. by rewrite !bool_decide_true. }
  eexists. split; [f_equal|split].
  - unfold handed_machine. rewrite macq_msettle. exact (handed_mnone p m Hc).
  - unfold handed_data, d3, d2, d1. eapply frame_trans; [|by apply frame_upd_proc].
    eapply frame_trans; [|apply frame_upd_fs]. eapply frame_trans; [|apply frame_wakeup].
    eapply frame_trans; [apply frame_fs|]. by apply frame_upd_proc.
  - done.
Qed.

Lemma set_sie_same m : set_cpus (cpus m).[tp m := set_sie (sie (mycpu_of m)) (cpus m (tp m))] m = m.
Proof.
  destruct m as [t c l]. unfold set_cpus, mycpu_of. simpl. f_equal.
  etransitivity; [|apply (fupd_id c t)]. f_equal. by destruct (c t).
Qed.

Lemma await_run dev p m d b write bn a :
  device_serves dev -> quiet p m -> (p < NPROC)%nat ->
  in_flight (vdisk (fs d)) b write bn a -> b_disk (bufs (fs d) b) = 1 ->
  exists d', await b [disk_turn dev (tp m) p] (mkK (macq LK_vdisk m) d) = Ret tt [] (mkK (macq LK_vdisk m) d') /\
    frame d d' /\ fs d' = served b (set_vdisk (completed (vdisk (fs d)) 0 0) (transfer (fs d) (v_ops (vdisk (fs d)) 0) b)).
Proof.
  intros Hdev Hq Hp Hfl Hbd. pose proof Hq as (Hm & Hf & Hn & Hc).
  destruct (disk_turn_run dev p m (asleep (CH_buf b) p d) b write bn a Hdev Hq Hp) as (d1 & E1 & F1 & X1);
    [done|unfold asleep; by rewrite procs_upd_proc_eq..|].
  change (fs (asleep (CH_buf b) p d)) with (fs d) in X1.
  assert (b_disk (bufs (fs d1) b) = 0) as Hbd1.
  { rewrite X1. unfold served, upd_v, upd_buf. simpl. by rewrite fupd_eq. }
  exists (upd_proc p (set_p_chan None) d1). split_and!; [| |done].
  - unfold await, loop. cbn [length loop_n]. rewrite bind_assoc. unfold getb, getfs. mrun. rewrite Hbd. rewrite Z.eqb_refl.
    rewrite bind_assoc.
    erewrite bind_Ret; [|rewrite (sleep_switch (CH_buf b) LK_vdisk p _ _ m d Hm Hn Hc (Hf _) (Hf _) ltac:(done)); rewrite E1; unfold after_sleep, setc; mrun].
    2: { rewrite set_intena_macq, set_sie_same by done.
         rewrite (bind_Ret _ _ _ _ _ _ _ (release_macq _ _ _ _ Hm (Hf _))).
         rewrite acquire_run by apply Hf. rewrite macq_msettle. reflexivity. }
    mrun. change (fs (upd_proc p (set_p_chan None) d1)) with (fs d1). rewrite Hbd1. cbn. done.
  - eapply frame_trans; [by apply (frame_upd_proc p (fun q => set_p_state SLEEPING
      (set_p_sleepTime (ticks d) (set_p_chan (Some (CH_buf b)) q))) d)|].
    eapply frame_trans; [exact F1|]. by apply frame_upd_proc.
Qed.

(** ** The driver as an instance of the interface *)

(** virtio_disk_rw() with the disk as the only other activity. *)
Definition virtio_rw (dev : fsdata -> fsdata) (b : nat) (write : bool) : M unit := fun e s =>
  let p := match c_proc (mycpu_of (km s)) with Some p => p | None => O end in
  match Virtio.virtio_disk_rw b write [disk_turn dev (tp (km s)) p] s with
  | Ret a _ s' => Ret a e s'
  | Stop r s' => Stop r s'
  end.

Lemma sector_block bn : blk_ok bn -> sector_of bn / (BSIZE / 512) = bn.
Proof.
  unfold blk_ok, sector_of, BSIZE. intros H. change (1024 / 512) with 2. rewrite u32_small by lia. apply Z.div_mul. lia.
Qed.

(** The queue after a whole transfer. *)
Definition after_rw (v : disk_t) (b : nat) (write : bool) (bn : Z) : disk_t :=
  retire (acked (completed (queued v b write bn) 0 0)).

Lemma after_rw_ready v b write bn : vready v -> vready (after_rw v b write bn).
Proof.
  intros [H1 [H2 H3] H4]. split.
  - intros i Hi. simpl. unfold fupd. repeat case_decide; try done. by apply H1.
  - simpl. by rewrite H2, H3.
  - simpl. unfold u16. apply Z.mod_pos_bound. done.
Qed.

(** What the processor and the device do to the file system's data, added up. *)
Lemma rw_sum (f g : disk_t -> disk_t) q r req b (write : bool) x :
  vr_sector req / (BSIZE / 512) = b_blockno (bufs x b) ->
  vr_type req = (if write then VIRTIO_BLK_T_OUT else VIRTIO_BLK_T_IN) ->
  upd_v f (upd_v g (upd_buf b (set_b_disk 0) (set_vdisk r (transfer (set_vdisk q (upd_buf b (set_b_disk 1) x)) req b)))) =
  (if write then disk_write b else disk_read b) (set_vdisk (f (g r)) x).
Proof.
  intros Hs Ht. unfold transfer. rewrite Hs, Ht. destruct x as [bu sl lg sb0 ino vd db dw]. simpl in *.
  destruct write; simpl; unfold disk_write, disk_read, upd_v, upd_buf; simpl; rewrite !fupd_eq, !fupd_fupd; simpl;
    by destruct (bu b).
Qed.

Lemma queued_op v b write bn :
  v_ops (queued v b write bn) 0 = mkReq (if write then VIRTIO_BLK_T_OUT else VIRTIO_BLK_T_IN) 0 (sector_of bn).
Proof. reflexivity. Qed.

Lemma rw_data b (write : bool) x :
  let bn := b_blockno (bufs x b) in
  let q := queued (vdisk x) b write bn in
  blk_ok bn ->
  upd_v retire (served b (set_vdisk (completed q 0 0) (transfer (set_vdisk q (upd_buf b (set_b_disk 1) x)) (v_ops q 0) b))) =
  (if write then disk_write b else disk_read b) (set_vdisk (after_rw (vdisk x) b write bn) x).
Proof.
  intros bn q Hbn. unfold served, after_rw. fold q. subst q. rewrite queued_op. set (q := queued _ _ _ _). clearbody q.
  apply (rw_sum retire acked _ _ _ b write x); [exact (sector_block bn Hbn)|done].
Qed.

Lemma served_busy b write sector v x req :
  vbusy v b write sector -> vbusy (vdisk (served b (set_vdisk (completed v 0 0) (transfer x req b)))) b write sector.
Proof. intros [G1 G2 G3 G4]. split; done. Qed.

Lemma wp_virtio_rw dev p b (write : bool) d Q :
  device_serves dev -> (p < NPROC)%nat -> vready (vdisk (fs d)) -> blk_ok (b_blockno (bufs (fs d) b)) ->
  (forall d' v, frame d d' -> vready v ->
     fs d' = (if write then disk_write b else disk_read b) (set_vdisk v (fs d)) -> Q tt [] d') ->
  wp p [] (virtio_rw dev b write) d Q.
Proof.
  intros Hdev Hp Hv Hbn HQ m0 m e Hq Hs. simpl in Hs.
  assert (quiet p m) as Hqm by (by eapply quiet_same). pose proof Hqm as (Hm & _ & _ & Hc).
  set (bn := b_blockno (bufs (fs d) b)) in *.
  set (f := disk_turn dev (tp m) p).
  destruct (wp_submit p d b write (fun i hl d1 => i = 0%nat /\ hl = [LK_vdisk] /\ frame d d1 /\
    fs d1 = set_vdisk (queued (vdisk (fs d)) b write bn) (upd_buf b (set_b_disk 1) (fs d))) Hv
    (conj eq_refl (conj eq_refl (conj (frame_upd_fs _ _) eq_refl))) m m [f] Hqm (msame_refl m))
    as (i & hl & m1 & d1 & E1 & S1 & -> & -> & F1 & X1).
  simpl in S1. apply msame_in in S1; [|done]. subst m1.
  destruct (await_run dev p m d1 b write bn (v_avail_idx (vdisk (fs d))) Hdev Hqm Hp) as (d2 & E2 & F2 & X2).
  { rewrite X1. by apply queued_in_flight. } { rewrite X1. unfold upd_buf. simpl. by rewrite fupd_eq. }
  assert (vbusy (vdisk (fs d2)) b write (sector_of bn)) as Hb2.
  { rewrite X2, X1. eapply served_busy, queued_in_flight, Hv. }
  destruct (wp_finish p d2 b write (sector_of bn) (fun _ hl d' => hl = [] /\ frame d2 d' /\
    fs d' = upd_v retire (fs d2)) Hb2
    (fun d' F X => conj eq_refl (conj F X)) m (macq LK_vdisk m) [] Hqm (msame_refl _))
    as ([] & hl & m3 & d3 & E3 & S3 & -> & F3 & X3).
  exists tt, [], m3, d3. split_and!.
  - unfold virtio_rw. cbn [km]. rewrite Hc, virtio_disk_rw_parts. fold f.
    rewrite (bind_Ret _ _ _ _ _ _ _ E1), (bind_Ret _ _ _ _ _ _ _ E2), E3. done.
  - eapply msame_trans; [exact Hs|exact S3].
  - apply (HQ d3 (after_rw (vdisk (fs d)) b write bn)); [|by apply after_rw_ready|].
    + eapply frame_trans; [exact F1|]. by eapply frame_trans.
    + rewrite X3, X2, X1. exact (rw_data b write (fs d) Hbn).
Qed.

(** The virtio driver discharges the interface. *)
Definition virtio_driver (dev : fsdata -> fsdata) (Hdev : device_serves dev) : DiskDriver :=
  {| Bio.virtio_disk_rw := virtio_rw dev;
     disk_ready := vready;
     virtio_disk_read := fun p b d Q Hp Hr Hb HQ => wp_virtio_rw dev p b false d Q Hdev Hp Hr Hb HQ;
     virtio_disk_write := fun p b d Q Hp Hr Hb HQ => wp_virtio_rw dev p b true d Q Hdev Hp Hr Hb HQ |}.

(** A device that does it: it walks the chain the avail ring names. *)
Definition block_device (x : fsdata) : fsdata :=
  let v := vdisk x in
  let id := Z.to_nat (v_avail_ring v (v_used_dev_idx v mod Z.of_nat NUM)) in
  let d0 := v_desc v id in
  let d1 := v_desc v (Z.to_nat (vd_next d0)) in
  let d2 := v_desc v (Z.to_nat (vd_next d1)) in
  match vd_addr d0, vd_addr d1, vd_addr d2 with
  | DP_op k, DP_data b, DP_status k' => set_vdisk (completed v id k') (transfer x (v_ops v k) b)
  | _, _, _ => x
  end.

Lemma block_device_serves : device_serves block_device.
Proof.
  intros x id k b k' [_ Hr (i1 & i2 & H0 & H1 & H2)]. unfold block_device. rewrite Hr, Nat2Z.id, H0. cbn [vd_next vd_addr].
  rewrite Nat2Z.id, H1. cbn [vd_next vd_addr]. by rewrite Nat2Z.id, H2.
Qed.

(** ** Properties *)

(** C24: a request to the disk moves exactly one block.  From a ready queue,
    virtio_disk_rw() allocates three descriptors, fills in the request, puts it in
    the avail ring and sleeps; the device serves the chain, virtio_disk_intr()
    wakes the caller, and the call returns with the block of the buffer written to
    the medium (or read from it), no lock held, every descriptor free again and
    nothing else of the kernel changed but scheduling fields. *)
Theorem virtio_disk_rw_transfers dev p m d b write :
  device_serves dev -> quiet p m -> (p < NPROC)%nat ->
  vready (vdisk (fs d)) -> blk_ok (b_blockno (bufs (fs d) b)) ->
  exists e' m' d' v,
    Virtio.virtio_disk_rw b write [disk_turn dev (tp m) p] (mkK m d) = Ret tt e' (mkK m' d') /\
    msame m m' /\ frame d d' /\ vready v /\
    fs d' = (if write then disk_write b else disk_read b) (set_vdisk v (fs d)).
Proof.
  intros Hdev Hq Hp Hv Hb.
  destruct (wp_virtio_rw dev p b write d (fun _ hl d' => hl = [] /\ frame d d' /\ exists v, vready v /\
    fs d' = (if write then disk_write b else disk_read b) (set_vdisk v (fs d))) Hdev Hp Hv Hb
    (fun d' v F V X => conj eq_refl (conj F (ex_intro _ v (conj V X)))) m m [] Hq (msame_refl m))
    as ([] & hl & m' & d' & E & S & -> & F & v & V & X).
  unfold virtio_rw in E. cbn [km] in E. pose proof Hq as (_ & _ & _ & Hc). rewrite Hc in E.
  destruct (Virtio.virtio_disk_rw _ _ _ _) as [[] e' s'|]; [|done]. simplify_eq. by exists e', m', d', v.
Qed.

(** The queue as virtio_disk_init() leaves it, and a buffer to write. *)
Definition kdata_vw : kdata :=
  upd_fs (fun x => set_vdisk (set_v_free (fun _ => 1) (vdisk x))
    (upd_buf 3 (fun r => set_b_blockno 42 (set_b_data (fun _ => 7) r)) x)) kdata0.

Lemma virtio_disk_rw_transfers_witness : exists e' m' d',
  Virtio.virtio_disk_rw 3 true [disk_turn block_device 0 1] (mkK machine1 kdata_vw) = Ret tt e' (mkK m' d') /\
  dwr (fs d') = [(42, fun _ => 7)].
Proof.
  destruct (virtio_disk_rw_transfers block_device 1 machine1 kdata_vw 3 true) as (e' & m' & d' & v & E & _ & _ & _ & X).
  - apply block_device_serves.
  - apply quiet1.
  - unfold NPROC. lia.
  - split; [done|done|]. vm_compute. split; [discriminate|reflexivity].
  - vm_compute. split; [discriminate|reflexivity].
  - exists e', m', d'. split; [exact E|]. by rewrite X.
Defined.
