(* ===== verification/Trap.v ===== *)
(** * Traps, the interrupt controller and boot (kernel/trap.c, plic.c, main.c)

    The trap CSRs are arguments of the handlers: [scause], [sepc], [stval] and the
    previous privilege mode.  PLIC registers are words of memory at their
    addresses. *)

From S2P Require Import Prelude State Spinlock CString Kalloc Sched Vm ProcMem Sleeplock Bio Log Fs Uart Console File Proc Exec Syscall Virtio.
Open Scope Z_scope.

(** ** plic.c *)

Definition UART0_IRQ : Z := 10.
Definition VIRTIO0_IRQ : Z := 1.
Definition PLIC_SENABLE (hart : Z) : Z := PLIC + 0x2080 + hart * 0x100.
Definition PLIC_SPRIORITY (hart : Z) : Z := PLIC + 0x201000 + hart * 0x2000.
Definition PLIC_SCLAIM (hart : Z) : Z := PLIC + 0x201004 + hart * 0x2000.

Definition plicinit : M unit :=
  setmem (fun m => st32 m (PLIC + UART0_IRQ * 4) 1);;
  setmem (fun m => st32 m (PLIC + VIRTIO0_IRQ * 4) 1).

Definition plicinithart : M unit :=
  let* hart := cpuid in
  setmem (fun m => st32 m (PLIC_SENABLE (Z.of_nat hart)) (Z.lor (Z.shiftl 1 UART0_IRQ) (Z.shiftl 1 VIRTIO0_IRQ)));;
  setmem (fun m => st32 m (PLIC_SPRIORITY (Z.of_nat hart)) 0).

Definition plic_claim : M Z :=
  let* hart := cpuid in
  getmem (fun m => ldint m (PLIC_SCLAIM (Z.of_nat hart))).

Definition plic_complete (irq : Z) : M unit :=
  let* hart := cpuid in
  setmem (fun m => st32 m (PLIC_SCLAIM (Z.of_nat hart)) irq).

(** ** trap.c *)

Definition trapinit : M unit := initlock LK_ticks "time".

Definition clockintr : M unit :=
  acquire LK_ticks;;
  modify (fun d => set_ticks (u32 (ticks d + 1)) d);;
  update_clock_ticks;;
  wakeup CH_ticks;;
  release LK_ticks.

(** 2 for a timer interrupt, 1 for another device, 0 if not recognized *)
Definition devintr (scause : Z) : M Z :=
  if negb (Z.land scause 0x8000000000000000 =? 0) && (Z.land scause 0xff =? 9) then
    (* a supervisor external interrupt, via PLIC. *)
    let* irq := plic_claim in
    (if irq =? UART0_IRQ then uartintr
     else if irq =? VIRTIO0_IRQ then Virtio.virtio_disk_intr
     else if negb (irq =? 0) then printf ("unexpected interrupt irq=%d" +:+ newline) [AInt irq]
     else ret tt);;
    when (negb (irq =? 0)) (plic_complete irq);;
    ret 1
  else if scause =? 0x8000000000000001 then
    (* software interrupt from a machine-mode timer interrupt *)
    let* id := cpuid in
    when (id =? 0)%nat clockintr;;
    ret 2
  else ret 0.

(** satp for page table [pt]: MAKE_SATP *)
Definition SATP_SV39 : Z := Z.shiftl 8 60.
Definition MAKE_SATP (pt : Z) : Z := Z.lor SATP_SV39 (Z.shiftr pt 12).

(** The state userret in trampoline.S is entered with: satp, and sepc. *)
Definition usertrapret : M (Z * Z) :=
  let* p := myproc_deref in
  (* turn off interrupts until we're back in user space *)
  intr_off;;
  (* trapframe values that uservec will need *)
  let* kpt := gets kernel_pagetable in
  set_tf p tf_kernel_satp (MAKE_SATP kpt);;
  let* ks := getp p p_kstack in
  set_tf p tf_kernel_sp (u64 (ks + PGSIZE));;
  let* ut := gets (fun d => sy_usertrap (syms d)) in
  set_tf p tf_kernel_trap ut;;
  let* hart := cpuid in
  set_tf p tf_kernel_hartid (Z.of_nat hart);;
  let* epc := get_tf p tf_epc in
  let* pt := getp p p_pagetable in
  ret (MAKE_SATP pt, epc).

(** Both trap handlers skip preemption when the build flag is FCFS. *)
Definition preemptive (f : schedflag) : bool := match f with FCFS => false | _ => true end.

Section Trap.
Context `{D : DiskDriver} (flag : schedflag).

Definition forkret : M (Z * Z) := forkret_init;; usertrapret.

Definition usertrap (scause sepc stval : Z) (from_user : bool) : M (Z * Z) :=
  if negb from_user then panic "usertrap: not from user mode" else
  let* p := myproc_deref in
  (* save user program counter. *)
  set_tf p tf_epc sepc;;
  let* which_dev := (if scause =? 8 then
      (* system call *)
      let* k := getp p p_killed in
      when (negb (k =? 0)) (exit (-1));;
      let* epc := get_tf p tf_epc in
      set_tf p tf_epc (u64 (epc + 4));;
      intr_on;;
      syscall;;
      ret 0
    else
      let* w := devintr scause in
      if negb (w =? 0) then ret w else
      let* pid := getp p p_pid in
      printf ("usertrap(): unexpected scause %p pid=%d" +:+ newline) [APtr scause; AInt pid];;
      printf ("            sepc=%p stval=%p" +:+ newline) [APtr sepc; APtr stval];;
      setp p (set_p_killed 1);;
      ret 0) in
  let* k := getp p p_killed in
  when (negb (k =? 0)) (exit (-1));;
  (* give up the CPU if this is a timer interrupt and the quantum is used up. *)
  (if preemptive flag && (which_dev =? 2) then
     let* q := myproc_deref in
     let* tc := getp q p_tickcounter in
     when (tc =? QUANTUM) yield
   else ret tt);;
  usertrapret.

Definition kerneltrap (scause sepc stval : Z) (from_kernel : bool) : M unit :=
  if negb from_kernel then panic "kerneltrap: not from supervisor mode" else
  let* i := intr_get in
  if i then panic "kerneltrap: interrupts enabled" else
  let* which_dev := devintr scause in
  if which_dev =? 0 then
    printf ("scause %p" +:+ newline) [APtr scause];;
    printf ("sepc=%p stval=%p" +:+ newline) [APtr sepc; APtr stval];;
    panic "kerneltrap"
  else
  if preemptive flag && (which_dev =? 2) then
    let* me := myproc in
    match me with
    | None => ret tt
    | Some q =>
        let* st := getp q p_state in
        let* tc := getp q p_tickcounter in
        when (bool_decide (st = RUNNING) && (tc =? QUANTUM)) yield
    end
  else ret tt.

(** main() on hart 0, up to scheduler(); [pages] is the address of the disk's queue. *)
Definition main_boot (pages : Z) : M unit :=
  consoleinit;;
  printfinit;;
  printf newline [];;
  printf ("xv6 kernel is booting" +:+ newline) [];;
  printf newline [];;
  kinit;;
  kvminit;;
  procinit;;
  trapinit;;
  plicinit;;
  plicinithart;;
  binit;;
  iinit;;
  fileinit;;
  virtio_disk_init pages;;
  userinit.

(** main() on another hart, once it has seen started set by hart 0. *)
Definition main_other : M unit :=
  let* id := cpuid in
  printf ("hart %d starting" +:+ newline) [AInt (Z.of_nat id)];;
  plicinithart.
End Trap.
