(* ===== verification/User.v ===== *)
(** * User programs (src/user)

    A user program is an interaction tree whose events are the system calls of
    user.h: it computes, asks the kernel, and goes on with the answer; loops that
    may not terminate are [ITree.iter].  [uwp] says that a program run against a
    given system ends, whatever the system answers, in an outcome that satisfies
    the postcondition.  [unix] is the behaviour the programs rely on for files.

    A pointer to a NUL-terminated string the program only reads is the list of
    the bytes before the NUL; [char] is unsigned on this target. *)

From S2P Require Import Prelude CString.
From ITree Require Export ITree.
Open Scope Z_scope.

Declare Scope user_scope.
Delimit Scope user_scope with user.
Open Scope user_scope.

Notation "'let*' x := t 'in' k" := (ITree.bind t (fun x => k))
  (at level 10, x binder, t at level 200, k at level 200) : user_scope.
Notation "t ;; k" := (ITree.bind t (fun _ => k))
  (at level 100, k at level 200, right associativity) : user_scope.

Definition cstr : Type := list Z.

(** ** Literals, with the C escapes the sources use *)

Definition ascii_Z (c : Ascii.ascii) : Z := Z.of_nat (Ascii.nat_of_ascii c).

Fixpoint lit (s : string) : cstr :=
  match s with
  | String.EmptyString => []
  | String.String c s' =>
      match s' with
      | String.String d s'' =>
          if ascii_Z c =? 92 then
            (if ascii_Z d =? 110 then 10 :: lit s''
             else if ascii_Z d =? 116 then 9 :: lit s''
             else if ascii_Z d =? 114 then 13 :: lit s''
             else if ascii_Z d =? 118 then 11 :: lit s''
             else ascii_Z d :: lit s'')
          else ascii_Z c :: lit s'
      | String.EmptyString => [ascii_Z c]
      end
  end.

(** 'c' *)
Definition chr (s : string) : Z := hd 0 (lit s).

(** ** System calls (user.h, stat.h, perf.h) *)

Record ustat := mkUstat { ust_dev : Z; ust_ino : Z; ust_type : Z; ust_nlink : Z; ust_size : Z }.
Record uperf := mkUperf { up_ctime : Z; up_ttime : Z; up_stime : Z; up_retime : Z; up_rutime : Z; up_bursttime : Z }.

(** An answer is the return value with what the call stores through its pointers. *)
Inductive sysE : Type -> Type :=
| Fork : sysE Z
| Exit (status : Z) : sysE Empty_set
| Wait : sysE (Z * Z)
| Pipe : sysE (Z * (Z * Z))
| Write (fd : Z) (s : list Z) : sysE Z
| Read (fd n : Z) : sysE (Z * list Z)
| Close (fd : Z) : sysE Z
| Kill (pid : Z) : sysE Z
| Exec (path : cstr) (argv : list cstr) : sysE Z
| Open (path : cstr) (mode : Z) : sysE Z
| Mknod (path : cstr) (major minor : Z) : sysE Z
| Unlink (path : cstr) : sysE Z
| Fstat (fd : Z) : sysE (Z * ustat)
| Link (old new : cstr) : sysE Z
| Mkdir (path : cstr) : sysE Z
| Chdir (path : cstr) : sysE Z
| Dup (fd : Z) : sysE Z
| Getpid : sysE Z
| Sbrk (n : Z) : sysE Z
| Sleep (n : Z) : sysE Z
| Uptime : sysE Z
| Trace (mask pid : Z) : sysE Z
| Set_priority (p : Z) : sysE Z
| Wait_stat : sysE (Z * (Z * uperf)).

Definition prog (R : Type) : Type := itree sysE R.

Definition sys {X} (e : sysE X) : prog X := ITree.trigger e.

(** exit() does not return. *)
Definition exit {R} (status : Z) : prog R :=
  let* x := sys (Exit status) in match (x : Empty_set) with end.

(** for(i = 0; i < n; i++) over a list *)
Fixpoint for_each {A} (l : list A) (f : A -> prog unit) : prog unit :=
  match l with
  | [] => Ret tt
  | a :: l' => f a ;; for_each l' f
  end.

(** while(1) with [inl] for the next round and [inr] for break *)
Definition while {A B} (body : A -> prog (A + B)) (a : A) : prog B := ITree.iter body a.

(** fcntl.h *)
Definition O_RDONLY : Z := 0x000.
Definition O_WRONLY : Z := 0x001.
Definition O_RDWR : Z := 0x002.
Definition O_CREATE : Z := 0x200.
Definition O_TRUNC : Z := 0x400.

(** ** Running a program against a system *)

Lemma observe_bind {R S} (t : prog R) (k : R -> prog S) :
  observe (ITree.bind t k) =
  match observe t with
  | RetF r => observe (k r)
  | TauF t' => TauF (ITree.bind t' k)
  | VisF e k' => VisF e (fun x => ITree.bind (k' x) k)
  end.
Proof. unfold observe at 1. cbn. by destruct (observe t). Qed.

Lemma observe_iter {A B} (body : A -> prog (A + B)) (a : A) :
  observe (ITree.iter body a) =
  observe (ITree.bind (body a) (fun lr => match lr with inl l => Tau (ITree.iter body l) | inr r => Ret r end)).
Proof. reflexivity. Qed.

(** How a process stops: exit(), or exec() replacing its image. *)
Inductive stop := Exited (status : Z) | Execed (path : cstr) (argv : list cstr).

Section Wp.
Context {W : Type} (halts : forall X, sysE X -> W -> option stop) (answers : forall X, sysE X -> W -> X -> W -> Prop).

(** [uwp Q t w]: from world [w] the program [t] ends, for every answer the system
    may give, by returning or stopping with [Q], and the system never leaves it
    without an answer. *)
Inductive uwp {R} (Q : R + stop -> W -> Prop) : prog R -> W -> Prop :=
| uwp_ret t w r : observe t = RetF r -> Q (inl r) w -> uwp Q t w
| uwp_tau t t' w : observe t = TauF t' -> uwp Q t' w -> uwp Q t w
| uwp_halt t w X (e : sysE X) k s :
    observe t = VisF e k -> halts X e w = Some s -> Q (inr s) w -> uwp Q t w
| uwp_vis t w X (e : sysE X) k :
    observe t = VisF e k -> halts X e w = None -> (exists x w', answers X e w x w') ->
    (forall x w', answers X e w x w' -> uwp Q (k x) w') -> uwp Q t w.

Lemma uwp_Ret {R} (Q : R + stop -> W -> Prop) r w : Q (inl r) w -> uwp Q (Ret r) w.
Proof. by eapply uwp_ret. Qed.

(** Programs that look the same behave the same. *)
Lemma uwp_observe {R} (Q : R + stop -> W -> Prop) t t' w : observe t = observe t' -> uwp Q t w -> uwp Q t' w.
Proof.
  intros Ht H. destruct H as [t w r E H|t u w E H|t w X e k s E Hh H|t w X e k E Hh He H]; rewrite Ht in E.
  - by eapply uwp_ret.
  - by eapply uwp_tau.
  - by eapply uwp_halt.
  - by eapply uwp_vis.
Qed.

Lemma uwp_mono {R} (Q Q' : R + stop -> W -> Prop) t w :
  uwp Q t w -> (forall o w', Q o w' -> Q' o w') -> uwp Q' t w.
Proof.
  intros H HQ. induction H.
  - eapply uwp_ret; [done|]. by apply HQ.
  - by eapply uwp_tau.
  - eapply uwp_halt; [done..|]. by apply HQ.
  - by eapply uwp_vis.
Qed.

Lemma uwp_bind {R S} (Q : S + stop -> W -> Prop) (t : prog R) (k : R -> prog S) w :
  uwp (fun o w' => match o with inl r => uwp Q (k r) w' | inr s => Q (inr s) w' end) t w ->
  uwp Q (ITree.bind t k) w.
Proof.
  intros H. induction H as [t w r E H|t t' w E H IH|t w X e k' s E Hh H|t w X e k' E Hh He H IH].
  - eapply uwp_observe; [|exact H]. by rewrite observe_bind, E.
  - eapply uwp_tau; [|exact IH]. by rewrite observe_bind, E.
  - eapply uwp_halt; [|exact Hh|exact H]. by rewrite observe_bind, E.
  - eapply uwp_vis; [|exact Hh|exact He|exact IH]. by rewrite observe_bind, E.
Qed.

Lemma uwp_sys {X} (Q : X + stop -> W -> Prop) (e : sysE X) w :
  halts X e w = None -> (exists x w', answers X e w x w') ->
  (forall x w', answers X e w x w' -> Q (inl x) w') -> uwp Q (sys e) w.
Proof. intros Hh He H. eapply uwp_vis; [reflexivity|exact Hh|exact He|]. intros x w' Ha. apply uwp_Ret. by apply H. Qed.

Lemma uwp_stop {X} (Q : X + stop -> W -> Prop) (e : sysE X) w s :
  halts X e w = Some s -> Q (inr s) w -> uwp Q (sys e) w.
Proof. intros. by eapply uwp_halt. Qed.

(** One round of a loop. *)
Lemma uwp_while_step {A B} (body : A -> prog (A + B)) (Q : B + stop -> W -> Prop) a w :
  uwp (fun o w' => match o with
                   | inl (inl a') => uwp Q (while body a') w'
                   | inl (inr b) => Q (inl b) w'
                   | inr s => Q (inr s) w'
                   end) (body a) w ->
  uwp Q (while body a) w.
Proof.
  intros H. unfold while.
  assert (uwp Q (ITree.bind (body a) (fun lr => match lr with inl l => Tau (ITree.iter body l) | inr r => Ret r end)) w) as H'.
  { apply uwp_bind. eapply uwp_mono; [exact H|]. intros [[a'|b]|s] w' HQ; [|by apply uwp_Ret|done].
    by eapply uwp_tau. }
  eapply uwp_observe; [|exact H']. by rewrite <- observe_iter.
Qed.

(** A loop whose rounds all decrease a measure ends. *)
Lemma uwp_while {A B} (I : A -> W -> Prop) (mu : A -> W -> nat) (body : A -> prog (A + B)) (Q : B + stop -> W -> Prop) a w :
  I a w ->
  (forall a w, I a w -> uwp (fun o w' => match o with
                   | inl (inl a') => I a' w' /\ (mu a' w' < mu a w)%nat
                   | inl (inr b) => Q (inl b) w'
                   | inr s => Q (inr s) w'
                   end) (body a) w) ->
  uwp Q (while body a) w.
Proof.
  intros Ha Hb. remember (mu a w) as n eqn:En. revert a w Ha En.
  induction n as [n IH] using (well_founded_induction lt_wf). intros a w Ha ->.
  apply uwp_while_step. eapply uwp_mono; [by apply Hb|]. intros [[a'|b]|s] w' HQ; [|done|done].
  destruct HQ as [HI Hmu]. by eapply IH.
Qed.

Lemma uwp_for_each {A} (f : A -> prog unit) (I : list A -> W -> Prop) (Q : unit + stop -> W -> Prop) l w :
  I l w ->
  (forall a l' w, I (a :: l') w -> uwp (fun o w' => match o with inl _ => I l' w' | inr s => Q (inr s) w' end) (f a) w) ->
  (forall w, I [] w -> Q (inl tt) w) ->
  uwp Q (for_each l f) w.
Proof.
  revert w. induction l as [|a l IH]; intros w HI Hs Hq; cbn [for_each].
  - apply uwp_Ret. by apply Hq.
  - apply uwp_bind. eapply uwp_mono; [by apply Hs|]. intros [[]|s] w' H; [by apply IH|done].
Qed.
End Wp.

(** ** A system with files *)

Record world := mkWorld {
  w_file : cstr -> option (list Z);  (** the files that can be opened, with their contents *)
  w_prog : cstr -> bool;             (** the programs exec() can start *)
  w_in : Z -> option (list Z);       (** what is still to be read on an open descriptor *)
  w_out : Z -> list Z;               (** what was written to a descriptor *)
  w_try : list cstr;                 (** the paths exec() failed on, in order *)
}.

Definition set_w_in (v : Z -> option (list Z)) (w : world) : world := mkWorld (w_file w) (w_prog w) v (w_out w) (w_try w).
Definition set_w_out (v : Z -> list Z) (w : world) : world := mkWorld (w_file w) (w_prog w) (w_in w) v (w_try w).
Definition set_w_try (v : list cstr) (w : world) : world := mkWorld (w_file w) (w_prog w) (w_in w) (w_out w) v.

Definition put (fd : Z) (s : list Z) (w : world) : world := set_w_out (w_out w).[fd := w_out w fd ++ s] w.

Definition unix_halts (X : Type) (e : sysE X) (w : world) : option stop :=
  match e with
  | Exit n => Some (Exited n)
  | Exec path argv => if w_prog w path then Some (Execed path argv) else None
  | _ => None
  end.

(** read() delivers any number of the bytes left, at least one and at most [n], 0
    at the end of the file and -1 on a descriptor that is not open; write() writes
    everything; open() gives a free descriptor.  Calls that do not concern files
    may answer anything. *)
Definition unix_answers (X : Type) (e : sysE X) (w : world) : X -> world -> Prop :=
  match e in sysE X return X -> world -> Prop with
  | Write fd s => fun x w' => x = Z.of_nat (length s) /\ w' = put fd s w
  | Read fd n => fun x w' =>
      match w_in w fd with
      | None => x = (-1, []) /\ w' = w
      | Some l =>
          if bool_decide (l = []) || (n <=? 0) then x = (0, []) /\ w' = w
          else exists k, (0 < k <= length l)%nat /\ Z.of_nat k <= n /\
                 x = (Z.of_nat k, take k l) /\ w' = set_w_in (w_in w).[fd := Some (drop k l)] w
      end
  | Open path mode => fun x w' =>
      match w_file w path with
      | None => x = -1 /\ w' = w
      | Some c => 0 <= x /\ w_in w x = None /\ w' = set_w_in (w_in w).[x := Some c] w
      end
  | Close fd => fun x w' => x = 0 /\ w' = set_w_in (w_in w).[fd := None] w
  | Exec path argv => fun x w' => x = -1 /\ w' = set_w_try (w_try w ++ [path]) w
  | _ => fun _ w' => w' = w
  end.

Notation runs := (uwp unix_halts unix_answers).

Lemma put_nil fd w : put fd [] w = w.
Proof. unfold put. rewrite app_nil_r, fupd_id. by destruct w. Qed.

Lemma put_put fd s t w : put fd t (put fd s w) = put fd (s ++ t) w.
Proof. unfold put. simpl. by rewrite fupd_eq, fupd_fupd, <- app_assoc. Qed.

Lemma runs_exit {R} (Q : R + stop -> world -> Prop) n w : Q (inr (Exited n)) w -> runs Q (exit n) w.
Proof. intros H. apply uwp_bind. by eapply uwp_stop. Qed.

Lemma runs_write (Q : Z + stop -> world -> Prop) fd s w :
  Q (inl (Z.of_nat (length s))) (put fd s w) -> runs Q (sys (Write fd s)) w.
Proof.
  intros H. apply uwp_sys; [done|by eexists _, _|]. by intros x w' [-> ->].
Qed.

(** At the end of the file read() returns 0; before it, it delivers a nonempty piece. *)
Lemma runs_read (Q : (Z * list Z) + stop -> world -> Prop) fd n l w :
  w_in w fd = Some l -> 0 < n ->
  (l = [] -> Q (inl (0, [])) w) ->
  (forall a b, l = a ++ b -> a <> [] -> Z.of_nat (length a) <= n ->
     Q (inl (Z.of_nat (length a), a)) (set_w_in (w_in w).[fd := Some b] w)) ->
  runs Q (sys (Read fd n)) w.
Proof.
  intros Hl Hn H0 H1. apply uwp_sys; [done| |]; simpl; rewrite Hl, (proj2 (Z.leb_gt _ _) Hn), orb_false_r.
  - case_bool_decide as E; [by eexists _, _|]. exists (1, take 1 l). eexists. exists 1%nat. split_and!; try done; try lia.
    destruct l; [done|simpl; lia].
  - case_bool_decide as E; [by intros x w' [-> ->]; apply H0|]. intros x w' (k & Hk & Hkn & -> & ->).
    replace k with (length (take k l)) at 1 by (rewrite length_take; lia). apply H1.
    + by rewrite take_drop.
    + intros Ht. apply (f_equal length) in Ht. rewrite length_take in Ht. simpl in Ht. lia.
    + rewrite length_take. lia.
Qed.

Lemma runs_close (Q : Z + stop -> world -> Prop) fd w :
  Q (inl 0) (set_w_in (w_in w).[fd := None] w) -> runs Q (sys (Close fd)) w.
Proof. intros H. apply uwp_sys; [done|by eexists _, _|]. by intros x w' [-> ->]. Qed.

Lemma runs_open (Q : Z + stop -> world -> Prop) path mode w :
  (exists fd, 0 <= fd /\ w_in w fd = None) ->
  (w_file w path = None -> Q (inl (-1)) w) ->
  (forall c fd, w_file w path = Some c -> 0 <= fd -> w_in w fd = None -> Q (inl fd) (set_w_in (w_in w).[fd := Some c] w)) ->
  runs Q (sys (Open path mode)) w.
Proof.
  intros (fd & Hfd & Hnone) H0 H1. apply uwp_sys; [done| |]; simpl; destruct (w_file w path) as [c|] eqn:E.
  - by eexists fd, _.
  - by eexists _, _.
  - intros x w' (? & ? & ->). by apply H1.
  - intros x w' [-> ->]. by apply H0.
Qed.

Lemma runs_exec (Q : Z + stop -> world -> Prop) path argv w :
  (w_prog w path = true -> Q (inr (Execed path argv)) w) ->
  (w_prog w path = false -> Q (inl (-1)) (set_w_try (w_try w ++ [path]) w)) ->
  runs Q (sys (Exec path argv)) w.
Proof.
  intros H1 H0. destruct (w_prog w path) eqn:E.
  - eapply uwp_stop; [|by apply H1]. simpl. by rewrite E.
  - apply uwp_sys; [simpl; by rewrite E|by eexists _, _|]. intros x w' [-> ->]. by apply H0.
Qed.

(** ** Text split at a separator *)

Section Split.
Context (sep : Z).

(** The pieces that end in the separator, without it, and what follows the last one. *)
Fixpoint split_at (l : list Z) : list cstr * cstr :=
  match l with
  | [] => ([], [])
  | c :: l' => let '(ls, r) := split_at l' in
               if c =? sep then ([] :: ls, r)
               else match ls with
                    | [] => ([], c :: r)
                    | x :: ls' => ((c :: x) :: ls', r)
                    end
  end.

Definition no_sep (s : list Z) : Prop := Forall (fun c => c <> sep) s.

Lemma split_at_nosep s : no_sep s -> split_at s = ([], s).
Proof. induction 1 as [|c s Hc Hs IH]; [done|]. cbn [split_at]. by rewrite IH, (proj2 (Z.eqb_neq _ _) Hc). Qed.

Lemma split_at_sep s l : no_sep s -> split_at (s ++ sep :: l) = (s :: (split_at l).1, (split_at l).2).
Proof.
  induction 1 as [|c s Hc Hs IH]; cbn [app split_at].
  - rewrite Z.eqb_refl. by destruct (split_at l).
  - by rewrite IH, (proj2 (Z.eqb_neq _ _) Hc).
Qed.

(** Every text is a piece and the rest, or has no separator. *)
Lemma sep_cases (l : list Z) : no_sep l \/ exists s l', l = s ++ sep :: l' /\ no_sep s.
Proof.
  induction l as [|c l IH]; [left; constructor|]. destruct (decide (c = sep)) as [->|Hc].
  - right. exists [], l. split; [done|constructor].
  - destruct IH as [H|(s & l' & -> & H)]; [left; by constructor|]. right. exists (c :: s), l'. split; [done|by constructor].
Qed.

(** Induction on the pieces of a text. *)
Lemma split_ind (P : list Z -> Prop) :
  (forall s, no_sep s -> P s) -> (forall s l, no_sep s -> P l -> P (s ++ sep :: l)) -> forall l, P l.
Proof.
  intros H0 H1 l. remember (length l) as n eqn:Hn. revert l Hn.
  induction n as [n IH] using (well_founded_induction lt_wf). intros l ->.
  destruct (sep_cases l) as [H|(s & l' & -> & H)]; [by apply H0|]. apply H1; [done|].
  eapply IH; [|reflexivity]. rewrite length_app. simpl. lia.
Qed.

Lemma split_at_rest l : no_sep (split_at l).2.
Proof.
  induction l as [s Hs|s l Hs IH] using split_ind; [by rewrite split_at_nosep|by rewrite split_at_sep].
Qed.

(** The unfinished piece of [a] is continued by what follows. *)
Lemma split_at_app a b :
  split_at (a ++ b) = ((split_at a).1 ++ (split_at ((split_at a).2 ++ b)).1, (split_at ((split_at a).2 ++ b)).2).
Proof.
  induction a as [s Hs|s a Hs IH] using split_ind.
  - rewrite (split_at_nosep s Hs). cbn [fst snd app]. by destruct (split_at (s ++ b)).
  - rewrite <- app_assoc. cbn [app]. by rewrite !split_at_sep, IH by done.
Qed.

(** One more byte: it ends the unfinished piece or extends it. *)
Lemma split_at_snoc a c :
  split_at (a ++ [c]) = if c =? sep then ((split_at a).1 ++ [(split_at a).2], []) else ((split_at a).1, (split_at a).2 ++ [c]).
Proof.
  rewrite split_at_app. pose proof (split_at_rest a) as Hr. destruct (Z.eqb_spec c sep) as [->|Hc].
  - by rewrite split_at_sep.
  - rewrite (split_at_nosep ((split_at a).2 ++ [c])); [cbn [fst snd]; by rewrite app_nil_r|]. apply Forall_app. split; [done|]. by constructor.
Qed.

Lemma split_at_forall (P : Z -> Prop) l :
  Forall P l -> Forall (Forall P) (split_at l).1 /\ Forall P (split_at l).2.
Proof.
  induction l as [s Hs|s l Hs IH] using split_ind; intros H; [by rewrite split_at_nosep|].
  rewrite split_at_sep by done. apply Forall_app in H as [H1 H2]. apply Forall_cons in H2 as [_ H2].
  destruct (IH H2). split; [by constructor|done].
Qed.
End Split.
