(* ===== verification/ULib.v ===== *)
(** * The user library (user/ulib.c, user/printf.c)

    The string and memory routines, gets(), stat(), atoi() and the printf family.
    [render] is the text a format produces; vprintf() writes it byte by byte.
    Printing a nonnegative int in base 10 and reading it back with atoi() gives
    the same number. *)

From S2P Require Import Prelude CString User.
Open Scope Z_scope.

(** ** ulib.c *)

(** The bytes of [t] and the NUL, to [s]. *)
Fixpoint strcpy (m : bytes) (s : Z) (t : cstr) : bytes :=
  match t with
  | [] => m.[s := 0]
  | c :: t' => strcpy m.[s := c] (s + 1) t'
  end.

Fixpoint strcmp (p q : cstr) : Z :=
  match p, q with
  | c :: p', d :: q' => if c =? d then strcmp p' q' else c - d
  | c :: _, [] => c
  | [], d :: _ => - d
  | [], [] => 0
  end.

Definition strlen (s : cstr) : Z := u32 (Z.of_nat (length s)).

Definition umemset (m : bytes) (dst c n : Z) : bytes := memset_loop m dst c (Z.to_nat n).

(** The string from the first [c] on; NULL (also for [c] = 0) when there is none. *)
Fixpoint strchr (s : cstr) (c : Z) : option cstr :=
  match s with
  | [] => None
  | d :: s' => if d =? c then Some s else strchr s' c
  end.

Definition gets (buf : bytes) (max : Z) : prog bytes :=
  let* r := while (fun '(buf, i) =>
    if i + 1 <? max then
      let* r := sys (Read 0 1) in
      let cc := fst r in
      if cc <? 1 then Ret (inr (buf, i)) else
      let c := hd 0 (snd r) in
      let buf := buf.[i := c] in
      if (c =? chr "\n") || (c =? chr "\r") then Ret (inr (buf, i + 1)) else Ret (inl (buf, i + 1))
    else Ret (inr (buf, i))) (buf, 0) in
  let '(buf, i) := r in
  Ret buf.[i := 0].

Definition stat (n : cstr) (st : ustat) : prog (Z * ustat) :=
  let* fd := sys (Open n O_RDONLY) in
  if fd <? 0 then Ret (-1, st) else
  let* r := sys (Fstat fd) in
  sys (Close fd) ;;
  Ret r.

Fixpoint atoi_loop (n : Z) (s : cstr) : Z :=
  match s with
  | c :: s' => if (chr "0" <=? c) && (c <=? chr "9") then atoi_loop (i32 (n * 10 + c - chr "0")) s' else n
  | [] => n
  end.

Definition atoi (s : cstr) : Z := atoi_loop 0 s.

Definition umemmove (m : bytes) (dst src n : Z) : bytes :=
  if src >? dst then memmove_up m dst src (Z.to_nat n)
  else memmove_down m (dst + n) (src + n) (Z.to_nat n).

Fixpoint umemcmp (m : bytes) (p1 p2 : Z) (n : nat) : Z :=
  match n with
  | O => 0
  | S n' => if negb (m p1 =? m p2) then m p1 - m p2 else umemcmp m (p1 + 1) (p2 + 1) n'
  end.

Definition umemcpy (m : bytes) (dst src n : Z) : bytes := umemmove m dst src n.

(** ** printf.c *)

Definition digits : cstr := lit "0123456789ABCDEF".

(** [c] is a [char]: a caller's wider value is converted at the call. *)
Definition putc (fd c : Z) : prog unit := sys (Write fd [c]) ;; Ret tt.

(** do buf[i++] = digits[x % base]; while((x /= base) != 0);  32 rounds are enough
    for 32 bits in any base. *)
Fixpoint digit_loop (fuel : nat) (x base : Z) : list Z :=
  match fuel with
  | O => []
  | S fuel' => nth (Z.to_nat (x mod base)) digits 0 ::
               (if x / base =? 0 then [] else digit_loop fuel' (x / base) base)
  end.

(** What printint() leaves in its buffer, least significant digit first. *)
Definition int_buf (xx base : Z) (sgn : bool) : list Z :=
  let neg := sgn && (xx <? 0) in
  let x := if neg then u32 (- xx) else u32 xx in
  digit_loop 32 x base ++ (if neg then [chr "-"] else []).

Definition printint (fd xx base : Z) (sgn : bool) : prog unit :=
  for_each (rev (int_buf xx base sgn)) (putc fd).

Fixpoint ptr_loop (fd : Z) (n : nat) (x : Z) : prog unit :=
  match n with
  | O => Ret tt
  | S n' => putc fd (nth (Z.to_nat (Z.shiftr x 60)) digits 0) ;; ptr_loop fd n' (u64 (Z.shiftl x 4))
  end.

Definition printptr (fd x : Z) : prog unit := putc fd (chr "0") ;; putc fd (chr "x") ;; ptr_loop fd 16 x.

(** A variadic argument: a number, or a pointer to a string ([None] for 0). *)
Inductive va := VNum (z : Z) | VStr (s : option cstr).

(** va_arg(ap, ...): the argument and the rest; reading past the end gives 0. *)
Definition va_num (ap : list va) : Z := match ap with VNum z :: _ => z | _ => 0 end.
Definition va_str (ap : list va) : option cstr := match ap with VStr s :: _ => s | _ => None end.

Fixpoint vprintf_loop (fd : Z) (fmt : cstr) (state : Z) (ap : list va) : prog unit :=
  match fmt with
  | [] => Ret tt
  | c :: fmt' =>
      if state =? 0 then
        if c =? chr "%" then vprintf_loop fd fmt' (chr "%") ap
        else putc fd c ;; vprintf_loop fd fmt' state ap
      else if state =? chr "%" then
        if c =? chr "d" then printint fd (i32 (va_num ap)) 10 true ;; vprintf_loop fd fmt' 0 (tail ap)
        else if c =? chr "l" then printint fd (i32 (u64 (va_num ap))) 10 false ;; vprintf_loop fd fmt' 0 (tail ap)
        else if c =? chr "x" then printint fd (i32 (va_num ap)) 16 false ;; vprintf_loop fd fmt' 0 (tail ap)
        else if c =? chr "p" then printptr fd (u64 (va_num ap)) ;; vprintf_loop fd fmt' 0 (tail ap)
        else if c =? chr "s" then
          for_each (match va_str ap with Some s => s | None => lit "(null)" end) (putc fd) ;;
          vprintf_loop fd fmt' 0 (tail ap)
        else if c =? chr "c" then putc fd (u8 (va_num ap)) ;; vprintf_loop fd fmt' 0 (tail ap)
        else if c =? chr "%" then putc fd c ;; vprintf_loop fd fmt' 0 ap
        else putc fd (chr "%") ;; putc fd c ;; vprintf_loop fd fmt' 0 ap
      else vprintf_loop fd fmt' state ap
  end.

Definition vprintf (fd : Z) (fmt : cstr) (ap : list va) : prog unit := vprintf_loop fd fmt 0 ap.

Definition fprintf (fd : Z) (fmt : string) (ap : list va) : prog unit := vprintf fd (lit fmt) ap.

Definition printf (fmt : string) (ap : list va) : prog unit := vprintf 1 (lit fmt) ap.

(** ** The text of a format *)

Definition render_int (xx base : Z) (sgn : bool) : list Z := rev (int_buf xx base sgn).

Fixpoint ptr_digits (n : nat) (x : Z) : list Z :=
  match n with
  | O => []
  | S n' => nth (Z.to_nat (Z.shiftr x 60)) digits 0 :: ptr_digits n' (u64 (Z.shiftl x 4))
  end.

(** What one conversion prints, and whether it takes an argument. *)
Definition conv (c : Z) (ap : list va) : list Z * bool :=
  if c =? chr "d" then (render_int (i32 (va_num ap)) 10 true, true)
  else if c =? chr "l" then (render_int (i32 (u64 (va_num ap))) 10 false, true)
  else if c =? chr "x" then (render_int (i32 (va_num ap)) 16 false, true)
  else if c =? chr "p" then (lit "0x" ++ ptr_digits 16 (u64 (va_num ap)), true)
  else if c =? chr "s" then (match va_str ap with Some s => s | None => lit "(null)" end, true)
  else if c =? chr "c" then ([u8 (va_num ap)], true)
  else if c =? chr "%" then ([c], false)
  else ([chr "%"; c], false).

Fixpoint render (fmt : cstr) (ap : list va) : list Z :=
  match fmt with
  | [] => []
  | c :: fmt' =>
      if c =? chr "%" then
        match fmt' with
        | [] => []
        | d :: fmt'' => let '(out, used) := conv d ap in out ++ render fmt'' (if used then tail ap else ap)
        end
      else c :: render fmt' ap
  end.

(** ** Proofs *)

Lemma runs_putc (Q : unit + stop -> world -> Prop) fd c w : Q (inl tt) (put fd [c] w) -> runs Q (putc fd c) w.
Proof. intros H. apply uwp_bind, runs_write, uwp_Ret, H. Qed.

Lemma runs_puts (Q : unit + stop -> world -> Prop) fd s w :
  Q (inl tt) (put fd s w) -> runs Q (for_each s (putc fd)) w.
Proof.
  revert w. induction s as [|c s IH]; intros w H; cbn [for_each].
  - apply uwp_Ret. by rewrite put_nil in H.
  - apply uwp_bind, runs_putc, IH. by rewrite put_put.
Qed.

Lemma runs_ptr_loop (Q : unit + stop -> world -> Prop) fd n x w :
  Q (inl tt) (put fd (ptr_digits n x) w) -> runs Q (ptr_loop fd n x) w.
Proof.
  revert x w. induction n as [|n IH]; intros x w H; cbn [ptr_loop].
  - apply uwp_Ret. by rewrite put_nil in H.
  - apply uwp_bind, runs_putc, IH. by rewrite put_put.
Qed.

#[local] Arguments chr : simpl never.
#[local] Arguments lit : simpl never.

(** A conversion prints [conv] and goes on after its argument. *)
Lemma runs_conv (Q : unit + stop -> world -> Prop) fd d fmt ap w :
  (forall w', w' = put fd (conv d ap).1 w ->
     runs Q (vprintf_loop fd fmt 0 (if (conv d ap).2 then tail ap else ap)) w') ->
  runs Q (vprintf_loop fd (d :: fmt) (chr "%") ap) w.
Proof.
  intros H. cbn [vprintf_loop]. change (chr "%" =? 0) with false. rewrite Z.eqb_refl. cbv iota. unfold conv in H.
  repeat (match goal with |- context [if ?c =? ?k then _ else _] => destruct (c =? k) end; cbn [fst snd] in H);
    apply uwp_bind.
  - by apply runs_puts, H.
  - by apply runs_puts, H.
  - by apply runs_puts, H.
  - apply uwp_bind, runs_putc, uwp_bind, runs_putc, runs_ptr_loop, H. rewrite !put_put. reflexivity.
  - by apply runs_puts, H.
  - by apply runs_putc, H.
  - by apply runs_putc, H.
  - apply runs_putc, uwp_bind, runs_putc, H. by rewrite put_put.
Qed.

Lemma runs_vprintf_loop n (Q : unit + stop -> world -> Prop) fd fmt ap w :
  (length fmt <= n)%nat -> Q (inl tt) (put fd (render fmt ap) w) -> runs Q (vprintf_loop fd fmt 0 ap) w.
Proof.
  revert fmt ap w. induction n as [|n IH]; intros [|c fmt] ap w Hn H; cbn [length] in Hn; try lia.
  1, 2: cbn [vprintf_loop]; apply uwp_Ret; by rewrite put_nil in H.
  cbn [vprintf_loop]. rewrite Z.eqb_refl. cbn [render] in H. destruct (c =? chr "%") eqn:E.
  - destruct fmt as [|d fmt]; [cbn [vprintf_loop]; apply uwp_Ret; by rewrite put_nil in H|].
    apply runs_conv. intros w' ->. destruct (conv d ap) as [out used]. cbn [fst snd].
    apply IH; [simpl in Hn; lia|]. by rewrite put_put.
  - apply uwp_bind, runs_putc, IH; [lia|]. by rewrite put_put.
Qed.

Lemma runs_vprintf (Q : unit + stop -> world -> Prop) fd fmt ap w :
  Q (inl tt) (put fd (render fmt ap) w) -> runs Q (vprintf fd fmt ap) w.
Proof. by apply runs_vprintf_loop with (n := length fmt). Qed.

(** *** Memory *)

Lemma umemmove_range m dst src n : 0 <= n -> umemmove m dst src n = memmove m dst src n.
Proof.
  intros Hn. unfold umemmove. rewrite Z.gtb_ltb. destruct (Z.ltb_spec dst src).
  - rewrite memmove_up_range by lia. f_equal; lia.
  - rewrite memmove_down_range by lia. f_equal; lia.
Qed.

(** *** Numbers *)

Definition is_digit (c : Z) : bool := (chr "0" <=? c) && (c <=? chr "9").

Lemma digit_char x : 0 <= x < 10 -> nth (Z.to_nat x) digits 0 = 48 + x.
Proof.
  intros H. assert (x = 0 \/ x = 1 \/ x = 2 \/ x = 3 \/ x = 4 \/ x = 5 \/ x = 6 \/ x = 7 \/ x = 8 \/ x = 9) as Hx by lia.
  by repeat destruct Hx as [->|Hx]; subst.
Qed.

Lemma atoi_loop_app n a b : Forall (fun c => is_digit c = true) a -> atoi_loop n (a ++ b) = atoi_loop (atoi_loop n a) b.
Proof.
  intros H. revert n. induction H as [|c a Hc Ha IH]; intros n; [done|]. cbn [app atoi_loop]. fold (is_digit c).
  rewrite Hc. apply IH.
Qed.

Lemma digit_loop_digits fuel x : 0 <= x -> Forall (fun c => is_digit c = true) (digit_loop fuel x 10).
Proof.
  revert x. induction fuel as [|fuel IH]; intros x Hx; cbn [digit_loop]; [done|].
  pose proof (Z.mod_pos_bound x 10 ltac:(lia)). constructor.
  - rewrite digit_char by lia. unfold is_digit. rewrite andb_true_iff, !Z.leb_le. change (chr "0") with 48. change (chr "9") with 57. lia.
  - destruct (_ =? 0); [done|]. apply IH, Z.div_pos; lia.
Qed.

(** The digits of [x], most significant first, read as [x]. *)
Lemma atoi_digits fuel x : 0 <= x < 2 ^ 31 -> x < 10 ^ Z.of_nat fuel -> atoi (rev (digit_loop fuel x 10)) = x.
Proof.
  unfold atoi. revert x. induction fuel as [|fuel IH]; intros x Hx Hf.
  - change (10 ^ Z.of_nat 0) with 1 in Hf. simpl. lia.
  - cbn [digit_loop rev]. pose proof (Z.mod_pos_bound x 10 ltac:(lia)). pose proof (Z.div_mod x 10 ltac:(lia)).
    assert (0 <= x / 10 < 2 ^ 31) as Hd by (split; [apply Z.div_pos; lia|apply Z.div_lt_upper_bound; lia]).
    assert (atoi_loop 0 (rev (if x / 10 =? 0 then [] else digit_loop fuel (x / 10) 10)) = x / 10) as Hr.
    { destruct (Z.eqb_spec (x / 10) 0) as [->|Hne]; [done|]. apply IH; [done|].
      apply Z.div_lt_upper_bound; [lia|]. replace (Z.of_nat (S fuel)) with (1 + Z.of_nat fuel) in Hf by lia.
      by rewrite Z.pow_add_r in Hf by lia. }
    rewrite atoi_loop_app.
    2: { apply Forall_rev. destruct (_ =? 0); [done|]. apply digit_loop_digits. lia. }
    rewrite Hr. cbn [atoi_loop]. rewrite digit_char by lia. change (chr "0") with 48. change (chr "9") with 57.
    rewrite (proj2 (Z.leb_le _ _)), (proj2 (Z.leb_le _ _)) by lia. cbn [andb]. rewrite i32_small; [lia|]. unfold int_range. lia.
Qed.

Lemma digit_loop_length fuel k x base :
  2 <= base -> 0 <= x < base ^ Z.of_nat k -> (0 < k)%nat -> (length (digit_loop fuel x base) <= k)%nat.
Proof.
  intros Hb. revert k x. induction fuel as [|fuel IH]; intros k x Hx Hk; cbn [digit_loop length]; [lia|].
  destruct (Z.eqb_spec (x / base) 0) as [|Hne]; [simpl; lia|]. destruct k as [|[|k]]; [lia| |].
  - exfalso. apply Hne, Z.div_small. change (Z.of_nat 1) with 1 in Hx. by rewrite Z.pow_1_r in Hx.
  - apply le_n_S, IH; [|lia]. split; [apply Z.div_pos; lia|]. apply Z.div_lt_upper_bound; [lia|].
    replace (Z.of_nat (S (S k))) with (1 + Z.of_nat (S k)) in Hx by lia. rewrite Z.pow_add_r in Hx by lia. lia.
Qed.

(** What printf's %d prints, atoi() reads back: for every nonnegative int the
    same number, and for a negative one its magnitude after a minus sign, which
    atoi() does not accept (it returns 0); and the digits fit the 16-byte buffer of
    printint(), in base 16 as well. *)
Theorem printint_atoi_roundtrip x :
  int_range x ->
  (0 <= x -> atoi (render_int x 10 true) = x) /\
  (x < 0 -> exists ds, render_int x 10 true = chr "-" :: ds /\ atoi (chr "-" :: ds) = 0 /\
     (- 2 ^ 31 < x -> atoi ds = - x)) /\
  forall base sgn, base = 10 \/ base = 16 -> (length (int_buf x base sgn) <= 16)%nat.
Proof.
  unfold int_range. intros Hx. split_and!.
  - intros H0. unfold render_int, int_buf. rewrite (proj2 (Z.ltb_ge _ _) H0). cbn [andb]. rewrite app_nil_r, u32_small by lia.
    apply atoi_digits; [lia|]. change (10 ^ Z.of_nat 32) with 100000000000000000000000000000000. lia.
  - intros H0. unfold render_int, int_buf. rewrite (proj2 (Z.ltb_lt _ _) H0). cbn [andb]. rewrite rev_unit, u32_small by lia.
    eexists. split_and!; [done|done|]. intros H1. apply atoi_digits; [lia|].
    change (10 ^ Z.of_nat 32) with 100000000000000000000000000000000. lia.
  - intros base sgn Hb. unfold int_buf. cbv zeta. rewrite length_app.
    match goal with |- context [digit_loop 32 ?z base] => set (y := z) end.
    assert (0 <= y < 2 ^ 32) as Hy by (subst y; destruct (_ && _); apply u32_range).
    assert (length (digit_loop 32 y base) <= 10)%nat.
    { destruct Hb as [-> | ->]; apply digit_loop_length; lia. }
    destruct (_ && _); cbn [length]; lia.
Qed.

Lemma printint_atoi_roundtrip_witness : atoi (render_int 2147483647 10 true) = 2147483647.
Proof. apply printint_atoi_roundtrip; vm_compute; [split; [discriminate|reflexivity]|discriminate]. Defined.
