(* ===== verification/Utils.v ===== *)
(** * The small user programs

    cat, wc, echo, kill, ln, mkdir, rm, ls, zombie, init, prio, stressfs and
    forktest.  The commands that read files get their input in pieces of any size
    the kernel chooses; cat copies it and wc counts it the same for every split. *)

From S2P Require Import Prelude CString User ULib.
Open Scope Z_scope.

(** The arguments after argv[0]; argc is one more. *)
Definition args : Type := list cstr.

(** ** cat.c *)

(** [buf] has 512 bytes; the first [n] hold what read() delivered. *)
Definition cat (fd : Z) : prog unit :=
  let* n := while (fun _ : unit =>
    let* r := sys (Read fd 512) in
    let '(n, buf) := r in
    if n >? 0 then
      let* k := sys (Write 1 (take (Z.to_nat n) buf)) in
      if negb (k =? n) then fprintf 2 "cat: write error\n" [] ;; exit 1
      else Ret (inl tt)
    else Ret (inr n)) tt in
  if n <? 0 then fprintf 2 "cat: read error\n" [] ;; exit 1 else Ret tt.

Definition cat_main (argv : args) : prog unit :=
  if bool_decide (argv = []) then cat 0 ;; exit 0 else
  for_each argv (fun a =>
    let* fd := sys (Open a 0) in
    if fd <? 0 then fprintf 2 "cat: cannot open %s\n" [VStr (Some a)] ;; exit 1 else
    cat fd ;;
    sys (Close fd) ;;
    Ret tt) ;;
  exit 0.

(** ** wc.c *)

Record counts := mkCounts { c_l : Z; c_w : Z; c_c : Z; c_inword : bool }.

Definition is_blank (c : Z) : bool := match strchr (lit " \r\t\n\v") c with Some _ => true | None => false end.

(** The body of the loop over the buffer. *)
Definition wc_byte (s : counts) (b : Z) : counts :=
  let c := i32 (c_c s + 1) in
  let l := if b =? chr "\n" then i32 (c_l s + 1) else c_l s in
  if is_blank b then mkCounts l (c_w s) c false
  else if negb (c_inword s) then mkCounts l (i32 (c_w s + 1)) c true
  else mkCounts l (c_w s) c (c_inword s).

Definition wc (fd : Z) (name : cstr) : prog unit :=
  let* r := while (fun s : counts =>
    let* r := sys (Read fd 512) in
    let '(n, buf) := r in
    if n >? 0 then Ret (inl (fold_left wc_byte (take (Z.to_nat n) buf) s)) else Ret (inr (n, s)))
    (mkCounts 0 0 0 false) in
  let '(n, s) := r in
  if n <? 0 then printf "wc: read error\n" [] ;; exit 1 else
  printf "%d %d %d %s\n" [VNum (c_l s); VNum (c_w s); VNum (c_c s); VStr (Some name)].

Definition wc_main (argv : args) : prog unit :=
  if bool_decide (argv = []) then wc 0 [] ;; exit 0 else
  for_each argv (fun a =>
    let* fd := sys (Open a 0) in
    if fd <? 0 then printf "wc: cannot open %s\n" [VStr (Some a)] ;; exit 1 else
    wc fd a ;;
    sys (Close fd) ;;
    Ret tt) ;;
  exit 0.

(** ** echo.c *)

Fixpoint echo_loop (argv : args) : prog unit :=
  match argv with
  | [] => Ret tt
  | a :: rest =>
      sys (Write 1 a) ;;
      (if bool_decide (rest = []) then sys (Write 1 (lit "\n")) else sys (Write 1 (lit " "))) ;;
      echo_loop rest
  end.

Definition echo_main (argv : args) : prog unit := echo_loop argv ;; exit 0.

(** ** kill.c, ln.c, mkdir.c, rm.c, zombie.c *)

Definition kill_main (argv : args) : prog unit :=
  if bool_decide (argv = []) then fprintf 2 "usage: kill pid...\n" [] ;; exit 1 else
  for_each argv (fun a => sys (Kill (atoi a)) ;; Ret tt) ;;
  exit 0.

Definition ln_main (argv : args) : prog unit :=
  match argv with
  | [old; new] =>
      let* r := sys (Link old new) in
      (if r <? 0 then fprintf 2 "link %s %s: failed\n" [VStr (Some old); VStr (Some new)] else Ret tt) ;;
      exit 0
  | _ => fprintf 2 "Usage: ln old new\n" [] ;; exit 1
  end.

Fixpoint mkdir_loop (argv : args) : prog unit :=
  match argv with
  | [] => Ret tt
  | a :: rest =>
      let* r := sys (Mkdir a) in
      if r <? 0 then fprintf 2 "mkdir: %s failed to create\n" [VStr (Some a)] else mkdir_loop rest
  end.

Definition mkdir_main (argv : args) : prog unit :=
  if bool_decide (argv = []) then fprintf 2 "Usage: mkdir files...\n" [] ;; exit 1 else
  mkdir_loop argv ;;
  exit 0.

Fixpoint rm_loop (argv : args) : prog unit :=
  match argv with
  | [] => Ret tt
  | a :: rest =>
      let* r := sys (Unlink a) in
      if r <? 0 then fprintf 2 "rm: %s failed to delete\n" [VStr (Some a)] else rm_loop rest
  end.

Definition rm_main (argv : args) : prog unit :=
  if bool_decide (argv = []) then fprintf 2 "Usage: rm files...\n" [] ;; exit 1 else
  rm_loop argv ;;
  exit 0.

Definition zombie_main : prog unit :=
  let* pid := sys Fork in
  (if pid >? 0 then sys (Sleep 5) ;; Ret tt else Ret tt) ;;
  exit 0.

(** ** ls.c *)

Definition DIRSIZ : Z := 14.
Definition T_DIR : Z := 1.
Definition T_FILE : Z := 2.

(** What follows the last slash. *)
Fixpoint after_slash (p : cstr) : cstr :=
  match p with
  | [] => []
  | c :: p' => if existsb (fun d => d =? chr "/") p' then after_slash p'
               else if c =? chr "/" then p' else p
  end.

(** The static buffer keeps its last byte 0, so the padded name is a string. *)
Definition fmtname (path : cstr) : cstr :=
  let p := after_slash path in
  if DIRSIZ <=? strlen p then p
  else p ++ repeat (chr " ") (Z.to_nat (DIRSIZ - strlen p)).

(** struct dirent as read(): inum, little-endian, and the name up to its NUL. *)
Definition de_inum (de : list Z) : Z := nth 0 de 0 + 256 * nth 1 de 0.
Fixpoint until_nul (l : list Z) : cstr :=
  match l with
  | [] => []
  | c :: l' => if c =? 0 then [] else c :: until_nul l'
  end.
Definition de_name (de : list Z) : cstr := until_nul (take (Z.to_nat DIRSIZ) (drop 2 de)).

Definition ls (path : cstr) : prog unit :=
  let* fd := sys (Open path 0) in
  if fd <? 0 then fprintf 2 "ls: cannot open %s\n" [VStr (Some path)] else
  let* r := sys (Fstat fd) in
  let '(r, st) := r in
  if r <? 0 then fprintf 2 "ls: cannot stat %s\n" [VStr (Some path)] ;; sys (Close fd) ;; Ret tt else
  (if ust_type st =? T_FILE then
     printf "%s %d %d %l\n" [VStr (Some (fmtname path)); VNum (ust_type st); VNum (ust_ino st); VNum (ust_size st)]
   else if ust_type st =? T_DIR then
     if strlen path + 1 + DIRSIZ + 1 >? 512 then printf "ls: path too long\n" [] else
     while (fun st =>
       let* r := sys (Read fd 16) in
       let '(n, de) := r in
       if negb (n =? 16) then Ret (inr tt) else
       if de_inum de =? 0 then Ret (inl st) else
       let buf := path ++ lit "/" ++ de_name de in
       let* r := stat buf st in
       let '(r, st) := r in
       if r <? 0 then printf "ls: cannot stat %s\n" [VStr (Some buf)] ;; Ret (inl st) else
       printf "%s %d %d %d\n" [VStr (Some (fmtname buf)); VNum (ust_type st); VNum (ust_ino st); VNum (ust_size st)] ;;
       Ret (inl st)) st
   else Ret tt) ;;
  sys (Close fd) ;;
  Ret tt.

Definition ls_main (argv : args) : prog unit :=
  if bool_decide (argv = []) then ls (lit ".") ;; exit 0 else
  for_each argv ls ;;
  exit 0.

(** ** init.c *)

Definition CONSOLE : Z := 1.

Definition init_main : prog Empty_set :=
  let* r := sys (Open (lit "console") O_RDWR) in
  (if r <? 0 then sys (Mknod (lit "console") CONSOLE 0) ;; sys (Open (lit "console") O_RDWR) ;; Ret tt else Ret tt) ;;
  sys (Dup 0) ;;  (* stdout *)
  sys (Dup 0) ;;  (* stderr *)
  while (fun _ : unit =>
    printf "init: starting sh\n" [] ;;
    let* pid := sys Fork in
    if pid <? 0 then printf "init: fork failed\n" [] ;; exit 1 else
    if pid =? 0 then
      sys (Exec (lit "sh") [lit "sh"]) ;;
      printf "init: exec sh failed\n" [] ;;
      exit 1
    else
    while (fun _ : unit =>
      let* r := sys Wait in
      let wpid := fst r in
      if wpid =? pid then Ret (inr (inl tt))  (* the shell exited; restart it. *)
      else if wpid <? 0 then printf "init: wait returned an error\n" [] ;; exit 1
      else Ret (inl tt)) tt) tt.

(** ** prio.c, stressfs.c, forktest.c *)

Definition TEST_HIGH_PRIORITY : Z := 1.
Definition LOW_PRIORITY : Z := 7.

Definition prio_main : prog unit :=
  fprintf 2 "Hello Prio!\n" [] ;;
  sys (Set_priority TEST_HIGH_PRIORITY) ;;
  let* pid := sys Fork in
  if pid =? 0 then
    sys (Set_priority LOW_PRIORITY) ;;
    fprintf 2 "In process with ***low*** priority" [] ;;
    exit 0
  else
    fprintf 2 "In process with ***high*** priority" [] ;;
    exit 0.

(** for(i = 0; i < 4; i++) if(fork() > 0) break; *)
Fixpoint stress_forks (n : nat) (i : Z) : prog Z :=
  match n with
  | O => Ret i
  | S n' => let* pid := sys Fork in if pid >? 0 then Ret i else stress_forks n' (i + 1)
  end.

Definition stressfs_main : prog unit :=
  printf "stressfs starting\n" [] ;;
  let data := repeat (chr "a") 512 in
  let* i := stress_forks 4 0 in
  printf "write %d\n" [VNum i] ;;
  let path := lit "stressfs" ++ [chr "0" + i] in
  let* fd := sys (Open path (Z.lor O_CREATE O_RDWR)) in
  for_each (seq 0 20) (fun _ => sys (Write fd data) ;; Ret tt) ;;
  sys (Close fd) ;;
  printf "read\n" [] ;;
  let* fd := sys (Open path O_RDONLY) in
  for_each (seq 0 20) (fun _ => sys (Read fd 512) ;; Ret tt) ;;
  sys (Close fd) ;;
  sys Wait ;;
  exit 0.

Definition print (s : cstr) : prog unit := sys (Write 1 s) ;; Ret tt.

(** The number of successful forks, at most [n]. *)
Fixpoint forktest_forks (n : nat) (done : Z) : prog Z :=
  match n with
  | O => Ret done
  | S n' =>
      let* pid := sys Fork in
      if pid <? 0 then Ret done else
      if pid =? 0 then exit 0 else
      forktest_forks n' (done + 1)
  end.

Fixpoint forktest_waits (n : nat) : prog unit :=
  match n with
  | O => Ret tt
  | S n' =>
      let* r := sys Wait in
      if fst r <? 0 then print (lit "wait stopped early\n") ;; exit 1 else forktest_waits n'
  end.

Definition forktest : prog unit :=
  print (lit "fork test\n") ;;
  let* n := forktest_forks 1000 0 in
  if n =? 1000 then print (lit "fork claimed to work N times!\n") ;; exit 1 else
  forktest_waits (Z.to_nat n) ;;
  let* r := sys Wait in
  if negb (fst r =? -1) then print (lit "wait got too many\n") ;; exit 1 else
  print (lit "fork test OK\n").

Definition forktest_main : prog unit := forktest ;; exit 0.

(** ** Proofs *)

Lemma set_w_in_again fd b b' w :
  set_w_in (w_in (set_w_in (w_in w).[fd := b] w)).[fd := b'] (set_w_in (w_in w).[fd := b] w) = set_w_in (w_in w).[fd := b'] w.
Proof. destruct w. unfold set_w_in. simpl. by rewrite fupd_fupd. Qed.

Lemma set_w_in_id fd l w : w_in w fd = Some l -> set_w_in (w_in w).[fd := Some l] w = w.
Proof. intros H. destruct w. unfold set_w_in. simpl in *. f_equal. by rewrite <- H, fupd_id. Qed.

Lemma runs_cat (Q : unit + stop -> world -> Prop) fd l w :
  w_in w fd = Some l -> Q (inl tt) (put 1 l (set_w_in (w_in w).[fd := Some []] w)) -> runs Q (cat fd) w.
Proof.
  intros Hl HQ. apply uwp_bind.
  apply (uwp_while _ _ (fun _ w' => exists a b, l = a ++ b /\ w' = put 1 a (set_w_in (w_in w).[fd := Some b] w))
    (fun _ w' => match w_in w' fd with Some b => length b | None => O end)).
  { exists [], l. split; [done|]. by rewrite put_nil, set_w_in_id. }
  intros [] w' (a & b & -> & ->). apply uwp_bind. apply (runs_read _ fd 512 b); [simpl; by rewrite fupd_eq|done| |].
  - intros ->. rewrite app_nil_r in HQ. apply uwp_Ret. simpl. by apply uwp_Ret.
  - intros a' b' -> Ha' Hn. assert (0 < Z.of_nat (length a')) as Hlt by (destruct a'; [done|simpl; lia]).
    rewrite Z.gtb_ltb, (proj2 (Z.ltb_lt _ _) Hlt). rewrite Nat2Z.id, take_ge by done.
    apply uwp_bind, runs_write. rewrite Z.eqb_refl. cbn [negb]. apply uwp_Ret. split.
    + exists (a ++ a'), b'. split; [by rewrite <- app_assoc|].
      unfold put. cbn [w_in w_out set_w_in set_w_out w_file w_prog w_try]. rewrite !fupd_fupd, fupd_eq, <- app_assoc. done.
    + simpl. rewrite !fupd_eq, length_app. simpl in *. lia.
Qed.

(** *** wc *)

(** The text split at its blanks; a word is a piece that is not empty. *)
Fixpoint pieces (l : list Z) : list (list Z) :=
  match l with
  | [] => [[]]
  | c :: l' => if is_blank c then [] :: pieces l'
               else match pieces l' with s :: r => (c :: s) :: r | [] => [[c]] end
  end.

Definition nonempty (s : list Z) : bool := match s with [] => false | _ => true end.
Definition words (l : list Z) : Z := Z.of_nat (length (filter (fun s => nonempty s = true) (pieces l))).
Definition newlines (l : list Z) : Z := Z.of_nat (length (filter (fun c => c = chr "\n") l)).

(** The words that begin in [l], when [inword] says whether one is going on. *)
Definition new_words (inword : bool) (l : list Z) : Z :=
  words l - (if inword && nonempty (hd [] (pieces l)) then 1 else 0).

#[local] Arguments chr : simpl never.
#[local] Arguments is_blank : simpl never.

Lemma pieces_cons l : exists s r, pieces l = s :: r.
Proof. destruct l as [|c l]; simpl; [by eexists _, _|]. destruct (is_blank c); [by eexists _, _|]. destruct (pieces l); by eexists _, _. Qed.

Lemma new_words_cons inword c l :
  new_words inword (c :: l) =
  if is_blank c then new_words false l
  else (if inword then 0 else 1) + new_words true l.
Proof.
  unfold new_words, words. cbn [pieces]. destruct (is_blank c).
  - rewrite filter_cons_False by done. simpl. rewrite andb_false_r. lia.
  - destruct (pieces_cons l) as (s & r & ->). rewrite filter_cons_True by done.
    destruct s as [|d s].
    + rewrite filter_cons_False by done. destruct inword; simpl; lia.
    + rewrite filter_cons_True by done. destruct inword; simpl; lia.
Qed.

Lemma new_words_bound inword l : 0 <= new_words inword l <= Z.of_nat (length l).
Proof.
  revert inword. induction l as [|c l IH]; intros inword; [by destruct inword|].
  rewrite new_words_cons. cbn [length]. destruct (is_blank c); [specialize (IH false)|specialize (IH true); destruct inword]; lia.
Qed.

Lemma newlines_cons c l : newlines (c :: l) = (if c =? chr "\n" then 1 else 0) + newlines l.
Proof.
  unfold newlines. destruct (Z.eqb_spec c (chr "\n")) as [E|E].
  - rewrite filter_cons_True by done. simpl. lia.
  - rewrite filter_cons_False by done. lia.
Qed.

Lemma newlines_bound l : 0 <= newlines l <= Z.of_nat (length l).
Proof. induction l as [|c l IH]; [done|]. rewrite newlines_cons. cbn [length]. destruct (_ =? _); lia. Qed.

(** The loop over the bytes counts lines, words and bytes as long as they fit an int. *)
Lemma wc_fold l s :
  0 <= c_l s -> 0 <= c_w s -> 0 <= c_c s ->
  c_l s + Z.of_nat (length l) < 2 ^ 31 -> c_w s + Z.of_nat (length l) < 2 ^ 31 -> c_c s + Z.of_nat (length l) < 2 ^ 31 ->
  let s' := fold_left wc_byte l s in
  c_l s' = c_l s + newlines l /\ c_w s' = c_w s + new_words (c_inword s) l /\ c_c s' = c_c s + Z.of_nat (length l).
Proof.
  revert s. induction l as [|c l IH]; intros [cl cw cc iw] H1 H2 H3 H4 H5 H6 s'; cbn [c_l c_w c_c c_inword] in *.
  - subst s'. simpl. unfold newlines, new_words. simpl. destruct iw; simpl; lia.
  - cbn [length] in *. subst s'. cbn [fold_left]. rewrite newlines_cons, new_words_cons.
    assert (forall a, 0 <= a -> a + Z.of_nat (S (length l)) < 2 ^ 31 -> i32 (a + 1) = a + 1) as Hi.
    { intros a Ha Hb. apply i32_small. unfold int_range. lia. }
    set (s1 := wc_byte _ c).
    assert (c_l s1 = cl + (if c =? chr "\n" then 1 else 0) /\ c_c s1 = cc + 1 /\
      c_w s1 = (if is_blank c then cw else if iw then cw else cw + 1) /\ c_inword s1 = negb (is_blank c)) as (E1 & E2 & E3 & E4).
    { subst s1. unfold wc_byte. cbn [c_l c_w c_c c_inword]. rewrite !Hi by done.
      destruct (_ =? _), (is_blank c), iw; cbn; split_and!; lia. }
    clearbody s1. destruct (IH s1) as (F1 & F2 & F3); rewrite ?E1, ?E2, ?E3;
      [destruct (_ =? _); lia|destruct (is_blank c), iw; lia|lia|destruct (_ =? _); lia|destruct (is_blank c), iw; lia|lia|].
    rewrite F1, F2, F3, E1, E2, E3, E4. destruct (is_blank c), iw; cbn; split_and!; lia.
Qed.

Definition wc_line (name : cstr) (l : list Z) : list Z :=
  render (lit "%d %d %d %s\n") [VNum (newlines l); VNum (words l); VNum (Z.of_nat (length l)); VStr (Some name)].

Lemma runs_wc (Q : unit + stop -> world -> Prop) fd name l w :
  w_in w fd = Some l -> Z.of_nat (length l) < 2 ^ 31 ->
  Q (inl tt) (put 1 (wc_line name l) (set_w_in (w_in w).[fd := Some []] w)) -> runs Q (wc fd name) w.
Proof.
  intros Hl Hlen HQ. apply uwp_bind.
  apply (uwp_while _ _ (fun s w' => exists a b, l = a ++ b /\ s = fold_left wc_byte a (mkCounts 0 0 0 false) /\
      w' = set_w_in (w_in w).[fd := Some b] w)
    (fun _ w' => match w_in w' fd with Some b => length b | None => O end)).
  { exists [], l. split_and!; [done|done|]. by rewrite set_w_in_id. }
  intros s w' (a & b & -> & -> & ->). apply uwp_bind. apply (runs_read _ fd 512 b); [simpl; by rewrite fupd_eq|done| |].
  - intros ->. rewrite app_nil_r in *. apply uwp_Ret. cbn [Z.gtb Z.compare Z.ltb]. apply runs_vprintf.
    destruct (wc_fold a (mkCounts 0 0 0 false)) as (E1 & E2 & E3); cbn [c_l c_w c_c]; try lia.
    rewrite E1, E2, E3. cbn [c_l c_w c_c c_inword]. unfold new_words. cbn [andb]. rewrite Z.sub_0_r, !Z.add_0_l. exact HQ.
  - intros a' b' -> Ha' Hn. assert (0 < Z.of_nat (length a')) as Hlt by (destruct a'; [done|simpl; lia]).
    rewrite Z.gtb_ltb, (proj2 (Z.ltb_lt _ _) Hlt), Nat2Z.id, take_ge by done. apply uwp_Ret. split.
    + exists (a ++ a'), b'. split_and!; [by rewrite <- app_assoc|by rewrite fold_left_app|]. by rewrite set_w_in_again.
    + simpl. rewrite !fupd_eq, length_app. lia.
Qed.

(** *** Commands over a list of files *)

(** A command that opens each file, works on it and closes it, when each file can
    be opened and the work on a descriptor writes [out] and reads it to the end. *)
Lemma runs_files (work : cstr -> Z -> prog unit) (err : cstr -> prog unit) (out : cstr -> list Z -> list Z)
    (P : list Z -> Prop) argv contents (Q : unit + stop -> world -> Prop) w :
  (forall Q fd a l w, w_in w fd = Some l -> P l ->
     Q (inl tt) (put 1 (out a l) (set_w_in (w_in w).[fd := Some []] w)) -> runs Q (work a fd) w) ->
  Forall2 (fun a l => w_file w a = Some l) argv contents -> Forall P contents ->
  (exists fd, 0 <= fd /\ w_in w fd = None) ->
  Q (inl tt) (put 1 (concat (zip_with out argv contents)) w) ->
  runs Q (for_each argv (fun a =>
    let* fd := sys (Open a 0) in
    if fd <? 0 then err a else work a fd ;; sys (Close fd) ;; Ret tt)) w.
Proof.
  intros Hwork Hf. revert w Q Hf. revert contents. induction argv as [|a argv IH]; intros contents w Q Hf HP Hfd HQ.
  - apply Forall2_nil_inv_l in Hf as ->. cbn [for_each]. apply uwp_Ret. simpl in HQ. by rewrite put_nil in HQ.
  - apply Forall2_cons_inv_l in Hf as (l & contents' & Hl & Hf & ->). apply Forall_cons in HP as [HPl HP]. cbn [for_each].
    apply uwp_bind, uwp_bind, runs_open; [done|by rewrite Hl|]. intros c fd Hc Hge Hnone. rewrite Hl in Hc. injection Hc as <-.
    rewrite (proj2 (Z.ltb_ge _ _) Hge). apply uwp_bind. apply (Hwork _ fd a l); [simpl; apply fupd_eq|done|].
    apply uwp_bind, runs_close, uwp_Ret.
    match goal with |- runs _ _ ?x => replace x with (put 1 (out a l) w) end.
    2: { destruct w as [wf wp wi wo wt]. unfold put, set_w_in, set_w_out. simpl. f_equal. rewrite !fupd_fupd. simpl in Hnone.
         by rewrite <- Hnone, fupd_id. }
    eapply IH; [exact Hf|exact HP|exact Hfd|]. by rewrite put_put.
Qed.

(** Cat copies its files to the standard output: whatever pieces read()
    delivers, the bytes written are the contents of the files in order, and the
    program exits with 0 and every descriptor it opened closed. *)
Theorem cat_copies argv contents w :
  argv <> [] -> Forall2 (fun a l => w_file w a = Some l) argv contents ->
  (exists fd, 0 <= fd /\ w_in w fd = None) ->
  runs (fun o w' => o = inr (Exited 0) /\ w' = put 1 (concat contents) w) (cat_main argv) w.
Proof.
  intros Hne Hf Hfd. unfold cat_main. rewrite bool_decide_false by done. apply uwp_bind.
  apply (runs_files (fun _ => cat) _ (fun _ l => l) (fun _ => True) argv contents); [|done|by apply Forall_true|done|].
  - intros Q fd a l w' Hl _ HQ. by apply (runs_cat _ fd l).
  - apply runs_exit. split; [done|]. f_equal. f_equal.
    clear -Hf. induction Hf as [|a l argv contents _ _ IH]; simpl; by f_equal.
Qed.

Definition world_w : world :=
  mkWorld (fun p => if bool_decide (p = lit "a") then Some (lit "x y\n") else if bool_decide (p = lit "b") then Some (lit "z") else None)
    (fun _ => false) (fun _ => None) (fun _ => []) [].

Lemma cat_copies_witness :
  runs (fun o w' => o = inr (Exited 0) /\ w_out w' 1 = lit "x y\nz") (cat_main [lit "a"; lit "b"]) world_w.
Proof.
  eapply uwp_mono; [apply (cat_copies [lit "a"; lit "b"] [lit "x y\n"; lit "z"] world_w)|].
  - discriminate.
  - by repeat constructor.
  - by exists 3.
  - intros o w' [-> ->]. done.
Defined.

(** Wc counts correctly and independently of the pieces read() delivers: for
    each file it prints the number of newlines, of words (maximal runs of bytes
    that are not blank) and of bytes, for files shorter than 2^31 bytes. *)
Theorem wc_counts argv contents w :
  argv <> [] -> Forall2 (fun a l => w_file w a = Some l) argv contents ->
  Forall (fun l => Z.of_nat (length l) < 2 ^ 31) contents ->
  (exists fd, 0 <= fd /\ w_in w fd = None) ->
  runs (fun o w' => o = inr (Exited 0) /\ w' = put 1 (concat (zip_with wc_line argv contents)) w) (wc_main argv) w.
Proof.
  intros Hne Hf HP Hfd. unfold wc_main. rewrite bool_decide_false by done. apply uwp_bind.
  apply (runs_files (fun a fd => wc fd a) _ wc_line (fun l => Z.of_nat (length l) < 2 ^ 31) argv contents); [|done|done|done|].
  - intros Q fd a l w' Hl HPl HQ. by apply (runs_wc _ fd a l).
  - by apply runs_exit.
Qed.

Lemma wc_counts_witness :
  runs (fun o w' => o = inr (Exited 0) /\ w_out w' 1 = lit "1 2 4 a\n") (wc_main [lit "a"]) world_w.
Proof.
  eapply uwp_mono; [apply (wc_counts [lit "a"] [lit "x y\n"] world_w)|].
  - discriminate.
  - by repeat constructor.
  - repeat constructor.
  - by exists 3.
  - intros o w' [-> ->]. done.
Defined.
