(* ===== verification/Grep.v ===== *)
(** * grep (user/grep.c)

    The matcher of Kernighan and Pike against a reference semantics of its
    patterns, and the reading loop over a 1024-byte buffer, which prints exactly
    the matching lines whatever pieces read() delivers. *)

From S2P Require Import Prelude CString User ULib Utils.
Open Scope Z_scope.

(** ** The matcher *)

(** matchstar: search for c*re at beginning of text; [mh] is matchhere(re, _) *)
Fixpoint matchstar (mh : cstr -> bool) (c : Z) (text : cstr) : bool :=
  if mh text then true
  else match text with
       | [] => false
       | t :: text' => if (t =? c) || (c =? chr ".") then matchstar mh c text' else false
       end.

(** matchhere: search for re at beginning of text *)
Fixpoint matchhere (re text : cstr) {struct re} : bool :=
  match re with
  | [] => true
  | r :: re1 =>
      let rest :=
        if (r =? chr "$") && bool_decide (re1 = []) then bool_decide (text = [])
        else match text with
             | [] => false
             | t :: text' => if (r =? chr ".") || (r =? t) then matchhere re1 text' else false
             end in
      match re1 with
      | [] => rest
      | s :: re2 => if s =? chr "*" then matchstar (matchhere re2) r text else rest
      end
  end.

(** The do loop of match(): at every position, the end included *)
Fixpoint match_from (re text : cstr) : bool :=
  if matchhere re text then true
  else match text with [] => false | _ :: text' => match_from re text' end.

Definition match_ (re text : cstr) : bool :=
  match re with
  | r :: re1 => if r =? chr "^" then matchhere re1 text else match_from re text
  | [] => match_from re text
  end.

(** ** The reading loop *)

(** while((q = strchr(p, '\n')) != 0) ...; [p] is what the buffer holds from p on.
    Each round consumes a line, so a round per byte is enough. *)
Fixpoint grep_lines (fuel : nat) (pattern : cstr) (p : list Z) : prog (list Z) :=
  match fuel with
  | O => Ret p
  | S fuel' =>
      match strchr (until_nul p) (chr "\n") with
      | None => Ret p
      | Some q =>
          let n := (length (until_nul p) - length q)%nat in
          let line := take n p in
          (if match_ pattern line then sys (Write 1 (line ++ [chr "\n"])) ;; Ret tt else Ret tt) ;;
          grep_lines fuel' pattern (drop (S n) p)
      end
  end.

(** The state of the loop is buf[0..m); the byte after it is set to 0. *)
Definition grep (pattern : cstr) (fd : Z) : prog unit :=
  while (fun buf : list Z =>
    let* r := sys (Read fd (1024 - Z.of_nat (length buf) - 1)) in
    let '(n, d) := r in
    if n >? 0 then
      let buf := buf ++ take (Z.to_nat n) d in
      let* buf := grep_lines (length buf) pattern buf in
      Ret (inl buf)
    else Ret (inr tt)) [].

Definition grep_main (argv : args) : prog unit :=
  match argv with
  | [] => fprintf 2 "usage: grep pattern [file ...]\n" [] ;; exit 1
  | pattern :: files =>
      if bool_decide (files = []) then grep pattern 0 ;; exit 0 else
      for_each files (fun a =>
        let* fd := sys (Open a 0) in
        if fd <? 0 then printf "grep: cannot open %s\n" [VStr (Some a)] ;; exit 1 else
        grep pattern fd ;;
        sys (Close fd) ;;
        Ret tt) ;;
      exit 0
  end.

(** ** Reference semantics of patterns *)

Inductive item := One (a : Z) | Many (a : Z).

(** The items of a pattern and whether it ends in the anchor $. *)
Fixpoint parse (re : cstr) : list item * bool :=
  match re with
  | [] => ([], false)
  | r :: re1 =>
      match re1 with
      | [] => if r =? chr "$" then ([], true) else ([One r], false)
      | s :: re2 => if s =? chr "*" then let '(l, e) := parse re2 in (Many r :: l, e)
                    else let '(l, e) := parse re1 in (One r :: l, e)
      end
  end.

(** A byte of the pattern stands for itself, and . for any byte. *)
Definition admits (a c : Z) : Prop := a = chr "." \/ a = c.

Inductive denotes : list item -> list Z -> Prop :=
| den_nil : denotes [] []
| den_one a c l s : admits a c -> denotes l s -> denotes (One a :: l) (c :: s)
| den_many a l s1 s2 : Forall (admits a) s1 -> denotes l s2 -> denotes (Many a :: l) (s1 ++ s2).

(** A prefix of the text, all of it with the end anchor, is in the language of [re]. *)
Definition here (re text : cstr) : Prop :=
  exists s post, text = s ++ post /\ denotes (parse re).1 s /\ ((parse re).2 = true -> post = []).

(** Some part of the text, at its start with the anchor ^. *)
Definition found (re text : cstr) : Prop :=
  match re with
  | r :: re1 => if r =? chr "^" then here re1 text else exists pre text', text = pre ++ text' /\ here re text'
  | [] => True
  end.

#[local] Arguments chr : simpl never.

Lemma here_nil text : here [] text.
Proof. exists [], text. split_and!; [done|constructor|done]. Qed.

Lemma admits_star c t : (t =? c) || (c =? chr ".") = true <-> admits c t.
Proof. unfold admits. rewrite orb_true_iff, !Z.eqb_eq. split; intros []; auto. Qed.

Lemma matchstar_spec mh c text :
  matchstar mh c text = true <-> exists s1 rest, text = s1 ++ rest /\ Forall (admits c) s1 /\ mh rest = true.
Proof.
  induction text as [|t text IH]; cbn [matchstar].
  - destruct (mh []) eqn:E.
    + split; [|done]. intros _. by exists [], [].
    + split; [done|]. intros ([|] & rest & Ht & _ & H); [|done]. simpl in Ht. subst. congruence.
  - destruct (mh (t :: text)) eqn:E; [split; [|done]; intros _; by exists [], (t :: text)|].
    destruct ((t =? c) || (c =? chr ".")) eqn:Ea.
    + rewrite IH. apply admits_star in Ea. split.
      * intros (s1 & rest & -> & Hs & Hm). exists (t :: s1), rest. split_and!; [done|by constructor|done].
      * intros ([|x s1] & rest & Ht & Hs & Hm); simplify_eq/=; [congruence|]. apply Forall_cons in Hs as [_ Hs]. by exists s1, rest.
    + split; [done|]. intros ([|x s1] & rest & Ht & Hs & Hm); simplify_eq/=; [congruence|].
      apply Forall_cons in Hs as [Hs _]. apply admits_star in Hs. congruence.
Qed.

Lemma here_many r re2 text :
  here (r :: chr "*" :: re2) text <-> exists s1 rest, text = s1 ++ rest /\ Forall (admits r) s1 /\ here re2 rest.
Proof.
  unfold here. cbn [parse]. rewrite Z.eqb_refl. destruct (parse re2) as [l e]. cbn [fst snd]. split.
  - intros (s & post & -> & Hd & He). inversion Hd as [| |a l' s1 s2 Hs1 Hd2]; subst.
    exists s1, (s2 ++ post). split_and!; [by rewrite app_assoc|done|]. by exists s2, post.
  - intros (s1 & rest & -> & Hs1 & s & post & -> & Hd & He). exists (s1 ++ s), post. split_and!; [by rewrite app_assoc| |done].
    by constructor.
Qed.

(** A byte that is followed by no star and is not the end anchor. *)
Lemma here_one r re1 text :
  hd 0 re1 <> chr "*" -> (r <> chr "$" \/ re1 <> []) ->
  here (r :: re1) text <-> exists t text', text = t :: text' /\ admits r t /\ here re1 text'.
Proof.
  intros Hst Hanch. unfold here.
  assert (parse (r :: re1) = (One r :: (parse re1).1, (parse re1).2)) as ->.
  { destruct re1 as [|s re2].
    - cbn [parse]. rewrite (proj2 (Z.eqb_neq _ _)); [done|]. by destruct Hanch.
    - change (parse (r :: s :: re2)) with (if s =? chr "*" then let '(l, e) := parse re2 in (Many r :: l, e)
                    else let '(l, e) := parse (s :: re2) in (One r :: l, e)).
      rewrite (proj2 (Z.eqb_neq _ _)) by done. by destruct (parse (s :: re2)). }
  cbn [fst snd]. split.
  - intros (s & post & -> & Hd & He). inversion Hd as [|a c l' s' Ha Hd2|]; subst.
    exists c, (s' ++ post). split_and!; [done|done|]. by exists s', post.
  - intros (t & text' & -> & Ha & s & post & -> & Hd & He). exists (t :: s), post. split_and!; [done| |done]. by constructor.
Qed.

Lemma here_end text : here [chr "$"] text <-> text = [].
Proof.
  unfold here. cbn [parse]. rewrite Z.eqb_refl. cbn [fst snd]. split.
  - intros (s & post & -> & Hd & He). inversion Hd. subst. by rewrite He.
  - intros ->. exists [], []. split_and!; [done|constructor|done].
Qed.

Lemma matchhere_spec re text : matchhere re text = true <-> here re text.
Proof.
  remember (length re) as n eqn:Hn. revert re text Hn.
  induction n as [n IH] using (well_founded_induction lt_wf). intros [|r re1] text Hn.
  { split; [intros _; apply here_nil|done]. }
  assert (hd 0 re1 <> chr "*" -> matchhere (r :: re1) text =
    if (r =? chr "$") && bool_decide (re1 = []) then bool_decide (text = [])
    else match text with
         | [] => false
         | t :: text' => if (r =? chr ".") || (r =? t) then matchhere re1 text' else false
         end) as Hrest.
  { intros Hst. destruct re1 as [|s re2]; [done|]. cbn [matchhere hd] in *. by rewrite (proj2 (Z.eqb_neq _ _) Hst). }
  destruct (decide (hd 0 re1 = chr "*")) as [Hst|Hst].
  - destruct re1 as [|s re2]; [by vm_compute in Hst|]. simpl in Hst, Hn. subst s.
    rewrite here_many. cbn [matchhere]. rewrite Z.eqb_refl, matchstar_spec.
    split; intros (s1 & rest & -> & H1 & H2); exists s1, rest; (split_and!; [done|done|]); by apply (IH (length re2)); [lia..|].
  - rewrite Hrest by done. clear Hrest. destruct ((r =? chr "$") && bool_decide (re1 = [])) eqn:E.
    + apply andb_true_iff in E as [E1%Z.eqb_eq E2%bool_decide_eq_true]. subst. by rewrite bool_decide_eq_true, here_end.
    + rewrite here_one; [|done|].
      2: { apply andb_false_iff in E as [E%Z.eqb_neq|E%bool_decide_eq_false]; auto. }
      destruct text as [|t text']; [split; [done|]; by intros (? & ? & ? & _)|].
      destruct ((r =? chr ".") || (r =? t)) eqn:Ea.
      * rewrite (IH (length re1)) by (simpl in Hn; lia || done). split.
        -- intros H. exists t, text'. split_and!; [done| |done].
           apply orb_true_iff in Ea as [E1%Z.eqb_eq|E1%Z.eqb_eq]; unfold admits; auto.
        -- intros (t' & text'' & [= <- <-] & _ & H). done.
      * split; [done|]. intros (t' & text'' & [= <- <-] & Ha & _). apply orb_false_iff in Ea as [E1%Z.eqb_neq E2%Z.eqb_neq].
        by destruct Ha.
Qed.

Lemma match_from_spec re text :
  match_from re text = true <-> exists pre text', text = pre ++ text' /\ here re text'.
Proof.
  induction text as [|t text IH]; cbn [match_from].
  - destruct (matchhere re []) eqn:E.
    + apply matchhere_spec in E. split; [|done]. intros _. by exists [], [].
    + split; [done|]. intros ([|] & text' & Ht & H); [|done]. simpl in Ht. subst. apply matchhere_spec in H. congruence.
  - destruct (matchhere re (t :: text)) eqn:E.
    + apply matchhere_spec in E. split; [|done]. intros _. by exists [], (t :: text).
    + rewrite IH. split.
      * intros (pre & text' & -> & H). by exists (t :: pre), text'.
      * intros ([|x pre] & text' & Ht & H); simplify_eq/=; [|by exists pre, text']. apply matchhere_spec in H. congruence.
Qed.

(** C40: the matcher decides its patterns: match(re, text) returns 1 exactly when a
    part of the text is in the language of the pattern, where a byte stands for
    itself, . for any byte, c* for any number of c, ^ anchors at the start and a
    final $ at the end of the text. *)
Theorem match_correct re text : match_ re text = true <-> found re text.
Proof.
  destruct re as [|r re1]; unfold match_, found.
  - split; [done|]. intros _. by destruct text.
  - destruct (r =? chr "^"); [apply matchhere_spec|apply match_from_spec].
Qed.

(** ** The lines of a text *)

Notation split_lines := (split_at (chr "\n")).

(** What grep prints of a text. *)
Definition selected (pattern : cstr) (l : list Z) : list Z :=
  concat (map (fun x => x ++ [chr "\n"]) (filter (fun x => match_ pattern x = true) (split_lines l).1)).

Notation no_nl := (no_sep (chr "\n")).

Lemma selected_app pattern a b : selected pattern (a ++ b) = selected pattern a ++ selected pattern ((split_lines a).2 ++ b).
Proof.
  unfold selected. rewrite split_at_app. cbn [fst]. by rewrite filter_app, map_app, concat_app.
Qed.

(** grep can hold every line of [l]. *)
Definition short_lines (l : list Z) : Prop :=
  Forall (fun x : cstr => (length x <= 1022)%nat) ((split_lines l).1 ++ [(split_lines l).2]).

Lemma short_rest a b : short_lines (a ++ b) -> (length (split_lines a).2 <= 1022)%nat.
Proof.
  unfold short_lines. rewrite split_at_app. cbn [fst snd]. rewrite <- app_assoc, Forall_app. intros [_ H].
  set (r := (split_lines a).2) in *. pose proof (split_at_rest (chr "\n") a) as Hr. fold r in Hr. clearbody r.
  destruct (sep_cases (chr "\n") b) as [Hb|(s & b' & -> & Hs)].
  - rewrite split_at_nosep in H by (by apply Forall_app). cbn [fst snd app] in H. apply Forall_cons in H as [H _].
    rewrite length_app in H. lia.
  - rewrite app_assoc, split_at_sep in H by (by apply Forall_app). cbn [fst snd app] in H.
    apply Forall_cons in H as [H _]. rewrite length_app in H. lia.
Qed.

(** *** The scan of the buffer *)

Definition no_nul (s : list Z) : Prop := Forall (fun c => c <> 0) s.

Lemma until_nul_id s : no_nul s -> until_nul s = s.
Proof. induction 1 as [|c s Hc Hs IH]; [done|]. cbn [until_nul]. rewrite (proj2 (Z.eqb_neq _ _) Hc). by f_equal. Qed.

Lemma strchr_nonl s : no_nl s -> strchr s (chr "\n") = None.
Proof. induction 1 as [|c s Hc Hs IH]; [done|]. cbn [strchr]. by rewrite (proj2 (Z.eqb_neq _ _) Hc). Qed.

Lemma strchr_line s l : no_nl s -> strchr (s ++ chr "\n" :: l) (chr "\n") = Some (chr "\n" :: l).
Proof. induction 1 as [|c s Hc Hs IH]; cbn [app strchr]; [by rewrite Z.eqb_refl|]. by rewrite (proj2 (Z.eqb_neq _ _) Hc). Qed.

Lemma runs_grep_lines fuel pattern p (Q : list Z + stop -> world -> Prop) w :
  (length p <= fuel)%nat -> no_nul p ->
  Q (inl (split_lines p).2) (put 1 (selected pattern p) w) -> runs Q (grep_lines fuel pattern p) w.
Proof.
  revert fuel w. induction p as [s Hs|s p Hs IH] using (split_ind (chr "\n")); intros fuel w Hf Hz HQ.
  - unfold selected in HQ. rewrite split_at_nosep in HQ by done. cbn in HQ. rewrite put_nil in HQ.
    destruct fuel as [|fuel]; cbn [grep_lines]; [by apply uwp_Ret|]. rewrite until_nul_id, strchr_nonl by done. by apply uwp_Ret.
  - rewrite length_app in Hf. cbn [length] in Hf. destruct fuel as [|fuel]; [lia|]. cbn [grep_lines].
    rewrite until_nul_id, strchr_line, length_app by done. cbn [length].
    replace (length s + S (length p) - S (length p))%nat with (length s) by lia. rewrite take_app_length.
    replace (drop (S (length s)) (s ++ chr "\n" :: p)) with p
      by (rewrite drop_app, drop_ge by lia; replace (S (length s) - length s)%nat with 1%nat by lia; done).
    apply Forall_app in Hz as [Hz1 Hz2]. apply Forall_cons in Hz2 as [_ Hz2].
    unfold selected in HQ. rewrite split_at_sep in HQ by done. cbn [fst snd] in HQ. apply uwp_bind.
    destruct (match_ pattern s) eqn:Em.
    + rewrite filter_cons_True in HQ by done. cbn [map concat] in HQ. apply uwp_bind, runs_write, uwp_Ret.
      apply IH; [lia|done|]. by rewrite put_put.
    + rewrite filter_cons_False in HQ by (rewrite Em; done). apply uwp_Ret. by apply IH; [lia| |].
Qed.

Lemma split_lines_nul a : no_nul a -> no_nul (split_lines a).2.
Proof.
  induction a as [s Hs|s a Hs IH] using (split_ind (chr "\n")); intros Hz; [by rewrite split_at_nosep|].
  rewrite split_at_sep by done. apply Forall_app in Hz as [_ Hz]. apply Forall_cons in Hz as [_ Hz]. by apply IH.
Qed.

Lemma runs_grep (Q : unit + stop -> world -> Prop) pattern fd l w :
  w_in w fd = Some l -> no_nul l -> short_lines l ->
  Q (inl tt) (put 1 (selected pattern l) (set_w_in (w_in w).[fd := Some []] w)) -> runs Q (grep pattern fd) w.
Proof.
  intros Hl Hz Hsh HQ.
  apply (uwp_while _ _ (fun buf w' => exists a b, l = a ++ b /\ buf = (split_lines a).2 /\
      w' = put 1 (selected pattern a) (set_w_in (w_in w).[fd := Some b] w))
    (fun _ w' => match w_in w' fd with Some b => length b | None => O end)).
  { exists [], l. split_and!; [done|done|]. unfold selected. cbn. by rewrite put_nil, set_w_in_id. }
  intros buf w' (a & b & -> & -> & ->). pose proof (short_rest a b Hsh) as Hlen. apply uwp_bind.
  apply (runs_read _ fd _ b); [simpl; by rewrite fupd_eq|lia| |].
  - intros ->. rewrite app_nil_r in HQ. apply uwp_Ret. exact HQ.
  - intros a' b' -> Ha' Hn. assert (0 < Z.of_nat (length a')) as Hlt by (destruct a'; [done|simpl; lia]).
    rewrite Z.gtb_ltb, (proj2 (Z.ltb_lt _ _) Hlt), Nat2Z.id, take_ge by done.
    apply uwp_bind, runs_grep_lines; [done| |].
    { apply Forall_app in Hz as [Hza Hz]. apply Forall_app in Hz as [Hza' _]. apply Forall_app; split; [|done].
      pose proof (split_lines_nul a Hza). done. }
    apply uwp_Ret. split.
    + exists (a ++ a'), b'. split_and!; [by rewrite <- app_assoc|by rewrite (split_at_app _ a a')|].
      rewrite (selected_app pattern a a'). unfold put. cbn [w_in w_out set_w_in set_w_out w_file w_prog w_try].
      rewrite !fupd_fupd, !fupd_eq, <- app_assoc. done.
    + simpl. rewrite !fupd_eq, length_app. lia.
Qed.

(** Grep prints exactly the matching lines: for files without NUL bytes whose
    lines, the last one included, fit the 1024-byte buffer, and whatever pieces
    read() delivers, the output is the lines that end in a newline and match, in
    order, and the program exits with 0.  A last line without a newline is not
    printed. *)
Theorem grep_prints pattern argv contents w :
  argv <> [] -> Forall2 (fun a l => w_file w a = Some l) argv contents ->
  Forall (fun l => no_nul l /\ short_lines l) contents ->
  (exists fd, 0 <= fd /\ w_in w fd = None) ->
  runs (fun o w' => o = inr (Exited 0) /\ w' = put 1 (concat (map (selected pattern) contents)) w)
    (grep_main (pattern :: argv)) w.
Proof.
  intros Hne Hf HP Hfd. unfold grep_main. rewrite bool_decide_false by done. apply uwp_bind.
  apply (runs_files (fun _ => grep pattern) _ (fun _ => selected pattern) (fun l => no_nul l /\ short_lines l) argv contents);
    [|done|done|done|].
  - intros Q fd a l w' Hl [HP1 HP2] HQ. by apply (runs_grep _ pattern fd l).
  - apply runs_exit. split; [done|]. f_equal. f_equal.
    clear -Hf. induction Hf as [|a l argv contents _ _ IH]; simpl; by f_equal.
Qed.

Lemma grep_prints_witness :
  runs (fun o w' => o = inr (Exited 0) /\ w_out w' 1 = lit "x y\n") (grep_main [lit "^x.*y$"; lit "a"; lit "b"]) world_w.
Proof.
  eapply uwp_mono; [apply (grep_prints (lit "^x.*y$") [lit "a"; lit "b"] [lit "x y\n"; lit "z"] world_w)|].
  - discriminate.
  - by repeat constructor.
  - repeat constructor; vm_compute; (discriminate || lia).
  - by exists 3.
  - intros o w' [-> ->]. done.
Defined.
