(* ===== verification/Grind.v ===== *)
(** * Random system calls (user/grind.c)

    The generator of random numbers and the program that runs random system calls
    for ever.  The generator is the minimal standard one of Park and Miller, computed
    in 31 bits by Schrage's decomposition. *)

From S2P Require Import Prelude CString User ULib Utils.
Open Scope Z_scope.

(** ** The generator *)

Definition i64 (z : Z) : Z := let u := u64 z in if u <? 2 ^ 63 then u else u - 2 ^ 64.

(** The new *ctx and the return value. *)
Definition do_rand (ctx : Z) : Z * Z :=
  (* Transform to [1, 0x7ffffffe] range. *)
  let x := i64 (ctx mod 0x7ffffffe + 1) in
  let hi := Z.quot x 127773 in
  let lo := Z.rem x 127773 in
  let x := i64 (i64 (16807 * lo) - i64 (2836 * hi)) in
  let x := if x <? 0 then i64 (x + 0x7fffffff) else x in
  (* Transform to [0, 0x7ffffffd] range. *)
  let x := i64 (x - 1) in
  (u64 x, i32 x).

(** ** go() *)

(** The variables of go(), with rand_next. *)
Record gstate := mkG { g_fd : Z; g_iters : Z; g_rand : Z; g_buf : list Z }.

Definition set_g_fd (v : Z) (g : gstate) : gstate := mkG v (g_iters g) (g_rand g) (g_buf g).
Definition set_g_buf (v : list Z) (g : gstate) : gstate := mkG (g_fd g) (g_iters g) (g_rand g) v.

Definition RWC : Z := Z.lor O_CREATE O_RDWR.

Definition close_open (path : string) : prog unit := let* fd := sys (Open (lit path) RWC) in sys (Close fd) ;; Ret tt.
Definition grind_die {R} (msg : string) : prog R := printf msg [] ;; exit 1.

(** fork(), with what the child runs; the pid of the child. *)
Definition fork_child (child : prog unit) : prog Z :=
  let* pid := sys Fork in
  if pid =? 0 then child ;; exit 0
  else if pid <? 0 then grind_die "grind: fork failed\n"
  else Ret pid.

(** The child that talks to its own children through a pipe. *)
Definition pipe_child (fds : Z * Z) : prog unit :=
  sys Fork ;; sys Fork ;;
  let* n := sys (Write (snd fds) (lit "x")) in
  (if negb (n =? 1) then printf "grind: pipe write failed\n" [] else Ret tt) ;;
  let* r := sys (Read (fst fds) 1) in
  (if negb (fst r =? 1) then printf "grind: pipe read failed\n" [] else Ret tt).

(** what == 21: a file can be made, written and looked at. *)
Definition check_create : prog unit :=
  sys (Unlink (lit "c")) ;;
  let* fd1 := sys (Open (lit "c") RWC) in
  if fd1 <? 0 then grind_die "grind: create c failed\n" else
  let* n := sys (Write fd1 (lit "x")) in
  if negb (n =? 1) then grind_die "grind: write c failed\n" else
  let* r := sys (Fstat fd1) in
  if negb (fst r =? 0) then grind_die "grind: fstat failed\n" else
  let st := snd r in
  if negb (ust_size st =? 1) then printf "grind: fstat reports wrong size %d\n" [VNum (i32 (ust_size st))] ;; exit 1 else
  if ust_ino st >? 200 then printf "grind: fstat reports crazy i-number %d\n" [VNum (ust_ino st)] ;; exit 1 else
  sys (Close fd1) ;;
  sys (Unlink (lit "c")) ;;
  Ret tt.

(** The byte a read() of one byte leaves in a variable that was 0. *)
Definition byte_of (r : Z * list Z) : Z := if fst r >? 0 then nth 0 (snd r) 0 else 0.

(** what == 22: echo hi | cat *)
Definition check_pipeline : prog unit :=
  let* r := sys Pipe in
  let '(aa, (aa0, aa1)) := r in
  if aa <? 0 then fprintf 2 "grind: pipe failed\n" [] ;; exit 1 else
  let* r := sys Pipe in
  let '(bb, (bb0, bb1)) := r in
  if bb <? 0 then fprintf 2 "grind: pipe failed\n" [] ;; exit 1 else
  let* pid1 := sys Fork in
  if pid1 =? 0 then
    sys (Close bb0) ;; sys (Close bb1) ;; sys (Close aa0) ;; sys (Close 1) ;;
    let* d := sys (Dup aa1) in
    if negb (d =? 1) then fprintf 2 "grind: dup failed\n" [] ;; exit 1 else
    sys (Close aa1) ;;
    sys (Exec (lit "grindir/../echo") [lit "echo"; lit "hi"]) ;;
    fprintf 2 "grind: echo: not found\n" [] ;; exit 2
  else if pid1 <? 0 then fprintf 2 "grind: fork failed\n" [] ;; exit 3 else
  let* pid2 := sys Fork in
  if pid2 =? 0 then
    sys (Close aa1) ;; sys (Close bb0) ;; sys (Close 0) ;;
    let* d := sys (Dup aa0) in
    if negb (d =? 0) then fprintf 2 "grind: dup failed\n" [] ;; exit 4 else
    sys (Close aa0) ;; sys (Close 1) ;;
    let* d := sys (Dup bb1) in
    if negb (d =? 1) then fprintf 2 "grind: dup failed\n" [] ;; exit 5 else
    sys (Close bb1) ;;
    sys (Exec (lit "/cat") [lit "cat"]) ;;
    fprintf 2 "grind: cat: not found\n" [] ;; exit 6
  else if pid2 <? 0 then fprintf 2 "grind: fork failed\n" [] ;; exit 7 else
  sys (Close aa0) ;; sys (Close aa1) ;; sys (Close bb1) ;;
  let* r0 := sys (Read bb0 1) in
  let* r1 := sys (Read bb0 1) in
  let* r2 := sys (Read bb0 1) in
  let buf := until_nul [byte_of r0; byte_of r1; byte_of r2; 0] in
  sys (Close bb0) ;;
  let* w1 := sys Wait in
  let* w2 := sys Wait in
  let st1 := snd w1 in
  let st2 := snd w2 in
  if negb (st1 =? 0) || negb (st2 =? 0) || negb (ULib.strcmp buf (lit "hi\n") =? 0) then
    vprintf 1 (lit "grind: exec pipeline failed %d %d " ++ [34] ++ lit "%s" ++ [34] ++ lit "\n") [VNum st1; VNum st2; VStr (Some buf)] ;;
    exit 1
  else Ret tt.

(** One round of the loop, for the number [what]. *)
Definition go_round (break0 what : Z) (g : gstate) : prog gstate :=
  let ok (t : prog unit) : prog gstate := t ;; Ret g in
  if what =? 1 then ok (close_open "grindir/../a")
  else if what =? 2 then ok (close_open "grindir/../grindir/../b")
  else if what =? 3 then ok (sys (Unlink (lit "grindir/../a")) ;; Ret tt)
  else if what =? 4 then ok (
    let* r := sys (Chdir (lit "grindir")) in
    if negb (r =? 0) then grind_die "grind: chdir grindir failed\n" else
    sys (Unlink (lit "../b")) ;; sys (Chdir (lit "/")) ;; Ret tt)
  else if what =? 5 then
    sys (Close (g_fd g)) ;;
    let* fd := sys (Open (lit "/grindir/../a") RWC) in Ret (set_g_fd fd g)
  else if what =? 6 then
    sys (Close (g_fd g)) ;;
    let* fd := sys (Open (lit "/./grindir/./../b") RWC) in Ret (set_g_fd fd g)
  else if what =? 7 then ok (sys (Write (g_fd g) (g_buf g)) ;; Ret tt)
  else if what =? 8 then
    let* r := sys (Read (g_fd g) 999) in
    let n := Z.to_nat (fst r) in
    Ret (set_g_buf (take n (snd r) ++ drop n (g_buf g)) g)
  else if what =? 9 then ok (
    sys (Mkdir (lit "grindir/../a")) ;; close_open "a/../a/./a" ;; sys (Unlink (lit "a/a")) ;; Ret tt)
  else if what =? 10 then ok (
    sys (Mkdir (lit "/../b")) ;; close_open "grindir/../b/b" ;; sys (Unlink (lit "b/b")) ;; Ret tt)
  else if what =? 11 then ok (
    sys (Unlink (lit "b")) ;; sys (Link (lit "../grindir/./../a") (lit "../b")) ;; Ret tt)
  else if what =? 12 then ok (
    sys (Unlink (lit "../grindir/../a")) ;; sys (Link (lit ".././b") (lit "/grindir/../a")) ;; Ret tt)
  else if what =? 13 then ok (fork_child (Ret tt) ;; sys Wait ;; Ret tt)
  else if what =? 14 then ok (fork_child (sys Fork ;; sys Fork ;; Ret tt) ;; sys Wait ;; Ret tt)
  else if what =? 15 then ok (sys (Sbrk 6011) ;; Ret tt)
  else if what =? 16 then ok (
    let* s := sys (Sbrk 0) in
    if u64 s >? u64 break0 then
      let* s' := sys (Sbrk 0) in sys (Sbrk (i32 (- (s' - break0)))) ;; Ret tt
    else Ret tt)
  else if what =? 17 then ok (
    let* pid := fork_child (close_open "a") in
    let* r := sys (Chdir (lit "../grindir/..")) in
    if negb (r =? 0) then grind_die "grind: chdir failed\n" else
    sys (Kill pid) ;; sys Wait ;; Ret tt)
  else if what =? 18 then ok (
    fork_child (let* pid := sys Getpid in sys (Kill pid) ;; Ret tt) ;; sys Wait ;; Ret tt)
  else if what =? 19 then ok (
    let* r := sys Pipe in
    let '(p, fds) := r in
    if p <? 0 then grind_die "grind: pipe failed\n" else
    fork_child (pipe_child fds) ;;
    sys (Close (fst fds)) ;; sys (Close (snd fds)) ;; sys Wait ;; Ret tt)
  else if what =? 20 then ok (
    fork_child (
      sys (Unlink (lit "a")) ;; sys (Mkdir (lit "a")) ;; sys (Chdir (lit "a")) ;; sys (Unlink (lit "../a")) ;;
      sys (Open (lit "x") RWC) ;; sys (Unlink (lit "x")) ;; Ret tt) ;;
    sys Wait ;; Ret tt)
  else if what =? 21 then ok check_create
  else if what =? 22 then ok check_pipeline
  else Ret g.

(** go(which_child) from rand_next = [seed]; it never returns. *)
Definition go (which_child seed : Z) : prog Empty_set :=
  let* break0 := sys (Sbrk 0) in
  sys (Mkdir (lit "grindir")) ;;
  let* r := sys (Chdir (lit "grindir")) in
  (if negb (r =? 0) then grind_die "grind: chdir grindir failed\n" else Ret tt) ;;
  sys (Chdir (lit "/")) ;;
  while (fun g =>
    let iters := u64 (g_iters g + 1) in
    (if iters mod 500 =? 0 then sys (Write 1 (if negb (which_child =? 0) then lit "B" else lit "A")) ;; Ret tt else Ret tt) ;;
    let '(rand_next, r) := do_rand (g_rand g) in
    let* g' := go_round break0 (Z.rem r 23) (mkG (g_fd g) iters rand_next (g_buf g)) in
    Ret (inl g')) (mkG (-1) 0 seed (repeat 0 999)).

(** ** iter() and main() *)

Definition grind_iter : prog unit :=
  sys (Unlink (lit "a")) ;;
  sys (Unlink (lit "b")) ;;
  let* pid1 := sys Fork in
  if pid1 <? 0 then grind_die "grind: fork failed\n" else
  if pid1 =? 0 then go 0 31 ;; exit 0 else
  let* pid2 := sys Fork in
  if pid2 <? 0 then grind_die "grind: fork failed\n" else
  if pid2 =? 0 then go 1 7177 ;; exit 0 else
  let* w := sys Wait in
  let st1 := if fst w <? 0 then -1 else snd w in
  (if negb (st1 =? 0) then sys (Kill pid1) ;; sys (Kill pid2) ;; Ret tt else Ret tt) ;;
  sys Wait ;;
  exit 0.

Definition grind_main : prog Empty_set :=
  while (fun _ : unit =>
    let* pid := sys Fork in
    if pid =? 0 then grind_iter ;; exit 0 else
    (if pid >? 0 then sys Wait ;; Ret tt else Ret tt) ;;
    sys (Sleep 20) ;;
    Ret (inl tt)) tt.

(** ** The generator is Park and Miller's *)

(** [x] stays within 31 bits: Schrage's decomposition of a product by 16807. *)
Lemma schrage x : 0 < x < 0x7fffffff -> let y := 16807 * (x mod 127773) - 2836 * (x / 127773) in
  - 0x7fffffff < y < 0x7fffffff /\ (16807 * x) mod 0x7fffffff = (if y <? 0 then y + 0x7fffffff else y) /\ y <> 0.
Proof.
  intros Hx y. pose proof (Z.div_mod x 127773 ltac:(lia)) as E. pose proof (Z.mod_pos_bound x 127773 ltac:(lia)) as Hlo. assert (0 <= x / 127773 <= 16807) as Hhi by (Z.to_euclidean_division_equations; lia).
  assert (16807 * x = 0x7fffffff * (x / 127773) + y) as Ey by (unfold y; lia). assert (- 0x7fffffff < y < 0x7fffffff) as Hy by (unfold y; lia).
  assert (y <> 0) as Hn.
  { intros Hy0. rewrite Hy0, Z.add_0_r in Ey. assert (16807 | x / 127773) as [k Hk] by (apply (Z.gauss 16807 0x7fffffff); [exists x; lia|done]). assert (k = 0 \/ k = 1) as [-> | ->] by lia; lia. }
  split; [done|]. split; [|done]. destruct (Z.ltb_spec y 0); symmetry; [apply (Z.mod_unique _ _ (x / 127773 - 1)); lia|apply (Z.mod_unique _ _ (x / 127773)); lia].
Qed.

(** do_rand() draws the next number of Park and Miller's generator, 16807 x modulo
    2^31 - 1: with the state moved by one, to 0 ... 2^31 - 3, the result is the new
    state, and no step leaves 32 bits. *)
Theorem do_rand_park_miller ctx (H : 0 <= ctx < 2 ^ 64) :
  let x := ctx mod 0x7ffffffe + 1 in
  let r := (16807 * x) mod 0x7fffffff - 1 in
  do_rand ctx = (r, r) /\ 0 <= r < 0x7ffffffe.
Proof.
  intros x r. pose proof (Z.mod_pos_bound ctx 0x7ffffffe ltac:(lia)) as Hm. assert (0 < x < 0x7fffffff) as Hx by (unfold x; lia).
  destruct (schrage x Hx) as (Hy & Em & Hn). set (y := 16807 * (x mod 127773) - 2836 * (x / 127773)) in *. pose proof (Z.mod_pos_bound x 127773 ltac:(lia)) as Hlo. assert (0 <= x / 127773 <= 16807) as Hhi by (Z.to_euclidean_division_equations; lia).
  assert (forall z, - 2 ^ 63 <= z < 2 ^ 63 -> i64 z = z) as Hi.
  { intros z Hz. unfold i64, u64. destruct (Z.ltb_spec (z mod 2 ^ 64) (2 ^ 63)); Z.to_euclidean_division_equations; lia. }
  assert (0 <= r < 0x7ffffffe) as Hr by (unfold r; rewrite Em; destruct (Z.ltb_spec y 0); lia). split; [|done].
  unfold do_rand. fold x. rewrite (Hi x) by lia. rewrite Z.quot_div_nonneg, Z.rem_mod_nonneg by lia. rewrite (Hi (16807 * _)), (Hi (2836 * _)) by lia. fold y. rewrite (Hi y) by lia.
  assert ((if y <? 0 then i64 (y + 0x7fffffff) else y) = r + 1) as -> by (unfold r; rewrite Em; destruct (Z.ltb_spec y 0); [rewrite Hi by lia|]; lia).
  replace (r + 1 - 1) with r by lia. rewrite Hi by lia. rewrite u64_small by lia. by rewrite i32_small by (unfold int_range; lia).
Qed.
