(* ===== verification/Sh.v ===== *)
(** * The shell (user/sh.c)

    The parser works on the line buffer by positions and builds a tree whose
    strings are pairs of positions; nulterminate() then cuts them in place, and
    runcmd() runs the tree through system calls.  The recursion of the parser is
    bounded by fuel, which Sh's theorems show to be enough for every line. *)

From S2P Require Import Prelude CString User ULib Utils.
Open Scope Z_scope.

Definition MAXARGS : nat := 10.

(** The nodes are tagged by [type] in the source; argv and eargv are the list of
    pairs of pointers before the null one. *)
Inductive cmd :=
| EXEC (argv : list (nat * nat))
| REDIR (c : cmd) (file efile : nat) (mode fd : Z)
| PIPE (left right : cmd)
| LIST (left right : cmd)
| BACK (c : cmd).

(** ** Constructors

    Each allocates its node, clears it and fills it in.  The nodes are fresh, so
    the tree is a value; an allocation that fails, which the source does not
    check, is not modelled. *)

Definition execcmd : cmd := EXEC [].
Definition redircmd (subcmd : cmd) (file efile : nat) (mode fd : Z) : cmd := REDIR subcmd file efile mode fd.
Definition pipecmd (left right : cmd) : cmd := PIPE left right.
Definition listcmd (left right : cmd) : cmd := LIST left right.
Definition backcmd (subcmd : cmd) : cmd := BACK subcmd.

(** ** Tokens *)

Definition whitespace : cstr := lit " \t\r\n\v".
Definition symbols : cstr := lit "<|>&;()".

(** strchr(s, c) as a condition *)
Definition has (s : cstr) (c : Z) : bool := match strchr s c with Some _ => true | None => false end.

(** The length of the longest prefix of bytes that satisfy [f]. *)
Fixpoint span (f : Z -> bool) (l : list Z) : nat :=
  match l with
  | c :: l' => if f c then S (span f l') else O
  | [] => O
  end.

Inductive pres (A : Type) :=
| POk (a : A) (ps : nat)
| PPanic (msg : string) (leftovers : option nat)
| PFuel.
Arguments POk {A}. Arguments PPanic {A}. Arguments PFuel {A}.

Definition pbind {A B} (r : pres A) (k : A -> nat -> pres B) : pres B :=
  match r with
  | POk a ps => k a ps
  | PPanic msg l => PPanic msg l
  | PFuel => PFuel
  end.

Definition is_word (c : Z) : bool := negb (has whitespace c) && negb (has symbols c).

(** argv and eargv of the execcmd that the redirections of [ret] are around: the
    source keeps a pointer to that node and stores into it. *)
Fixpoint fill (argv : list (nat * nat)) (ret : cmd) : cmd :=
  match ret with
  | EXEC _ => EXEC argv
  | REDIR c file efile mode fd => REDIR (fill argv c) file efile mode fd
  | c => c
  end.

Section Parser.
(** The line, up to its NUL; [es] is its length. *)
Context (buf : list Z).

Definition at_ (s : nat) : Z := nth s buf 0.

(** while(s < es && strchr(whitespace, *s)) s++; *)
Definition skip (s : nat) : nat := s + span (has whitespace) (drop s buf).

Record token := mkToken { t_ret : Z; t_q : nat; t_eq : nat; t_ps : nat }.

Definition gettoken (ps : nat) : token :=
  let s := skip ps in
  let q := s in
  let c := at_ s in
  let '(ret, s) :=
    if c =? 0 then (c, s)
    else if has (lit "|();&<") c then (c, S s)
    else if c =? chr ">" then (if at_ (S s) =? chr ">" then (chr "+", S (S s)) else (c, S s))
    else (chr "a", (s + span is_word (drop s buf))%nat) in
  mkToken ret q s (skip s).

(** The new *ps and the result *)
Definition peek (ps : nat) (toks : string) : nat * bool :=
  let s := skip ps in
  (s, negb (at_ s =? 0) && has (lit toks) (at_ s)).

(** ** The grammar *)

Fixpoint parseredirs (fuel : nat) (c : cmd) (ps : nat) : pres cmd :=
  match fuel with
  | O => PFuel
  | S fuel' =>
      let '(ps, b) := peek ps "<>" in
      if b then
        let t := gettoken ps in
        let t2 := gettoken (t_ps t) in
        if negb (t_ret t2 =? chr "a") then PPanic "missing file for redirection" None else
        let c :=
          if t_ret t =? chr "<" then redircmd c (t_q t2) (t_eq t2) O_RDONLY 0
          else if t_ret t =? chr ">" then redircmd c (t_q t2) (t_eq t2) (Z.lor (Z.lor O_WRONLY O_CREATE) O_TRUNC) 1
          else if t_ret t =? chr "+" then redircmd c (t_q t2) (t_eq t2) (Z.lor O_WRONLY O_CREATE) 1
          else c in
        parseredirs fuel' c (t_ps t2)
      else POk c ps
  end.

(** The loop of parseexec() over the arguments. *)
Fixpoint parseargs (fuel : nat) (ret : cmd) (argv : list (nat * nat)) (ps : nat) : pres cmd :=
  match fuel with
  | O => PFuel
  | S fuel' =>
      let '(ps, b) := peek ps "|)&;" in
      if b then POk (fill argv ret) ps else
      let t := gettoken ps in
      if t_ret t =? 0 then POk (fill argv ret) (t_ps t) else
      if negb (t_ret t =? chr "a") then PPanic "syntax" None else
      let argv := argv ++ [(t_q t, t_eq t)] in
      if (MAXARGS <=? length argv)%nat then PPanic "too many args" None else
      pbind (parseredirs (S (length buf)) ret (t_ps t)) (fun ret ps => parseargs fuel' ret argv ps)
  end.

(** The loop of parseline() over the ampersands. *)
Fixpoint parseamps (fuel : nat) (c : cmd) (ps : nat) : pres cmd :=
  match fuel with
  | O => PFuel
  | S fuel' =>
      let '(ps, b) := peek ps "&" in
      if b then parseamps fuel' (backcmd c) (t_ps (gettoken ps)) else POk c ps
  end.

Fixpoint parseline (fuel : nat) (ps : nat) : pres cmd :=
  match fuel with
  | O => PFuel
  | S fuel' =>
      pbind (parsepipe fuel' ps) (fun c ps =>
      pbind (parseamps (S (length buf)) c ps) (fun c ps =>
      let '(ps, b) := peek ps ";" in
      if b then pbind (parseline fuel' (t_ps (gettoken ps))) (fun r ps => POk (listcmd c r) ps)
      else POk c ps))
  end
with parsepipe (fuel : nat) (ps : nat) : pres cmd :=
  match fuel with
  | O => PFuel
  | S fuel' =>
      pbind (parseexec fuel' ps) (fun c ps =>
      let '(ps, b) := peek ps "|" in
      if b then pbind (parsepipe fuel' (t_ps (gettoken ps))) (fun r ps => POk (pipecmd c r) ps)
      else POk c ps)
  end
with parseblock (fuel : nat) (ps : nat) : pres cmd :=
  match fuel with
  | O => PFuel
  | S fuel' =>
      let '(ps, b) := peek ps "(" in
      if negb b then PPanic "parseblock" None else
      pbind (parseline fuel' (t_ps (gettoken ps))) (fun c ps =>
      let '(ps, b) := peek ps ")" in
      if negb b then PPanic "syntax - missing )" None else
      parseredirs (S (length buf)) c (t_ps (gettoken ps)))
  end
with parseexec (fuel : nat) (ps : nat) : pres cmd :=
  match fuel with
  | O => PFuel
  | S fuel' =>
      let '(ps, b) := peek ps "(" in
      if b then parseblock fuel' ps else
      pbind (parseredirs (S (length buf)) execcmd ps) (fun ret ps =>
      parseargs (S (length buf)) ret [] ps)
  end.

(** parsecmd() before nulterminate(); 4 levels of recursion for each byte. *)
Definition parsecmd : pres cmd :=
  pbind (parseline (4 * length buf + 4) 0) (fun c ps =>
  let '(ps, _) := peek ps "" in
  if (ps =? length buf)%nat then POk c ps else PPanic "syntax" (Some ps)).
End Parser.

(** ** NUL-terminate all the counted strings. *)

Fixpoint nulterminate (c : cmd) (m : nat -> Z) : nat -> Z :=
  match c with
  | EXEC argv => fold_left (fun m a => m.[snd a := 0]) argv m
  | REDIR c _ efile _ _ => (nulterminate c m).[efile := 0]
  | PIPE l r | LIST l r => nulterminate r (nulterminate l m)
  | BACK c => nulterminate c m
  end.

(** The string at a position of a buffer of [n] bytes followed by a NUL *)
Definition str_at (m : nat -> Z) (n q : nat) : cstr := until_nul (map m (seq q (n - q))).

(** ** Running commands *)

Definition sh_panic {R} (s : cstr) : prog R := fprintf 2 "%s\n" [VStr (Some s)] ;; exit 1.

Definition fork1 : prog Z :=
  let* pid := sys Fork in
  if pid =? -1 then sh_panic (lit "fork") else Ret pid.

(** A store outside an array: nothing is promised about the rest. *)
Definition undefined {R} : prog R := ITree.spin.

Definition PATHMAX : nat := 100.

(** newPath[i] = *tmpexec; ...; newPath[i] = 0: the entry, the name and the NUL *)
Definition append_name (newPath name : cstr) : option cstr :=
  if (length newPath + length name <? PATHMAX)%nat then Some (newPath ++ name) else None.

(** The search of the folders in /path.  [newPath] is the first [i] bytes of the
    array, [reader] the byte read last. *)
Definition search_path (fd : Z) (name : cstr) (argv : list cstr) : prog unit :=
  while (fun '(newPath, reader) =>
    let* r := sys (Read fd 1) in
    let '(n, d) := r in
    if n =? 0 then Ret (inr tt) else
    let reader := match d with c :: _ => c | [] => reader end in
    if negb (reader =? chr ":") then
      if (length newPath <? PATHMAX)%nat then Ret (inl (newPath ++ [reader], reader)) else undefined
    else
      match append_name newPath name with
      | Some path => sys (Exec (until_nul path) argv) ;; Ret (inl ([], reader))
      | None => undefined
      end) ([], 0).

Section Run.
(** The buffer after nulterminate(), of [n] bytes. *)
Context (m : nat -> Z) (n : nat).

Fixpoint runcmd (c : cmd) : prog Empty_set :=
  match c with
  | EXEC argv =>
      let argv := map (fun a => str_at m n (fst a)) argv in
      match argv with
      | [] => exit 1
      | name :: _ =>
          sys (Exec name argv) ;;
          let* fd := sys (Open (lit "/path") (Z.lor O_CREATE O_RDONLY)) in
          search_path fd name argv ;;
          fprintf 2 "exec %s failed\n" [VStr (Some name)] ;;
          sys (Close fd) ;;
          exit 0
      end
  | REDIR c file _ mode fd =>
      sys (Close fd) ;;
      let* r := sys (Open (str_at m n file) mode) in
      if r <? 0 then fprintf 2 "open %s failed\n" [VStr (Some (str_at m n file))] ;; exit 1 else
      runcmd c
  | LIST l r =>
      let* pid := fork1 in
      if pid =? 0 then runcmd l else
      sys Wait ;;
      runcmd r
  | PIPE l r =>
      let* p := sys Pipe in
      let '(rc, (p0, p1)) := p in
      if rc <? 0 then sh_panic (lit "pipe") else
      let* pid := fork1 in
      if pid =? 0 then
        sys (Close 1) ;; sys (Dup p1) ;; sys (Close p0) ;; sys (Close p1) ;;
        runcmd l
      else
      let* pid := fork1 in
      if pid =? 0 then
        sys (Close 0) ;; sys (Dup p0) ;; sys (Close p0) ;; sys (Close p1) ;;
        runcmd r
      else
      sys (Close p0) ;; sys (Close p1) ;;
      sys Wait ;; sys Wait ;;
      exit 0
  | BACK c =>
      let* pid := fork1 in
      if pid =? 0 then runcmd c else exit 0
  end.
End Run.

(** runcmd(parsecmd(buf)) *)
Definition runline (buf : cstr) : prog Empty_set :=
  match parsecmd buf with
  | POk c _ => runcmd (nulterminate c (at_ buf)) (length buf) c
  | PPanic msg rest =>
      match rest with
      | Some s => fprintf 2 "leftovers: %s\n" [VStr (Some (drop s buf))]
      | None => Ret tt
      end ;;
      sh_panic (lit msg)
  | PFuel => undefined
  end.

(** ** The command loop *)

(** The C string in the 100-byte array [buf] *)
Definition cstr_of (buf : bytes) : cstr := until_nul (map (fun i => buf (Z.of_nat i)) (seq 0 100)).

Definition getcmd (buf : bytes) (nbuf : Z) : prog (Z * bytes) :=
  fprintf 2 "$ " [] ;;
  let buf := umemset buf 0 0 nbuf in
  let* buf := gets buf nbuf in
  if buf 0 =? 0 then Ret (-1, buf) else Ret (0, buf).

(** The scheduling policy the shell was built for *)
Inductive policy := P_DEFAULT | P_CFSD | P_SRT | P_FCFS.

Definition policy_name (p : policy) : string :=
  match p with P_DEFAULT => "default\n" | P_CFSD => "CFSD\n" | P_SRT => "SRT\n" | P_FCFS => "FCFS\n" end.

Definition sh_main (p : policy) : prog Empty_set :=
  printf "Selected scheduling policy: " [] ;;
  printf (policy_name p) [] ;;
  (* Ensure that three file descriptors are open. *)
  while (fun _ : unit =>
    let* fd := sys (Open (lit "console") O_RDWR) in
    if fd >=? 0 then (if fd >=? 3 then sys (Close fd) ;; Ret (inr tt) else Ret (inl tt)) else Ret (inr tt)) tt ;;
  (* Read and run input commands. *)
  while (fun buf : bytes =>
    let* r := getcmd buf 100 in
    let '(r, buf) := r in
    if r >=? 0 then
      if (buf 0 =? chr "c") && (buf 1 =? chr "d") && (buf 2 =? chr " ") then
        let buf := buf.[strlen (cstr_of buf) - 1 := 0] in  (* chop \n *)
        let dir := drop 3 (cstr_of buf) in
        let* r := sys (Chdir dir) in
        (if r <? 0 then fprintf 2 "cannot cd %s\n" [VStr (Some dir)] else Ret tt) ;;
        Ret (inl buf)
      else
        let* pid := fork1 in
        if pid =? 0 then let* v := runline (cstr_of buf) in match v : Empty_set with end else
        sys Wait ;;
        Ret (inl buf)
    else Ret (inr tt)) (fun _ => 0) ;;
  exit 0.
