(* ===== verification/ShSpec.v ===== *)
(** * Properties of the shell

    The parser ends on every line, and cuts its strings correctly: after
    nulterminate() each argument and file name of the tree is the word of the
    line it was parsed from.  Printing a command and parsing the text gives the
    command back.  The search of /path runs the first program that exists. *)

From S2P Require Import Prelude CString User ULib Utils Grep Sh.
Open Scope Z_scope.

#[local] Arguments chr : simpl never.
#[local] Arguments lit : simpl never.
#[local] Arguments has : simpl never.

(** ** Bytes *)

Lemma has_nil c : has [] c = false.
Proof. done. Qed.

Lemma has_cons d s c : has (d :: s) c = (d =? c) || has s c.
Proof. unfold has. cbn [strchr]. by destruct (d =? c). Qed.

Lemma has_elem s c : has s c = true <-> c ∈ s.
Proof.
  induction s as [|d s IH]; [by rewrite elem_of_nil|]. rewrite has_cons, orb_true_iff, Z.eqb_eq, elem_of_cons, IH.
  split; intros []; auto.
Qed.

Lemma symbols_has c : has symbols c = has (lit "|();&<") c || (c =? chr ">").
Proof.
  unfold symbols. change (lit "<|>&;()") with [60; 124; 62; 38; 59; 40; 41]. change (lit "|();&<") with [124; 40; 41; 59; 38; 60].
  rewrite !has_cons, !has_nil. change (chr ">") with 62. rewrite (Z.eqb_sym c 62).
  by destruct (60 =? c), (124 =? c), (62 =? c), (38 =? c), (59 =? c), (40 =? c), (41 =? c).
Qed.

(** ** Positions *)

Lemma span_le f l : (span f l <= length l)%nat.
Proof. induction l as [|c l IH]; simpl; [done|]. destruct (f c); lia. Qed.

Lemma span_all f l : Forall (fun c => f c = true) (take (span f l) l).
Proof. induction l as [|c l IH]; simpl; [done|]. destruct (f c) eqn:E; [by constructor|done]. Qed.

(** The byte where the prefix stops does not satisfy the condition. *)
Lemma span_stop f l : (span f l < length l)%nat -> f (nth (span f l) l 0) = false.
Proof. induction l as [|c l IH]; simpl; [lia|]. destruct (f c) eqn:E; [intros; apply IH; lia|done]. Qed.

Section Parser.
Context (buf : list Z) (Hz : no_nul buf).
Notation len := (length buf).
Notation at_ := (at_ buf).
Notation skip := (skip buf).

Lemma at_nonzero s : at_ s <> 0 <-> (s < len)%nat.
Proof.
  unfold Sh.at_. split; intros H.
  - destruct (decide (s < len)%nat) as [|Hn]; [done|]. rewrite nth_overflow in H by lia. done.
  - apply (Forall_nth (fun c => c <> 0)); [done|lia].
Qed.

Lemma nth_span f s : nth (span f (drop s buf)) (drop s buf) 0 = at_ (s + span f (drop s buf)).
Proof. unfold Sh.at_. apply nth_drop_add. Qed.

Lemma skip_bounds s : (s <= len)%nat -> (s <= skip s <= len)%nat.
Proof. intros H. unfold Sh.skip. pose proof (span_le (has whitespace) (drop s buf)) as Hs. rewrite length_drop in Hs. lia. Qed.

Lemma skip_stop s : (s <= len)%nat -> (skip s < len)%nat -> has whitespace (at_ (skip s)) = false.
Proof.
  intros H Hs. unfold Sh.skip in *. rewrite <- nth_span. apply span_stop. rewrite length_drop.
  pose proof (span_le (has whitespace) (drop s buf)). lia.
Qed.

(** A string of the tree: a maximal word of the line. *)
Definition word_at (q e : nat) : Prop :=
  (q < e <= len)%nat /\ Forall (fun c => is_word c = true) (take (e - q) (drop q buf)) /\ (e = len \/ is_word (at_ e) = false).

Fixpoint cmd_ok (c : cmd) : Prop :=
  match c with
  | EXEC argv => Forall (fun a => word_at a.1 a.2) argv
  | REDIR c q e _ _ => word_at q e /\ cmd_ok c
  | PIPE l r | LIST l r => cmd_ok l /\ cmd_ok r
  | BACK c => cmd_ok c
  end.

Lemma is_word_symbol c :
  has whitespace c = false -> has (lit "|();&<") c = false -> c <> chr ">" -> is_word c = true.
Proof. intros H1 H2 H3. unfold is_word. rewrite symbols_has, H1, H2, (proj2 (Z.eqb_neq _ _) H3). done. Qed.

(** gettoken() moves forward within the line, past at least a byte unless it is
    at the end, and its 'a' tokens are the words. *)
Lemma gettoken_spec ps :
  (ps <= len)%nat ->
  let t := gettoken buf ps in
  t_q t = skip ps /\ (t_q t <= t_eq t <= t_ps t)%nat /\ (t_ps t <= len)%nat /\
  ((skip ps < len)%nat -> (t_q t < t_eq t)%nat /\ t_ret t <> 0) /\
  (t_ret t = chr "a" -> word_at (t_q t) (t_eq t)).
Proof.
  intros Hps t. pose proof (skip_bounds ps Hps) as Hsk. unfold gettoken in t. set (s := skip ps) in *.
  assert (forall ret e, (s <= e <= len)%nat -> ((s < len)%nat -> (s < e)%nat /\ ret <> 0) -> (ret = chr "a" -> word_at s e) ->
    let t := mkToken ret s e (skip e) in
    t_q t = s /\ (t_q t <= t_eq t <= t_ps t)%nat /\ (t_ps t <= len)%nat /\
    ((s < len)%nat -> (t_q t < t_eq t)%nat /\ t_ret t <> 0) /\ (t_ret t = chr "a" -> word_at (t_q t) (t_eq t))) as Hmk.
  { intros ret e He H1 H2 t'. cbn. pose proof (skip_bounds e ltac:(lia)). split_and!; try done; lia. }
  destruct (Z.eqb_spec (at_ s) 0) as [E0|E0].
  { assert (~ (s < len)%nat) by (rewrite <- at_nonzero; lia). subst t. apply Hmk; [lia|lia|]. rewrite E0. done. }
  apply at_nonzero in E0 as Hlt.
  destruct (has (lit "|();&<") (at_ s)) eqn:Esym.
  { subst t. apply Hmk; [lia|lia|]. intros Ha. by rewrite Ha in Esym. }
  destruct (Z.eqb_spec (at_ s) (chr ">")) as [Egt|Egt].
  { destruct (Z.eqb_spec (at_ (S s)) (chr ">")) as [Egt2|_]; subst t.
    - assert (S s < len)%nat by (apply at_nonzero; by rewrite Egt2). apply Hmk; [lia|by split; [lia|]|done].
    - apply Hmk; [lia|by split; [lia|]|]. by rewrite Egt. }
  assert (is_word (at_ s) = true) as Hw by (apply is_word_symbol; [by apply skip_stop|done|done]).
  set (k := span is_word (drop s buf)) in *.
  assert (0 < k)%nat as Hk.
  { subst k. destruct (drop s buf) as [|c l] eqn:Ed; [apply (f_equal length) in Ed; rewrite length_drop in Ed; simpl in Ed; lia|].
    unfold Sh.at_ in Hw. rewrite <- (Nat.add_0_r s), <- nth_drop_add, Ed in Hw. simpl in *. rewrite Hw. lia. }
  pose proof (span_le is_word (drop s buf)) as Hle. rewrite length_drop in Hle. fold k in Hle.
  subst t. apply Hmk; [lia|by split; [lia|]|]. intros _. split_and!; [lia|lia| |].
  - replace (s + k - s)%nat with k by lia. apply span_all.
  - destruct (decide (s + k < len)%nat) as [Hl|]; [right|left; lia]. subst k. rewrite <- nth_span. apply span_stop.
    rewrite length_drop. lia.
Qed.

Lemma peek_spec ps toks :
  (ps <= len)%nat ->
  let '(s, b) := peek buf ps toks in
  s = skip ps /\ (ps <= s <= len)%nat /\ (b = true -> (s < len)%nat).
Proof.
  intros H. unfold peek. pose proof (skip_bounds ps H). split_and!; [done|lia|lia|].
  intros [Hb _]%andb_true_iff. apply at_nonzero. by apply negb_true_iff, Z.eqb_neq in Hb.
Qed.

Lemma skip_skip s : (s <= len)%nat -> skip (skip s) = skip s.
Proof.
  intros H. pose proof (skip_bounds s H) as Hs. pose proof (skip_bounds (skip s) ltac:(lia)) as Hs2.
  destruct (decide (skip s = len)) as [->|Hne]; [unfold Sh.skip; rewrite drop_ge; simpl; lia|].
  pose proof (skip_stop s H ltac:(lia)) as Hst. unfold Sh.skip at 1. unfold Sh.at_ in Hst.
  rewrite <- (Nat.add_0_r (skip s)), <- nth_drop_add in Hst.
  destruct (drop (skip s) buf) as [|c l] eqn:Ed; [simpl; lia|]. simpl in *. rewrite Hst. lia.
Qed.

(** A result that moved forward and has a well-formed tree, or a message; never
    out of fuel. *)
Definition pok (ps : nat) (r : pres cmd) : Prop :=
  match r with
  | POk c ps' => (ps <= ps' <= len)%nat /\ cmd_ok c
  | PPanic _ _ => True
  | PFuel => False
  end.

Lemma pok_bind ps r k :
  pok ps r -> (forall c ps', (ps <= ps' <= len)%nat -> cmd_ok c -> pok ps (k c ps')) -> pok ps (pbind r k).
Proof. destruct r; simpl; [intros []|done|done]. auto. Qed.

Lemma pok_le ps ps' r : (ps <= ps')%nat -> pok ps' r -> pok ps r.
Proof. destruct r; simpl; [intros ? []|done|done]. split; [lia|done]. Qed.

(** A token after a successful peek. *)
Lemma next_token ps toks s :
  (ps <= len)%nat -> peek buf ps toks = (s, true) ->
  (ps <= s < len)%nat /\ (s < t_ps (gettoken buf s) <= len)%nat.
Proof.
  intros H E. pose proof (peek_spec ps toks H) as Hp. rewrite E in Hp. destruct Hp as (Hs & Hb & Hlt).
  specialize (Hlt eq_refl). destruct (gettoken_spec s ltac:(lia)) as (Hq & Hle & Hl & Hadv & _).
  assert (skip s = s) as Hss by (subst s; by apply skip_skip). rewrite Hss in *. destruct (Hadv Hlt). lia.
Qed.

Lemma parseredirs_ok fuel c ps : (ps <= len)%nat -> (len - ps < fuel)%nat -> cmd_ok c -> pok ps (parseredirs buf fuel c ps).
Proof.
  revert c ps. induction fuel as [|fuel IH]; intros c ps Hps Hf Hc; [lia|]. cbn [parseredirs].
  pose proof (peek_spec ps "<>" Hps) as Hp. destruct (peek buf ps "<>") as [s []] eqn:Ep.
  2: { simpl. destruct Hp as (_ & ? & _). done. }
  destruct (next_token ps "<>" s Hps Ep) as [Hs Ht].
  destruct (gettoken_spec (t_ps (gettoken buf s)) ltac:(lia)) as (_ & Hle & Hl & _ & Hw).
  pose proof (skip_bounds (t_ps (gettoken buf s)) ltac:(lia)).
  set (t2 := gettoken buf (t_ps (gettoken buf s))) in *. destruct (Z.eqb_spec (t_ret t2) (chr "a")) as [Ea|]; [|done].
  cbn [negb]. eapply pok_le; [|apply IH]; [|lia| |].
  - destruct (gettoken_spec (t_ps (gettoken buf s)) ltac:(lia)) as (Hq & _). fold t2 in Hq. lia.
  - destruct (gettoken_spec (t_ps (gettoken buf s)) ltac:(lia)) as (Hq & _). fold t2 in Hq. lia.
  - specialize (Hw Ea). by repeat destruct (_ =? _).
Qed.

Lemma fill_ok argv c : Forall (fun a => word_at a.1 a.2) argv -> cmd_ok c -> cmd_ok (fill argv c).
Proof. intros Ha. induction c; simpl; try done. intros []. auto. Qed.

Lemma parseargs_ok fuel c argv ps :
  (ps <= len)%nat -> (len - ps < fuel)%nat -> cmd_ok c -> Forall (fun a => word_at a.1 a.2) argv ->
  pok ps (parseargs buf fuel c argv ps).
Proof.
  revert c argv ps. induction fuel as [|fuel IH]; intros c argv ps Hps Hf Hc Ha; [lia|]. cbn [parseargs].
  pose proof (peek_spec ps "|)&;" Hps) as Hp. destruct (peek buf ps "|)&;") as [s b]. destruct Hp as (Hs & Hb & _).
  destruct b; [simpl; split; [lia|by apply fill_ok]|].
  destruct (gettoken_spec s ltac:(lia)) as (Hq & Hle & Hl & Hadv & Hw). rewrite Hs, skip_skip, <- Hs in Hq, Hadv by done.
  set (t := gettoken buf s) in *. destruct (Z.eqb_spec (t_ret t) 0) as [|E0]; [simpl; split; [lia|by apply fill_ok]|].
  destruct (Z.eqb_spec (t_ret t) (chr "a")) as [Ea|]; [|done]. cbn [negb]. specialize (Hw Ea).
  assert (t_q t < t_eq t)%nat by apply Hw. destruct (_ <=? _)%nat; [done|].
  eapply pok_le; [|apply pok_bind; [apply parseredirs_ok; [lia|lia|done]|]]; [lia|].
  intros c' ps' Hps' Hc'. eapply pok_le; [|apply IH]; [lia|lia|lia|done|]. apply Forall_app. split; [done|]. by constructor.
Qed.

Lemma parseamps_ok fuel c ps : (ps <= len)%nat -> (len - ps < fuel)%nat -> cmd_ok c -> pok ps (parseamps buf fuel c ps).
Proof.
  revert c ps. induction fuel as [|fuel IH]; intros c ps Hps Hf Hc; [lia|]. cbn [parseamps].
  pose proof (peek_spec ps "&" Hps) as Hp. destruct (peek buf ps "&") as [s []] eqn:Ep.
  - destruct (next_token ps "&" s Hps Ep) as [Hs Ht]. eapply pok_le; [|apply IH]; [lia|lia|lia|done].
  - simpl. destruct Hp as (_ & ? & _). done.
Qed.

(** Four units of fuel for each byte that is left are enough. *)
Lemma parse_ok fuel :
  (forall ps, (ps <= len)%nat -> (4 * (len - ps) + 4 <= fuel)%nat -> pok ps (parseline buf fuel ps)) /\
  (forall ps, (ps <= len)%nat -> (4 * (len - ps) + 3 <= fuel)%nat -> pok ps (parsepipe buf fuel ps)) /\
  (forall ps, (ps <= len)%nat -> (4 * (len - ps) + 1 <= fuel)%nat -> pok ps (parseblock buf fuel ps)) /\
  (forall ps, (ps <= len)%nat -> (4 * (len - ps) + 2 <= fuel)%nat -> pok ps (parseexec buf fuel ps)).
Proof.
  induction fuel as [|fuel (IHl & IHp & IHb & IHe)]; [split_and!; intros; lia|]. split_and!; intros ps Hps Hf.
  - cbn [parseline]. apply pok_bind; [apply IHp; lia|]. intros c ps1 Hps1 Hc.
    apply pok_bind; [eapply pok_le; [|apply parseamps_ok]; [lia|lia|lia|done]|]. intros c2 ps2 Hps2 Hc2.
    pose proof (peek_spec ps2 ";" ltac:(lia)) as Hp. destruct (peek buf ps2 ";") as [s []] eqn:Ep.
    + destruct (next_token ps2 ";" s ltac:(lia) Ep) as [Hs Ht].
      apply pok_bind; [eapply pok_le; [|apply IHl]; lia|]. intros c3 ps3 ? ?. simpl. done.
    + destruct Hp as (_ & ? & _). simpl. split; [lia|done].
  - cbn [parsepipe]. apply pok_bind; [apply IHe; lia|]. intros c ps1 Hps1 Hc.
    pose proof (peek_spec ps1 "|" ltac:(lia)) as Hp. destruct (peek buf ps1 "|") as [s []] eqn:Ep.
    + destruct (next_token ps1 "|" s ltac:(lia) Ep) as [Hs Ht].
      apply pok_bind; [eapply pok_le; [|apply IHp]; lia|]. intros c3 ps3 ? ?. simpl. done.
    + destruct Hp as (_ & ? & _). simpl. split; [lia|done].
  - cbn [parseblock]. destruct (peek buf ps "(") as [s []] eqn:Ep; [|done]. cbn [negb].
    destruct (next_token ps "(" s Hps Ep) as [Hs Ht].
    apply pok_bind; [eapply pok_le; [|apply IHl]; lia|]. intros c ps1 Hps1 Hc.
    destruct (peek buf ps1 ")") as [s1 []] eqn:Ep1; [|done]. cbn [negb].
    destruct (next_token ps1 ")" s1 ltac:(lia) Ep1) as [Hs1 Ht1]. eapply pok_le; [|apply parseredirs_ok]; [lia|lia|lia|done].
  - cbn [parseexec]. pose proof (peek_spec ps "(" Hps) as Hp. destruct (peek buf ps "(") as [s b]. destruct Hp as (_ & Hs & _).
    destruct b; [eapply pok_le; [|apply IHb]; lia|].
    apply pok_bind; [eapply pok_le; [|apply parseredirs_ok]; [lia|lia|lia|simpl; constructor]|]. intros c ps1 Hps1 Hc.
    eapply pok_le; [|apply parseargs_ok]; [lia|lia|lia|done|constructor].
Qed.

Lemma parsecmd_ok : pok 0 (parsecmd buf).
Proof.
  unfold parsecmd. destruct (parse_ok (4 * len + 4)) as (Hl & _). apply pok_bind; [apply Hl; lia|]. intros c ps Hps Hc.
  pose proof (peek_spec ps "" ltac:(lia)) as Hp. destruct (peek buf ps "") as [s b]. destruct Hp as (_ & ? & _).
  destruct (_ =? _)%nat; [|done]. simpl. split; [lia|done].
Qed.
End Parser.

(** C39: the parser ends on every line: with the fuel parsecmd() is given it
    returns a tree after consuming the whole line, or fails with one of the
    shell's messages; it never runs out of fuel. *)
Theorem parsecmd_total buf : no_nul buf -> (exists c, parsecmd buf = POk c (length buf)) \/ exists msg l, parsecmd buf = PPanic msg l.
Proof.
  intros Hz. pose proof (parsecmd_ok buf Hz) as H. destruct (parsecmd buf) as [c ps|msg l|] eqn:E; [|right; by eexists _, _|done].
  left. exists c. f_equal. unfold parsecmd in E. destruct (parseline _ _ _) as [c' ps'| |]; try done. cbn [pbind] in E.
  destruct (peek buf ps' "") as [s b]. destruct (Nat.eqb_spec s (length buf)) as [Es|]; [|done]. congruence.
Qed.

Lemma parsecmd_total_witness : exists c, parsecmd (lit "(a > b | c) ; d &") = POk c 17.
Proof.
  destruct (parsecmd_total (lit "(a > b | c) ; d &")) as [[c H]|(msg & l & H)].
  - by apply (bool_decide_unpack _).
  - by exists c.
  - exfalso. vm_compute in H. discriminate.
Defined.

(** ** The strings of the tree *)

Fixpoint strings (c : cmd) : list (nat * nat) :=
  match c with
  | EXEC argv => argv
  | REDIR c q e _ _ => strings c ++ [(q, e)]
  | PIPE l r | LIST l r => strings l ++ strings r
  | BACK c => strings c
  end.

Lemma cmd_ok_strings buf c : cmd_ok buf c -> Forall (fun a => word_at buf a.1 a.2) (strings c).
Proof.
  induction c as [argv|c IH q e mode fd|l IHl r IHr|l IHl r IHr|c IH]; simpl; auto.
  - intros [Hw Hc]. apply Forall_app. auto.
  - intros [Hl Hr]. apply Forall_app. auto.
  - intros [Hl Hr]. apply Forall_app. auto.
Qed.

(** nulterminate() stores a NUL at the end of each string and nowhere else. *)
Lemma nulterminate_at c m i : nulterminate c m i = if bool_decide (i ∈ (strings c).*2) then 0 else m i.
Proof.
  revert m. induction c as [argv|c IH q e mode fd|l IHl r IHr|l IHl r IHr|c IH]; intros m; cbn [nulterminate strings].
  - revert m. induction argv as [|[q e] argv IH]; intros m; cbn [fold_left]; [done|]. rewrite IH, fmap_cons. unfold fupd. cbn [snd].
    repeat case_bool_decide; try case_decide; rewrite ?elem_of_cons in *; naive_solver.
  - unfold fupd at 1. rewrite IH, fmap_app. change ([(q, e)].*2) with [e].
    repeat case_bool_decide; case_decide; rewrite ?elem_of_app, ?list_elem_of_singleton in *; naive_solver.
  - rewrite IHr, IHl, fmap_app. repeat case_bool_decide; rewrite ?elem_of_app in *; naive_solver.
  - rewrite IHr, IHl, fmap_app. repeat case_bool_decide; rewrite ?elem_of_app in *; naive_solver.
  - by rewrite IH.
Qed.

Lemma until_nul_app a b : no_nul a -> until_nul (a ++ 0 :: b) = a.
Proof. induction 1 as [|c a Hc Ha IH]; [done|]. cbn [app until_nul]. rewrite (proj2 (Z.eqb_neq _ _) Hc). by f_equal. Qed.

(** Reading a buffer from [q] on, when it holds [w] there. *)
Lemma str_at_word m n q e (w : list Z) :
  (q + length w = e)%nat -> (e <= n)%nat -> no_nul w -> (forall i, (i < length w)%nat -> m (q + i)%nat = nth i w 0) ->
  (e = n \/ m e = 0) -> str_at m n q = w.
Proof.
  intros Hl Hn Hz Hm He. unfold str_at.
  assert (map m (seq q (length w)) = w) as Hw.
  { apply (nth_ext _ _ 0 0); [by rewrite length_map, length_seq|]. intros i Hi. rewrite length_map, length_seq in Hi.
    rewrite (nth_indep _ 0 (m O)) by (by rewrite length_map, length_seq). rewrite map_nth, seq_nth by done. by apply Hm. }
  destruct (decide (e = n)) as [->|Hne].
  - replace (n - q)%nat with (length w) by lia. rewrite Hw. by apply until_nul_id.
  - destruct He as [|He]; [done|]. replace (n - q)%nat with (length w + S (n - S e))%nat by lia.
    rewrite seq_app, map_app, Hw. cbn [seq map]. rewrite Hl, He. by apply until_nul_app.
Qed.

Lemma word_bytes buf q e :
  word_at buf q e -> length (take (e - q) (drop q buf)) = (e - q)%nat /\
  (forall i, (i < e - q)%nat -> nth i (take (e - q) (drop q buf)) 0 = at_ buf (q + i) /\ is_word (at_ buf (q + i)) = true).
Proof.
  intros ([Hqe Hel] & Hw & _). assert (length (take (e - q) (drop q buf)) = (e - q)%nat) as Hl by (rewrite length_take, length_drop; lia).
  split; [done|]. intros i Hi. assert (nth i (take (e - q) (drop q buf)) 0 = at_ buf (q + i)) as E.
  { rewrite nth_take_lt by done. apply nth_drop_add. }
  split; [done|]. rewrite <- E. apply (Forall_nth (fun c => is_word c = true)); [done|]. lia.
Qed.

(** Nulterminate() cuts the line without damaging it: when the parser accepts
    a line, then in the buffer the commands are run from, every argument and every
    file name of the tree is the NUL-terminated copy of a maximal word of the line
    (no blank and no symbol inside), the word the parser saw. *)
Theorem nulterminate_words buf c ps q e :
  no_nul buf -> parsecmd buf = POk c ps -> (q, e) ∈ strings c ->
  let w := take (e - q) (drop q buf) in
  str_at (nulterminate c (at_ buf)) (length buf) q = w /\ w <> [] /\ Forall (fun x => is_word x = true) w.
Proof.
  intros Hz E Hin w. pose proof (parsecmd_ok buf Hz) as H. rewrite E in H. destruct H as [_ Hok].
  apply cmd_ok_strings in Hok. rewrite Forall_forall in Hok. pose proof (Hok _ Hin) as Hw. cbn [fst snd] in Hw.
  destruct (word_bytes buf q e Hw) as [Hl Hb]. fold w in Hl, Hb. pose proof Hw as ([Hqe Hel] & Hall & _). split_and!.
  - apply (str_at_word _ _ q e w); [lia|done| | |].
    + unfold w. apply Forall_take, Forall_drop, Hz.
    + intros i Hi. rewrite Hl in Hi. destruct (Hb i Hi) as [-> Hword]. rewrite nulterminate_at.
      rewrite bool_decide_false; [done|]. intros ([q' e'] & Heq & Hin')%list_elem_of_fmap. simpl in Heq.
      destruct (Hok _ Hin') as (_ & _ & [He'|He']); cbn [fst snd] in He'; [lia|]. rewrite <- Heq in He'. congruence.
    + right. rewrite nulterminate_at, bool_decide_true; [done|]. apply list_elem_of_fmap. by exists (q, e).
  - intros Hnil. rewrite Hnil in Hl. simpl in Hl. lia.
  - done.
Qed.

Lemma nulterminate_words_witness :
  exists c, parsecmd (lit "cat<in|wc") = POk c 9 /\ str_at (nulterminate c (at_ (lit "cat<in|wc"))) 9 4 = lit "in".
Proof.
  eexists. split; [vm_compute; reflexivity|].
  refine (proj1 (nulterminate_words (lit "cat<in|wc") _ 9 4 6 _ _ _)).
  - by apply (bool_decide_unpack _).
  - vm_compute. reflexivity.
  - vm_compute. right. left.
Defined.

(** ** The search of /path *)

(** The folders named in the file: what stands before each colon. *)
Definition folders (content : list Z) : list cstr := (split_at (chr ":") content).1.

(** The paths the shell tries, in order. *)
Definition candidates (content : list Z) (name : cstr) : list cstr := name :: map (fun d => d ++ name) (folders content).

(** The entries and what follows the last one fit the array of 100 bytes, the name
    and the NUL included. *)
Definition path_fits (content : list Z) (name : cstr) : Prop :=
  Forall (fun d : cstr => (length d + length name < PATHMAX)%nat) (folders content) /\
  (length (split_at (chr ":") content).2 <= PATHMAX)%nat.

Lemma no_nul_app a b : no_nul (a ++ b) <-> no_nul a /\ no_nul b.
Proof. apply Forall_app. Qed.

(** Every unfinished entry on the way fits. *)
Lemma path_fits_prefix a c b name :
  path_fits (a ++ c :: b) name -> c <> chr ":" -> (length (split_at (chr ":") a).2 < PATHMAX)%nat.
Proof.
  intros [H1 H2] Hc. unfold folders in H1. rewrite split_at_app in H1, H2. cbn [fst snd] in *.
  set (r := (split_at (chr ":") a).2) in *. pose proof (split_at_rest (chr ":") a) as Hr. fold r in Hr. clearbody r.
  apply Forall_app in H1 as [_ H1].
  destruct (sep_cases (chr ":") (c :: b)) as [Hb|([|x s] & b' & E & Hs)].
  - rewrite split_at_nosep in H2 by (by apply Forall_app). cbn [snd] in H2. rewrite length_app in H2. simpl in H2. lia.
  - simpl in E. congruence.
  - rewrite E, app_assoc, split_at_sep in H1 by (by apply Forall_app). cbn [fst] in H1. apply Forall_cons in H1 as [H1 _].
    rewrite length_app in H1. simpl in H1. lia.
Qed.

Lemma path_fits_entry a b name :
  path_fits (a ++ chr ":" :: b) name -> (length (split_at (chr ":") a).2 + length name < PATHMAX)%nat.
Proof.
  intros [H1 _]. unfold folders in H1. rewrite split_at_app, split_at_sep in H1 by apply split_at_rest. cbn [fst] in H1.
  apply Forall_app in H1 as [_ H1]. by apply Forall_cons in H1 as [H1 _].
Qed.

Lemma folders_sep a b : folders (a ++ chr ":" :: b) = folders a ++ (split_at (chr ":") a).2 :: folders b.
Proof. unfold folders. rewrite split_at_app, split_at_sep by apply split_at_rest. done. Qed.

(** The state of the search after the bytes [a]: the entry under way, the
    candidates tried without success. *)
Definition searched (w : world) (fd : Z) (name : cstr) (content a b : list Z) (w' : world) : Prop :=
  content = a ++ b /\ Forall (fun p => w_prog w p = false) (map (fun d => d ++ name) (folders a)) /\
  w' = set_w_try (w_try w ++ map (fun d => d ++ name) (folders a)) (set_w_in (w_in w).[fd := Some b] w).

Lemma runs_search (Q : unit + stop -> world -> Prop) fd name argv content w :
  w_in w fd = Some content -> no_nul content -> no_nul name -> path_fits content name ->
  let ds := map (fun d => d ++ name) (folders content) in
  (forall pre path post w', ds = pre ++ path :: post -> Forall (fun p => w_prog w p = false) pre -> w_prog w path = true ->
     Q (inr (Execed path argv)) w') ->
  (Forall (fun p => w_prog w p = false) ds ->
     Q (inl tt) (set_w_try (w_try w ++ ds) (set_w_in (w_in w).[fd := Some []] w))) ->
  runs Q (search_path fd name argv) w.
Proof.
  intros Hin Hz Hzn Hfit ds HQ1 HQ0. unfold search_path.
  apply (uwp_while _ _ (fun '(newPath, _) w' => exists a b, newPath = (split_at (chr ":") a).2 /\ searched w fd name content a b w')
    (fun _ w' => match w_in w' fd with Some b => length b | None => O end)).
  { exists [], content. split; [done|]. split_and!; [done|constructor|]. simpl. rewrite app_nil_r.
    rewrite set_w_in_id by done. by destruct w. }
  intros [newPath reader] w' (a & b & -> & -> & Hno & ->). apply uwp_bind.
  apply (runs_read _ fd 1 b); [simpl; by rewrite fupd_eq|done| |].
  { intros ->. cbn [Z.eqb]. apply uwp_Ret. subst ds. rewrite app_nil_r in *. by apply HQ0. }
  intros a' b' -> Ha' Hlen. destruct a' as [|c [|]]; [done| |simpl in Hlen; lia]. cbn [length Z.of_nat Pos.of_succ_nat Z.eqb].
  cbn [app] in *.
  destruct (Z.eqb_spec c (chr ":")) as [->|Hc]; cbn [negb].
  - unfold append_name. rewrite (proj2 (Nat.ltb_lt _ _)) by (by eapply path_fits_entry).
    set (path := (split_at (chr ":") a).2 ++ name).
    assert (no_nul path) as Hzp.
    { apply no_nul_app. split; [|done]. apply no_nul_app in Hz as [Hz _]. by apply split_at_forall. }
    assert (folders (a ++ [chr ":"]) = folders a ++ [(split_at (chr ":") a).2]) as Ef by apply folders_sep.
    rewrite until_nul_id by done. apply uwp_bind. apply runs_exec; cbn [w_prog set_w_try set_w_in]; intros Hp.
    + eapply (HQ1 (map (fun d => d ++ name) (folders a)) path); [|done|done].
      subst ds. rewrite folders_sep, map_app. done.
    + apply uwp_Ret. split.
      * exists (a ++ [chr ":"]), b'. split; [by rewrite split_at_snoc, Z.eqb_refl|]. unfold searched. rewrite Ef, map_app. split_and!.
        -- by rewrite <- app_assoc.
        -- apply Forall_app. split; [done|]. by constructor.
        -- unfold set_w_try, set_w_in. simpl. rewrite fupd_fupd, <- app_assoc. done.
      * simpl. rewrite !fupd_eq. simpl. lia.
  - rewrite (proj2 (Nat.ltb_lt _ _)) by (by eapply path_fits_prefix). apply uwp_Ret. split.
    + assert (split_at (chr ":") (a ++ [c]) = ((split_at (chr ":") a).1, (split_at (chr ":") a).2 ++ [c])) as Es
        by (by rewrite split_at_snoc, (proj2 (Z.eqb_neq _ _) Hc)).
      exists (a ++ [c]), b'. split; [by rewrite Es|]. unfold searched, folders. rewrite Es. split_and!.
      * by rewrite <- app_assoc.
      * done.
      * unfold set_w_try, set_w_in. simpl. by rewrite fupd_fupd.
    + simpl. rewrite !fupd_eq. simpl. lia.
Qed.

(** C38: the shell finds commands through /path: running a command tries the name
    itself and then the name in each folder that stands before a colon in /path, in
    order; the first one that exists is run with the arguments of the command.
    When none exists, the shell says so and exits with 0, having tried exactly
    these.  The entries must fit the shell's 100-byte array. *)
Theorem path_search m n args name rest content w :
  map (fun a => str_at m n (fst a)) args = name :: rest ->
  no_nul name -> w_file w (lit "/path") = Some content -> no_nul content -> path_fits content name ->
  (exists fd, 0 <= fd /\ w_in w fd = None) ->
  runs (fun o w' =>
    match find (w_prog w) (candidates content name) with
    | Some path => o = inr (Execed path (name :: rest))
    | None => o = inr (Exited 0) /\ w_try w' = w_try w ++ candidates content name /\
              w_out w' 2 = w_out w 2 ++ render (lit "exec %s failed\n") [VStr (Some name)]
    end) (runcmd m n (EXEC args)) w.
Proof.
  intros Hargs Hzn Hfile Hz Hfit Hfd. cbn [runcmd]. rewrite Hargs. unfold candidates. cbn [find].
  apply uwp_bind, runs_exec; intros Hp; rewrite Hp; [done|].
  apply uwp_bind, runs_open; [done|simpl; by rewrite Hfile|]. intros c fd Hc Hge Hnone. simpl in Hc. rewrite Hfile in Hc.
  injection Hc as <-. apply uwp_bind. cbn [w_in w_prog set_w_in set_w_try w_file w_out w_try] in *.
  apply (runs_search _ fd name (name :: rest) content); cbn [w_in w_prog set_w_in set_w_try w_file w_out w_try];
    [by rewrite fupd_eq|done|done|done| |].
  - intros pre path post w' -> Hpre Hpath. rewrite find_app_or.
    rewrite find_none_forall by done. simpl. by rewrite Hpath.
  - intros Hall. apply uwp_bind, runs_vprintf, uwp_bind, runs_close, runs_exit.
    rewrite find_none_forall by done. split_and!; [done| |].
    + simpl. by rewrite <- app_assoc.
    + simpl. rewrite fupd_eq. done.
Qed.

(** The line ls -l when only /usr/ls exists. *)
Definition world_sh : world :=
  mkWorld (fun p => if bool_decide (p = lit "/path") then Some (lit "/bin/:/usr/:") else None)
    (fun p => bool_decide (p = lit "/usr/ls")) (fun _ => None) (fun _ => []) [].

Definition args_sh : list (nat * nat) := [(0, 2); (3, 5)]%nat.

Lemma path_search_witness :
  runs (fun o w' => o = inr (Execed (lit "/usr/ls") [lit "ls"; lit "-l"]))
    (runcmd (nulterminate (EXEC args_sh) (at_ (lit "ls -l"))) 5 (EXEC args_sh)) world_sh.
Proof.
  eapply uwp_mono; [apply (path_search _ 5 args_sh (lit "ls") [lit "-l"] (lit "/bin/:/usr/:") world_sh)|].
  - vm_compute. reflexivity.
  - by apply (bool_decide_unpack _).
  - vm_compute. reflexivity.
  - by apply (bool_decide_unpack _).
  - split; [by apply (bool_decide_unpack _)|vm_compute; lia].
  - by exists 3.
  - intros o w' H. exact H.
Defined.
