(* ===== verification/ShRound.v ===== *)
(** * Printing and parsing shell commands

    A command of the shell's grammar, its canonical text, and the tree it should
    be run as.  The parser of Sh.v maps the text to that tree. *)

From S2P Require Import Prelude CString User ULib Utils Grep Sh ShSpec.
Open Scope Z_scope.

#[local] Arguments chr : simpl never.
#[local] Arguments lit : simpl never.
#[local] Arguments has : simpl never.
#[local] Arguments skip : simpl never.
#[local] Arguments gettoken : simpl never.

(** Compare the byte constants in the goal. *)
Ltac eq_chars :=
  repeat match goal with
  | |- context [chr ?a =? chr ?b] => let v := eval vm_compute in (chr a =? chr b) in change (chr a =? chr b) with v
  end; cbn [negb].

(** ** Commands *)

Inductive redir := RIn (file : cstr) | ROut (file : cstr) | RApp (file : cstr).

(** A simple command is its arguments, with redirections before and after each; a
    block is a line in parentheses with redirections after it. *)
Inductive xcmd :=
| XExec (rs : list redir) (args : list (cstr * list redir))
| XBlock (l : xline) (rs : list redir)
with xpipe :=
| XOne (x : xcmd)
| XPipe (x : xcmd) (p : xpipe)
with xline :=
| XLine (p : xpipe) (amps : nat)
| XSeq (p : xpipe) (amps : nat) (l : xline).

(** ** Their text: each token is followed by a blank *)

Definition blank : cstr := lit " ".

Definition pr_redir (r : redir) : cstr :=
  match r with
  | RIn f => lit "< " ++ f ++ blank
  | ROut f => lit "> " ++ f ++ blank
  | RApp f => lit ">> " ++ f ++ blank
  end.

Definition pr_redirs (rs : list redir) : cstr := concat (map pr_redir rs).

Definition pr_args (args : list (cstr * list redir)) : cstr :=
  concat (map (fun a => fst a ++ blank ++ pr_redirs (snd a)) args).

Definition pr_amps (n : nat) : cstr := concat (repeat (lit "& ") n).

Fixpoint pr_x (x : xcmd) : cstr :=
  match x with
  | XExec rs args => pr_redirs rs ++ pr_args args
  | XBlock l rs => lit "( " ++ pr_l l ++ lit ") " ++ pr_redirs rs
  end
with pr_p (p : xpipe) : cstr :=
  match p with
  | XOne x => pr_x x
  | XPipe x p => pr_x x ++ lit "| " ++ pr_p p
  end
with pr_l (l : xline) : cstr :=
  match l with
  | XLine p n => pr_p p ++ pr_amps n
  | XSeq p n l => pr_p p ++ pr_amps n ++ lit "; " ++ pr_l l
  end.

(** ** Their trees, with strings for positions *)

Inductive scmd :=
| SEXEC (argv : list cstr)
| SREDIR (c : scmd) (file : cstr) (mode fd : Z)
| SPIPE (left right : scmd)
| SLIST (left right : scmd)
| SBACK (c : scmd).

Definition redirect (c : scmd) (r : redir) : scmd :=
  match r with
  | RIn f => SREDIR c f O_RDONLY 0
  | ROut f => SREDIR c f (Z.lor (Z.lor O_WRONLY O_CREATE) O_TRUNC) 1
  | RApp f => SREDIR c f (Z.lor O_WRONLY O_CREATE) 1
  end.

Definition redirects (c : scmd) (rs : list redir) : scmd := fold_left redirect rs c.

Definition backs (n : nat) (c : scmd) : scmd := Nat.iter n SBACK c.

Fixpoint tree_x (x : xcmd) : scmd :=
  match x with
  | XExec rs args => redirects (SEXEC (map fst args)) (rs ++ concat (map snd args))
  | XBlock l rs => redirects (tree_l l) rs
  end
with tree_p (p : xpipe) : scmd :=
  match p with
  | XOne x => tree_x x
  | XPipe x p => SPIPE (tree_x x) (tree_p p)
  end
with tree_l (l : xline) : scmd :=
  match l with
  | XLine p n => backs n (tree_p p)
  | XSeq p n l => SLIST (backs n (tree_p p)) (tree_l l)
  end.

(** ** Well-formed commands: words are words, and there are at most nine arguments *)

Definition word (w : cstr) : Prop := w <> [] /\ no_nul w /\ Forall (fun c => is_word c = true) w.

Definition redir_ok (r : redir) : Prop := match r with RIn f | ROut f | RApp f => word f end.

Definition arg_ok (a : cstr * list redir) : Prop := word (fst a) /\ Forall redir_ok (snd a).

Fixpoint wf_x (x : xcmd) : Prop :=
  match x with
  | XExec rs args => Forall redir_ok rs /\ Forall arg_ok args /\ (length args < MAXARGS)%nat
  | XBlock l rs => wf_l l /\ Forall redir_ok rs
  end
with wf_p (p : xpipe) : Prop :=
  match p with
  | XOne x => wf_x x
  | XPipe x p => wf_x x /\ wf_p p
  end
with wf_l (l : xline) : Prop :=
  match l with
  | XLine p n => wf_p p
  | XSeq p n l => wf_p p /\ wf_l l
  end.

Scheme xcmd_mut := Induction for xcmd Sort Prop
with xpipe_mut := Induction for xpipe Sort Prop
with xline_mut := Induction for xline Sort Prop.
Combined Scheme x_mut from xcmd_mut, xpipe_mut, xline_mut.

(** ** Texts at a token *)

(** The next byte, if any, is not a blank. *)
Definition nows (s : cstr) : Prop := match s with [] => True | c :: _ => has whitespace c = false end.

(** The next byte, if any, is one of [toks]. *)
Definition next_in (toks : cstr) (s : cstr) : Prop := match s with [] => True | c :: _ => has toks c = true end.

(** No next byte, or none of [toks]. *)
Definition next_not (toks : cstr) (s : cstr) : Prop := match s with [] => True | c :: _ => has toks c = false end.

Lemma has_sub t t' c : forallb (has t') t = true -> has t c = true -> has t' c = true.
Proof. rewrite forallb_forall. intros H Hc. apply H. by apply list_elem_of_In, has_elem. Qed.

Lemma has_disj t t' c : forallb (fun d => negb (has t' d)) t = true -> has t c = true -> has t' c = false.
Proof. rewrite forallb_forall. intros H Hc. apply negb_true_iff, H. by apply list_elem_of_In, has_elem. Qed.

Lemma next_in_sub t t' s : forallb (has t') t = true -> next_in t s -> next_in t' s.
Proof. destruct s; [done|]. apply has_sub. Qed.

Lemma next_in_not t t' s : forallb (fun d => negb (has t' d)) t = true -> next_in t s -> next_not t' s.
Proof. destruct s; [done|]. apply has_disj. Qed.

Lemma next_in_nows t s : forallb (fun d => negb (has whitespace d)) t = true -> next_in t s -> nows s.
Proof. destruct s; [done|]. apply has_disj. Qed.

(** A word does not begin with a symbol. *)
Lemma word_not w s t : forallb (has symbols) t = true -> word w -> next_not t (w ++ s).
Proof.
  intros Ht (Hne & _ & Hw). destruct w as [|c w]; [done|]. apply Forall_cons in Hw as [Hc _]. simpl.
  apply not_true_iff_false. intros H. apply (has_sub t symbols) in H; [|done]. unfold is_word in Hc. rewrite H in Hc.
  by rewrite andb_false_r in Hc.
Qed.

Lemma word_nows w s : word w -> nows (w ++ s).
Proof.
  intros (Hne & _ & Hw). destruct w as [|c w]; [done|]. apply Forall_cons in Hw as [Hc _]. simpl.
  unfold is_word in Hc. apply andb_true_iff in Hc as [Hc _]. by apply negb_true_iff.
Qed.

Lemma span_words w c s : Forall (fun c => is_word c = true) w -> is_word c = false -> span is_word (w ++ c :: s) = length w.
Proof. induction 1 as [|d w Hd Hw IH]; intros Hc; simpl; [by rewrite Hc|]. by rewrite Hd, IH. Qed.

Section Round.
Context (buf : list Z) (Hz : no_nul buf).

Lemma skip_nows ps s : drop ps buf = s -> nows s -> skip buf ps = ps.
Proof. intros Hd Hn. unfold skip. rewrite Hd. destruct s as [|c s]; simpl; [lia|]. simpl in Hn. rewrite Hn. lia. Qed.

Lemma at_drop ps c s : drop ps buf = c :: s -> at_ buf ps = c.
Proof. intros Hd. unfold at_. rewrite <- (Nat.add_0_r ps), <- nth_drop_add, Hd. done. Qed.

Lemma at_drop_nil ps : drop ps buf = [] -> at_ buf ps = 0.
Proof. intros Hd. unfold at_. rewrite <- (Nat.add_0_r ps), <- nth_drop_add, Hd. done. Qed.

Lemma drop_add n ps a s : drop ps buf = a ++ s -> n = length a -> drop (ps + n) buf = s.
Proof. intros Hd ->. by rewrite <- drop_drop, Hd, drop_app_length. Qed.

Lemma drop_no_nul ps c s : drop ps buf = c :: s -> c <> 0.
Proof. intros Hd. assert (no_nul (drop ps buf)) as H by by apply Forall_drop. rewrite Hd in H. by apply Forall_cons in H as [H _]. Qed.

Lemma peek_at ps s toks :
  drop ps buf = s -> nows s -> peek buf ps toks = (ps, match s with c :: _ => has (lit toks) c | [] => false end).
Proof.
  intros Hd Hn. unfold peek. rewrite (skip_nows ps s) by done. destruct s as [|c s].
  - by rewrite at_drop_nil.
  - rewrite (at_drop ps c s Hd), (proj2 (Z.eqb_neq _ _)) by (by eapply drop_no_nul). done.
Qed.

(** The blank after a token is skipped. *)
Lemma skip_blank ps s : drop ps buf = blank ++ s -> nows s -> drop (skip buf ps) buf = s.
Proof.
  intros Hd Hn. unfold skip. rewrite Hd. change (blank ++ s) with (32 :: s) in *. cbn [span].
  change (has whitespace 32) with true. cbv iota. replace (span (has whitespace) s) with O.
  - by apply (drop_add 1 ps [32]).
  - destruct s as [|c s]; [done|]. simpl in *. by rewrite Hn.
Qed.

Lemma token_symbol ps c s :
  drop ps buf = c :: blank ++ s -> nows s -> has (lit "|();&<") c = true ->
  t_ret (gettoken buf ps) = c /\ drop (t_ps (gettoken buf ps)) buf = s.
Proof.
  intros Hd Hn Hc. assert (nows (c :: blank ++ s)) as Hns.
  { simpl. apply has_elem in Hc. change (lit "|();&<") with [124; 40; 41; 59; 38; 60] in Hc.
    rewrite !elem_of_cons, elem_of_nil in Hc. by destruct Hc as [->|[->|[->|[->|[->|[->|[]]]]]]]. }
  unfold gettoken. rewrite (skip_nows ps _ Hd Hns), (at_drop ps _ _ Hd), (proj2 (Z.eqb_neq _ _)) by (by eapply drop_no_nul).
  rewrite Hc. cbn. split; [done|]. apply skip_blank; [|done].
  rewrite <- Nat.add_1_r. by apply (drop_add 1 ps [c]).
Qed.

Lemma token_gt ps s :
  drop ps buf = lit ">" ++ blank ++ s -> nows s ->
  t_ret (gettoken buf ps) = chr ">" /\ drop (t_ps (gettoken buf ps)) buf = s.
Proof.
  intros Hd Hn. change (lit ">" ++ blank ++ s) with (62 :: 32 :: s) in Hd.
  assert (drop (S ps) buf = 32 :: s) as Hd1 by (rewrite <- Nat.add_1_r; by apply (drop_add 1 ps [62])).
  unfold gettoken. rewrite (skip_nows ps _ Hd), (at_drop ps _ _ Hd), (at_drop (S ps) _ _ Hd1) by done. cbn. split; [done|].
  by apply skip_blank.
Qed.

Lemma token_gtgt ps s :
  drop ps buf = lit ">>" ++ blank ++ s -> nows s ->
  t_ret (gettoken buf ps) = chr "+" /\ drop (t_ps (gettoken buf ps)) buf = s.
Proof.
  intros Hd Hn. change (lit ">>" ++ blank ++ s) with (62 :: 62 :: 32 :: s) in Hd.
  assert (drop (S ps) buf = 62 :: 32 :: s) as Hd1 by (rewrite <- Nat.add_1_r; by apply (drop_add 1 ps [62])).
  assert (drop (S (S ps)) buf = 32 :: s) as Hd2 by (rewrite <- Nat.add_1_r; by apply (drop_add 1 (S ps) [62])).
  unfold gettoken. rewrite (skip_nows ps _ Hd), (at_drop ps _ _ Hd), (at_drop (S ps) _ _ Hd1) by done. cbn. split; [done|].
  by apply skip_blank.
Qed.

(** The bytes between two positions. *)
Definition slice (a : nat * nat) : cstr := take (snd a - fst a) (drop (fst a) buf).

#[local] Arguments slice : simpl never.

Lemma token_word ps w s :
  drop ps buf = w ++ blank ++ s -> nows s -> word w ->
  let t := gettoken buf ps in t_ret t = chr "a" /\ slice (t_q t, t_eq t) = w /\ drop (t_ps t) buf = s.
Proof.
  intros Hd Hn Hw. pose proof (word_nows w (blank ++ s) Hw) as Hns. destruct Hw as (Hne & Hzw & Hw).
  destruct w as [|c w]; [done|]. unfold gettoken.
  rewrite (skip_nows ps _ Hd Hns), (at_drop ps _ _ Hd), (proj2 (Z.eqb_neq _ _)) by (by eapply drop_no_nul).
  assert (is_word c = true) as Hc by (by apply Forall_cons in Hw as [Hc _]).
  unfold is_word in Hc. apply andb_true_iff in Hc as [_ Hc]. rewrite symbols_has, negb_orb in Hc.
  apply andb_true_iff in Hc as [Hc1%negb_true_iff Hc2%negb_true_iff]. rewrite Hc1, Hc2. rewrite Hd.
  change (blank ++ s) with (32 :: s) in *. rewrite span_words by done. cbn zeta iota. cbn [t_ret t_q t_eq t_ps].
  split_and!; [done| |].
  - unfold slice. cbn [fst snd]. replace (ps + length (c :: w) - ps)%nat with (length (c :: w)) by lia. by rewrite Hd, take_app_length.
  - apply skip_blank; [|done]. by apply (drop_add _ ps (c :: w)).
Qed.

Lemma token_end ps : drop ps buf = [] -> t_ret (gettoken buf ps) = 0 /\ drop (t_ps (gettoken buf ps)) buf = [].
Proof.
  intros Hd. unfold gettoken. rewrite (skip_nows ps [] Hd) by done. rewrite (at_drop_nil ps Hd). cbn.
  by rewrite (skip_nows ps [] Hd).
Qed.

(** ** Parsing the text of a command *)

Fixpoint denote (c : cmd) : scmd :=
  match c with
  | EXEC argv => SEXEC (map slice argv)
  | REDIR c q e mode fd => SREDIR (denote c) (slice (q, e)) mode fd
  | PIPE l r => SPIPE (denote l) (denote r)
  | LIST l r => SLIST (denote l) (denote r)
  | BACK c => SBACK (denote c)
  end.

Lemma pr_redir_nows r s : nows (pr_redir r ++ s).
Proof. by destruct r. Qed.

Lemma pr_redirs_nows rs s : nows s -> nows (pr_redirs rs ++ s).
Proof. destruct rs as [|r rs]; [done|]. intros _. unfold pr_redirs. cbn [map concat]. rewrite <- app_assoc. apply pr_redir_nows. Qed.

(** One redirection. *)
Lemma parseredirs_step r rs fuel c ps s :
  drop ps buf = pr_redir r ++ pr_redirs rs ++ s -> nows s -> redir_ok r ->
  exists c' ps', parseredirs buf (S fuel) c ps = parseredirs buf fuel c' ps' /\ drop ps' buf = pr_redirs rs ++ s /\
    denote c' = redirect (denote c) r /\ forall av, denote (fill av c') = redirect (denote (fill av c)) r.
Proof.
  intros Hd Hn Hr. pose proof (pr_redirs_nows rs s Hn) as Hn'.
  assert (peek buf ps "<>" = (ps, true)) as Hp.
  { rewrite (peek_at ps _ "<>" Hd) by apply pr_redir_nows. by destruct r. }
  cbn [parseredirs]. rewrite Hp. destruct r as [f|f|f]; cbn [redir_ok] in Hr; cbn [pr_redir] in Hd; rewrite <- !app_assoc in Hd.
  - destruct (token_symbol ps (chr "<") (f ++ blank ++ pr_redirs rs ++ s)) as [E1 D1]; [exact Hd|by apply word_nows|done|].
    destruct (token_word _ f (pr_redirs rs ++ s) D1 Hn' Hr) as (E2 & Es & D2). rewrite E1, E2. eq_chars.
    eexists _, _. split_and!; [reflexivity|exact D2|cbn; by rewrite Es|intros av; cbn; by rewrite Es].
  - destruct (token_gt ps (f ++ blank ++ pr_redirs rs ++ s)) as [E1 D1]; [exact Hd|by apply word_nows|].
    destruct (token_word _ f (pr_redirs rs ++ s) D1 Hn' Hr) as (E2 & Es & D2). rewrite E1, E2. eq_chars.
    eexists _, _. split_and!; [reflexivity|exact D2|cbn; by rewrite Es|intros av; cbn; by rewrite Es].
  - destruct (token_gtgt ps (f ++ blank ++ pr_redirs rs ++ s)) as [E1 D1]; [exact Hd|by apply word_nows|].
    destruct (token_word _ f (pr_redirs rs ++ s) D1 Hn' Hr) as (E2 & Es & D2). rewrite E1, E2. eq_chars.
    eexists _, _. split_and!; [reflexivity|exact D2|cbn; by rewrite Es|intros av; cbn; by rewrite Es].
Qed.

Lemma parseredirs_print rs fuel c ps s :
  drop ps buf = pr_redirs rs ++ s -> nows s -> next_not (lit "<>") s -> Forall redir_ok rs -> (length rs < fuel)%nat ->
  exists c' ps', parseredirs buf fuel c ps = POk c' ps' /\ drop ps' buf = s /\
    denote c' = redirects (denote c) rs /\ forall av, denote (fill av c') = redirects (denote (fill av c)) rs.
Proof.
  revert fuel c ps. induction rs as [|r rs IH]; intros [|fuel] c ps Hd Hn Hnot Hrs Hf; cbn [length] in Hf; try lia.
  - change (pr_redirs [] ++ s) with s in Hd. cbn [parseredirs]. rewrite (peek_at ps s "<>" Hd Hn).
    replace (match s with c :: _ => has (lit "<>") c | [] => false end) with false by (destruct s; simpl in Hnot; by rewrite ?Hnot).
    exists c, ps. done.
  - apply Forall_cons in Hrs as [Hr Hrs]. unfold pr_redirs in Hd. cbn [map concat] in Hd. rewrite <- app_assoc in Hd.
    destruct (parseredirs_step r rs fuel c ps s Hd Hn Hr) as (c1 & ps1 & -> & D1 & E1 & F1).
    destruct (IH fuel c1 ps1 D1 Hn Hnot Hrs ltac:(lia)) as (c2 & ps2 & -> & D2 & E2 & F2).
    exists c2, ps2. split_and!; [done|done| |].
    + by rewrite E2, E1.
    + intros av. by rewrite F2, F1.
Qed.

Lemma drop_length ps s : drop ps buf = s -> (length s <= length buf)%nat.
Proof. intros <-. rewrite length_drop. lia. Qed.

Lemma length_redirs rs : (length rs <= length (pr_redirs rs))%nat.
Proof.
  induction rs as [|r rs IH]; [done|]. unfold pr_redirs in *. cbn [map concat length]. rewrite length_app.
  assert (1 <= length (pr_redir r))%nat by (destruct r; simpl; lia). lia.
Qed.

(** With the fuel the callers of parseredirs() give. *)
Lemma parseredirs_all rs c ps s :
  drop ps buf = pr_redirs rs ++ s -> nows s -> next_not (lit "<>") s -> Forall redir_ok rs ->
  exists c' ps', parseredirs buf (S (length buf)) c ps = POk c' ps' /\ drop ps' buf = s /\
    denote c' = redirects (denote c) rs /\ forall av, denote (fill av c') = redirects (denote (fill av c)) rs.
Proof.
  intros Hd Hn Hnot Hrs. apply parseredirs_print; try done. apply drop_length in Hd. rewrite length_app in Hd.
  pose proof (length_redirs rs). lia.
Qed.

Lemma pr_args_next args s :
  Forall arg_ok args -> next_in (lit "|)&;") s -> nows (pr_args args ++ s) /\ next_not (lit "<>(") (pr_args args ++ s).
Proof.
  intros Ha Hs. destruct args as [|[w rs] args].
  - split; [by eapply next_in_nows; [|exact Hs]|by eapply next_in_not; [|exact Hs]].
  - apply Forall_cons in Ha as [[Hw _] _]. unfold pr_args. cbn [map concat fst snd]. rewrite <- !app_assoc.
    split; [by apply word_nows|by apply word_not].
Qed.

Lemma parseargs_print args fuel ret argv ps s :
  drop ps buf = pr_args args ++ s -> next_in (lit "|)&;") s -> Forall arg_ok args ->
  (length argv + length args < MAXARGS)%nat -> (length args < fuel)%nat ->
  exists c' ps' new, parseargs buf fuel ret argv ps = POk c' ps' /\ drop ps' buf = s /\ map slice new = map fst args /\
    denote c' = redirects (denote (fill (argv ++ new) ret)) (concat (map snd args)).
Proof.
  revert fuel ret argv ps. induction args as [|[w rs] args IH]; intros [|fuel] ret argv ps Hd Hs Ha Hlen Hf; cbn [length] in *; try lia.
  - change (pr_args [] ++ s) with s in Hd. assert (nows s) as Hn by (by eapply next_in_nows; [|exact Hs]).
    cbn [parseargs]. rewrite (peek_at ps s "|)&;" Hd Hn). destruct s as [|c s].
    + destruct (token_end ps Hd) as [E D]. rewrite E. exists (fill argv ret), (t_ps (gettoken buf ps)), [].
      split_and!; [done|done|done|]. by rewrite app_nil_r.
    + simpl in Hs. rewrite Hs. exists (fill argv ret), ps, []. split_and!; [done|done|done|]. by rewrite app_nil_r.
  - apply Forall_cons in Ha as [[Hw Hrs] Ha]. cbn [fst snd] in Hw, Hrs. destruct (pr_args_next args s Ha Hs) as [Hn Hnot].
    unfold pr_args in Hd. cbn [map concat fst snd] in Hd. rewrite <- !app_assoc in Hd. fold (pr_args args) in Hd.
    cbn [parseargs]. rewrite (peek_at ps _ "|)&;" Hd (word_nows _ _ Hw)).
    pose proof (word_not w (blank ++ pr_redirs rs ++ pr_args args ++ s) (lit "|)&;") eq_refl Hw) as Hsym.
    destruct w as [|c w]; [by destruct Hw|]. simpl in Hsym. cbn [app]. rewrite Hsym.
    destruct (token_word ps (c :: w) (pr_redirs rs ++ pr_args args ++ s) Hd (pr_redirs_nows _ _ Hn) Hw) as (E & Es & D).
    rewrite E. change (chr "a" =? 0) with false. eq_chars. rewrite length_app. cbn [length].
    rewrite (proj2 (Nat.leb_gt _ _)) by lia.
    assert (next_not (lit "<>") (pr_args args ++ s)) as Hnot'.
    { destruct (pr_args args ++ s); [done|]. simpl in *. apply not_true_iff_false. intros H.
      apply (has_sub _ (lit "<>(")) in H; [congruence|done]. }
    destruct (parseredirs_all rs ret _ _ D Hn Hnot' Hrs) as (ret1 & ps1 & -> & D1 & _ & F1). cbn [pbind].
    destruct (IH fuel ret1 (argv ++ [(t_q (gettoken buf ps), t_eq (gettoken buf ps))]) ps1 D1 Hs Ha) as (c' & ps' & new & H1 & H2 & H3 & H4);
      [rewrite length_app; simpl; lia|lia|].
    exists c', ps', ((t_q (gettoken buf ps), t_eq (gettoken buf ps)) :: new). split_and!; [done|done| |].
    + cbn [map]. by rewrite Es, H3.
    + rewrite H4, F1, <- app_assoc. cbn [map concat app snd]. unfold redirects. by rewrite fold_left_app.
Qed.

Lemma parseamps_print n fuel c ps s :
  drop ps buf = pr_amps n ++ s -> nows s -> next_not (lit "&") s -> (n < fuel)%nat ->
  exists c' ps', parseamps buf fuel c ps = POk c' ps' /\ drop ps' buf = s /\ denote c' = backs n (denote c).
Proof.
  revert fuel c ps. induction n as [|n IH]; intros [|fuel] c ps Hd Hn Hnot Hf; try lia; cbn [parseamps].
  - change (pr_amps 0 ++ s) with s in Hd. rewrite (peek_at ps s "&" Hd Hn).
    replace (match s with c :: _ => has (lit "&") c | [] => false end) with false by (destruct s; simpl in Hnot; by rewrite ?Hnot).
    by exists c, ps.
  - change (pr_amps (S n) ++ s) with (chr "&" :: blank ++ pr_amps n ++ s) in Hd.
    rewrite (peek_at ps _ "&" Hd) by done. change (has (lit "&") (chr "&")) with true. cbv iota.
    destruct (token_symbol ps (chr "&") (pr_amps n ++ s) Hd) as [_ D]; [by destruct n|done|].
    destruct (IH fuel (backcmd c) _ D Hn Hnot ltac:(lia)) as (c' & ps' & -> & D' & E). exists c', ps'. split_and!; [done|done|].
    rewrite E. unfold backs, backcmd. cbn [denote]. by rewrite Nat.iter_succ_r.
Qed.

(** What begins a command does not begin with a blank. *)
Lemma print_nows :
  (forall x s, wf_x x -> nows s -> nows (pr_x x ++ s)) /\
  (forall p s, wf_p p -> nows s -> nows (pr_p p ++ s)) /\
  (forall l s, wf_l l -> nows s -> nows (pr_l l ++ s)).
Proof.
  apply x_mut; cbn [pr_x pr_p pr_l wf_x wf_p wf_l]; intros; rewrite <- ?app_assoc.
  - destruct H as (H1 & H2 & _). apply pr_redirs_nows. destruct args as [|[w r] args]; [done|].
    apply Forall_cons in H2 as [[Hw _] _]. unfold pr_args. cbn [map concat fst snd]. rewrite <- !app_assoc. by apply word_nows.
  - done.
  - auto.
  - apply H; [tauto|done].
  - apply H; [done|]. by destruct amps.
  - apply H; [tauto|]. by destruct amps.
Qed.

(** A parser returns the tree of what was printed at its position. *)
Definition parses (parse : nat -> nat -> pres cmd) (k : nat) (stop : string) (text : cstr) (t : scmd) : Prop :=
  forall fuel ps s, drop ps buf = text ++ s -> next_in (lit stop) s -> (4 * length (text ++ s) + k <= fuel)%nat ->
    exists c ps', parse fuel ps = POk c ps' /\ drop ps' buf = s /\ denote c = t.

Lemma parse_exec rs args :
  wf_x (XExec rs args) -> parses (parseexec buf) 2 "|)&;" (pr_x (XExec rs args)) (tree_x (XExec rs args)).
Proof.
  intros (Hrs & Ha & Hlen) [|fuel] ps s Hd Hs Hf; [lia|]. cbn [pr_x tree_x parseexec] in *. rewrite <- app_assoc in Hd.
  destruct (pr_args_next args s Ha Hs) as [Hn Hnot].
  assert (nows (pr_redirs rs ++ pr_args args ++ s)) as Hn1 by by apply pr_redirs_nows.
  rewrite (peek_at ps _ "(" Hd Hn1).
  assert (forall t, forallb (has (lit "<>(")) t = true -> next_not t (pr_args args ++ s)) as Hnt.
  { intros t Ht. destruct (pr_args args ++ s); [done|]. simpl in *. apply not_true_iff_false. intros H.
    apply (has_sub _ (lit "<>(")) in H; [congruence|done]. }
  replace (match pr_redirs rs ++ pr_args args ++ s with c :: _ => has (lit "(") c | [] => false end) with false.
  2: { destruct rs as [|r rs]; [|by destruct r]. pose proof (Hnt (lit "(") eq_refl) as H. change (pr_redirs []) with (@nil Z).
       cbn [app]. destruct (pr_args args ++ s); [done|]. simpl in H. by rewrite H. }
  destruct (parseredirs_all rs execcmd ps _ Hd Hn (Hnt (lit "<>") eq_refl) Hrs) as (ret & ps1 & -> & D1 & _ & F1). cbn [pbind].
  destruct (parseargs_print args (S (length buf)) ret [] ps1 s D1 Hs Ha) as (c' & ps' & new & -> & D2 & E2 & E3).
  { simpl. done. }
  { apply drop_length in D1. rewrite length_app in D1.
    assert (length args <= length (pr_args args))%nat; [|lia]. clear -Ha. induction Ha as [|[w rs] args [Hw _] Ha IH]; [done|].
    unfold pr_args in *. cbn [map concat length fst snd]. rewrite !length_app. change (length blank) with 1%nat. lia. }
  exists c', ps'. split_and!; [done|done|]. rewrite E3, F1. unfold execcmd. cbn [fill denote app]. rewrite E2. unfold redirects.
  by rewrite fold_left_app.
Qed.

Lemma parse_block l rs :
  wf_l l -> Forall redir_ok rs -> parses (parseline buf) 4 ")" (pr_l l) (tree_l l) ->
  parses (parseexec buf) 2 "|)&;" (pr_x (XBlock l rs)) (tree_x (XBlock l rs)).
Proof.
  intros Hl Hrs IH [|[|fuel]] ps s Hd Hs Hf; cbn [pr_x tree_x] in *; rewrite <- ?app_assoc in *; try lia.
  change (lit "( " ++ pr_l l ++ lit ") " ++ pr_redirs rs ++ s) with (chr "(" :: blank ++ pr_l l ++ lit ") " ++ pr_redirs rs ++ s) in *.
  assert (nows (pr_l l ++ lit ") " ++ pr_redirs rs ++ s)) as Hn1 by (by apply (proj2 (proj2 print_nows))).
  assert (peek buf ps "(" = (ps, true)) as Hp by (by rewrite (peek_at ps _ "(" Hd)).
  cbn [parseexec parseblock]. rewrite Hp, Hp. cbn [negb].
  destruct (token_symbol ps (chr "(") _ Hd Hn1 eq_refl) as [_ D1].
  destruct (IH fuel _ (lit ") " ++ pr_redirs rs ++ s) D1) as (c & ps1 & -> & D2 & E2); [done| |].
  { cbn [length] in Hf. rewrite length_app in Hf. change (length blank) with 1%nat in Hf. lia. }
  cbn [pbind]. change (lit ") " ++ pr_redirs rs ++ s) with (chr ")" :: blank ++ pr_redirs rs ++ s) in D2.
  rewrite (peek_at ps1 _ ")" D2) by done. change (has (lit ")") (chr ")")) with true. cbn [negb].
  assert (nows s) as Hn by (by eapply next_in_nows; [|exact Hs]).
  destruct (token_symbol ps1 (chr ")") _ D2 (pr_redirs_nows _ _ Hn) eq_refl) as [_ D3].
  destruct (parseredirs_all rs c _ s D3 Hn ltac:(by eapply next_in_not; [|exact Hs]) Hrs) as (c' & ps' & -> & D4 & E4 & _).
  exists c', ps'. split_and!; [done|done|]. by rewrite E4, E2.
Qed.

Lemma parse_one x :
  parses (parseexec buf) 2 "|)&;" (pr_x x) (tree_x x) -> parses (parsepipe buf) 3 ")&;" (pr_p (XOne x)) (tree_p (XOne x)).
Proof.
  intros IH [|fuel] ps s Hd Hs Hf; [lia|]. cbn [pr_p tree_p parsepipe] in *.
  destruct (IH fuel ps s Hd) as (c & ps1 & -> & D & E); [by eapply next_in_sub; [|exact Hs]|lia|]. cbn [pbind].
  rewrite (peek_at ps1 s "|" D) by (by eapply next_in_nows; [|exact Hs]).
  assert (next_not (lit "|") s) as Hnot by (by eapply next_in_not; [|exact Hs]).
  replace (match s with c :: _ => has (lit "|") c | [] => false end) with false by (destruct s; simpl in Hnot; by rewrite ?Hnot).
  by exists c, ps1.
Qed.

Lemma parse_pipe x p :
  wf_p p -> parses (parseexec buf) 2 "|)&;" (pr_x x) (tree_x x) -> parses (parsepipe buf) 3 ")&;" (pr_p p) (tree_p p) ->
  parses (parsepipe buf) 3 ")&;" (pr_p (XPipe x p)) (tree_p (XPipe x p)).
Proof.
  intros Hp IHx IHp [|fuel] ps s Hd Hs Hf; [lia|]. cbn [pr_p tree_p parsepipe] in *. rewrite <- !app_assoc in *.
  change (lit "| " ++ pr_p p ++ s) with (chr "|" :: blank ++ pr_p p ++ s) in *.
  destruct (IHx fuel ps _ Hd) as (c & ps1 & -> & D & E); [done|lia|]. cbn [pbind].
  rewrite (peek_at ps1 _ "|" D) by done. change (has (lit "|") (chr "|")) with true. cbv iota.
  assert (nows (pr_p p ++ s)) as Hn by (apply (proj1 (proj2 print_nows)); [done|by eapply next_in_nows; [|exact Hs]]).
  destruct (token_symbol ps1 (chr "|") _ D Hn eq_refl) as [_ D1].
  destruct (IHp fuel _ s D1 Hs) as (c2 & ps2 & -> & D2 & E2).
  { rewrite length_app in Hf. cbn [length] in Hf. rewrite length_app in Hf. lia. }
  cbn [pbind]. exists (pipecmd c c2), ps2. split_and!; [done|done|]. unfold pipecmd. cbn [denote]. by rewrite E, E2.
Qed.

(** A pipeline and the ampersands after it. *)
Lemma parse_amps p n fuel ps s :
  parses (parsepipe buf) 3 ")&;" (pr_p p) (tree_p p) -> drop ps buf = pr_p p ++ pr_amps n ++ s -> next_in (lit ");") s ->
  (4 * length (pr_p p ++ pr_amps n ++ s) + 3 <= fuel)%nat ->
  exists c ps', pbind (parsepipe buf fuel ps) (fun c ps => parseamps buf (S (length buf)) c ps) = POk c ps' /\
    drop ps' buf = s /\ denote c = backs n (tree_p p).
Proof.
  intros IH Hd Hs Hf.
  destruct (IH fuel ps (pr_amps n ++ s) Hd) as (c & ps1 & -> & D & E); [|done|].
  { destruct n; [|done]. by eapply next_in_sub; [|exact Hs]. }
  cbn [pbind]. destruct (parseamps_print n (S (length buf)) c ps1 s D) as (c' & ps' & -> & D' & E').
  - by eapply next_in_nows; [|exact Hs].
  - by eapply next_in_not; [|exact Hs].
  - apply drop_length in D. rewrite length_app in D. assert (n <= length (pr_amps n))%nat; [|lia].
    clear. induction n as [|n IH]; [done|]. unfold pr_amps in *. cbn [repeat concat]. rewrite length_app. simpl. lia.
  - exists c', ps'. split_and!; [done|done|]. by rewrite E', E.
Qed.

Lemma parse_line p n :
  parses (parsepipe buf) 3 ")&;" (pr_p p) (tree_p p) -> parses (parseline buf) 4 ")" (pr_l (XLine p n)) (tree_l (XLine p n)).
Proof.
  intros IH [|fuel] ps s Hd Hs Hf; [lia|]. cbn [pr_l tree_l parseline] in *. rewrite <- app_assoc in *.
  destruct (parse_amps p n fuel ps s IH Hd) as (c & ps1 & E & D & Et); [by eapply next_in_sub; [|exact Hs]|lia|].
  destruct (parsepipe buf fuel ps) as [c0 ps0| |]; try done. cbn [pbind] in *. rewrite E. cbn [pbind].
  rewrite (peek_at ps1 s ";" D) by (by eapply next_in_nows; [|exact Hs]).
  assert (next_not (lit ";") s) as Hnot by (by eapply next_in_not; [|exact Hs]).
  replace (match s with c :: _ => has (lit ";") c | [] => false end) with false by (destruct s; simpl in Hnot; by rewrite ?Hnot).
  by exists c, ps1.
Qed.

Lemma parse_seq p n l :
  wf_l l -> parses (parsepipe buf) 3 ")&;" (pr_p p) (tree_p p) -> parses (parseline buf) 4 ")" (pr_l l) (tree_l l) ->
  parses (parseline buf) 4 ")" (pr_l (XSeq p n l)) (tree_l (XSeq p n l)).
Proof.
  intros Hl IHp IHl [|fuel] ps s Hd Hs Hf; [lia|]. cbn [pr_l tree_l parseline] in *. rewrite <- !app_assoc in *.
  change (lit "; " ++ pr_l l ++ s) with (chr ";" :: blank ++ pr_l l ++ s) in *.
  destruct (parse_amps p n fuel ps _ IHp Hd) as (c & ps1 & E & D & Et); [done|lia|].
  destruct (parsepipe buf fuel ps) as [c0 ps0| |]; try done. cbn [pbind] in *. rewrite E. cbn [pbind].
  rewrite (peek_at ps1 _ ";" D) by done. change (has (lit ";") (chr ";")) with true. cbv iota.
  assert (nows (pr_l l ++ s)) as Hn by (apply (proj2 (proj2 print_nows)); [done|by eapply next_in_nows; [|exact Hs]]).
  destruct (token_symbol ps1 (chr ";") _ D Hn eq_refl) as [_ D1].
  destruct (IHl fuel _ s D1 Hs) as (c2 & ps2 & -> & D2 & E2).
  { rewrite !length_app in Hf. cbn [length] in Hf. rewrite !length_app in *. lia. }
  cbn [pbind]. exists (listcmd c c2), ps2. split_and!; [done|done|]. unfold listcmd. cbn [denote]. by rewrite Et, E2.
Qed.

Lemma parse_print :
  (forall x, wf_x x -> parses (parseexec buf) 2 "|)&;" (pr_x x) (tree_x x)) /\
  (forall p, wf_p p -> parses (parsepipe buf) 3 ")&;" (pr_p p) (tree_p p)) /\
  (forall l, wf_l l -> parses (parseline buf) 4 ")" (pr_l l) (tree_l l)).
Proof.
  apply x_mut; cbn [wf_x wf_p wf_l].
  - intros rs args H. by apply parse_exec.
  - intros l IH rs [Hl Hrs]. apply parse_block; auto.
  - intros x IH Hx. apply parse_one; auto.
  - intros x IHx p IHp [Hx Hp]. apply parse_pipe; auto.
  - intros p IH n Hp. apply parse_line; auto.
  - intros p IHp n l IHl [Hp Hl]. apply parse_seq; auto.
Qed.
End Round.

Lemma pr_redirs_no_nul rs : Forall redir_ok rs -> no_nul (pr_redirs rs).
Proof.
  induction 1 as [|r rs Hr Hrs IH]; [constructor|]. unfold pr_redirs. cbn [map concat]. apply no_nul_app. split; [|done].
  destruct r; destruct Hr as (_ & Hz & _); cbn [pr_redir]; rewrite !no_nul_app; split_and!; (done || by repeat constructor).
Qed.

Lemma print_no_nul :
  (forall x, wf_x x -> no_nul (pr_x x)) /\ (forall p, wf_p p -> no_nul (pr_p p)) /\ (forall l, wf_l l -> no_nul (pr_l l)).
Proof.
  assert (forall n, no_nul (pr_amps n)) as Hamps.
  { induction n as [|n IH]; [constructor|]. unfold pr_amps. cbn [repeat concat]. apply no_nul_app. split; [by repeat constructor|done]. }
  apply x_mut; cbn [pr_x pr_p pr_l wf_x wf_p wf_l]; intros; rewrite ?no_nul_app.
  - destruct H as (H1 & H2 & _). split; [by apply pr_redirs_no_nul|]. induction H2 as [|[w rs'] args [Hw Hrs] _ IH]; [constructor|].
    unfold pr_args. cbn [map concat fst snd]. rewrite !no_nul_app. destruct Hw as (_ & Hz & _).
    split_and!; [done|by repeat constructor|by apply pr_redirs_no_nul|done].
  - destruct H0 as [Hl Hrs]. split_and!; [by repeat constructor|auto|by repeat constructor|by apply pr_redirs_no_nul].
  - auto.
  - destruct H1. split_and!; [auto|by repeat constructor|auto].
  - auto.
  - destruct H1. split_and!; [auto|done|by repeat constructor|auto].
Qed.

(** C37: the parser inverts printing: for every command of the grammar (pipelines,
    sequences, background jobs, blocks and redirections, nested to any depth, with
    at most nine arguments each) parsecmd() accepts its text, and the tree it
    builds is the one meant: the precedence of |, & and ; the nesting of
    redirections with their files and modes, and the arguments in order. *)
Theorem parse_print_roundtrip l :
  wf_l l -> exists c, parsecmd (pr_l l) = POk c (length (pr_l l)) /\ denote (pr_l l) c = tree_l l.
Proof.
  intros Hwf. pose proof (proj2 (proj2 print_no_nul) l Hwf) as Hz. set (buf := pr_l l) in *.
  destruct (proj2 (proj2 (parse_print buf Hz)) l Hwf (4 * length buf + 4)%nat 0%nat []) as (c & ps & E & D & Et).
  { by rewrite drop_0, app_nil_r. } { done. } { rewrite app_nil_r. fold buf. lia. }
  destruct (parse_ok buf Hz (4 * length buf + 4)%nat) as (Hok & _). specialize (Hok 0%nat ltac:(lia) ltac:(lia)). rewrite E in Hok.
  destruct Hok as [Hps _]. assert (ps = length buf) as ->.
  { apply (f_equal length) in D. rewrite length_drop in D. simpl in D. lia. }
  exists c. split; [|done]. unfold parsecmd. rewrite E. cbn [pbind]. rewrite (peek_at buf Hz _ [] "" D) by done.
  by rewrite Nat.eqb_refl.
Qed.

(** ( grep x < in | wc >> out & ) ; ls *)
Definition line_w : xline :=
  XSeq (XOne (XBlock (XLine (XPipe (XExec [] [(lit "grep", []); (lit "x", [RIn (lit "in")])])
    (XOne (XExec [] [(lit "wc", [RApp (lit "out")])]))) 1) [])) 0 (XLine (XOne (XExec [] [(lit "ls", [])])) 0).

Lemma parse_print_roundtrip_witness : exists c,
  parsecmd (lit "( grep x < in | wc >> out & ) ; ls ") = POk c 35 /\
  denote (lit "( grep x < in | wc >> out & ) ; ls ") c =
  SLIST (SBACK (SPIPE (SREDIR (SEXEC [lit "grep"; lit "x"]) (lit "in") 0 0) (SREDIR (SEXEC [lit "wc"]) (lit "out") 0x201 1)))
    (SEXEC [lit "ls"]).
Proof.
  apply (parse_print_roundtrip line_w).
  repeat (split || constructor); (discriminate || (vm_compute; lia) || reflexivity || idtac).
Defined.
