(* ===== verification/UMalloc.v ===== *)
(** * The user allocator (user/umalloc.c)

    Kernighan and Ritchie's allocator: a circular list of free blocks in address
    order, with a static header [base] of size 0 in it.  A block is a header of 16
    bytes and what follows it; sizes count headers.  malloc() takes the first block
    that fits, from the end of the block, or asks sbrk() for more; free() puts a
    block back and merges it with its neighbours.

    The headers are kept by address; what a program stores in the blocks it owns is
    not part of the state. *)

From S2P Require Import Prelude CString User.
Open Scope Z_scope.

Definition HDR : Z := 16.  (** sizeof(Header) *)

(** union header at each address, and the static pointer *)
Record arena := mkArena { hptr : Z -> Z; hsize : Z -> Z; freep : Z }.

Definition set_ptr (p v : Z) (a : arena) : arena := mkArena (hptr a).[p := v] (hsize a) (freep a).
Definition set_size (p v : Z) (a : arena) : arena := mkArena (hptr a) (hsize a).[p := v] (freep a).
Definition set_freep (v : Z) (a : arena) : arena := mkArena (hptr a) (hsize a) v.

(** p + n, in headers *)
Definition hadd (p n : Z) : Z := p + HDR * n.

(** The loop of free(): the block after which [bp] belongs *)
Definition free_slot (bp : Z) (a : arena) : prog Z :=
  while (fun p =>
    if (bp >? p) && (bp <? hptr a p) then Ret (inr p)
    else if (p >=? hptr a p) && ((bp >? p) || (bp <? hptr a p)) then Ret (inr p)
    else Ret (inl (hptr a p))) (freep a).

(** The rest of free(): merge with the next block, then with [p] *)
Definition free_link (bp p : Z) (a : arena) : arena :=
  let a :=
    if hadd bp (hsize a bp) =? hptr a p
    then set_ptr bp (hptr a (hptr a p)) (set_size bp (u32 (hsize a bp + hsize a (hptr a p))) a)
    else set_ptr bp (hptr a p) a in
  let a :=
    if hadd p (hsize a p) =? bp
    then set_ptr p (hptr a bp) (set_size p (u32 (hsize a p + hsize a bp)) a)
    else set_ptr p bp a in
  set_freep p a.

Definition free (ap : Z) (a : arena) : prog arena :=
  let bp := ap - HDR in
  let* p := free_slot bp a in
  Ret (free_link bp p a).

(** 0 when sbrk() fails *)
Definition morecore (nu : Z) (a : arena) : prog (Z * arena) :=
  let nu := if nu <? 4096 then 4096 else nu in
  let* p := sys (Sbrk (i32 (nu * HDR))) in
  if p =? -1 then Ret (0, a) else
  let a := set_size p nu a in
  let* a := free (hadd p 1) a in
  Ret (freep a, a).

(** The units malloc(nbytes) needs, with the header *)
Definition nunits (nbytes : Z) : Z := u32 ((nbytes + HDR - 1) / HDR + 1).

(** Taking [nu] units out of block [p], whose predecessor is [prevp] *)
Definition carve (prevp p nu : Z) (a : arena) : Z * arena :=
  if hsize a p =? nu
  then (p, set_ptr prevp (hptr a p) a)
  else
    let a := set_size p (u32 (hsize a p - nu)) a in
    let p' := hadd p (hsize a p) in
    (p', set_size p' nu a).

(** A round of the loop of malloc() *)
Definition malloc_round (nu : Z) (st : Z * Z * arena) : prog (Z * Z * arena + Z * arena) :=
  let '(prevp, p, a) := st in
  if hsize a p >=? nu then
    let '(p, a) := carve prevp p nu a in
    Ret (inr (hadd p 1, set_freep prevp a))
  else if p =? freep a then
    let* r := morecore nu a in
    let '(p, a) := r in
    if p =? 0 then Ret (inr (0, a)) else Ret (inl (p, hptr a p, a))
  else Ret (inl (p, hptr a p, a)).

(** [base] is the address of the static header. *)
Definition malloc (base nbytes : Z) (a : arena) : prog (Z * arena) :=
  let nu := nunits nbytes in
  let a := if freep a =? 0 then set_size base 0 (set_freep base (set_ptr base base a)) else a in
  let prevp := freep a in
  while (malloc_round nu) (prevp, hptr a prevp, a).

(** ** The system under the allocator *)

(** The world is the program break; sbrk() moves it, up to [limit], or fails. *)
Definition heap_halts (X : Type) (e : sysE X) (brk : Z) : option stop := None.

Definition heap_answers (limit : Z) (X : Type) (e : sysE X) (brk : Z) : X -> Z -> Prop :=
  match e in sysE X return X -> Z -> Prop with
  | Sbrk n => fun x brk' => x = -1 /\ brk' = brk \/ x = brk /\ brk' = brk + n /\ brk + n <= limit
  | _ => fun _ brk' => brk' = brk
  end.
