(* ===== verification/UMallocSpec.v ===== *)
(** * The allocator against the free memory

    [heap_ok a L brk]: the circular list from [base] goes through the blocks [L],
    in address order, apart from each other and below the break.  free() adds
    exactly the block it is given to the memory that is free, and malloc() takes
    exactly the block it returns out of it, growing the heap when it has to. *)

From S2P Require Import Prelude CString User UMalloc.
Open Scope Z_scope.

(** A free block: the address of its header and its size in headers. *)
Notation block := (Z * Z)%type.

(** The pointers from [p] go through the blocks of [N] and end at [r]. *)
Fixpoint lseg (a : arena) (p : Z) (N : list block) (r : Z) : Prop :=
  match N with
  | [] => hptr a p = r
  | (q, n) :: N' => hptr a p = q /\ hsize a q = n /\ lseg a q N' r
  end.

(** The last block of [N], or [p] *)
Fixpoint fin (p : Z) (N : list block) : Z :=
  match N with
  | [] => p
  | (q, _) :: N' => fin q N'
  end.

(** Blocks in address order above [lo] and up to [hi], not even adjacent. *)
Fixpoint sorted (lo : Z) (N : list block) (hi : Z) : Prop :=
  match N with
  | [] => lo <= hi
  | (q, n) :: N' => lo < q /\ 0 < n /\ sorted (q + HDR * n) N' hi
  end.

Definition covers (N : list block) (x : Z) : Prop := exists q n, (q, n) ∈ N /\ q <= x < q + HDR * n.

(** ** Lists of blocks *)

Lemma lseg_app a p X q n Y r : lseg a p (X ++ (q, n) :: Y) r <-> lseg a p X q /\ hsize a q = n /\ lseg a q Y r.
Proof. revert p. induction X as [|[x m] X IH]; intros p; simpl; [tauto|]. rewrite IH. tauto. Qed.

Lemma lseg_frame a a' p N r :
  (forall x, x ∈ p :: N.*1 -> hptr a' x = hptr a x) -> (forall x, x ∈ N.*1 -> hsize a' x = hsize a x) ->
  lseg a p N r -> lseg a' p N r.
Proof.
  revert p. induction N as [|[q n] N IH]; intros p Hp Hs; simpl.
  - intros <-. apply Hp. set_solver.
  - intros (H1 & H2 & H3). split_and!.
    + rewrite Hp; [done|set_solver].
    + rewrite Hs; [done|set_solver].
    + apply IH; [|set_solver|done]. intros x Hx. apply Hp. set_solver.
Qed.

(** The list from another start that points to the same place. *)
Lemma lseg_start a p p' N r : hptr a p' = hptr a p -> lseg a p N r -> lseg a p' N r.
Proof. destruct N as [|[q n] N]; simpl; by intros ->. Qed.

Lemma fin_app p X Y : fin p (X ++ Y) = fin (fin p X) Y.
Proof. revert p. induction X as [|[q n] X IH]; intros p; simpl; [done|apply IH]. Qed.

Lemma lseg_head a p N r : lseg a p N r -> hptr a p = hd r N.*1.
Proof. destruct N as [|[q n] N]; simpl; [done|by intros [-> _]]. Qed.

Lemma lseg_fin a p N r : lseg a p N r -> hptr a (fin p N) = r.
Proof. revert p. induction N as [|[q n] N IH]; intros p; simpl; [done|]. intros (_ & _ & H). by apply IH. Qed.

(** Where the blocks of a sorted list end. *)
Fixpoint top (lo : Z) (N : list block) : Z :=
  match N with
  | [] => lo
  | (q, n) :: N' => top (q + HDR * n) N'
  end.

Lemma sorted_app lo X Y hi : sorted lo (X ++ Y) hi <-> sorted lo X (top lo X) /\ sorted (top lo X) Y hi.
Proof.
  revert lo. induction X as [|[q n] X IH]; intros lo; simpl.
  - split; [|tauto]. intros H. split; [lia|done].
  - rewrite IH. tauto.
Qed.

Lemma sorted_top lo N hi : sorted lo N hi -> lo <= top lo N <= hi.
Proof.
  revert lo. induction N as [|[q n] N IH]; intros lo; simpl; [lia|]. intros (H1 & H2 & H3). apply IH in H3. unfold HDR in *. lia.
Qed.

Lemma sorted_weaken lo lo' N hi hi' : lo' <= lo -> hi <= hi' -> sorted lo N hi -> sorted lo' N hi'.
Proof. revert lo lo'. induction N as [|[q n] N IH]; intros lo lo' H1 H2; simpl; [lia|]. intros (? & ? & H). split_and!; [lia|done|]. eapply IH; [|done|done]. lia. Qed.

Lemma sorted_elem lo N hi q n : sorted lo N hi -> (q, n) ∈ N -> lo < q /\ 0 < n /\ q + HDR * n <= hi.
Proof.
  revert lo. induction N as [|[q' n'] N IH]; intros lo; simpl; [by intros _ ?%elem_of_nil|].
  intros (H1 & H2 & H3) [[= <- <-]|Hin]%elem_of_cons.
  - apply sorted_top in H3. lia.
  - destruct (IH _ H3 Hin). unfold HDR in *. lia.
Qed.

Lemma sorted_addr lo N hi x : sorted lo N hi -> x ∈ N.*1 -> lo < x < hi.
Proof.
  intros Hs ([q n] & -> & Hin)%list_elem_of_fmap. destruct (sorted_elem _ _ _ _ _ Hs Hin) as (? & ? & ?). unfold HDR in *. simpl. lia.
Qed.

Lemma covers_nil x : covers [] x <-> False.
Proof. split; [|done]. by intros (q & n & ?%elem_of_nil & _). Qed.

Lemma covers_cons q n N x : covers ((q, n) :: N) x <-> q <= x < q + HDR * n \/ covers N x.
Proof.
  split.
  - intros (q' & n' & [[= -> ->]|Hin]%elem_of_cons & Hx); [by left|]. right. by exists q', n'.
  - intros [Hx|(q' & n' & Hin & Hx)]; [exists q, n|exists q', n']; (split; [set_solver|done]).
Qed.

Lemma covers_app X Y x : covers (X ++ Y) x <-> covers X x \/ covers Y x.
Proof.
  induction X as [|[q n] X IH]; cbn [app]; [rewrite covers_nil; tauto|]. rewrite !covers_cons, IH. tauto.
Qed.

(** The address of a block is memory of the block. *)
Lemma covers_addr lo N hi q n : sorted lo N hi -> (q, n) ∈ N -> covers N q.
Proof. intros Hs Hin. exists q, n. split; [done|]. destruct (sorted_elem _ _ _ _ _ Hs Hin) as (_ & ? & _). unfold HDR. lia. Qed.

(** A block apart from a sorted list splits it. *)
Lemma split_disjoint lo N hi bp m :
  sorted lo N hi -> lo < bp -> 0 < m -> bp + HDR * m <= hi -> (forall x, bp <= x < bp + HDR * m -> ~ covers N x) ->
  exists A B, N = A ++ B /\ top lo A <= bp /\ sorted lo A (top lo A) /\ (sorted (bp + HDR * m - 1) B hi).
Proof.
  revert lo. induction N as [|[q n] N IH]; intros lo Hs Hlo Hm Hhi Hd.
  - exists [], []. simpl. split_and!; try done; lia.
  - simpl in Hs. destruct Hs as (H1 & H2 & H3). destruct (decide (q < bp)) as [Hq|Hq].
    + destruct (decide (q + HDR * n <= bp)) as [Hle|Hgt].
      * assert (q + HDR * n = bp \/ q + HDR * n < bp) as [He|Hl] by lia.
        -- exists [(q, n)], N. cbn [top app sorted]. split_and!; try done; try lia.
           destruct N as [|[q' n'] N]; simpl in *; [lia|]. destruct H3 as (? & ? & ?). split_and!; try done.
           destruct (decide (q' < bp + HDR * m)); [|lia]. exfalso.
           apply (Hd q'); [lia|]. apply covers_cons. right. apply covers_cons. left. unfold HDR in *. lia.
        -- destruct (IH (q + HDR * n) H3 Hl Hm Hhi) as (A & B & -> & HA1 & HA2 & HB).
           { intros x Hx Hc. apply (Hd x Hx). apply covers_cons. by right. }
           exists ((q, n) :: A), B. cbn [top app sorted]. done.
      * exfalso. apply (Hd bp); [unfold HDR in *; lia|]. apply covers_cons. left. lia.
    + exists [], ((q, n) :: N). cbn [top app sorted]. split_and!; try done; try lia.
      destruct (decide (q < bp + HDR * m)); [|lia]. exfalso. apply (Hd q); [lia|]. apply covers_cons. left. unfold HDR in *. lia.
Qed.

Section Heap.
Context (base : Z) (Hbase : 0 < base).

Record heap_ok (a : arena) (L : list block) (brk : Z) : Prop := {
  ho_base : hsize a base = 0;
  ho_list : lseg a base L base;
  ho_sorted : sorted (base + HDR - 1) L brk;
  ho_freep : freep a ∈ base :: L.*1;
}.

(** ** free() *)

Section Slot.
Context {W : Type} (halts : forall X, sysE X -> W -> option stop) (answers : forall X, sysE X -> W -> X -> W -> Prop).
Context (a : arena) (A B : list block) (bp brk : Z).
Hypothesis Hlist : lseg a base (A ++ B) base.
Hypothesis HA : Forall (fun b : block => base < b.1 < bp) A.
Hypothesis HB : Forall (fun b : block => bp < b.1) B.
Hypothesis Hord : sorted (base + HDR - 1) (A ++ B) brk.
Hypothesis Hbp : base < bp.

Notation body := (fun p : Z =>
  if (bp >? p) && (bp <? hptr a p) then Ret (inr p)
  else if (p >=? hptr a p) && ((bp >? p) || (bp <? hptr a p)) then Ret (inr p)
  else Ret (inl (hptr a p)) : prog (Z + Z)).

Lemma fin_lt X : Forall (fun b : block => base < b.1 < bp) X -> base <= fin base X < bp.
Proof.
  intros H. destruct X as [|b X _] using rev_ind; [simpl; lia|]. rewrite fin_app. destruct b as [q n]. simpl.
  apply Forall_app in H as [_ H]. apply Forall_cons in H as [H _]. simpl in H. lia.
Qed.

(** From a block before the place, the loop walks to it. *)
Lemma slot_below X Z (Q : BinNums.Z + stop -> W -> Prop) w :
  A = X ++ Z -> Q (inl (fin base A)) w -> uwp halts answers Q (while body (fin base X)) w.
Proof.
  revert X. induction Z as [|[q n] Z IH]; intros X HX HQ; apply uwp_while_step.
  - rewrite app_nil_r in HX. subst X. pose proof (fin_lt A HA) as Hp.
    assert (hptr a (fin base A) = hd base B.*1) as Hn.
    { clear -Hlist. revert Hlist. generalize base at 1 3 as p. induction A as [|[q n] A' IH]; intros p; simpl; [apply lseg_head|].
      intros (_ & _ & H). by apply IH. }
    rewrite Hn. destruct B as [|[q n] B']; cbn [fmap list_fmap hd fst].
    + rewrite (proj2 (Z.ltb_ge bp base)) by lia. rewrite andb_false_r.
      replace ((fin base A >=? base) && ((bp >? fin base A) || false)) with true by (symmetry; rewrite Z.geb_leb, Z.gtb_ltb; apply andb_true_iff; split; [apply Z.leb_le; lia|apply orb_true_iff; left; apply Z.ltb_lt; lia]).
      by apply uwp_Ret.
    + apply Forall_cons in HB as [Hq _]. simpl in Hq.
      replace ((bp >? fin base A) && (bp <? q)) with true by (symmetry; rewrite Z.gtb_ltb; apply andb_true_iff; split; apply Z.ltb_lt; lia).
      by apply uwp_Ret.
  - assert (hptr a (fin base X) = q /\ fin base X < q) as [Hn Hlt].
    { rewrite HX, <- app_assoc in Hlist. cbn [app] in Hlist. apply lseg_app in Hlist as (H1 & _ & _). split; [by apply lseg_fin in H1|].
      rewrite HX, <- app_assoc in Hord. apply sorted_app in Hord as [H2 H3]. cbn [app sorted] in H3. destruct H3 as [H3 _].
      clear -H2 H3. destruct X as [|[x m] X _] using rev_ind; [simpl in *; unfold HDR in *; lia|].
      rewrite fin_app. simpl. destruct (sorted_elem _ _ _ x m H2) as (_ & ? & ?); [set_solver|]. unfold HDR in *. lia. }
    rewrite Hn. assert (q < bp) as Hqb.
    { rewrite HX in HA. apply Forall_app in HA as [_ H]. apply Forall_cons in H as [H _]. simpl in H. lia. }
    rewrite (proj2 (Z.ltb_ge bp q)), andb_false_r by lia. rewrite Z.geb_leb, (proj2 (Z.leb_gt q (fin base X))) by lia. cbn [andb].
    apply uwp_Ret. replace q with (fin base (X ++ [(q, n)])) by (by rewrite fin_app). apply IH; [by rewrite <- app_assoc|done].
Qed.

(** From a block after the place, it goes round. *)
Lemma slot_above X Z (Q : BinNums.Z + stop -> W -> Prop) w :
  B = X ++ Z -> X <> [] -> Q (inl (fin base A)) w -> uwp halts answers Q (while body (fin base (A ++ X))) w.
Proof.
  revert X. induction Z as [|[q n] Z IH]; intros X HX Hne HQ; apply uwp_while_step; set (p := fin base (A ++ X)).
  all: assert (bp < p) as Hp by (subst p; rewrite fin_app; destruct X as [|[x m] X _] using rev_ind; [done|];
    rewrite fin_app; simpl; rewrite HX, !Forall_app in HB; destruct HB as [[_ H] _]; apply Forall_cons in H as [H _]; simpl in H; lia).
  - rewrite app_nil_r in HX. subst X. assert (hptr a p = base) as Hn by (by apply lseg_fin).
    rewrite Hn. rewrite Z.gtb_ltb, (proj2 (Z.ltb_ge p bp)), (proj2 (Z.ltb_ge bp base)) by lia. cbn [andb orb]. rewrite andb_false_r.
    apply uwp_Ret. change base with (fin base []). by apply (slot_below [] A).
  - assert (hptr a p = q /\ p < q) as [Hn Hlt].
    { rewrite HX, app_assoc in Hlist. apply lseg_app in Hlist as (H1 & _ & _). split; [by apply lseg_fin in H1|].
      rewrite HX, app_assoc in Hord. apply sorted_app in Hord as [H2 H3]. cbn [sorted] in H3. destruct H3 as [H3 _].
      subst p. destruct X as [|[x m] X _] using rev_ind; [done|]. rewrite app_assoc, fin_app. rewrite app_assoc in H2, H3. simpl.
      destruct (sorted_elem _ _ _ x m H2) as (_ & ? & ?); [set_solver|]. unfold HDR in *. lia. }
    rewrite Hn, Z.gtb_ltb, (proj2 (Z.ltb_ge p bp)), Z.geb_leb, (proj2 (Z.leb_gt q p)) by lia. cbn [andb].
    apply uwp_Ret. replace q with (fin base (A ++ (X ++ [(q, n)]))) by (by rewrite !fin_app).
    apply IH; [by rewrite <- app_assoc|by destruct X|done].
Qed.

Lemma free_slot_run (Q : BinNums.Z + stop -> W -> Prop) w :
  freep a ∈ base :: (A ++ B).*1 -> Q (inl (fin base A)) w -> uwp halts answers Q (free_slot bp a) w.
Proof.
  intros Hf HQ. unfold free_slot. rewrite fmap_app in Hf. apply elem_of_cons in Hf as [->|[Hf|Hf]%elem_of_app].
  - by apply (slot_below [] A).
  - apply list_elem_of_fmap in Hf as ([q n] & -> & Hin). apply list_elem_of_split in Hin as (X & Z & E).
    replace (fst (q, n)) with (fin base (X ++ [(q, n)])) by (by rewrite fin_app).
    apply (slot_below _ Z); [by rewrite E, <- app_assoc|done].
  - apply list_elem_of_fmap in Hf as ([q n] & -> & Hin). apply list_elem_of_split in Hin as (X & Z & E).
    replace (fst (q, n)) with (fin base (A ++ (X ++ [(q, n)]))) by (by rewrite !fin_app).
    apply (slot_above _ Z); [by rewrite E, <- app_assoc|by destruct X|done].
Qed.
End Slot.

(** Merging with the next block: from the new block on, the list is in order. *)
Lemma link_next a p B bp m brk :
  lseg a p B base -> hsize a bp = m -> 0 < m -> base < bp -> sorted (bp + HDR * m - 1) B brk -> bp + HDR * m <= brk -> brk <= 2 ^ 32 ->
  bp <> p ->
  exists m1 B1 a1,
    a1 = (if hadd bp (hsize a bp) =? hptr a p
          then set_ptr bp (hptr a (hptr a p)) (set_size bp (u32 (hsize a bp + hsize a (hptr a p))) a)
          else set_ptr bp (hptr a p) a) /\
    m <= m1 /\ hsize a1 bp = m1 /\ lseg a1 bp B1 base /\ sorted (bp + HDR * m1) B1 brk /\
    (forall x, covers ((bp, m1) :: B1) x <-> bp <= x < bp + HDR * m \/ covers B x) /\
    (forall x, x <> bp -> hptr a1 x = hptr a x /\ hsize a1 x = hsize a x) /\ freep a1 = freep a.
Proof.
  intros Hl Hm Hm0 Hbp Hs Hhi Hbrk Hne. pose proof (lseg_head _ _ _ _ Hl) as Hh. unfold hadd. rewrite Hm.
  assert (forall B', (forall x, x ∈ B'.*1 -> bp < x) -> lseg a p B' base -> forall a1, hptr a1 bp = hptr a p ->
    (forall x, x <> bp -> hptr a1 x = hptr a x /\ hsize a1 x = hsize a x) -> lseg a1 bp B' base) as Hmove.
  { intros B' HB Hl' a1 H1 H2. destruct B' as [|[q k] B']; simpl in *; [congruence|]. destruct Hl' as (E1 & E2 & E3).
    assert (bp < q) by (apply HB; set_solver). split_and!; [congruence|rewrite (proj2 (H2 q ltac:(lia))); done|].
    eapply lseg_frame; [| |exact E3]; intros x Hx; apply H2; apply elem_of_cons in Hx || idtac.
    - destruct Hx as [->|Hx]; [lia|]. assert (bp < x) by (apply HB; set_solver). lia.
    - assert (bp < x) by (apply HB; set_solver). lia. }
  destruct (Z.eqb_spec (bp + HDR * m) (hptr a p)) as [E|E].
  - destruct B as [|[q k] B]; simpl in Hh; [unfold HDR in *; lia|]. simpl in Hl, Hs. destruct Hl as (E1 & E2 & E3). destruct Hs as (S1 & S2 & S3).
    pose proof (sorted_top _ _ _ S3) as Htop. rewrite E1, E2. assert (q = bp + HDR * m) as Hq by lia.
    rewrite u32_small by (unfold HDR in *; lia). exists (m + k), B. eexists. split_and!; [reflexivity|lia| | | | | |].
    + simpl. apply fupd_eq.
    + assert (forall x, x ∈ B.*1 -> bp < x) as HB.
      { intros x Hx. destruct (sorted_addr _ _ _ _ S3 Hx). unfold HDR in *. lia. }
      assert (lseg (set_ptr bp (hptr a q) (set_size bp (m + k) a)) q B base) as Hq2.
      { eapply lseg_frame; [| |exact E3]; intros x Hx; simpl; apply fupd_ne; apply elem_of_cons in Hx || idtac.
        - destruct Hx as [->|Hx]; [unfold HDR in *; lia|]. specialize (HB x Hx). lia.
        - specialize (HB x Hx). lia. }
      eapply lseg_start; [|exact Hq2]. simpl. rewrite fupd_eq, fupd_ne by (unfold HDR in *; lia). done.
    + replace (bp + HDR * (m + k)) with (q + HDR * k) by lia. done.
    + intros x. rewrite !covers_cons. unfold HDR in *. split; intros [H|H]; [|by right; right| |].
      * destruct (decide (x < bp + 16 * m)); [left; lia|right; left; lia].
      * left. lia.
      * destruct H; [left; lia|by right].
    + intros x Hx. simpl. by rewrite !fupd_ne.
    + done.
  - exists m, B. eexists. split_and!; [reflexivity|lia|done| | | | |done].
    + apply Hmove; [| done|simpl; apply fupd_eq|intros x Hx; simpl; by rewrite fupd_ne].
      intros x Hx. destruct (sorted_addr _ _ _ _ Hs Hx). unfold HDR in *. lia.
    + destruct B as [|[q k] B]; simpl in *; [lia|]. destruct Hs as (S1 & S2 & S3). split_and!; [lia|done|done].
    + intros x. by rewrite covers_cons.
    + intros x Hx. simpl. by rewrite fupd_ne.
Qed.

(** What the last two statements of free() do. *)
Definition link_prev (bp p : Z) (a : arena) : arena :=
  set_freep p (if hadd p (hsize a p) =? bp
               then set_ptr p (hptr a bp) (set_size p (u32 (hsize a p + hsize a bp)) a)
               else set_ptr p bp a).

(** Into the empty part of the list before [bp]. *)
Lemma link_prev_base a bp m B brk :
  hsize a base = 0 -> base + HDR <= bp -> 0 < m -> hsize a bp = m -> lseg a bp B base -> sorted (bp + HDR * m) B brk ->
  heap_ok (link_prev bp base a) ((bp, m) :: B) brk.
Proof.
  intros H0 Hbp Hm Hsz Hl Hs. unfold link_prev, hadd. rewrite H0. rewrite (proj2 (Z.eqb_neq _ _)) by (unfold HDR in *; lia).
  assert (forall x, x ∈ bp :: B.*1 -> x <> base) as Hnb.
  { intros x [->|Hx]%elem_of_cons; [unfold HDR in *; lia|]. destruct (sorted_addr _ _ _ _ Hs Hx). unfold HDR in *. lia. }
  split.
  - done.
  - simpl. rewrite fupd_eq. split_and!; [done|done|].
    eapply lseg_frame; [| |exact Hl]; intros x Hx; simpl; [|done]. apply fupd_ne. by apply Hnb.
  - simpl. split_and!; [lia|done|done].
  - simpl. set_solver.
Qed.

(** After the block [(p, n)], merging with it when it ends at [bp]. *)
Lemma link_prev_block a bp m A p n B brk :
  hsize a base = 0 -> lseg a base A p -> hsize a p = n -> sorted (base + HDR - 1) (A ++ [(p, n)]) bp ->
  0 < m -> hsize a bp = m -> lseg a bp B base -> sorted (bp + HDR * m) B brk -> brk <= 2 ^ 32 ->
  exists L', heap_ok (link_prev bp p a) L' brk /\
    (forall x, covers L' x <-> covers (A ++ (p, n) :: (bp, m) :: B) x) /\ (exists q k, (q, k) ∈ L' /\ m <= k) /\
    (forall x, x <> p -> hsize (link_prev bp p a) x = hsize a x).
Proof.
  intros H0 HlA Hn HsA Hm Hsz Hl Hs Hbrk. pose proof (sorted_top _ _ _ Hs) as Htop.
  destruct (sorted_elem _ _ _ p n HsA ltac:(set_solver)) as (P1 & P2 & P3).
  apply sorted_app in HsA as HsA'. destruct HsA' as [SA1 SA2]. simpl in SA2.
  assert (forall x, x ∈ bp :: B.*1 -> p < x) as Hgt.
  { intros x [->|Hx]%elem_of_cons; [unfold HDR in *; lia|]. destruct (sorted_addr _ _ _ _ Hs Hx). unfold HDR in *. lia. }
  assert (forall x, x ∈ base :: A.*1 -> x < p) as Hlt.
  { intros x [->|Hx]%elem_of_cons; [unfold HDR in *; lia|]. destruct (sorted_addr _ _ _ _ SA1 Hx). lia. }
  unfold link_prev, hadd. rewrite Hn, Hsz. destruct (Z.eqb_spec (p + HDR * n) bp) as [E|E].
  - rewrite u32_small by (unfold HDR in *; lia). exists (A ++ (p, n + m) :: B). split_and!.
    + split; simpl.
      * rewrite fupd_ne; [done|]. assert (base < p) by (apply Hlt; set_solver). lia.
      * apply lseg_app. split_and!.
        -- eapply lseg_frame; [| |exact HlA]; intros x Hx; simpl; apply fupd_ne; assert (x < p) by (apply Hlt; set_solver); lia.
        -- simpl. apply fupd_eq.
        -- eapply lseg_frame with (a := set_ptr p (hptr a bp) a); [done| |].
           ++ intros x Hx. simpl. apply fupd_ne. assert (p < x) by (apply Hgt; set_solver). lia.
           ++ apply lseg_start with (p := bp); [simpl; rewrite fupd_eq, fupd_ne by (unfold HDR in *; lia); done|].
              eapply lseg_frame; [| |exact Hl]; intros x Hx; simpl; [|done]. apply fupd_ne. assert (p < x) by (by apply Hgt). lia.
      * apply sorted_app. split; [done|]. cbn [sorted]. split_and!; [lia|lia|].
        replace (p + HDR * (n + m)) with (bp + HDR * m) by lia. done.
      * rewrite fmap_app. set_solver.
    + intros x. rewrite !covers_app, !covers_cons. unfold HDR in *.
      assert (p <= x < p + 16 * (n + m) <-> p <= x < p + 16 * n \/ bp <= x < bp + 16 * m) as -> by lia. tauto.
    + exists p, (n + m). split; [set_solver|lia].
    + intros x Hx. simpl. by rewrite fupd_ne.
  - exists (A ++ (p, n) :: (bp, m) :: B). split_and!; [|done| |done].
    + split; simpl.
      * done.
      * apply lseg_app. split_and!; [|done|].
        -- eapply lseg_frame; [| |exact HlA]; intros x Hx; simpl; [|done]. apply fupd_ne. assert (x < p) by (by apply Hlt). lia.
        -- simpl. rewrite fupd_eq. split_and!; [done|done|].
           eapply lseg_frame; [| |exact Hl]; intros x Hx; simpl; [|done]. apply fupd_ne. assert (p < x) by (by apply Hgt). lia.
      * apply sorted_app. split; [done|]. cbn [sorted]. split_and!; try done; lia.
      * rewrite fmap_app. set_solver.
    + exists bp, m. split; [set_solver|lia].
Qed.

(** free() on a block apart from the free ones. *)
Lemma free_link_ok a A B bp m brk :
  heap_ok a (A ++ B) brk -> hsize a bp = m -> 0 < m -> base + HDR <= bp -> bp + HDR * m <= brk -> brk <= 2 ^ 32 ->
  top (base + HDR - 1) A <= bp -> sorted (base + HDR - 1) A (top (base + HDR - 1) A) -> sorted (bp + HDR * m - 1) B brk ->
  exists L', heap_ok (free_link bp (fin base A) a) L' brk /\
    (forall x, covers L' x <-> covers (A ++ B) x \/ bp <= x < bp + HDR * m) /\ (exists q k, (q, k) ∈ L' /\ m <= k) /\
    (forall x, x <> bp -> ~ covers (A ++ B) x -> hsize (free_link bp (fin base A) a) x = hsize a x).
Proof.
  intros [H0 Hl Hs Hf] Hm Hm0 Hbp Hhi Hbrk HtA HsA HsB.
  destruct A as [|[p n] A _] using rev_ind.
  - cbn [app fin] in *. destruct (link_next a base B bp m brk Hl Hm Hm0) as (m1 & B1 & a1 & Ea & M1 & M2 & M3 & M4 & M5 & M6 & M7);
      try (unfold HDR in *; done || lia).
    exists ((bp, m1) :: B1). unfold free_link. rewrite <- Ea. fold (link_prev bp base a1).
    assert (base <> bp) as Hne by (unfold HDR in *; lia). split_and!.
    + apply link_prev_base; try done; [|lia]. by rewrite (proj2 (M6 base Hne)).
    + intros x. rewrite M5. tauto.
    + exists bp, m1. split; [set_solver|done].
    + intros x Hx Hc. unfold link_prev, hadd. rewrite (proj2 (M6 base Hne)), H0, (proj2 (Z.eqb_neq _ _)) by (unfold HDR in *; lia). simpl.
      by apply M6.
  - rewrite <- app_assoc in Hl, Hs. cbn [app] in Hl, Hs. rewrite fin_app. cbn [fin]. apply lseg_app in Hl as (Hl1 & Hl2 & Hl3).
    rewrite <- app_assoc in Hf. cbn [app] in Hf.
    assert (sorted (base + HDR - 1) (A ++ [(p, n)]) bp) as HsA' by (eapply sorted_weaken; [| |exact HsA]; lia).
    destruct (sorted_elem _ _ _ p n HsA' ltac:(set_solver)) as (P1 & P2 & P3). assert (p <> bp) as Hpb by (unfold HDR in *; lia).
    destruct (link_next a p B bp m brk Hl3 Hm Hm0) as (m1 & B1 & a1 & Ea & M1 & M2 & M3 & M4 & M5 & M6 & M7);
      try (unfold HDR in *; done || lia).
    apply sorted_app in HsA' as [SA1 SA2].
    assert (forall x, x ∈ base :: A.*1 -> x <> bp) as Hnb.
    { intros x [->|Hx]%elem_of_cons; [unfold HDR in *; lia|]. destruct (sorted_addr _ _ _ _ SA1 Hx).
      simpl in SA2. unfold HDR in *. lia. }
    destruct (link_prev_block a1 bp m1 A p n B1 brk) as (L' & K1 & K2 & (q & k & K3 & K4) & K5); try done; try lia.
    + rewrite (proj2 (M6 base (Hnb base ltac:(set_solver)))). done.
    + eapply lseg_frame; [| |exact Hl1]; intros x Hx; apply M6, Hnb; set_solver.
    + by rewrite (proj2 (M6 p Hpb)).
    + eapply sorted_weaken; [| |exact HsA]; lia.
    + exists L'. unfold free_link. rewrite <- Ea. fold (link_prev bp p a1). split_and!; [done| | |].
      * intros x. rewrite K2, !covers_app, (covers_cons p n ((bp, m1) :: B1)), M5, (covers_cons p n []), covers_nil. tauto.
      * exists q, k. split; [done|lia].
      * intros x Hx Hc. rewrite K5; [by apply M6|]. intros ->. apply Hc. rewrite <- app_assoc. apply covers_app. right. apply covers_cons. left.
        unfold HDR in *. lia.
Qed.

Section Runs.
Context {W : Type} (halts : forall X, sysE X -> W -> option stop) (answers : forall X, sysE X -> W -> X -> W -> Prop).

(** A block the program owns: apart from the free memory and within the heap. *)
Definition owned (L : list block) (brk bp m : Z) : Prop :=
  0 < m /\ base + HDR <= bp /\ bp + HDR * m <= brk /\ forall x, bp <= x < bp + HDR * m -> ~ covers L x.

Lemma runs_free (Q : arena + stop -> W -> Prop) a L bp m brk w :
  heap_ok a L brk -> hsize a bp = m -> owned L brk bp m -> brk <= 2 ^ 32 ->
  (forall a' L', heap_ok a' L' brk -> (forall x, covers L' x <-> covers L x \/ bp <= x < bp + HDR * m) ->
     (exists q k, (q, k) ∈ L' /\ m <= k) ->
     (forall x, x <> bp -> ~ covers L x -> hsize a' x = hsize a x) -> Q (inl a') w) ->
  uwp halts answers Q (free (bp + HDR) a) w.
Proof.
  intros Hok Hsz (Hm & Hlo & Hhi & Hd) Hbrk HQ. pose proof Hok as [H0 Hl Hs Hf].
  destruct (split_disjoint _ _ _ bp m Hs ltac:(lia) Hm Hhi Hd) as (A & B & -> & HA & HsA & HsB).
  unfold free. replace (bp + HDR - HDR) with bp by lia. apply uwp_bind.
  apply (free_slot_run halts answers a A B bp brk); try done; [| |unfold HDR in *; lia|].
  - apply Forall_forall. intros [q n] Hin. destruct (sorted_elem _ _ _ _ _ HsA Hin) as (? & ? & ?). unfold HDR in *. simpl. lia.
  - apply Forall_forall. intros [q n] Hin. destruct (sorted_elem _ _ _ _ _ HsB Hin) as (? & ? & ?). unfold HDR in *. simpl. lia.
  - apply uwp_Ret. destruct (free_link_ok a A B bp m brk) as (L' & K1 & K2 & K3 & K4); try done. by eapply HQ.
Qed.

(** *** malloc() *)

(** The ring from the block after [freep] round to it. *)
Lemma ring_lseg a F G : hsize a base = 0 -> lseg a base (F ++ G) base ->
  exists r, lseg a (fin base F) (G ++ (base, 0) :: F) r.
Proof.
  intros H0 Hl. assert (forall p, lseg a p (F ++ G) base -> lseg a (fin p F) G base /\ exists r, lseg a p F r) as H.
  { clear. induction F as [|[q n] F IH]; intros p; simpl; [intros H; split; [done|by eexists]|]. intros (H1 & H2 & H3).
    destruct (IH _ H3) as (H4 & r & H5). split; [done|]. by exists r. }
  destruct (H base Hl) as (H1 & r & H2). exists r. by apply lseg_app.
Qed.

Lemma fin_elem p N : N <> [] -> fin p N ∈ N.*1.
Proof. intros H. destruct N as [|[q n] N _] using rev_ind; [done|]. rewrite fin_app, fmap_app. simpl. set_solver. Qed.

Lemma sorted_nodup lo N hi : sorted lo N hi -> NoDup N.*1.
Proof.
  revert lo. induction N as [|[q n] N IH]; intros lo; simpl; [constructor|]. intros (H1 & H2 & H3). constructor; [|by eapply IH].
  intros Hin. destruct (sorted_addr _ _ _ _ H3 Hin). unfold HDR in *. lia.
Qed.

Lemma ring_nodup a L brk F G : heap_ok a L brk -> L = F ++ G -> NoDup (G ++ (base, 0) :: F).*1.
Proof.
  intros [_ _ Hs _] ->. assert (NoDup (base :: (F ++ G).*1)) as Hnd.
  { constructor; [|by eapply sorted_nodup]. intros Hin. destruct (sorted_addr _ _ _ _ Hs Hin). unfold HDR in *. lia. }
  rewrite fmap_app in *. rewrite fmap_cons. eapply NoDup_Permutation_proper; [|exact Hnd]. simpl.
  rewrite <- Permutation_middle. by rewrite (Permutation_app_comm (G.*1)).
Qed.

(** Splitting the ring splits the list, and the block before [p] is its predecessor. *)
Lemma ring_split F G V p n R :
  G ++ (base, 0) :: F = V ++ (p, n) :: R -> p <> base ->
  exists A B, F ++ G = A ++ (p, n) :: B /\ fin (fin base F) V = fin base A.
Proof.
  intros E Hne. apply app_eq_inv in E as [(k & E1 & E2)|(k & E1 & E2)].
  - destruct k as [|[x m] k]; simpl in *; simplify_eq. exists (F ++ V), k. rewrite <- app_assoc. split; [done|]. by rewrite fin_app.
  - destruct k as [|[x m] k]; simpl in *; simplify_eq. exists k, (R ++ G). rewrite <- app_assoc. split; [done|].
    by rewrite !fin_app.
Qed.

Lemma walk (Q : Z * arena + stop -> W -> Prop) nu a L brk F G V p n R w :
  heap_ok a L brk -> L = F ++ G -> freep a = fin base F -> 0 < nu ->
  G ++ (base, 0) :: F = V ++ (p, n) :: R -> Forall (fun b : block => b.2 < nu) V ->
  (forall A q k B, L = A ++ (q, k) :: B -> nu <= k ->
     Q (inl (hadd (carve (fin base A) q nu a).1 1, set_freep (fin base A) (carve (fin base A) q nu a).2)) w) ->
  (Forall (fun b : block => b.2 < nu) L ->
     uwp halts answers (fun o w' => match o with
         | inl (inl st) => uwp halts answers Q (while (malloc_round nu) st) w'
         | inl (inr b) => Q (inl b) w'
         | inr s => Q (inr s) w'
         end)
       (let* r := morecore nu a in
        let '(p, a) := r in
        if p =? 0 then Ret (inr (0, a)) else Ret (inl (p, hptr a p, a))) w) ->
  uwp halts answers Q (while (malloc_round nu) (fin (freep a) V, p, a)) w.
Proof.
  intros Hok HL Hf Hnu E HV Hfound Hend. revert V p n E HV. induction R as [|[q k] R IH]; intros V p n E HV.
  all: pose proof Hok as [H0 Hl _ _]; rewrite HL in Hl; destruct (ring_lseg a F G H0 Hl) as (r & Hring).
  all: rewrite <- Hf, E in Hring; apply lseg_app in Hring as (_ & Hsz & Hnext); apply uwp_while_step; cbn [malloc_round]; rewrite Hsz.
  all: rewrite Z.geb_leb; destruct (Z.leb_spec nu n) as [Hle|Hgt].
  1, 3: assert (p <> base) as Hpb by (intros ->; lia); destruct (ring_split _ _ _ _ _ _ E Hpb) as (A & B & E' & Efin);
    specialize (Hfound A p n B ltac:(congruence) Hle); rewrite Hf, Efin; destruct (carve (fin base A) p nu a) as [p' a'];
    by apply uwp_Ret.
  - assert (p = freep a) as ->.
    { apply (f_equal (fin (freep a))) in E. rewrite !fin_app in E. simpl in E. congruence. }
    rewrite Z.eqb_refl. apply Hend.
    assert (Forall (fun b : block => b.2 < nu) (G ++ (base, 0) :: F)) as Hall by (rewrite E; apply Forall_app; split; [done|by repeat constructor]).
    subst L. apply Forall_app in Hall as [HG HF]. apply Forall_cons in HF as [_ HF]. by apply Forall_app.
  - rewrite (proj2 (Z.eqb_neq p (freep a))).
    2: { intros ->. pose proof (ring_nodup a L brk F G Hok HL) as Hnd. rewrite E, fmap_app in Hnd.
         apply NoDup_app in Hnd as (_ & _ & Hnd). rewrite fmap_cons in Hnd. apply NoDup_cons in Hnd as [Hnd _]. apply Hnd. simpl.
         apply (f_equal (fin (freep a))) in E. rewrite fin_app in E. cbn [fin] in E. rewrite <- Hf in E. rewrite E, fin_app. cbn [fin].
         change (fin q R) with (fin (freep a) ((q, k) :: R)). by apply fin_elem. }
    apply uwp_Ret. apply lseg_head in Hnext as Hh. simpl in Hh. rewrite Hh.
    replace p with (fin (freep a) (V ++ [(p, n)])) at 1 by (by rewrite fin_app).
    apply (IH (V ++ [(p, n)]) q k); [by rewrite <- app_assoc|]. apply Forall_app. split; [done|]. by repeat constructor.
Qed.

(** The position of [freep] in the list. *)
Lemma freep_split a L brk : heap_ok a L brk -> exists F G, L = F ++ G /\ freep a = fin base F.
Proof.
  intros [_ _ _ [->|([q n] & -> & (X & Y & ->)%list_elem_of_split)%list_elem_of_fmap]%elem_of_cons].
  - by exists [], L.
  - exists (X ++ [(q, n)]), Y. split; [by rewrite <- app_assoc|by rewrite fin_app].
Qed.

(** A whole tour of the list: a block that fits is found, or all are too small. *)
Lemma tour (Q : Z * arena + stop -> W -> Prop) nu a L brk w :
  heap_ok a L brk -> 0 < nu ->
  (forall A q k B, L = A ++ (q, k) :: B -> nu <= k ->
     Q (inl (hadd (carve (fin base A) q nu a).1 1, set_freep (fin base A) (carve (fin base A) q nu a).2)) w) ->
  (Forall (fun b : block => b.2 < nu) L ->
     uwp halts answers (fun o w' => match o with
         | inl (inl st) => uwp halts answers Q (while (malloc_round nu) st) w'
         | inl (inr b) => Q (inl b) w'
         | inr s => Q (inr s) w'
         end)
       (let* r := morecore nu a in
        let '(p, a) := r in
        if p =? 0 then Ret (inr (0, a)) else Ret (inl (p, hptr a p, a))) w) ->
  uwp halts answers Q (while (malloc_round nu) (freep a, hptr a (freep a), a)) w.
Proof.
  intros Hok Hnu Hfound Hend. destruct (freep_split a L brk Hok) as (F & G & HL & Hf).
  pose proof Hok as [H0 Hl _ _]. rewrite HL in Hl. destruct (ring_lseg a F G H0 Hl) as (r & Hring). rewrite <- Hf in Hring.
  destruct (G ++ (base, 0) :: F) as [|[p n] R] eqn:E; [by destruct G|].
  simpl in Hring. destruct Hring as (Hp & _). rewrite Hp. by apply (walk Q nu a L brk F G [] p n R w).
Qed.
End Runs.

(** Unlinking a block from its predecessor. *)
Lemma unlink_lseg a A q k B brk :
  lseg a base (A ++ (q, k) :: B) base -> sorted (base + HDR - 1) (A ++ (q, k) :: B) brk ->
  lseg (set_ptr (fin base A) (hptr a q) a) base (A ++ B) base.
Proof.
  intros Hl Hs. apply sorted_app in Hs as [S1 (S2 & S3 & S4)]. pose proof (sorted_top _ _ _ S1) as Htop.
  assert (forall p, p < q -> lseg a q B base -> lseg (set_ptr p (hptr a q) a) p B base) as Hmove.
  { intros p Hp Hq. apply lseg_start with (p := q); [simpl; rewrite fupd_eq, fupd_ne by lia; done|].
    eapply lseg_frame; [| |exact Hq]; intros y Hy; simpl; [|done]. apply fupd_ne.
    apply elem_of_cons in Hy as [->|Hy]; [lia|]. destruct (sorted_addr _ _ _ _ S4 Hy). unfold HDR in *. lia. }
  apply lseg_app in Hl as Hl'. destruct Hl' as (Hl1 & Hk & Hl2).
  destruct A as [|[x m] A _] using rev_ind; [apply Hmove; [unfold HDR in *; simpl in *; lia|done]|].
  rewrite fin_app, <- app_assoc in *. cbn [fin app] in *. apply sorted_app in S1 as [S5 (S6 & S7 & S8)]. pose proof (sorted_top _ _ _ S5).
  simpl in S8. apply lseg_app in Hl as (K1 & K2 & K3). apply lseg_app. split_and!; [|done|].
  - eapply lseg_frame; [| |exact K1]; intros y Hy; simpl; [|done]. apply fupd_ne.
    apply elem_of_cons in Hy as [->|Hy]; [unfold HDR in *; lia|]. destruct (sorted_addr _ _ _ _ S5 Hy). lia.
  - apply Hmove; [unfold HDR in *; lia|done].
Qed.

(** The block malloc() takes leaves the free memory, and nothing else does. *)
Lemma carve_ok a A q k B nu brk :
  heap_ok a (A ++ (q, k) :: B) brk -> 0 < nu <= k -> brk <= 2 ^ 32 ->
  let p := (carve (fin base A) q nu a).1 in
  let a' := set_freep (fin base A) (carve (fin base A) q nu a).2 in
  exists L', heap_ok a' L' brk /\ hsize a' p = nu /\ owned L' brk p nu /\
    (forall x, covers L' x \/ p <= x < p + HDR * nu <-> covers (A ++ (q, k) :: B) x) /\
    (forall x, ~ covers (A ++ (q, k) :: B) x -> hsize a' x = hsize a x).
Proof.
  intros [H0 Hl Hs Hf] Hnu Hbrk. pose proof Hl as Hl'. apply lseg_app in Hl as (Hl1 & Hk & Hl2).
  pose proof Hs as Hs'. apply sorted_app in Hs as [S1 S2]. simpl in S2. destruct S2 as (S2 & S3 & S4). pose proof (sorted_top _ _ _ S4) as Htop.
  pose proof (sorted_top _ _ _ S1) as Htop1.
  assert (forall x, x ∈ base :: A.*1 -> x < q) as HA.
  { intros x [->|Hx]%elem_of_cons; [unfold HDR in *; lia|]. destruct (sorted_addr _ _ _ _ S1 Hx). lia. }
  assert (forall x, x ∈ B.*1 -> q + HDR * k < x) as HB by (intros x Hx; by destruct (sorted_addr _ _ _ _ S4 Hx)).
  assert (forall x, covers A x -> x < q) as HcA.
  { intros x (q' & n' & Hin & Hx). destruct (sorted_elem _ _ _ _ _ S1 Hin) as (? & ? & ?). lia. }
  assert (forall x, covers B x -> q + HDR * k < x) as HcB.
  { intros x (q' & n' & Hin & Hx). destruct (sorted_elem _ _ _ _ _ S4 Hin) as (? & ? & ?). lia. }
  assert (fin base A ∈ base :: A.*1) as HfA.
  { destruct A; [simpl; set_solver|]. apply elem_of_cons. right. by apply fin_elem. }
  unfold carve, hadd. rewrite Hk. destruct (Z.eqb_spec k nu) as [->|Hne]; cbn [fst snd].
  - exists (A ++ B). split_and!.
    + split; simpl; [done| | |].
      * eapply lseg_frame with (a := set_ptr (fin base A) (hptr a q) a); [done|done|]. by eapply unlink_lseg.
      * apply sorted_app. split; [done|]. eapply sorted_weaken; [| |exact S4]; unfold HDR in *; lia.
      * rewrite fmap_app. set_solver.
    + done.
    + unfold owned. split_and!; [lia|unfold HDR in *; lia|lia|]. intros x Hx [Hc|Hc]%covers_app; [specialize (HcA x Hc)|specialize (HcB x Hc)]; unfold HDR in *; lia.
    + intros x. rewrite !covers_app, covers_cons. tauto.
    + done.
  - cbn [hsize set_size]. rewrite fupd_eq, u32_small by (unfold HDR in *; lia). set (p := q + HDR * (k - nu)).
    assert (q < p /\ p + HDR * nu = q + HDR * k) as [Hp1 Hp2] by (subst p; unfold HDR; lia).
    exists (A ++ (q, k - nu) :: B). split_and!.
    + split; simpl.
      * rewrite !fupd_ne; [done| |]; assert (base < q) by (apply HA; set_solver); lia.
      * apply lseg_app. split_and!.
        -- eapply lseg_frame; [| |exact Hl1]; intros y Hy; simpl; [done|]. assert (y < q) by (apply HA; set_solver). rewrite !fupd_ne by lia. done.
        -- simpl. rewrite fupd_ne, fupd_eq by lia. done.
        -- eapply lseg_frame; [| |exact Hl2]; intros y Hy; simpl; [done|]. specialize (HB y Hy). rewrite !fupd_ne by (unfold HDR in *; lia). done.
      * apply sorted_app. split; [done|]. cbn [sorted]. split_and!; [lia|lia|]. eapply sorted_weaken; [| |exact S4]; unfold HDR in *; lia.
      * rewrite fmap_app. set_solver.
    + simpl. apply fupd_eq.
    + unfold owned. split_and!; [lia|unfold HDR in *; lia|unfold HDR in *; lia|].
      intros x Hx [Hc|[Hc|Hc]%covers_cons]%covers_app; [specialize (HcA x Hc); lia|lia|specialize (HcB x Hc); lia].
    + intros x. rewrite !covers_app, !covers_cons.
      assert (q <= x < q + HDR * k <-> q <= x < q + HDR * (k - nu) \/ p <= x < p + HDR * nu) as -> by (subst p; unfold HDR in *; lia). tauto.
    + intros x Hx. simpl. rewrite !fupd_ne; [done| |]; intros ->; apply Hx, covers_app; right; apply covers_cons; left; unfold HDR in *; lia.
Qed.

Section Grow.
Context (limit : Z) (Hlimit : limit <= 2 ^ 32).
Notation hruns := (uwp heap_halts (heap_answers limit)).

Lemma heap_ok_grow a L brk brk' : heap_ok a L brk -> brk <= brk' -> heap_ok a L brk'.
Proof. intros [H0 Hl Hs Hf] Hle. split; try done. eapply sorted_weaken; [| |exact Hs]; lia. Qed.

Lemma heap_ok_header a L brk p n : heap_ok a L brk -> p >= brk -> base < p -> heap_ok (set_size p n a) L brk.
Proof.
  intros [H0 Hl Hs Hf] Hp Hb. split; simpl; [by rewrite fupd_ne by lia| |done|done].
  eapply lseg_frame; [| |exact Hl]; intros x Hx; simpl; [done|]. apply fupd_ne. destruct (sorted_addr _ _ _ _ Hs Hx). lia.
Qed.

Lemma covers_below a L brk x : heap_ok a L brk -> covers L x -> base + HDR <= x < brk.
Proof.
  intros [_ _ Hs _] (q & n & Hin & Hx). destruct (sorted_elem _ _ _ _ _ Hs Hin) as (? & ? & ?). lia.
Qed.

(** morecore() fails and changes nothing, or adds a block of at least [nu] units. *)
Lemma runs_morecore (Q : Z * arena + stop -> Z -> Prop) nu a L brk :
  heap_ok a L brk -> 0 < nu -> nu * HDR < 2 ^ 31 -> base + HDR <= brk ->
  Q (inl (0, a)) brk ->
  (forall a' L' brk', brk <= brk' <= limit -> heap_ok a' L' brk' -> freep a' <> 0 ->
     (forall x, covers L' x <-> covers L x \/ brk <= x < brk') -> (exists q k, (q, k) ∈ L' /\ nu <= k) ->
     (forall x, x < brk -> ~ covers L x -> hsize a' x = hsize a x) -> Q (inl (freep a', a')) brk') ->
  hruns Q (morecore nu a) brk.
Proof.
  intros Hok Hnu Hsmall Hbrk Hfail Hgrow. unfold morecore. set (nu' := if nu <? 4096 then 4096 else nu).
  assert (nu <= nu' /\ nu' * HDR < 2 ^ 31 /\ 0 < nu') as (Hle & Hsm & Hpos) by (subst nu'; destruct (Z.ltb_spec nu 4096); unfold HDR in *; lia).
  rewrite i32_small by (unfold int_range, HDR in *; lia).
  apply uwp_bind, uwp_sys; [done|exists (-1), brk; by left|]. intros x brk' [[-> ->]|(-> & -> & Hlim)].
  - cbn [Z.eqb]. by apply uwp_Ret.
  - rewrite (proj2 (Z.eqb_neq brk (-1))) by (unfold HDR in *; lia). unfold hadd. rewrite Z.mul_1_r. apply uwp_bind.
    apply (runs_free _ _ _ _ L brk nu' (brk + nu' * HDR)).
    + apply heap_ok_grow with (brk := brk); [|unfold HDR; lia]. apply heap_ok_header; [done|lia|unfold HDR in *; lia].
    + simpl. apply fupd_eq.
    + split_and!; [done|done|lia|]. intros x Hx Hc. apply (covers_below _ _ _ _ Hok) in Hc. lia.
    + lia.
    + intros a' L' Hok' Hcov (q & k & Hin & Hk) Hsz. apply uwp_Ret. apply (Hgrow a' L'); [unfold HDR in *; lia|done| | | |].
      * destruct Hok' as [_ _ Hs' Hf']. apply elem_of_cons in Hf' as [->|Hf']; [lia|]. destruct (sorted_addr _ _ _ _ Hs' Hf'). unfold HDR in *. lia.
      * intros x. rewrite Hcov. split; (intros [H|H]; [by left|right; lia]).
      * exists q, k. split; [done|lia].
      * intros x Hx Hc. rewrite Hsz by (lia || done). simpl. apply fupd_ne. lia.
Qed.

(** What a call of malloc() that returns [r] promises. *)
Definition malloc_post (nbytes : Z) (a : arena) (L : list block) (brk r : Z) (a' : arena) (brk' : Z) : Prop :=
  exists L', heap_ok a' L' brk' /\ brk <= brk' <= limit /\
    (forall x, x <> base -> x < brk -> ~ covers L x -> hsize a' x = hsize a x) /\
    (r = 0 /\ brk' = brk /\ (forall x, covers L' x <-> covers L x) \/
     exists p n, r = p + HDR /\ hsize a' p = n /\ nbytes <= HDR * (n - 1) /\ owned L' brk' p n /\
       (forall x, covers L' x \/ p <= x < p + HDR * n <-> covers L x \/ brk <= x < brk')).

Lemma nunits_enough nbytes : 0 <= nbytes < 2 ^ 31 - 64 -> 0 < nunits nbytes /\ nunits nbytes * HDR < 2 ^ 31 /\ nbytes <= HDR * (nunits nbytes - 1).
Proof.
  intros H. unfold nunits, HDR. pose proof (Z.div_mod (nbytes + 16 - 1) 16 ltac:(lia)). pose proof (Z.mod_pos_bound (nbytes + 16 - 1) 16 ltac:(lia)).
  rewrite u32_small by lia. lia.
Qed.

Lemma runs_malloc_loop nbytes a L brk :
  heap_ok a L brk -> 0 <= nbytes < 2 ^ 31 - 64 -> base + HDR <= brk <= limit ->
  hruns (fun o brk' => exists r a', o = inl (r, a') /\ malloc_post nbytes a L brk r a' brk')
    (while (malloc_round (nunits nbytes)) (freep a, hptr a (freep a), a)) brk.
Proof.
  intros Hok Hn Hbrk. destruct (nunits_enough nbytes Hn) as (Hnu & Hsm & Hen). set (nu := nunits nbytes) in *.
  assert (forall a1 L1 brk1, brk <= brk1 <= limit -> heap_ok a1 L1 brk1 -> (forall x, covers L1 x <-> covers L x \/ brk <= x < brk1) ->
    (forall x, x < brk -> ~ covers L x -> hsize a1 x = hsize a x) ->
    forall A q k B, L1 = A ++ (q, k) :: B -> nu <= k ->
    malloc_post nbytes a L brk (hadd (carve (fin base A) q nu a1).1 1) (set_freep (fin base A) (carve (fin base A) q nu a1).2) brk1) as Hfound.
  { intros a1 L1 brk1 Hb Hok1 Hcov Hsz A q k B -> Hk.
    destruct (carve_ok a1 A q k B nu brk1 Hok1 ltac:(lia) ltac:(lia)) as (L' & K1 & K2 & K3 & K4 & K5).
    exists L'. split_and!; [done|lia|lia| |].
    - intros x _ Hx Hc. rewrite K5; [by apply Hsz|]. rewrite Hcov. intros [|]; [done|lia].
    - right. eexists _, nu. split_and!; [unfold hadd; by rewrite Z.mul_1_r|done|done|done|]. intros x. by rewrite K4. }
  apply (tour _ _ _ nu a L brk); [done|done| |].
  - intros A q k B HL Hk. eexists _, _. split; [reflexivity|]. eapply (Hfound a L brk); try done; [lia|]. intros x. split; [by left|].
    intros [|]; [done|lia].
  - intros _. apply uwp_bind. apply (runs_morecore _ nu a L brk); [done|done|done|lia| |].
    + cbn [Z.eqb]. apply uwp_Ret. exists 0, a. split; [done|]. exists L. split_and!; [done|lia|lia|done|left]. done.
    + intros a' L' brk' Hb' Hok' Hf' Hcov (q & k & Hin & Hk) Hsz. rewrite (proj2 (Z.eqb_neq _ _) Hf'). apply uwp_Ret.
      apply (tour _ _ _ nu a' L' brk'); [done|done| |].
      * intros A q' k' B HL Hk'. eexists _, _. split; [reflexivity|]. by eapply (Hfound a' L' brk').
      * intros Hall. exfalso. rewrite Forall_forall in Hall. specialize (Hall _ Hin). simpl in Hall. lia.
Qed.
End Grow.
End Heap.

(** The allocator before its first call, or with the free blocks [L]. *)
Definition ready (base : Z) (a : arena) (L : list block) (brk : Z) : Prop :=
  freep a = 0 /\ L = [] \/ heap_ok base a L brk.

(** C35: malloc() returns memory that was free: it ends, and when it does not return
    0 (which it does only when sbrk() fails, with the free memory unchanged) it
    returns a block with room for the bytes asked for, taken exactly out of the
    memory that was free or that sbrk() added; so the block is apart from every
    block the program owns, whose headers are kept, and the list of free blocks is
    again in address order and coalesced. *)
Theorem malloc_correct base limit nbytes a L brk :
  0 < base -> limit <= 2 ^ 32 -> base + HDR <= brk <= limit -> 0 <= nbytes < 2 ^ 31 - 64 -> ready base a L brk ->
  uwp heap_halts (heap_answers limit)
    (fun o brk' => exists r a', o = inl (r, a') /\ malloc_post base limit nbytes a L brk r a' brk')
    (malloc base nbytes a) brk.
Proof.
  intros Hbase Hlim Hbrk Hn [[Hf ->]|Hok]; unfold malloc.
  - rewrite Hf. cbn [Z.eqb]. set (a0 := set_size base 0 _).
    eapply uwp_mono; [apply (runs_malloc_loop base Hbase limit Hlim nbytes a0 [] brk)|].
    + split; simpl; [apply fupd_eq|apply fupd_eq|lia|set_solver].
    + done.
    + done.
    + intros o brk' (r & a' & -> & L' & H1 & H2 & H3 & H4). exists r, a'. split; [done|]. exists L'. split_and!; [done|lia|lia| |done].
      intros x Hx Hlt Hc. rewrite H3 by done. simpl. by rewrite fupd_ne.
  - rewrite (proj2 (Z.eqb_neq (freep a) 0)).
    2: { destruct Hok as [_ _ Hs' Hf']. apply elem_of_cons in Hf' as [->|Hf']; [lia|]. destruct (sorted_addr _ _ _ _ Hs' Hf'). unfold HDR in *. lia. }
    eapply uwp_mono; [apply (runs_malloc_loop base Hbase limit Hlim nbytes a L brk Hok Hn Hbrk)|].
    intros o brk' (r & a' & -> & H). by exists r, a'.
Qed.

Definition arena0 : arena := mkArena (fun _ => 0) (fun _ => 0) 0.

Lemma malloc_correct_witness :
  uwp heap_halts (heap_answers 0x100000)
    (fun o brk' => exists r a', o = inl (r, a') /\ (r = 0 \/ exists p n, r = p + HDR /\ hsize a' p = n /\ 100 <= HDR * (n - 1)))
    (malloc 0x1000 100 arena0) 0x4000.
Proof.
  eapply uwp_mono; [apply (malloc_correct 0x1000 0x100000 100 arena0 [] 0x4000)|].
  - lia.
  - lia.
  - unfold HDR. lia.
  - lia.
  - left. done.
  - intros o brk' (r & a' & -> & L' & _ & _ & _ & [(-> & _)|(p & n & H1 & H2 & H3 & _)]).
    + exists 0, a'. split; [done|by left].
    + exists r, a'. split; [done|]. right. by exists p, n.
Defined.

(** C36: free() gives back exactly the block: for a block the program owns, free()
    ends, the free memory is what it was together with the block, in address order
    and merged with its neighbours, and no header of another owned block changes. *)
Theorem free_correct base a L brk bp m :
  0 < base -> brk <= 2 ^ 32 -> heap_ok base a L brk -> hsize a bp = m -> owned base L brk bp m ->
  uwp heap_halts (heap_answers brk)
    (fun o brk' => exists a' L', o = inl a' /\ brk' = brk /\ heap_ok base a' L' brk /\
       (forall x, covers L' x <-> covers L x \/ bp <= x < bp + HDR * m) /\
       (forall x, x <> bp -> ~ covers L x -> hsize a' x = hsize a x))
    (free (bp + HDR) a) brk.
Proof.
  intros Hbase Hbrk Hok Hsz Hown. eapply runs_free; [done|done|done|done|done|].
  intros a' L' Hok' Hcov _ Hs. by exists a', L'.
Qed.

(** A heap with one free block and an owned block after it. *)
Definition arena_w : arena :=
  mkArena (fun p => if p =? 0x1000 then 0x4000 else 0x1000) (fun p => if p =? 0x4000 then 2 else if p =? 0x4020 then 3 else 0) 0x4000.

Lemma free_correct_witness :
  uwp heap_halts (heap_answers 0x5000) (fun o brk' => exists a' L', o = inl a' /\ heap_ok 0x1000 a' L' 0x5000 /\ covers L' 0x4030)
    (free (0x4020 + HDR) arena_w) 0x5000.
Proof.
  eapply uwp_mono; [apply (free_correct 0x1000 arena_w [(0x4000, 2)] 0x5000 0x4020 3)|].
  - lia.
  - lia.
  - split; [done|done| |simpl; set_solver]. unfold HDR. simpl. lia.
  - done.
  - unfold owned, HDR. split_and!; [lia|lia|lia|]. intros x Hx [Hc|Hc]%covers_cons; [unfold HDR in Hc; lia|by apply covers_nil in Hc].
  - intros o brk' (a' & L' & -> & _ & Hok & Hcov & _). exists a', L'. split_and!; [done|done|]. apply Hcov. right. unfold HDR. lia.
Defined.
