(* ===== verification/MkFs.v ===== *)
(** * The file system image builder (mkfs/mkfs.c)

    mkfs runs on the build host and writes fs.img, the disk the kernel boots from.
    Its globals, the bytes and the length of the image file are one state record;
    an operation returns a value and the state, or leaves the program through an
    exit(1) or a failed assert.  Structures are the bytes of their C layout, as in
    Fs.  The host is little endian.  Regular files of the host are written in full;
    what its read() delivers of an input file is the list of the pieces of
    successive calls, a parameter. *)

From S2P Require Import Prelude State CString Vm Bio Log Fs FsView User.
Open Scope Z_scope.

(** ** Globals *)

Definition FSSIZE : Z := 1000.
Definition NINODES : Z := 200.
Definition nbitmap : Z := FSSIZE / (BSIZE * 8) + 1.
Definition ninodeblocks : Z := NINODES / IPB + 1.
Definition nlog : Z := LOGSIZE.
Definition nmeta : Z := 2 + nlog + ninodeblocks + nbitmap.
Definition nblocks : Z := FSSIZE - nmeta.

Record image := mkImage {
  g_img : bytes;  (** the bytes of fs.img *)
  g_len : Z;  (** its length *)
  g_sb : superblock;
  freeinode : Z;
  freeblock : Z
}.

Inductive mkres (A : Type) : Type :=
| Done (a : A) (s : image)
| Quit (why : string).
Arguments Done {A} a s.
Arguments Quit {A} why.

Definition mk (A : Type) : Type := image -> mkres A.

Definition mret {A} (a : A) : mk A := fun s => Done a s.
Definition quit {A} (why : string) : mk A := fun _ => Quit why.
Definition mbind {A B} (f : mk A) (k : A -> mk B) : mk B :=
  fun s => match f s with Done a s' => k a s' | Quit w => Quit w end.

Declare Scope mkfs_scope.
Delimit Scope mkfs_scope with mkfs.
Open Scope mkfs_scope.
Notation "'let*' x := t 'in' k" := (mbind t (fun x => k))
  (at level 10, x binder, t at level 200, k at level 200) : mkfs_scope.
Notation "t ;; k" := (mbind t (fun _ => k))
  (at level 100, k at level 200, right associativity) : mkfs_scope.

Definition massert (b : bool) (what : string) : mk unit := if b then mret tt else quit what.

(** ** Byte order *)

Definition xshort (x : Z) : Z :=
  let a := (fun _ => 0).[0 := u8 x].[1 := u8 (Z.shiftr x 8)] in ld16 a 0.

Definition xint (x : Z) : Z :=
  let a := (fun _ => 0).[0 := u8 x].[1 := u8 (Z.shiftr x 8)].[2 := u8 (Z.shiftr x 16)].[3 := u8 (Z.shiftr x 24)] in
  ld32 a 0.

(** ** Sectors *)

Definition wsect (sec : Z) (buf : bytes) : mk unit := fun s =>
  let pos := u32 (sec * BSIZE) in
  Done tt (mkImage (memcopy (g_img s) pos buf 0 BSIZE) (Z.max (g_len s) (pos + BSIZE)) (g_sb s) (freeinode s) (freeblock s)).

Definition rsect (sec : Z) : mk bytes := fun s =>
  let pos := u32 (sec * BSIZE) in
  if pos + BSIZE <=? g_len s then Done (fun i => g_img s (pos + i)) s else Quit "read".

(** ** Inodes *)

Definition get_sb : mk superblock := fun s => Done (g_sb s) s.

(** *dip = *ip *)
Definition winode (inum : Z) (ip : bytes) : mk unit :=
  let* sb := get_sb in
  let bn := IBLOCK inum sb in
  let* buf := rsect bn in
  wsect bn (memcopy buf (dip_off inum) ip 0 sizeof_dinode).

(** *ip = *dip *)
Definition rinode (inum : Z) : mk bytes :=
  let* sb := get_sb in
  let bn := IBLOCK inum sb in
  let* buf := rsect bn in
  mret (fun o => buf (dip_off inum + o)).

(** freeinode++ *)
Definition next_inode : mk Z := fun s =>
  Done (freeinode s) (mkImage (g_img s) (g_len s) (g_sb s) (u32 (freeinode s + 1)) (freeblock s)).

(** freeblock++ *)
Definition next_block : mk Z := fun s =>
  Done (freeblock s) (mkImage (g_img s) (g_len s) (g_sb s) (freeinode s) (u32 (freeblock s + 1))).

Definition zeroes : bytes := fun _ => 0.

Definition ialloc (type : Z) : mk Z :=
  let* inum := next_inode in
  let din := st16 zeroes 0 (xshort type) in
  let din := st16 din 6 (xshort 1) in
  let din := st32 din 8 (xint 0) in
  winode inum din;;
  mret inum.

(** ** The free map *)

Fixpoint used_bits (buf : bytes) (n : nat) : bytes :=
  match n with
  | O => buf
  | S i => let b := used_bits buf i in
           let k := Z.of_nat i in
           b.[k / 8 := u8 (Z.lor (b (k / 8)) (Z.shiftl 1 (k mod 8)))]
  end.

Definition balloc (used : Z) : mk unit :=
  massert (used <? BSIZE * 8) "used < BSIZE*8";;
  let* sb := get_sb in
  wsect (sb_bmapstart sb) (used_bits zeroes (Z.to_nat used)).

(** ** iappend *)

Definition set_addr (din : bytes) (k v : Z) : bytes := st32 din (12 + 4 * k) v.

(** The disk block [x] of file block [fbn], allocated where needed, and the dinode. *)
Definition iblock (din : bytes) (fbn : Z) : mk (bytes * Z) :=
  if fbn <? NDIRECT then
    let* din := (if xint (di_addr din fbn) =? 0
                 then let* b := next_block in mret (set_addr din fbn (xint b)) else mret din) in
    mret (din, xint (di_addr din fbn))
  else
    let* din := (if xint (di_addr din NDIRECT) =? 0
                 then let* b := next_block in mret (set_addr din NDIRECT (xint b)) else mret din) in
    let* indirect := rsect (xint (di_addr din NDIRECT)) in
    let i := 4 * (fbn - NDIRECT) in
    let* indirect := (if ld32 indirect i =? 0
                      then let* b := next_block in
                           let indirect := st32 indirect i (xint b) in
                           wsect (xint (di_addr din NDIRECT)) indirect;;
                           mret indirect
                      else mret indirect) in
    mret (din, xint (ld32 indirect i)).

(** while(n > 0): every round takes a byte at least from [p], [fuel] rounds. *)
Fixpoint iappend_loop (fuel : nat) (din : bytes) (off : Z) (p : list Z) : mk (bytes * Z) :=
  match p with
  | [] => mret (din, off)
  | _ =>
      match fuel with
      | O => quit "fuel"
      | S fuel =>
          let fbn := off / BSIZE in
          massert (fbn <? MAXFILE) "fbn < MAXFILE";;
          let* r := iblock din fbn in
          let n1 := Z.to_nat (Z.min (Z.of_nat (length p)) ((fbn + 1) * BSIZE - off)) in
          let* buf := rsect (snd r) in
          wsect (snd r) (memput buf (off - fbn * BSIZE) (take n1 p));;
          iappend_loop fuel (fst r) (u32 (off + Z.of_nat n1)) (drop n1 p)
      end
  end.

Definition iappend (inum : Z) (p : list Z) : mk unit :=
  let* din := rinode inum in
  let off := xint (di_size din) in
  let* r := iappend_loop (length p) din off p in
  winode inum (st32 (fst r) 8 (xint (snd r))).

(** ** main *)

(** The build host: whether the image can be created, and for an input file that
    can be opened the pieces that the calls of read() deliver. *)
Record host := mkHost {
  h_create : cstr -> bool;
  h_read : cstr -> option (list (list Z))
}.

Fixpoint mfor {X} (l : list X) (f : X -> mk unit) : mk unit :=
  match l with [] => mret tt | x :: l => f x;; mfor l f end.

(** A dirent with strncpy(de.name, name, DIRSIZ) in a cleared structure. *)
Definition dirent (inum : Z) (name : cstr) : list Z :=
  let de := st16 zeroes 0 (xshort inum) in
  peekn (strncpy de 2 (local_bytes (name ++ [0])) 0 (Z.to_nat DIRSIZ)) 0 (Z.to_nat sizeof_dirent).

(** The name without a leading user/ *)
Definition shortname (arg : cstr) : cstr :=
  if strncmp (local_bytes (arg ++ [0])) (local_bytes (lit "user/")) 0 0 5 =? 0 then drop 5 arg else arg.

(** The binaries are named _rm, _cat, ... on the host. *)
Definition skip_underscore (name : cstr) : cstr :=
  match name with c :: n => if c =? chr "_" then n else name | [] => [] end.

Definition add_file (h : host) (rootino : Z) (arg : cstr) : mk unit :=
  let name := shortname arg in
  massert (forallb (fun c => negb (c =? slash)) name) "index(shortname, '/') == 0";;
  match h_read h arg with
  | None => quit "open"
  | Some pieces =>
      let name := skip_underscore name in
      let* inum := ialloc T_FILE in
      iappend rootino (dirent inum name);;
      mfor pieces (iappend inum)
  end.

Definition the_sb : superblock :=
  mkSuperblock FSMAGIC (xint FSSIZE) (xint nblocks) (xint NINODES) (xint nlog) (xint 2) (xint (2 + nlog))
    (xint (2 + nlog + ninodeblocks)).

(** memmove(buf, &sb, sizeof(sb)) *)
Definition sb_bytes (s : superblock) : bytes :=
  let m := st32 zeroes 0 (sb_magic s) in
  let m := st32 m 4 (sb_size s) in
  let m := st32 m 8 (sb_nblocks s) in
  let m := st32 m 12 (sb_ninodes s) in
  let m := st32 m 16 (sb_nlog s) in
  let m := st32 m 20 (sb_logstart s) in
  let m := st32 m 24 (sb_inodestart s) in
  st32 m 28 (sb_bmapstart s).

(** The empty image file and the super block. *)
Definition image0 : image := mkImage zeroes 0 the_sb 1 nmeta.

Definition mkroot : mk Z :=
  let* rootino := ialloc T_DIR in
  massert (rootino =? ROOTINO) "rootino == ROOTINO";;
  iappend rootino (dirent rootino (lit "."));;
  iappend rootino (dirent rootino (lit ".."));;
  mret rootino.

(** fix size of root inode dir *)
Definition fix_root (rootino : Z) : mk unit :=
  let* din := rinode rootino in
  let off := xint (di_size din) in
  let off := u32 ((off / BSIZE + 1) * BSIZE) in
  winode rootino (st32 din 8 (xint off)).

Definition get_freeblock : mk Z := fun s => Done (freeblock s) s.

Definition build (h : host) (files : list cstr) : mk unit :=
  mfor (upto FSSIZE) (fun i => wsect i zeroes);;
  wsect 1 (sb_bytes the_sb);;
  let* rootino := mkroot in
  mfor files (add_file h rootino);;
  fix_root rootino;;
  let* used := get_freeblock in
  balloc used.

Definition mkfs_main (h : host) (argv : list cstr) : mkres unit :=
  match argv with
  | _ :: img :: files => if h_create h img then build h files image0 else Quit "open"
  | _ => Quit "Usage: mkfs fs.img files..."
  end.
