(* ===== verification/MkFsSpec.v ===== *)
(** * The image mkfs builds

    [does f s Q]: the operation [f] ends normally from [s] with [Q].  The image file
    is read as a disk ([mk_st]); [file_ok] says that a dinode describes a file with
    given contents in blocks it alone owns.  iappend() appends to exactly one file,
    and the disk built by main() is the file system the kernel expects. *)

From S2P Require Import Prelude State CString Vm Bio Log LogSpec Fs FsView User MkFs.
Open Scope Z_scope.

Definition does {A} (f : mk A) (s : image) (Q : A -> image -> Prop) : Prop :=
  match f s with Done a s' => Q a s' | Quit _ => False end.

Lemma does_ret {A} (a : A) s (Q : A -> image -> Prop) : Q a s -> does (mret a) s Q.
Proof. done. Qed.

Lemma does_mono {A} (f : mk A) s (Q Q' : A -> image -> Prop) : does f s Q -> (forall a s', Q a s' -> Q' a s') -> does f s Q'.
Proof. unfold does. destruct (f s); naive_solver. Qed.

Lemma does_bind {A B} (f : mk A) (k : A -> mk B) s (Q : B -> image -> Prop) :
  does f s (fun a s' => does (k a) s' Q) -> does (mbind f k) s Q.
Proof. unfold does, mbind. by destruct (f s). Qed.

Lemma does_bind_assoc {A B C} (f : mk A) (g : A -> mk B) (k : B -> mk C) s (Q : C -> image -> Prop) :
  does (mbind (mbind f g) k) s Q -> does (mbind f (fun a => mbind (g a) k)) s Q.
Proof. unfold does, mbind. by destruct (f s). Qed.

Lemma does_assert b what s Q : b = true -> Q tt s -> does (massert b what) s Q.
Proof. by intros ->. Qed.

Lemma does_done {A} (f : mk A) s (Q : A -> image -> Prop) : does f s Q -> exists a s', f s = Done a s' /\ Q a s'.
Proof. unfold does. destruct (f s) as [a s'|]; [by exists a, s'|done]. Qed.

Lemma does_for {X} (l : list X) (f : X -> mk unit) (I : list X -> image -> Prop) s (Q : unit -> image -> Prop) :
  I [] s -> (forall l1 x l2 s, l = l1 ++ x :: l2 -> I l1 s -> does (f x) s (fun _ => I (l1 ++ [x]))) ->
  (forall s, I l s -> Q tt s) -> does (mfor l f) s Q.
Proof.
  intros H0 Hs HQ. assert (forall l2 l1 s, l = l1 ++ l2 -> I l1 s -> does (mfor l2 f) s Q) as H; [|by apply (H l [])].
  induction l2 as [|x l2 IH]; intros l1 s' E HI; cbn [mfor].
  - apply HQ. by rewrite E, app_nil_r.
  - apply does_bind. eapply does_mono; [by eapply Hs|]. intros ? s2 H2. apply (IH (l1 ++ [x])); [|done]. by rewrite <- app_assoc.
Qed.

(** ** Byte order: on a little-endian host the conversions are the identity *)

Lemma xint_eq x : 0 <= x < 2 ^ 32 -> xint x = x.
Proof.
  intros Hx. change (xint x) with (u8 x + 256 * (u8 (Z.shiftr x 8) + 256 * (u8 (Z.shiftr x 16) + 256 * (u8 (Z.shiftr x 24) + 256 * 0)))).
  unfold u8. rewrite !Z.shiftr_div_pow2 by lia.
  Z.to_euclidean_division_equations. lia.
Qed.

Lemma xshort_eq x : 0 <= x < 2 ^ 16 -> xshort x = x.
Proof.
  intros Hx. change (xshort x) with (u8 x + 256 * (u8 (Z.shiftr x 8) + 256 * 0)). unfold u8. rewrite !Z.shiftr_div_pow2 by lia.
  Z.to_euclidean_division_equations. lia.
Qed.

(** ** The image file as a disk *)

Record mk_st (s : image) (c : disk) (fi fb : Z) : Prop := {
  ms_img : forall b i, 0 <= b < FSSIZE -> 0 <= i < BSIZE -> g_img s (b * BSIZE + i) = c b i;
  ms_len : g_len s = FSSIZE * BSIZE;
  ms_sb : g_sb s = the_sb;
  ms_fi : freeinode s = fi;
  ms_fb : freeblock s = fb;
}.

Lemma pos_eq b : 0 <= b < FSSIZE -> u32 (b * BSIZE) = b * BSIZE.
Proof. intros H. unfold FSSIZE, BSIZE in *. apply u32_small. lia. Qed.

Lemma does_wsect s c fi fb b buf Q :
  mk_st s c fi fb -> 0 <= b < FSSIZE -> (forall s', mk_st s' c.[b := buf] fi fb -> Q tt s') -> does (wsect b buf) s Q.
Proof.
  intros [H1 H2 H3 H4 H5] Hb HQ. unfold does, wsect. apply HQ. rewrite pos_eq by done. split; cbn [g_img g_len g_sb freeinode freeblock]; try done.
  - intros b' i Hb' Hi. unfold memcopy, fupd. case_decide; subst.
    + case_range; [f_equal; lia|unfold BSIZE in *; lia].
    + case_range; [unfold BSIZE in *; lia|by apply H1].
  - rewrite H2. unfold FSSIZE, BSIZE in *. lia.
Qed.

Lemma does_rsect s c fi fb b Q :
  mk_st s c fi fb -> 0 <= b < FSSIZE -> (forall buf, (forall i, 0 <= i < BSIZE -> buf i = c b i) -> Q buf s) -> does (rsect b) s Q.
Proof.
  intros [H1 H2 H3 H4 H5] Hb HQ. unfold does, rsect. rewrite pos_eq, H2 by done.
  rewrite (proj2 (Z.leb_le _ _)) by (unfold FSSIZE, BSIZE in *; lia). apply HQ. intros i Hi. by apply H1.
Qed.

Lemma does_next_block s c fi fb Q :
  mk_st s c fi fb -> 0 <= fb < FSSIZE -> (forall s', mk_st s' c fi (fb + 1) -> Q fb s') -> does next_block s Q.
Proof.
  intros [H1 H2 H3 H4 H5] Hb HQ. unfold does, next_block. rewrite H5. apply HQ. split; cbn; try done.
  apply u32_small. unfold FSSIZE in *. lia.
Qed.

Lemma does_next_inode s c fi fb Q :
  mk_st s c fi fb -> 0 <= fi < NINODES -> (forall s', mk_st s' c (fi + 1) fb -> Q fi s') -> does next_inode s Q.
Proof.
  intros [H1 H2 H3 H4 H5] Hb HQ. unfold does, next_inode. rewrite H4. apply HQ. split; cbn; try done.
  apply u32_small. unfold NINODES in *. lia.
Qed.

(** ** Dinodes *)

Definition inum_ok (i : Z) : Prop := 1 <= i < NINODES.

Lemma the_sb_vals : the_sb = mkSuperblock FSMAGIC 1000 954 200 30 2 32 45.
Proof. reflexivity. Qed.

Lemma IBLOCK_eq i : inum_ok i -> IBLOCK i the_sb = i / 16 + 32.
Proof.
  unfold inum_ok, NINODES. intros H. rewrite the_sb_vals. unfold IBLOCK. cbn. change IPB with 16. apply u32_small.
  Z.to_euclidean_division_equations. lia.
Qed.

Lemma mk_IBLOCK_range i : inum_ok i -> 32 <= IBLOCK i the_sb < 45.
Proof. intros H. rewrite IBLOCK_eq by done. unfold inum_ok, NINODES in *. Z.to_euclidean_division_equations. lia. Qed.

Lemma dip_off_range i : 0 <= dip_off i /\ dip_off i + 64 <= BSIZE.
Proof. unfold dip_off, sizeof_dinode, BSIZE. change IPB with 16. Z.to_euclidean_division_equations. lia. Qed.

Lemma dip_off_sep i j : inum_ok i -> inum_ok j -> i <> j -> IBLOCK i the_sb = IBLOCK j the_sb ->
  dip_off i + 64 <= dip_off j \/ dip_off j + 64 <= dip_off i.
Proof.
  intros Hi Hj Hne. rewrite !IBLOCK_eq by done. unfold dip_off, sizeof_dinode. change IPB with 16. unfold inum_ok in *.
  Z.to_euclidean_division_equations. lia.
Qed.

(** Two structures with the same bytes. *)
Definition deq (D D' : bytes) : Prop := forall o, 0 <= o < 64 -> D o = D' o.

Lemma does_rinode s c fi fb i Q :
  mk_st s c fi fb -> inum_ok i -> (forall D, deq D (dinode_at c the_sb i) -> Q D s) -> does (rinode i) s Q.
Proof.
  intros Hs Hi HQ. unfold rinode. apply does_bind. unfold does at 1, get_sb. rewrite (ms_sb _ _ _ _ Hs). apply does_bind.
  pose proof (mk_IBLOCK_range i Hi). eapply does_rsect; [done|unfold FSSIZE; lia|]. intros buf Hb. apply does_ret, HQ.
  intros o Ho. unfold dinode_at. apply Hb. pose proof (dip_off_range i). lia.
Qed.

(** Block [b] of inode numbers, inode [i] written. *)
Lemma does_winode s c fi fb i D Q :
  mk_st s c fi fb -> inum_ok i ->
  (forall s' c', mk_st s' c' fi fb -> deq (dinode_at c' the_sb i) D ->
    (forall j, inum_ok j -> j <> i -> deq (dinode_at c' the_sb j) (dinode_at c the_sb j)) ->
    (forall b, b < 32 \/ 45 <= b -> c' b = c b) -> Q tt s') ->
  does (winode i D) s Q.
Proof.
  intros Hs Hi HQ. unfold winode. apply does_bind. unfold does at 1, get_sb. rewrite (ms_sb _ _ _ _ Hs). apply does_bind.
  pose proof (mk_IBLOCK_range i Hi) as Hr. pose proof (dip_off_range i) as Hd. eapply does_rsect; [done|unfold FSSIZE; lia|]. intros buf Hb.
  eapply does_wsect; [done|unfold FSSIZE; lia|]. intros s' Hs'. eapply HQ; [exact Hs'|..].
  - intros o Ho. unfold dinode_at. rewrite fupd_eq. unfold memcopy, sizeof_dinode. case_range; [f_equal; lia|lia].
  - intros j Hj Hne o Ho. unfold dinode_at. pose proof (dip_off_range j). destruct (decide (IBLOCK j the_sb = IBLOCK i the_sb)) as [E|E].
    + rewrite E, fupd_eq. unfold memcopy, sizeof_dinode. pose proof (dip_off_sep j i Hj Hi Hne E). case_range; [lia|]. apply Hb. lia.
    + by rewrite fupd_ne.
  - intros b Hbb. apply fupd_ne. lia.
Qed.

(** ** Files *)

(** The owner of a data block: an inode and the index of the block in its file, or
    MAXFILE for the indirect block. *)
Definition owners : Type := Z -> option (Z * Z).

(** Inode [i] with dinode [D] has [nb] blocks that hold [L] and then zeroes; [ind]
    says whether it has an indirect block. *)
Record file_ok (c : disk) (own : owners) (i : Z) (D : bytes) (ind : bool) (nb : Z) (L : list Z) : Prop := {
  fo_nb : 0 <= nb <= MAXFILE;
  fo_len : Z.of_nat (length L) <= nb * BSIZE;
  fo_own : forall k, 0 <= k < nb -> own (fblk c (di_addr D) k) = Some (i, k);
  fo_ind : if ind then own (di_addr D NDIRECT) = Some (i, MAXFILE) else di_addr D NDIRECT = 0 /\ nb <= NDIRECT;
  fo_none : forall k, nb <= k < MAXFILE -> k < NDIRECT \/ ind = true -> fblk c (di_addr D) k = 0;
  fo_bytes : forall o, 0 <= o < nb * BSIZE -> fbyte c (di_addr D) o = nth (Z.to_nat o) L 0;
}.

(** The data area: owned blocks are allocated, the others are still clear. *)
Record area (c : disk) (own : owners) (fb : Z) : Prop := {
  ar_fb : nmeta <= fb <= FSSIZE;
  ar_own : forall b p, own b = Some p -> nmeta <= b < fb;
  ar_clear : forall b o, fb <= b < FSSIZE -> 0 <= o < BSIZE -> c b o = 0;
}.

(** Only blocks of inode [i] and fresh blocks changed. *)
Record touch (i fb : Z) (c : disk) (own : owners) (c' : disk) (own' : owners) : Prop := {
  to_own : forall b, b < fb -> own' b = own b;
  to_data : forall b o, b < fb -> 0 <= o < BSIZE -> (forall k, own b <> Some (i, k)) -> c' b o = c b o;
}.

Lemma touch_refl i fb c own : touch i fb c own c own.
Proof. by split. Qed.

Lemma touch_trans i fb fb' c own c1 own1 c2 own2 :
  fb <= fb' -> touch i fb c own c1 own1 -> touch i fb' c1 own1 c2 own2 -> touch i fb c own c2 own2.
Proof.
  intros Hle [A1 A2] [B1 B2]. split.
  - intros b Hb. rewrite B1 by lia. by apply A1.
  - intros b o Hb Ho Hn. rewrite B2; [by apply A2|lia|done|]. intros k. by rewrite A1.
Qed.

(** Blocks that hold [nb] blocks of data, the indirect block included. *)
Definition has_ind (nb : Z) : bool := NDIRECT <? nb.
Definition need (nb : Z) : Z := nb + if has_ind nb then 1 else 0.
Definition nblk (len : Z) : Z := (len + (BSIZE - 1)) / BSIZE.

Lemma need_mono a b : a <= b -> need a <= need b.
Proof. unfold need, has_ind. intros. destruct (Z.ltb_spec NDIRECT a), (Z.ltb_spec NDIRECT b); lia. Qed.

Lemma fblk_ext c c' a a' k :
  0 <= k < MAXFILE -> (k < NDIRECT -> a' k = a k) ->
  (NDIRECT <= k -> a' NDIRECT = a NDIRECT /\ forall o, 0 <= o < BSIZE -> c' (a NDIRECT) o = c (a NDIRECT) o) ->
  fblk c' a' k = fblk c a k.
Proof.
  intros Hk H1 H2. unfold fblk. destruct (Z.ltb_spec k NDIRECT); [by apply H1|]. destruct H2 as [-> H2]; [done|].
  apply ld32_ext. intros i Hi. apply H2. unfold MAXFILE in Hk. change NINDIRECT with 256 in *. unfold BSIZE. lia.
Qed.

(** A file depends on its addresses and its own blocks. *)
Lemma file_frame c own c' own' i D D' ind nb L :
  file_ok c own i D ind nb L -> (forall k, 0 <= k <= NDIRECT -> di_addr D' k = di_addr D k) ->
  (forall b k, own b = Some (i, k) -> own' b = Some (i, k) /\ forall o, 0 <= o < BSIZE -> c' b o = c b o) ->
  file_ok c' own' i D' ind nb L.
Proof.
  intros [H1 H2 H3 H4 H6 H7] HD Hf.
  assert (di_addr D' NDIRECT = di_addr D NDIRECT) as EN by (apply HD; unfold NDIRECT; lia).
  assert (forall k, 0 <= k < MAXFILE -> k < NDIRECT \/ ind = true -> fblk c' (di_addr D') k = fblk c (di_addr D) k) as Hk.
  { intros k Hk Hor. apply fblk_ext; [done|intros; apply HD; lia|]. intros Hge.
    split; [done|]. destruct Hor as [Hor|Hor]; [lia|]. rewrite Hor in H4. by apply (Hf _ MAXFILE). }
  assert (forall k, 0 <= k < nb -> fblk c' (di_addr D') k = fblk c (di_addr D) k) as Hk'.
  { intros k Hk'. apply Hk; [lia|]. destruct ind; [by right|left; lia]. }
  split; [done|done|..].
  - intros k Hkk. rewrite Hk' by lia. by apply Hf, H3.
  - rewrite EN. destruct ind; [by apply Hf|done].
  - intros k Hk1 Hk2. rewrite Hk by (done || lia). by apply H6.
  - intros o Ho. unfold fbyte. assert (0 <= o / BSIZE < nb) by (unfold BSIZE in *; Z.to_euclidean_division_equations; lia).
    rewrite Hk' by lia. rewrite (proj2 (Hf _ (o / BSIZE) (H3 _ ltac:(done)))); [by apply H7|]. unfold BSIZE. Z.to_euclidean_division_equations. lia.
Qed.

Lemma file_touch c own c' own' i j fb D ind nb L :
  area c own fb -> touch i fb c own c' own' -> j <> i -> file_ok c own j D ind nb L -> file_ok c' own' j D ind nb L.
Proof.
  intros Ha [T1 T2] Hne Hf. eapply file_frame; [done|done|]. intros b k Hb. pose proof (ar_own _ _ _ Ha _ _ Hb).
  rewrite T1 by lia. split; [done|]. intros o Ho. apply T2; [lia|done|]. intros k'. rewrite Hb. congruence.
Qed.

(** A fresh block goes to inode [i]. *)
Lemma area_take c own fb i k : area c own fb -> fb < FSSIZE ->
  area c own.[fb := Some (i, k)] (fb + 1) /\ touch i fb c own c own.[fb := Some (i, k)].
Proof.
  intros [H1 H2 H3] Hfb. split; split; [lia|..].
  - intros b p. unfold fupd. case_decide; [lia|]. intros Hb%H2. lia.
  - intros b o Hb. apply H3. lia.
  - intros b Hb. apply fupd_ne. lia.
  - done.
Qed.

Lemma di_addr_set D k v j : 0 <= k -> 0 <= j -> 0 <= v < 2 ^ 32 -> di_addr (set_addr D k v) j = if decide (j = k) then v else di_addr D j.
Proof.
  intros Hk Hj Hv. unfold di_addr, set_addr. case_decide; subst; [rewrite ld32_st32; by apply u32_small|]. apply ld32_st32_other. lia.
Qed.

(** Bytes of the file after a change of block [k] only. *)
Lemma fbyte_past c a L k o : Z.of_nat (length L) <= k * BSIZE -> o / BSIZE = k -> c (fblk c a k) (o mod BSIZE) = 0 -> fbyte c a o = nth (Z.to_nat o) L 0.
Proof.
  intros HL Ho Hz. unfold fbyte. rewrite Ho, Hz. symmetry. apply nth_overflow. unfold BSIZE in *. Z.to_euclidean_division_equations. lia.
Qed.

Lemma grow_direct c own fb i D k L :
  area c own fb -> fb < FSSIZE -> file_ok c own i D false k L -> k < NDIRECT ->
  file_ok c own.[fb := Some (i, k)] i (set_addr D k fb) false (k + 1) L.
Proof.
  intros Ha Hfb [H1 H2 H3 [H4 H4'] H6 H7] Hk. pose proof Ha as [A1 A2 A3].
  assert (0 <= fb < 2 ^ 32) as Hfb32 by (change nmeta with 46 in *; unfold FSSIZE in *; lia).
  assert (forall j, 0 <= j -> j < k \/ k < j -> di_addr (set_addr D k fb) j = di_addr D j) as HD.
  { intros j Hj Hne. rewrite di_addr_set by (done || lia). by rewrite decide_False by lia. }
  assert (forall j, 0 <= j < NDIRECT -> j < k \/ k < j -> fblk c (di_addr (set_addr D k fb)) j = fblk c (di_addr D) j) as HF.
  { intros j Hj Hne. apply fblk_ext; [unfold MAXFILE; change NINDIRECT with 256; lia|intros; apply HD; lia|lia]. }
  assert (fblk c (di_addr (set_addr D k fb)) k = fb) as HK.
  { unfold fblk. rewrite (proj2 (Z.ltb_lt _ _)) by done. rewrite di_addr_set by (done || lia). by rewrite decide_True. }
  split.
  - unfold MAXFILE. change NINDIRECT with 256. lia.
  - unfold BSIZE in *. lia.
  - intros j Hj. destruct (decide (j = k)) as [->|Hne]; [rewrite HK; by rewrite fupd_eq|].
    rewrite HF by lia. rewrite fupd_ne; [apply H3; lia|]. specialize (H3 j ltac:(lia)). apply A2 in H3. lia.
  - split; [|lia]. rewrite HD; [done|unfold NDIRECT; lia|lia].
  - intros j Hj [Hj'|]; [|done]. rewrite HF by lia. apply H6; [lia|by left].
  - intros o Ho. destruct (decide (o / BSIZE = k)) as [E|Hne].
    + apply (fbyte_past _ _ _ k); [lia|done|]. rewrite HK. apply A3; [lia|]. apply Z.mod_pos_bound. done.
    + rewrite <- H7 by (unfold BSIZE in *; Z.to_euclidean_division_equations; lia). unfold fbyte.
      rewrite HF; [done|unfold BSIZE in *; Z.to_euclidean_division_equations; lia..].
Qed.

Lemma grow_ind c own fb i D L :
  area c own fb -> fb < FSSIZE -> file_ok c own i D false NDIRECT L ->
  file_ok c own.[fb := Some (i, MAXFILE)] i (set_addr D NDIRECT fb) true NDIRECT L.
Proof.
  intros Ha Hfb [H1 H2 H3 [H4 H4'] H6 H7]. pose proof Ha as [A1 A2 A3].
  assert (0 <= fb < 2 ^ 32) as Hfb32 by (change nmeta with 46 in *; unfold FSSIZE in *; lia).
  assert (di_addr (set_addr D NDIRECT fb) NDIRECT = fb) as EN.
  { rewrite di_addr_set by (done || unfold NDIRECT; lia). by rewrite decide_True. }
  assert (forall j, 0 <= j < NDIRECT -> fblk c (di_addr (set_addr D NDIRECT fb)) j = fblk c (di_addr D) j) as HF.
  { intros j Hj. apply fblk_ext; [lia|intros|lia]. rewrite di_addr_set by (done || unfold NDIRECT; lia). by rewrite decide_False by lia. }
  split; [done|done|..].
  - intros j Hj. rewrite HF by lia. rewrite fupd_ne; [apply H3; lia|]. specialize (H3 j ltac:(lia)). apply A2 in H3. lia.
  - rewrite EN. by rewrite fupd_eq.
  - intros j Hj _. unfold fblk. rewrite (proj2 (Z.ltb_ge _ _)) by lia. rewrite EN. apply ld32_zero. intros x Hx. apply A3; [lia|].
    unfold MAXFILE, NDIRECT in Hj. change NINDIRECT with 256 in Hj. unfold BSIZE, NDIRECT. lia.
  - intros o Ho. rewrite <- H7 by done. unfold fbyte. rewrite HF; [done|]. unfold BSIZE, NDIRECT in *. Z.to_euclidean_division_equations. lia.
Qed.

(** The entry of block [k] in the indirect block [buf]. *)
Lemma grow_entry c own fb i D k L buf :
  let ib := di_addr D NDIRECT in
  let c' := c.[ib := st32 buf (4 * (k - NDIRECT)) fb] in
  area c own fb -> fb < FSSIZE -> file_ok c own i D true k L -> NDIRECT <= k < MAXFILE ->
  (forall o, 0 <= o < BSIZE -> buf o = c ib o) ->
  file_ok c' own.[fb := Some (i, k)] i D true (k + 1) L /\ area c' own.[fb := Some (i, k)] (fb + 1) /\
  touch i fb c own c' own.[fb := Some (i, k)].
Proof.
  intros ib c' Ha Hfb [H1 H2 H3 H4 H6 H7] Hk Hbuf. pose proof Ha as [A1 A2 A3].
  assert (0 <= fb < 2 ^ 32) as Hfb32 by (change nmeta with 46 in *; unfold FSSIZE in *; lia).
  pose proof (A2 _ _ H4) as Hib. fold ib in H4, Hib. change MAXFILE with 268 in *. unfold NDIRECT in *.
  assert (forall j, 0 <= j < 268 -> j < k \/ k < j -> fblk c' (di_addr D) j = fblk c (di_addr D) j) as HF.
  { intros j Hj Hne. unfold fblk, NDIRECT. destruct (Z.ltb_spec j 12); [done|]. fold ib. unfold c'. rewrite fupd_eq.
    rewrite ld32_st32_other by lia. apply ld32_ext. intros x Hx. apply Hbuf. unfold BSIZE. lia. }
  assert (fblk c' (di_addr D) k = fb) as HK.
  { unfold fblk, NDIRECT. rewrite (proj2 (Z.ltb_ge _ _)) by lia. fold ib. unfold c'. rewrite fupd_eq, ld32_st32. by apply u32_small. }
  assert (forall j, 0 <= j < k -> fblk c (di_addr D) j <> ib) as Hd.
  { intros j Hj E. specialize (H3 j Hj). rewrite E, H4 in H3. injection H3. lia. }
  split_and!; split.
  - change MAXFILE with 268. lia.
  - unfold BSIZE in *. lia.
  - intros j Hj. destruct (decide (j = k)) as [->|Hne]; [rewrite HK; by rewrite fupd_eq|].
    rewrite HF by lia. rewrite fupd_ne; [apply H3; lia|]. specialize (H3 j ltac:(lia)). apply A2 in H3. lia.
  - change MAXFILE with 268. unfold NDIRECT. fold ib. rewrite fupd_ne; [done|lia].
  - change MAXFILE with 268. intros j Hj _. rewrite HF by lia. apply H6; [lia|by right].
  - intros o Ho. destruct (decide (o / BSIZE = k)) as [E|Hne].
    + apply (fbyte_past _ _ _ k); [lia|done|]. rewrite HK. unfold c'. rewrite fupd_ne by lia. apply A3; [lia|]. by apply Z.mod_pos_bound.
    + rewrite <- H7 by (unfold BSIZE in *; Z.to_euclidean_division_equations; lia). unfold fbyte.
      assert (0 <= o / BSIZE < k) by (unfold BSIZE in *; Z.to_euclidean_division_equations; lia).
      rewrite HF by lia. unfold c'. rewrite fupd_ne; [done|]. by apply Hd.
  - lia.
  - intros b p. unfold fupd. case_decide; [lia|]. intros Hb%A2. lia.
  - intros b o Hb Ho. unfold c'. rewrite fupd_ne by lia. apply A3; [lia|done].
  - intros b Hb. apply fupd_ne. lia.
  - intros b o Hb Ho Hn. unfold c'. rewrite fupd_ne; [done|]. intros ->. by apply (Hn 268).
Qed.

(** ** The block of an offset *)

Lemma owned_small c own fb b p : area c own fb -> own b = Some p -> 0 < b < FSSIZE /\ xint b = b /\ (b =? 0) = false.
Proof.
  intros [A1 A2 _] Hb. apply A2 in Hb. change nmeta with 46 in *. unfold FSSIZE in *. split; [lia|].
  split; [apply xint_eq|apply Z.eqb_neq]; lia.
Qed.

Lemma fb_small c own fb : area c own fb -> fb < FSSIZE -> 0 <= fb < FSSIZE /\ xint fb = fb.
Proof.
  intros [A1 A2 _] Hb. change nmeta with 46 in *. unfold FSSIZE in *. split; [lia|]. apply xint_eq. lia.
Qed.

(** What the last block of a file and the new state satisfy after iblock(). *)
Definition grown (c : disk) (own : owners) (fi fb fb' i : Z) (D : bytes) (k : Z) (L : list Z) (D' : bytes) (x : Z) (s' : image) : Prop :=
  exists c' own', mk_st s' c' fi fb' /\ area c' own' fb' /\ file_ok c' own' i D' (has_ind (k + 1)) (k + 1) L /\
    touch i fb c own c' own' /\ (forall o, 0 <= o < 12 -> D' o = D o) /\ x = fblk c' (di_addr D') k.

Lemma set_addr_head D k v o : 0 <= k -> 0 <= o < 12 -> set_addr D k v o = D o.
Proof. intros Hk Ho. unfold set_addr, st32, stn. case_range; [lia|done]. Qed.

Lemma fblk_direct c a k : k < NDIRECT -> fblk c a k = a k.
Proof. intros H. unfold fblk. by rewrite (proj2 (Z.ltb_lt _ _)). Qed.

Lemma does_iblock_direct s c own fi fb i D nb k L :
  mk_st s c fi fb -> area c own fb -> file_ok c own i D (has_ind nb) nb L -> 0 <= k < NDIRECT ->
  nb = k \/ nb = k + 1 -> fb + need (k + 1) - need nb <= FSSIZE ->
  does (iblock D k) s (fun r => grown c own fi fb (fb + need (k + 1) - need nb) i D k L (fst r) (snd r)).
Proof.
  intros Hs Ha Hf Hk Hnb Hroom. unfold iblock. rewrite (proj2 (Z.ltb_lt _ _)) by lia. apply does_bind.
  assert (has_ind nb = false /\ has_ind (k + 1) = false) as [E1 E2] by (unfold has_ind; rewrite !Z.ltb_ge; lia).
  unfold need in *. rewrite E1, E2 in *. destruct Hnb as [->| ->].
  - pose proof (fo_none _ _ _ _ _ _ _ Hf k) as H0. rewrite fblk_direct in H0 by lia.
    rewrite H0; [|split; [lia|change MAXFILE with 268; unfold NDIRECT in *; lia]|by left; lia].
    change (xint 0 =? 0) with true. cbv iota. replace (fb + (k + 1 + 0) - (k + 0)) with (fb + 1) in * by lia.
    destruct (fb_small _ _ _ Ha ltac:(lia)) as [Hfb Hx]. apply does_bind. eapply does_next_block; [done|lia|]. intros s' Hs'.
    apply does_ret, does_ret. cbn [fst snd]. rewrite Hx.
    destruct (area_take c own fb i k Ha ltac:(lia)) as [Ha' Ht]. pose proof (grow_direct c own fb i D k L Ha ltac:(lia) Hf ltac:(lia)) as Hf'.
    assert (di_addr (set_addr D k fb) k = fb) as EK.
    { unfold FSSIZE in *. rewrite di_addr_set by lia. by rewrite decide_True. }
    exists c, own.[fb := Some (i, k)]. rewrite E2. split_and!; try done; [intros; by apply set_addr_head; lia|].
    rewrite fblk_direct by lia. by rewrite EK.
  - pose proof (fo_own _ _ _ _ _ _ _ Hf k ltac:(lia)) as Ho. rewrite fblk_direct in Ho by lia.
    destruct (owned_small _ _ _ _ _ Ha Ho) as (_ & Hx & Hz). rewrite Hx, Hz. apply does_ret, does_ret. cbn [fst snd].
    replace (fb + (k + 1 + 0) - (k + 1 + 0)) with fb by lia. exists c, own. rewrite E2. split_and!; try done.
    rewrite fblk_direct by lia. done.
Qed.

(** The indirect block, allocated for block NDIRECT. *)
Lemma does_ind s c own fi fb i D nb k L (Q : bytes -> image -> Prop) :
  mk_st s c fi fb -> area c own fb -> file_ok c own i D (has_ind nb) nb L -> NDIRECT <= k < MAXFILE ->
  nb = k \/ nb = k + 1 -> fb + need (k + 1) - need nb <= FSSIZE ->
  (forall s' own' D' fb', mk_st s' c fi fb' -> area c own' fb' -> file_ok c own' i D' true nb L -> touch i fb c own c own' ->
    (forall o, 0 <= o < 12 -> D' o = D o) -> fb <= fb' -> fb' + (k + 1) - nb = fb + need (k + 1) - need nb -> Q D' s') ->
  does (if xint (di_addr D NDIRECT) =? 0
        then mbind next_block (fun b => mret (set_addr D NDIRECT (xint b))) else mret D) s Q.
Proof.
  intros Hs Ha Hf Hk Hnb Hroom HQ. assert (has_ind (k + 1) = true) as E2 by (unfold has_ind; rewrite Z.ltb_lt; lia).
  unfold need in *. rewrite E2 in *. pose proof (fo_ind _ _ _ _ _ _ _ Hf) as Hi. destruct (has_ind nb) eqn:E1.
  - destruct (owned_small _ _ _ _ _ Ha Hi) as (_ & Hx & Hz). rewrite Hx, Hz. apply does_ret.
    eapply HQ; try done; lia.
  - destruct Hi as [Hi Hle]. rewrite Hi. change (xint 0 =? 0) with true. cbv iota.
    assert (nb = NDIRECT /\ k = NDIRECT) as [-> ->] by lia.
    destruct (fb_small _ _ _ Ha ltac:(lia)) as [Hfb Hx]. apply does_bind. eapply does_next_block; [done|lia|]. intros s' Hs'.
    rewrite Hx. apply does_ret. destruct (area_take c own fb i MAXFILE Ha ltac:(lia)) as [Ha' Ht].
    eapply HQ; [done|done|by apply grow_ind; [|lia|]|done|intros; apply set_addr_head; unfold NDIRECT; lia|lia|lia].
Qed.

Lemma fblk_indirect c a k : NDIRECT <= k -> fblk c a k = ld32 (c (a NDIRECT)) (4 * (k - NDIRECT)).
Proof. intros H. unfold fblk. by rewrite (proj2 (Z.ltb_ge _ _)). Qed.

Lemma does_iblock_ind s c own fi fb i D nb k L :
  mk_st s c fi fb -> area c own fb -> file_ok c own i D (has_ind nb) nb L -> NDIRECT <= k < MAXFILE ->
  nb = k \/ nb = k + 1 -> fb + need (k + 1) - need nb <= FSSIZE ->
  does (iblock D k) s (fun r => grown c own fi fb (fb + need (k + 1) - need nb) i D k L (fst r) (snd r)).
Proof.
  intros Hs Ha Hf Hk Hnb Hroom. unfold iblock. rewrite (proj2 (Z.ltb_ge _ _)) by lia. apply does_bind.
  assert (has_ind (k + 1) = true) as E2 by (unfold has_ind; rewrite Z.ltb_lt; lia).
  eapply does_ind; try done. intros s1 own1 D1 fb1 Hs1 Ha1 Hf1 Ht1 Hd1 Hle Hfb1. apply does_bind.
  pose proof (fo_ind _ _ _ _ _ _ _ Hf1) as Hi. destruct (owned_small _ _ _ _ _ Ha1 Hi) as (Hib & Hx & Hz). rewrite Hx.
  eapply does_rsect; [done|lia|]. intros buf Hbuf. apply does_bind.
  assert (ld32 buf (4 * (k - NDIRECT)) = fblk c (di_addr D1) k) as ->.
  { rewrite fblk_indirect by lia. apply ld32_ext. intros x Hx'. apply Hbuf. change MAXFILE with 268 in *. unfold NDIRECT, BSIZE in *. lia. }
  destruct Hnb as [->| ->].
  - rewrite (fo_none _ _ _ _ _ _ _ Hf1 k) by (lia || by right). cbn [Z.eqb]. destruct (fb_small _ _ _ Ha1 ltac:(lia)) as [Hfb Hxf].
    apply does_bind. eapply does_next_block; [done|lia|]. intros s2 Hs2. rewrite Hxf. apply does_bind.
    eapply does_wsect; [done|lia|]. intros s3 Hs3. apply does_ret, does_ret. cbn [fst snd].
    destruct (grow_entry c own1 fb1 i D1 k L buf Ha1 ltac:(lia) Hf1 Hk Hbuf) as (Hf2 & Ha2 & Ht2).
    replace (fb + need (k + 1) - need k) with (fb1 + 1) by lia. do 2 eexists. rewrite E2.
    split_and!; [exact Hs3|exact Ha2|exact Hf2|by eapply touch_trans|done|].
    rewrite fblk_indirect, fupd_eq by lia. apply xint_eq. rewrite ld32_st32. apply u32_range.
  - pose proof (fo_own _ _ _ _ _ _ _ Hf1 k ltac:(unfold NDIRECT in *; lia)) as Ho. destruct (owned_small _ _ _ _ _ Ha1 Ho) as (_ & Hxk & Hzk).
    rewrite Hzk. apply does_ret, does_ret. cbn [fst snd]. replace (fb + need (k + 1) - need (k + 1)) with fb1 by lia. exists c, own1. rewrite E2. split_and!; try done.
    etransitivity; [|exact Hxk]. f_equal. rewrite fblk_indirect by lia. apply ld32_ext. intros x Hx'. apply Hbuf. change MAXFILE with 268 in *. unfold NDIRECT, BSIZE in *. lia.
Qed.

(** Where file block [k] is the last block of the file or the next one, iblock()
    returns it, and the file has [k + 1] blocks. *)
Lemma does_iblock s c own fi fb i D nb k L :
  mk_st s c fi fb -> area c own fb -> file_ok c own i D (has_ind nb) nb L -> 0 <= k < MAXFILE ->
  nb = k \/ nb = k + 1 -> fb + need (k + 1) - need nb <= FSSIZE ->
  does (iblock D k) s (fun r => grown c own fi fb (fb + need (k + 1) - need nb) i D k L (fst r) (snd r)).
Proof.
  intros. destruct (decide (k < NDIRECT)); [apply does_iblock_direct|apply does_iblock_ind]; (done || lia).
Qed.

(** ** iappend() *)

(** [p] stored at the end of the contents, within the last block. *)
Lemma file_store c own i D ind k L p buf fb :
  let x := fblk c (di_addr D) k in
  let c' := c.[x := memput buf (Z.of_nat (length L) - k * BSIZE) p] in
  area c own fb -> file_ok c own i D ind (k + 1) L -> 0 <= k -> k * BSIZE <= Z.of_nat (length L) ->
  Z.of_nat (length L + length p) <= (k + 1) * BSIZE -> (forall o, 0 <= o < BSIZE -> buf o = c x o) ->
  file_ok c' own i D ind (k + 1) (L ++ p) /\ area c' own fb /\ touch i fb c own c' own.
Proof.
  intros x c' Ha [H1 H2 H3 H4 H6 H7] Hk HL Hp Hbuf. pose proof Ha as [A1 A2 A3].
  pose proof (H3 k ltac:(lia)) as Hx. fold x in Hx. pose proof (A2 _ _ Hx) as Hxr.
  assert (forall j, 0 <= j < MAXFILE -> j < NDIRECT \/ ind = true -> fblk c' (di_addr D) j = fblk c (di_addr D) j) as HF.
  { intros j Hj Hor. apply fblk_ext; [done|done|]. intros Hge. split; [done|]. intros o Ho. destruct Hor as [|Ei]; [lia|].
    rewrite Ei in H4. unfold c'. rewrite fupd_ne; [done|]. intros E. rewrite E, Hx in H4. injection H4. lia. }
  assert (forall j, 0 <= j < k + 1 -> fblk c' (di_addr D) j = fblk c (di_addr D) j) as HF'.
  { intros j Hj. apply HF; [lia|]. destruct ind; [by right|left; lia]. }
  split_and!; split; try done.
  - rewrite length_app. lia.
  - intros j Hj. rewrite HF' by done. by apply H3.
  - intros j Hj Hor. rewrite HF by (done || lia). by apply H6.
  - intros o Ho. assert (0 <= o / BSIZE < k + 1) as Hq by (unfold BSIZE in *; Z.to_euclidean_division_equations; lia).
    specialize (H7 o Ho). unfold fbyte in *. rewrite HF' by done. destruct (decide (o / BSIZE = k)) as [E|Hne].
    + rewrite E in *. fold x. fold x in H7. unfold c'. rewrite fupd_eq. unfold memput. case_range.
      * rewrite app_nth2 by (unfold BSIZE in *; Z.to_euclidean_division_equations; lia). f_equal. unfold BSIZE in *. Z.to_euclidean_division_equations. lia.
      * rewrite Hbuf, H7 by by apply Z.mod_pos_bound. destruct (decide (o < Z.of_nat (length L))); [by rewrite app_nth1 by lia|].
        rewrite !nth_overflow; [done| |lia]. rewrite length_app. unfold BSIZE in *. Z.to_euclidean_division_equations. lia.
    + unfold c'. rewrite fupd_ne; [rewrite app_nth1; [done|]|].
      * unfold BSIZE in *. Z.to_euclidean_division_equations. lia.
      * intros E. specialize (H3 _ Hq). rewrite E, Hx in H3. congruence.
  - intros b o Hb Ho. unfold c'. rewrite fupd_ne by lia. by apply A3.
  - intros b o Hb Ho Hn. unfold c'. rewrite fupd_ne; [done|]. intros ->. by apply (Hn k).
Qed.

Lemma nblk_step len n : 0 <= len -> 0 < n -> len + n <= (len / BSIZE + 1) * BSIZE -> nblk (len + n) = len / BSIZE + 1.
Proof. intros. unfold nblk, BSIZE in *. Z.to_euclidean_division_equations. lia. Qed.

Lemma nblk_last len : 0 <= len -> nblk len = len / BSIZE \/ nblk len = len / BSIZE + 1.
Proof. intros. unfold nblk, BSIZE in *. Z.to_euclidean_division_equations. lia. Qed.

Lemma nblk_mono a b : a <= b -> nblk a <= nblk b.
Proof. intros. unfold nblk, BSIZE in *. Z.to_euclidean_division_equations. lia. Qed.

Notation len L := (Z.of_nat (length L)).

(** Blocks a file of [n] bytes takes. *)
Definition space (n : Z) : Z := need (nblk n).

Lemma space_mono a b : a <= b -> space a <= space b.
Proof. intros. by apply need_mono, nblk_mono. Qed.

(** Inode [i] grew from [L] to [L']. *)
Definition appended (c : disk) (own : owners) (fi fb i : Z) (D : bytes) (L L' : list Z) (D' : bytes) (s' : image) : Prop :=
  let fb' := fb + space (len L') - space (len L) in
  exists c' own', mk_st s' c' fi fb' /\ area c' own' fb' /\ file_ok c' own' i D' (has_ind (nblk (len L'))) (nblk (len L')) L' /\
    touch i fb c own c' own' /\ (forall o, 0 <= o < 12 -> D' o = D o).

Lemma does_iappend_loop fuel p fi i s c own fb D L :
  (length p <= fuel)%nat -> mk_st s c fi fb -> area c own fb ->
  file_ok c own i D (has_ind (nblk (len L))) (nblk (len L)) L ->
  len (L ++ p) <= MAXFILE * BSIZE -> fb + space (len (L ++ p)) - space (len L) <= FSSIZE ->
  does (iappend_loop fuel D (len L) p) s (fun r s' => snd r = len (L ++ p) /\ appended c own fi fb i D L (L ++ p) (fst r) s').
Proof.
  revert p s c own fb D L. induction fuel as [|fuel IH]; intros p s c own fb D L Hfuel Hs Ha Hf Hmax Hroom.
  all: destruct p as [|b p'] eqn:Ep; [cbn [iappend_loop]|].
  1,3: apply does_ret; cbn [fst snd]; rewrite app_nil_r in *; split; [done|]; exists c, own; replace (fb + space (len L) - space (len L)) with fb by lia; done.
  { simpl in Hfuel. lia. }
  cbn [iappend_loop]. rewrite <- Ep in *. assert (0 < len p) as Hp by (rewrite Ep; simpl; lia). clear Ep b p'.
  rewrite length_app in *. set (k := len L / BSIZE). set (n1 := Z.to_nat (Z.min (len p) ((k + 1) * BSIZE - len L))).
  assert (0 <= k < MAXFILE /\ k * BSIZE <= len L < (k + 1) * BSIZE) as [Hk HkL] by (unfold k, BSIZE in *; Z.to_euclidean_division_equations; lia).
  assert ((0 < n1 <= length p)%nat /\ len L + Z.of_nat n1 <= (k + 1) * BSIZE) as [Hn1 Hn1'] by lia.
  assert (nblk (len L + Z.of_nat n1) = k + 1) as Enb by (apply nblk_step; lia).
  assert (len (take n1 p) = Z.of_nat n1) as Elen by (rewrite length_take; lia).
  pose proof (space_mono (len L + Z.of_nat n1) (Z.of_nat (length L + length p)) ltac:(lia)) as Hmono.
  assert (space (len L + Z.of_nat n1) = need (k + 1)) as Esp by (unfold space; by rewrite Enb).
  apply does_bind, does_assert; [apply Z.ltb_lt; lia|]. apply does_bind. eapply does_mono.
  { eapply does_iblock; try done; [apply nblk_last; lia|]. unfold space in *. lia. }
  intros [D1 x] s1 (c1 & own1 & Hs1 & Ha1 & Hf1 & Ht1 & Hd1 & ->). cbn [fst snd] in *. fold (space (len L)) in *.
  pose proof (fo_own _ _ _ _ _ _ _ Hf1 k ltac:(lia)) as Hown. destruct (owned_small _ _ _ _ _ Ha1 Hown) as (Hx & _ & _).
  apply does_bind. eapply does_rsect; [done|lia|]. intros buf Hbuf. apply does_bind.
  eapply does_wsect; [done|lia|]. intros s2 Hs2.
  destruct (file_store c1 own1 i D1 _ k L (take n1 p) buf _ Ha1 Hf1) as (Hf2 & Ha2 & Ht2); [lia|lia|lia|done|].
  assert (len (L ++ take n1 p) = len L + Z.of_nat n1) as EL by (rewrite length_app; lia).
  rewrite <- Enb, <- EL in Hf2. rewrite u32_small by (change MAXFILE with 268 in *; unfold BSIZE in *; lia). rewrite <- EL.
  eapply does_mono; [eapply IH; [rewrite length_drop; lia|exact Hs2|exact Ha2|exact Hf2|..]|].
  - rewrite <- app_assoc, take_drop, length_app. lia.
  - rewrite <- app_assoc, take_drop, length_app, EL. lia.
  - intros [D2 off] s3 [E (c3 & own3 & Hs3 & Ha3 & Hf3 & Ht3 & Hd3)]. cbn [fst snd] in *. rewrite <- app_assoc, take_drop, EL, Esp in *.
    split; [by rewrite E, length_app|]. exists c3, own3. replace (fb + need (k + 1) - space (len L) + space (len (L ++ p)) - need (k + 1)) with (fb + space (len (L ++ p)) - space (len L)) in * by lia.
    split_and!; [done|done|done| |intros o Ho; by rewrite Hd3, Hd1].
    pose proof (need_mono (nblk (len L)) (k + 1) ltac:(rewrite <- Enb; apply nblk_mono; lia)). fold (space (len L)) in *.
    eapply touch_trans; [|exact Ht1|eapply touch_trans; [|exact Ht2|exact Ht3]]; lia.
Qed.

(** ** The file system under construction *)

Lemma deq_fields D D' : deq D D' ->
  di_type D = di_type D' /\ di_nlink D = di_nlink D' /\ di_size D = di_size D' /\ forall k, 0 <= k <= NDIRECT -> di_addr D k = di_addr D' k.
Proof.
  intros H. unfold di_type, di_nlink, di_size, di_addr, ldshort, NDIRECT.
  split_and!; [f_equal; apply ld16_ext; intros; apply H; lia..|apply ld32_ext; intros; apply H; lia|].
  intros k Hk. apply ld32_ext. intros. apply H. lia.
Qed.

Lemma set_size_fields D v : 0 <= v < 2 ^ 32 ->
  di_type (st32 D 8 v) = di_type D /\ di_nlink (st32 D 8 v) = di_nlink D /\ di_size (st32 D 8 v) = v /\
  forall k, 0 <= k -> di_addr (st32 D 8 v) k = di_addr D k.
Proof.
  intros Hv. unfold di_type, di_nlink, di_size, di_addr, ldshort. split_and!.
  - reflexivity.
  - reflexivity.
  - rewrite ld32_st32. by apply u32_small.
  - intros k Hk. apply ld32_st32_other. lia.
Qed.

(** The head of a dinode. *)
Lemma head_fields D D' : (forall o, 0 <= o < 12 -> D' o = D o) -> di_type D' = di_type D /\ di_nlink D' = di_nlink D.
Proof. intros H. unfold di_type, di_nlink, ldshort. split; f_equal; apply ld16_ext; intros; apply H; lia. Qed.

(** Inode [i] has type [ty], one link, size [sz] and contents [L]. *)
Record inode_is (c : disk) (own : owners) (i : Z) (ty sz : Z) (L : list Z) : Prop := {
  ii_file : file_ok c own i (dinode_at c the_sb i) (has_ind (nblk (len L))) (nblk (len L)) L;
  ii_size : di_size (dinode_at c the_sb i) = sz;
  ii_type : di_type (dinode_at c the_sb i) = ty;
  ii_nlink : di_nlink (dinode_at c the_sb i) = 1;
}.

Lemma inode_is_frame c own c' own' i ty sz L :
  inode_is c own i ty sz L -> deq (dinode_at c' the_sb i) (dinode_at c the_sb i) ->
  (forall b k, own b = Some (i, k) -> own' b = Some (i, k) /\ forall o, 0 <= o < BSIZE -> c' b o = c b o) ->
  inode_is c' own' i ty sz L.
Proof.
  intros [H1 H2 H3 H4] Hd Hf. destruct (deq_fields _ _ Hd) as (D1 & D2 & D3 & D4).
  split; [by eapply file_frame|congruence..].
Qed.

(** The files so far: inode [1 + n] has the type and the contents of entry [n]. *)
Notation files := (list (Z * list Z)).
Definition total (F : files) : Z := foldr (fun f z => space (len (snd f)) + z) 0 F.
(** The blocks before the data that are no inode blocks. *)
Definition meta : disk := (fun _ => zeroes).[1 := sb_bytes the_sb].
Definition meta_block (b : Z) : Prop := 0 <= b < 32 \/ b = 45.

Definition disk_of (c : disk) (own : owners) (F : files) : Prop :=
  area c own (nmeta + total F) /\ len F < NINODES /\
  (forall n f, F !! n = Some f -> inode_is c own (1 + Z.of_nat n) (fst f) (len (snd f)) (snd f)) /\
  (forall b o, meta_block b -> 0 <= o < BSIZE -> c b o = meta b o).

Definition fsys (F : files) (s : image) : Prop :=
  exists c own, mk_st s c (1 + len F) (nmeta + total F) /\ disk_of c own F.

Lemma total_insert F n f f' : F !! n = Some f -> total (<[n := f']> F) = total F + space (len (snd f')) - space (len (snd f)).
Proof.
  unfold total. revert n. induction F as [|g F IH]; intros [|n]; try done.
  - intros [= ->]. simpl. lia.
  - intros H. change (<[S n := f']> (g :: F)) with (g :: <[n := f']> F). cbn [foldr]. rewrite (IH n H). lia.
Qed.

Lemma total_app F f : total (F ++ [f]) = total F + space (len (snd f)).
Proof. unfold total. induction F as [|g F IH]; simpl; [lia|]. rewrite IH. lia. Qed.

Lemma inum_of (F : files) n f : len F < NINODES -> F !! n = Some f -> inum_ok (1 + Z.of_nat n).
Proof. intros H1 H2%lookup_lt_Some. unfold inum_ok. lia. Qed.

(** Inode [n] grew in the data area and its dinode [D'] was written with its size. *)
Lemma disk_append c own c1 own1 c2 F n ty L L' D D' :
  let i := 1 + Z.of_nat n in
  let fb' := nmeta + total (<[n := (ty, L')]> F) in
  disk_of c own F -> F !! n = Some (ty, L) -> deq D (dinode_at c the_sb i) -> 0 <= len L' < 2 ^ 32 ->
  area c1 own1 fb' -> file_ok c1 own1 i D' (has_ind (nblk (len L'))) (nblk (len L')) L' ->
  touch i (nmeta + total F) c own c1 own1 -> (forall o, 0 <= o < 12 -> D' o = D o) ->
  deq (dinode_at c2 the_sb i) (st32 D' 8 (len L')) ->
  (forall j, inum_ok j -> j <> i -> deq (dinode_at c2 the_sb j) (dinode_at c1 the_sb j)) ->
  (forall b, b < 32 \/ 45 <= b -> c2 b = c1 b) ->
  disk_of c2 own1 (<[n := (ty, L')]> F).
Proof.
  intros i fb' (Ha & HF & Hfs & Hmeta) Hn HD HL Ha1 Hf1 Ht1 Hd1 Hdi Hdj Hrest. pose proof Ha as [A1 A2 A3].
  assert (forall b, nmeta <= b -> c2 b = c1 b) as Hc2 by (intros b Hb; apply Hrest; change nmeta with 46 in Hb; lia).
  assert (forall b o, b < nmeta -> 0 <= o < BSIZE -> c1 b o = c b o) as Hc1.
  { intros b o Hb Ho. apply (to_data _ _ _ _ _ _ Ht1); [lia|done|]. intros k E%A2. lia. }
  split_and!; [|by rewrite length_insert| |].
  - destruct Ha1 as [B1 B2 B3]. split; [done|done|]. intros b o Hb Ho. rewrite Hc2 by (unfold fb' in *; lia). by apply B3.
  - intros j f Hj. destruct (decide (j = n)) as [->|Hne].
    + rewrite list_lookup_insert_eq in Hj by by eapply lookup_lt_Some. injection Hj as <-. cbn [fst snd]. fold i.
      destruct (deq_fields _ _ Hdi) as (E1 & E2 & E3 & E4). destruct (set_size_fields D' _ HL) as (S1 & S2 & S3 & S4).
      destruct (head_fields _ _ Hd1) as [T1 T2]. destruct (deq_fields _ _ HD) as (U1 & U2 & _ & _). destruct (Hfs _ _ Hn) as [_ _ I3 I4].
      fold i in I3, I4. cbn [fst snd] in *. split; [|congruence..]. eapply file_frame; [exact Hf1|intros k Hk; by rewrite E4, S4 by lia|].
      intros b k Hb. split; [done|]. intros o Ho. rewrite Hc2; [done|]. apply (ar_own _ _ _ Ha1) in Hb. lia.
    + rewrite list_lookup_insert_ne in Hj by done. assert (inum_ok (1 + Z.of_nat j)) as Hij by by eapply inum_of.
      eapply inode_is_frame; [by apply Hfs| |].
      * intros o Ho. rewrite Hdj by (done || unfold i; lia). unfold dinode_at. pose proof (mk_IBLOCK_range _ Hij). pose proof (dip_off_range (1 + Z.of_nat j)).
        apply Hc1; [change nmeta with 46; lia|lia].
      * intros b k Hb. pose proof (A2 _ _ Hb). rewrite (to_own _ _ _ _ _ _ Ht1) by lia. split; [done|]. intros o Ho. rewrite Hc2 by lia.
        apply (to_data _ _ _ _ _ _ Ht1); [lia|done|]. intros k'. rewrite Hb. unfold i. intros [= E _]. lia.
  - intros b o Hb Ho. rewrite Hrest by (unfold meta_block in Hb; lia). rewrite Hc1; [by apply Hmeta| |done].
    unfold meta_block in Hb. change nmeta with 46. lia.
Qed.

(** Contents appended to one file. *)
Lemma does_iappend F n ty L p s :
  fsys F s -> F !! n = Some (ty, L) -> len (L ++ p) <= MAXFILE * BSIZE ->
  nmeta + total (<[n := (ty, L ++ p)]> F) <= FSSIZE ->
  does (iappend (1 + Z.of_nat n) p) s (fun _ => fsys (<[n := (ty, L ++ p)]> F)).
Proof.
  intros (c & own & Hs & Hd) Hn Hmax Hroom. pose proof Hd as (Ha & HF & Hfs & _). pose proof (inum_of _ _ _ HF Hn) as Hi.
  assert (0 <= len (L ++ p) < 2 ^ 32) as Hlen by (change MAXFILE with 268 in *; unfold BSIZE in *; lia).
  pose proof (total_insert F n (ty, L) (ty, L ++ p) Hn) as Htot. cbn [snd] in Htot.
  destruct (Hfs _ _ Hn) as [I1 I2 I3 I4]. cbn [fst snd] in *.
  unfold iappend. apply does_bind. eapply does_rinode; [done|done|]. intros D HD. destruct (deq_fields _ _ HD) as (_ & _ & D3 & D4).
  rewrite D3, I2, xint_eq by (rewrite length_app in Hlen; lia). apply does_bind. eapply does_mono.
  { eapply does_iappend_loop; [done|exact Hs|exact Ha|by eapply file_frame|done|]. lia. }
  intros [D' off] s1 [Eo (c1 & own1 & Hs1 & Ha1 & Hf1 & Ht1 & Hd1)]. cbn [fst snd] in *. subst off. rewrite xint_eq by done.
  replace (nmeta + total F + space (len (L ++ p)) - space (len L)) with (nmeta + total (<[n := (ty, L ++ p)]> F)) in * by lia.
  eapply does_winode; [done|done|]. intros s2 c2 Hs2 Hdi Hdj Hrest. exists c2, own1. rewrite length_insert. split; [done|].
  by eapply disk_append.
Qed.

(** ** ialloc() *)

Definition fresh_dinode (ty : Z) : bytes := st32 (st16 (st16 zeroes 0 (xshort ty)) 6 (xshort 1)) 8 (xint 0).

Lemma fresh_fields ty : 0 <= ty < 2 ^ 15 ->
  di_type (fresh_dinode ty) = ty /\ di_nlink (fresh_dinode ty) = 1 /\ di_size (fresh_dinode ty) = 0 /\
  forall k, 0 <= k <= NDIRECT -> di_addr (fresh_dinode ty) k = 0.
Proof.
  intros Ht. unfold fresh_dinode. rewrite !xshort_eq, xint_eq by lia. destruct (set_size_fields (st16 (st16 zeroes 0 ty) 6 1) 0) as (H1 & H2 & H3 & H4); [lia|].
  split_and!; [etransitivity; [exact H1|]|done|exact H3|].
  - unfold di_type, ldshort. rewrite (ldn_stn_ne 2 2) by lia. unfold ld16, st16. rewrite ldn_stn_eq. rewrite Z.mod_small by lia.
    unfold i16. rewrite Z.mod_small by lia. lia.
  - intros k Hk. rewrite H4 by lia. unfold di_addr. unfold NDIRECT in Hk. apply ld32_zero. intros x Hx. unfold st16, stn. case_range; try lia. done.
Qed.

Lemma does_ialloc F ty s :
  fsys F s -> len F + 1 < NINODES -> 0 <= ty < 2 ^ 15 ->
  does (ialloc ty) s (fun i s' => i = 1 + len F /\ fsys (F ++ [(ty, [])]) s').
Proof.
  intros (c & own & Hs & Ha & HF & Hfs & Hmeta) Hn Ht. unfold ialloc. apply does_bind. eapply does_next_inode; [done|lia|].
  intros s1 Hs1. apply does_bind. fold (fresh_dinode ty). eapply does_winode; [done|unfold inum_ok; lia|].
  intros s2 c2 Hs2 Hdi Hdj Hrest. apply does_ret. split; [done|]. exists c2, own. rewrite total_app, length_app. cbn [length snd].
  change (space (len [])) with 0. rewrite Z.add_0_r. replace (1 + Z.of_nat (length F + 1)) with (1 + len F + 1) by lia. split; [done|].
  destruct Ha as [A1 A2 A3]. assert (forall b, nmeta <= b -> c2 b = c b) as Hc2 by (intros b Hb; apply Hrest; change nmeta with 46 in Hb; lia).
  split_and!; [|rewrite length_app; cbn [length]; lia| |].
  - split; rewrite total_app; cbn [snd]; change (space (len [])) with 0; rewrite Z.add_0_r; try done. intros b o Hb Ho. rewrite Hc2 by lia. by apply A3.
  - intros n f [[Hln Hl]|[Hl E]]%lookup_snoc_Some.
    + assert (inum_ok (1 + Z.of_nat n)) as Hin by (unfold inum_ok; lia). eapply inode_is_frame; [by apply Hfs|apply Hdj; [done|lia]|].
      intros b k Hb. split; [done|]. intros o Ho. rewrite Hc2; [done|]. apply A2 in Hb. lia.
    + subst n f. cbn [fst snd]. destruct (deq_fields _ _ Hdi) as (E1 & E2 & E3 & E4). destruct (fresh_fields ty Ht) as (T1 & T2 & T3 & T4).
      split; [|by rewrite E3|by rewrite E1|by rewrite E2]. change (nblk (len [])) with 0. change (has_ind 0) with false. split; cbn [length]; try lia.
      * change MAXFILE with 268. lia.
      * split; [|unfold NDIRECT; lia]. rewrite E4, T4; unfold NDIRECT; lia.
      * intros k Hk [Hk'|]; [|done]. rewrite fblk_direct, E4 by lia. apply T4. lia.
  - intros b o Hb Ho. rewrite Hrest by (unfold meta_block in Hb; lia). by apply Hmeta.
Qed.

(** ** main() *)

(** All sectors cleared and the super block written: a file system with no inode. *)
Lemma does_clear Q :
  (forall s, fsys [] s -> Q tt s) ->
  does (mbind (mfor (upto FSSIZE) (fun i => wsect i zeroes)) (fun _ => wsect 1 (sb_bytes the_sb))) image0 Q.
Proof.
  intros HQ. apply does_bind. eapply (does_for _ _ (fun l1 s => (forall a, g_img s a = 0) /\ g_len s = len l1 * BSIZE /\
    g_sb s = the_sb /\ freeinode s = 1 /\ freeblock s = nmeta)); [done| |].
  - intros l1 x l2 s E (H1 & H2 & H3). unfold does, wsect.
    assert (x = len l1 /\ len l1 < FSSIZE) as [-> Hl].
    { change FSSIZE with (Z.of_nat 1000) in *. pose proof (list_lookup_middle l1 l2 x _ eq_refl) as Hx. rewrite <- E in Hx.
      apply upto_lookup in Hx. lia. }
    cbn [g_img g_len g_sb freeinode freeblock]. split; [|split; [|exact H3]].
    + intros a. unfold memcopy. case_range; [done|apply H1].
    + rewrite H2, length_app, u32_small by (unfold FSSIZE, BSIZE in *; lia). simpl. unfold BSIZE. lia.
  - intros s (H1 & H2 & H3 & H4 & H5). eapply (does_wsect s (fun _ => zeroes) 1 nmeta); [split; try done|done|].
    intros s' Hs'. apply HQ. exists meta, (fun _ => None). split; [exact Hs'|]. split_and!; [|done|done|done].
    split; [done|done|]. intros b o Hb Ho. unfold meta. rewrite fupd_ne; [done|]. change (nmeta + total []) with 46 in Hb. lia.
Qed.

Lemma length_dirent i name : len (dirent i name) = 16.
Proof. unfold dirent, peekn. rewrite length_map, length_seq. reflexivity. Qed.

(** What the image is to hold. *)
Definition contents (h : host) (arg : cstr) : list Z := match h_read h arg with Some ps => concat ps | None => [] end.
Definition entry_name (arg : cstr) : cstr := skip_underscore (shortname arg).

Fixpoint entries (i : Z) (args : list cstr) : list Z :=
  match args with [] => [] | a :: args => dirent i (entry_name a) ++ entries (i + 1) args end.
Definition root_of (args : list cstr) : list Z := dirent 1 (lit ".") ++ dirent 1 (lit "..") ++ entries 2 args.
Definition the_files (h : host) (args : list cstr) : files := (T_DIR, root_of args) :: map (fun a => (T_FILE, contents h a)) args.

Lemma entries_app i l1 l2 : entries i (l1 ++ l2) = entries i l1 ++ entries (i + len l1) l2.
Proof.
  revert i. induction l1 as [|a l1 IH]; intros i; cbn [app entries length]; [f_equal; lia|]. rewrite IH, app_assoc. do 2 f_equal. lia.
Qed.

Lemma length_entries i args : len (entries i args) = 16 * len args.
Proof. revert i. induction args as [|a args IH]; intros i; cbn [entries length]; [done|]. rewrite length_app. pose proof (length_dirent i (entry_name a)). specialize (IH (i + 1)). lia. Qed.

Lemma length_root args : len (root_of args) = 16 * (2 + len args).
Proof. unfold root_of. rewrite !length_app. pose proof (length_entries 2 args). rewrite !Nat2Z.inj_add, !length_dirent. lia. Qed.

(** The input: files that can be read, with names without a slash, and that fit. *)
Record input_ok (h : host) (args : list cstr) : Prop := {
  in_open : forall a, a ∈ args -> exists ps, h_read h a = Some ps;
  in_name : forall a, a ∈ args -> forallb (fun c => negb (c =? slash)) (shortname a) = true;
  in_size : forall a, a ∈ args -> len (contents h a) <= MAXFILE * BSIZE;
  in_inodes : len args + 1 < NINODES;
  in_blocks : nmeta + total (the_files h args) <= FSSIZE;
}.

Lemma space_pos n : 0 <= n -> 0 <= space n.
Proof. intros H. pose proof (space_mono 0 n H). done. Qed.

Lemma total_pos F : 0 <= total F.
Proof. unfold total. induction F as [|f F IH]; simpl; [lia|]. pose proof (space_pos (len (snd f)) ltac:(lia)). lia. Qed.

Lemma total_app_list F G : total (F ++ G) = total F + total G.
Proof. unfold total. induction F as [|f F IH]; simpl; [lia|]. rewrite IH. lia. Qed.

(** What is written while file [a] is added fits when the whole does. *)
Lemma total_partial h l1 a l2 r (L : list Z) :
  r <= 16 * (3 + len l1) -> len L <= len (contents h a) ->
  space r + (total (map (fun a => (T_FILE, contents h a)) l1) + space (len L)) <= total (the_files h (l1 ++ a :: l2)).
Proof.
  intros Hr HL. unfold the_files. rewrite map_app. unfold total at 2. cbn [foldr snd]. fold (total (map (fun a => (T_FILE, contents h a)) l1 ++ map (fun a => (T_FILE, contents h a)) (a :: l2))).
  rewrite total_app_list. cbn [map]. unfold total at 3. cbn [foldr snd]. fold (total (map (fun a => (T_FILE, contents h a)) l2)).
  pose proof (total_pos (map (fun a => (T_FILE, contents h a)) l2)). pose proof (space_mono _ _ HL).
  assert (space r <= space (len (root_of (l1 ++ a :: l2)))) by (apply space_mono; rewrite length_root, length_app; cbn [length]; lia). lia.
Qed.

Lemma does_pieces ps F n ty L s :
  fsys F s -> F !! n = Some (ty, L) -> len (L ++ concat ps) <= MAXFILE * BSIZE ->
  nmeta + total (<[n := (ty, L ++ concat ps)]> F) <= FSSIZE ->
  does (mfor ps (iappend (1 + Z.of_nat n))) s (fun _ => fsys (<[n := (ty, L ++ concat ps)]> F)).
Proof.
  revert F L s. induction ps as [|p ps IH]; intros F L s Hs Hn Hmax Hroom; cbn [mfor concat] in *.
  { apply does_ret. by rewrite app_nil_r, list_insert_id. }
  rewrite (total_insert _ _ _ _ Hn) in Hroom. cbn [snd] in Hroom. rewrite !length_app in *.
  pose proof (space_mono (len (L ++ p)) (Z.of_nat (length L + (length p + length (concat ps))))) as Hm. rewrite length_app in Hm.
  apply does_bind. eapply does_mono.
  { eapply does_iappend; [done|done|rewrite length_app; lia|]. rewrite (total_insert _ _ _ _ Hn). cbn [snd]. rewrite length_app. lia. }
  intros ? s1 Hs1. cbv beta in Hs1. pose proof (lookup_lt_Some _ _ _ Hn) as Hlt.
  replace (L ++ p ++ concat ps) with ((L ++ p) ++ concat ps) by by rewrite app_assoc.
  rewrite <- (list_insert_insert_eq F n _ (ty, L ++ p)).
  apply IH; [done|by apply list_lookup_insert_eq|rewrite !length_app; lia|].
  rewrite list_insert_insert_eq, (total_insert _ _ _ _ Hn). cbn [snd]. rewrite !length_app.
  replace (Z.of_nat (length L + length p + length (concat ps))) with (Z.of_nat (length L + (length p + length (concat ps)))) by lia. lia.
Qed.

Lemma insert_last {A} (l : list A) x y : <[length l := y]> (l ++ [x]) = l ++ [y].
Proof. induction l as [|z l IH]; [done|]. exact (f_equal (cons z) IH). Qed.

Lemma does_add_file h args l1 a l2 s :
  input_ok h args -> args = l1 ++ a :: l2 -> fsys (the_files h l1) s ->
  does (add_file h 1 a) s (fun _ => fsys (the_files h (l1 ++ [a]))).
Proof.
  intros [H1 H2 H3 H4 H5] E Hs. assert (a ∈ args) as Ha by (rewrite E; apply elem_of_app; right; constructor). destruct (H1 a Ha) as [ps Hps].
  assert (len args = len l1 + 1 + len l2) as El by (rewrite E, length_app; cbn [length]; lia).
  pose proof (H3 a Ha) as Hsize. unfold contents in Hsize. rewrite Hps in Hsize.
  unfold add_file. rewrite Hps. apply does_bind, does_assert; [by apply H2|]. cbv zeta. fold (entry_name a). apply does_bind.
  set (G := map (fun a => (T_FILE, contents h a)) l1). assert (length G = length l1) as EG by (unfold G; by rewrite length_map).
  eapply does_mono.
  { apply does_ialloc; [exact Hs|unfold the_files; cbn [length]; rewrite length_map; lia|done]. }
  intros i s1 [-> Hs1]. replace (1 + len (the_files h l1)) with (2 + len l1) by (unfold the_files; cbn [length]; rewrite length_map; lia).
  unfold the_files in Hs1. cbn [app] in Hs1. fold G in Hs1.
  pose proof (total_partial h l1 a l2 (16 * (3 + len l1)) (contents h a) ltac:(lia) ltac:(lia)) as Hfull. rewrite <- E in Hfull. fold G in Hfull.
  pose proof (space_pos (len (contents h a)) ltac:(lia)) as Hc0. unfold contents in Hfull, Hc0. rewrite Hps in Hfull, Hc0.
  set (d := dirent (2 + len l1) (entry_name a)). assert (len (root_of l1 ++ d) = 16 * (3 + len l1)) as Ed.
  { rewrite length_app, Nat2Z.inj_add, length_root. unfold d. rewrite length_dirent. lia. }
  apply does_bind. eapply does_mono.
  { eapply (does_iappend _ 0 T_DIR (root_of l1)); [exact Hs1|done| |].
    - rewrite Ed. change MAXFILE with 268. unfold NINODES, BSIZE in *. lia.
    - cbn [insert list_insert]. unfold total. cbn [foldr snd]. fold (total (G ++ [(T_FILE, [])])). rewrite Ed, total_app. cbn [snd].
      change (space (len [])) with 0. lia. }
  intros ? s2 Hs2. cbv beta in Hs2. cbn [insert list_insert] in Hs2.
  assert (<[S (length G) := (T_FILE, [] ++ concat ps)]> ((T_DIR, root_of l1 ++ d) :: G ++ [(T_FILE, [])]) =
    (T_DIR, root_of l1 ++ d) :: G ++ [(T_FILE, concat ps)]) as EI by apply (f_equal (cons _)), insert_last.
  replace (2 + len l1) with (1 + Z.of_nat (S (length G))) by lia. eapply does_mono.
  { eapply (does_pieces ps _ (S (length G)) T_FILE []); [exact Hs2| |exact Hsize|].
    - cbn [lookup list_lookup]. by apply list_lookup_middle.
    - rewrite EI. unfold total. cbn [foldr snd]. fold (total (G ++ [(T_FILE, concat ps)])). rewrite Ed, total_app. cbn [snd]. lia. }
  intros ? s3 Hs3. cbv beta in Hs3. rewrite EI in Hs3. unfold the_files. rewrite map_app. fold G. cbn [map]. unfold contents at 1. rewrite Hps.
  replace (root_of (l1 ++ [a])) with (root_of l1 ++ d); [done|]. unfold root_of, d. rewrite entries_app. cbn [entries]. by rewrite app_nil_r, !app_assoc.
Qed.

Lemma does_mkroot h s : fsys [] s -> does mkroot s (fun i s' => i = 1 /\ fsys (the_files h []) s').
Proof.
  intros Hs. unfold mkroot. apply does_bind. eapply does_mono; [by apply does_ialloc|]. intros i s1 [-> Hs1].
  apply does_bind, does_assert; [done|]. change (1 + len []) with 1. apply does_bind. cbn [app] in Hs1.
  pose proof (length_dirent 1 (lit ".")) as E1. pose proof (length_dirent 1 (lit "..")) as E2.
  set (d1 := dirent 1 (lit ".")) in *. set (d2 := dirent 1 (lit "..")) in *.
  eapply does_mono; [eapply (does_iappend _ 0 T_DIR []); [exact Hs1|done|..]|].
  - cbn [app]. rewrite E1. done.
  - cbn [insert list_insert app total foldr snd]. rewrite E1. done.
  - intros ? s2 Hs2. cbv beta in Hs2. cbn [insert list_insert app] in Hs2. apply does_bind. eapply does_mono; [eapply (does_iappend _ 0 T_DIR d1); [exact Hs2|done|..]|].
    + rewrite length_app, Nat2Z.inj_add, E1, E2. done.
    + cbn [insert list_insert total foldr snd]. rewrite length_app, Nat2Z.inj_add, E1, E2. done.
    + intros ? s3 Hs3. cbv beta in Hs3. cbn [insert list_insert] in Hs3. apply does_ret. split; [done|]. unfold the_files, root_of. cbn [entries map]. by rewrite app_nil_r.
Qed.

(** ** The finished image *)

Lemma used_bits_ok n j : 0 <= j ->
  0 <= used_bits zeroes n (j / 8) < 256 /\ Z.testbit (used_bits zeroes n (j / 8)) (j mod 8) = (j <? Z.of_nat n).
Proof.
  intros Hj. induction n as [|n IH]; cbn [used_bits].
  { split; [done|]. unfold zeroes. rewrite Z.testbit_0_l. symmetry. apply Z.ltb_ge. lia. }
  set (b := used_bits zeroes n) in *. unfold fupd. case_decide as E; [|].
  - rewrite <- E in *. unfold u8. split; [by apply Z.mod_pos_bound|]. rewrite Z.mod_pow2_bits_low by (pose proof (Z.mod_pos_bound j 8); lia).
    rewrite Z.lor_spec, (proj2 IH), Z.shiftl_mul_pow2, Z.mul_1_l, Z.pow2_bits_eqb by (apply Z.mod_pos_bound; lia).
    apply eq_bool_prop_intro. rewrite !Is_true_true, orb_true_iff, Z.eqb_eq, !Z.ltb_lt. Z.to_euclidean_division_equations. lia.
  - split; [apply IH|]. rewrite (proj2 IH). apply eq_bool_prop_intro. rewrite !Is_true_true, !Z.ltb_lt.
    assert (j <> Z.of_nat n) by congruence. lia.
Qed.

(** The sectors of the image file. *)
Definition sectors (s : image) : disk := fun b i => g_img s (b * BSIZE + i).

(** An inode as ilock() loads it. *)
Definition inode_at (c : disk) (inum : Z) : inode := dinode_get (c (IBLOCK inum the_sb)) (dip_off inum) inode0.

(** The kernel finds an inode of this type and size with contents [L]. *)
Definition holds (c : disk) (inum ty size : Z) (L : list Z) : Prop :=
  let ip := inode_at c inum in
  i_type ip = ty /\ i_nlink ip = 1 /\ i_size ip = size /\ fbytes c (i_addrs ip) 0 (length L) = L.

(** The root directory is padded to whole blocks. *)
Definition root_size (args : list cstr) : Z := (len (root_of args) / BSIZE + 1) * BSIZE.
Definition size_of (args : list cstr) (n : nat) (f : Z * list Z) : Z := if decide (n = O) then root_size args else len (snd f).

(** The finished disk. *)
Record built (h : host) (args : list cstr) (c : disk) : Prop := {
  bu_sb : superblock_of (c 1) = mkSuperblock FSMAGIC 1000 954 200 30 2 32 45;
  bu_log : ldint (c 2) 0 = 0;
  bu_root : holds c ROOTINO T_DIR (root_size args) (root_of args);
  bu_pad : forall o, len (root_of args) <= o < nblk (len (root_of args)) * BSIZE -> fbyte c (i_addrs (inode_at c ROOTINO)) o = 0;
  bu_files : forall n a, args !! n = Some a -> holds c (2 + Z.of_nat n) T_FILE (len (contents h a)) (contents h a);
  bu_map : forall b, 0 <= b < FSSIZE -> Z.testbit (c 45 (b / 8)) (b mod 8) = (b <? nmeta + total (the_files h args));
  bu_used : forall n f k, the_files h args !! n = Some f -> 0 <= k < nblk (len (snd f)) ->
    nmeta <= fblk c (i_addrs (inode_at c (1 + Z.of_nat n))) k < nmeta + total (the_files h args);
  bu_ind : forall n f, the_files h args !! n = Some f -> NDIRECT < nblk (len (snd f)) ->
    nmeta <= i_addrs (inode_at c (1 + Z.of_nat n)) NDIRECT < nmeta + total (the_files h args);
  bu_disjoint : forall n f k n' f' k', the_files h args !! n = Some f -> 0 <= k < nblk (len (snd f)) ->
    the_files h args !! n' = Some f' -> 0 <= k' < nblk (len (snd f')) ->
    fblk c (i_addrs (inode_at c (1 + Z.of_nat n))) k = fblk c (i_addrs (inode_at c (1 + Z.of_nat n'))) k' -> n = n' /\ k = k';
}.

(** The same for the abstract disk of the construction. *)
Record final (h : host) (args : list cstr) (c : disk) (own : owners) : Prop := {
  fi_area : forall b p, own b = Some p -> nmeta <= b < nmeta + total (the_files h args);
  fi_files : forall n f, the_files h args !! n = Some f -> inode_is c own (1 + Z.of_nat n) (fst f) (size_of args n f) (snd f);
  fi_meta : forall b o, 0 <= b < 32 -> 0 <= o < BSIZE -> c b o = meta b o;
  fi_map : forall o, 0 <= o < BSIZE -> c 45 o = used_bits zeroes (Z.to_nat (nmeta + total (the_files h args))) o;
}.

Lemma final_ext h args c c' own : input_ok h args -> (forall b o, 0 <= b < FSSIZE -> 0 <= o < BSIZE -> c' b o = c b o) ->
  final h args c own -> final h args c' own.
Proof.
  intros Hin Hc [H1 H2 H3 H4]. pose proof (in_blocks _ _ Hin). split; [done|..].
  - intros n f Hn. assert (inum_ok (1 + Z.of_nat n)) as Hi.
    { apply lookup_lt_Some in Hn. unfold the_files in Hn. cbn [length] in Hn. rewrite length_map in Hn. pose proof (in_inodes _ _ Hin). unfold inum_ok. lia. }
    eapply inode_is_frame; [by apply H2| |].
    + intros o Ho. pose proof (mk_IBLOCK_range _ Hi). pose proof (dip_off_range (1 + Z.of_nat n)). apply Hc; [unfold FSSIZE; lia|lia].
    + intros b k Hb. split; [done|]. intros o Ho. apply Hc; [|done]. apply H1 in Hb. change nmeta with 46 in *. lia.
  - intros b o Hb Ho. rewrite Hc; [by apply H3|unfold FSSIZE; lia|done].
  - intros o Ho. rewrite Hc; [by apply H4|unfold FSSIZE; lia|done].
Qed.

Lemma fbytes_full c a nb L : 0 <= nb <= MAXFILE -> len L <= nb * BSIZE ->
  (forall o, 0 <= o < nb * BSIZE -> fbyte c a o = nth (Z.to_nat o) L 0) -> fbytes c a 0 (length L) = L.
Proof.
  intros Hnb HL Hb. apply (nth_ext _ _ 0 0); [apply length_fbytes|]. intros n Hn. rewrite length_fbytes in Hn.
  rewrite nth_fbytes, Hb by lia. f_equal. lia.
Qed.

Lemma fblk_inode_at c own inum ind nb L k : file_ok c own inum (dinode_at c the_sb inum) ind nb L -> 0 <= k < nb ->
  fblk c (i_addrs (inode_at c inum)) k = fblk c (di_addr (dinode_at c the_sb inum)) k.
Proof.
  intros [H1 _ _ _ _ _] Hk. destruct (dinode_get_at c the_sb inum inode0) as (_ & _ & _ & H).
  apply fblk_ext; [lia|intros; apply H; lia|]. intros _. split; [apply H; unfold NDIRECT; lia|done].
Qed.

Lemma fbyte_inode_at c own inum ind nb L o : file_ok c own inum (dinode_at c the_sb inum) ind nb L -> 0 <= o < nb * BSIZE ->
  fbyte c (i_addrs (inode_at c inum)) o = nth (Z.to_nat o) L 0.
Proof.
  intros Hf Ho. rewrite <- (fo_bytes _ _ _ _ _ _ _ Hf o Ho). unfold fbyte. f_equal. eapply fblk_inode_at; [done|].
  unfold BSIZE in *. Z.to_euclidean_division_equations. lia.
Qed.

Lemma inode_is_holds c own i ty sz L : inode_is c own i ty sz L -> holds c i ty sz L.
Proof.
  intros [H1 H2 H3 H4]. destruct (dinode_get_at c the_sb i inode0) as (E1 & E2 & E3 & _). unfold holds, inode_at.
  split_and!; [congruence..|]. eapply fbytes_full; [apply H1|apply H1|]. intros o Ho. by eapply fbyte_inode_at.
Qed.

Lemma final_built h args c own : input_ok h args -> final h args c own -> built h args c.
Proof.
  intros Hin [H1 H2 H3 H4]. pose proof (in_blocks _ _ Hin) as Hb.
  assert (forall n f k, the_files h args !! n = Some f -> 0 <= k < nblk (len (snd f)) ->
    own (fblk c (i_addrs (inode_at c (1 + Z.of_nat n))) k) = Some (1 + Z.of_nat n, k)) as Hown.
  { intros n f k Hn Hk. destruct (H2 n f Hn) as [Hf _ _ _]. rewrite (fblk_inode_at _ _ _ _ _ _ _ Hf Hk). by apply (fo_own _ _ _ _ _ _ _ Hf). }
  split.
  - rewrite <- the_sb_vals. unfold superblock_of.
    assert (forall o, 0 <= o <= 28 -> ld32 (c 1) o = ld32 (sb_bytes the_sb) o) as E.
    { intros o Ho. apply ld32_ext. intros i Hi. apply (H3 1); unfold BSIZE; lia. }
    rewrite !E by lia. reflexivity.
  - unfold ldint. rewrite ld32_zero; [done|]. intros i Hi. rewrite H3 by (unfold BSIZE; lia). done.
  - exact (inode_is_holds _ _ _ _ _ _ (H2 O _ eq_refl)).
  - intros o Ho. destruct (H2 O _ eq_refl) as [Hf _ _ _]. cbn [snd] in Hf. rewrite (fbyte_inode_at _ _ _ _ _ _ _ Hf) by lia.
    apply nth_overflow. lia.
  - intros n a Ha. pose proof (H2 (S n) (T_FILE, contents h a)) as Hi. replace (2 + Z.of_nat n) with (1 + Z.of_nat (S n)) by lia.
    eapply inode_is_holds. apply Hi.
    transitivity (((fun a => (T_FILE, contents h a)) <$> args) !! n); [done|]. by rewrite list_lookup_fmap, Ha.
  - intros b Hbb. pose proof (total_pos (the_files h args)). rewrite H4 by (unfold FSSIZE, BSIZE in *; Z.to_euclidean_division_equations; lia).
    rewrite (proj2 (used_bits_ok _ b ltac:(lia))). f_equal. change nmeta with 46. lia.
  - intros n f k Hn Hk. by eapply H1, Hown.
  - intros n f Hn Hk. destruct (H2 n f Hn) as [Hf _ _ _]. pose proof (fo_ind _ _ _ _ _ _ _ Hf) as Hi. unfold has_ind in Hi. rewrite (proj2 (Z.ltb_lt _ _)) in Hi by done.
    destruct (dinode_get_at c the_sb (1 + Z.of_nat n) inode0) as (_ & _ & _ & Ha). unfold inode_at. rewrite Ha by (unfold NDIRECT; lia). by apply H1 in Hi.
  - intros n f k n' f' k' Hn Hk Hn' Hk' E. pose proof (Hown _ _ _ Hn Hk) as Ho. rewrite E, (Hown _ _ _ Hn' Hk') in Ho.
    injection Ho. lia.
Qed.

Lemma does_fix_root h args s :
  input_ok h args -> fsys (the_files h args) s ->
  does (mbind (fix_root 1) (fun _ => mbind get_freeblock balloc)) s (fun _ s' => g_len s' = FSSIZE * BSIZE /\ exists c own,
    (forall b o, 0 <= b < FSSIZE -> 0 <= o < BSIZE -> g_img s' (b * BSIZE + o) = c b o) /\ final h args c own).
Proof.
  intros Hin (c & own & Hs & Ha & HF & Hfs & Hmeta). pose proof (in_blocks _ _ Hin) as Hb. pose proof (total_pos (the_files h args)) as Hp.
  pose proof (in_inodes _ _ Hin) as Hni.
  pose proof (Hfs O _ eq_refl) as [I1 I2 I3 I4]. cbn [fst snd] in *. change (1 + Z.of_nat 0) with 1 in *.
  apply does_bind. unfold fix_root. apply does_bind. eapply does_rinode; [done|done|]. intros D HD.
  destruct (deq_fields _ _ HD) as (D1 & D2 & D3 & D4). rewrite D3, I2. pose proof (length_root args) as Hlr.
  rewrite (xint_eq (len (root_of args))) by (unfold NINODES in *; lia). fold (root_size args).
  assert (0 <= root_size args < 2 ^ 32) as Hrs by (unfold root_size, NINODES, BSIZE in *; Z.to_euclidean_division_equations; lia).
  rewrite u32_small, xint_eq by done. eapply does_winode; [done|done|]. intros s1 c1 Hs1 Hdi Hdj Hrest.
  apply does_bind. unfold does at 1, get_freeblock. rewrite (ms_fb _ _ _ _ Hs1). unfold balloc.
  apply does_bind, does_assert; [apply Z.ltb_lt; unfold FSSIZE, BSIZE in *; lia|]. apply does_bind. unfold does at 1, get_sb.
  rewrite (ms_sb _ _ _ _ Hs1). change (sb_bmapstart the_sb) with 45. eapply does_wsect; [done|done|]. intros s2 Hs2.
  split; [apply (ms_len _ _ _ _ Hs2)|]. do 2 eexists. split; [apply (ms_img _ _ _ _ Hs2)|]. instantiate (1 := own).
  destruct Ha as [A1 A2 A3]. split; [exact A2|..].
  - intros n f Hn. assert (inum_ok (1 + Z.of_nat n)) as Hi by by eapply inum_of.
    pose proof (mk_IBLOCK_range _ Hi) as Hr. assert (forall b k, own b = Some (1 + Z.of_nat n, k) -> own b = Some (1 + Z.of_nat n, k) /\
      forall o, 0 <= o < BSIZE -> c1.[45 := used_bits zeroes (Z.to_nat (nmeta + total (the_files h args)))] b o = c b o) as Hc.
    { intros b k Hbk. split; [done|]. intros o Ho. apply A2 in Hbk. change nmeta with 46 in *. rewrite fupd_ne, Hrest by lia. done. }
    destruct n as [|n].
    + injection Hn as <-. cbn [fst snd]. change (1 + Z.of_nat 0) with 1 in *. unfold size_of. rewrite decide_True by done.
      assert (dinode_at c1.[45 := used_bits zeroes (Z.to_nat (nmeta + total (the_files h args)))] the_sb 1 = dinode_at c1 the_sb 1) as E.
      { unfold dinode_at. by rewrite fupd_ne by lia. }
      destruct (deq_fields _ _ Hdi) as (E1 & E2 & E3 & E4). destruct (set_size_fields D _ Hrs) as (S1 & S2 & S3 & S4).
      split; rewrite E; [|congruence..]. eapply file_frame; [exact I1| |exact Hc]. intros k Hk. rewrite E4, S4, D4 by lia. done.
    + unfold size_of. rewrite decide_False by done. eapply inode_is_frame; [by apply Hfs| |exact Hc].
      intros o Ho. unfold dinode_at at 1. rewrite fupd_ne by lia. apply Hdj; [done|lia|done].
  - intros b o Hbo Ho. rewrite fupd_ne, Hrest by lia. apply Hmeta; [|done]. unfold meta_block. lia.
  - intros o Ho. by rewrite fupd_eq.
Qed.

Lemma does_build h args :
  input_ok h args ->
  does (build h args) image0 (fun _ s' => g_len s' = FSSIZE * BSIZE /\ exists c own,
    (forall b o, 0 <= b < FSSIZE -> 0 <= o < BSIZE -> g_img s' (b * BSIZE + o) = c b o) /\ final h args c own).
Proof.
  intros Hin. unfold build. apply does_bind_assoc. apply does_bind, does_clear. intros s1 Hs1. apply does_bind. eapply does_mono; [by apply (does_mkroot h)|].
  intros i s2 [-> Hs2]. apply does_bind. eapply (does_for _ _ (fun l1 => fsys (the_files h l1))); [exact Hs2| |].
  - intros l1 a l2 s E Hs. by apply (does_add_file h args l1 a l2).
  - intros s3 Hs3. by apply does_fix_root.
Qed.

(** C26: the image mkfs writes is a file system for the kernel: for input files that can
    be opened and fit, main() ends normally, and on the disk it leaves the kernel
    finds the super block with the magic number and the layout, an empty log, a root
    directory that is the entries ., .. and one per file in order, padded with free
    entries, and under each entry an inode with one link, the size and exactly the
    bytes of the host file, whatever pieces read() delivered; the free map has the
    bits of exactly the allocated blocks, every file block is allocated, and no two
    file blocks are the same. *)
Theorem mkfs_builds h prog img args :
  h_create h img = true -> input_ok h args ->
  exists s, mkfs_main h (prog :: img :: args) = Done tt s /\ g_len s = FSSIZE * BSIZE /\ built h args (sectors s).
Proof.
  intros Hc Hin. destruct (does_done _ _ _ (does_build h args Hin)) as ([] & s & E & Hl & c & own & Himg & Hf). exists s.
  split; [unfold mkfs_main; rewrite Hc; exact E|]. split; [exact Hl|].
  eapply final_built; [exact Hin|]. eapply final_ext; [exact Hin|exact Himg|exact Hf].
Qed.

(** Two input files, one of them delivered in two pieces. *)
Definition host2 : host :=
  mkHost (fun _ => true) (fun a => if decide (a = lit "user/_cat") then Some [[1; 2; 3]; [4; 5]]
    else if decide (a = lit "README") then Some [[6; 7]] else None).
Definition args2 : list cstr := [lit "user/_cat"; lit "README"].

Lemma mkfs_builds_witness :
  exists s, mkfs_main host2 (lit "mkfs" :: lit "fs.img" :: args2) = Done tt s /\
    holds (sectors s) 2 T_FILE 5 [1; 2; 3; 4; 5] /\ holds (sectors s) 3 T_FILE 2 [6; 7] /\
    holds (sectors s) 1 T_DIR 1024 (dirent 1 (lit ".") ++ dirent 1 (lit "..") ++ dirent 2 (lit "cat") ++ dirent 3 (lit "README")).
Proof.
  destruct (mkfs_builds host2 (lit "mkfs") (lit "fs.img") args2) as (s & E & _ & [_ _ H3 _ H5 _ _ _ _]); [done| |].
  - split; [| | |done|by vm_compute].
    + intros a [->|[->|[]%elem_of_nil]%elem_of_cons]%elem_of_cons; by eexists.
    + intros a [->|[->|[]%elem_of_nil]%elem_of_cons]%elem_of_cons; done.
    + intros a [->|[->|[]%elem_of_nil]%elem_of_cons]%elem_of_cons; by vm_compute.
  - exists s. split; [exact E|]. split; [exact (H5 0%nat (lit "user/_cat") eq_refl)|]. split; [exact (H5 1%nat (lit "README") eq_refl)|exact H3].
Defined.
