(* ===== verification/ImageSpec.v ===== *)
(** * The kernel on the image of mkfs

    The disk that mkfs writes is a tree the kernel can walk, and a path to one of the
    files put into the image leads to an inode whose contents are the bytes of the
    host file: the theorems about mkfs.c and about fs.c are composed over the same
    disk. *)

From S2P Require Import User MkFs MkFsSpec.
From S2P Require Import Prelude State Spinlock CString Kalloc Sched SchedSpec Vm VmSpec ProcMem Wp Sleeplock Bio BioSpec Log Fs FsView FsSpec NameSpec.
Open Scope Z_scope.
Open Scope kern_scope.

(** ** Directory entries *)

Lemma strncpy_in m s mt t n j :
  (forall a b, t <= a <= b -> mt a = 0 -> mt b = 0) -> 0 <= j < Z.of_nat n -> strncpy m s mt t n (s + j) = mt (t + j).
Proof.
  revert m s t j. induction n as [|n IH]; intros m s t j Hz Hj; [lia|]. cbn [strncpy]. destruct (Z.eqb_spec (mt t) 0) as [E|E].
  - rewrite zerofill_spec. case_range.
    + symmetry. apply (Hz t); [lia|done].
    + assert (j = 0) as -> by lia. by rewrite !Z.add_0_r, fupd_eq.
  - destruct (decide (j = 0)) as [->|Hne].
    + rewrite strncpy_out by lia. by rewrite !Z.add_0_r, fupd_eq.
    + replace (s + j) with (s + 1 + (j - 1)) by lia. rewrite IH; [f_equal; lia| |lia]. intros a b Hab. apply Hz. lia.
Qed.

Lemma local_bytes_nul name a : local_bytes (name ++ [0]) a = local_bytes name a.
Proof.
  destruct (decide (0 <= a)) as [Ha|Ha].
  - rewrite !local_bytes_nth by done. destruct (decide (Z.to_nat a < length name)%nat); [by rewrite app_nth1|].
    rewrite (nth_overflow name) by lia. destruct (decide (Z.to_nat a = length name)) as [->|]; [rewrite app_nth2 by lia; by rewrite Nat.sub_diag|].
    apply nth_overflow. rewrite length_app. simpl. lia.
  - unfold local_bytes, memput. case_range; try lia; done.
Qed.

Lemma local_bytes_ends name : 0 ∉ name -> forall a b, 0 <= a <= b -> local_bytes (name ++ [0]) a = 0 -> local_bytes (name ++ [0]) b = 0.
Proof.
  intros H0 a b Hab. rewrite !local_bytes_nul, !local_bytes_nth by lia. intros E. apply nth_overflow.
  destruct (decide (length name <= Z.to_nat b)%nat); [done|]. exfalso. apply H0. rewrite <- E. apply list_elem_of_In, nth_In. lia.
Qed.

Lemma peekn_local m a n o : 0 <= o < Z.of_nat n -> local_bytes (peekn m a n) o = m (a + o).
Proof.
  intros Ho. rewrite local_bytes_nth by lia. unfold peekn.
  rewrite (nth_indep _ 0 (m (a + Z.of_nat 0))) by (rewrite length_map, length_seq; lia).
  rewrite (map_nth (fun i => m (a + Z.of_nat i))), seq_nth by lia. f_equal. lia.
Qed.

Lemma dirent_inum i name : 0 <= i < 2 ^ 16 -> de_inum (local_bytes (dirent i name)) = i.
Proof.
  intros Hi. unfold de_inum, dirent. rewrite xshort_eq by done. transitivity (ld16 (st16 zeroes 0 i) 0).
  - apply ld16_ext. intros o Ho. rewrite peekn_local by (change (Z.to_nat sizeof_dirent) with 16%nat; lia). apply strncpy_out. lia.
  - unfold ld16, st16. rewrite ldn_stn_eq. by apply Z.mod_small.
Qed.

Lemma dirent_name i name j : 0 ∉ name -> 0 <= j < 14 -> de_name (local_bytes (dirent i name)) j = local_bytes name j.
Proof.
  intros H0 Hj. unfold de_name, dirent. rewrite peekn_local by (change (Z.to_nat sizeof_dirent) with 16%nat; lia). rewrite Z.add_0_l.
  rewrite strncpy_in; [apply local_bytes_nul|by apply local_bytes_ends|done].
Qed.

Lemma strncmp_ext2 m b b' q q' n : forall p, (forall i, 0 <= i < Z.of_nat n -> b (q + i) = b' (q' + i)) -> strncmp m b p q n = strncmp m b' p q' n.
Proof.
  revert q q'. induction n as [|n IH]; intros q q' p H; [done|]. cbn [strncmp].
  assert (b q = b' q') as -> by (specialize (H 0 ltac:(lia)); by rewrite !Z.add_0_r in H).
  rewrite (IH (q + 1) (q' + 1)); [done|]. intros i Hi. specialize (H (i + 1) ltac:(lia)). rewrite <- !Z.add_assoc, !(Z.add_comm 1 i). done.
Qed.

Lemma namecmp_dirent x i name : 0 ∉ name -> namecmp x (de_name (local_bytes (dirent i name))) = namecmp x (local_bytes name).
Proof. intros H0. unfold namecmp. apply strncmp_ext2. intros j Hj. rewrite Z.add_0_l. apply dirent_name; [done|]. change (Z.of_nat (Z.to_nat DIRSIZ)) with 14 in Hj. lia. Qed.

(** ** The root directory as a list of entries *)

Fixpoint ents (i : Z) (args : list cstr) : list (Z * cstr) :=
  match args with [] => [] | a :: args => (i, entry_name a) :: ents (i + 1) args end.
Definition root_ents (args : list cstr) : list (Z * cstr) := (1, lit ".") :: (1, lit "..") :: ents 2 args.

Lemma entries_ents i args : entries i args = concat (map (fun e => dirent (fst e) (snd e)) (ents i args)).
Proof. revert i. induction args as [|a args IH]; intros i; cbn [entries ents map concat fst snd]; [done|]. by rewrite IH. Qed.

Lemma root_of_ents args : root_of args = concat (map (fun e => dirent (fst e) (snd e)) (root_ents args)).
Proof. unfold root_of, root_ents. cbn [map concat fst snd]. by rewrite entries_ents. Qed.

Lemma length_ents i args : length (ents i args) = length args.
Proof. revert i. induction args as [|a args IH]; intros i; simpl; [done|]. by rewrite IH. Qed.

Lemma ents_lookup i args k a : args !! k = Some a -> ents i args !! k = Some (i + Z.of_nat k, entry_name a).
Proof.
  revert i k. induction args as [|x args IH]; intros i [|k]; cbn [ents]; try done.
  - intros [= ->]. cbn. by rewrite Z.add_0_r.
  - intros H. cbn. rewrite (IH _ _ H). do 2 f_equal. lia.
Qed.

Lemma ents_inv i args k e : ents i args !! k = Some e -> exists a, args !! k = Some a /\ e = (i + Z.of_nat k, entry_name a).
Proof.
  intros H. pose proof (lookup_lt_Some _ _ _ H) as Hl. rewrite length_ents in Hl. apply lookup_lt_is_Some in Hl as [a Ha].
  exists a. split; [done|]. rewrite (ents_lookup _ _ _ _ Ha) in H. congruence.
Qed.

(** Chunk [j] of lists of the same length. *)
Lemma concat_chunk (L : list (list Z)) w j x o : (forall y, y ∈ L -> length y = w) -> L !! j = Some x -> (o < w)%nat ->
  nth (w * j + o) (concat L) 0 = nth o x 0.
Proof.
  revert j. induction L as [|y L IH]; intros j Hw Hj Ho; [done|]. assert (length y = w) as Ey by (apply Hw; constructor). cbn [concat].
  destruct j as [|j].
  - injection Hj as ->. rewrite Nat.mul_0_r. cbn [Nat.add]. rewrite app_nth1 by lia. done.
  - cbn in Hj. rewrite app_nth2 by lia. rewrite <- (IH j); [f_equal; lia| |done|done]. intros z Hz. apply Hw. by constructor.
Qed.

(** ** The image is a tree *)

Section Image.
Context (h : host) (args : list cstr) (c : disk).
Hypothesis Hin : input_ok h args.
Hypothesis Hb : built h args c.
Hypothesis Hnul : forall a, a ∈ args -> 0 ∉ entry_name a.
(** Else the size of the root directory exceeds its blocks. *)
Hypothesis Hpad : len (root_of args) mod BSIZE <> 0.

Definition used (n : Z) : Prop := 1 <= n <= 1 + len args.

Lemma used_inum n : used n -> inum_ok n.
Proof. pose proof (in_inodes _ _ Hin). unfold used, inum_ok. lia. Qed.

Lemma inode_at_eq n : i_type (inode_at c n) = dtype c the_sb n /\ i_nlink (inode_at c n) = di_nlink (dinode_at c the_sb n) /\
  i_size (inode_at c n) = dsize c the_sb n /\ forall k, 0 <= k <= NDIRECT -> i_addrs (inode_at c n) k = daddr c the_sb n k.
Proof. apply dinode_get_at. Qed.

Lemma used_cases n : used n -> n = 1 \/ exists k a, args !! k = Some a /\ n = 2 + Z.of_nat k.
Proof.
  intros [H1 H2]. destruct (decide (n = 1)) as [|Hne]; [by left|]. right. assert (Z.to_nat (n - 2) < length args)%nat as Hl by lia.
  apply lookup_lt_is_Some in Hl as [a Ha]. exists (Z.to_nat (n - 2)), a. split; [done|]. lia.
Qed.

Lemma used_fields n : used n -> (n = 1 /\ dtype c the_sb n = T_DIR \/ n <> 1 /\ dtype c the_sb n = T_FILE) /\ di_nlink (dinode_at c the_sb n) = 1.
Proof.
  intros Hn. destruct (inode_at_eq n) as (E1 & E2 & _ & _). rewrite <- E1, <- E2. destruct (used_cases n Hn) as [->|(k & a & Ha & ->)].
  - destruct (bu_root _ _ _ Hb) as (H1 & H2 & _). split; [by left|done].
  - destruct (bu_files _ _ _ Hb k a Ha) as (H1 & H2 & _). split; [right; split; [lia|done]|done].
Qed.

Lemma used_dir n : used n -> dtype c the_sb n = T_DIR -> n = 1.
Proof. intros Hn Ht. destruct (used_fields n Hn) as [[[-> _]|[_ Hf]] _]; [done|]. rewrite Hf in Ht. done. Qed.

Lemma root_size_eq : dsize c the_sb 1 = nblk (len (root_of args)) * BSIZE /\ 0 < nblk (len (root_of args)) < NDIRECT.
Proof.
  destruct (inode_at_eq 1) as (_ & _ & E3 & _). destruct (bu_root _ _ _ Hb) as (_ & _ & H3 & _). rewrite <- E3. change 1 with ROOTINO at 1. rewrite H3.
  pose proof (length_root args). pose proof (in_inodes _ _ Hin). unfold root_size, nblk, NINODES, NDIRECT, BSIZE in *.
  Z.to_euclidean_division_equations. lia.
Qed.

Lemma root_byte o : 0 <= o < nblk (len (root_of args)) * BSIZE -> fbyte c (daddr c the_sb 1) o = nth (Z.to_nat o) (root_of args) 0.
Proof.
  intros Ho. destruct (inode_at_eq 1) as (_ & _ & _ & E4).
  assert (fbyte c (daddr c the_sb 1) o = fbyte c (i_addrs (inode_at c 1)) o) as ->.
  { unfold fbyte. f_equal. apply fblk_agree; [intros; symmetry; by apply E4|]. unfold BSIZE. Z.to_euclidean_division_equations. lia. }
  destruct (decide (o < len (root_of args))) as [Hlt|Hge].
  - destruct (bu_root _ _ _ Hb) as (_ & _ & _ & H4). rewrite <- H4 at 1. rewrite nth_fbytes by lia. f_equal. lia.
  - rewrite (nth_overflow (root_of args)) by lia. apply (bu_pad _ _ _ Hb). lia.
Qed.

Lemma root_dent j o : 0 <= j -> 16 * j < dsize c the_sb 1 -> 0 <= o < 16 -> dent c the_sb 1 (16 * j) o = nth (Z.to_nat (16 * j + o)) (root_of args) 0.
Proof.
  intros Hj Hs Ho. destruct root_size_eq as [E _]. unfold dent. rewrite local_bytes_nth, nth_fbytes by lia. rewrite Z2Nat.id by lia.
  apply root_byte. rewrite E in Hs. unfold BSIZE in *. lia.
Qed.

Lemma root_ent j i name : root_ents args !! j = Some (i, name) -> forall o, 0 <= o < 16 -> dent c the_sb 1 (16 * Z.of_nat j) o = local_bytes (dirent i name) o.
Proof.
  intros Hj o Ho. pose proof (lookup_lt_Some _ _ _ Hj) as Hl. unfold root_ents in Hl. cbn [length] in Hl. rewrite length_ents in Hl.
  destruct root_size_eq as [E _]. pose proof (length_root args) as Hlr.
  assert (len (root_of args) <= nblk (len (root_of args)) * BSIZE) as Hn by (unfold nblk, BSIZE; Z.to_euclidean_division_equations; lia).
  rewrite root_dent by lia. rewrite local_bytes_nth by lia. rewrite root_of_ents.
  replace (Z.to_nat (16 * Z.of_nat j + o)) with (16 * j + Z.to_nat o)%nat by lia. apply (concat_chunk _ 16 j).
  - intros y (e & -> & _)%list_elem_of_fmap. pose proof (length_dirent (fst e) (snd e)). lia.
  - transitivity (((fun e : Z * cstr => dirent (fst e) (snd e)) <$> root_ents args) !! j); [done|]. by rewrite list_lookup_fmap, Hj.
  - lia.
Qed.

Lemma root_ents_ok j i name : root_ents args !! j = Some (i, name) -> used i /\ 0 ∉ name.
Proof.
  unfold root_ents. pose proof (Zle_0_nat (length args)). destruct j as [|[|j]].
  - intros [= <- <-]. split; [unfold used; lia|]. by apply (bool_decide_unpack _).
  - intros [= <- <-]. split; [unfold used; lia|]. by apply (bool_decide_unpack _).
  - cbn. intros (a & Ha & [= -> ->])%ents_inv. pose proof (lookup_lt_Some _ _ _ Ha). split; [unfold used; lia|]. apply Hnul. by eapply list_elem_of_lookup_2.
Qed.

Lemma root_inum j i name : root_ents args !! j = Some (i, name) -> de_inum (dent c the_sb 1 (16 * Z.of_nat j)) = i.
Proof.
  intros Hj. destruct (root_ents_ok _ _ _ Hj) as [Hu _]. pose proof (used_inum _ Hu) as Hi. unfold inum_ok, NINODES in Hi.
  rewrite <- (dirent_inum i name) by lia. apply ld16_ext. intros o Ho. rewrite !Z.add_0_l. apply (root_ent j); [done|lia].
Qed.

Lemma root_cmp j i name x : root_ents args !! j = Some (i, name) -> namecmp x (de_name (dent c the_sb 1 (16 * Z.of_nat j))) = namecmp x (local_bytes name).
Proof.
  intros Hj. destruct (root_ents_ok _ _ _ Hj) as [_ H0]. rewrite <- (namecmp_dirent x i name H0). unfold namecmp. apply strncmp_ext2.
  intros o Ho. change (Z.of_nat (Z.to_nat DIRSIZ)) with 14 in Ho. unfold de_name. apply (root_ent j); [done|lia].
Qed.

Lemma root_free j : (length (root_ents args) <= j)%nat -> 16 * Z.of_nat j < dsize c the_sb 1 -> de_inum (dent c the_sb 1 (16 * Z.of_nat j)) = 0.
Proof.
  intros Hj Hs. unfold de_inum. transitivity (ld16 (fun _ => 0) 0); [|done]. apply ld16_ext. intros o Ho. rewrite Z.add_0_l, root_dent by lia.
  apply nth_overflow. pose proof (length_root args). unfold root_ents in Hj. cbn [length] in Hj. rewrite length_ents in Hj. lia.
Qed.

Lemma root_offs off : off ∈ dirent_offs (dsize c the_sb 1) -> exists j, off = 16 * Z.of_nat j /\ 16 * Z.of_nat j < dsize c the_sb 1.
Proof.
  destruct root_size_eq as [E _]. unfold dirent_offs, upto, sizeof_dirent. rewrite list_elem_of_In, in_map_iff. intros (k & <- & Hk).
  rewrite in_map_iff in Hk. destruct Hk as (j & <- & Hj%in_seq). exists j. split; [lia|]. rewrite E in *. unfold BSIZE in *. Z.to_euclidean_division_equations. lia.
Qed.

Lemma image_tree : tree_ok c the_sb used.
Proof.
  destruct root_size_eq as [E En]. split.
  - intros n Hn. pose proof (mk_IBLOCK_range n (used_inum n Hn)). unfold blk_ok. lia.
  - intros n Hn. by destruct (used_fields n Hn) as [[[_ ->]|[_ ->]] _].
  - intros n Hn. by destruct (used_fields n Hn) as [_ ->].
  - intros n Hn Ht. pose proof (used_dir n Hn Ht) as ->. rewrite E. unfold NDIRECT, BSIZE in *. split; [lia|]. Z.to_euclidean_division_equations. lia.
  - intros n Hn Ht. pose proof (used_dir n Hn Ht) as ->. rewrite E.
    replace ((nblk (len (root_of args)) * BSIZE - 1) / BSIZE + 1) with (nblk (len (root_of args))) by (unfold BSIZE; Z.to_euclidean_division_equations; lia).
    split; [change MAXFILE with 268; unfold NDIRECT in *; lia|]. intros k Hk.
    destruct (inode_at_eq 1) as (_ & _ & _ & E4). rewrite <- (fblk_agree c (i_addrs (inode_at c 1))) by (done || lia).
    pose proof (bu_used _ _ _ Hb 0%nat _ k eq_refl Hk) as Hr. cbn [snd] in Hr. change (1 + Z.of_nat 0) with 1 in Hr. pose proof (in_blocks _ _ Hin).
    change nmeta with 46 in *. unfold FSSIZE in *. split; [lia|]. split; [unfold blk_ok; lia|]. lia.
  - intros n off Hn Ht Hoff Hne. pose proof (used_dir n Hn Ht) as ->. destruct (root_offs off Hoff) as (j & -> & Hj).
    destruct (root_ents args !! j) as [[i name]|] eqn:El.
    + rewrite (root_inum _ _ _ El). by apply (root_ents_ok j i name).
    + apply lookup_ge_None in El. by rewrite root_free in Hne.
Qed.

(** ** Looking up a file of the image *)

(** No entry before file [k] has its name, compared up to DIRSIZ characters. *)
Definition first_of (k : nat) (e : cstr) : Prop :=
  forall j i name, (j < 2 + k)%nat -> root_ents args !! j = Some (i, name) -> namecmp (local_bytes e) (local_bytes name) <> 0.

Lemma strncmp_refl m q n : strncmp m m q q n = 0.
Proof. revert q. induction n as [|n IH]; intros q; [done|]. cbn [strncmp]. rewrite Z.eqb_refl, andb_true_r. destruct (negb _); [apply IH|lia]. Qed.

Lemma find_entry_skip s n name l1 l2 : (forall o, o ∈ l1 -> de_inum (dent c s n o) = 0 \/ namecmp name (de_name (dent c s n o)) <> 0) ->
  find_entry c s n name (l1 ++ l2) = find_entry c s n name l2.
Proof.
  induction l1 as [|o l1 IH]; intros H; [done|]. cbn [app find_entry]. rewrite IH by (intros; apply H; by constructor).
  destruct (H o) as [E|E]; [constructor|by rewrite E|]. by rewrite (proj2 (Z.eqb_neq (namecmp _ _) 0) E), andb_false_r.
Qed.

Lemma find_file k a : args !! k = Some a -> first_of k (entry_name a) ->
  dir_find c the_sb 1 (local_bytes (entry_name a)) = Some (2 + Z.of_nat k, 16 * (2 + Z.of_nat k)).
Proof.
  intros Ha Hf. set (e := entry_name a) in *. destruct root_size_eq as [E _]. pose proof (length_root args) as Hlr. pose proof (lookup_lt_Some _ _ _ Ha) as Hk.
  assert (len (root_of args) <= nblk (len (root_of args)) * BSIZE) as Hn by (unfold nblk, BSIZE; Z.to_euclidean_division_equations; lia).
  set (N := Z.to_nat ((dsize c the_sb 1 + 16 - 1) / 16)). assert (2 + k < N)%nat as HN by (unfold N; rewrite E; unfold BSIZE in *; Z.to_euclidean_division_equations; lia).
  assert (dirent_offs (dsize c the_sb 1) = map (fun j => 16 * Z.of_nat j) (seq 0 (2 + k)) ++ 16 * Z.of_nat (2 + k) :: map (fun j => 16 * Z.of_nat j) (seq (3 + k) (N - (3 + k)))) as Eo.
  { unfold dirent_offs, upto, sizeof_dirent. fold N. rewrite map_map. assert (seq 0 N = seq 0 (2 + k) ++ seq (2 + k) (S (N - (3 + k)))) as ->.
    { etransitivity; [|exact (seq_app (2 + k) (S (N - (3 + k))) 0)]. f_equal. lia. }
    rewrite map_app. f_equal; [apply map_ext; intros; lia|]. cbn [seq map]. f_equal; [lia|apply map_ext; intros; lia]. }
  assert (root_ents args !! (2 + k)%nat = Some (2 + Z.of_nat k, e)) as Hent by (unfold root_ents; cbn; by apply ents_lookup).
  unfold dir_find. rewrite Eo, find_entry_skip.
  - cbn [find_entry]. rewrite (root_inum _ _ _ Hent), (root_cmp _ _ _ _ Hent). unfold namecmp. rewrite strncmp_refl.
    rewrite (proj2 (Z.eqb_neq (2 + Z.of_nat k) 0)) by lia. cbn [negb andb Z.eqb]. do 2 f_equal. lia.
  - intros o (j & -> & Hj)%list_elem_of_fmap. apply elem_of_seq in Hj. destruct (root_ents args !! j) as [[i name]|] eqn:Ej.
    + right. rewrite (root_cmp _ _ _ _ Ej). apply (Hf j i name); [lia|done].
    + apply lookup_ge_None in Ej. apply lookup_lt_Some in Hent. lia.
Qed.

Lemma file_blocks k a : args !! k = Some a -> blocks_ok c (daddr c the_sb (2 + Z.of_nat k)) (nblk (len (contents h a))).
Proof.
  intros Ha. destruct (inode_at_eq (2 + Z.of_nat k)) as (_ & _ & _ & E4). pose proof (in_blocks _ _ Hin) as Hbl.
  assert (the_files h args !! S k = Some (T_FILE, contents h a)) as Hf.
  { transitivity (((fun a => (T_FILE, contents h a)) <$> args) !! k); [done|]. by rewrite list_lookup_fmap, Ha. }
  apply (blocks_ok_agree c (i_addrs (inode_at c (2 + Z.of_nat k)))); [done|].
  assert (len (contents h a) <= MAXFILE * BSIZE) as Hm by (eapply in_size; [exact Hin|by eapply list_elem_of_lookup_2]).
  split; [unfold nblk, BSIZE in *; Z.to_euclidean_division_equations; lia|]. intros j Hj. replace (2 + Z.of_nat k) with (1 + Z.of_nat (S k)) by lia.
  pose proof (bu_used _ _ _ Hb (S k) _ j Hf Hj) as Hu. change nmeta with 46 in *. unfold FSSIZE in *. split; [lia|]. split; [unfold blk_ok; lia|].
  intros Hge. pose proof (bu_ind _ _ _ Hb (S k) _ Hf) as Hi. cbn [snd] in Hi, Hj. change nmeta with 46 in *. unfold blk_ok. specialize (Hi ltac:(lia)). lia.
Qed.
End Image.

Lemma take_fbytes c a off m n : (m <= n)%nat -> take m (fbytes c a off n) = fbytes c a off m.
Proof.
  intros H. replace n with (m + (n - m))%nat by lia. rewrite fbytes_app. by rewrite take_app_length' by by rewrite length_fbytes.
Qed.

(** ** Reading a file by its path *)

(** What open(), read() and close() do with a file, without the file table. *)
Definition slurp {D : DiskDriver} (path : list Z) (n : nat) : M (option (list Z)) :=
  let* ip := namei path in
  match ip with
  | None => ret None
  | Some i =>
      ilock (Some i);;
      let* q := readi i DLocal 0 (Z.of_nat n) in
      iunlockput i;;
      ret (Some (snd q))
  end.

Lemma elems_one e : e <> [] -> slash ∉ e -> elems (slash :: e) = [e].
Proof.
  intros Hne Hs. unfold elems. cbn [elems_from]. rewrite Z.eqb_refl, decide_True by done.
  rewrite <- (app_nil_r e) at 1. rewrite elems_from_app by done. cbn [app elems_from]. by rewrite decide_False.
Qed.

Lemma entry_name_slash h args a : input_ok h args -> a ∈ args -> slash ∉ entry_name a.
Proof.
  intros Hin Ha Hs. pose proof (in_name _ _ Hin a Ha) as Hf. rewrite forallb_forall in Hf.
  assert (slash ∈ shortname a) as H.
  { unfold entry_name, skip_underscore in Hs. destruct (shortname a) as [|x l]; [done|]. destruct (x =? chr "_"); [by constructor|done]. }
  apply list_elem_of_In, Hf in H. by rewrite Z.eqb_refl in H.
Qed.

Section Slurp.
Context {D : DiskDriver} (pid : Z) (p : nat) (h : host) (args : list cstr) (c : disk) (r R : Z -> Z).
Hypothesis Hp : (p < NPROC)%nat.
Hypothesis Hin : input_ok h args.
Hypothesis Hb : built h args c.
Hypothesis Hnul : forall a, a ∈ args -> 0 ∉ entry_name a.
Hypothesis Hpad : len (root_of args) mod BSIZE <> 0.
Hypothesis Hroom : iroom2 R.

Lemma lookup_file k a : args !! k = Some a -> entry_name a <> [] -> first_of args k (entry_name a) ->
  lookup_path c the_sb 1 (elems (slash :: entry_name a)) = Some (2 + Z.of_nat k).
Proof.
  intros Ha Hne Hf. assert (a ∈ args) as Hain by by eapply list_elem_of_lookup_2.
  rewrite elems_one by (done || by eapply entry_name_slash). cbn [lookup_path].
  assert (used args 1) as Hu1 by (unfold used; lia). destruct (used_fields h args c Hb 1 Hu1) as [[[_ ->]|[? _]] _]; [|done].
  rewrite Z.eqb_refl. by rewrite (find_file h args c Hin Hb Hnul Hpad k a).
Qed.

(** The bytes readi() delivers of a loaded inode of the image. *)
Lemma slurp_bytes k a nd n : args !! k = Some a -> (forall j, 0 <= j <= NDIRECT -> i_addrs nd j = daddr c the_sb (2 + Z.of_nat k) j) ->
  fbytes c (i_addrs nd) 0 (Nat.min n (length (contents h a))) = take n (contents h a).
Proof.
  intros Ha Hnd. destruct (inode_at_eq c (2 + Z.of_nat k)) as (_ & _ & _ & F4). destruct (bu_files _ _ _ Hb k a Ha) as (_ & _ & _ & B4).
  rewrite (fbytes_agree c (i_addrs nd) (i_addrs (inode_at c (2 + Z.of_nat k)))); [|intros; rewrite Hnd by done; symmetry; by apply F4|lia].
  rewrite <- (take_fbytes c _ 0 _ (length (contents h a))) by lia. rewrite B4.
  destruct (decide (n <= length (contents h a))%nat); [by rewrite Nat.min_l by lia|]. rewrite Nat.min_r by lia. by rewrite !take_ge by lia.
Qed.

Lemma wp_slurp d k a n Q :
  istate ROOTDEV pid p d c r R no_lock -> sb (fs d) = the_sb -> args !! k = Some a -> entry_name a <> [] -> first_of args k (entry_name a) ->
  Z.of_nat n < 2 ^ 32 ->
  (forall d', istate ROOTDEV pid p d' c r R no_lock -> calm d d' -> Q (Some (take n (contents h a))) [] d') ->
  wp p [] (slurp (slash :: entry_name a) n) d Q.
Proof.
  intros Hs Es Ha Hne Hf Hn HQ. assert (a ∈ args) as Hain by by eapply list_elem_of_lookup_2.
  set (i0 := 2 + Z.of_nat k). pose proof (lookup_lt_Some _ _ _ Ha) as Hk. assert (used args i0) as Hu by (unfold used, i0; lia).
  pose proof (image_tree h args c Hin Hb Hnul Hpad) as Htree.
  pose proof (lookup_file k a Ha Hne Hf) as Hlook. fold i0 in Hlook.
  destruct (inode_at_eq c i0) as (F1 & F2 & F3 & F4). destruct (bu_files _ _ _ Hb k a Ha) as (B1 & B2 & B3 & B4). fold i0 in B1, B2, B3, B4.
  unfold slurp, namei. wp_run. eapply (wp_namex ROOTDEV pid p Hp d c r R (used args) _ false); [done|done|done|by rewrite Es|done|unfold used, ROOTINO; lia|done| |].
  2: { intros d' name' _ _ Hw. unfold walk_path in Hw. rewrite Es in Hw. change ROOTINO with 1 in Hw. congruence. }
  intros d1 i n' name' Hs1 Hc1 He1 _ Hw _. unfold walk_path in Hw. rewrite Es in Hw. change ROOTINO with 1 in Hw. assert (n' = i0) as -> by congruence.
  assert (sb (fs d1) = the_sb) as Es1 by (rewrite <- Es; apply Hc1). wp_run. cbn [fst].
  wp_run. eapply wp_ilock; [done|exact Hs1|exact He1|done|rewrite Es1; by apply (tr_block _ _ _ Htree)|rewrite Es1; by apply (tr_type _ _ _ Htree)|].
  intros d2 Hs2 Hc2 He2 Hld. assert (sb (fs d2) = the_sb) as Es2 by (rewrite <- Es1; apply Hc2). rewrite Es2 in Hld. destruct Hld as (L1 & L2 & L3 & L4).
  rewrite (proj2 (proj2 He2)) in L1, L2, L3, L4. set (nd := inodes (fs d2) i) in *. assert (i_size nd = len (contents h a)) as Esz by congruence.
  assert (rd_len (i_size nd) 0 n = Nat.min n (length (contents h a))) as Erd.
  { unfold rd_len. rewrite Z.gtb_ltb, Esz. destruct (Z.ltb_spec (len (contents h a)) (Z.of_nat n + 0)); lia. }
  wp_run. eapply (wp_readi_local ROOTDEV pid p Hp c r i nd 0 n); [by apply (it_dev _ _ _ _ _ _ (proj2 Hs2) _ i0)|lia|lia| |apply Hs2|done|].
  { rewrite Erd. apply (blocks_ok_agree c (daddr c the_sb i0)); [intros; symmetry; by apply L4|].
    eapply blocks_ok_mono; [|eapply (file_blocks h args c Hin Hb Hpad k a Ha)]. unfold nblk, BSIZE. Z.to_euclidean_division_equations. lia. }
  intros d3 Hst3 Hf3. wp_run. rewrite Erd. cbn [snd].
  assert (istate ROOTDEV pid p d3 c r R.[i0 := R i0 + 1] no_lock.[i0 := true]) as Hs3 by (split; [done|eapply itab_still; [exact Hst3|apply Hs2]]).
  eapply (wp_iunlockput ROOTDEV pid p Hp); [exact Hs3|unfold entry; rewrite (still_inodes _ _ Hst3); exact He2| |].
  { rewrite (still_sb _ _ Hst3), Es2. by apply (tr_link _ _ _ Htree). }
  intros d4 Hs4 Hc4 _. wp_run. rewrite (ref_back R i0) in Hs4.
  rewrite (slurp_bytes k a nd n Ha L4). apply HQ; [done|].
  eapply calm_trans; [exact Hc1|]. eapply calm_trans; [exact Hc2|]. eapply calm_trans; [apply still_calm; exact Hst3|exact Hc4].
Qed.
End Slurp.

Lemma image_built h prog img args s :
  h_create h img = true -> input_ok h args -> mkfs_main h (prog :: img :: args) = Done tt s -> built h args (sectors s).
Proof.
  intros Hc Hin E. destruct (does_done _ _ _ (does_build h args Hin)) as ([] & s' & E' & _ & c & own & Himg & Hf).
  unfold mkfs_main in E. rewrite Hc, E' in E. injection E as <-. eapply final_built; [exact Hin|]. eapply final_ext; [exact Hin|exact Himg|exact Hf].
Qed.

(** C25: what mkfs puts into the image the kernel reads back: on a disk image that mkfs
    has built, with the super block read from it, looking up the path of a file from
    the root and reading its inode returns without waiting exactly the first bytes of
    the host file, for any number of bytes asked for; afterwards no lock, buffer or
    reference is left over and nothing is written.  The name must not be hidden by an
    earlier entry with the same first DIRSIZ characters, and the entries of the root
    directory must not fill its last block, since mkfs then gives the directory a
    size beyond its blocks. *)
Theorem image_readable {D : DiskDriver} p m e d h prog img args s r R k a n :
  h_create h img = true -> input_ok h args -> mkfs_main h (prog :: img :: args) = Done tt s ->
  (forall a, a ∈ args -> 0 ∉ entry_name a) -> len (root_of args) mod BSIZE <> 0 ->
  args !! k = Some a -> entry_name a <> [] -> first_of args k (entry_name a) ->
  quiet p m -> (p < NPROC)%nat -> istate ROOTDEV (p_pid (procs d p)) p d (sectors s) r R no_lock ->
  sb (fs d) = superblock_of (sectors s 1) -> iroom2 R -> Z.of_nat n < 2 ^ 32 ->
  exists m' d', slurp (slash :: entry_name a) n e (mkK m d) = Ret (Some (take n (contents h a))) e (mkK m' d') /\ msame m m' /\
    istate ROOTDEV (p_pid (procs d p)) p d' (sectors s) r R no_lock /\ calm d d'.
Proof.
  intros Hc Hin E Hnul Hpad Ha Hne Hf Hq Hp Hs Es Hroom Hn. pose proof (image_built _ _ _ _ _ Hc Hin E) as Hb.
  rewrite (bu_sb _ _ _ Hb), <- the_sb_vals in Es.
  assert (wp p [] (slurp (slash :: entry_name a) n) d (fun q hl d' => hl = [] /\ q = Some (take n (contents h a)) /\
    istate ROOTDEV (p_pid (procs d p)) p d' (sectors s) r R no_lock /\ calm d d')) as H.
  { eapply (wp_slurp (p_pid (procs d p)) p h args (sectors s) r R); done. }
  destruct (H m m e Hq (msame_refl _)) as (q & hl & m' & d' & E1 & S & -> & -> & H1 & H2). by exists m', d'.
Qed.

Lemma input_ok2 : input_ok host2 args2.
Proof.
  split; [| | |done|by vm_compute].
  - intros a [->|[->|[]%elem_of_nil]%elem_of_cons]%elem_of_cons; by eexists.
  - intros a [->|[->|[]%elem_of_nil]%elem_of_cons]%elem_of_cons; done.
  - intros a [->|[->|[]%elem_of_nil]%elem_of_cons]%elem_of_cons; by vm_compute.
Qed.

Lemma names2 a : a ∈ args2 -> 0 ∉ entry_name a.
Proof. intros [->|[->|[]%elem_of_nil]%elem_of_cons]%elem_of_cons; by apply (bool_decide_unpack _). Qed.

Lemma first2 : first_of args2 1 (entry_name (lit "README")).
Proof. intros j i name Hj. destruct j as [|[|[|j]]]; [intros [= <- <-]; by vm_compute..|lia]. Qed.

Lemma image_readable_witness :
  exists s, mkfs_main host2 (lit "mkfs" :: lit "fs.img" :: args2) = Done tt s /\
    exists m' d', slurp (D := sync_driver) (lit "/README") 100 [] (mkK machine1 (kdata_e (sectors s))) = Ret (Some [6; 7]) [] (mkK m' d').
Proof.
  destruct (does_done _ _ _ (does_build host2 args2 input_ok2)) as ([] & s & E & _). exists s. split; [exact E|].
  pose proof (image_built host2 (lit "mkfs") (lit "fs.img") args2 s eq_refl input_ok2 E) as Hb.
  destruct (image_readable (D := sync_driver) 1 machine1 [] (kdata_e (sectors s)) host2 (lit "mkfs") (lit "fs.img") args2 s (fun _ => 0) (fun _ => 0) 1 (lit "README") 100)
    as (m' & d' & H & _).
  - reflexivity.
  - exact input_ok2.
  - exact E.
  - exact names2.
  - vm_compute. discriminate.
  - reflexivity.
  - vm_compute. discriminate.
  - exact first2.
  - apply quiet1.
  - apply (Nat.ltb_lt 1). reflexivity.
  - apply istate_e.
  - symmetry. apply (bu_sb _ _ _ Hb).
  - apply iroom2_none.
  - apply (Z.ltb_lt 100). reflexivity.
  - exists m', d'. exact H.
Defined.
