(* ===== verification/Riscv.v ===== *)
(** * A RISC-V hart (kernel/riscv.h)

    The registers, the control and status registers and the instructions that the
    assembly files and start.c use, with the accessor functions of riscv.h.  Loads
    and stores in supervisor and user mode go through the Sv39 page table in satp;
    an access that would trap has no result. *)

From S2P Require Import Prelude State CString Vm VmSpec.
Open Scope Z_scope.

(** ** Registers *)

Inductive reg : Set :=
  | ra | sp | gp | tp | t0 | t1 | t2 | s0 | s1 | a0 | a1 | a2 | a3 | a4 | a5 | a6 | a7
  | s2 | s3 | s4 | s5 | s6 | s7 | s8 | s9 | s10 | s11 | t3 | t4 | t5 | t6.

#[export] Instance reg_eq_dec : EqDecision reg.
Proof. solve_decision. Defined.

(** mip holds the pending bits that sip shows. *)
Inductive csr : Set :=
  | mhartid | mstatus | mepc | sstatus | mip | sip | sie | mie | sepc | medeleg | mideleg | stvec | mtvec
  | satp | sscratch | mscratch | scause | stval | mcounteren | time.

#[export] Instance csr_eq_dec : EqDecision csr.
Proof. solve_decision. Defined.

Inductive mode : Set := U_mode | S_mode | M_mode.

#[export] Instance mode_eq_dec : EqDecision mode.
Proof. solve_decision. Defined.

(** [hpc] is where control goes when straight-line code ends. *)
Record hart : Type := mkHart { hregs : reg -> Z; hcsr : csr -> Z; hmem : bytes; hpriv : mode; hpc : Z }.

Definition set_hregs (r : reg -> Z) (h : hart) : hart := mkHart r (hcsr h) (hmem h) (hpriv h) (hpc h).
Definition set_hcsr (c : csr -> Z) (h : hart) : hart := mkHart (hregs h) c (hmem h) (hpriv h) (hpc h).
Definition set_hmem (m : bytes) (h : hart) : hart := mkHart (hregs h) (hcsr h) m (hpriv h) (hpc h).
Definition set_hpc (a : Z) (h : hart) : hart := mkHart (hregs h) (hcsr h) (hmem h) (hpriv h) a.
Definition set_hpriv (p : mode) (h : hart) : hart := mkHart (hregs h) (hcsr h) (hmem h) p (hpc h).

Definition wreg (r : reg) (v : Z) (h : hart) : hart := set_hregs (hregs h).[r := u64 v] h.
Definition store (c : csr) (v : Z) (h : hart) : hart := set_hcsr (hcsr h).[c := u64 v] h.

(** ** Bits of riscv.h *)

Definition MSTATUS_MPP_MASK : Z := Z.shiftl 3 11.
Definition MSTATUS_MPP_S : Z := Z.shiftl 1 11.
Definition MSTATUS_MIE : Z := Z.shiftl 1 3.
Definition SSTATUS_SPP : Z := Z.shiftl 1 8.
Definition SSTATUS_SPIE : Z := Z.shiftl 1 5.
Definition SSTATUS_SIE : Z := Z.shiftl 1 1.
Definition SIE_SEIE : Z := Z.shiftl 1 9.
Definition SIE_STIE : Z := Z.shiftl 1 5.
Definition SIE_SSIE : Z := Z.shiftl 1 1.
Definition MIE_MTIE : Z := Z.shiftl 1 7.

(** ** Control and status registers *)

Section Csr.
(** The bits of mideleg that the hart implements. *)
Context (delegable : Z).

(** sstatus is the supervisor's part of mstatus. *)
Definition SSTATUS_BITS : Z := 0x80000003000de133.

(** [old] with the bits of [mask] from [v]. *)
Definition merge (old v mask : Z) : Z := Z.lor (Z.ldiff old mask) (Z.land v mask).

Definition csr_read (c : csr) (h : hart) : Z :=
  match c with
  | sstatus => Z.land (hcsr h mstatus) SSTATUS_BITS
  | sie => Z.land (hcsr h mie) (hcsr h mideleg)
  | sip => Z.land (hcsr h mip) (hcsr h mideleg)
  | _ => hcsr h c
  end.

(** Of sip only the software interrupt bit can be written. *)
Definition csr_write (c : csr) (v : Z) (h : hart) : hart :=
  match c with
  | sstatus => store mstatus (merge (hcsr h mstatus) v SSTATUS_BITS) h
  | sie => store mie (merge (hcsr h mie) v (hcsr h mideleg)) h
  | sip => store mip (merge (hcsr h mip) v (Z.land (hcsr h mideleg) SIE_SSIE)) h
  | mideleg => store mideleg (Z.land v delegable) h
  | mhartid | time => h
  | _ => store c v h
  end.

(** The accessors of riscv.h that start(), main() and usertrapret() use. *)
Definition r_mhartid (h : hart) : Z := csr_read mhartid h.
Definition r_mstatus (h : hart) : Z := csr_read mstatus h.
Definition w_mstatus (x : Z) (h : hart) : hart := csr_write mstatus x h.
Definition w_mepc (x : Z) (h : hart) : hart := csr_write mepc x h.
Definition r_sstatus (h : hart) : Z := csr_read sstatus h.
Definition w_sstatus (x : Z) (h : hart) : hart := csr_write sstatus x h.
Definition r_sie (h : hart) : Z := csr_read sie h.
Definition w_sie (x : Z) (h : hart) : hart := csr_write sie x h.
Definition r_mie (h : hart) : Z := csr_read mie h.
Definition w_mie (x : Z) (h : hart) : hart := csr_write mie x h.
Definition w_medeleg (x : Z) (h : hart) : hart := csr_write medeleg x h.
Definition w_mideleg (x : Z) (h : hart) : hart := csr_write mideleg x h.
Definition w_mtvec (x : Z) (h : hart) : hart := csr_write mtvec x h.
Definition w_satp (x : Z) (h : hart) : hart := csr_write satp x h.
Definition w_stvec (x : Z) (h : hart) : hart := csr_write stvec x h.
Definition w_mscratch (x : Z) (h : hart) : hart := csr_write mscratch x h.
Definition w_sepc (x : Z) (h : hart) : hart := csr_write sepc x h.
Definition r_satp (h : hart) : Z := csr_read satp h.
Definition r_tp (h : hart) : Z := hregs h tp.
Definition w_tp (x : Z) (h : hart) : hart := wreg tp x h.

(** intr_on(), intr_off() and intr_get() on the register itself. *)
Definition csr_intr_on (h : hart) : hart := w_sstatus (Z.lor (r_sstatus h) SSTATUS_SIE) h.
Definition csr_intr_off (h : hart) : hart := w_sstatus (Z.land (r_sstatus h) (Z.lnot SSTATUS_SIE)) h.
Definition csr_intr_get (h : hart) : bool := negb (Z.land (r_sstatus h) SSTATUS_SIE =? 0).

(** Return from a machine-mode trap: the previous mode and interrupt enable of mstatus are taken up. *)
Definition mret (h : hart) : hart :=
  let x := hcsr h mstatus in
  let p := Z.land (Z.shiftr x 11) 3 in
  let x' := merge (merge (merge x (Z.shiftr x 4) MSTATUS_MIE) (Z.shiftl 1 7) (Z.shiftl 1 7)) 0 MSTATUS_MPP_MASK in
  set_hpc (hcsr h mepc) (set_hpriv (if p =? 3 then M_mode else if p =? 1 then S_mode else U_mode) (store mstatus x' h)).

(** Return from a supervisor trap. *)
Definition sret (h : hart) : hart :=
  let x := hcsr h mstatus in
  let x' := merge (merge (merge x (Z.shiftr x 4) SSTATUS_SIE) SSTATUS_SPIE SSTATUS_SPIE) 0 SSTATUS_SPP in
  set_hpc (hcsr h sepc) (set_hpriv (if Z.testbit x 8 then S_mode else U_mode) (store mstatus x' h)).

(** A trap to the supervisor: interrupts go off, SPIE and SPP keep what they were. *)
Definition take_trap (cause : Z) (h : hart) : hart :=
  let x := hcsr h mstatus in
  let x' := merge (merge (merge x (Z.shiftl x 4) SSTATUS_SPIE) 0 SSTATUS_SIE) (if bool_decide (hpriv h = S_mode) then SSTATUS_SPP else 0) SSTATUS_SPP in
  set_hpc (hcsr h stvec) (set_hpriv S_mode (store scause cause (store sepc (hpc h) (store mstatus x' h)))).

(** ** Memory accesses *)

(** The root of the Sv39 page table. *)
Definition sv39_root (h : hart) : Z := Z.shiftl (Z.land (hcsr h satp) (2 ^ 44 - 1)) 12.

Definition bare_mode (h : hart) : bool := bool_decide (hpriv h = M_mode) || (Z.shiftr (hcsr h satp) 60 =? 0).

(** The physical address of an access, PTE_R for a load and PTE_W for a store.
    Of the other bits of an entry only PTE_V is looked at. *)
Definition haddr (h : hart) (acc va : Z) : option Z :=
  if bare_mode h then Some va else
  let pte := pte_of (hmem h) (sv39_root h) va in
  if (va <? MAXVA) && has pte PTE_V && has pte acc then Some (PTE2PA pte + va mod PGSIZE) else None.

(** ** Instructions *)

(** [Call f] is a call of the function with the effect [f]. *)
Inductive instr : Type :=
  | Sd (rs : reg) (off : Z) (rb : reg)
  | Ld (rd : reg) (off : Z) (rb : reg)
  | Addi (rd rs : reg) (i : Z)
  | Add (rd r1 r2 : reg)
  | Mul (rd r1 r2 : reg)
  | Li (rd : reg) (i : Z)
  | La (rd : reg) (a : Z)
  | Csrr (rd : reg) (c : csr)
  | Csrw (c : csr) (rs : reg)
  | Csrrw (rd : reg) (c : csr) (rs : reg)
  | Sfence_vma
  | Jr (r : reg)
  | Ret_
  | Call (f : hart -> option hart)
  | Mret
  | Sret.

Definition execute (i : instr) (h : hart) : option hart :=
  let x := hregs h in
  match i with
  | Sd rs off rb => pa ← haddr h PTE_W (u64 (x rb + off)); Some (set_hmem (st64 (hmem h) pa (x rs)) h)
  | Ld rd off rb => pa ← haddr h PTE_R (u64 (x rb + off)); Some (wreg rd (ld64 (hmem h) pa) h)
  | Addi rd rs i => Some (wreg rd (x rs + i) h)
  | Add rd r1 r2 => Some (wreg rd (x r1 + x r2) h)
  | Mul rd r1 r2 => Some (wreg rd (x r1 * x r2) h)
  | Li rd i => Some (wreg rd i h)
  | La rd a => Some (wreg rd a h)
  | Csrr rd c => Some (wreg rd (csr_read c h) h)
  | Csrw c rs => Some (csr_write c (x rs) h)
  | Csrrw rd c rs => Some (wreg rd (csr_read c h) (csr_write c (x rs) h))
  | Sfence_vma => Some h
  | Jr r => Some (set_hpc (x r) h)
  | Ret_ => Some (set_hpc (x ra) h)
  | Call f => f h
  | Mret => Some (mret h)
  | Sret => Some (sret h)
  end.

Fixpoint run (l : list instr) (h : hart) : option hart :=
  match l with
  | [] => Some h
  | i :: l' => h' ← execute i h; run l' h'
  end.
End Csr.

Arguments csr_write : simpl never.
Arguments csr_read : simpl never.

(** ** Saving and restoring registers *)

Definition sds (b : reg) (l : list (reg * Z)) : list instr := map (fun '(r, o) => Sd r o b) l.
Definition lds (b : reg) (l : list (reg * Z)) : list instr := map (fun '(r, o) => Ld r o b) l.

Definition stores (pa : Z) (x : reg -> Z) (l : list (reg * Z)) (m : bytes) : bytes := fold_left (fun m '(r, o) => st64 m (pa + o) (x r)) l m.
Definition loads (pa : Z) (m : bytes) (l : list (reg * Z)) (x : reg -> Z) : reg -> Z := fold_left (fun (x : reg -> Z) '(r, o) => x.[r := u64 (ld64 m (pa + o))]) l x.

(** The [n] bytes at [va] are those at [pa], also after writes to [W]. *)
Definition maps (h : hart) (W : Z -> Prop) (va n pa : Z) : Prop :=
  0 <= va /\ va + n <= 2 ^ 64 /\ forall m acc o, acc = PTE_R \/ acc = PTE_W -> 0 <= o < n -> (forall a, ~ W a -> m a = hmem h a) -> haddr (set_hmem m h) acc (va + o) = Some (pa + o).

(** The slots of a frame of [n] bytes: aligned and distinct. *)
Record slots (n : Z) (l : list (reg * Z)) : Prop := {
  sl_in : forall r o, (r, o) ∈ l -> 0 <= o /\ o + 8 <= n /\ o mod 8 = 0;
  sl_regs : NoDup (map fst l);
  sl_offs : NoDup (map snd l);
}.

Lemma run_app dg l1 l2 h : run dg (l1 ++ l2) h = (h' ← run dg l1 h; run dg l2 h').
Proof. revert h. induction l1 as [|i l1 IH]; intros h; [done|]. cbn [app run]. destruct (execute dg i h) as [h'|]; [apply IH|done]. Qed.

Lemma set_hmem_id h : set_hmem (hmem h) h = h.
Proof. by destruct h. Qed.

Lemma set_hregs_id h : set_hregs (hregs h) h = h.
Proof. by destruct h. Qed.

Lemma maps_addr h W va n pa acc o : maps h W va n pa -> acc = PTE_R \/ acc = PTE_W -> 0 <= o -> o + 8 <= n -> haddr h acc (u64 (va + o)) = Some (pa + o).
Proof. intros (H1 & H2 & H) Ha Ho Hn. rewrite u64_small by lia. rewrite <- (set_hmem_id h) at 1. apply H; [done|lia|done]. Qed.

Lemma stores_out pa x l m a n : (forall r o, (r, o) ∈ l -> 0 <= o /\ o + 8 <= n) -> ~ (pa <= a < pa + n) -> stores pa x l m a = m a.
Proof.
  revert m. induction l as [|[r o] l IH]; intros m Hl Ha; [done|]. change (stores pa x ((r, o) :: l) m) with (stores pa x l (st64 m (pa + o) (x r))).
  destruct (Hl r o ltac:(by constructor)). rewrite IH; [|intros r' o' H'; apply (Hl r'); by constructor 2|done]. apply st64_out. lia.
Qed.

Lemma maps_mem h (W : Z -> Prop) va n pa m : maps h W va n pa -> (forall a, ~ W a -> m a = hmem h a) -> maps (set_hmem m h) W va n pa.
Proof. intros (H1 & H2 & H3) Hm. split_and!; [done|done|]. intros m' acc o Ha Ho Hm'. apply H3; [done|done|]. intros a Hn. rewrite Hm' by done. by apply Hm. Qed.

Lemma run_sds dg b l h (W : Z -> Prop) va n pa : maps h W va n pa -> (forall a, pa <= a < pa + n -> W a) -> hregs h b = va -> (forall r o, (r, o) ∈ l -> 0 <= o /\ o + 8 <= n) ->
  run dg (sds b l) h = Some (set_hmem (stores pa (hregs h) l (hmem h)) h).
Proof.
  revert h. induction l as [|[r o] l IH]; intros h Hm HW Hb Hl; [cbn; by rewrite set_hmem_id|]. destruct (Hl r o ltac:(by constructor)) as [H1 H2].
  cbn [sds map run execute]. rewrite Hb, (maps_addr h W va n pa PTE_W o Hm) by (done || by right). cbn [mbind option_bind]. fold (sds b l).
  rewrite IH; [done| |done|done|intros r' o' H'; apply (Hl r'); by constructor 2]. apply maps_mem; [done|]. intros a Ha. apply st64_out. intros H. apply Ha, HW. lia.
Qed.

Lemma stores_other pa x l m o : (forall r o', (r, o') ∈ l -> o' mod 8 = 0) -> o mod 8 = 0 -> (o ∉ map snd l) -> ld64 (stores pa x l m) (pa + o) = ld64 m (pa + o).
Proof.
  revert m. induction l as [|[r o'] l IH]; intros m Hl Ho Hn; [done|]. change (stores pa x ((r, o') :: l) m) with (stores pa x l (st64 m (pa + o') (x r))). cbn [map snd] in Hn. apply not_elem_of_cons in Hn as [Hne Hn].
  rewrite IH; [|intros r1 o1 H1; apply (Hl r1); by constructor 2|done|done]. specialize (Hl r o' ltac:(by constructor)). apply ld64_st64_ne. Z.to_euclidean_division_equations. lia.
Qed.

Lemma stores_in pa x n l m r o : slots n l -> (r, o) ∈ l -> ld64 (stores pa x l m) (pa + o) = u64 (x r).
Proof.
  intros [Hin _ Hnd]. revert m. induction l as [|[r' o'] l IH]; intros m Hr; [by apply elem_of_nil in Hr|]. change (stores pa x ((r', o') :: l) m) with (stores pa x l (st64 m (pa + o') (x r'))).
  cbn [map snd] in Hnd. apply NoDup_cons in Hnd as [Hni Hnd]. apply elem_of_cons in Hr as [[= -> ->]|Hr]; [|apply IH; [intros r1 o1 H1; apply (Hin r1); by constructor 2|done|done]].
  rewrite stores_other, ld64_st64_eq; [done|intros r1 o1 H1; apply (Hin r1); by constructor 2|apply (Hin r' o'); by constructor|done].
Qed.

Lemma run_lds dg b l h W va n pa : maps h W va n pa -> hregs h b = va -> (b ∉ map fst l) -> (forall r o, (r, o) ∈ l -> 0 <= o /\ o + 8 <= n) ->
  run dg (lds b l) h = Some (set_hregs (loads pa (hmem h) l (hregs h)) h).
Proof.
  revert h. induction l as [|[r o] l IH]; intros h Hm Hb Hbl Hl; [cbn; by rewrite set_hregs_id|]. destruct (Hl r o ltac:(by constructor)) as [H1 H2]. cbn [map fst] in Hbl. apply not_elem_of_cons in Hbl as [Hne Hbl].
  cbn [lds map run execute]. rewrite Hb, (maps_addr h W va n pa PTE_R o Hm) by (done || by left). cbn [mbind option_bind]. fold (lds b l).
  rewrite IH; [done|done|unfold wreg; cbn [hregs set_hregs]; by rewrite fupd_ne|done|intros r' o' H'; apply (Hl r'); by constructor 2].
Qed.

Lemma loads_out pa m l x r : (r ∉ map fst l) -> loads pa m l x r = x r.
Proof.
  revert x. induction l as [|[r' o] l IH]; intros x Hn; [done|]. cbn [map fst] in Hn. apply not_elem_of_cons in Hn as [Hne Hn].
  change (loads pa m ((r', o) :: l) x) with (loads pa m l x.[r' := u64 (ld64 m (pa + o))]). rewrite IH by done. by rewrite fupd_ne.
Qed.

Lemma loads_in pa m l x r o : NoDup (map fst l) -> (r, o) ∈ l -> loads pa m l x r = u64 (ld64 m (pa + o)).
Proof.
  revert x. induction l as [|[r' o'] l IH]; intros x Hnd Hr; [by apply elem_of_nil in Hr|]. cbn [map fst] in Hnd. apply NoDup_cons in Hnd as [Hni Hnd].
  change (loads pa m ((r', o') :: l) x) with (loads pa m l x.[r' := u64 (ld64 m (pa + o'))]). apply elem_of_cons in Hr as [[= -> ->]|Hr]; [rewrite loads_out by done; by rewrite fupd_eq|by apply IH].
Qed.

(** In machine mode, or without paging, addresses are physical. *)
Lemma maps_bare h W va n : bare_mode h = true -> 0 <= va -> va + n <= 2 ^ 64 -> maps h W va n va.
Proof. intros Hb H1 H2. split_and!; [done|done|]. intros m acc o _ _ _. unfold haddr. change (bare_mode (set_hmem m h)) with (bare_mode h). by rewrite Hb. Qed.

(** Registers hold 64 bits. *)
Definition regs_ok (h : hart) : Prop := forall r, 0 <= hregs h r < 2 ^ 64.
