(* ===== verification/Asm.v ===== *)
(** * The assembly of the kernel (entry.S, kernelvec.S, swtch.S, trampoline.S), start.c
      and the registers main() sets on every hart

    The assembly routines are lists of instructions of [Riscv], start(), timerinit(),
    kvminithart() and trapinithart() are functions on the hart.  The routines save and restore registers: a context
    switch and back, a trap from user space and back, a trap in the kernel and a timer
    interrupt give every register back.  start() leads to main() in supervisor mode, and
    with the page table of [KvmSpec] paging is transparent to the kernel. *)

From S2P Require Import Prelude State Spinlock CString Kalloc Sched Vm VmSpec ProcMem Wp UvmSpec KvmSpec Proc ProcSpec ProcThm Trap Riscv.
Open Scope Z_scope.

(** ** The routines *)

(** swtch(old, new), with old in a0 and new in a1. *)
Definition swtch_code : list instr :=
  [Sd ra 0 a0; Sd sp 8 a0; Sd s0 16 a0; Sd s1 24 a0; Sd s2 32 a0; Sd s3 40 a0; Sd s4 48 a0; Sd s5 56 a0; Sd s6 64 a0;
   Sd s7 72 a0; Sd s8 80 a0; Sd s9 88 a0; Sd s10 96 a0; Sd s11 104 a0; Ld ra 0 a1; Ld sp 8 a1; Ld s0 16 a1;
   Ld s1 24 a1; Ld s2 32 a1; Ld s3 40 a1; Ld s4 48 a1; Ld s5 56 a1; Ld s6 64 a1; Ld s7 72 a1; Ld s8 80 a1;
   Ld s9 88 a1; Ld s10 96 a1; Ld s11 104 a1; Ret_].

(** Traps taken in supervisor mode; [kerneltrap] is the effect of the C handler. *)
Definition kernelvec (kerneltrap : hart -> option hart) : list instr :=
  [Addi sp sp (-256); Sd ra 0 sp; Sd sp 8 sp; Sd gp 16 sp; Sd tp 24 sp; Sd t0 32 sp; Sd t1 40 sp; Sd t2 48 sp;
   Sd s0 56 sp; Sd s1 64 sp; Sd a0 72 sp; Sd a1 80 sp; Sd a2 88 sp; Sd a3 96 sp; Sd a4 104 sp; Sd a5 112 sp;
   Sd a6 120 sp; Sd a7 128 sp; Sd s2 136 sp; Sd s3 144 sp; Sd s4 152 sp; Sd s5 160 sp; Sd s6 168 sp; Sd s7 176 sp;
   Sd s8 184 sp; Sd s9 192 sp; Sd s10 200 sp; Sd s11 208 sp; Sd t3 216 sp; Sd t4 224 sp; Sd t5 232 sp; Sd t6 240 sp;
   Call kerneltrap; Ld ra 0 sp; Ld sp 8 sp; Ld gp 16 sp; Ld t0 32 sp; Ld t1 40 sp; Ld t2 48 sp; Ld s0 56 sp;
   Ld s1 64 sp; Ld a0 72 sp; Ld a1 80 sp; Ld a2 88 sp; Ld a3 96 sp; Ld a4 104 sp; Ld a5 112 sp; Ld a6 120 sp;
   Ld a7 128 sp; Ld s2 136 sp; Ld s3 144 sp; Ld s4 152 sp; Ld s5 160 sp; Ld s6 168 sp; Ld s7 176 sp; Ld s8 184 sp;
   Ld s9 192 sp; Ld s10 200 sp; Ld s11 208 sp; Ld t3 216 sp; Ld t4 224 sp; Ld t5 232 sp; Ld t6 240 sp;
   Addi sp sp 256; Sret].

(** Machine-mode timer interrupts. *)
Definition timervec_code : list instr :=
  [Csrrw a0 mscratch a0; Sd a1 0 a0; Sd a2 8 a0; Sd a3 16 a0; Ld a1 24 a0; Ld a2 32 a0; Ld a3 0 a1; Add a3 a3 a2;
   Sd a3 0 a1; Li a1 2; Csrw sip a1; Ld a3 16 a0; Ld a2 8 a0; Ld a1 0 a0; Csrrw a0 mscratch a0; Mret].

(** Traps from user space. *)
Definition uservec : list instr :=
  [Csrrw a0 sscratch a0; Sd ra 40 a0; Sd sp 48 a0; Sd gp 56 a0; Sd tp 64 a0; Sd t0 72 a0; Sd t1 80 a0; Sd t2 88 a0;
   Sd s0 96 a0; Sd s1 104 a0; Sd a1 120 a0; Sd a2 128 a0; Sd a3 136 a0; Sd a4 144 a0; Sd a5 152 a0; Sd a6 160 a0;
   Sd a7 168 a0; Sd s2 176 a0; Sd s3 184 a0; Sd s4 192 a0; Sd s5 200 a0; Sd s6 208 a0; Sd s7 216 a0; Sd s8 224 a0;
   Sd s9 232 a0; Sd s10 240 a0; Sd s11 248 a0; Sd t3 256 a0; Sd t4 264 a0; Sd t5 272 a0; Sd t6 280 a0;
   Csrr t0 sscratch; Sd t0 112 a0; Ld sp 8 a0; Ld tp 32 a0; Ld t0 16 a0; Ld t1 0 a0; Csrw satp t1; Sfence_vma; Jr t0].

(** userret(TRAPFRAME, pagetable), the way back. *)
Definition userret : list instr :=
  [Csrw satp a1; Sfence_vma; Ld t0 112 a0; Csrw sscratch t0; Ld ra 40 a0; Ld sp 48 a0; Ld gp 56 a0; Ld tp 64 a0;
   Ld t0 72 a0; Ld t1 80 a0; Ld t2 88 a0; Ld s0 96 a0; Ld s1 104 a0; Ld a1 120 a0; Ld a2 128 a0; Ld a3 136 a0;
   Ld a4 144 a0; Ld a5 152 a0; Ld a6 160 a0; Ld a7 168 a0; Ld s2 176 a0; Ld s3 184 a0; Ld s4 192 a0; Ld s5 200 a0;
   Ld s6 208 a0; Ld s7 216 a0; Ld s8 224 a0; Ld s9 232 a0; Ld s10 240 a0; Ld s11 248 a0; Ld t3 256 a0; Ld t4 264 a0;
   Ld t5 272 a0; Ld t6 280 a0; Csrrw a0 sscratch a0; Sret].

(** The first instructions of every hart; [stack0] is the address of the stacks, [start] the function called. *)
Definition entry_code (stack0 : Z) (start : hart -> option hart) : list instr :=
  [La sp stack0; Li a0 (1024 * 4); Csrr a1 mhartid; Addi a1 a1 1; Mul a0 a0 a1; Add sp sp a0; Call start].

(** ** Context switches *)

Definition slots_b (n : Z) (l : list (reg * Z)) : bool :=
  forallb (fun '(_, o) => (0 <=? o) && (o + 8 <=? n) && (o mod 8 =? 0)) l && bool_decide (NoDup (map fst l)) && bool_decide (NoDup (map snd l)).

Lemma slots_check n l : slots_b n l = true -> slots n l.
Proof.
  unfold slots_b. rewrite !andb_true_iff. intros [[H1 H2%bool_decide_eq_true] H3%bool_decide_eq_true]. split; [|done|done]. rewrite forallb_forall in H1. intros r o Hr%list_elem_of_In%H1. lia.
Qed.

Lemma slots_range n l r o : slots n l -> (r, o) ∈ l -> 0 <= o /\ o + 8 <= n.
Proof. intros H Hr. by destruct (sl_in _ _ H r o Hr) as (H1 & H2 & _). Qed.

Lemma u64_reg h r : regs_ok h -> u64 (hregs h r) = hregs h r.
Proof. intros H. by apply u64_small. Qed.

(** struct context. *)
Definition ctx : list (reg * Z) :=
  [(ra, 0); (sp, 8); (s0, 16); (s1, 24); (s2, 32); (s3, 40); (s4, 48); (s5, 56); (s6, 64); (s7, 72); (s8, 80); (s9, 88); (s10, 96); (s11, 104)].

Lemma ctx_slots : slots 112 ctx.
Proof. by apply slots_check. Qed.

(** A call swtch(old, new): the two contexts are mapped and do not overlap. *)
Record switching (h : hart) (W : Z -> Prop) (old new po pn : Z) : Prop := {
  sw_a0 : hregs h a0 = old;
  sw_a1 : hregs h a1 = new;
  sw_old : maps h W old 112 po;
  sw_new : maps h W new 112 pn;
  sw_W : forall a, po <= a < po + 112 -> W a;
  sw_apart : po + 112 <= pn \/ pn + 112 <= po;
}.

Lemma swtch_run dg h W old new po pn : switching h W old new po pn -> exists h',
  run dg swtch_code h = Some h' /\ hmem h' = stores po (hregs h) ctx (hmem h) /\
  (forall r o, (r, o) ∈ ctx -> hregs h' r = u64 (ld64 (hmem h) (pn + o))) /\ (forall r, (r ∉ map fst ctx) -> hregs h' r = hregs h r) /\ hpc h' = hregs h' ra /\ hcsr h' = hcsr h /\ hpriv h' = hpriv h.
Proof.
  intros [A0 A1 Ho Hn HW Hap]. change swtch_code with (sds a0 ctx ++ lds a1 ctx ++ [Ret_]). pose proof (fun r o => slots_range 112 ctx r o ctx_slots) as Hr.
  rewrite run_app, (run_sds dg a0 ctx h W old 112 po Ho HW A0 Hr). cbn [mbind option_bind]. set (m1 := stores po (hregs h) ctx (hmem h)). set (h1 := set_hmem m1 h).
  assert (forall a, ~ (po <= a < po + 112) -> m1 a = hmem h a) as Hm1 by (intros a Ha; by eapply stores_out).
  assert (maps h1 W new 112 pn) as Hn1 by (apply maps_mem; [done|]; intros a Ha; apply Hm1; intros H; by apply Ha, HW).
  rewrite run_app, (run_lds dg a1 ctx h1 W new 112 pn Hn1 A1); [|by apply (bool_decide_unpack _)|done]. cbn [mbind option_bind run execute]. eexists. split; [done|]. cbn [hmem set_hregs set_hpc hregs hpc hcsr hpriv]. split_and!; try done.
  - intros r o H. rewrite (loads_in _ _ _ _ _ _ (sl_regs _ _ ctx_slots) H). f_equal. apply ld64_ext. intros x Hx. destruct (Hr r o H). apply Hm1. lia.
  - intros r H. by apply loads_out.
Qed.

(** C13: swtch().  It resumes the new context, with the registers that context was
    saved with, and leaves every other register alone; and when later some hart
    switches to the old context, whose 112 bytes are as they were saved, that hart
    continues after the first call with its ra, sp and s0 to s11. *)
Theorem swtch_roundtrip dg h W old new po pn (Hr : regs_ok h) (Hs : switching h W old new po pn) :
  exists h', run dg swtch_code h = Some h' /\
    (forall r o, (r, o) ∈ ctx -> hregs h' r = u64 (ld64 (hmem h) (pn + o))) /\ (forall r, (r ∉ map fst ctx) -> hregs h' r = hregs h r) /\ hpc h' = hregs h' ra /\
    (forall a, ~ (po <= a < po + 112) -> hmem h' a = hmem h a) /\
    forall h2 W2 old2 po2, switching h2 W2 old2 old po2 po -> (forall a, po <= a < po + 112 -> hmem h2 a = hmem h' a) ->
      exists h2', run dg swtch_code h2 = Some h2' /\ (forall r, r ∈ map fst ctx -> hregs h2' r = hregs h r) /\ hpc h2' = hregs h ra.
Proof.
  destruct (swtch_run dg h W old new po pn Hs) as (h' & R & Em & E1 & E2 & E3 & _). exists h'. split_and!; try done.
  { intros a Ha. rewrite Em. eapply stores_out; [|done]. intros r o. apply (slots_range _ _ _ _ ctx_slots). }
  intros h2 W2 old2 po2 Hs2 Hm. destruct (swtch_run dg h2 W2 old2 old po2 po Hs2) as (h2' & R2 & _ & F1 & _ & F3 & _). exists h2'. split; [done|].
  assert (forall r o, (r, o) ∈ ctx -> hregs h2' r = hregs h r) as HF.
  { intros r o H. rewrite (F1 r o H). destruct (slots_range _ _ _ _ ctx_slots H). rewrite (ld64_ext _ (hmem h')) by (intros x Hx; apply Hm; lia).
    rewrite Em, (stores_in _ _ 112 _ _ _ _ ctx_slots H), (u64_reg h) by done. by apply u64_reg. }
  split; [|rewrite F3; apply (HF ra 0); by constructor]. intros r ([r' o] & <- & H)%list_elem_of_In%in_map_iff. apply (HF r' o). by apply list_elem_of_In.
Qed.

(** ** Traps from user space *)

(** The user registers in struct trapframe, without and with a0. *)
Definition tf_saved : list (reg * Z) :=
  [(ra, 40); (sp, 48); (gp, 56); (tp, 64); (t0, 72); (t1, 80); (t2, 88); (s0, 96); (s1, 104); (a1, 120); (a2, 128); (a3, 136); (a4, 144); (a5, 152); (a6, 160);
   (a7, 168); (s2, 176); (s3, 184); (s4, 192); (s5, 200); (s6, 208); (s7, 216); (s8, 224); (s9, 232); (s10, 240); (s11, 248); (t3, 256); (t4, 264); (t5, 272); (t6, 280)].
Definition tf_regs : list (reg * Z) := (a0, 112) :: tf_saved.

Lemma tf_saved_slots : slots PGSIZE tf_saved.
Proof. by apply slots_check. Qed.

Lemma tf_regs_all r : exists o, (r, o) ∈ tf_regs.
Proof. destruct r; eexists; apply list_elem_of_In; cbn; tauto. Qed.

(** The address space of a process whose trapframe the supervisor can read and write. *)
Record user_space (m : bytes) (root tf : Z) : Prop := {
  up_space : exists d l tab n, mem d = m /\ pspace d root tf l tab n;
  up_rw : has (pte_of m root TRAPFRAME) PTE_R = true /\ has (pte_of m root TRAPFRAME) PTE_W = true;
}.

Lemma satp_root h root : 0 <= root < 2 ^ 56 -> root mod PGSIZE = 0 -> hcsr h satp = MAKE_SATP root -> sv39_root h = root /\ Z.shiftr (hcsr h satp) 60 = 8.
Proof.
  intros Hr Ha E. unfold sv39_root. rewrite E. unfold MAKE_SATP, SATP_SV39. assert (0 <= Z.shiftr root 12 < 2 ^ 44) as Hs by (rewrite Z.shiftr_div_pow2 by lia; Z.to_euclidean_division_equations; lia). split.
  - rewrite Z.land_lor_distr_l, !land_ones_mod by lia. change (Z.shiftl 8 60 mod 2 ^ 44) with 0. rewrite Z.lor_0_l, Z.mod_small by done.
    rewrite Z.shiftl_mul_pow2, Z.shiftr_div_pow2 by lia. unfold PGSIZE in Ha. Z.to_euclidean_division_equations. lia.
  - rewrite Z.shiftr_lor, (shiftr_small (Z.shiftr root 12)) by lia. done.
Qed.

Lemma tf_maps h root tf : user_space (hmem h) root tf -> hpriv h = S_mode -> hcsr h satp = MAKE_SATP root -> maps h (fun a => tf <= a < tf + PGSIZE) TRAPFRAME PGSIZE tf.
Proof.
  intros [(d & l & tab & n & Em & Hsp) [HR HW]] Hp Hs. destruct Hsp as [[U _ [HV _] _] Hf Htf Hown]. pose proof (up_vm _ _ _ _ _ U) as [Hend _ Hpt _]. destruct TRAPFRAME_eq as [E1 E2].
  split_and!; [unfold PGSIZE in *; lia|unfold PGSIZE in *; lia|]. intros m acc o Hacc Ho Hm.
  destruct (pt_page _ _ _ Hpt [] root (pt_root _ _ _ Hpt)) as [Hal Hrng]. destruct (page_ok_bounds d root Hend (conj Hal Hrng)) as [B1 B2].
  destruct (satp_root h root ltac:(lia) Hal Hs) as [S1 S2]. unfold haddr, bare_mode. cbn [hpriv set_hmem hcsr hmem]. rewrite Hp, S2. rewrite bool_decide_eq_false_2 by done. cbn [orb Z.eqb].
  change (sv39_root (set_hmem m h)) with (sv39_root h). rewrite S1. assert (samepage (TRAPFRAME + o) TRAPFRAME) as Hsame by (unfold samepage; rewrite E1; unfold PGSIZE in *; Z.to_euclidean_division_equations; lia).
  rewrite (pte_of_samepage _ _ _ _ Hsame). assert (forall q a, owned tab q -> q <= a < q + PGSIZE -> m a = mem d a) as Hkeep.
  { intros q a Hq Ha. rewrite Em. apply Hm. assert (q <> tf) as Hne by (intros ->; apply Hown; rewrite elem_of_app; left; by apply (elem_table_pages d root tab Hpt)).
    pose proof Hq as [y Hq']. destruct (pages_apart q tf (proj1 (pt_page _ _ _ Hpt _ _ Hq')) (proj1 Htf) Hne); lia. }
  assert (pt_ok (set_mem m d) root tab) as Hpt2 by by eapply pt_ok_frame.
  assert (pte_of m root TRAPFRAME = pte_of (mem d) root TRAPFRAME) as ->.
  { change m with (mem (set_mem m d)) at 1. rewrite (pte_of_at _ _ _ Hpt2), (pte_of_at _ _ _ Hpt). by apply pte_at_frame. }
  rewrite <- Em in HR, HW. rewrite <- (pte_of_at d root tab Hpt) in HV. rewrite HV. assert (TRAPFRAME + o <? MAXVA = true) as -> by (apply Z.ltb_lt; rewrite MAXVA_eq; unfold PGSIZE in *; lia).
  assert (has (pte_of (mem d) root TRAPFRAME) acc = true) as -> by by destruct Hacc as [->| ->]. cbn [andb]. f_equal.
  unfold frame_of in Hf. rewrite (pte_of_at d root tab Hpt), Hf. f_equal. rewrite E1. unfold PGSIZE in *. Z.to_euclidean_division_equations. lia.
Qed.

Notation tf_page tf := (fun a => tf <= a < tf + PGSIZE).

(** uservec is entered in supervisor mode with the user's page table and the address of the trapframe in sscratch. *)
Record trapped (h : hart) (root tf : Z) : Prop := {
  tr_space : user_space (hmem h) root tf;
  tr_mode : hpriv h = S_mode;
  tr_satp : hcsr h satp = MAKE_SATP root;
  tr_scratch : hcsr h sscratch = TRAPFRAME;
}.

(** userret is entered with the trapframe's address in a0 and the page table in a1. *)
Record returning (h : hart) (root tf : Z) : Prop := {
  rt_space : user_space (hmem h) root tf;
  rt_mode : hpriv h = S_mode;
  rt_a0 : hregs h a0 = TRAPFRAME;
  rt_a1 : hregs h a1 = MAKE_SATP root;
}.

Definition kernel_regs : list (reg * Z) := [(sp, 8); (tp, 32); (t0, 16); (t1, 0)].

Lemma tf_range r o : (r, o) ∈ tf_saved -> 0 <= o /\ o + 8 <= PGSIZE.
Proof. apply slots_range, tf_saved_slots. Qed.

Lemma range_b (l : list (reg * Z)) : forallb (fun '(_, o) => (0 <=? o) && (o + 8 <=? PGSIZE)) l = true -> forall r o, (r, o) ∈ l -> 0 <= o /\ o + 8 <= PGSIZE.
Proof. rewrite forallb_forall. intros H r o Hr%list_elem_of_In%H. lia. Qed.

Lemma st64_u64 m a v : st64 m a (u64 v) = st64 m a v.
Proof.
  apply functional_extensionality. intros x. unfold st64, stn, u64. case_range; [|done]. set (k := x - a) in *. assert (0 <= k < 8) as Hk by lia.
  rewrite (Z.div_mod v (2 ^ 64)) at 2 by done. replace (2 ^ 64) with (256 ^ (7 - k) * 256 * 256 ^ k) at 2 by (rewrite <- (Z.pow_1_r 256) at 2; rewrite <- !Z.pow_add_r by lia; replace (7 - k + 1 + k) with 8 by lia; done).
  rewrite Z.add_comm. replace (256 ^ (7 - k) * 256 * 256 ^ k * (v / 2 ^ 64)) with (256 ^ (7 - k) * (v / 2 ^ 64) * 256 * 256 ^ k) by ring.
  rewrite Z.div_add by (apply Z.pow_nonzero; lia). by rewrite Z.mod_add.
Qed.

(** The memory after uservec. *)
Definition saved (x : reg -> Z) (tf : Z) (m : bytes) : bytes := st64 (stores tf x tf_saved m) (tf + 112) (x a0).

Lemma stores_ext pa x y l m : (forall r o, (r, o) ∈ l -> x r = y r) -> stores pa x l m = stores pa y l m.
Proof.
  revert m. induction l as [|[r o] l IH]; intros m H; [done|]. unfold stores in *. cbn [fold_left]. rewrite (H r o) by by constructor. apply IH. intros r' o' H'. apply (H r' o'). by constructor 2.
Qed.

Lemma saved_out x tf m a : ~ (tf + 40 <= a < tf + 288) -> saved x tf m a = m a.
Proof.
  intros Ha. unfold saved. rewrite st64_out by lia. assert (forall r o, (r, o) ∈ tf_saved -> 40 <= o /\ o + 8 <= 288) as H.
  { assert (forallb (fun '(_, o) => (40 <=? o) && (o + 8 <=? 288)) tf_saved = true) as Hb by done. rewrite forallb_forall in Hb. intros r o Hr%list_elem_of_In%Hb. lia. }
  revert H. generalize tf_saved. intros l. revert m. induction l as [|[r o] l IH]; intros m H; [done|]. unfold stores in *. cbn [fold_left]. rewrite IH by (intros r' o' H'; apply (H r' o'); by constructor 2).
  destruct (H r o ltac:(by constructor)). apply st64_out. lia.
Qed.

Lemma saved_in x tf m r o : (r, o) ∈ tf_regs -> ld64 (saved x tf m) (tf + o) = u64 (x r).
Proof.
  intros [[= -> ->]|H]%elem_of_cons; unfold saved; [by rewrite ld64_st64_eq|]. rewrite ld64_st64_ne, (stores_in _ _ PGSIZE _ _ _ _ tf_saved_slots H); [done|].
  destruct (sl_in _ _ tf_saved_slots r o H) as (_ & _ & Hm). assert (o <> 112) as Hne; [|Z.to_euclidean_division_equations; lia]. intros ->.
  assert (112 ∉ map snd tf_saved) as Hn by by apply (bool_decide_unpack _). apply Hn, list_elem_of_In, in_map_iff. exists (r, 112). split; [done|by apply list_elem_of_In].
Qed.

Lemma uservec_run dg h root tf : trapped h root tf -> exists h', run dg uservec h = Some h' /\ hmem h' = saved (hregs h) tf (hmem h) /\
  (forall r o, (r, o) ∈ kernel_regs -> hregs h' r = u64 (ld64 (hmem h) (tf + o))) /\ hpc h' = u64 (ld64 (hmem h) (tf + 16)) /\ hcsr h' satp = u64 (ld64 (hmem h) tf) /\ hpriv h' = S_mode.
Proof.
  intros [Hsp Hp Hs Hsc]. assert (u64 TRAPFRAME = TRAPFRAME) as ET by done.
  change uservec with ([Csrrw a0 sscratch a0] ++ sds a0 tf_saved ++ [Csrr t0 sscratch] ++ sds a0 [(t0, 112)] ++ lds a0 kernel_regs ++ [Csrw satp t1; Sfence_vma; Jr t0]).
  rewrite run_app. cbn [run execute mbind option_bind]. set (h1 := wreg a0 (csr_read sscratch h) (csr_write dg sscratch (hregs h a0) h)).
  assert (hregs h1 = (hregs h).[a0 := TRAPFRAME]) as Er1 by (unfold h1, wreg; cbn [hregs set_hregs]; unfold csr_read; by rewrite Hsc, ET).
  assert (maps h1 (tf_page tf) TRAPFRAME PGSIZE tf) as M1 by by apply (tf_maps h1 root tf).
  rewrite run_app, (run_sds dg a0 tf_saved h1 _ TRAPFRAME PGSIZE tf M1 (fun a Ha => Ha)); [|by rewrite Er1, fupd_eq|exact tf_range]. cbn [mbind option_bind].
  assert (stores tf (hregs h1) tf_saved (hmem h1) = stores tf (hregs h) tf_saved (hmem h)) as Est.
  { apply stores_ext. intros r o H. rewrite Er1, fupd_ne; [done|]. intros ->. assert (a0 ∉ map fst tf_saved) as Hn by by apply (bool_decide_unpack _). apply Hn, list_elem_of_In, in_map_iff. exists (a0, o). split; [done|by apply list_elem_of_In]. }
  rewrite Est. set (m1 := stores tf (hregs h) tf_saved (hmem h)). rewrite run_app. cbn [run execute mbind option_bind]. set (h2 := wreg t0 _ (set_hmem m1 h1)).
  assert (hregs h2 = (hregs h).[a0 := TRAPFRAME].[t0 := u64 (u64 (hregs h a0))]) as Er2 by (change (hregs h2) with (hregs h1).[t0 := u64 (u64 (hregs h a0))]; by rewrite Er1).
  assert (forall a, ~ tf_page tf a -> m1 a = hmem h1 a) as Hm1 by (intros a Ha; unfold m1; eapply stores_out; [exact tf_range|done]).
  assert (maps h2 (tf_page tf) TRAPFRAME PGSIZE tf) as M2 by exact (maps_mem h1 _ _ _ _ m1 M1 Hm1).
  rewrite run_app, (run_sds dg a0 [(t0, 112)] h2 _ TRAPFRAME PGSIZE tf M2 (fun a Ha => Ha)); [|by rewrite Er2|by apply range_b]. cbn [mbind option_bind].
  assert (stores tf (hregs h2) [(t0, 112)] (hmem h2) = saved (hregs h) tf (hmem h)) as ->.
  { unfold stores at 1. cbn [fold_left]. rewrite Er2, fupd_eq. by rewrite !st64_u64. }
  set (m2 := saved (hregs h) tf (hmem h)). set (h3 := set_hmem m2 h2). assert (maps h3 (tf_page tf) TRAPFRAME PGSIZE tf) as M3.
  { apply (maps_mem h1 _ _ _ _ m2 M1). intros a Ha. unfold m2. apply saved_out. cbv beta in Ha. unfold PGSIZE in Ha. lia. }
  rewrite run_app, (run_lds dg a0 kernel_regs h3 _ TRAPFRAME PGSIZE tf M3); [|by change (hregs h3) with (hregs h2); rewrite Er2|by apply (bool_decide_unpack _)|by apply range_b]. cbn [mbind option_bind run execute].
  eexists. split; [done|]. cbn [hmem hregs hpc hcsr hpriv set_hpc]. split; [done|].
  assert (forall r o, (r, o) ∈ kernel_regs -> loads tf (hmem h3) kernel_regs (hregs h3) r = u64 (ld64 (hmem h) (tf + o))) as HK.
  { intros r o H. rewrite (loads_in _ _ _ _ _ o); [|by apply (bool_decide_unpack _)|done]. f_equal. apply ld64_ext. intros x Hx. apply saved_out.
    assert (0 <= o <= 32) as Ho; [|lia]. assert (forallb (fun '(_, o) => (0 <=? o) && (o <=? 32)) kernel_regs = true) as Hb by done. rewrite forallb_forall in Hb. apply list_elem_of_In, Hb in H. lia. }
  split_and!; [exact HK|apply (HK t0 16); apply list_elem_of_In; cbn; tauto| |done].
  unfold csr_write, store. cbn [hcsr set_hcsr]. rewrite fupd_eq. cbn [hregs set_hregs]. rewrite (HK t1 0), Z.add_0_r by (apply list_elem_of_In; cbn; tauto). unfold u64. by rewrite Z.mod_mod.
Qed.

Lemma userret_run dg h root tf : returning h root tf -> exists h', run dg userret h = Some h' /\ hmem h' = hmem h /\
  (forall r o, (r, o) ∈ tf_regs -> hregs h' r = u64 (ld64 (hmem h) (tf + o))) /\ hpc h' = hcsr h sepc /\ hcsr h' satp = u64 (MAKE_SATP root) /\ hcsr h' sscratch = TRAPFRAME.
Proof.
  intros [Hsp Hp H0 H1]. assert (u64 TRAPFRAME = TRAPFRAME) as ET by done. assert (forall v, u64 (u64 v) = u64 v) as Euu by (intros v; unfold u64; by rewrite Z.mod_mod).
  change userret with ([Csrw satp a1; Sfence_vma] ++ lds a0 [(t0, 112)] ++ [Csrw sscratch t0] ++ lds a0 tf_saved ++ [Csrrw a0 sscratch a0; Sret]).
  rewrite run_app. cbn [run execute mbind option_bind]. set (h1 := csr_write dg satp (hregs h a1) h). assert (hcsr h1 satp = u64 (MAKE_SATP root)) as Es1 by (change (hcsr h1 satp) with (u64 (hregs h a1)); by rewrite H1).
  assert (u64 (MAKE_SATP root) = MAKE_SATP root) as Eroot.
  { destruct Hsp as [(d & l & tab & n & _ & [[[[Hend _ Hpt _] _ _ _] _ _ _] _ _ _]) _]. destruct (pt_page _ _ _ Hpt [] root (pt_root _ _ _ Hpt)) as [Hal Hrng]. destruct (page_ok_bounds d root Hend (conj Hal Hrng)) as [B1 B2].
    apply u64_small. unfold MAKE_SATP, SATP_SV39. apply (lor_range _ _ 64); [done|done|]. rewrite Z.shiftr_div_pow2 by lia. Z.to_euclidean_division_equations. lia. }
  assert (maps h1 (tf_page tf) TRAPFRAME PGSIZE tf) as M1 by (apply (tf_maps h1 root tf); [done|done|by rewrite Es1]).
  rewrite run_app, (run_lds dg a0 [(t0, 112)] h1 _ TRAPFRAME PGSIZE tf M1); [|done|by apply (bool_decide_unpack _)|by apply range_b]. cbn [mbind option_bind].
  rewrite run_app. cbn [run execute mbind option_bind]. set (h2 := csr_write dg sscratch _ _). assert (hregs h2 a0 = TRAPFRAME) as Ea2 by (change (hregs h2 a0) with (hregs h a0); done).
  assert (maps h2 (tf_page tf) TRAPFRAME PGSIZE tf) as M2 by (apply (tf_maps h2 root tf); [done|done|]; change (hcsr h2 satp) with (hcsr h1 satp); by rewrite Es1).
  assert (a0 ∉ map fst tf_saved) as Hn by by apply (bool_decide_unpack _).
  rewrite run_app, (run_lds dg a0 tf_saved h2 _ TRAPFRAME PGSIZE tf M2 Ea2 Hn tf_range). cbn [mbind option_bind run execute]. set (h3 := set_hregs _ h2).
  eexists. split; [done|]. unfold sret. cbn [hmem hregs hpc hcsr hpriv set_hpc set_hpriv store set_hcsr wreg set_hregs]. split_and!; [done| |done|done|].
  - intros r o [[= -> ->]|H]%elem_of_cons.
    + unfold csr_write, store. cbn [hregs set_hcsr]. rewrite fupd_eq. change (csr_read sscratch h3) with (u64 (u64 (ld64 (hmem h) (tf + 112)))). by rewrite !Euu.
    + rewrite fupd_ne by (intros ->; apply Hn, list_elem_of_In, in_map_iff; exists (a0, o); split; [done|by apply list_elem_of_In]).
      change (loads tf (hmem h) tf_saved (hregs h2) r = u64 (ld64 (hmem h) (tf + o))). apply loads_in; [apply tf_saved_slots|done].
  - unfold csr_write, store. cbn [hcsr set_hcsr]. rewrite fupd_ne, fupd_eq by done. unfold h3. cbn [hregs set_hregs]. rewrite loads_out, Ea2 by done. done.
Qed.

(** C7: a trap from user space and back.  uservec saves the 31 user registers in the
    process's trapframe, at the offsets of struct trapframe, and enters the kernel
    with the stack pointer, hart id, page table and handler that the trapframe names;
    nothing else of memory changes.  userret, on whatever hart, loads the registers from
    the trapframe: a register whose word the kernel has not changed has the value it
    had when the trap came, so a trap the kernel handles silently is invisible, and a
    system call changes a0 only. *)
Theorem user_trap_roundtrip dg h root tf (Hr : regs_ok h) (Ht : trapped h root tf) :
  exists h1, run dg uservec h = Some h1 /\
    (forall r o, (r, o) ∈ tf_regs -> ld64 (hmem h1) (tf + o) = hregs h r) /\ (forall a, ~ (tf + 40 <= a < tf + 288) -> hmem h1 a = hmem h a) /\
    hregs h1 sp = u64 (ld64 (hmem h) (tf + 8)) /\ hregs h1 tp = u64 (ld64 (hmem h) (tf + 32)) /\ hcsr h1 satp = u64 (ld64 (hmem h) tf) /\ hpc h1 = u64 (ld64 (hmem h) (tf + 16)) /\
    forall h2 root', returning h2 root' tf -> exists h3, run dg userret h2 = Some h3 /\ hmem h3 = hmem h2 /\ hpc h3 = hcsr h2 sepc /\ hcsr h3 satp = u64 (MAKE_SATP root') /\ hcsr h3 sscratch = TRAPFRAME /\
      forall r, exists o, (r, o) ∈ tf_regs /\ hregs h3 r = u64 (ld64 (hmem h2) (tf + o)) /\ (ld64 (hmem h2) (tf + o) = ld64 (hmem h1) (tf + o) -> hregs h3 r = hregs h r).
Proof.
  destruct (uservec_run dg h root tf Ht) as (h1 & R & Em & HK & Hpc & Hsatp & _). exists h1. split; [done|]. assert (forall r o, (r, o) ∈ tf_regs -> ld64 (hmem h1) (tf + o) = hregs h r) as Hin.
  { intros r o H. rewrite Em, (saved_in _ _ _ _ _ H). by apply u64_reg. }
  split_and!; [done|intros a Ha; rewrite Em; by apply saved_out|apply (HK sp 8); apply list_elem_of_In; cbn; tauto|apply (HK tp 32); apply list_elem_of_In; cbn; tauto|done|done|].
  intros h2 root' H2. destruct (userret_run dg h2 root' tf H2) as (h3 & R3 & Em3 & E3 & Epc & Es & Esc). exists h3. split_and!; try done. intros r. destruct (tf_regs_all r) as [o Ho]. exists o. split_and!; [done|by apply E3|].
  intros E. rewrite (E3 r o Ho), E, (Hin r o Ho). by apply u64_reg.
Qed.

(** ** Traps in the kernel *)

Definition kv_rest : list (reg * Z) :=
  [(gp, 16); (t0, 32); (t1, 40); (t2, 48); (s0, 56); (s1, 64); (a0, 72); (a1, 80); (a2, 88); (a3, 96); (a4, 104); (a5, 112); (a6, 120); (a7, 128);
   (s2, 136); (s3, 144); (s4, 152); (s5, 160); (s6, 168); (s7, 176); (s8, 184); (s9, 192); (s10, 200); (s11, 208); (t3, 216); (t4, 224); (t5, 232); (t6, 240)].
Definition kv_saved : list (reg * Z) :=
  [(ra, 0); (sp, 8); (gp, 16); (tp, 24); (t0, 32); (t1, 40); (t2, 48); (s0, 56); (s1, 64); (a0, 72); (a1, 80); (a2, 88); (a3, 96); (a4, 104); (a5, 112); (a6, 120); (a7, 128);
   (s2, 136); (s3, 144); (s4, 152); (s5, 160); (s6, 168); (s7, 176); (s8, 184); (s9, 192); (s10, 200); (s11, 208); (t3, 216); (t4, 224); (t5, 232); (t6, 240)].

Lemma kv_saved_slots : slots 256 kv_saved.
Proof. by apply slots_check. Qed.

Lemma kv_rest_saved r o : (r, o) ∈ kv_rest -> (r, o) ∈ kv_saved.
Proof. intros H%list_elem_of_In. apply list_elem_of_In. cbn in *. tauto. Qed.

Lemma kv_all r : r = ra \/ r = sp \/ r = tp \/ exists o, (r, o) ∈ kv_rest.
Proof. destruct r; try tauto; right; right; right; eexists; apply list_elem_of_In; cbn; tauto. Qed.

(** The hart when kernelvec calls kerneltrap(). *)
Definition kv_called (h : hart) (pb : Z) : hart :=
  let h1 := wreg sp (hregs h sp - 256) h in set_hmem (stores pb (hregs h1) kv_saved (hmem h)) h1.

(** The handler returns, with the stack pointer and the caller's frame as they were. *)
Record handles (kerneltrap : hart -> option hart) (h : hart) (pb : Z) (h2 : hart) : Prop := {
  kt_ret : kerneltrap (kv_called h pb) = Some h2;
  kt_sp : hregs h2 sp = hregs h sp - 256;
  kt_frame : forall a, pb <= a < pb + 256 -> hmem h2 a = hmem (kv_called h pb) a;
  kt_maps : exists W, maps h2 W (hregs h sp - 256) 256 pb;
}.

(** C14: kernelvec is transparent.  An interrupt in the kernel whose handler
    keeps the calling convention gives back every register but tp, which stays that
    of the hart the code then runs on; the stack pointer is back, memory is what the
    handler left and execution continues at sepc. *)
Theorem kernelvec_transparent dg kerneltrap h W pb h2 (Hr : regs_ok h) (Hs : 256 <= hregs h sp) (Hm : maps h W (hregs h sp - 256) 256 pb)
    (HW : forall a, pb <= a < pb + 256 -> W a) (Hk : handles kerneltrap h pb h2) :
  exists h3, run dg (kernelvec kerneltrap) h = Some h3 /\ (forall r, r <> tp -> hregs h3 r = hregs h r) /\ hregs h3 tp = hregs h2 tp /\ hmem h3 = hmem h2 /\ hpc h3 = hcsr h2 sepc.
Proof.
  destruct Hk as [Kr Ks Kf (W2 & Km)]. pose proof (Hr sp) as Hsp. set (b := hregs h sp - 256) in *. assert (u64 b = b) as Eb by (apply u64_small; lia). set (h1 := wreg sp b h).
  assert (hregs h1 = (hregs h).[sp := b]) as E1 by (unfold h1, wreg; cbn [hregs set_hregs]; by rewrite Eb). assert (hregs h1 sp = b) as E1s by by rewrite E1.
  change (kernelvec kerneltrap) with ([Addi sp sp (-256)] ++ sds sp kv_saved ++ [Call kerneltrap] ++ lds sp [(ra, 0)] ++ [Ld sp 8 sp] ++ lds sp kv_rest ++ [Addi sp sp 256; Sret]).
  rewrite run_app. cbn [run execute mbind option_bind]. change (wreg sp (hregs h sp + -256) h) with h1. pose proof (fun r o => slots_range 256 kv_saved r o kv_saved_slots) as Hrg.
  rewrite run_app, (run_sds dg sp kv_saved h1 W b 256 pb Hm HW E1s Hrg). cbn [mbind option_bind]. change (set_hmem _ h1) with (kv_called h pb). rewrite run_app. cbn [run execute mbind option_bind]. rewrite Kr. cbn [mbind option_bind].
  assert (forall r o, (r, o) ∈ kv_saved -> u64 (ld64 (hmem h2) (pb + o)) = hregs h1 r) as Hld.
  { intros r o H. destruct (Hrg r o H). rewrite (ld64_ext _ (hmem (kv_called h pb))) by (intros x Hx; apply Kf; lia). unfold kv_called. cbn [hmem set_hmem]. rewrite (stores_in _ _ 256 _ _ _ _ kv_saved_slots H).
    assert (0 <= hregs h1 r < 2 ^ 64) as Hb by (rewrite E1; unfold fupd; case_decide; [lia|apply Hr]). change (hregs (wreg sp (hregs h sp - 256) h)) with (hregs h1). by rewrite !u64_small by (rewrite ?u64_small; done). }
  rewrite run_app, (run_lds dg sp [(ra, 0)] h2 W2 b 256 pb Km Ks); [|by apply (bool_decide_unpack _)|intros r o [= -> ->]%list_elem_of_singleton; lia]. cbn [mbind option_bind].
  set (h3 := set_hregs _ h2). assert (hregs h3 sp = b) as E3 by exact Ks. rewrite run_app. cbn [run execute mbind option_bind]. rewrite E3, (maps_addr h3 W2 b 256 pb PTE_R 8 Km) by (lia || by left). cbn [mbind option_bind].
  set (h4 := wreg sp _ h3). assert (hregs h4 sp = b) as E4.
  { unfold h4, wreg. cbn [hregs set_hregs]. rewrite fupd_eq. change (hmem h3) with (hmem h2). rewrite (Hld sp 8); [done|]. apply list_elem_of_In. cbn. tauto. }
  rewrite run_app, (run_lds dg sp kv_rest h4 W2 b 256 pb Km E4); [|by apply (bool_decide_unpack _)|intros r o H; apply (Hrg r), kv_rest_saved, H]. cbn [mbind option_bind run execute]. eexists. split; [done|].
  unfold sret. cbn [hmem hregs hpc hcsr hpriv set_hpc set_hpriv store set_hcsr wreg set_hregs]. assert (sp ∉ map fst kv_rest) as N1 by by apply (bool_decide_unpack _). assert (tp ∉ map fst kv_rest) as N2 by by apply (bool_decide_unpack _). assert (ra ∉ map fst kv_rest) as N3 by by apply (bool_decide_unpack _).
  rewrite (loads_out _ _ _ _ sp N1), E4. split_and!; [|rewrite fupd_ne, (loads_out _ _ _ _ tp N2) by done; done|done|done].
  intros r Hne. destruct (kv_all r) as [->|[->|[->|[o Ho]]]]; [| |done|].
  - rewrite fupd_ne, (loads_out _ _ _ _ ra N3) by done. change (hregs h4 ra) with (u64 (ld64 (hmem h2) (pb + 0))). rewrite (Hld ra 0), E1 by (apply list_elem_of_In; cbn; tauto). done.
  - rewrite fupd_eq. unfold b. rewrite u64_small; lia.
  - assert (r <> sp) as Hr2 by (intros ->; apply N1, list_elem_of_In, in_map_iff; exists (sp, o); split; [done|by apply list_elem_of_In]). rewrite fupd_ne by done.
    rewrite (loads_in _ _ _ _ _ o); [|by apply (bool_decide_unpack _)|done]. change (hmem h4) with (hmem h2). rewrite (Hld r o (kv_rest_saved _ _ Ho)), E1. by rewrite fupd_ne.
Qed.

(** ** Starting a hart (start.c) *)

Definition CLINT : Z := 0x2000000.
Definition CLINT_MTIMECMP (hartid : Z) : Z := CLINT + 0x4000 + 8 * hartid.
Definition CLINT_MTIME : Z := CLINT + 0xBFF8.

Section Start.
(** The addresses of main, timervec and timer_scratch, and the implemented bits of mideleg. *)
Context (main timervec timer_scratch delegable : Z).

(** Machine mode stores go to physical memory. *)
Definition st (a v : Z) (h : hart) : hart := set_hmem (st64 (hmem h) a v) h.

Definition timerinit (h : hart) : hart :=
  (* each CPU has a separate source of timer interrupts. *)
  let id := i32 (r_mhartid h) in
  (* ask the CLINT for a timer interrupt. *)
  let interval := 1000000 in
  let h := st (CLINT_MTIMECMP id) (u64 (ld64 (hmem h) CLINT_MTIME + interval)) h in
  (* prepare information in scratch[] for timervec. *)
  let scratch := timer_scratch + 40 * id in
  let h := st (scratch + 8 * 3) (CLINT_MTIMECMP id) h in
  let h := st (scratch + 8 * 4) interval h in
  let h := w_mscratch delegable scratch h in
  (* set the machine-mode trap handler. *)
  let h := w_mtvec delegable timervec h in
  (* enable machine-mode interrupts. *)
  let h := w_mstatus delegable (Z.lor (r_mstatus h) MSTATUS_MIE) h in
  (* enable machine-mode timer interrupts. *)
  w_mie delegable (Z.lor (r_mie h) MIE_MTIE) h.

Definition start (h : hart) : hart :=
  (* set M Previous Privilege mode to Supervisor, for mret. *)
  let x := r_mstatus h in
  let x := Z.land x (Z.lnot MSTATUS_MPP_MASK) in
  let x := Z.lor x MSTATUS_MPP_S in
  let h := w_mstatus delegable x h in
  (* set M Exception Program Counter to main, for mret. *)
  let h := w_mepc delegable main h in
  (* disable paging for now. *)
  let h := w_satp delegable 0 h in
  (* delegate all interrupts and exceptions to supervisor mode. *)
  let h := w_medeleg delegable 0xffff h in
  let h := w_mideleg delegable 0xffff h in
  let h := w_sie delegable (Z.lor (Z.lor (Z.lor (r_sie h) SIE_SEIE) SIE_STIE) SIE_SSIE) h in
  (* ask for clock interrupts. *)
  let h := timerinit h in
  (* keep each CPU's hartid in its tp register, for cpuid(). *)
  let id := i32 (r_mhartid h) in
  let h := w_tp id h in
  (* switch to supervisor mode and jump to main(). *)
  mret h.
End Start.

(** The scratch area of hart [id] as timervec needs it. *)
Record timer_ready (timer_scratch id : Z) (h : hart) : Prop := {
  ti_scratch : hcsr h mscratch = timer_scratch + 40 * id;
  ti_cmp : ld64 (hmem h) (timer_scratch + 40 * id + 24) = CLINT_MTIMECMP id;
  ti_interval : ld64 (hmem h) (timer_scratch + 40 * id + 32) = 1000000;
}.

(** timer_scratch is in RAM, above the CLINT. *)
Definition scratch_ok (timer_scratch id : Z) : Prop := 0 <= id < Z.of_nat NCPU /\ CLINT + 0x10000 <= timer_scratch /\ timer_scratch + 40 * Z.of_nat NCPU <= 2 ^ 63.

Lemma u64_idem v : u64 (u64 v) = u64 v.
Proof. unfold u64. by rewrite Z.mod_mod. Qed.

(** Machine mode accesses. *)
Lemma run_Sd dg rs off rb l h : hpriv h = M_mode -> run dg (Sd rs off rb :: l) h = run dg l (set_hmem (st64 (hmem h) (u64 (hregs h rb + off)) (hregs h rs)) h).
Proof. intros H. cbn [run execute]. unfold haddr, bare_mode. by rewrite H. Qed.

Lemma run_Ld dg rd off rb l h : hpriv h = M_mode -> run dg (Ld rd off rb :: l) h = run dg l (wreg rd (ld64 (hmem h) (u64 (hregs h rb + off))) h).
Proof. intros H. cbn [run execute]. unfold haddr, bare_mode. by rewrite H. Qed.

Lemma run_cons dg i l h h' : execute dg i h = Some h' -> run dg (i :: l) h = run dg l h'.
Proof. intros H. cbn [run]. by rewrite H. Qed.

Ltac fupds := repeat first [rewrite fupd_eq | rewrite fupd_ne by done].

Lemma merge_spec old v mask i : 0 <= i -> Z.testbit (merge old v mask) i = if Z.testbit mask i then Z.testbit v i else Z.testbit old i.
Proof. intros Hi. unfold merge. rewrite Z.lor_spec, Z.ldiff_spec, Z.land_spec. destruct (Z.testbit mask i), (Z.testbit old i), (Z.testbit v i); done. Qed.

Lemma testbit_u64 v i : 0 <= i < 64 -> Z.testbit (u64 v) i = Z.testbit v i.
Proof. intros Hi. unfold u64. apply Z.mod_pow2_bits_low. lia. Qed.

(** C15: the machine-mode timer interrupt.  timervec moves the next interrupt one
    interval ahead and raises a supervisor software interrupt; it gives back every
    register and mscratch, leaves the rest of memory alone but for its save area, and
    is ready for the next interrupt. *)
Theorem timervec_rearms dg scratch id h (Hr : regs_ok h) (Hp : hpriv h = M_mode) (Hs : scratch_ok scratch id) (Ht : timer_ready scratch id h) (Hd : Z.testbit (hcsr h mideleg) 1 = true) :
  exists h', run dg timervec_code h = Some h' /\ (forall r, hregs h' r = hregs h r) /\ timer_ready scratch id h' /\ hpc h' = hcsr h mepc /\
    ld64 (hmem h') (CLINT_MTIMECMP id) = u64 (ld64 (hmem h) (CLINT_MTIMECMP id) + 1000000) /\ Z.testbit (csr_read sip h') 1 = true /\
    forall a, ~ (scratch + 40 * id <= a < scratch + 40 * id + 24) -> ~ (CLINT_MTIMECMP id <= a < CLINT_MTIMECMP id + 8) -> hmem h' a = hmem h a.
Proof.
  destruct h as [x c m pv pc]. cbn [hpriv hregs hcsr hmem] in *. subst pv. destruct Ht as [T1 T2 T3]. cbn [hcsr hmem] in *. destruct Hs as (S1 & S2 & S3). set (sc := scratch + 40 * id) in *. set (cm := CLINT_MTIMECMP id) in *.
  assert (0 <= cm /\ cm + 8 <= CLINT + 0x10000 /\ CLINT + 0x10000 <= sc /\ sc + 40 <= 2 ^ 63) as (C1 & C2 & C3 & C4) by (unfold cm, sc, CLINT_MTIMECMP, CLINT, NCPU in *; lia). assert (forall h', hcsr h' mscratch = sc -> ld64 (hmem h') (sc + 24) = cm -> ld64 (hmem h') (sc + 32) = 1000000 -> timer_ready scratch id h') as Hready by (intros h' ? ? ?; by split). clearbody sc cm.
  assert (forall r, u64 (x r) = x r) as Hx by (intros r; apply u64_small, Hr). assert (u64 sc = sc /\ u64 cm = cm) as [Esc Ecm] by (split; apply u64_small; lia).
  assert (forall o, 0 <= o < 40 -> u64 (sc + o) = sc + o) as Eo by (intros o Ho; apply u64_small; lia).
  unfold timervec_code. erewrite run_cons by done. unfold csr_write, csr_read, store, wreg. cbn [hcsr set_hcsr hregs set_hregs hmem]. rewrite T1, Esc, Hx.
  set (m1 := st64 (st64 (st64 m sc (x a1)) (sc + 8) (x a2)) (sc + 16) (x a3)).
  do 3 (rewrite run_Sd by done; unfold set_hmem, set_hregs, set_hcsr; cbn [hregs hcsr hmem hpriv hpc]; fupds; rewrite Eo by lia). rewrite (Z.add_0_r sc). fold m1.
  assert (ld64 m1 (sc + 24) = cm /\ ld64 m1 (sc + 32) = 1000000 /\ ld64 m1 cm = ld64 m cm) as (L1 & L2 & L3) by (unfold m1; rewrite !ld64_st64_ne by lia; done).
  assert (ld64 m1 sc = x a1 /\ ld64 m1 (sc + 8) = x a2 /\ ld64 m1 (sc + 16) = x a3) as (L4 & L5 & L6).
  { unfold m1. rewrite !(ld64_st64_ne _ _ sc), !(ld64_st64_ne _ _ (sc + 8)), !ld64_st64_eq by lia. by rewrite !Hx. }
  assert (forall a, ~ (sc <= a < sc + 24) -> m1 a = m a) as Hout by (intros a Ha; unfold m1; by rewrite !st64_out by lia). clearbody m1.
  do 2 (rewrite run_Ld by done; unfold wreg, set_hregs; cbn [hregs hcsr hmem hpriv hpc]; fupds; rewrite Eo by lia). rewrite L1, L2, Ecm. change (u64 1000000) with 1000000.
  rewrite run_Ld by done. unfold wreg, set_hregs. cbn [hregs hcsr hmem hpriv hpc]. fupds. rewrite Z.add_0_r, Ecm, L3. erewrite run_cons by done. unfold wreg, set_hregs. cbn [hregs hcsr hmem hpriv hpc]. fupds.
  set (nw := u64 (u64 (ld64 m cm) + 1000000)). assert (nw = u64 (ld64 m cm + 1000000)) as Enw by (unfold nw, u64; by rewrite Z.add_mod_idemp_l). rewrite run_Sd by done. unfold set_hmem. cbn [hregs hcsr hmem hpriv hpc]. fupds. rewrite Z.add_0_r, Ecm.
  set (m2 := st64 m1 cm nw). do 2 (erewrite run_cons by done). unfold wreg, csr_write, store, set_hregs, set_hcsr. cbn [hregs hcsr hmem hpriv hpc]. fupds.
  do 3 (rewrite run_Ld by done; unfold wreg, set_hregs; cbn [hregs hcsr hmem hpriv hpc]; fupds; rewrite Eo by lia). rewrite (Z.add_0_r sc).
  assert (forall o, 0 <= o < 40 -> ld64 m2 (sc + o) = ld64 m1 (sc + o)) as K by (intros o Ho; unfold m2; by rewrite ld64_st64_ne by lia).
  assert (ld64 m2 sc = x a1) as K0 by (rewrite <- (Z.add_0_r sc), K, Z.add_0_r by lia; done). rewrite !K, K0, L5, L6, !Hx by lia.
  do 2 (erewrite run_cons by done). cbn [run]. unfold wreg, csr_write, csr_read, store, set_hregs, set_hcsr, mret, set_hpc, set_hpriv. cbn [hregs hcsr hmem hpriv hpc]. fupds. rewrite Esc, Hx.
  eexists. split; [done|]. unfold store, set_hcsr. cbn [hregs hcsr hmem hpriv hpc]. fupds. split_and!.
  - intros r. unfold fupd. by repeat case_decide; subst.
  - apply Hready; cbn [hcsr hmem]; fupds; [done|by rewrite K by lia|by rewrite K by lia].
  - done.
  - unfold m2. rewrite ld64_st64_eq, Enw. apply u64_idem.
  - rewrite Z.land_spec, testbit_u64, merge_spec, Z.land_spec, Hd by lia. done.
  - intros a H1 H2. unfold m2. rewrite st64_out by done. by apply Hout.
Qed.

(** The two low bits of a number. *)
Lemma land3 y : Z.land y 3 = Z.b2z (Z.testbit y 0) + 2 * Z.b2z (Z.testbit y 1).
Proof.
  change 3 with (Z.ones 2). rewrite Z.land_ones by lia. rewrite !Z.testbit_spec' by lia. change (2 ^ 0) with 1. change (2 ^ 1) with 2. change (2 ^ 2) with 4. rewrite Z.div_1_r. Z.to_euclidean_division_equations. lia.
Qed.

(** mret goes to the mode in MPP. *)
Lemma mret_S x : Z.testbit x 11 = true -> Z.testbit x 12 = false -> Z.land (Z.shiftr x 11) 3 = 1.
Proof. intros H1 H2. rewrite land3, !Z.shiftr_spec by lia. change (0 + 11) with 11. change (1 + 11) with 12. by rewrite H1, H2. Qed.

Section StartRun.
Context (main tv ts dg : Z) (h : hart).
Notation id := (i32 (hcsr h mhartid)).
Notation dl := (u64 (Z.land 0xffff dg)).
Notation x := (Z.lor (Z.land (hcsr h mstatus) (Z.lnot MSTATUS_MPP_MASK)) MSTATUS_MPP_S).
Notation ie := (merge (hcsr h mie) (Z.lor (Z.lor (Z.lor (Z.land (hcsr h mie) dl) SIE_SEIE) SIE_STIE) SIE_SSIE) dl).

(** The hart before timerinit() and the registers after it. *)
Definition pre_timer : hart :=
  set_hcsr (hcsr h).[mstatus := u64 x].[mepc := u64 main].[satp := 0].[medeleg := 0xffff].[mideleg := dl].[mie := u64 ie] h.

Lemma start_eq : start main tv ts dg h = mret (wreg tp id (timerinit tv ts dg pre_timer)).
Proof using. reflexivity. Qed.

Lemma timerinit_csr h1 : hcsr (timerinit tv ts dg h1) =
  (hcsr h1).[mscratch := u64 (ts + 40 * i32 (hcsr h1 mhartid))].[mtvec := u64 tv].[mstatus := u64 (Z.lor (hcsr h1 mstatus) MSTATUS_MIE)].[mie := u64 (Z.lor (hcsr h1 mie) MIE_MTIE)].
Proof using. reflexivity. Qed.

Lemma timerinit_mem h1 : let id := i32 (hcsr h1 mhartid) in hmem (timerinit tv ts dg h1) =
  st64 (st64 (st64 (hmem h1) (CLINT_MTIMECMP id) (u64 (ld64 (hmem h1) CLINT_MTIME + 1000000))) (ts + 40 * id + 24) (CLINT_MTIMECMP id)) (ts + 40 * id + 32) 1000000.
Proof using. reflexivity. Qed.
End StartRun.

(** C16: start().  A hart that comes from reset in machine mode enters main() in
    supervisor mode without paging and with its hart id in tp; external, timer and
    software interrupts are enabled for the supervisor, while the machine timer
    interrupt is not delegated, is enabled, and goes to timervec with its scratch area
    set up and the first interrupt one interval ahead. *)
Theorem start_boots main tv ts dg h id (Hp : hpriv h = M_mode) (Hid : hcsr h mhartid = id) (Hs : scratch_ok ts id) (Hm : 0 <= main < 2 ^ 64) (Hv : 0 <= tv < 2 ^ 64)
    (Hd : Z.testbit dg 1 = true /\ Z.testbit dg 5 = true /\ Z.testbit dg 9 = true /\ Z.testbit dg 7 = false) :
  let h' := start main tv ts dg h in
  hpriv h' = S_mode /\ hpc h' = main /\ hcsr h' satp = 0 /\ hregs h' tp = id /\
  (forall i, i ∈ [1; 5; 9] -> Z.testbit (csr_read sie h') i = true) /\
  Z.testbit (hcsr h' mideleg) 7 = false /\ Z.testbit (hcsr h' mie) 7 = true /\ hcsr h' mtvec = tv /\ timer_ready ts id h' /\
  ld64 (hmem h') (CLINT_MTIMECMP id) = u64 (ld64 (hmem h) CLINT_MTIME + 1000000).
Proof.
  intros h'. destruct Hs as (S1 & S2 & S3). destruct Hd as (D1 & D5 & D9 & D7). assert (i32 (hcsr h mhartid) = id) as Ei by (rewrite Hid; apply i32_small; unfold int_range, NCPU in *; lia).
  assert (h' = mret (wreg tp id (timerinit tv ts dg (pre_timer main dg h)))) as E by (unfold h'; by rewrite start_eq, Ei). clearbody h'. set (h1 := pre_timer main dg h) in *. assert (i32 (hcsr h1 mhartid) = id) as Ei1 by exact Ei.
  pose proof (timerinit_csr tv ts dg h1) as Ec. pose proof (timerinit_mem tv ts dg h1) as Em. rewrite Ei1 in Ec, Em. set (h2 := timerinit tv ts dg h1) in *. clearbody h2.
  assert (forall c, c <> mstatus -> hcsr h' c = hcsr h2 c) as Hc by (intros c Hc; rewrite E; unfold mret, store; cbn [hcsr set_hpc set_hpriv set_hcsr]; by rewrite fupd_ne).
  assert (hmem h' = hmem h2 /\ hregs h' tp = u64 id /\ hpc h' = hcsr h2 mepc) as (Hmem & Htp & Hpc) by (rewrite E; split_and!; [done|unfold mret, wreg; cbn [hregs set_hpc set_hpriv store set_hcsr set_hregs]; by rewrite fupd_eq|done]).
  assert (hcsr h1 mideleg = u64 (Z.land 0xffff dg)) as Edl by done. assert (forall i, 0 <= i < 16 -> Z.testbit (hcsr h1 mideleg) i = Z.testbit dg i) as Hdl.
  { intros i Hi. rewrite Edl, testbit_u64, Z.land_spec by lia. change 0xffff with (Z.ones 16). rewrite Z.ones_spec_low by lia. done. }
  split_and!.
  - rewrite E. unfold mret. cbn [hpriv set_hpc set_hpriv]. change (hcsr (wreg tp id h2) mstatus) with (hcsr h2 mstatus). rewrite Ec, fupd_ne, fupd_eq, mret_S; [done| | |done].
    + rewrite testbit_u64, Z.lor_spec by lia. change (hcsr h1 mstatus) with (u64 (Z.lor (Z.land (hcsr h mstatus) (Z.lnot MSTATUS_MPP_MASK)) MSTATUS_MPP_S)). rewrite testbit_u64, Z.lor_spec by lia. change (Z.testbit MSTATUS_MPP_S 11) with true. by rewrite orb_true_r.
    + rewrite testbit_u64, Z.lor_spec by lia. change (hcsr h1 mstatus) with (u64 (Z.lor (Z.land (hcsr h mstatus) (Z.lnot MSTATUS_MPP_MASK)) MSTATUS_MPP_S)). rewrite testbit_u64, Z.lor_spec, Z.land_spec, Z.lnot_spec by lia.
      change (Z.testbit MSTATUS_MPP_MASK 12) with true. by rewrite andb_false_r.
  - rewrite Hpc, Ec. fupds. change (hcsr h1 mepc) with (u64 main). by apply u64_small.
  - rewrite Hc, Ec by done. by fupds.
  - rewrite Htp. apply u64_small. unfold NCPU in *. lia.
  - intros i Hi. unfold csr_read. rewrite !Hc, Ec by done. fupds. assert (i = 1 \/ i = 5 \/ i = 9) as Hi3 by (rewrite !elem_of_cons, elem_of_nil in Hi; tauto). assert (0 <= i < 16 /\ Z.testbit dg i = true) as [Hr Hdi] by by destruct Hi3 as [->|[->| ->]].
    rewrite Z.land_spec, testbit_u64, Z.lor_spec, Hdl, Hdi by lia. rewrite andb_true_r. apply orb_true_intro. left.
    change (hcsr h1 mie) with (u64 (merge (hcsr h mie) (Z.lor (Z.lor (Z.lor (Z.land (hcsr h mie) (hcsr h1 mideleg)) SIE_SEIE) SIE_STIE) SIE_SSIE) (hcsr h1 mideleg))).
    rewrite testbit_u64, merge_spec, Hdl, Hdi, !Z.lor_spec by lia. destruct Hi3 as [->|[->| ->]]; rewrite ?orb_true_r; done.
  - rewrite Hc, Ec by done. fupds. by rewrite Hdl by lia.
  - rewrite Hc, Ec by done. fupds. rewrite testbit_u64, Z.lor_spec by lia. change (Z.testbit MIE_MTIE 7) with true. apply orb_true_r.
  - rewrite Hc, Ec by done. fupds. by apply u64_small.
  - assert (0 <= CLINT_MTIMECMP id < 2 ^ 64) as Hcm by (unfold CLINT_MTIMECMP, CLINT, NCPU in *; lia). split; [|rewrite Hmem, Em..].
    + rewrite Hc, Ec by done. fupds. apply u64_small. unfold CLINT, NCPU in *. lia.
    + rewrite ld64_st64_ne, ld64_st64_eq by lia. by apply u64_small.
    + by rewrite ld64_st64_eq.
  - rewrite Hmem, Em, !ld64_st64_ne, ld64_st64_eq by (unfold CLINT_MTIMECMP, CLINT, NCPU in *; lia). apply u64_idem.
Qed.

Lemma run_call dg f h : run dg [Call f] h = f h.
Proof. cbn [run execute]. by destruct (f h). Qed.

(** entry.S gives hart [i] the stack that ends at stack0 + 4096 * (i + 1). *)
Theorem entry_stack dg stack0 start h : 0 <= stack0 < 2 ^ 63 -> 0 <= hcsr h mhartid < Z.of_nat NCPU ->
  exists h', run dg (entry_code stack0 start) h = start h' /\ hregs h' sp = stack0 + 4096 * (hcsr h mhartid + 1) /\ hmem h' = hmem h /\ hcsr h' = hcsr h.
Proof.
  intros H1 H2. unfold entry_code. do 6 (erewrite run_cons by done). eexists. split; [apply run_call|]. split; [|done].
  unfold wreg, csr_read. cbn [hregs set_hregs hcsr]. fupds. unfold NCPU in *. rewrite (u64_small stack0), (u64_small (1024 * 4)), (u64_small (hcsr h mhartid)) by lia. rewrite (u64_small (hcsr h mhartid + 1)) by lia.
  rewrite (u64_small (1024 * 4 * _)) by lia. rewrite u64_small; lia.
Qed.

(** ** Concrete harts *)

(** A hart in supervisor mode without paging, at a call swtch(0x1000, 0x2000). *)
Definition hart_sw (o n : Z) : hart := mkHart (fun r => match r with a0 => o | a1 => n | sp => 0x80001000 | ra => 77 | _ => 5 end) (fun _ => 0) (fun _ => 0) S_mode 0.

Lemma hart_sw_ok o n : 0 <= o < 2 ^ 32 -> 0 <= n < 2 ^ 32 -> regs_ok (hart_sw o n) /\ (o + 112 <= n \/ n + 112 <= o -> switching (hart_sw o n) (fun a => o <= a < o + 112) o n o n).
Proof.
  intros H1 H2. split; [intros r; destruct r; cbn; lia|]. intros Hap. split; [done|done|apply maps_bare; [done|lia|lia]|apply maps_bare; [done|lia|lia]|done|done].
Qed.

Lemma swtch_roundtrip_witness : exists h', run 0x222 swtch_code (hart_sw 0x1000 0x2000) = Some h' /\
  forall h2, hmem h2 = hmem h' -> switching h2 (fun a => 0x3000 <= a < 0x3000 + 112) 0x3000 0x1000 0x3000 0x1000 -> exists h3, run 0x222 swtch_code h2 = Some h3 /\ hregs h3 sp = 0x80001000 /\ hpc h3 = 77.
Proof.
  destruct (hart_sw_ok 0x1000 0x2000 ltac:(lia) ltac:(lia)) as [H1 H2].
  destruct (swtch_roundtrip 0x222 (hart_sw 0x1000 0x2000) (fun a => 0x1000 <= a < 0x1000 + 112) 0x1000 0x2000 0x1000 0x2000 H1 (H2 ltac:(lia))) as (h' & R & _ & _ & _ & _ & H).
  exists h'. split; [exact R|]. intros h2 Em Hs. destruct (H h2 _ _ _ Hs) as (h3 & R3 & E1 & E2); [intros a _; by rewrite Em|]. exists h3. split; [exact R3|]. split; [apply (E1 sp)|exact E2].
  apply (bool_decide_unpack _). reflexivity.
Defined.

(** A trap of a process with page table [root]. *)
Definition hart_user (m : bytes) (root : Z) : hart :=
  mkHart (fun r => match r with a0 => 10 | a7 => 11 | sp => 4000 | _ => 3 end) (fun c => match c with satp => MAKE_SATP root | sscratch => TRAPFRAME | _ => 0 end) m S_mode 0.

Lemma hart_user_trapped d root tf l tab n : pspace d root tf l tab n -> has (pte_of (mem d) root TRAPFRAME) PTE_R && has (pte_of (mem d) root TRAPFRAME) PTE_W = true ->
  trapped (hart_user (mem d) root) root tf.
Proof. intros Hs H. split; [|done|done|done]. split; [by exists d, l, tab, n|by apply andb_prop]. Qed.

Lemma hart_user_regs m root : regs_ok (hart_user m root).
Proof. intros r. destruct r; cbn; lia. Qed.

Lemma user_trap_roundtrip_witness : exists h1, run 0x222 uservec (hart_user (mem one_page) (fst tabled)) = Some h1 /\ ld64 (hmem h1) (pg0 0 + 48) = 4000 /\
  forall h2, returning h2 (fst tabled) (pg0 0) -> hmem h2 = hmem h1 -> exists h3, run 0x222 userret h2 = Some h3 /\ hregs h3 a7 = 11.
Proof.
  destruct one_page_ok as (l & tab & Hs & _).
  assert (has (pte_of (mem one_page) (fst tabled) TRAPFRAME) PTE_R && has (pte_of (mem one_page) (fst tabled) TRAPFRAME) PTE_W = true) as Hrw by (vm_compute; reflexivity).
  pose proof (hart_user_trapped one_page (fst tabled) (pg0 0) l tab 1 Hs Hrw) as Ht.
  destruct (user_trap_roundtrip 0x222 (hart_user (mem one_page) (fst tabled)) (fst tabled) (pg0 0) (hart_user_regs _ _) Ht) as (h1 & R & E1 & _ & _ & _ & _ & _ & H).
  exists h1. split; [exact R|]. split; [apply (E1 sp 48), list_elem_of_In; cbn; tauto|]. intros h2 H2 Em. destruct (H h2 (fst tabled) H2) as (h3 & R3 & _ & _ & _ & _ & E3). exists h3. split; [exact R3|].
  destruct (E3 a7) as (o & _ & _ & E). apply E. rewrite Em. reflexivity.
Defined.

Lemma kernelvec_transparent_witness : exists h3, run 0x222 (kernelvec (fun h => Some (wreg a0 99 h))) (hart_sw 1 2) = Some h3 /\ forall r, r <> tp -> hregs h3 r = hregs (hart_sw 1 2) r.
Proof.
  destruct (hart_sw_ok 1 2 ltac:(lia) ltac:(lia)) as [H1 _]. set (W := fun a => 0x80000f00 <= a < 0x80001000).
  destruct (kernelvec_transparent 0x222 (fun h => Some (wreg a0 99 h)) (hart_sw 1 2) W 0x80000f00 (wreg a0 99 (kv_called (hart_sw 1 2) 0x80000f00)) H1) as (h3 & R & E & _).
  - cbn. lia.
  - apply maps_bare; [reflexivity|cbn; lia|cbn; lia].
  - intros a Ha. unfold W. lia.
  - split; [reflexivity|reflexivity|intros a _; reflexivity|]. exists W. apply maps_bare; [reflexivity|cbn; lia|cbn; lia].
  - exists h3. exact (conj R E).
Defined.

(** Hart 1 after reset, with timer_scratch at 0x80020000. *)
Definition hart_reset : hart := mkHart (fun _ => 0) (fun c => match c with mhartid => 1 | _ => 0 end) (fun _ => 0) M_mode 0x1000.

Lemma start_boots_witness : let h' := start 0x80001000 0x80002000 0x80020000 0x222 hart_reset in hpriv h' = S_mode /\ hpc h' = 0x80001000 /\ hregs h' tp = 1 /\ timer_ready 0x80020000 1 h'.
Proof.
  destruct (start_boots 0x80001000 0x80002000 0x80020000 0x222 hart_reset 1) as (H1 & H2 & _ & H3 & _ & _ & _ & _ & H4 & _);
    [reflexivity|reflexivity|unfold scratch_ok, CLINT, NCPU; lia|lia|lia|split_and!; reflexivity|]. exact (conj H1 (conj H2 (conj H3 H4))).
Defined.

(** Hart 1 at its first timer interrupt. *)
Definition hart_timer : hart := set_hpriv M_mode (start 0x80001000 0x80002000 0x80020000 0x222 hart_reset).

Lemma timervec_rearms_witness : exists h', run 0x222 timervec_code hart_timer = Some h' /\ (forall r, hregs h' r = hregs hart_timer r) /\ timer_ready 0x80020000 1 h'.
Proof.
  destruct (timervec_rearms 0x222 0x80020000 1 hart_timer) as (h' & R & E & T & _).
  - intros r. destruct r; vm_compute; split; congruence.
  - reflexivity.
  - unfold scratch_ok, CLINT, NCPU. lia.
  - split; vm_compute; reflexivity.
  - vm_compute. reflexivity.
  - exists h'. exact (conj R (conj E T)).
Defined.

(** ** Paging on a hart *)

Definition sfence_vma (h : hart) : hart := h.
Definition kvminithart (dg kernel_pagetable : Z) (h : hart) : hart := sfence_vma (w_satp dg (MAKE_SATP kernel_pagetable) h).
Definition trapinithart (dg kernelvec : Z) (h : hart) : hart := w_stvec dg kernelvec h.

(** What main() does to the registers of a hart; the devices and the data of the
    kernel are in [Trap]. *)
Definition main_hart (dg kernel_pagetable kernelvec : Z) (h : hart) : hart := trapinithart dg kernelvec (kvminithart dg kernel_pagetable h).

Lemma haddr_translate h root acc x : hpriv h = S_mode -> 0 <= root < 2 ^ 56 -> root mod PGSIZE = 0 -> hcsr h satp = MAKE_SATP root -> x < MAXVA -> acc ∈ [PTE_R; PTE_W; PTE_X] ->
  haddr h acc x = match translate (hmem h) root x with Some (pa, fl) => if has fl acc then Some pa else None | None => None end.
Proof.
  intros Hp Hr Ha Hs Hx Hacc. destruct (satp_root h root Hr Ha Hs) as [S1 S2]. unfold haddr, bare_mode. rewrite Hp, S2, S1, bool_decide_eq_false_2 by done. cbn [orb Z.eqb]. rewrite (proj2 (Z.ltb_lt _ _) Hx). unfold translate.
  destruct (has _ PTE_V); [|done]. cbn [andb]. unfold has, PTE_FLAGS. rewrite <- Z.land_assoc. replace (Z.land 0x3FF acc) with acc; [done|]. apply list_elem_of_In in Hacc. cbn in Hacc. by destruct Hacc as [<-|[<-|[<-|[]]]].
Qed.

Section Paging.
Context (dg kv root : Z) (y : symbols) (F : list Z) (h : hart).
Hypotheses (Hp : hpriv h = S_mode) (Hr : 0 <= root < 2 ^ 56) (Ha : root mod PGSIZE = 0) (Hk : kernel_map y (hmem h) root F).

Lemma main_hart_addr acc x : x < MAXVA -> acc ∈ [PTE_R; PTE_W; PTE_X] ->
  haddr (main_hart dg root kv h) acc x = match translate (hmem h) root x with Some (pa, fl) => if has fl acc then Some pa else None | None => None end.
Proof using Hp Hr Ha.
  intros Hx Hacc. apply (haddr_translate (main_hart dg root kv h) root); [done..| |done|done]. change (hcsr (main_hart dg root kv h) satp) with (u64 (MAKE_SATP root)). apply u64_small. unfold MAKE_SATP, SATP_SV39.
  apply (lor_range _ _ 64); [lia|done|]. rewrite Z.shiftr_div_pow2 by lia. Z.to_euclidean_division_equations. lia.
Qed.

Lemma main_hart_in a n pa perm acc x pa' : maps_to (hmem h) root a n pa perm -> a <= x < a + n -> x < MAXVA -> acc ∈ [PTE_R; PTE_W; PTE_X] -> has (Z.lor perm PTE_V) acc = true -> pa' = pa + (x - a) ->
  haddr (main_hart dg root kv h) acc x = Some pa'.
Proof using Hp Hr Ha. intros Hm Hx Hmx Hacc Hperm ->. by rewrite main_hart_addr, Hm, Hperm. Qed.

Lemma main_hart_not a n pa perm acc x : maps_to (hmem h) root a n pa perm -> a <= x < a + n -> x < MAXVA -> acc ∈ [PTE_R; PTE_W; PTE_X] -> has (Z.lor perm PTE_V) acc = false ->
  haddr (main_hart dg root kv h) acc x = None.
Proof using Hp Hr Ha. intros Hm Hx Hmx Hacc Hperm. by rewrite main_hart_addr, Hm, Hperm. Qed.
End Paging.

(** C5: The memory of the booting kernel: kinit() and kvminit() on a kernel image
    that leaves 138 pages of RAM free, then kvminithart() and trapinithart() on a
    hart in supervisor mode.  Nothing panics.  With paging on, the kernel goes on at
    the same addresses: the registers of the UART, the disk and the PLIC, every load
    from RAM and every store to RAM above the text reach the address itself; the
    text can be executed and a store to it faults; TRAMPOLINE executes the
    trampoline's code; the stack of process i is a page of its own and any access to
    the page below it faults.  Every page of RAM after the image is now a stack, a
    page of the page table or free, and no page is two of these. *)
Theorem boot_paging dg kv e m d (Hm : mach_ok m) (Hfl : freelist d = 0) (Hy : kernel_layout (syms d)) (Hend : sy_end (syms d) <= PHYSTOP - 138 * PGSIZE) :
  exists m' d' F tab l, (kinit;; kvminit) e (mkK m d) = Ret tt e (mkK m' d') /\ length F = NPROC /\
    vm_ok d' (kernel_pagetable d') l tab /\ NoDup (F ++ table_pages tab ++ l) /\
    (forall pa, pa ∈ F ++ table_pages tab ++ l <-> pa mod PGSIZE = 0 /\ PGROUNDUP (sy_end (syms d)) <= pa /\ pa + PGSIZE <= PHYSTOP) /\
    forall h, hpriv h = S_mode -> hmem h = mem d' -> let h' := main_hart dg (kernel_pagetable d') kv h in
      hcsr h' stvec = u64 kv /\
      (forall x, UART0 <= x < UART0 + PGSIZE \/ VIRTIO0 <= x < VIRTIO0 + PGSIZE \/ PLIC <= x < PLIC + 0x400000 -> haddr h' PTE_R x = Some x /\ haddr h' PTE_W x = Some x) /\
      (forall x, KERNBASE <= x < PHYSTOP -> haddr h' PTE_R x = Some x) /\
      (forall x, sy_etext (syms d) <= x < PHYSTOP -> haddr h' PTE_W x = Some x) /\
      (forall x, KERNBASE <= x < sy_etext (syms d) -> haddr h' PTE_X x = Some x /\ haddr h' PTE_W x = None) /\
      (forall o, 0 <= o < PGSIZE -> haddr h' PTE_X (TRAMPOLINE + o) = Some (sy_trampoline (syms d) + o)) /\
      (forall i pa o, F !! i = Some pa -> 0 <= o < PGSIZE -> haddr h' PTE_R (KSTACK (Z.of_nat i) + o) = Some (pa + o) /\ haddr h' PTE_W (KSTACK (Z.of_nat i) + o) = Some (pa + o)) /\
      (forall i o acc, (i < NPROC)%nat -> - PGSIZE <= o < 0 -> acc ∈ [PTE_R; PTE_W; PTE_X] -> haddr h' acc (KSTACK (Z.of_nat i) + o) = None).
Proof.
  destruct (boot_memory e m d Hm Hfl Hy Hend) as (m' & d' & F & tab & l & E & _ & K & HF & V & Hn & Hl). exists m', d', F, tab, l. split_and!; [done|done|done|done|done|].
  intros h Hp Hh h'. rewrite <- Hh in K. pose proof Hy as [[L1 L2] [L3 L4] _]. pose proof V as [V1 _ V3 _]. destruct (pt_page _ _ _ V3 [] _ (pt_root _ _ _ V3)) as [Hal Hrng].
  destruct (page_ok_bounds d' _ V1 (conj Hal Hrng)) as [B1 B2]. assert (0 <= kernel_pagetable d' < 2 ^ 56) as Hr by (unfold PHYSTOP, KERNBASE in *; lia).
  assert (PTE_R ∈ [PTE_R; PTE_W; PTE_X] /\ PTE_W ∈ [PTE_R; PTE_W; PTE_X] /\ PTE_X ∈ [PTE_R; PTE_W; PTE_X]) as (IR & IW & IX) by (clear; split_and!; set_solver).
  pose proof (fun a n pa perm acc x pa' M => main_hart_in dg kv _ h Hp Hr Hal a n pa perm acc x pa' M) as HA. assert (PHYSTOP < MAXVA) as Hmax by done. unfold h'. clear h'.
  split_and!; [done| | | | | | |].
  - assert (KERNBASE < MAXVA /\ UART0 + PGSIZE < KERNBASE /\ VIRTIO0 + PGSIZE < KERNBASE /\ PLIC + 0x400000 < KERNBASE) as (D1 & D2 & D3 & D4) by done.
    intros x [Hx|[Hx|Hx]]; [pose proof (km_uart _ _ _ _ K) as M|pose proof (km_virtio _ _ _ _ K) as M|pose proof (km_plic _ _ _ _ K) as M]; (split; (eapply HA; [exact M|done|lia|done|done|lia])).
  - intros x Hx. destruct (decide (x < sy_etext (syms d))); [eapply HA; [apply (km_text _ _ _ _ K)|lia|lia|done|done|lia]|eapply HA; [apply (km_data _ _ _ _ K)|lia|lia|done|done|lia]].
  - intros x Hx. eapply HA; [apply (km_data _ _ _ _ K)|lia|lia|done|done|lia].
  - intros x Hx. split; [eapply HA; [apply (km_text _ _ _ _ K)|lia|lia|done|done|lia]|]. eapply main_hart_not; [done|done|done|apply (km_text _ _ _ _ K)|lia|lia|done|done].
  - intros o Ho. assert (TRAMPOLINE + o < MAXVA) as Hb by (unfold TRAMPOLINE; lia). eapply HA; [apply (km_tramp _ _ _ _ K)|lia|lia|done|done|lia].
  - intros i pa o Hi Ho. pose proof (lookup_lt_Some _ _ _ Hi) as Hlt. rewrite HF in Hlt. assert (KSTACK (Z.of_nat i) + o < MAXVA) as Hb by (rewrite kstack_eq, MAXVA_eq; unfold PGSIZE in *; lia).
    split; (eapply HA; [apply (km_stack _ _ _ _ K i pa Hi)|lia|lia|done|done|lia]).
  - intros i o acc Hi Ho Hacc. rewrite (main_hart_addr dg kv (kernel_pagetable d') h Hp Hr Hal); [|rewrite kstack_eq, MAXVA_eq; unfold PGSIZE in *; lia|done].
    by rewrite (km_guard _ _ _ _ K i) by (done || lia).
Qed.

Definition boot_hart (m : bytes) : hart := mkHart (fun _ => 0) (fun _ => 0) m S_mode 0.

Lemma boot_paging_witness : exists m' d', (kinit;; kvminit) [] (mkK machine0 kdata0) = Ret tt [] (mkK m' d') /\
  haddr (main_hart 0xfff (kernel_pagetable d') 0x80001000 (boot_hart (mem d'))) PTE_W 0x80010000 = Some 0x80010000.
Proof.
  destruct (boot_paging 0xfff 0x80001000 [] machine0 kdata0 mach_ok0 eq_refl) as (m' & d' & F & tab & l & E & _ & _ & _ & _ & H).
  - split; [split; [split; reflexivity|reflexivity]|split; [split; [vm_compute; congruence|reflexivity]|reflexivity]|reflexivity].
  - vm_compute. congruence.
  - exists m', d'. split; [exact E|]. destruct (H (boot_hart (mem d')) eq_refl eq_refl) as (_ & _ & _ & HW & _). apply HW. split; [vm_compute; congruence|reflexivity].
Defined.
