(* ===== verification/UserMode.v ===== *)
(** * To user mode and back (usertrapret() of kernel/trap.c with trampoline.S)

    usertrapret() on the registers of a hart, userret, the trap that ends the user's
    run and uservec, one after the other: what usertrapret() leaves in the trapframe
    and in the control registers is what the next trap needs. *)

From S2P Require Import Prelude State Spinlock CString Kalloc Sched Vm VmSpec ProcMem Wp UvmSpec KvmSpec Proc ProcSpec ProcThm Trap Riscv Asm.
Open Scope Z_scope.

(** ** usertrapret() *)

Definition hstore (a v : Z) (h : hart) : option hart := pa ← haddr h PTE_W (u64 a); Some (set_hmem (st64 (hmem h) pa v) h).
Definition hload (a : Z) (h : hart) : option Z := pa ← haddr h PTE_R (u64 a); Some (ld64 (hmem h) pa).

(** What usertrapret() reads of the process, and the places of uservec and userret in
    the trampoline. *)
Record trapret : Type := mkTrapret { u_pagetable : Z; u_kstack : Z; u_trapframe : Z; u_usertrap : Z; u_uservec : Z; u_userret : Z }.

(** usertrapret() up to the call of userret(TRAPFRAME, satp). *)
Definition usertrapret_hart (dg : Z) (p : trapret) (h : hart) : option hart :=
  let h := csr_intr_off dg h in
  let h := w_stvec dg (TRAMPOLINE + u_uservec p) h in
  let tf := u_trapframe p in
  h ← hstore (tf + tf_kernel_satp) (r_satp h) h;
  h ← hstore (tf + tf_kernel_sp) (u_kstack p + PGSIZE) h;
  h ← hstore (tf + tf_kernel_trap) (u_usertrap p) h;
  h ← hstore (tf + tf_kernel_hartid) (r_tp h) h;
  let x := r_sstatus h in
  let x := Z.land x (Z.lnot SSTATUS_SPP) in
  let x := Z.lor x SSTATUS_SPIE in
  let h := w_sstatus dg x h in
  epc ← hload (tf + tf_epc) h;
  let h := w_sepc dg epc h in
  let satp := MAKE_SATP (u_pagetable p) in
  Some (set_hpc (TRAMPOLINE + u_userret p) (wreg a1 satp (wreg a0 TRAPFRAME h))).

(** ** Registers that code leaves alone *)

Definition target (c : csr) : csr := match c with sstatus => mstatus | sie => mie | sip => mip | _ => c end.

Definition touches (i : instr) : list csr :=
  match i with
  | Csrw c _ | Csrrw _ c _ => [target c]
  | Mret | Sret => [mstatus]
  | _ => []
  end.

(** No call and no return from a trap. *)
Definition straight (i : instr) : bool := match i with Call _ | Mret | Sret => false | _ => true end.

Lemma csr_write_out dg c c' v h : c <> target c' -> hcsr (csr_write dg c' v h) c = hcsr h c.
Proof. intros Hc. unfold csr_write, store. destruct c'; cbn [hcsr set_hcsr target] in *; by rewrite ?fupd_ne. Qed.

Lemma csr_write_same dg c' v h : hpriv (csr_write dg c' v h) = hpriv h /\ hmem (csr_write dg c' v h) = hmem h /\ hregs (csr_write dg c' v h) = hregs h /\ hpc (csr_write dg c' v h) = hpc h.
Proof. unfold csr_write, store. by destruct c'. Qed.

Lemma execute_frame dg i h h' c : execute dg i h = Some h' -> straight i = true -> (c ∉ touches i) -> hcsr h' c = hcsr h c /\ hpriv h' = hpriv h.
Proof.
  intros H Hs Hc. destruct i; cbn [execute straight touches] in *; try done; try (injection H as <-).
  1,2: destruct (haddr _ _ _); cbn in H; [by injection H as <-|done].
  all: rewrite ?csr_write_out by set_solver; try done.
  - split; [done|apply csr_write_same].
  - split; [|apply csr_write_same]. unfold wreg. cbn [hcsr set_hregs]. apply csr_write_out. set_solver.
Qed.

Lemma run_frame dg l h h' c : run dg l h = Some h' -> forallb straight l = true -> (c ∉ concat (map touches l)) -> hcsr h' c = hcsr h c /\ hpriv h' = hpriv h.
Proof.
  revert h. induction l as [|i l IH]; intros h H Hs Hc; cbn [run forallb map concat] in *; [by injection H as <-|]. apply andb_true_iff in Hs as [Hs1 Hs2]. apply not_elem_of_app in Hc as [Hc1 Hc2].
  destruct (execute dg i h) as [h1|] eqn:E; [|done]. cbn in H. destruct (execute_frame _ _ _ _ _ E Hs1 Hc1) as [E1 E2]. destruct (IH h1 H Hs2 Hc2) as [E3 E4]. by rewrite E3, E4.
Qed.

(** ** What usertrapret() leaves *)

Lemma maps_csr h h' W va n pa : hpriv h' = hpriv h -> hcsr h' satp = hcsr h satp -> hmem h' = hmem h -> maps h W va n pa -> maps h' W va n pa.
Proof.
  intros E1 E2 E3 (H1 & H2 & H3). split_and!; [done|done|]. intros m acc o Ha Ho Hm. rewrite <- (H3 m acc o Ha Ho) by (intros a; rewrite <- E3; by apply Hm).
  unfold haddr, bare_mode, sv39_root. cbn [hpriv hcsr hmem set_hmem]. by rewrite E1, E2.
Qed.

Lemma hstore_maps h W va n pa o v : maps h W va n pa -> (forall a, pa <= a < pa + n -> W a) -> 0 <= o -> o + 8 <= n ->
  hstore (va + o) v h = Some (set_hmem (st64 (hmem h) (pa + o) v) h) /\ maps (set_hmem (st64 (hmem h) (pa + o) v) h) W va n pa.
Proof.
  intros Hm HW H1 H2. unfold hstore. rewrite (maps_addr _ _ _ _ _ PTE_W o Hm) by (done || by right). split; [done|]. apply maps_mem; [done|]. intros a Ha. apply st64_out. intros Hin. apply Ha, HW. lia.
Qed.

(** The words of the trapframe that the next uservec reads. *)
Definition tf_kernel (p : trapret) (h : hart) (m : bytes) : bytes :=
  let tf := u_trapframe p in
  st64 (st64 (st64 (st64 m (tf + tf_kernel_satp) (hcsr h satp)) (tf + tf_kernel_sp) (u_kstack p + PGSIZE)) (tf + tf_kernel_trap) (u_usertrap p)) (tf + tf_kernel_hartid) (hregs h tp).

Lemma tf_kernel_out p h m a : ~ (u_trapframe p <= a < u_trapframe p + 24) -> ~ (u_trapframe p + 32 <= a < u_trapframe p + 40) -> tf_kernel p h m a = m a.
Proof. intros H1 H2. unfold tf_kernel, tf_kernel_satp, tf_kernel_sp, tf_kernel_trap, tf_kernel_hartid. by rewrite !st64_out by lia. Qed.

Lemma tf_kernel_in p h m : let tf := u_trapframe p in let m' := tf_kernel p h m in
  ld64 m' tf = u64 (hcsr h satp) /\ ld64 m' (tf + 8) = u64 (u_kstack p + PGSIZE) /\ ld64 m' (tf + 16) = u64 (u_usertrap p) /\ ld64 m' (tf + 32) = u64 (hregs h tp).
Proof.
  intros tf m'. unfold m', tf_kernel, tf_kernel_satp, tf_kernel_sp, tf_kernel_trap, tf_kernel_hartid. fold tf. rewrite Z.add_0_r.
  split_and!; rewrite ?ld64_st64_ne by lia; apply ld64_st64_eq.
Qed.

(** The status register usertrapret() sets, seen through mstatus. *)
Definition user_status (x : Z) : Z :=
  let x := u64 (merge x (Z.land (Z.land x SSTATUS_BITS) (Z.lnot SSTATUS_SIE)) SSTATUS_BITS) in
  u64 (merge x (Z.lor (Z.land (Z.land x SSTATUS_BITS) (Z.lnot SSTATUS_SPP)) SSTATUS_SPIE) SSTATUS_BITS).

Section Return.
Context (dg : Z) (p : trapret) (h : hart).
Notation tf := (u_trapframe p).
Hypothesis Hk : maps h (tf_page tf) tf PGSIZE tf.

Lemma usertrapret_run : exists h', usertrapret_hart dg p h = Some h' /\ hmem h' = tf_kernel p h (hmem h) /\ hpriv h' = hpriv h /\
  hregs h' a0 = u64 TRAPFRAME /\ hregs h' a1 = u64 (MAKE_SATP (u_pagetable p)) /\ hpc h' = TRAMPOLINE + u_userret p /\
  hcsr h' sepc = u64 (ld64 (hmem h) (tf + 24)) /\ hcsr h' stvec = u64 (TRAMPOLINE + u_uservec p) /\ hcsr h' mstatus = user_status (hcsr h mstatus).
Proof using Hk.
  unfold usertrapret_hart. set (h1 := w_stvec dg _ _). assert (maps h1 (tf_page tf) tf PGSIZE tf) as M1 by by apply (maps_csr h).
  assert (forall a, tf <= a < tf + PGSIZE -> tf_page tf a) as HW by done. unfold tf_kernel_satp, tf_kernel_sp, tf_kernel_trap, tf_kernel_hartid, tf_epc.
  destruct (hstore_maps h1 _ _ _ _ 0 (r_satp h1) M1 HW) as [-> M2]; [done|done|]. cbn [mbind option_bind]. set (h2 := set_hmem _ h1) in *.
  destruct (hstore_maps h2 _ _ _ _ 8 (u_kstack p + PGSIZE) M2 HW) as [-> M3]; [done|done|]. cbn [mbind option_bind]. set (h3 := set_hmem _ h2) in *.
  destruct (hstore_maps h3 _ _ _ _ 16 (u_usertrap p) M3 HW) as [-> M4]; [done|done|]. cbn [mbind option_bind]. set (h4 := set_hmem _ h3) in *.
  destruct (hstore_maps h4 _ _ _ _ 32 (r_tp h4) M4 HW) as [-> M5]; [done|done|]. cbn [mbind option_bind]. set (h5 := set_hmem _ h4) in *. set (h6 := w_sstatus dg _ h5).
  assert (maps h6 (tf_page tf) tf PGSIZE tf) as M6 by by apply (maps_csr h5). unfold hload. rewrite (maps_addr _ _ _ _ _ PTE_R 24 M6) by (done || by left). cbn [mbind option_bind].
  assert (hmem h6 = tf_kernel p h (hmem h)) as Em by reflexivity. eexists. split; [done|]. cbn [hmem hpriv hregs hpc hcsr set_hpc wreg set_hregs].
  split_and!; [done|done|done|done|done| |done|done]. change (u64 (ld64 (hmem h6) (tf + 24)) = u64 (ld64 (hmem h) (tf + 24))). rewrite Em. f_equal. apply ld64_ext. intros x Hx. apply tf_kernel_out; lia.
Qed.
End Return.

Lemma user_status_bits x : Z.testbit (user_status x) 8 = false /\ Z.testbit (user_status x) 5 = true.
Proof.
  unfold user_status. rewrite !testbit_u64, !merge_spec by lia. change (Z.testbit SSTATUS_BITS 8) with true. change (Z.testbit SSTATUS_BITS 5) with true. cbv iota.
  rewrite !Z.lor_spec, !Z.land_spec, !Z.lnot_spec by lia. change (Z.testbit SSTATUS_SPP 8) with true. change (Z.testbit SSTATUS_SPIE 8) with false. change (Z.testbit SSTATUS_SPIE 5) with true. by rewrite andb_false_r, orb_true_r.
Qed.

Lemma sret_user h : Z.testbit (hcsr h mstatus) 8 = false -> Z.testbit (hcsr h mstatus) 5 = true -> hpriv (sret h) = U_mode /\ Z.testbit (hcsr (sret h) mstatus) 1 = true.
Proof.
  intros H8 H5. unfold sret. cbn [hpriv set_hpc set_hpriv]. rewrite H8. split; [done|]. unfold store. cbn [hcsr set_hpc set_hpriv set_hcsr]. rewrite fupd_eq, testbit_u64, !merge_spec by lia.
  change (Z.testbit SSTATUS_SPP 1) with false. change (Z.testbit SSTATUS_SPIE 1) with false. change (Z.testbit SSTATUS_SIE 1) with true. cbv iota. by rewrite Z.shiftr_spec by lia.
Qed.

Lemma take_trap_user cause h : hpriv h = U_mode -> csr_intr_get (take_trap cause h) = false /\ Z.land (r_sstatus (take_trap cause h)) SSTATUS_SPP = 0.
Proof.
  intros Hp. set (x := hcsr (take_trap cause h) mstatus). assert (Z.testbit x 1 = false /\ Z.testbit x 8 = false) as [H1 H8].
  { unfold x, take_trap, store. cbn [hcsr set_hpc set_hpriv set_hcsr]. rewrite !fupd_ne, fupd_eq, !testbit_u64, !merge_spec by (done || lia). rewrite Hp, bool_decide_eq_false_2 by done. done. }
  assert (forall k, 0 <= k -> Z.testbit x k = false -> Z.land (Z.land x SSTATUS_BITS) (Z.shiftl 1 k) = 0) as Hz.
  { intros k Hk Hb. apply Z.bits_inj'. intros n Hn. rewrite Z.shiftl_1_l, !Z.land_spec, Z.bits_0. destruct (decide (n = k)) as [->|Hne]; [by rewrite Hb|]. rewrite Z.pow2_bits_false by done. by rewrite andb_false_r. }
  unfold csr_intr_get, r_sstatus, csr_read. fold x. change SSTATUS_SIE with (Z.shiftl 1 1). split; [|by apply (Hz 8)]. by rewrite (Hz 1).
Qed.

(** ** The cycle *)

(** Writes to the trapframe leave the address space of the process alone. *)
Lemma user_space_tf m m' root tf : user_space m root tf -> (forall a, ~ tf_page tf a -> m' a = m a) -> user_space m' root tf.
Proof.
  intros [(d & l & tab & n & <- & Hs) HRW] Hm. pose proof Hs as [[[[V1 V2 V3 V4] _ _ _] _ _ _] _ Htf Hown]. assert (only_pages (fun q => q = tf) d (set_mem m' d)) as Ho.
  { apply only_pages_set_mem. intros a Ha. apply Hm. by apply (Ha tf). }
  assert (kmem_ok (set_mem m' d) l) as Hk.
  { eapply kmem_ok_frame; [exact V2|done|done|]. intros q a Hq Ha. apply (op_mem _ _ _ Ho). destruct V2 as [_ _ Hf]. rewrite Forall_forall in Hf. apply (off_pages_apart _ q); [apply (Hf q Hq)|done|].
    intros x ->. split; [apply Htf|]. intros ->. apply Hown. rewrite !elem_of_app. tauto. }
  destruct (pspace_keep (fun q => q = tf) d (set_mem m' d) root tf l l tab n Hs) as (Hs' & Hpte & _); [by apply pstep_only| |done| |].
  - intros q ->. split; [apply Htf|]. intros H. apply Hown. rewrite app_assoc, elem_of_app. by left.
  - intros q Hq [->|H]%elem_of_cons; [apply Hown; rewrite !elem_of_app; tauto|]. pose proof (up_nodup _ _ _ _ _ (to_up _ _ _ _ _ (ps_top _ _ _ _ _ _ Hs))) as Hnd. rewrite app_assoc in Hnd. apply NoDup_app in Hnd as (_ & Hnd & _). by apply (Hnd q).
  - split; [by exists (set_mem m' d), l, tab, n|]. change m' with (mem (set_mem m' d)). rewrite (pte_of_at _ _ _ (vo_pt _ _ _ _ (up_vm _ _ _ _ _ (to_up _ _ _ _ _ (ps_top _ _ _ _ _ _ Hs'))))), Hpte, <- (pte_of_at d root tab V3). done.
Qed.

Lemma user_space_satp m root tf : user_space m root tf -> u64 (MAKE_SATP root) = MAKE_SATP root.
Proof.
  intros [(d & l & tab & n & _ & [[[[Hend _ Hpt _] _ _ _] _ _ _] _ _ _]) _]. destruct (pt_page _ _ _ Hpt [] root (pt_root _ _ _ Hpt)) as [Hal Hrng]. destruct (page_ok_bounds d root Hend (conj Hal Hrng)) as [B1 B2].
  apply u64_small. unfold MAKE_SATP, SATP_SV39. apply (lor_range _ _ 64); [done|done|]. rewrite Z.shiftr_div_pow2 by lia. Z.to_euclidean_division_equations. lia.
Qed.

(** The hart when the program of the process is trapped: what only the kernel can
    change is as userret left it. *)
Record stopped (h : hart) (p : trapret) (h' : hart) : Prop := {
  so_mode : hpriv h' = U_mode;
  so_regs : regs_ok h' /\ 0 <= hpc h' < 2 ^ 64;
  so_csr : forall c, c ∈ [stvec; sscratch; satp] -> hcsr h' c = hcsr h c;
  so_space : user_space (hmem h') (u_pagetable p) (u_trapframe p);
  so_tf : forall a, u_trapframe p <= a < u_trapframe p + 40 -> hmem h' a = hmem h a;
}.

Lemma userret_status dg h h' : run dg userret h = Some h' -> Z.testbit (hcsr h mstatus) 8 = false -> Z.testbit (hcsr h mstatus) 5 = true ->
  hpriv h' = U_mode /\ Z.testbit (hcsr h' mstatus) 1 = true /\ hcsr h' stvec = hcsr h stvec.
Proof.
  intros R H8 H5. change userret with (removelast userret ++ [Sret]) in R. rewrite run_app in R. destruct (run dg (removelast userret) h) as [h1|] eqn:E; [|done]. cbn [mbind option_bind run execute] in R. injection R as <-.
  destruct (run_frame _ _ _ _ mstatus E) as [E1 _]; [done|by apply (bool_decide_unpack _)|]. destruct (run_frame _ _ _ _ stvec E) as [E2 _]; [done|by apply (bool_decide_unpack _)|].
  rewrite <- E1 in H8, H5. destruct (sret_user h1 H8 H5) as [S1 S2]. split_and!; [done|done|]. unfold sret, store. cbn [hcsr set_hpc set_hpriv set_hcsr]. by rewrite fupd_ne.
Qed.

(** Membership of given registers. *)
Ltac csr_in := by apply (bool_decide_unpack _).

Lemma uservec_csr dg h h' c : run dg uservec h = Some h' -> (c ∉ [satp; sscratch]) -> hcsr h' c = hcsr h c.
Proof. intros R Hc. apply (run_frame dg uservec h h' c R); [done|]. change (concat _) with [sscratch; satp]. rewrite !not_elem_of_cons in *. tauto. Qed.

(** The words that uservec reads are those usertrapret() stored. *)
Lemma stopped_kernel h p h2 h3 : hmem h2 = tf_kernel p h (hmem h) -> stopped h2 p h3 -> let tf := u_trapframe p in
  ld64 (hmem h3) tf = u64 (hcsr h satp) /\ ld64 (hmem h3) (tf + 8) = u64 (u_kstack p + PGSIZE) /\ ld64 (hmem h3) (tf + 16) = u64 (u_usertrap p) /\ ld64 (hmem h3) (tf + 32) = u64 (hregs h tp).
Proof.
  intros Em [_ _ _ _ Htf] tf. destruct (tf_kernel_in p h (hmem h)) as (K1 & K2 & K3 & K4). rewrite <- Em in *.
  rewrite !(ld64_ext (hmem h3) (hmem h2)) by (intros x Hx; apply Htf; unfold tf in *; lia). done.
Qed.

(** C6: from the kernel to user mode and back.  usertrapret() and userret enter user
    mode at the saved pc with the registers of the trapframe and interrupts on, and
    change no memory but the trapframe.  However the program runs, the next trap goes
    to uservec, which enters usertrap() in supervisor mode with interrupts off, on the
    kernel's page table, at the top of the process's kernel stack and with the hart id
    in tp; the status register says that the trap came from user mode, sepc is the
    user's pc and the trapframe holds the user's registers. *)
Theorem user_mode_cycle dg p h (Hp : hpriv h = S_mode) (Hr : regs_ok h) (Hsatp : 0 <= hcsr h satp < 2 ^ 64)
    (Hk : maps h (tf_page (u_trapframe p)) (u_trapframe p) PGSIZE (u_trapframe p)) (Hs : user_space (hmem h) (u_pagetable p) (u_trapframe p))
    (Hu : 0 <= u_kstack p + PGSIZE < 2 ^ 64 /\ 0 <= u_usertrap p < 2 ^ 64 /\ 0 <= u_uservec p < PGSIZE) :
  let tf := u_trapframe p in
  exists h1 h2, usertrapret_hart dg p h = Some h1 /\ run dg userret h1 = Some h2 /\
    hpriv h2 = U_mode /\ Z.testbit (hcsr h2 mstatus) 1 = true /\ hpc h2 = u64 (ld64 (hmem h) (tf + tf_epc)) /\ hcsr h2 satp = MAKE_SATP (u_pagetable p) /\
    (forall r o, (r, o) ∈ tf_regs -> hregs h2 r = u64 (ld64 (hmem h) (tf + o))) /\ (forall a, ~ (tf <= a < tf + 40) -> hmem h2 a = hmem h a) /\
    forall h3 cause, stopped h2 p h3 -> hpc (take_trap cause h3) = TRAMPOLINE + u_uservec p /\
      exists h4, run dg uservec (take_trap cause h3) = Some h4 /\ hpriv h4 = S_mode /\ csr_intr_get h4 = false /\ Z.land (r_sstatus h4) SSTATUS_SPP = 0 /\
        hcsr h4 satp = hcsr h satp /\ hregs h4 sp = u_kstack p + PGSIZE /\ hregs h4 tp = hregs h tp /\ hpc h4 = u_usertrap p /\ hcsr h4 sepc = hpc h3 /\ hcsr h4 scause = u64 cause /\
        forall r o, (r, o) ∈ tf_regs -> ld64 (hmem h4) (tf + o) = hregs h3 r.
Proof.
  intros tf. destruct (usertrapret_run dg p h Hk) as (h1 & R1 & Em1 & Ep1 & Ea0 & Ea1 & _ & Epc1 & Esv1 & Ems1). destruct Hu as (Hu1 & Hu2 & Hu3). pose proof (user_space_satp _ _ _ Hs) as Eroot.
  destruct (userret_run dg h1 (u_pagetable p) tf) as (h2 & R2 & Em2 & Er2 & Epc2 & Es2 & Esc2).
  { split; [|by rewrite Ep1|by rewrite Ea0|by rewrite Ea1]. rewrite Em1. eapply user_space_tf; [exact Hs|]. intros a Ha. apply tf_kernel_out; unfold PGSIZE, tf in *; lia. }
  destruct (userret_status dg h1 h2 R2) as (U1 & U2 & U3); [rewrite Ems1; apply user_status_bits..|]. rewrite Em1 in *. exists h1, h2. split_and!; try done.
  - by rewrite Epc2.
  - by rewrite Es2.
  - intros r o H. rewrite (Er2 r o H). f_equal. apply ld64_ext. intros x Hx. assert (40 <= o) as Ho; [|apply tf_kernel_out; lia].
    assert (forallb (fun '(_, o) => 40 <=? o) tf_regs = true) as Hb by done. rewrite forallb_forall in Hb. apply list_elem_of_In, Hb in H. lia.
  - intros a Ha. rewrite Em2. apply tf_kernel_out; unfold tf in *; lia.
  - intros h3 cause Hst. assert (u64 (TRAMPOLINE + u_uservec p) = TRAMPOLINE + u_uservec p) as Ev by (apply u64_small; unfold TRAMPOLINE; rewrite MAXVA_eq; unfold PGSIZE in *; lia).
    pose proof (stopped_kernel h p h2 h3 Em2 Hst) as (K1 & K2 & K3 & K4). fold tf in K1, K2, K3, K4. destruct Hst as [T1 [T2 T3] T4 T5 T6].
    assert (hpc (take_trap cause h3) = TRAMPOLINE + u_uservec p) as Epc3 by (unfold take_trap; cbn [hpc set_hpc]; rewrite T4 by csr_in; by rewrite U3, Esv1). split; [done|].
    set (h3' := take_trap cause h3). assert (forall c, (c ∉ [mstatus; sepc; scause]) -> hcsr h3' c = hcsr h3 c) as Hc3 by (intros c Hc; unfold h3', take_trap, store; cbn [hcsr set_hpc set_hpriv set_hcsr]; rewrite !not_elem_of_cons in Hc; destruct Hc as (? & ? & ? & _); by rewrite !fupd_ne).
    destruct (uservec_run dg h3' (u_pagetable p) tf) as (h4 & R4 & Em4 & HK & Hpc4 & Hsatp4 & Hp4).
    { split; [done|done| |]; rewrite Hc3 by csr_in; rewrite T4 by csr_in; [by rewrite Es2|done]. }
    destruct (take_trap_user cause h3 T1) as [I1 I2]. exists h4. assert (forall c, (c ∉ [satp; sscratch]) -> hcsr h4 c = hcsr h3' c) as Hc4 by (intros c Hc; by apply (uservec_csr dg)).
    change (hmem h3') with (hmem h3) in *. rewrite K1 in Hsatp4. rewrite K3 in Hpc4. rewrite !u64_idem in *. split_and!; try done.
    + unfold csr_intr_get, r_sstatus, csr_read in *. rewrite Hc4 by csr_in. exact I1.
    + unfold r_sstatus, csr_read in *. rewrite Hc4 by csr_in. exact I2.
    + rewrite Hsatp4. by apply u64_small.
    + rewrite (HK sp 8), K2, u64_idem by (apply list_elem_of_In; cbn; tauto). by apply u64_small.
    + rewrite (HK tp 32), K4, u64_idem by (apply list_elem_of_In; cbn; tauto). by apply u64_reg.
    + rewrite Hpc4. by apply u64_small.
    + rewrite Hc4 by csr_in. change (hcsr h3' sepc) with (u64 (hpc h3)). by apply u64_small.
    + by rewrite Hc4 by csr_in.
    + intros r o H. rewrite Em4, (saved_in _ _ _ _ _ H). change (hregs h3') with (hregs h3). by apply u64_reg.
Qed.

(** The kernel model's usertrapret() is this one: it leaves the same memory and
    hands userret the same page table and pc. *)
Definition proc_trapret (d : kdata) (p : nat) (uservec userret : Z) : trapret :=
  mkTrapret (p_pagetable (procs d p)) (p_kstack (procs d p)) (p_trapframe (procs d p)) (sy_usertrap (syms d)) uservec userret.

Theorem usertrapret_agrees dg uv ur e m d p h (Hp : mach_ok m) (Hm : c_proc (mycpu_of m) = Some p) (Htp : hregs h tp = Z.of_nat (State.tp m)) (Hsatp : hcsr h satp = MAKE_SATP (kernel_pagetable d))
    (Hmem : hmem h = mem d) (Hk : maps h (tf_page (p_trapframe (procs d p))) (p_trapframe (procs d p)) PGSIZE (p_trapframe (procs d p))) :
  exists h' m' d' pt epc, usertrapret_hart dg (proc_trapret d p uv ur) h = Some h' /\ usertrapret e (mkK m d) = Ret (pt, epc) e (mkK m' d') /\
    mem d' = hmem h' /\ u64 pt = hregs h' a1 /\ u64 epc = hcsr h' sepc.
Proof.
  destruct (usertrapret_run dg (proc_trapret d p uv ur) h Hk) as (h' & R & Em & _ & _ & Ea1 & _ & Esepc & _). set (q := procs d p). set (tf := p_trapframe q) in *.
  set (m4 := st64 (st64 (st64 (st64 (mem d) (tf + tf_kernel_satp) (MAKE_SATP (kernel_pagetable d))) (tf + tf_kernel_sp) (u64 (p_kstack q + PGSIZE))) (tf + tf_kernel_trap) (sy_usertrap (syms d))) (tf + tf_kernel_hartid) (Z.of_nat (State.tp m))).
  assert (m4 = hmem h') as E4 by (rewrite Em; unfold m4, tf_kernel; cbn [u_trapframe u_kstack u_usertrap proc_trapret]; by rewrite Hmem, Hsatp, Htp, st64_u64).
  eexists h', _, (set_mem m4 d), (MAKE_SATP (p_pagetable q)), (ld64 m4 (tf + tf_epc)). split_and!; [exact R| |exact E4|by rewrite Ea1|].
  { unfold usertrapret, set_tf, get_tf, setmem, getmem, myproc_deref. rewrite bind_assoc. mcall (myproc_run e m d Hp). rewrite Hm. cbn [deref]. mrun. repeat (rewrite !bind_assoc || mrun). reflexivity. }
  rewrite Esepc, E4, Em. f_equal. apply ld64_ext. intros x Hx. unfold tf_epc in Hx. change (u_trapframe (proc_trapret d p uv ur)) with tf in *. apply tf_kernel_out; change (u_trapframe (proc_trapret d p uv ur)) with tf; lia.
Qed.

(** ** Witnesses *)

(** The process of [one_page] is about to return, on hart 2 with paging off. *)
Definition hart_ret (m : bytes) : hart := mkHart (fun r => match r with tp => 2 | _ => 7 end) (fun _ => 0) m S_mode 0.
Definition ret_of (root : Z) : trapret := mkTrapret root 0x3fffffd000 (pg0 0) 0x80003000 0 0x90.

Lemma hart_ret_ok m : regs_ok (hart_ret m) /\ 0 <= hcsr (hart_ret m) satp < 2 ^ 64 /\ maps (hart_ret m) (tf_page (pg0 0)) (pg0 0) PGSIZE (pg0 0).
Proof. split; [intros r; destruct r; cbn; lia|]. split; [cbn; lia|]. by apply maps_bare. Qed.

Lemma hart_ret_space d root l tab n : pspace d root (pg0 0) l tab n -> has (pte_of (mem d) root TRAPFRAME) PTE_R && has (pte_of (mem d) root TRAPFRAME) PTE_W = true ->
  user_space (hmem (hart_ret (mem d))) (u_pagetable (ret_of root)) (u_trapframe (ret_of root)).
Proof. intros Hs H. exact (tr_space _ _ _ (hart_user_trapped d root (pg0 0) l tab n Hs H)). Qed.

Lemma ret_of_ok root : 0 <= u_kstack (ret_of root) + PGSIZE < 2 ^ 64 /\ 0 <= u_usertrap (ret_of root) < 2 ^ 64 /\ 0 <= u_uservec (ret_of root) < PGSIZE.
Proof. by cbn. Qed.

Lemma user_mode_cycle_witness : exists h1 h2, usertrapret_hart 0x222 (ret_of (fst tabled)) (hart_ret (mem one_page)) = Some h1 /\ run 0x222 userret h1 = Some h2 /\ hpriv h2 = U_mode /\
  forall h3, stopped h2 (ret_of (fst tabled)) h3 -> exists h4, run 0x222 uservec (take_trap 8 h3) = Some h4 /\ hregs h4 tp = 2 /\ hpc h4 = 0x80003000.
Proof.
  destruct one_page_ok as (l & tab & Hs & _).
  assert (has (pte_of (mem one_page) (fst tabled) TRAPFRAME) PTE_R && has (pte_of (mem one_page) (fst tabled) TRAPFRAME) PTE_W = true) as Hrw by (vm_compute; reflexivity).
  destruct (hart_ret_ok (mem one_page)) as (H1 & H2 & H3).
  destruct (user_mode_cycle 0x222 (ret_of (fst tabled)) (hart_ret (mem one_page)) eq_refl H1 H2 H3 (hart_ret_space one_page (fst tabled) l tab 1 Hs Hrw) (ret_of_ok _)) as (h1 & h2 & R1 & R2 & U & _ & _ & _ & _ & _ & H).
  exists h1, h2. split; [exact R1|]. split; [exact R2|]. split; [exact U|]. intros h3 Hst. destruct (H h3 8 Hst) as (_ & h4 & R4 & _ & _ & _ & _ & _ & E1 & E2 & _). exists h4. exact (conj R4 (conj E1 E2)).
Defined.
